(* ===== verification/_CoqProject ===== *)
-Q . S2P
Prelude.v
Bytes.v
Varint.v
PacketNumber.v
Types.v
FrameBase.v
CalcData.v
FrameStream.v
FrameAck.v
FrameParse.v
PacketBase.v
LongPacket.v
ShortPacket.v
PacketParse.v
PacketCreate.v
StreamId.v
StreamState.v
ConnBase.v
StreamBase.v
QTime.v
RecvHistory.v
Rtt.v
PnManage.v
LossTimer.v
Congestion.v
AckRecord.v
StreamImpl.v
Keys.v
PacketProtect.v
ProtectProps.v
CryptoStream.v
KeyUpdate.v
KeyUpdateProps.v
Datagram.v
Pacer.v
Status.v
SentHistory.v
LossDetection.v
TransportParam.v
ParamTransfer.v
ParamTyped.v
ConnId.v
ConnIdIssue.v
ConnIdAccept.v
Path.v
PathProps.v
Close.v
RecvSorter.v
StreamConn.v
StreamConnProps.v
QuicContext.v
ContextRecv.v
ContextKeeps.v
ContextTracks.v
ContextDemo.v
ContextNumbers.v
ContextProps.v
Server.v
SenderProps.v
ServerDemo.v
ServerProps.v
