(* ===== verification/Prelude.v ===== *)
(** * futils: a verification library for the QUIC transport of on-keyday/utils

    The repository is a C++20 header library. Its largest self-contained
    subsystem is a QUIC transport (RFC 9000, 9001, 9002) under
    src/src/include/fnet/quic and src/src/lib/fnet/quic, on top of the byte
    cursors of src/src/include/binary and the spans of
    src/src/include/view. This library models that transport, bottom up, and proves what each layer
    promises to the one above it.

    ** How the parts interact

    - bytes: [binary::reader] and [binary::writer] are cursors over a span;
      varints, packet numbers, frames and packets are read and written
      through them;
    - frames: every frame struct has [get_type], [parse], [len], [render];
      [parse_frames] splits a packet payload into frames, [fwriter] builds
      one and collects the packet status;
    - packets: [create_packet] puts a header, a packet number and a payload
      written in place into a datagram; [parse_packets] splits a received
      datagram and hands each packet to packet protection and to the
      connection;
    - streams: identifiers, credit counters, the two state machines of a
      stream, the connection-level limits, and the data transfer that ties
      them to STREAM and MAX_* frames;
    - status: what the connection knows of its peer: packets received and
      to be acknowledged, packets sent and in flight, round-trip time,
      handshake progress, probe timeout, congestion window, pacing, and the
      loss timer that ties them together. [Status] is the facade the
      histories of sent and received packets report to;
    - retransmission: a packet in flight holds shared records; what was sent
      in it (stream data, CRYPTO data, connection ids, probes) waits on the
      record and is sent again when the record says lost;
    - packet protection: TLS gives secrets, keys are derived from them, a
      packet is encrypted in place and its header masked; key updates replace
      the 1-RTT secrets generation by generation;
    - connection: transport parameters, the connection ids of both ends,
      paths and their validation, the search for the packet size, closing;
    - context: the object that owns all of these. The application gives it
      the datagrams that arrive and asks it for datagrams to send; it decides
      which frames go into a packet, which packets into a datagram, and what
      a received frame or packet is handed to;
    - server: contexts behind one socket, found by connection id, and a queue
      of those that may have something to send.

    ** Conventions

    A C++ integer is a [Z] and every operation that can leave its width is
    followed by the wrap of its type ([u64], [u32], [s64], ...). A struct is
    a [Record] inside a [Module] with the name of the struct, together with
    its member functions. A member function that changes its object returns
    the new object; [bool] results that the source combines with [&&] are
    combined with [andM], which stops at the first [false] and keeps the
    writes made before it. An enum that is cast from the wire is the integer;
    one that only holds its enumerators is an inductive type. A template
    parameter or an abstract base is a class with its laws ([Frame]/
    [FrameLaws], [PartialPacket]/[PartialLaws], [Algorithm]/
    [AlgorithmLaws], [ConnHandlerLaws]), and so is the library of
    cryptographic primitives ([CryptoLib]/[CryptoLibLaws], [KdfLaws]), with
    concrete instances that satisfy the laws; the client's theorems are proved against the class. A
    callback is a function with a state of its own. Every call of the clock
    is an argument; in the context, whose calls thread one state, operations
    are functions of a state monad and call number n of the clock sees the
    readings the class [Env] gives for n. Locks guard single operations, each of which is one
    step.

    ** Files

    - Prelude: integers, short-circuit sequencing, tactics, hints;
    - Bytes: binary/reader.h, binary/writer.h, binary/number.h, binary/buf.h;
    - Varint, PacketNumber, Types: fnet/quic/varint.h, packet_number.h,
      types.h, packet/summary.h, ioresult.h, transport_error.h;
    - FrameBase, FrameStream, FrameAck, CalcData, FrameParse: fnet/quic/frame;
    - PacketBase, LongPacket, ShortPacket, PacketParse, PacketCreate:
      fnet/quic/packet and view/iovec.h ([shift]);
    - StreamId, StreamState, ConnBase, StreamBase: fnet/quic/stream and
      fnet/quic/stream/core;
    - QTime, Rtt, PnManage, LossTimer, Congestion: fnet/quic/time.h and
      fnet/quic/status;
    - Pacer, Status: the facade status.h, its pacer and its callbacks;
    - RecvHistory, SentHistory, AckRecord: fnet/quic/ack and
      fnet/quic/resend; LossDetection holds the theorems on Status and
      SentHistory together;
    - StreamImpl, CryptoStream, Datagram: stream/impl, crypto/handshaker.h,
      dgram, the users of the records of AckRecord;
    - RecvSorter: stream/impl/recv_stream.h and set_receiver.h, the reader
      that puts the fragments of a stream in order;
    - StreamConn, with StreamConnProps: stream/impl/conn.h,
      conn_handler.h and conn_handler_interface.h, the streams of a
      connection;
    - TransportParam, with ParamTransfer and ParamTyped for its theorems:
      fnet/quic/transport_parameter;
    - ConnId, with ConnIdIssue and ConnIdAccept: fnet/quic/connid;
    - Path, with PathProps: fnet/quic/path;
    - Close: fnet/quic/close and fnet/quic/token;
    - Keys, PacketProtect, with ProtectProps: crypto/keys.h, tls_suite.h,
      secret.h and lib/fnet/quic/crypto (key derivation, header masks, AEAD
      of a packet in place);
    - KeyUpdate, with KeyUpdateProps: crypto/update.h, secret_manager.h,
      suite.h, encdec_suite.h (installed secrets, key updates, the choice of
      the key of a packet);
    - QuicContext (sending, closing, timeouts, parameters), ContextRecv
      (receiving, Retry, starting): context/context.h, context/config.h and
      crypto/decrypt.h. The TLS connection and the environment are the
      classes [TLSConn] and [Env]. ContextKeeps is a small logic of the
      monad and the preorders on its states, ContextTracks carries them
      through every operation, ContextDemo has a TLS stack of four messages
      with which two connections run, ContextNumbers and ContextProps hold
      the theorems;
    - Server: server/server.h, many connections on one socket. SenderProps
      has the queue of senders under every interleaving of its critical
      sections, ServerDemo two servers that run, ServerProps the theorems.

    ** What the theorems show

    - round trips: what is written is read back, for varints, packet
      numbers, the first byte, every kind of frame, payloads, ACK ranges,
      long header packets, Version Negotiation, whole coalesced datagrams
      with any packet protection that keeps headers and lengths, transport
      parameters, session tickets and connection ids from one end to the
      other;
    - reading untrusted bytes: a read either fails or gives a value in range
      and consumes what it says; parsing payloads and datagrams ends, and the
      packets shown to the callback partition the datagram;
    - routines against references: the data that fits a frame is maximal,
      ACK ranges agree with the RFC, rendering in place agrees with
      rendering, the credit counter refines granted and spent amounts, the
      received ranges refine the set of packets received;
    - invariants under any sequence of operations: the stream state
      machines, the bytes in flight (with what the code forgets to
      subtract), the ids issued and accepted, the path in use, the size of
      datagrams;
    - accounting: acknowledgements and loss detection, with the loss delay of
      the code, remove exactly the packets they should, a send neither drops nor duplicates a byte that
      waits for an acknowledgement, TLS is given its stream in order, and so
      is the reader of a stream whose fragments line up;
    - packet protection: what one end encrypts with the 1-RTT keys of a
      SHA-256 suite the other decrypts, across key updates of either end,
      under the conditions the theorem names; the secrets follow the key
      schedule generation by generation (SHA-384 secrets are never updated);
      the Initial keys of both ends agree;
    - streams of a connection: no stream id is handed out twice, the frame
      of a peer creates exactly the streams up to the one it names;
    - the connection as a whole, under any sequence of calls and any
      datagrams: closing is final and silent when the peer closed, what the
      handshake established stays, a packet number is used for one packet,
      which is appended to what the datagram holds, a
      received packet is handled once, a payload acts as its frames do, the
      peer's parameters are believed only if they name the ids of this
      handshake, a Retry is believed once; in an example two connections run
      against each other complete the handshake and deliver a message;
    - the server: a notification is never lost between the threads that give
      it and the one that serves it, the loop that looks for a datagram
      returns unless a handler does not, a datagram changes the one
      connection its first packet names, only open connections have
      deadlines; the packet that closes a connection is not sent; in an
      example two servers connect;
    - progress: a loss timer that expires removes a packet, the search for
      the packet size ends with the right size, but for one case that is
      named;
    - functional behaviour on every branch of sending, receiving,
      retransmission, id issuing and accepting, loss timer selection,
      congestion events;
    - where the code does not do what its comments or the RFC say, the
      behaviour it has is a theorem, named in the findings of the manifest.

    ** Fuel and bounds

    Loops over a list are structural. [correct_delta_loop], [parse_frames]
    and [packets_loop] have fuel: the first needs two rounds because a
    length field shrinks at most to one byte, the others one round per
    remaining byte, since a round that goes on consumed one; the theorems
    prove that the fuel given suffices. [parse_loop] of the transport
    parameters likewise has one round per byte; [challenge_loop] of the path
    probes has two rounds per probe, since a lost probe is added to the list
    once; [timeout_loop], which does not always end, has an arbitrary fuel,
    and the theorem about it holds for every fuel; the context takes it from
    [probe_fuel] of [Env], and running out is the undefined result.
    [create_packet] of the server needs two rounds for each handler in the
    queue, as proved. Lengths of spans are below 2^63, as
    for any object of the language.

    ** Not modelled

    - the cryptographic primitives (AEAD, header mask, HKDF) and the TLS
      stack, which are parameters, and the loading of their libraries;
    - sockets, logging, memory management (allocators, dynamic frames):
      calls into other code, or no effect on the values modelled;
    - visiting the fields of a packet ([visit_rvec]) and the text of errors:
      reflection and output;
    - [RecvPacketHistory] leaves out a counter that is never read;
    - [render_ack_direct]: an alternative ACK writer nothing calls;
    - [to_transport_param]: nothing calls it;
    - the locks, the trace callback and the pointers of the application that
      the context only stores: its calls are made one after another;
    - of the server, [schedule_recv] and the callbacks for streams and
      transport parameters, which only call the application, and the
      lock-free list behind the queue, which is taken as a queue with one
      consumer;
    - the rest of the repository (HTTP, JSON, DNS, tools, parsers, a C
      compiler, ...), which is independent of the transport. *)

From stdpp Require Import base list numbers strings.
From Stdlib Require Import ZArith Lia.

#[global] Open Scope Z_scope.

(** ** Machine integers

    A fixed-width C++ integer is a [Z]; every operation of the source that
    can leave the width is followed by the wrap of its type. *)

Definition two64 : Z := 2 ^ 64.
Definition two32 : Z := 2 ^ 32.

(** Conversion to [std::uint64_t], [std::uint32_t] and [byte]. *)
Definition u64 (z : Z) : Z := z mod 2 ^ 64.
Definition u32 (z : Z) : Z := z mod 2 ^ 32.
Definition u8 (z : Z) : Z := z mod 2 ^ 8.

(** Conversion to [std::int64_t] and [int] (two's complement, as C++20
    defines it). *)
Definition s64 (z : Z) : Z := (z + 2 ^ 63) mod 2 ^ 64 - 2 ^ 63.
Definition s32 (z : Z) : Z := (z + 2 ^ 31) mod 2 ^ 32 - 2 ^ 31.

Definition u64_max : Z := 2 ^ 64 - 1.

Definition is_u64 (z : Z) : Prop := 0 <= z < 2 ^ 64.
Definition is_s64 (z : Z) : Prop := - 2 ^ 63 <= z < 2 ^ 63.
Definition is_byte (z : Z) : Prop := 0 <= z < 256.

Lemma u64_small z : is_u64 z -> u64 z = z.
Proof. apply Z.mod_small. Qed.

Lemma s64_small z : is_s64 z -> s64 z = z.
Proof. unfold is_s64, s64. intros H. rewrite Z.mod_small; lia. Qed.

Lemma s32_small z : - 2 ^ 31 <= z < 2 ^ 31 -> s32 z = z.
Proof. unfold s32. intros H. rewrite Z.mod_small; lia. Qed.

Lemma u64_range z : is_u64 (u64 z).
Proof. unfold is_u64, u64. apply Z.mod_pos_bound. lia. Qed.

Lemma s64_range z : is_s64 (s64 z).
Proof. unfold is_s64, s64. pose proof (Z.mod_pos_bound (z + 2 ^ 63) (2 ^ 64)). lia. Qed.

Lemma u8_range z : is_byte (u8 z).
Proof. unfold is_byte, u8. apply Z.mod_pos_bound. lia. Qed.

Lemma u8_small z : is_byte z -> u8 z = z.
Proof. unfold is_byte. intros. apply Z.mod_small. lia. Qed.

Create HintDb quic.
#[export] Hint Resolve u64_range s64_range u8_range : quic.

(** ** Case analysis on boolean comparisons *)

(** [zcases] splits every boolean integer test of the goal and hands the
    resulting inequalities to [lia] where they are contradictory. *)
Ltac zcase_one :=
  match goal with
  | |- context [Z.eqb ?a ?b] => destruct (Z.eqb_spec a b)
  | |- context [Z.ltb ?a ?b] => destruct (Z.ltb_spec a b)
  | |- context [Z.leb ?a ?b] => destruct (Z.leb_spec a b)
  | H : context [Z.eqb ?a ?b] |- _ => destruct (Z.eqb_spec a b)
  | H : context [Z.ltb ?a ?b] |- _ => destruct (Z.ltb_spec a b)
  | H : context [Z.leb ?a ?b] |- _ => destruct (Z.leb_spec a b)
  end.

Ltac zcases := repeat (zcase_one; simpl in *; try lia; try congruence).

(** Rewrite a comparison whose outcome [lia] can decide. *)
Lemma ltb_true a b : a < b -> (a <? b) = true.
Proof. apply Z.ltb_lt. Qed.
Lemma ltb_false a b : b <= a -> (a <? b) = false.
Proof. apply Z.ltb_ge. Qed.
Lemma leb_true a b : a <= b -> (a <=? b) = true.
Proof. apply Z.leb_le. Qed.
Lemma leb_false a b : b < a -> (a <=? b) = false.
Proof. apply Z.leb_gt. Qed.
Lemma eqb_true a b : a = b -> (a =? b) = true.
Proof. apply Z.eqb_eq. Qed.
Lemma eqb_false a b : a <> b -> (a =? b) = false.
Proof. apply Z.eqb_neq. Qed.

(** ** Sizes and sub-ranges of byte vectors *)

(** The size of a span, as the [size_t] the source computes with. *)
Definition size {A} (l : list A) : Z := Z.of_nat (length l).

Lemma filter_none {A} (P : A -> Prop) `{forall x, Decision (P x)} l : Forall (fun x => ~ P x) l -> filter P l = [].
Proof. induction 1; [done |]. by rewrite filter_cons, decide_False. Qed.

Lemma filter_all {A} (P : A -> Prop) `{forall x, Decision (P x)} l : Forall P l -> filter P l = l.
Proof. induction 1 as [| x l Hx Hl IH]; [done |]. by rewrite filter_cons, decide_True, IH. Qed.

Lemma size_nonneg {A} (l : list A) : 0 <= size l.
Proof. unfold size. lia. Qed.

Lemma size_app {A} (l k : list A) : size (l ++ k) = size l + size k.
Proof. unfold size. rewrite length_app. lia. Qed.

Lemma size_cons {A} (x : A) l : size (x :: l) = 1 + size l.
Proof. unfold size. simpl. lia. Qed.

Lemma size_nil {A} : size (@nil A) = 0.
Proof. reflexivity. Qed.

#[export] Hint Resolve size_nonneg : quic.
Create Rewrite HintDb size.
#[export] Hint Rewrite @size_app @size_cons @size_nil : size.

(** ** Short-circuit chains

    [f() && g() && ...] over calls that mutate their arguments: each call
    returns its boolean and the new state, and a failing call stops the
    chain with the state it has left. *)

Section ShortCircuit.
Context {S : Type}.

Definition andM (p q : S -> bool * S) : S -> bool * S :=
  fun s => let '(b, s') := p s in if b then q s' else (false, s').

Definition retM (b : bool) : S -> bool * S := fun s => (b, s).

Lemma andM_ok p q s s' r : p s = (true, s') -> q s' = r -> andM p q s = r.
Proof. unfold andM. by intros -> ->. Qed.

Lemma andM_stop p q s s' : p s = (false, s') -> andM p q s = (false, s').
Proof. unfold andM. by intros ->. Qed.

Lemma andM_true_inv p q s s2 :
  andM p q s = (true, s2) -> exists s1, p s = (true, s1) /\ q s1 = (true, s2).
Proof. unfold andM. destruct (p s) as [[] s1]; eauto. discriminate. Qed.

(** A chain with a step that always fails fails. *)
Lemma andM_fails_r p q s : (forall s', fst (q s') = false) -> fst (andM p q s) = false.
Proof. intros H. unfold andM. destruct (p s) as [[] s']; [apply H | done]. Qed.

Lemma andM_fails_l p q s : fst (p s) = false -> fst (andM p q s) = false.
Proof. unfold andM. destruct (p s) as [[] s']; done. Qed.
End ShortCircuit.

Declare Scope quic_scope.
Delimit Scope quic_scope with quic.
Notation "p ;& q" := (andM p q) (at level 59, right associativity) : quic_scope.
#[global] Open Scope quic_scope.

(** ** Bits *)

(** Bits below [k] of a shifted value are zero, bits of a small value are
    below [k]: [or] is then addition. *)
Lemma land_shiftl_small a b k :
  0 <= k -> 0 <= b < 2 ^ k -> Z.land (Z.shiftl a k) b = 0.
Proof.
  intros Hk Hb. apply Z.bits_inj'. intros i Hi.
  rewrite Z.land_spec, Z.bits_0.
  destruct (Z.ltb_spec i k).
  - by rewrite Z.shiftl_spec_low.
  - destruct (Z.eq_dec b 0) as [-> | ]; [rewrite Z.bits_0; apply andb_false_r |].
    rewrite (Z.bits_above_log2 b i); [apply andb_false_r | lia |].
    apply Z.log2_lt_pow2; [lia |].
    assert (2 ^ k <= 2 ^ i) by (apply Z.pow_le_mono_r; lia). lia.
Qed.

Lemma lor_shiftl_add a b k :
  0 <= k -> 0 <= b < 2 ^ k -> Z.lor (Z.shiftl a k) b = a * 2 ^ k + b.
Proof.
  intros Hk Hb. pose proof (Z.add_lor_land (Z.shiftl a k) b) as H.
  rewrite land_shiftl_small in H by lia. rewrite Z.shiftl_mul_pow2 in * by lia. lia.
Qed.

Lemma lor_add_disjoint a b : Z.land a b = 0 -> Z.lor a b = a + b.
Proof. intros H. pose proof (Z.add_lor_land a b). lia. Qed.

Lemma land_ones_mod a k : 0 <= k -> Z.land a (2 ^ k - 1) = a mod 2 ^ k.
Proof. intros. rewrite <- Z.land_ones by lia. by rewrite Z.ones_equiv, Z.sub_1_r. Qed.

Lemma land_lxor_distr_l a b c : Z.land (Z.lxor a b) c = Z.lxor (Z.land a c) (Z.land b c).
Proof.
  apply Z.bits_inj'. intros i Hi. rewrite Z.lxor_spec, !Z.land_spec, Z.lxor_spec.
  by destruct (Z.testbit a i), (Z.testbit b i), (Z.testbit c i).
Qed.

Lemma land_255 a : Z.land a 255 = a mod 256.
Proof. apply (land_ones_mod a 8). lia. Qed.
