(* ===== verification/Bytes.v ===== *)
(** * Byte readers and writers (src/src/include/binary)

    Models [binary::reader], [binary::writer] and the big/little endian
    codecs of [binary::Buf] for a reader or writer over a plain span, which
    is how every QUIC component of the sources builds them (no stream
    handler: [handler == nullptr]). *)

From stdpp Require Import base list.
From Stdlib Require Import ZArith Lia.
From S2P Require Import Prelude.

(** ** Spans *)

(** [basic_rvec::rsubstr]: an out-of-range position gives the empty span, a
    too long request is clipped. *)
Definition rsubstr (l : list Z) (pos n : Z) : list Z :=
  if size l <? pos then []
  else
    let n := if size l - pos <? n then size l - pos else n in
    take (Z.to_nat n) (drop (Z.to_nat pos) l).

(** The loop of [make_copy_fn]: [dst[i] = src[i]] over the common prefix. *)
Definition copy_bytes (dst src : list Z) : list Z :=
  take (length dst) src ++ drop (length src) dst.

(** The value [make_copy_fn] returns. *)
Definition copy_result (dst src : list Z) : Z :=
  if size src =? size dst then 0
  else if (if size dst <? size src then size dst else size src) =? size dst
       then -1 else 1.

(** ** Integers as bytes ([binary::Buf<T>], [n] is [sizeof(T)]) *)

(** [Buf::write_be]: byte [i] is [(in >> ((n - 1 - i) * 8)) & 0xff]. *)
Fixpoint write_be (n : nat) (v : Z) : list Z :=
  match n with
  | O => []
  | S n' => Z.land (Z.shiftr v (8 * Z.of_nat n')) 255 :: write_be n' v
  end.

(** [Buf::read_be]: [out |= Out(data[i]) << ((n - 1 - i) * 8)]. *)
Fixpoint read_be (l : list Z) : Z :=
  match l with
  | [] => 0
  | b :: l' => Z.lor (Z.shiftl b (8 * Z.of_nat (length l'))) (read_be l')
  end.

(** [Buf::write_le]: byte [i] is [(in >> (i * 8)) & 0xff]. *)
Fixpoint write_le (n : nat) (v : Z) : list Z :=
  match n with
  | O => []
  | S n' => Z.land v 255 :: write_le n' (Z.shiftr v 8)
  end.

(** [Buf::read_le]: [out |= Out(data[i]) << (i * 8)]. *)
Fixpoint read_le (l : list Z) : Z :=
  match l with
  | [] => 0
  | b :: l' => Z.lor b (Z.shiftl (read_le l') 8)
  end.

(** ** [binary::reader] *)

Record reader := mk_reader { rd_buf : list Z; rd_index : nat }.

Definition new_reader (l : list Z) : reader := mk_reader l 0.

Definition rd_remain (r : reader) : list Z := rsubstr (rd_buf r) (Z.of_nat (rd_index r)) u64_max.

(** [read()]: the part already consumed. *)
Definition rd_read (r : reader) : list Z := rsubstr (rd_buf r) 0 (Z.of_nat (rd_index r)).

Definition rd_empty (r : reader) : bool := size (rd_buf r) =? Z.of_nat (rd_index r).

Definition rd_offset_internal (r : reader) (add : Z) : reader :=
  if size (rd_buf r) - Z.of_nat (rd_index r) <? add
  then mk_reader (rd_buf r) (length (rd_buf r))
  else mk_reader (rd_buf r) (rd_index r + Z.to_nat add).

(** [offset(add)]; without a handler [stream_read] does nothing. *)
Definition rd_offset (r : reader) (add : Z) : reader := rd_offset_internal r add.

Definition read_best_internal (r : reader) (n : Z) : list Z * reader :=
  (rsubstr (rd_buf r) (Z.of_nat (rd_index r)) n, rd_offset_internal r n).

(** [read_internal]: all [n] bytes or the index put back. *)
Definition read_internal (r : reader) (n : Z) : list Z * bool * reader :=
  let '(data, r') := read_best_internal r n in
  if size data =? n then (data, true, r')
  else (data, false, mk_reader (rd_buf r') (rd_index r)).

(** [top()]: the next byte, 0 at the end. *)
Definition rd_top (r : reader) : Z :=
  if 1 <=? size (rd_remain r) then default 0 (rd_remain r !! 0%nat) else 0.

(** [read(wvec)] into a buffer of [n] bytes that holds [old]. *)
Definition rd_read_into (r : reader) (old : list Z) : bool * list Z * reader :=
  let '(data, ok, r') := read_internal r (size old) in
  if ok then (copy_result old data =? 0, copy_bytes old data, r')
  else (false, old, r').

(** [read_num<T>] in big endian, [n] = [sizeof(T)]. *)
Definition read_num (n : nat) (r : reader) (old : Z) : bool * Z * reader :=
  let '(data, ok, r') := read_internal r (Z.of_nat n) in
  if ok then (true, read_be data, r') else (false, old, r').

(** ** [binary::writer] *)

Record writer := mk_writer { wr_buf : list Z; wr_index : nat }.

Definition new_writer (l : list Z) : writer := mk_writer l 0.

Definition wr_remain (w : writer) : list Z := rsubstr (wr_buf w) (Z.of_nat (wr_index w)) u64_max.

Definition wr_written (w : writer) : list Z := rsubstr (wr_buf w) 0 (Z.of_nat (wr_index w)).

Definition wr_offset_internal (w : writer) (add : Z) : writer :=
  if size (wr_buf w) - Z.of_nat (wr_index w) <? add
  then mk_writer (wr_buf w) (length (wr_buf w))
  else mk_writer (wr_buf w) (wr_index w + Z.to_nat add).

Definition wr_offset (w : writer) (add : Z) : writer := wr_offset_internal w add.

(** Assignments through the span [remain()]: bytes [0 .. length bs) of it. *)
Definition wr_poke (w : writer) (bs : list Z) : writer :=
  mk_writer (take (wr_index w) (wr_buf w) ++ copy_bytes (drop (wr_index w) (wr_buf w)) bs)
            (wr_index w).

(** [write(rvec)]: copies what fits; a short buffer ends full and fails. *)
Definition wr_write (t : list Z) (w : writer) : bool * writer :=
  let res := copy_result (wr_remain w) t in
  let w' := wr_poke w t in
  if res <? 0 then (false, mk_writer (wr_buf w') (length (wr_buf w')))
  else (true, mk_writer (wr_buf w') (wr_index w' + length t)).

(** [write(data, n)]: [n] copies of one byte, as many as fit. *)
Definition wr_fill (data n : Z) (w : writer) : bool * writer :=
  let rem := rsubstr (wr_buf w) (Z.of_nat (wr_index w)) n in
  let w' := wr_poke w (replicate (length rem) data) in
  (size rem =? n, mk_writer (wr_buf w') (wr_index w' + length rem)).

(** [write_num<T>] in big endian. *)
Definition write_num (n : nat) (v : Z) (w : writer) : bool * writer :=
  if negb (Z.of_nat n <=? size (wr_remain w)) then (false, w)
  else (true, wr_offset (wr_poke w (write_be n v)) (Z.of_nat n)).

(** ** Parse actions on an object's fields

    A [parse] member function of the sources is a short-circuit chain of
    reads into the fields of [*this]; the state is the object and the
    reader. *)

(** [r.read(field, n)]: the span is assigned even when the read fails. *)
Definition rd_field {F} (n : F -> Z) (set : list Z -> F -> F)
    : F * reader -> bool * (F * reader) :=
  fun '(f, r) => let '(data, ok, r') := read_internal r (n f) in (ok, (set data f, r')).

(** [(field = r.read_best(~0), true)]: everything that is left. *)
Definition rd_best_field {F} (set : list Z -> F -> F)
    : F * reader -> bool * (F * reader) :=
  fun '(f, r) => let '(data, r') := read_best_internal r u64_max in (true, (set data f, r')).

(** [r.read(array)] into a fixed-size array field. *)
Definition rd_array_field {F} (get : F -> list Z) (set : list Z -> F -> F)
    : F * reader -> bool * (F * reader) :=
  fun '(f, r) => let '(ok, data, r') := rd_read_into r (get f) in (ok, (set data f, r')).

(** [binary::read_num(r, field)]. *)
Definition rd_num_field {F} (n : nat) (get : F -> Z) (set : Z -> F -> F)
    : F * reader -> bool * (F * reader) :=
  fun '(f, r) => let '(ok, v, r') := read_num n r (get f) in (ok, (set v f, r')).

(** [cond(f) ? p : q] inside a chain. *)
Definition ifM {F} (c : F -> bool) (p q : F * reader -> bool * (F * reader))
    : F * reader -> bool * (F * reader) :=
  fun '(f, r) => if c f then p (f, r) else q (f, r).

(** [(field = v, true)] inside a chain. *)
Definition setM {F} (g : F -> F) : F * reader -> bool * (F * reader) :=
  fun '(f, r) => (true, (g f, r)).

(** * Lemmas *)

(** ** Well-formed readers and writers: the class invariant of both types *)

Definition rd_ok (r : reader) : Prop :=
  (rd_index r <= length (rd_buf r))%nat /\ size (rd_buf r) <= u64_max.

Definition wr_ok (w : writer) : Prop :=
  (wr_index w <= length (wr_buf w))%nat /\ size (wr_buf w) <= u64_max.

(** Free space of a writer. *)
Definition wr_room (w : writer) : Z := size (wr_buf w) - Z.of_nat (wr_index w).

(** The writer after [bs] has been appended, and the reader after [n] bytes. *)
Definition wr_put (w : writer) (bs : list Z) : writer :=
  mk_writer (take (wr_index w) (wr_buf w) ++ bs ++ drop (wr_index w + length bs) (wr_buf w))
            (wr_index w + length bs).

Definition rd_advance (r : reader) (n : nat) : reader := mk_reader (rd_buf r) (rd_index r + n).

(** [emits p bs]: the write action [p] appends exactly [bs] when they fit
    and reports failure when they do not. *)
Definition emits (p : writer -> bool * writer) (bs : list Z) : Prop :=
  forall w, wr_ok w ->
    (size bs <= wr_room w -> p w = (true, wr_put w bs)) /\
    (wr_room w < size bs -> fst (p w) = false).

(** [reads_at p f bs rest f']: on a reader whose remaining bytes are
    [bs ++ rest] the parse action [p] succeeds, consumes exactly [bs] and
    turns the object [f] into [f']. *)
Definition reads_at {F} (p : F * reader -> bool * (F * reader)) (f : F)
    (bs rest : list Z) (f' : F) : Prop :=
  forall r, rd_ok r -> rd_remain r = bs ++ rest ->
    p (f, r) = (true, (f', rd_advance r (length bs))).

(** [advances p]: a parse action never moves the index back, keeps the
    buffer, and stays inside it. *)
Definition advances {F} (p : F * reader -> bool * (F * reader)) : Prop :=
  forall f r b f' r', rd_ok r -> p (f, r) = (b, (f', r')) ->
    rd_buf r' = rd_buf r /\ (rd_index r <= rd_index r')%nat /\ rd_ok r'.

Create HintDb wire.

Lemma rsubstr_drop l pos :
  (pos <= length l)%nat -> size l <= u64_max -> rsubstr l (Z.of_nat pos) u64_max = drop pos l.
Proof.
  unfold rsubstr, size. intros Hp Hs. rewrite ltb_false by lia.
  rewrite Nat2Z.id. destruct (Z.ltb_spec (Z.of_nat (length l) - Z.of_nat pos) u64_max);
    apply take_ge; rewrite length_drop; lia.
Qed.

Lemma rsubstr_take l n : (n <= length l)%nat -> rsubstr l 0 (Z.of_nat n) = take n l.
Proof.
  unfold rsubstr, size. intros. rewrite ltb_false by lia. rewrite ltb_false by lia.
  by rewrite Nat2Z.id.
Qed.

Lemma rd_remain_eq r : rd_ok r -> rd_remain r = drop (rd_index r) (rd_buf r).
Proof. intros []. by apply rsubstr_drop. Qed.

Lemma wr_remain_eq w : wr_ok w -> wr_remain w = drop (wr_index w) (wr_buf w).
Proof. intros []. by apply rsubstr_drop. Qed.

Lemma wr_remain_size w : wr_ok w -> size (wr_remain w) = wr_room w.
Proof.
  intros H. rewrite wr_remain_eq by done. destruct H. unfold wr_room, size.
  rewrite length_drop. lia.
Qed.

Lemma wr_written_eq w : wr_ok w -> wr_written w = take (wr_index w) (wr_buf w).
Proof. intros []. by apply rsubstr_take. Qed.

Lemma wr_put_ok w bs : wr_ok w -> size bs <= wr_room w -> wr_ok (wr_put w bs).
Proof.
  unfold wr_ok, wr_room, size. intros [H1 H2] H3. simpl.
  rewrite !length_app, length_take, length_drop. lia.
Qed.

Lemma wr_put_room w bs :
  wr_ok w -> size bs <= wr_room w -> wr_room (wr_put w bs) = wr_room w - size bs.
Proof.
  unfold wr_ok, wr_room, size. intros [H1 H2] H3. simpl.
  rewrite !length_app, length_take, length_drop. lia.
Qed.

Lemma wr_put_put w a b :
  wr_ok w -> size a + size b <= wr_room w -> wr_put (wr_put w a) b = wr_put w (a ++ b).
Proof.
  unfold wr_ok, wr_room, size, wr_put. intros [H1 H2] H3. simpl.
  assert (Hl : (wr_index w + length a)%nat = length (take (wr_index w) (wr_buf w) ++ a))
    by (rewrite length_app, length_take; lia).
  f_equal; [| rewrite length_app; lia].
  rewrite (app_assoc (take _ _) a), take_app_length', drop_app_add' by done.
  by rewrite drop_drop, length_app, <- !app_assoc, Nat.add_assoc.
Qed.

Lemma wr_put_written w bs :
  wr_ok w -> size bs <= wr_room w -> wr_written (wr_put w bs) = wr_written w ++ bs.
Proof.
  intros H1 H2. rewrite !wr_written_eq; auto using wr_put_ok.
  unfold wr_put. simpl. rewrite app_assoc.
  apply take_app_length'. rewrite length_app, length_take. destruct H1. lia.
Qed.

(** ** Composition of write actions *)

Lemma emits_andM p q a b : emits p a -> emits q b -> emits (p ;& q) (a ++ b).
Proof.
  intros Hp Hq w Hw. rewrite size_app.
  pose proof (size_nonneg a). pose proof (size_nonneg b). destruct (Hp w Hw) as [Hp1 Hp2].
  split; intros Hs.
  - rewrite <- wr_put_put by (done || lia).
    eapply andM_ok; [apply Hp1; lia |]. apply Hq; [apply wr_put_ok | rewrite wr_put_room]; auto; lia.
  - destruct (Z.le_gt_cases (size a) (wr_room w)) as [Ha | Ha].
    + unfold andM. rewrite Hp1 by lia. apply Hq; [apply wr_put_ok; auto |].
      rewrite wr_put_room by auto. lia.
    + specialize (Hp2 ltac:(lia)). unfold andM. destruct (p w) as [[] w']; [discriminate | done].
Qed.

Lemma emits_ext p q bs : (forall w, p w = q w) -> emits q bs -> emits p bs.
Proof. intros E H w Hw. rewrite E. auto. Qed.

Lemma wr_put_nil w : wr_put w [] = w.
Proof.
  destruct w as [buf i]. unfold wr_put. simpl. rewrite Nat.add_0_r, take_drop. done.
Qed.

Lemma emits_ret_true : emits (retM true) [].
Proof.
  intros w Hw. rewrite size_nil. unfold retM. rewrite wr_put_nil. split; [done |].
  destruct Hw. unfold wr_room, size. lia.
Qed.

Lemma wr_poke_put w bs :
  wr_ok w -> size bs <= wr_room w -> wr_poke w bs = mk_writer (wr_buf (wr_put w bs)) (wr_index w).
Proof.
  unfold wr_ok, wr_room, size, wr_poke, wr_put, copy_bytes. intros [H1 H2] H3. simpl.
  f_equal. f_equal. rewrite length_drop. rewrite take_ge by lia. by rewrite drop_drop.
Qed.

Lemma emits_write t : emits (wr_write t) t.
Proof.
  intros w Hw. unfold wr_write, copy_result. rewrite wr_remain_size by done.
  split; intros Hs.
  - rewrite wr_poke_put by done. zcases; reflexivity.
  - zcases.
Qed.

(** Filling with one byte is a write of that many copies. *)
Lemma wr_fill_put x n w :
  wr_ok w -> 0 <= n <= wr_room w -> n <= u64_max ->
  wr_fill x n w = (true, wr_put w (replicate (Z.to_nat n) x)).
Proof.
  intros Hw [H0 H1] H2. pose proof Hw as [Hi Hs]. unfold wr_fill.
  assert (Hl : length (rsubstr (wr_buf w) (Z.of_nat (wr_index w)) n) = Z.to_nat n).
  { unfold rsubstr, wr_room, size in *. rewrite ltb_false by lia. rewrite ltb_false by lia.
    rewrite Nat2Z.id, length_take, length_drop. lia. }
  unfold size at 1. rewrite Hl, Z2Nat.id, Z.eqb_refl by done.
  rewrite wr_poke_put by (auto; unfold size; rewrite length_replicate; lia).
  f_equal. unfold wr_put. simpl. by rewrite length_replicate.
Qed.

Lemma emits_poke n bs (p : writer -> bool * writer) :
  length bs = n ->
  (forall w, wr_ok w -> p w = if Z.of_nat n <=? wr_room w
                    then (true, wr_offset (wr_poke w bs) (Z.of_nat n)) else (false, w)) ->
  emits p bs.
Proof.
  intros Hn Hp w Hw. rewrite Hp by done. unfold size. rewrite Hn. split; intros Hs.
  - rewrite leb_true by done. rewrite wr_poke_put by (unfold size; lia || done).
    f_equal. unfold wr_offset, wr_offset_internal. simpl.
    destruct (wr_put_ok w bs Hw) as [H1 H2]; [unfold size; lia |]. simpl in *.
    rewrite ltb_false by (unfold size; lia). unfold wr_put. simpl. by rewrite Nat2Z.id, Hn.
  - by rewrite leb_false.
Qed.

(** ** Integers and bytes *)

Lemma length_write_be n v : length (write_be n v) = n.
Proof. induction n; simpl; auto. Qed.

Lemma emits_num n v : emits (write_num n v) (write_be n v).
Proof.
  apply (emits_poke n); [apply length_write_be |]. intros w Hw. unfold write_num.
  rewrite wr_remain_size by done. by destruct (Z.of_nat n <=? wr_room w).
Qed.

Lemma write_be_bytes n v : Forall is_byte (write_be n v).
Proof.
  induction n; simpl; constructor; auto.
  rewrite land_255. apply Z.mod_pos_bound. lia.
Qed.

Lemma read_be_bound l : Forall is_byte l -> 0 <= read_be l < 2 ^ (8 * size l).
Proof.
  induction 1 as [| b l Hb Hl IH]; [split; [done | reflexivity] |].
  rewrite size_cons. simpl. unfold size in *. unfold is_byte in Hb.
  rewrite lor_shiftl_add by lia.
  replace (8 * (1 + Z.of_nat (length l))) with (8 + 8 * Z.of_nat (length l)) by lia.
  rewrite Z.pow_add_r by lia. change (2 ^ 8) with 256. nia.
Qed.

Lemma read_be_cons b l :
  Forall is_byte l -> read_be (b :: l) = b * 2 ^ (8 * size l) + read_be l.
Proof.
  intros H. change (read_be (b :: l)) with (Z.lor (Z.shiftl b (8 * size l)) (read_be l)).
  apply lor_shiftl_add; [pose proof (size_nonneg l); lia |]. by apply read_be_bound.
Qed.

Lemma read_write_be n v : read_be (write_be n v) = v mod 2 ^ (8 * Z.of_nat n).
Proof.
  induction n as [| n IH]; [simpl; by rewrite Z.mod_1_r |].
  change (write_be (S n) v) with (Z.land (Z.shiftr v (8 * Z.of_nat n)) 255 :: write_be n v).
  rewrite read_be_cons by apply write_be_bytes.
  unfold size. rewrite length_write_be, IH, land_255, Z.shiftr_div_pow2 by lia.
  replace (8 * Z.of_nat (S n)) with (8 * Z.of_nat n + 8) by lia.
  rewrite Z.pow_add_r by lia. change (2 ^ 8) with 256.
  pose proof (Z.pow_pos_nonneg 2 (8 * Z.of_nat n)).
  rewrite Z.rem_mul_r by lia. lia.
Qed.

Lemma write_be_mod n v k :
  (n <= k)%nat -> write_be n (v mod 2 ^ (8 * Z.of_nat k)) = write_be n v.
Proof.
  induction n as [| n IH]; [done |]. intros Hk. simpl. rewrite IH by lia. f_equal.
  rewrite !land_255, !Z.shiftr_div_pow2 by lia.
  replace (8 * Z.of_nat k) with (8 * Z.of_nat n + 8 + 8 * Z.of_nat (k - n - 1)) by lia.
  rewrite !Z.pow_add_r by lia. change (2 ^ 8) with 256.
  pose proof (Z.pow_pos_nonneg 2 (8 * Z.of_nat n)).
  pose proof (Z.pow_pos_nonneg 2 (8 * Z.of_nat (k - n - 1))).
  set (A := 2 ^ (8 * Z.of_nat n)) in *. set (B := 2 ^ (8 * Z.of_nat (k - n - 1))) in *.
  rewrite <- Z.mul_assoc, Z.rem_mul_r by lia.
  rewrite (Z.mul_comm A (_ mod _)), Z.div_add by lia.
  rewrite (Z.div_small (v mod A)) by (apply Z.mod_pos_bound; lia). rewrite Z.add_0_l.
  rewrite Z.rem_mul_r by lia. rewrite (Z.mul_comm 256), Z.mod_add, Z.mod_mod by lia. done.
Qed.

Lemma write_read_be l : Forall is_byte l -> write_be (length l) (read_be l) = l.
Proof.
  induction 1 as [| b l Hb Hl IH]; [done |].
  pose proof (read_be_bound l Hl) as Hr. unfold size in Hr.
  change (length (b :: l)) with (S (length l)).
  change (write_be (S (length l)) (read_be (b :: l))) with
    (Z.land (Z.shiftr (read_be (b :: l)) (8 * Z.of_nat (length l))) 255 ::
     write_be (length l) (read_be (b :: l))).
  rewrite read_be_cons by done. unfold size. f_equal.
  - rewrite land_255, Z.shiftr_div_pow2, Z.div_add_l by lia.
    rewrite Z.div_small by lia. rewrite Z.add_0_r. apply Z.mod_small. done.
  - rewrite <- (write_be_mod _ _ (length l)), Z.add_comm, Z.mod_add by lia.
    by rewrite Z.mod_small.
Qed.

(** ** Reading *)

Lemma rd_advance_ok r n :
  rd_ok r -> (n <= length (rd_remain r))%nat -> rd_ok (rd_advance r n).
Proof.
  intros H. rewrite rd_remain_eq by done. rewrite length_drop. destruct H. unfold rd_ok. simpl. lia.
Qed.

Lemma rd_advance_remain r a b :
  rd_ok r -> rd_remain r = a ++ b -> rd_remain (rd_advance r (length a)) = b.
Proof.
  intros H Hr. rewrite rd_remain_eq by
    (apply rd_advance_ok; [done | rewrite Hr, length_app; lia]).
  rewrite rd_remain_eq in Hr by done. simpl. rewrite <- drop_drop, Hr. apply drop_app_length.
Qed.

Lemma rd_advance_advance r a b : rd_advance (rd_advance r a) b = rd_advance r (a + b).
Proof. unfold rd_advance. simpl. f_equal. lia. Qed.

Lemma rd_remain_length r : rd_ok r -> length (rd_remain r) = (length (rd_buf r) - rd_index r)%nat.
Proof. intros. by rewrite rd_remain_eq, length_drop. Qed.

Lemma rd_empty_false r b l : rd_ok r -> rd_remain r = b :: l -> rd_empty r = false.
Proof.
  intros H E. rewrite rd_remain_eq in E by done. apply (f_equal length) in E.
  rewrite length_drop in E. simpl in E. unfold rd_empty, size. apply eqb_false. lia.
Qed.

Lemma rd_empty_true r : rd_ok r -> rd_remain r = [] -> rd_empty r = true.
Proof.
  intros H E. rewrite rd_remain_eq in E by done. apply (f_equal length) in E.
  rewrite length_drop in E. simpl in E. destruct H. unfold rd_empty, size. apply eqb_true. lia.
Qed.

Lemma rd_empty_remain r : rd_ok r -> rd_empty r = false -> exists b l, rd_remain r = b :: l.
Proof.
  intros H E. destruct (rd_remain r) eqn:Er; [| eauto]. by rewrite rd_empty_true in E.
Qed.

Lemma rd_not_drained r : rd_ok r -> (0 < length (rd_remain r))%nat -> rd_empty r = false.
Proof. intros H E. destruct (rd_remain r) eqn:Er; [simpl in E; lia | by eapply rd_empty_false]. Qed.

Lemma read_best_spec r n :
  rd_ok r -> 0 <= n ->
  read_best_internal r n =
    (take (Z.to_nat (n `min` size (rd_remain r))) (rd_remain r),
     rd_advance r (Z.to_nat (n `min` size (rd_remain r)))).
Proof.
  intros H Hn. unfold read_best_internal, rsubstr, rd_offset_internal, size.
  rewrite rd_remain_length, rd_remain_eq by done. destruct H.
  rewrite Nat2Z.id, ltb_false by lia.
  destruct (Z.ltb_spec (Z.of_nat (length (rd_buf r)) - Z.of_nat (rd_index r)) n).
  - unfold rd_advance. f_equal; [f_equal | f_equal]; lia.
  - rewrite Z.min_l by lia. done.
Qed.

Lemma read_internal_ok r a b n :
  rd_ok r -> rd_remain r = a ++ b -> size a = n ->
  read_internal r n = (a, true, rd_advance r (length a)).
Proof.
  intros H Hr Hn. unfold read_internal.
  rewrite read_best_spec; [| done | rewrite <- Hn; apply size_nonneg].
  pose proof (size_nonneg b). rewrite Hr, size_app, Hn, Z.min_l by lia. rewrite <- Hn.
  unfold size. rewrite Nat2Z.id, take_app_length. by rewrite Z.eqb_refl.
Qed.

Lemma read_internal_short r n :
  rd_ok r -> size (rd_remain r) < n -> read_internal r n = (rd_remain r, false, r).
Proof.
  intros H Hn. pose proof (size_nonneg (rd_remain r)). unfold read_internal.
  rewrite read_best_spec by (done || lia). rewrite Z.min_r by lia.
  rewrite take_ge by (unfold size; lia). rewrite eqb_false by lia. by destruct r.
Qed.

Lemma read_internal_cases r n :
  rd_ok r -> 0 <= n ->
  (exists a b, rd_remain r = a ++ b /\ size a = n /\
     read_internal r n = (a, true, rd_advance r (length a))) \/
  (size (rd_remain r) < n /\ read_internal r n = (rd_remain r, false, r)).
Proof.
  intros H Hn. destruct (Z.le_gt_cases n (size (rd_remain r))) as [Hle | Hgt].
  - left. exists (take (Z.to_nat n) (rd_remain r)), (drop (Z.to_nat n) (rd_remain r)).
    assert (size (take (Z.to_nat n) (rd_remain r)) = n)
      by (unfold size in *; rewrite length_take; lia).
    rewrite take_drop. split_and!; auto.
    eapply read_internal_ok; eauto. by rewrite take_drop.
  - right. split; [lia |]. apply read_internal_short; auto.
Qed.

(** ** Composition of parse actions *)

Lemma reads_andM {F} (p q : F * reader -> bool * (F * reader)) f f1 f2 a b rest :
  reads_at p f a (b ++ rest) f1 -> reads_at q f1 b rest f2 ->
  reads_at (p ;& q) f (a ++ b) rest f2.
Proof.
  intros Hp Hq r Hr Hrem. rewrite <- app_assoc in Hrem.
  eapply andM_ok; [by apply Hp |]. rewrite length_app, <- rd_advance_advance.
  apply Hq; [apply rd_advance_ok; [done | rewrite Hrem, length_app; lia] |].
  by apply rd_advance_remain.
Qed.

Lemma reads_ret {F} (f : F) rest : reads_at (retM true) f [] rest f.
Proof. intros [] Hr _. unfold retM, rd_advance. simpl. by rewrite Nat.add_0_r. Qed.

Lemma reads_field {F} (n : F -> Z) set f a rest f' :
  n f = size a -> set a f = f' -> reads_at (rd_field n set) f a rest f'.
Proof. intros Hn <- r Hr Hrem. simpl. by rewrite (read_internal_ok r a rest) by auto. Qed.

Lemma reads_best {F} (set : list Z -> F -> F) f a f' :
  set a f = f' -> reads_at (rd_best_field set) f a [] f'.
Proof.
  intros <- r Hr Hrem. rewrite app_nil_r in Hrem. unfold rd_best_field.
  assert (size a <= u64_max).
  { destruct Hr as [Hi Hs]. rewrite <- Hrem. unfold size in *.
    rewrite rd_remain_length by done. lia. }
  rewrite read_best_spec by (done || lia). rewrite Hrem, Z.min_r by lia.
  rewrite take_ge by (unfold size; lia). unfold size. by rewrite Nat2Z.id.
Qed.

Lemma reads_array {F} (get : F -> list Z) set f a rest f' :
  length (get f) = length a -> set a f = f' -> reads_at (rd_array_field get set) f a rest f'.
Proof.
  intros Hn <- r Hr Hrem. simpl. unfold rd_read_into.
  rewrite (read_internal_ok r a rest) by (auto; unfold size; lia).
  unfold copy_result, copy_bytes, size. rewrite Hn, Z.eqb_refl.
  rewrite take_ge by lia. rewrite drop_ge by lia. by rewrite app_nil_r.
Qed.

Lemma reads_num {F} n (get : F -> Z) set f a rest f' :
  length a = n -> set (read_be a) f = f' -> reads_at (rd_num_field n get set) f a rest f'.
Proof.
  intros Hn <- r Hr Hrem. simpl. unfold read_num.
  by rewrite (read_internal_ok r a rest) by (auto; unfold size; lia).
Qed.

Lemma reads_if {F} (c : F -> bool) p q f a rest f' :
  reads_at (if c f then p else q) f a rest f' -> reads_at (ifM c p q) f a rest f'.
Proof. intros H r. specialize (H r). simpl. by destruct (c f). Qed.

Lemma reads_set {F} (g : F -> F) f rest f' : g f = f' -> reads_at (setM g) f [] rest f'.
Proof. intros <- [] Hr _. unfold setM, rd_advance. simpl. by rewrite Nat.add_0_r. Qed.

(** ** Parse actions only move forward *)

Lemma advances_andM {F} (p q : F * reader -> bool * (F * reader)) :
  advances p -> advances q -> advances (p ;& q).
Proof.
  intros Hp Hq f r b f' r' Hr. unfold andM.
  destruct (p (f, r)) as [[] [f1 r1]] eqn:E.
  - destruct (Hp _ _ _ _ _ Hr E) as (Hb & Hi & Hok). intros E2.
    destruct (Hq _ _ _ _ _ Hok E2) as (Hb2 & Hi2 & Hok2). split_and!; auto; [congruence | lia].
  - intros [= <- <- <-]. by apply (Hp _ _ _ _ _ Hr E).
Qed.

Lemma advances_ret {F} b : advances (@retM (F * reader) b).
Proof. intros f r b' f' r' Hr [= <- <- <-]. split_and!; auto. Qed.

Lemma read_internal_neg r n :
  rd_ok r -> n < 0 -> read_internal r n = ([], false, r).
Proof.
  intros [H1 H2] Hn. unfold read_internal, read_best_internal, rsubstr, rd_offset_internal, size.
  rewrite ltb_false by lia. rewrite ltb_false by lia. rewrite Z2Nat.nonpos by lia.
  rewrite take_0, (eqb_false (Z.of_nat (length []))) by (cbn; lia).
  simpl. by destruct r.
Qed.

Lemma read_internal_advances r n data ok r' :
  rd_ok r -> read_internal r n = (data, ok, r') ->
  rd_buf r' = rd_buf r /\ (rd_index r <= rd_index r')%nat /\ rd_ok r'.
Proof.
  intros Hr E. destruct (Z.lt_ge_cases n 0) as [Hn | Hn].
  { rewrite read_internal_neg in E by done. by injection E as <- <- <-. }
  destruct (read_internal_cases r n Hr Hn) as [(a & b & Ha & _ & E') | [_ E']];
    rewrite E' in E; injection E as <- <- <-; split_and!; auto; simpl; try lia.
  apply rd_advance_ok; [done | rewrite Ha, length_app; lia].
Qed.

Lemma advances_field {F} (n : F -> Z) set : advances (rd_field n set).
Proof.
  intros f r b f' r' Hr. unfold rd_field. destruct (read_internal r (n f)) as [[data ok] r1] eqn:E.
  intros [= <- <- <-]. eapply read_internal_advances; eauto.
Qed.

Lemma advances_best {F} (set : list Z -> F -> F) : advances (rd_best_field set).
Proof.
  intros f r b f' r' Hr. unfold rd_best_field. rewrite read_best_spec by (done || lia).
  intros [= <- <- <-]. split_and!; auto; simpl; [lia |].
  apply rd_advance_ok; [done | unfold size; lia].
Qed.

Lemma advances_array {F} (get : F -> list Z) set : advances (rd_array_field get set).
Proof.
  intros f r b f' r' Hr. unfold rd_array_field, rd_read_into.
  destruct (read_internal r (size (get f))) as [[data ok] r1] eqn:E.
  apply read_internal_advances in E; auto.
  destruct ok; intros [= <- <- <-]; auto.
Qed.

Lemma advances_num {F} n (get : F -> Z) set : advances (rd_num_field n get set).
Proof.
  intros f r b f' r' Hr. unfold rd_num_field, read_num.
  destruct (read_internal r (Z.of_nat n)) as [[data ok] r1] eqn:E.
  apply read_internal_advances in E; auto.
  destruct ok; intros [= <- <- <-]; auto.
Qed.

Lemma advances_if {F} (c : F -> bool) p q : advances p -> advances q -> advances (ifM c p q).
Proof. intros Hp Hq f r b f' r' Hr. simpl. destruct (c f); eauto. Qed.

Lemma advances_set {F} (g : F -> F) : advances (setM g).
Proof. intros f r b f' r' Hr [= <- <- <-]. auto. Qed.

#[export] Hint Resolve advances_andM advances_ret advances_best advances_array
  advances_num advances_if advances_field : wire.
#[export] Hint Resolve emits_andM emits_ret_true emits_write : wire.

#[global] Arguments write_be : simpl never.
#[global] Arguments read_be : simpl never.
