(* ===== verification/Varint.v ===== *)
(** * QUIC variable-length integers (src/src/include/fnet/quic/varint.h)

    [Module varint] is the namespace [fnet::quic::varint]. *)

From stdpp Require Import base list.
From Stdlib Require Import ZArith Lia.
From S2P Require Import Prelude Bytes.

Module varint.

(** [struct Value]: a 64-bit value and the wire length, 0 for "shortest". *)
Record Value := mk_Value { value : Z; vlen : Z }.

(** The implicit constructor [Value(std::uint64_t)]. *)
Definition of_uint (v : Z) : Value := mk_Value v 0.

(** First value that does not fit a length (0 for a length that is none). *)
Definition border (len : Z) : Z :=
  if len =? 1 then 0x40
  else if len =? 2 then 0x4000
  else if len =? 4 then 0x40000000
  else if len =? 8 then 0x4000000000000000
  else 0.

Definition in_range (v len : Z) : bool := v <? border len.

Definition min_len (v : Z) : Z :=
  if in_range v 1 then 1
  else if in_range v 2 then 2
  else if in_range v 4 then 4
  else if in_range v 8 then 8
  else 0.

Definition is_min_len (v : Value) : bool := min_len (value v) =? vlen v.

Definition len_mask (len : Z) : Z :=
  if len =? 1 then 0x00
  else if len =? 2 then 0x40
  else if len =? 4 then 0x80
  else if len =? 8 then 0xC0
  else 0xff.

Definition len_bit_mask (bwide : Z) : Z :=
  if bwide =? 1 then 0xC0
  else if bwide =? 2 then 0xC000
  else if bwide =? 4 then 0xC0000000
  else if bwide =? 8 then 0xC000000000000000
  else 0.

Definition mask_to_len (mask : Z) : Z :=
  let m := Z.land mask 0xC0 in
  if m =? 0x00 then 1
  else if m =? 0x40 then 2
  else if m =? 0x80 then 4
  else if m =? 0xC0 then 8
  else 0.

(** [len(const Value&)]: the wire length a value will take. *)
Definition len (v : Value) : Z := if vlen v =? 0 then min_len (value v) else vlen v.

(** [read_unchecked]: [data &= ~len_bit_mask(len)] on 64 bits. *)
Definition read_unchecked (input : list Z) (len : Z) : Z :=
  let clear d := Z.land d (Z.lxor u64_max (len_bit_mask len)) in
  if len =? 1 then clear (read_be (take 1 input))
  else if len =? 2 then clear (read_be (take 2 input))
  else if len =? 4 then clear (read_be (take 4 input))
  else if len =? 8 then clear (read_be (take 8 input))
  else u64_max.

(** [std::tuple<Value, bool> read(reader&)]. *)
Definition read (input : reader) : Value * bool * reader :=
  if rd_empty input then (mk_Value 0 0, false, input)
  else
    let vl := mask_to_len (default 0 (rd_remain input !! 0%nat)) in
    let '(data, ok, input') := read_internal input vl in
    if ok then (mk_Value (read_unchecked data vl) vl, true, input')
    else (mk_Value 0 vl, false, input').

(** [bool read(reader&, Value& output)] into a field of an object: the field
    is assigned whether or not the read succeeds. *)
Definition read_to {F} (set : Value -> F -> F) : F * reader -> bool * (F * reader) :=
  fun '(f, r) => let '(v, ok, r') := read r in (ok, (set v f, r')).

(** The bytes [write_unchecked] stores (none for a length that is none). *)
Definition or_head (m : Z) (l : list Z) : list Z :=
  match l with [] => [] | b :: l' => Z.lor b m :: l' end.

Definition write_unchecked (v len : Z) : list Z :=
  if len =? 1 then [u8 v]
  else if len =? 2 then or_head (len_mask 2) (write_be 2 v)
  else if len =? 4 then or_head (len_mask 4) (write_be 4 v)
  else if len =? 8 then or_head (len_mask 8) (write_be 8 v)
  else [].

Definition write (v : Value) (output : writer) : bool * writer :=
  let rem := wr_remain output in
  if vlen v =? 0 then
    let len := min_len (value v) in
    if len =? 0 then (false, output)
    else if size rem <? len then (false, output)
    else (true, wr_offset (wr_poke output (write_unchecked (value v) len)) len)
  else
    if negb (in_range (value v) (vlen v)) then (false, output)
    else if size rem <? vlen v then (false, output)
    else (true, wr_offset (wr_poke output (write_unchecked (value v) (vlen v))) (vlen v)).

(** ** Specification *)

(** A value that can be written: in the range of its length, or, without a
    length, below 2^62. *)
Definition writable (v : Value) : Prop :=
  0 <= value v /\ if vlen v =? 0 then value v < border 8 else value v < border (vlen v).

(** The encoding, and the value a reader gets back: same number, the length
    made explicit. *)
Definition enc (v : Value) : list Z := write_unchecked (value v) (len v).
Definition norm (v : Value) : Value := mk_Value (value v) (len v).

Definition is_len (l : Z) : Prop := l = 1 \/ l = 2 \/ l = 4 \/ l = 8.

Lemma border_pos_len l v : 0 <= v -> v < border l -> is_len l.
Proof. unfold border, is_len. zcases. Qed.

Lemma min_len_cases v : 0 <= v -> v < border 8 -> is_len (min_len v) /\ v < border (min_len v).
Proof. unfold min_len, in_range, is_len. intros. zcases; auto. Qed.

Lemma writable_len v : writable v -> is_len (len v) /\ value v < border (len v).
Proof.
  unfold writable, len. intros [H0 H]. destruct (Z.eqb_spec (vlen v) 0).
  - by apply min_len_cases.
  - split; [by eapply border_pos_len | done].
Qed.

Lemma enc_length v l : is_len l -> length (write_unchecked v l) = Z.to_nat l.
Proof. by intros [-> | [-> | [-> | ->]]]. Qed.

Lemma enc_size v : writable v -> size (enc v) = len v.
Proof.
  intros H. destruct (writable_len v H) as [Hl _]. unfold enc, size.
  rewrite enc_length by done. destruct Hl as [-> | [-> | [-> | ->]]]; done.
Qed.

Lemma len_norm v : writable v -> len (norm v) = len v.
Proof.
  intros H. destruct (writable_len v H) as [Hl _]. unfold norm. unfold len at 1. simpl.
  rewrite eqb_false; [done |]. destruct Hl as [-> | [-> | [-> | ->]]]; done.
Qed.

Lemma write_eq v w :
  writable v -> wr_ok w ->
  write v w = if len v <=? wr_room w
              then (true, wr_offset (wr_poke w (enc v)) (len v)) else (false, w).
Proof.
  intros H Hw. destruct (writable_len v H) as [Hl Hb]. destruct H as [H0 H1].
  unfold write, enc, in_range. rewrite wr_remain_size by done. unfold len in *.
  destruct (Z.eqb_spec (vlen v) 0) as [E | E].
  - rewrite (eqb_false (min_len _)) by (destruct Hl as [Hl | [Hl | [Hl | Hl]]]; rewrite Hl; lia).
    zcases; done.
  - rewrite ltb_true by done. zcases; done.
Qed.

Lemma emits_varint v : writable v -> emits (write v) (enc v).
Proof.
  intros H. pose proof (enc_size v H) as Hs. apply (emits_poke (Z.to_nat (len v))).
  - unfold size in Hs. lia.
  - intros w Hw. rewrite write_eq by done. destruct (writable_len v H) as [Hl _].
    replace (Z.of_nat (Z.to_nat (len v))) with (len v); [done |].
    destruct Hl as [-> | [-> | [-> | ->]]]; done.
Qed.

(** A value that is not writable is refused and nothing is written. *)
Lemma write_refuses v w : 0 <= value v -> ~ writable v -> write v w = (false, w).
Proof.
  intros H0 H. unfold writable in H. unfold write, in_range.
  destruct (Z.eqb_spec (vlen v) 0) as [E | E].
  - assert (border 8 <= value v) by (destruct (Z.lt_ge_cases (value v) (border 8)); tauto).
    assert (border 1 <= border 8 /\ border 2 <= border 8 /\ border 4 <= border 8) by done.
    unfold min_len, in_range. rewrite !ltb_false by lia. done.
  - rewrite ltb_false; [done |]. destruct (Z.lt_ge_cases (value v) (border (vlen v))); tauto.
Qed.

(** ** The two directions of the codec *)

(** Head byte of an encoding: the two length bits select the length. *)
Lemma land_C0 b : is_byte b -> Z.land b 0xC0 = 64 * (b / 64).
Proof.
  intros [H1 H2].
  assert (Hf : Forall (fun b => Z.land b 0xC0 = 64 * (b / 64)) (map Z.of_nat (seq 0 256))).
  { apply (bool_decide_unpack _). vm_compute. done. }
  rewrite Forall_forall in Hf. apply Hf. apply list_elem_of_In, in_map_iff.
  exists (Z.to_nat b). rewrite in_seq. split; lia.
Qed.

Lemma clear_len_bits v k :
  is_u64 v -> is_len k ->
  v < 4 * border k ->
  Z.land v (Z.lxor u64_max (len_bit_mask k)) = v mod border k.
Proof.
  unfold is_u64. intros Hv Hk Hb.
  assert (Hm : exists n, 0 <= n /\ border k = 2 ^ n /\
    Z.lxor u64_max (len_bit_mask k) = Z.lor (Z.ones n) (Z.shiftl (Z.ones (62 - n)) (n + 2))).
  { destruct Hk as [-> | [-> | [-> | ->]]];
      [exists 6 | exists 14 | exists 30 | exists 62]; (split; [lia | split; reflexivity]). }
  destruct Hm as (n & Hn & Hbn & Hm). rewrite Hm, Z.land_lor_distr_r, Z.land_ones by lia.
  rewrite Hbn in *. rewrite (Z.land_comm v (Z.shiftl _ _)), land_shiftl_small.
  - apply Z.lor_0_r.
  - lia.
  - rewrite Z.pow_add_r by lia. change (2 ^ 2) with 4. lia.
Qed.

Lemma read_unchecked_eq l k :
  is_len k -> length l = Z.to_nat k -> Forall is_byte l ->
  read_unchecked l k = read_be l mod border k.
Proof.
  intros Hk Hl Hb. pose proof (read_be_bound l Hb) as Hr.
  assert (Hrk : read_be l < 4 * border k /\ is_u64 (read_be l)).
  { unfold size in Hr. rewrite Hl in Hr. unfold is_u64.
    assert (2 ^ (8 * Z.of_nat (Z.to_nat k)) = 4 * border k /\ 4 * border k <= 2 ^ 64)
      by (destruct Hk as [-> | [-> | [-> | ->]]]; split; done). lia. }
  rewrite <- clear_len_bits by tauto.
  unfold read_unchecked.
  destruct Hk as [-> | [-> | [-> | ->]]]; simpl; rewrite take_ge by (rewrite Hl; simpl; lia); done.
Qed.

(** Writing: [or]-ing the length bits onto the big endian bytes. *)
Lemma enc_read_be v k :
  is_len k -> 0 <= v < border k -> read_be (write_unchecked v k) = len_mask k / 64 * border k + v.
Proof.
  intros Hk Hv.
  assert (Hgen : forall n m, 0 <= v < 2 ^ (8 * Z.of_nat n + 6) -> 0 <= m < 4 ->
    read_be (or_head (64 * m) (write_be (S n) v)) = m * 2 ^ (8 * Z.of_nat n + 6) + v).
  { intros n m Hvn Hm.
    change (write_be (S n) v) with (Z.land (Z.shiftr v (8 * Z.of_nat n)) 255 :: write_be n v).
    unfold or_head. rewrite read_be_cons by apply write_be_bytes.
    unfold size. rewrite length_write_be, read_write_be, land_255, Z.shiftr_div_pow2 by lia.
    rewrite Z.pow_add_r in * by lia. change (2 ^ 6) with 64 in *.
    set (A := 2 ^ (8 * Z.of_nat n)) in *. assert (0 < A) by (apply Z.pow_pos_nonneg; lia).
    assert (0 <= v / A < 64) by (split; [apply Z.div_pos | apply Z.div_lt_upper_bound]; lia).
    rewrite (Z.mod_small (v / A)) by lia.
    rewrite Z.lor_comm. replace (64 * m) with (Z.shiftl m 6) by (rewrite Z.shiftl_mul_pow2; lia).
    rewrite lor_shiftl_add by lia. change (2 ^ 6) with 64.
    pose proof (Z.div_mod v A). nia. }
  destruct Hk as [-> | [-> | [-> | ->]]].
  - change (border 1) with 64 in *. change (write_unchecked v 1) with [u8 v].
    rewrite read_be_cons, u8_small by (constructor || unfold is_byte; lia).
    change (2 ^ (8 * size [])) with 1. change (read_be []) with 0. change (len_mask 1 / 64) with 0. lia.
  - apply (Hgen 1%nat 1); [done | lia].
  - apply (Hgen 3%nat 2); [done | lia].
  - apply (Hgen 7%nat 3); [done | lia].
Qed.

Lemma or_head_bytes m l : is_byte m -> Forall is_byte l -> Forall is_byte (or_head m l).
Proof.
  intros Hm Hl. destruct Hl as [| b l Hb Hl]; constructor; auto.
  unfold is_byte in *. split; [apply Z.lor_nonneg; lia |].
  destruct (Z.eq_dec (Z.lor b m) 0); [lia |].
  assert (0 <= Z.lor b m) by (apply Z.lor_nonneg; lia).
  change 256 with (2 ^ 8). apply Z.log2_lt_pow2; [lia |]. rewrite Z.log2_lor by lia.
  apply Z.max_lub_lt.
  - destruct (Z.eq_dec b 0) as [-> |]; [done |]. apply Z.log2_lt_pow2; lia.
  - destruct (Z.eq_dec m 0) as [-> |]; [done |]. apply Z.log2_lt_pow2; lia.
Qed.

Lemma write_unchecked_bytes v k : Forall is_byte (write_unchecked v k).
Proof.
  unfold write_unchecked. repeat case_match;
    first [ apply or_head_bytes; [by unfold is_byte | apply write_be_bytes]
          | constructor; [apply u8_range | constructor]
          | constructor ].
Qed.

Lemma head_of_be l k :
  is_len k -> length l = Z.to_nat k -> Forall is_byte l ->
  exists b l', l = b :: l' /\ is_byte b /\ b / 64 = read_be l / border k.
Proof.
  intros Hk Hl Hb. destruct Hb as [| b l' Hb Hl'].
  { destruct Hk as [-> | [-> | [-> | ->]]]; done. }
  exists b, l'. split_and!; auto. rewrite read_be_cons by done.
  pose proof (read_be_bound l' Hl') as Hr. simpl in Hl. unfold size in *.
  assert (Hbd : border k = 64 * 2 ^ (8 * Z.of_nat (length l'))).
  { assert (Z.of_nat (length l') = k - 1) as -> by (destruct Hk as [-> | [-> | [-> | ->]]]; lia).
    destruct Hk as [-> | [-> | [-> | ->]]]; done. }
  rewrite Hbd, (Z.mul_comm 64), <- Z.div_div by (try lia; apply Z.pow_nonzero; lia).
  rewrite Z.div_add_l by (apply Z.pow_nonzero; lia). rewrite (Z.div_small (read_be l')) by lia.
  f_equal. lia.
Qed.

Lemma mask_to_len_head b k :
  is_len k -> is_byte b -> mask_to_len b = k <-> b / 64 = len_mask k / 64.
Proof.
  intros Hk Hb. unfold mask_to_len. rewrite land_C0 by done. unfold is_byte in Hb.
  assert (0 <= b / 64 < 4) by (split; [apply Z.div_pos | apply Z.div_lt_upper_bound]; lia).
  assert (Hm : exists m, len_mask k / 64 = m /\ 0 <= m < 4 /\
    (k = 1 /\ m = 0 \/ k = 2 /\ m = 1 \/ k = 4 /\ m = 2 \/ k = 8 /\ m = 3)).
  { destruct Hk as [-> | [-> | [-> | ->]]]; eexists; (split; [reflexivity |]); vm_compute; intuition congruence. }
  destruct Hm as (m & -> & Hm). repeat zcase_one; lia.
Qed.

(** Reading what was written. *)
Lemma read_enc v r rest :
  writable v -> rd_ok r -> rd_remain r = enc v ++ rest ->
  read r = (norm v, true, rd_advance r (length (enc v))).
Proof.
  intros Hv Hr Hrem. destruct (writable_len v Hv) as [Hl Hb]. destruct Hv as [H0 _].
  pose proof (write_unchecked_bytes (value v) (len v)) as Hby.
  pose proof (enc_length (value v) (len v) Hl) as Hle.
  pose proof (enc_read_be (value v) (len v) Hl (conj H0 Hb)) as Hre. fold (enc v) in *.
  destruct (head_of_be (enc v) (len v)) as (b & l' & He & Hbb & Hq); auto.
  assert (0 < border (len v)) by (destruct Hl as [-> | [-> | [-> | ->]]]; done).
  unfold read. replace (rd_empty r) with false.
  2: { symmetry. apply eqb_false. intros E. unfold size in E.
       rewrite rd_remain_eq, drop_ge in Hrem by (done || lia). by rewrite He in Hrem. }
  rewrite Hrem. replace (default 0 ((enc v ++ rest) !! 0%nat)) with b by by rewrite He.
  replace (mask_to_len b) with (len v).
  2: { symmetry. apply mask_to_len_head; auto.
       rewrite Hq, Hre, Z.div_add_l, (Z.div_small (value v)) by lia. lia. }
  rewrite (read_internal_ok r (enc v) rest); auto.
  2: { unfold size. rewrite Hle. destruct Hl as [-> | [-> | [-> | ->]]]; done. }
  rewrite read_unchecked_eq, Hre by auto. unfold norm.
  by rewrite Z.add_comm, Z.mod_add, Z.mod_small by lia.
Qed.

Lemma reads_varint {F} (set : Value -> F -> F) f v rest f' :
  writable v -> set (norm v) f = f' -> reads_at (read_to set) f (enc v) rest f'.
Proof. intros Hv <- r Hr Hrem. simpl. by rewrite (read_enc v r rest). Qed.

Lemma mask_to_len_is_len b : is_byte b -> is_len (mask_to_len b).
Proof.
  intros Hb. unfold mask_to_len. rewrite land_C0 by done. unfold is_byte in Hb.
  assert (0 <= b / 64 < 4) by (split; [apply Z.div_pos | apply Z.div_lt_upper_bound]; lia).
  unfold is_len. repeat zcase_one; lia.
Qed.

Lemma read_advances r v ok r' :
  rd_ok r -> read r = (v, ok, r') ->
  rd_buf r' = rd_buf r /\ (rd_index r <= rd_index r')%nat /\ rd_ok r'.
Proof.
  intros Hr. unfold read. destruct (rd_empty r); [intros [= <- <- <-]; auto |].
  destruct (read_internal r _) as [[data okd] r1] eqn:E.
  apply read_internal_advances in E; auto.
  destruct okd; intros [= <- <- <-]; auto.
Qed.

Lemma advances_varint {F} (set : Value -> F -> F) : advances (read_to set).
Proof.
  intros f r b f' r' Hr. unfold read_to. destruct (read r) as [[v ok] r1] eqn:E.
  intros [= <- <- <-]. by eapply read_advances.
Qed.

(** A successful read consumes at least one byte, whatever the first byte. *)
Lemma mask_to_len_pos b : 1 <= mask_to_len b.
Proof.
  assert (mask_to_len b = mask_to_len (b mod 256)) as ->.
  { assert (Z.land b 0xC0 = Z.land (b mod 256) 0xC0) as E
      by (rewrite <- land_255, <- Z.land_assoc; done).
    unfold mask_to_len. by rewrite E. }
  destruct (mask_to_len_is_len (b mod 256)) as [-> | [-> | [-> | ->]]]; try lia.
  apply Z.mod_pos_bound. lia.
Qed.

Lemma read_progress r v r' : rd_ok r -> read r = (v, true, r') -> (rd_index r < rd_index r')%nat.
Proof.
  intros Hr. unfold read. destruct (rd_empty r); [discriminate |].
  set (k := mask_to_len _). assert (Hk : 1 <= k) by apply mask_to_len_pos.
  destruct (read_internal_cases r k Hr ltac:(lia)) as [(a & b & Ha & Hs & ->) | [_ ->]]; [| discriminate].
  intros [= _ <-]. simpl. unfold size in Hs. lia.
Qed.

(** Inversion of a successful read. *)
Lemma read_inv r v r' :
  rd_ok r -> Forall is_byte (rd_remain r) -> read r = (v, true, r') ->
  is_len (vlen v) /\ 0 <= value v < border (vlen v) /\
  exists rest, rd_remain r = enc v ++ rest /\ r' = rd_advance r (Z.to_nat (vlen v)).
Proof.
  intros Hr Hby. unfold read. destruct (rd_empty r) eqn:Hemp; [congruence |].
  assert (exists b0 l0, rd_remain r = b0 :: l0) as (b0 & l0 & Hrem).
  { rewrite rd_remain_eq by done. apply Z.eqb_neq in Hemp. destruct Hr. unfold size in *.
    destruct (drop (rd_index r) (rd_buf r)) eqn:E; [| eauto].
    apply (f_equal length) in E. rewrite length_drop in E. simpl in E. lia. }
  rewrite Hrem in *. simpl default. assert (Hb0 : is_byte b0) by by inversion Hby.
  pose proof (mask_to_len_is_len b0 Hb0) as Hl. set (k := mask_to_len b0) in *.
  assert (Hk0 : 0 <= k) by (destruct Hl as [-> | [-> | [-> | ->]]]; lia).
  destruct (read_internal_cases r k Hr Hk0) as [(a & b & Ha & Hs & ->) | [_ ->]]; [| congruence].
  intros [= <- <-]. simpl. rewrite Hrem in Ha. unfold size in Hs.
  assert (Hab : Forall is_byte a) by (rewrite Ha in Hby; by apply Forall_app in Hby as [? _]).
  assert (Hla : length a = Z.to_nat k) by lia.
  rewrite read_unchecked_eq by auto.
  assert (Hbp : 0 < border k) by (destruct Hl as [-> | [-> | [-> | ->]]]; done).
  assert (Hmod : 0 <= read_be a mod border k < border k) by (apply Z.mod_pos_bound; lia).
  split_and!; [done | lia | lia |]. exists b. rewrite Hla. split; [| done].
  rewrite Ha. f_equal. unfold enc, len. simpl.
  rewrite eqb_false by (destruct Hl as [-> | [-> | [-> | ->]]]; lia).
  destruct (head_of_be a k Hl Hla Hab) as (h & t & Hht & Hh & Hq).
  assert (h = b0) by (rewrite Hht in Ha; simpl in Ha; congruence). subst h.
  assert (Hm : b0 / 64 = len_mask k / 64) by by apply mask_to_len_head.
  pose proof (enc_read_be (read_be a mod border k) k Hl Hmod) as He.
  set (x := read_be a mod border k) in *.
  transitivity (write_be (length (write_unchecked x k)) (read_be (write_unchecked x k)));
    [| apply write_read_be, write_unchecked_bytes].
  rewrite He, enc_length, <- Hla by done. etransitivity; [symmetry; by apply write_read_be |].
  f_equal. rewrite (Z.div_mod (read_be a) (border k)) by lia. rewrite <- Hq, Hm. unfold x. lia.
Qed.

End varint.

Lemma writable_uint v : 0 <= v < 2 ^ 62 -> varint.writable (varint.of_uint v).
Proof. intros. split; simpl; unfold varint.border; simpl; lia. Qed.

#[export] Hint Resolve varint.emits_varint varint.advances_varint : wire.

(** * Properties *)

(** A varint that can be encoded is written when it fits, takes exactly
    [len] bytes, and reading those bytes back (whatever follows them) gives
    the same number with its wire length, consuming exactly these bytes. *)
Theorem varint_roundtrip v w rest :
  varint.writable v -> wr_ok w -> varint.len v <= wr_room w ->
  size (varint.enc v ++ rest) <= u64_max ->
  exists bs,
    varint.write v w = (true, wr_put w bs) /\ size bs = varint.len v /\
    varint.read (new_reader (bs ++ rest)) =
      (varint.mk_Value (varint.value v) (varint.len v), true,
       rd_advance (new_reader (bs ++ rest)) (length bs)).
Proof.
  intros Hv Hw Hroom Hsz. exists (varint.enc v). pose proof (varint.enc_size v Hv) as Hs.
  split_and!; [| done |].
  - apply varint.emits_varint; auto. lia.
  - assert (Hok : rd_ok (new_reader (varint.enc v ++ rest))).
    { split; [simpl; lia | done]. }
    eapply varint.read_enc; auto. rewrite rd_remain_eq by done. done.
Qed.

Lemma varint_roundtrip_witness :
  exists bs, varint.write (varint.of_uint 15293) (new_writer (replicate 4 0)) =
    (true, wr_put (new_writer (replicate 4 0)) bs) /\ size bs = 2 /\
    varint.read (new_reader (bs ++ [7])) =
      (varint.mk_Value 15293 2, true, rd_advance (new_reader (bs ++ [7])) (length bs)).
Proof.
  apply (varint_roundtrip (varint.of_uint 15293) (new_writer (replicate 4 0)) [7]).
  - split; done.
  - split; [simpl; lia | done].
  - done.
  - done.
Defined.

(** Whatever bytes a peer sends: a successful read yields a number below
    2^62 that is in the range of its wire length, and the bytes it consumed
    are exactly those that writing the returned [Value] produces. *)
Theorem varint_read_sound r v r' :
  rd_ok r -> Forall is_byte (rd_remain r) -> varint.read r = (v, true, r') ->
  0 <= varint.value v < varint.border (varint.vlen v) /\ varint.value v < 2 ^ 62 /\
  exists rest, rd_remain r = varint.enc v ++ rest /\ rd_remain r' = rest /\
    emits (varint.write v) (varint.enc v).
Proof.
  intros Hr Hb E. destruct (varint.read_inv r v r' Hr Hb E) as (Hl & Hv & rest & Hrem & ->).
  assert (Hw : varint.writable v).
  { split; [lia |]. rewrite eqb_false; [lia |].
    destruct Hl as [-> | [-> | [-> | ->]]]; lia. }
  split_and!; [lia | lia | |].
  - assert (varint.border (varint.vlen v) <= 2 ^ 62); [| lia].
    destruct Hl as [-> | [-> | [-> | ->]]]; done.
  - exists rest. split_and!; [done | | by apply varint.emits_varint].
    replace (Z.to_nat (varint.vlen v)) with (length (varint.enc v)); [by apply rd_advance_remain |].
    unfold varint.enc. rewrite varint.enc_length by by apply varint.writable_len.
    unfold varint.len. rewrite eqb_false; [done |].
    destruct Hl as [-> | [-> | [-> | ->]]]; lia.
Qed.

Lemma varint_read_sound_witness :
  let r := new_reader [0x7b; 0xbd; 9] in
  let v := varint.mk_Value 15293 2 in
  0 <= varint.value v < varint.border (varint.vlen v) /\ varint.value v < 2 ^ 62 /\
  exists rest, rd_remain r = varint.enc v ++ rest /\
    rd_remain (rd_advance r 2) = rest /\ emits (varint.write v) (varint.enc v).
Proof.
  apply (varint_read_sound (new_reader [0x7b; 0xbd; 9])).
  - split; [simpl; lia | done].
  - repeat (constructor; [done |]). constructor.
  - reflexivity.
Defined.

(** [write] fails exactly on the values that have no encoding in the
    requested length (or at all) and on a buffer that is too short, and a
    length chosen by [min_len] is the smallest one that fits. *)
Theorem varint_write_exact v w :
  0 <= varint.value v -> wr_ok w ->
  (fst (varint.write v w) = true <-> varint.writable v /\ varint.len v <= wr_room w) /\
  (varint.vlen v = 0 -> forall l, varint.value v < varint.border l -> varint.len v <= l).
Proof.
  intros H0 Hw. split.
  - destruct (decide (varint.value v < varint.border (if varint.vlen v =? 0 then 8 else varint.vlen v)))
      as [Hd | Hd].
    + assert (Hv : varint.writable v) by (split; [done |]; by destruct (varint.vlen v =? 0)).
      rewrite varint.write_eq by done. destruct (Z.leb_spec (varint.len v) (wr_room w)); simpl.
      * tauto.
      * split; [discriminate | lia].
    + assert (Hv : ~ varint.writable v).
      { intros [_ Hv]. apply Hd. by destruct (varint.vlen v =? 0). }
      rewrite varint.write_refuses by done. simpl. split; [discriminate | tauto].
  - intros E l Hl. pose proof (varint.border_pos_len l _ H0 Hl) as Hil.
    unfold varint.len. rewrite E. unfold varint.min_len, varint.in_range.
    destruct Hil as [-> | [-> | [-> | ->]]]; simpl; repeat zcase_one; lia.
Qed.

Lemma varint_write_exact_witness :
  let v := varint.of_uint 0x40000000 in let w := new_writer (replicate 8 0) in
  (fst (varint.write v w) = true <-> varint.writable v /\ varint.len v <= wr_room w) /\
  (varint.vlen v = 0 -> forall l, varint.value v < varint.border l -> varint.len v <= l).
Proof.
  apply (varint_write_exact (varint.of_uint 0x40000000)).
  - done.
  - split; [simpl; lia | done].
Defined.

#[global] Arguments varint.enc : simpl never.
#[global] Arguments varint.len : simpl never.
#[global] Arguments varint.min_len : simpl never.
#[global] Arguments varint.norm : simpl never.
#[global] Arguments varint.write : simpl never.
