(* ===== verification/PacketNumber.v ===== *)
(** * Packet numbers (src/src/include/fnet/quic/packet_number.h)

    [Module packetnum] is the namespace [fnet::quic::packetnum]; a
    [packetnum::Value] is the 64-bit integer it wraps. *)

From stdpp Require Import base list.
From Stdlib Require Import ZArith Lia.
From S2P Require Import Prelude Bytes.

Module packetnum.

(** [struct WireVal]: a truncated packet number and its length in bytes. *)
Record WireVal := mk_WireVal { wvalue : Z; wlen : Z }.

(** [infinity]: the reserved "no packet number". *)
Definition infinity : Z := u64_max.

(** [operator+] on [Value] wraps at 64 bits. *)
Definition add (a b : Z) : Z := u64 (a + b).

Definition is_wire_len (len : Z) : bool := (1 <=? len) && (len <=? 4).

(** [expected<Value>] of [decode]: a value, the reported error, or a shift
    of an [int] by its own width, for which C++ gives no result. *)
Inductive dec_result :=
  | DecOk (v : Z)
  | DecError
  | DecUndefined.

(** The lambda [delta]. *)
Definition delta (a b : Z) : Z := if a <? b then b - a else a - b.

(** The lambda [closer]: of [a] and [b] the one closer to [t], [b] on a tie. *)
Definition closer (t a b : Z) : Z := if delta t a <? delta t b then a else b.

Definition decode (value len largest_pn : Z) : dec_result :=
  if negb (is_wire_len len) then DecError
  else
    let expected_pn := u64 (largest_pn + 1) in
    let shift := len * 8 in
    if 32 <=? shift then DecUndefined
    else
      let pn_win := Z.shiftl 1 shift in
      let pn_mask := pn_win - 1 in
      let base := Z.land expected_pn (u64 (Z.lnot pn_mask)) in
      let next := u64 (base + pn_win) in
      let prev := if base <? pn_win then 0 else base - pn_win in
      DecOk (closer expected_pn (u64 (base + value))
               (closer expected_pn (u64 (prev + value)) (u64 (next + value)))).

(** The loop of [shift_count]: bits 63 down to 0. *)
Fixpoint shift_loop (n : nat) (bit : Z) : Z :=
  match n with
  | O => u64_max
  | S k => if negb (Z.land bit (Z.shiftl 1 (Z.of_nat k)) =? 0) then Z.of_nat k
           else shift_loop k bit
  end.

Definition shift_count (bit : Z) : Z :=
  if bit =? 1 then 0
  else if (bit =? 2) || (bit =? 3) then 1
  else shift_loop 64 bit.

(** [expected<WireVal> encode(pn, largest_ack)]. *)
Definition encode (pn largest_ack : Z) : option WireVal :=
  let num_unacked :=
    if largest_ack =? u64_max then u64 (pn + 1) else u64 (pn - largest_ack) in
  let min_bits := u64 (shift_count num_unacked + 1) in
  let min_bytes := min_bits / 8 + (if min_bits mod 8 =? 0 then 0 else 1) in
  let wire mask len := Some (mk_WireVal (Z.land pn mask) len) in
  if min_bytes =? 1 then wire 0xff 1
  else if min_bytes =? 2 then wire 0xffff 2
  else if min_bytes =? 3 then wire 0xffffff 3
  else if min_bytes =? 4 then wire 0xffffffff 4
  else None.

(** [write]: the low [len] bytes of the 32-bit value, big endian. *)
Definition write (v : WireVal) (w : writer) : bool * writer :=
  if negb (is_wire_len (wlen v)) then (false, w)
  else wr_write (drop (Z.to_nat (4 - wlen v)) (write_be 4 (wvalue v))) w.

(** [read(r, len)]: [len] bytes into the tail of a zeroed 4-byte buffer. *)
Definition read (r : reader) (len : Z) : option WireVal * reader :=
  if negb (is_wire_len len) then (None, r)
  else
    let '(buf, ok, r') := read_internal r len in
    if negb ok then (None, r')
    else (Some (mk_WireVal (read_be (replicate (Z.to_nat (4 - len)) 0 ++ buf)) len), r').

(** ** Lemmas *)

Lemma shift_loop_log2 n bit :
  0 < bit < 2 ^ Z.of_nat n -> shift_loop n bit = Z.log2 bit.
Proof.
  induction n as [| n IH]; [simpl; lia |]. intros [H1 H2]. simpl.
  assert (Hb : negb (Z.land bit (Z.shiftl 1 (Z.of_nat n)) =? 0) = Z.testbit bit (Z.of_nat n)).
  { rewrite Z.shiftl_1_l. destruct (Z.testbit bit (Z.of_nat n)) eqn:E.
    - apply negb_true_iff, Z.eqb_neq. intros E0.
      apply (f_equal (fun z => Z.testbit z (Z.of_nat n))) in E0.
      rewrite Z.land_spec, E, Z.pow2_bits_true, Z.bits_0 in E0 by lia. done.
    - apply negb_false_iff, Z.eqb_eq. apply Z.bits_inj'. intros i Hi.
      rewrite Z.land_spec, Z.pow2_bits_eqb, Z.bits_0 by lia.
      destruct (Z.eqb_spec (Z.of_nat n) i) as [<- |]; [by rewrite E | apply andb_false_r]. }
  rewrite Hb. replace (Z.of_nat (S n)) with (Z.of_nat n + 1) in H2 by lia.
  rewrite Z.pow_add_r, Z.pow_1_r in H2 by lia.
  destruct (Z.le_gt_cases (2 ^ Z.of_nat n) bit) as [Hle | Hgt].
  - assert (Hl : Z.log2 bit = Z.of_nat n).
    { apply Z.log2_unique; [lia |]. rewrite Z.pow_succ_r by lia. lia. }
    rewrite <- Hl, Z.bit_log2 by lia. done.
  - rewrite Z.bits_above_log2; [apply IH; lia | lia |]. apply Z.log2_lt_pow2; lia.
Qed.

Lemma shift_count_log2 bit : 0 < bit < 2 ^ 64 -> shift_count bit = Z.log2 bit.
Proof.
  intros H. unfold shift_count.
  destruct (Z.eqb_spec bit 1) as [-> |]; [done |].
  destruct (Z.eqb_spec bit 2) as [-> |]; [done |].
  destruct (Z.eqb_spec bit 3) as [-> |]; [done |]. by apply (shift_loop_log2 64).
Qed.

(** The length [encode] chooses: the fewest bytes that hold the number of
    unacknowledged packets. *)
Lemma encode_eq pn la k :
  0 <= la < pn -> pn < 2 ^ 62 -> 1 <= k <= 4 ->
  2 ^ (8 * (k - 1)) <= pn - la < 2 ^ (8 * k) ->
  encode pn la = Some (mk_WireVal (pn mod 2 ^ (8 * k)) k).
Proof.
  intros H Hpn Hk Hn. unfold encode.
  rewrite (eqb_false la) by (unfold u64_max; lia).
  rewrite (u64_small (pn - la)) by (unfold is_u64; lia).
  rewrite shift_count_log2 by lia.
  assert (Hl : 8 * (k - 1) <= Z.log2 (pn - la) < 8 * k).
  { split; [apply Z.log2_le_pow2 | apply Z.log2_lt_pow2]; lia. }
  rewrite u64_small by (unfold is_u64; lia).
  set (b := Z.log2 (pn - la)) in *.
  assert (Hb : (b + 1) / 8 + (if (b + 1) mod 8 =? 0 then 0 else 1) = k).
  { pose proof (Z.div_mod (b + 1) 8). pose proof (Z.mod_pos_bound (b + 1) 8).
    destruct (Z.eqb_spec ((b + 1) mod 8) 0); lia. }
  rewrite Hb.
  assert (Hm : forall n, 0 <= n -> Z.land pn (2 ^ n - 1) = pn mod 2 ^ n)
    by (intros; by apply land_ones_mod).
  assert (k = 1 \/ k = 2 \/ k = 3 \/ k = 4) as [-> | [-> | [-> | ->]]] by lia;
    simpl; rewrite <- Hm by lia; done.
Qed.

(** [base]: the expected number with the low bits cleared. *)
Lemma decode_base e s :
  is_u64 e -> 0 <= s < 64 ->
  Z.land e (u64 (Z.lnot (Z.shiftl 1 s - 1))) = e - e mod 2 ^ s.
Proof.
  intros He Hs. rewrite Z.shiftl_1_l.
  assert (Hu : Z.land e (u64 (Z.lnot (2 ^ s - 1))) = Z.land e (Z.lnot (2 ^ s - 1))).
  { unfold u64. rewrite <- Z.land_ones, (Z.land_comm (Z.lnot _)), Z.land_assoc by lia.
    rewrite Z.land_ones by lia. by rewrite (Z.mod_small e) by (unfold is_u64 in He; lia). }
  rewrite Hu. replace (2 ^ s - 1) with (Z.ones s) by (rewrite Z.ones_equiv; lia).
  rewrite <- Z.ldiff_land.
  rewrite Z.ldiff_ones_r, Z.shiftl_mul_pow2, Z.shiftr_div_pow2 by lia.
  pose proof (Z.div_mod e (2 ^ s)). assert (2 ^ s <> 0) by (apply Z.pow_nonzero; lia). lia.
Qed.

(** The arithmetic of [decode], as a choice between three candidates. *)
Lemma decode_eq v k largest :
  1 <= k <= 3 -> 0 <= largest < 2 ^ 62 -> 0 <= v < 2 ^ (8 * k) ->
  decode v k largest =
    let e := largest + 1 in let b := e - e mod 2 ^ (8 * k) in
    let p := if b <? 2 ^ (8 * k) then 0 else b - 2 ^ (8 * k) in
    DecOk (closer e (b + v) (closer e (p + v) (b + 2 ^ (8 * k) + v))).
Proof.
  intros Hk Hl Hv. unfold decode.
  assert (Hw : is_wire_len k = true) by (unfold is_wire_len; rewrite !leb_true by lia; done).
  rewrite Hw. simpl negb. cbv match. rewrite leb_false by lia.
  rewrite (u64_small (largest + 1)) by (unfold is_u64; lia).
  rewrite (Z.mul_comm k 8), decode_base by (unfold is_u64; lia). rewrite Z.shiftl_1_l.
  assert (Hp : 256 <= 2 ^ (8 * k) <= 2 ^ 24).
  { split; [apply (Z.pow_le_mono_r 2 8) | apply Z.pow_le_mono_r]; lia. }
  set (W := 2 ^ (8 * k)) in *. cbv zeta. set (e := largest + 1) in *.
  pose proof (Z.mod_pos_bound e W). pose proof (Z.mod_le e W).
  rewrite (u64_small (e - e mod W + W)) by (unfold is_u64; lia).
  rewrite !(u64_small (e - e mod W + v)), !(u64_small (e - e mod W + W + v))
    by (unfold is_u64; lia).
  rewrite u64_small; [done |]. unfold is_u64. zcases.
Qed.

(** The candidate nearest to the expected number wins. *)
Lemma closest_congruent e W pn :
  0 < W -> 0 <= pn -> 0 <= e -> Z.abs (pn - e) * 2 < W ->
  let b := e - e mod W in let p := if b <? W then 0 else b - W in
  closer e (b + pn mod W) (closer e (p + pn mod W) (b + W + pn mod W)) = pn.
Proof.
  intros HW Hpn He Hd b p.
  pose proof (Z.div_mod e W) as De. pose proof (Z.div_mod pn W) as Dp.
  pose proof (Z.mod_pos_bound e W). pose proof (Z.mod_pos_bound pn W).
  assert (Hq : pn / W = e / W \/ pn / W = e / W - 1 \/ pn / W = e / W + 1) by nia.
  assert (0 <= pn / W) by (apply Z.div_pos; lia).
  assert (0 <= e / W) by (apply Z.div_pos; lia).
  set (rp := pn mod W) in *. set (re := e mod W) in *.
  set (qe := e / W) in *. set (qp := pn / W) in *.
  assert (HX : exists X, b = X /\ e = X + re /\ (X = 0 \/ W <= X) /\
    (pn = X + rp \/ pn = X - W + rp /\ W <= X \/ pn = X + W + rp)).
  { exists (W * qe). unfold b. split_and!; [lia | lia | destruct (Z.eq_dec qe 0); [left | right]; nia |].
    destruct Hq as [Hq | [Hq | Hq]]; rewrite Hq in *; [left; lia | right; left | right; right]; nia. }
  clear Hq De Dp. destruct HX as (X & HbX & HeX & HX0 & HX). unfold closer, delta, p.
  clearbody b rp re qe qp. subst b. repeat zcase_one; lia.
Qed.

Lemma decode_window pn len largest :
  1 <= len <= 3 -> 0 <= pn < 2 ^ 62 -> 0 <= largest < 2 ^ 62 ->
  Z.abs (pn - (largest + 1)) * 2 < 2 ^ (8 * len) ->
  decode (pn mod 2 ^ (8 * len)) len largest = DecOk pn.
Proof.
  intros Hl Hpn Hlg Hd. assert (0 < 2 ^ (8 * len)) by (apply Z.pow_pos_nonneg; lia).
  rewrite decode_eq; [| done | done | apply Z.mod_pos_bound; lia].
  cbv zeta. rewrite closest_congruent by lia. done.
Qed.

Lemma write_low_bytes k v :
  1 <= k <= 4 -> drop (Z.to_nat (4 - k)) (write_be 4 v) = write_be (Z.to_nat k) v.
Proof.
  intros H. assert (k = 1 \/ k = 2 \/ k = 3 \/ k = 4) as [-> | [-> | [-> | ->]]] by lia; done.
Qed.

Lemma read_be_zeros n l : Forall is_byte l -> read_be (replicate n 0 ++ l) = read_be l.
Proof.
  intros Hl. induction n as [| n IH]; [done |].
  change (replicate (S n) 0 ++ l) with (0 :: (replicate n 0 ++ l)).
  rewrite read_be_cons, IH; [lia |]. apply Forall_app. split; [| done].
  apply Forall_replicate. done.
Qed.

Lemma emits_pn k v :
  1 <= k <= 4 -> emits (write (mk_WireVal v k)) (write_be (Z.to_nat k) v).
Proof.
  intros H. unfold write. simpl wlen. simpl wvalue. rewrite <- write_low_bytes by done.
  assert (is_wire_len k = true) as -> by (unfold is_wire_len; rewrite !leb_true by lia; done).
  apply emits_write.
Qed.

Lemma read_pn k v r rest :
  1 <= k <= 4 -> rd_ok r -> rd_remain r = write_be (Z.to_nat k) v ++ rest ->
  read r k = (Some (mk_WireVal (v mod 2 ^ (8 * k)) k), rd_advance r (Z.to_nat k)).
Proof.
  intros Hk Hr Hrem. unfold read.
  assert (is_wire_len k = true) as -> by (unfold is_wire_len; rewrite !leb_true by lia; done).
  simpl negb. cbv match.
  rewrite (read_internal_ok r (write_be (Z.to_nat k) v) rest);
    [| done | done | unfold size; rewrite length_write_be; lia].
  simpl negb. cbv match. rewrite length_write_be, read_be_zeros by apply write_be_bytes.
  rewrite read_write_be, Z2Nat.id by lia. done.
Qed.

End packetnum.

(** * Properties *)

(** Decoding a truncated packet number of 1 to 3 bytes recovers every
    full number that lies within half a window of the one expected next. *)
Theorem pn_decode_window pn len largest :
  1 <= len <= 3 -> 0 <= pn < 2 ^ 62 -> 0 <= largest < 2 ^ 62 ->
  Z.abs (pn - (largest + 1)) * 2 < 2 ^ (8 * len) ->
  packetnum.decode (pn mod 2 ^ (8 * len)) len largest = packetnum.DecOk pn.
Proof.
  apply packetnum.decode_window.
Qed.

Lemma pn_decode_window_witness :
  packetnum.decode (0x9394939393 mod 2 ^ (8 * 2)) 2 0x9394933301 = packetnum.DecOk 0x9394939393.
Proof. apply (pn_decode_window 0x9394939393 2 0x9394933301); done. Defined.

(** A packet number encoded against the largest acknowledged one, written,
    read and decoded by a peer whose largest received number is at least
    that one comes back unchanged, as long as the window of the chosen
    length is at least twice the number of unacknowledged packets (the rule
    of RFC 9000, appendix A.2). *)
Theorem pn_wire_roundtrip pn la largest k w rest :
  0 <= la < pn -> pn < 2 ^ 62 -> la <= largest < pn -> 1 <= k <= 3 ->
  2 ^ (8 * (k - 1)) <= pn - la -> 2 * (pn - la) <= 2 ^ (8 * k) ->
  wr_ok w -> k <= wr_room w -> size rest + 4 <= u64_max ->
  exists wire bs,
    packetnum.encode pn la = Some wire /\ packetnum.wlen wire = k /\
    packetnum.write wire w = (true, wr_put w bs) /\
    packetnum.read (new_reader (bs ++ rest)) k =
      (Some wire, rd_advance (new_reader (bs ++ rest)) (Z.to_nat k)) /\
    packetnum.decode (packetnum.wvalue wire) (packetnum.wlen wire) largest = packetnum.DecOk pn.
Proof.
  intros H1 H2 H3 Hk Hlo Hhi Hw Hroom Hsz.
  assert (Hp : 0 < 2 ^ (8 * k)) by (apply Z.pow_pos_nonneg; lia).
  exists (packetnum.mk_WireVal (pn mod 2 ^ (8 * k)) k), (write_be (Z.to_nat k) (pn mod 2 ^ (8 * k))).
  split_and!.
  - apply packetnum.encode_eq; lia.
  - done.
  - apply packetnum.emits_pn; [lia | done |]. unfold size. rewrite length_write_be. lia.
  - assert (Hok : rd_ok (new_reader (write_be (Z.to_nat k) (pn mod 2 ^ (8 * k)) ++ rest))).
    { split; [simpl; lia |]. simpl. rewrite size_app. unfold size at 1. rewrite length_write_be. lia. }
    erewrite packetnum.read_pn; [| lia | done | by rewrite rd_remain_eq].
    by rewrite Z.mod_mod by lia.
  - simpl. apply packetnum.decode_window; lia.
Qed.

Lemma pn_wire_roundtrip_witness :
  exists wire bs,
    packetnum.encode 0x9394939393 0x9394933293 = Some wire /\ packetnum.wlen wire = 2 /\
    packetnum.write wire (new_writer (replicate 2 0)) = (true, wr_put (new_writer (replicate 2 0)) bs) /\
    packetnum.read (new_reader (bs ++ [])) 2 =
      (Some wire, rd_advance (new_reader (bs ++ [])) (Z.to_nat 2)) /\
    packetnum.decode (packetnum.wvalue wire) (packetnum.wlen wire) 0x9394933301 =
      packetnum.DecOk 0x9394939393.
Proof.
  apply (pn_wire_roundtrip 0x9394939393 0x9394933293 0x9394933301 2 (new_writer (replicate 2 0)) []);
    try done.
  split; [simpl; lia | done].
Defined.

(** The length [encode] picks only covers the number of unacknowledged
    packets, not twice that number: with between half a window and a full
    window of packets unacknowledged, a peer that has received nothing
    newer than the acknowledged packet decodes the packet number one whole
    window too low. *)
Theorem pn_encode_too_short pn la k :
  1 <= k <= 3 -> 2 ^ (8 * k) <= la -> pn < 2 ^ 62 ->
  2 ^ (8 * k) + 2 < 2 * (pn - la) -> pn - la < 2 ^ (8 * k) ->
  exists wire, packetnum.encode pn la = Some wire /\
    packetnum.decode (packetnum.wvalue wire) (packetnum.wlen wire) la =
      packetnum.DecOk (pn - 2 ^ (8 * k)).
Proof.
  intros Hk Hla Hpn Hlo Hhi.
  assert (Hp : 256 <= 2 ^ (8 * k)) by (apply (Z.pow_le_mono_r 2 8); lia).
  assert (Hq : 2 ^ (8 * k) = 256 * 2 ^ (8 * (k - 1))).
  { replace (8 * k) with (8 + 8 * (k - 1)) by lia. by rewrite Z.pow_add_r by lia. }
  exists (packetnum.mk_WireVal (pn mod 2 ^ (8 * k)) k). split.
  - apply packetnum.encode_eq; lia.
  - simpl. replace (pn mod 2 ^ (8 * k)) with ((pn - 2 ^ (8 * k)) mod 2 ^ (8 * k)).
    + apply packetnum.decode_window; lia.
    + replace (pn - 2 ^ (8 * k)) with (pn + (-1) * 2 ^ (8 * k)) by lia. apply Z.mod_add. lia.
Qed.

Lemma pn_encode_too_short_witness :
  exists wire, packetnum.encode 1255 1000 = Some wire /\
    packetnum.decode (packetnum.wvalue wire) (packetnum.wlen wire) 1000 =
      packetnum.DecOk (1255 - 2 ^ (8 * 1)).
Proof. apply (pn_encode_too_short 1255 1000 1); done. Defined.
