(* ===== verification/Types.v ===== *)
(** * QUIC basic types (src/src/include/fnet/quic/types.h, packet/summary.h,
      ioresult.h, transport_error.h)

    Packet types, packet and frame flags, the frame classification tables
    and the per-packet status bits. A C++ scoped enum with a fixed
    underlying type that is built by casting arbitrary integers
    ([FrameType]) is the integer itself; an enum that only ever holds its
    enumerators is an inductive type. *)

From stdpp Require Import base list strings.
From Stdlib Require Import ZArith Lia.
From S2P Require Import Prelude.

(** ** Packet types *)

Inductive PacketType :=
  | Initial | ZeroRTT | Handshake | Retry | VersionNegotiation | OneRTT
  | Unknown | LongPacket | StatelessReset.

#[global] Instance PacketType_eq_dec : EqDecision PacketType.
Proof. solve_decision. Defined.

Definition is_LongPacket (t : PacketType) : bool :=
  bool_decide (t = Initial) || bool_decide (t = ZeroRTT) ||
  bool_decide (t = Handshake) || bool_decide (t = Retry).

Definition has_LengthField (t : PacketType) : bool :=
  is_LongPacket t && negb (bool_decide (t = Retry)).

Definition is_ProtectedPacket (t : PacketType) : bool :=
  bool_decide (t = Initial) || bool_decide (t = ZeroRTT) ||
  bool_decide (t = Handshake) || bool_decide (t = OneRTT).

Definition PacketType_to_string (t : PacketType) : string :=
  match t with
  | Initial => "Initial"
  | ZeroRTT => "ZeroRTT"
  | Handshake => "Handshake"
  | Retry => "Retry"
  | VersionNegotiation => "VersionNegotiation"
  | OneRTT => "OneRTT"
  | Unknown => "Unknown"
  | LongPacket => "LongPacket"
  | StatelessReset => "StatelessReset"
  end.

Definition version_negotiation : Z := 0.
Definition version_1 : Z := 1.

Definition packet_type_to_mask (t : PacketType) (version : Z) : Z :=
  if bool_decide (t = OneRTT) then 0x40
  else if bool_decide (t = VersionNegotiation) then 0x80
  else if version =? 1 then
    match t with
    | Initial => 0xC0
    | ZeroRTT => 0xD0
    | Handshake => 0xE0
    | Retry => 0xF0
    | _ => 0
    end
  else 0.

Definition long_packet_type (typbit_1_to_3 version : Z) : PacketType :=
  if version =? version_negotiation then VersionNegotiation
  else if version =? version_1 then
    if typbit_1_to_3 =? 0 then Initial
    else if typbit_1_to_3 =? 1 then ZeroRTT
    else if typbit_1_to_3 =? 2 then Handshake
    else if typbit_1_to_3 =? 3 then Retry
    else Unknown
  else Unknown.

(** ** [struct PacketFlags]: the first byte of a packet *)

Module PacketFlags.
Definition invalid (raw : Z) : bool := Z.land raw 0x40 =? 0.
Definition is_short (raw : Z) : bool := Z.land raw 0x80 =? 0.
Definition is_long (raw : Z) : bool := negb (is_short raw).

Definition type (raw version : Z) : PacketType :=
  if is_short raw then OneRTT
  else long_packet_type (Z.shiftr (Z.land raw 0x30) 4) version.

(** [type()] has the default argument [version = 1]. *)
Definition spec_mask (raw : Z) : Z :=
  match type raw 1 with
  | VersionNegotiation => 0x7f
  | OneRTT => 0x3f
  | _ => 0x0f
  end.

Definition specs (raw : Z) : Z := Z.land raw (spec_mask raw).
Definition protect_mask (raw : Z) : Z := if is_short raw then 0x1f else 0x0f.
Definition protect (raw with_ : Z) : Z := Z.lxor raw (Z.land with_ (protect_mask raw)).
Definition packet_number_length (raw : Z) : Z := Z.land raw 0x3 + 1.
Definition reserved_bits (raw : Z) : Z :=
  if is_short raw then Z.land raw 0x18 else Z.land raw 0x0C.
Definition spin (raw : Z) : bool :=
  if is_short raw then negb (Z.land raw 0x20 =? 0) else false.
Definition key_phase (raw : Z) : bool :=
  if is_short raw then negb (Z.land raw 0x04 =? 0) else false.
End PacketFlags.

Definition make_packet_flags (version : Z) (t : PacketType) (pn_length : Z)
    (spin key_phase : bool) : Z :=
  let lentomask := u8 (pn_length - 1) in
  let valid_pnlen := (1 <=? pn_length) && (pn_length <=? 4) in
  let typmask := packet_type_to_mask t version in
  if typmask =? 0 then 0
  else match t with
  | Initial | ZeroRTT | Handshake =>
      if negb valid_pnlen then 0 else Z.lor typmask lentomask
  | Retry | VersionNegotiation => typmask
  | OneRTT =>
      if negb valid_pnlen then 0
      else Z.lor (Z.lor (Z.lor typmask (if spin then 0x20 else 0))
                        (if key_phase then 0x04 else 0)) lentomask
  | _ => 0
  end.

(** ** [enum class FrameType]: an [int] *)

Module FrameType.
Definition PADDING := 0x00.
Definition PING := 0x01.
Definition ACK := 0x02.
Definition ACK_ECN := 0x03.
Definition RESET_STREAM := 0x04.
Definition STOP_SENDING := 0x05.
Definition CRYPTO := 0x06.
Definition NEW_TOKEN := 0x07.
Definition STREAM := 0x08.
Definition MAX_DATA := 0x10.
Definition MAX_STREAM_DATA := 0x11.
Definition MAX_STREAMS := 0x12.
Definition MAX_STREAMS_BIDI := MAX_STREAMS.
Definition MAX_STREAMS_UNI := 0x13.
Definition DATA_BLOCKED := 0x14.
Definition STREAM_DATA_BLOCKED := 0x15.
Definition STREAMS_BLOCKED := 0x16.
Definition STREAMS_BLOCKED_BIDI := STREAMS_BLOCKED.
Definition STREAMS_BLOCKED_UNI := 0x17.
Definition NEW_CONNECTION_ID := 0x18.
Definition RETIRE_CONNECTION_ID := 0x19.
Definition PATH_CHALLENGE := 0x1a.
Definition PATH_RESPONSE := 0x1b.
Definition CONNECTION_CLOSE := 0x1c.
Definition CONNECTION_CLOSE_APP := 0x1d.
Definition HANDSHAKE_DONE := 0x1e.
Definition DATAGRAM := 0x30.
Definition DATAGRAM_LEN := 0x31.
End FrameType.

Definition make_STREAM (off len fin : bool) : Z :=
  let v := 0x8 in
  let v := if off then Z.lor v 0x4 else v in
  let v := if len then Z.lor v 0x2 else v in
  if fin then Z.lor v 0x1 else v.

Definition is_STREAM (t : Z) : bool :=
  (FrameType.STREAM <=? t) && (t <=? Z.lor FrameType.STREAM 0x7).

Definition is_MAX_STREAMS (t : Z) : bool :=
  (t =? FrameType.MAX_STREAMS_BIDI) || (t =? FrameType.MAX_STREAMS_UNI).

Definition is_STREAMS_BLOCKED (t : Z) : bool :=
  (t =? FrameType.STREAMS_BLOCKED_BIDI) || (t =? FrameType.STREAMS_BLOCKED_UNI).

Definition is_ACK (t : Z) : bool := (t =? FrameType.ACK) || (t =? FrameType.ACK_ECN).

Definition is_CONNECTION_CLOSE (t : Z) : bool :=
  (t =? FrameType.CONNECTION_CLOSE) || (t =? FrameType.CONNECTION_CLOSE_APP).

Definition is_DATAGRAM (t : Z) : bool :=
  (t =? FrameType.DATAGRAM) || (t =? FrameType.DATAGRAM_LEN).

(** [to_string(FrameType)]; [None] is the null pointer. *)
Definition FrameType_to_string (t : Z) : option string :=
  let name (p : Z * string) := t =? fst p in
  match List.find name
    [(FrameType.PADDING, "PADDING"); (FrameType.PING, "PING"); (FrameType.ACK, "ACK");
     (FrameType.ACK_ECN, "ACK_ECN"); (FrameType.RESET_STREAM, "RESET_STREAM");
     (FrameType.STOP_SENDING, "STOP_SENDING"); (FrameType.CRYPTO, "CRYPTO");
     (FrameType.NEW_TOKEN, "NEW_TOKEN"); (FrameType.MAX_DATA, "MAX_DATA");
     (FrameType.MAX_STREAM_DATA, "MAX_STREAM_DATA");
     (FrameType.MAX_STREAMS_BIDI, "MAX_STREAMS_BIDI");
     (FrameType.MAX_STREAMS_UNI, "MAX_STREAMS_UNI"); (FrameType.DATA_BLOCKED, "DATA_BLOCKED");
     (FrameType.STREAM_DATA_BLOCKED, "STREAM_DATA_BLOCKED");
     (FrameType.STREAMS_BLOCKED_BIDI, "STREAMS_BLOCKED_BIDI");
     (FrameType.STREAMS_BLOCKED_UNI, "STREAMS_BLOCKED_UNI");
     (FrameType.NEW_CONNECTION_ID, "NEW_CONNECTION_ID");
     (FrameType.RETIRE_CONNECTION_ID, "RETIRE_CONNECTION_ID");
     (FrameType.PATH_CHALLENGE, "PATH_CHALLENGE"); (FrameType.PATH_RESPONSE, "PATH_RESPONSE");
     (FrameType.CONNECTION_CLOSE, "CONNECTION_CLOSE");
     (FrameType.CONNECTION_CLOSE_APP, "CONNECTION_CLOSE_APP");
     (FrameType.HANDSHAKE_DONE, "HANDSHAKE_DONE"); (FrameType.DATAGRAM, "DATAGRAM");
     (FrameType.DATAGRAM_LEN, "DATAGRAM_LEN")] with
  | Some (_, s) => Some s
  | None => if is_STREAM t then Some "STREAM" else None
  end.

Definition is_ACKEliciting (t : Z) : bool :=
  negb (t =? FrameType.PADDING) && negb (is_ACK t) && negb (is_CONNECTION_CLOSE t).

Definition is_MTUProbe (t : Z) : bool := (t =? FrameType.PADDING) || (t =? FrameType.PING).

Definition is_PathProbe (t : Z) : bool :=
  (t =? FrameType.PADDING) || (t =? FrameType.NEW_CONNECTION_ID) ||
  (t =? FrameType.PATH_CHALLENGE) || (t =? FrameType.PATH_RESPONSE).

Definition is_FlowControled (t : Z) : bool := is_STREAM t.

Definition is_ByteCounted (t : Z) : bool := negb (is_ACK t).

Definition is_InitialPacketOK (t : Z) : bool :=
  (t =? FrameType.PADDING) || (t =? FrameType.PING) || (t =? FrameType.ACK) ||
  (t =? FrameType.CRYPTO) || (t =? FrameType.CONNECTION_CLOSE).

Definition is_HandshakePacketOK (t : Z) : bool := is_InitialPacketOK t.

Definition is_ZeroRTTPacketOK (t : Z) : bool :=
  negb (t =? FrameType.ACK) && negb (t =? FrameType.CRYPTO) &&
  negb (t =? FrameType.NEW_TOKEN) && negb (t =? FrameType.PATH_RESPONSE) &&
  negb (t =? FrameType.HANDSHAKE_DONE).

Definition is_OneRTTPacketOK (t : Z) : bool := true.

Definition is_OKFrameForPacket (p : PacketType) (t : Z) : bool :=
  match p with
  | Initial => is_InitialPacketOK t
  | Handshake => is_HandshakePacketOK t
  | ZeroRTT => is_ZeroRTTPacketOK t
  | OneRTT => is_OneRTTPacketOK t
  | _ => false
  end.

Definition not_allowed_frame_message (p : PacketType) : string :=
  match p with
  | Initial => "frame type is not allowed on Initial packet"
  | Handshake => "frame type is not allowed on Handshake packet"
  | ZeroRTT => "frame type is not allowed on 0-RTT packet"
  | OneRTT => "frame type is not allowed on 1-RTT packet"
  | _ => "unexpected call on packet not containing frames"
  end.

Definition is_UniStreamSenderOK (t : Z) : bool :=
  is_STREAM t || (t =? FrameType.STREAM_DATA_BLOCKED) || (t =? FrameType.RESET_STREAM).

Definition is_UniStreamReceiverOK (t : Z) : bool :=
  (t =? FrameType.MAX_STREAM_DATA) || (t =? FrameType.STOP_SENDING).

Definition is_BidiStreamOK (t : Z) : bool := is_UniStreamReceiverOK t || is_UniStreamSenderOK t.

Definition should_Retransmit (t : Z) : bool :=
  (t =? FrameType.CRYPTO) || (t =? FrameType.STREAM) || (t =? FrameType.RESET_STREAM) ||
  (t =? FrameType.STOP_SENDING) || (t =? FrameType.MAX_DATA) ||
  (t =? FrameType.MAX_STREAM_DATA) || is_MAX_STREAMS t ||
  (t =? FrameType.NEW_CONNECTION_ID) || (t =? FrameType.RETIRE_CONNECTION_ID) ||
  (t =? FrameType.HANDSHAKE_DONE).

Definition is_ConnRelated (t : Z) : bool :=
  (t =? FrameType.MAX_DATA) || is_MAX_STREAMS t || (t =? FrameType.DATA_BLOCKED) ||
  is_STREAMS_BLOCKED t.

(** ** [struct FrameFlags]: the 64-bit type field of a frame *)

Module FrameFlags.
Definition as_byte (value : Z) : Z := Z.land value 0xff.

(** [FrameType(value)]: the 64-bit value converted to [int]. *)
Definition type_detail (value : Z) : Z := s32 value.

Definition type (value : Z) : Z :=
  let ty := type_detail value in
  if is_STREAM ty then FrameType.STREAM
  else if is_MAX_STREAMS ty then FrameType.MAX_STREAMS
  else if is_CONNECTION_CLOSE ty then FrameType.CONNECTION_CLOSE
  else if is_STREAMS_BLOCKED ty then FrameType.STREAMS_BLOCKED
  else if is_ACK ty then FrameType.ACK
  else if is_DATAGRAM ty then FrameType.DATAGRAM
  else ty.

Definition STREAM_fin (value : Z) : bool :=
  if type value =? FrameType.STREAM then negb (Z.land value 0x01 =? 0) else false.
Definition STREAM_len (value : Z) : bool :=
  if type value =? FrameType.STREAM then negb (Z.land value 0x02 =? 0) else false.
Definition STREAM_off (value : Z) : bool :=
  if type value =? FrameType.STREAM then negb (Z.land value 0x04 =? 0) else false.
Definition DATAGRAM_len (value : Z) : bool := type_detail value =? FrameType.DATAGRAM_LEN.
End FrameFlags.

Definition is_TailFrame (t : Z) : bool :=
  if is_STREAM t then negb (FrameFlags.STREAM_len t) else t =? FrameType.DATAGRAM.

(** ** [packet::PacketStatus]: what the frames of a packet amount to *)

Module PacketStatus.
Definition flag_is_ack_eliciting := 0x1.
Definition flag_is_byte_counted := 0x2.
Definition flag_is_non_path_probe := 0x4.
Definition flag_is_mtu_probe := 0x8.
Definition flag_is_skip := 0x10.

Definition has (flags f : Z) : bool := negb (Z.land flags f =? 0).
Definition is_ack_eliciting (s : Z) : bool := has s flag_is_ack_eliciting.
Definition is_byte_counted (s : Z) : bool := has s flag_is_byte_counted.
Definition is_non_path_probe (s : Z) : bool := has s flag_is_non_path_probe.
(** The source tests [flag_is_non_path_probe] here. *)
Definition is_mtu_probe (s : Z) : bool := has s flag_is_non_path_probe.
Definition is_skipped (s : Z) : bool := has s flag_is_skip.
Definition set_mtu_probe (s : Z) : Z := Z.lor s flag_is_mtu_probe.
Definition set_skipped (s : Z) : Z := Z.lor s flag_is_skip.

Definition add_frame (t : Z) (s : Z) : Z :=
  let add_flag (b : bool) (f s : Z) := Z.lor s (if b then f else 0) in
  let s := add_flag (is_ack_eliciting s || is_ACKEliciting t) flag_is_ack_eliciting s in
  let s := add_flag (is_byte_counted s || is_ByteCounted t) flag_is_byte_counted s in
  add_flag (is_non_path_probe s || negb (is_PathProbe t)) flag_is_non_path_probe s.
End PacketStatus.

(** ** [enum class IOResult] *)

Inductive IOResult :=
  | io_ok | id_mismatch | not_in_io_state | no_data | block_by_stream
  | block_by_conn | no_capacity | io_cancel | invalid_data | io_fatal.

#[global] Instance IOResult_eq_dec : EqDecision IOResult.
Proof. solve_decision. Defined.

(** ** Errors: [TransportError] and the fields of [QUICError] the transport
    sets ([error::none] is [None]) *)

Inductive TransportError :=
  | NO_ERROR | INTERNAL_ERROR | CONNECTION_REFUSED | FLOW_CONTROL_ERROR
  | STREAM_LIMIT_ERROR | STREAM_STATE_ERROR | FINAL_SIZE_ERROR
  | FRAME_ENCODING_ERROR | TRANSPORT_PARAMETER_ERROR | CONNECTION_ID_LIMIT_ERROR
  | PROTOCOL_VIOLATION | INVALID_TOKEN | APPLICATION_ERROR | CRYPTO_BUFFER_EXCEEDED
  | KEY_UPDATE_ERROR | AEAD_LIMIT_REACHED | NO_VIABLE_PATH
  | CRYPTO_ERROR (alert : Z).

#[global] Instance TransportError_eq_dec : EqDecision TransportError.
Proof. solve_decision. Defined.

Inductive Error :=
  | QUICError (msg : string) (transport_error : TransportError) (frame_type : Z)
  | LibError (msg : string)
  | UserError (code : Z).

(** [QUICError{.msg = m}]: the other fields keep their defaults. *)
Definition quic_error (msg : string) : Error := QUICError msg INTERNAL_ERROR FrameType.PADDING.

(** * Lemmas *)

Lemma is_STREAM_iff t : is_STREAM t = true <-> 8 <= t <= 15.
Proof. unfold is_STREAM, FrameType.STREAM. change (Z.lor 8 7) with 15. rewrite andb_true_iff, !Z.leb_le. lia. Qed.

(** Known types are small: no wrap in [type_detail]. *)
Lemma type_detail_small v : 0 <= v < 2 ^ 31 -> FrameFlags.type_detail v = v.
Proof. intros. apply s32_small. lia. Qed.

(** ** Header protection *)

Lemma protect_is_short raw m : PacketFlags.is_short (PacketFlags.protect raw m) = PacketFlags.is_short raw.
Proof.
  unfold PacketFlags.protect, PacketFlags.is_short at 1.
  assert (H : Z.land (Z.land m (PacketFlags.protect_mask raw)) 0x80 = 0).
  { rewrite <- Z.land_assoc. unfold PacketFlags.protect_mask.
    destruct (PacketFlags.is_short raw); apply Z.land_0_r. }
  by rewrite land_lxor_distr_l, H, Z.lxor_0_r.
Qed.

Lemma protect_involutive raw m : PacketFlags.protect (PacketFlags.protect raw m) m = raw.
Proof.
  unfold PacketFlags.protect at 1.
  assert (PacketFlags.protect_mask (PacketFlags.protect raw m) = PacketFlags.protect_mask raw) as ->
    by (unfold PacketFlags.protect_mask; by rewrite protect_is_short).
  unfold PacketFlags.protect. by rewrite Z.lxor_assoc, Z.lxor_nilpotent, Z.lxor_0_r.
Qed.

(** ** Status bits *)

Lemma has_lor s a f :
  PacketStatus.has (Z.lor s a) f = PacketStatus.has s f || PacketStatus.has a f.
Proof.
  unfold PacketStatus.has. rewrite Z.land_lor_distr_l.
  destruct (Z.eqb_spec (Z.land s f) 0) as [-> | Hs].
  - by rewrite Z.lor_0_l.
  - destruct (Z.eqb_spec (Z.lor (Z.land s f) (Z.land a f)) 0) as [E |]; [| done].
    apply Z.lor_eq_0_iff in E. tauto.
Qed.

Lemma has_if (b : bool) f g :
  PacketStatus.has (if b then f else 0) g = b && PacketStatus.has f g.
Proof. by destruct b. Qed.

(** Evaluate the tests of one flag constant against another. *)
Ltac eval_has :=
  repeat match goal with
  | |- context [PacketStatus.has ?a ?b] =>
      let r := eval vm_compute in (PacketStatus.has a b) in
      match r with true => idtac | false => idtac end;
      change (PacketStatus.has a b) with r
  end.

(** Effect of one frame on each bit. *)
Lemma add_frame_bits t s :
  PacketStatus.is_ack_eliciting (PacketStatus.add_frame t s) =
    PacketStatus.is_ack_eliciting s || is_ACKEliciting t /\
  PacketStatus.is_byte_counted (PacketStatus.add_frame t s) =
    PacketStatus.is_byte_counted s || is_ByteCounted t /\
  PacketStatus.is_non_path_probe (PacketStatus.add_frame t s) =
    PacketStatus.is_non_path_probe s || negb (is_PathProbe t) /\
  PacketStatus.is_skipped (PacketStatus.add_frame t s) = PacketStatus.is_skipped s.
Proof.
  unfold PacketStatus.add_frame, PacketStatus.is_ack_eliciting, PacketStatus.is_byte_counted,
    PacketStatus.is_non_path_probe, PacketStatus.is_skipped.
  cbv zeta. rewrite !has_lor, !has_if.
  eval_has.
  rewrite !andb_false_r, !andb_true_r, !orb_false_r.
  split_and!; try done;
    by destruct (PacketStatus.has s _), (is_ACKEliciting t), (is_ByteCounted t), (is_PathProbe t).
Qed.

Lemma fold_bits (get : Z -> bool) (cls : Z -> bool) ts s :
  (forall t s, get (PacketStatus.add_frame t s) = get s || cls t) ->
  get (fold_left (fun s t => PacketStatus.add_frame t s) ts s) = get s || existsb cls ts.
Proof.
  intros H. revert s. induction ts as [| t ts IH]; intros s; simpl; [by rewrite orb_false_r |].
  by rewrite IH, H, orb_assoc.
Qed.

(** * Properties *)

(** The first byte built for a protected packet is valid, decodes to the
    same packet type, packet number length, spin bit and key phase with all
    reserved bits zero; and masking it for header protection is undone by
    masking it again with the same mask. *)
Theorem packet_flags_roundtrip t n spin key m :
  is_ProtectedPacket t = true -> 1 <= n <= 4 ->
  let raw := make_packet_flags 1 t n spin key in
  PacketFlags.invalid raw = false /\ PacketFlags.type raw 1 = t /\
  PacketFlags.packet_number_length raw = n /\ PacketFlags.reserved_bits raw = 0 /\
  PacketFlags.is_long raw = is_LongPacket t /\
  (t = OneRTT -> PacketFlags.spin raw = spin /\ PacketFlags.key_phase raw = key) /\
  PacketFlags.protect (PacketFlags.protect raw m) m = raw.
Proof.
  intros Ht Hn raw. rewrite protect_involutive.
  assert (n = 1 \/ n = 2 \/ n = 3 \/ n = 4) as Hn' by lia.
  destruct t; try discriminate; destruct Hn' as [-> | [-> | [-> | ->]]]; destruct spin, key;
    split_and!; done.
Qed.

Lemma packet_flags_roundtrip_witness :
  let raw := make_packet_flags 1 OneRTT 3 false true in
  PacketFlags.invalid raw = false /\ PacketFlags.type raw 1 = OneRTT /\
  PacketFlags.packet_number_length raw = 3 /\ PacketFlags.reserved_bits raw = 0 /\
  PacketFlags.is_long raw = is_LongPacket OneRTT /\
  (OneRTT = OneRTT -> PacketFlags.spin raw = false /\ PacketFlags.key_phase raw = true) /\
  PacketFlags.protect (PacketFlags.protect raw 0xa5) 0xa5 = raw.
Proof. apply (packet_flags_roundtrip OneRTT 3 false true 0xa5); done. Defined.

(** The status of a packet built from its frames: it is ack-eliciting
    (byte-counted, more than a path probe) exactly when one of its frames
    is, in whatever order they were added, and building it never marks the
    packet as skipped. *)
Theorem packet_status_of_frames ts :
  let s := fold_left (fun s t => PacketStatus.add_frame t s) ts 0 in
  PacketStatus.is_ack_eliciting s = existsb is_ACKEliciting ts /\
  PacketStatus.is_byte_counted s = existsb is_ByteCounted ts /\
  PacketStatus.is_non_path_probe s = existsb (fun t => negb (is_PathProbe t)) ts /\
  PacketStatus.is_skipped s = false.
Proof.
  cbv zeta. pose proof add_frame_bits as H.
  rewrite (fold_bits PacketStatus.is_ack_eliciting is_ACKEliciting) by apply H.
  rewrite (fold_bits PacketStatus.is_byte_counted is_ByteCounted) by apply H.
  rewrite (fold_bits PacketStatus.is_non_path_probe (fun t => negb (is_PathProbe t))) by apply H.
  rewrite (fold_bits PacketStatus.is_skipped (fun _ => false))
    by (intros; rewrite orb_false_r; apply H).
  split_and!; try done. simpl. induction ts; done.
Qed.

(** Marking a packet as a path-MTU probe is never seen by
    [is_mtu_probe], which reads the "not only path probe frames" bit: the
    mark changes no answer, and a packet with an ordinary frame (STREAM, say)
    answers as a probe. *)
Theorem mtu_probe_mark_unread s t ts :
  PacketStatus.is_mtu_probe (PacketStatus.set_mtu_probe s) = PacketStatus.is_mtu_probe s /\
  (is_PathProbe t = false ->
   PacketStatus.is_mtu_probe
     (fold_left (fun s t => PacketStatus.add_frame t s) (t :: ts) 0) = true).
Proof.
  split.
  - unfold PacketStatus.is_mtu_probe, PacketStatus.set_mtu_probe. rewrite has_lor. apply orb_false_r.
  - intros Ht. change PacketStatus.is_mtu_probe with PacketStatus.is_non_path_probe.
    rewrite (fold_bits PacketStatus.is_non_path_probe (fun t => negb (is_PathProbe t)))
      by apply add_frame_bits.
    simpl. by rewrite Ht.
Qed.

Lemma mtu_probe_mark_unread_witness :
  PacketStatus.is_mtu_probe (PacketStatus.set_mtu_probe 0) = PacketStatus.is_mtu_probe 0 /\
  (is_PathProbe FrameType.STREAM = false ->
   PacketStatus.is_mtu_probe
     (fold_left (fun s t => PacketStatus.add_frame t s) [FrameType.STREAM] 0) = true).
Proof. apply (mtu_probe_mark_unread 0 FrameType.STREAM []). Defined.
