(* ===== verification/FrameBase.v ===== *)
(** * Frames: the interface and the frames without a payload
      (src/src/include/fnet/quic/frame/base.h, typeonly.h, path.h, conn_id.h,
      conn_manage.h, token.h)

    Every frame struct of the sources has the members [get_type], [parse],
    [len] and [render]; here they are the class [Frame]. [FrameLaws] states
    what the rest of the stack relies on: [render] emits [wire f], of the
    length [len] announces, and parsing those bytes gives [canon f] back. *)

From stdpp Require Import base list.
From Stdlib Require Import ZArith Lia.
From S2P Require Import Prelude Bytes Varint Types.

(** ** The interface *)

Class Frame (F : Type) := {
  f_default : F;                                  (* F{} *)
  f_type : F -> Z;                                (* FrameFlags type *)
  get_type : F -> bool -> Z;                      (* get_type(on_cast) *)
  parse : F * reader -> bool * (F * reader);      (* parse(reader&) *)
  flen : F -> bool -> Z;                          (* len(use_length_field) *)
  render : F -> writer -> bool * writer;          (* render(writer&) *)
}.

(** The laws: [wf f] is what a caller has to provide, [wire f] what goes on
    the wire, [canon f] what the receiver gets, [tail f] tells that the frame
    has to be the last one of its packet. *)
Class FrameLaws (F : Type) `{Frame F} := {
  wf : F -> Prop;
  wire : F -> list Z;
  canon : F -> F;
  tail : F -> bool;
  wire_size f : wf f -> size (wire f) = flen f false;
  render_emits f : wf f -> emits (render f) (wire f);
  parse_reads f rest : wf f -> (tail f = true -> rest = []) ->
    reads_at parse f_default (wire f) rest (canon f);
  parse_advances : advances parse;
  canon_type f : wf f -> f_type (canon f) = get_type f false;
  wire_head f : wf f -> exists l, wire f = varint.enc (varint.of_uint (get_type f false)) ++ l;
}.

(** ** [struct Frame] *)

(** [Frame::parse]: the type must have its shortest encoding. *)
Definition parse_type {F} (set_type : Z -> F -> F) : F * reader -> bool * (F * reader) :=
  fun '(f, r) =>
    let '(data, ok, r') := varint.read r in
    if negb ok || negb (varint.is_min_len data) then (false, (f, r'))
    else (true, (set_type (varint.value data) f, r')).

(** [parse_check]: [parse(r) && type.type() == ty]. *)
Definition parse_check {F} (set_type : Z -> F -> F) (get : F -> Z) (ty : Z)
    : F * reader -> bool * (F * reader) :=
  parse_type set_type ;& fun '(f, r) => (FrameFlags.type (get f) =? ty, (f, r)).

Definition type_minlen (flags : Z) : Z := varint.min_len flags.

Definition type_minwrite (flags : Z) (w : writer) : bool * writer :=
  varint.write (varint.of_uint flags) w.

(** The plain [Frame] that [parse_frame] peeks with: its type field. *)
Definition base_parse : Z * reader -> bool * (Z * reader) := parse_type (fun v _ => v).

(** ** [template <FrameType t> struct TypeOnly]: PADDING, PING, HANDSHAKE_DONE *)

Module TypeOnly.
Record t (ty : Z) := mk { type : Z }.
Arguments mk {ty}. Arguments type {ty}.
Section ops.
Context {ty : Z}.
Definition get_type (f : t ty) (_ : bool) : Z := ty.
Definition parse : t ty * reader -> bool * (t ty * reader) :=
  parse_type (fun v _ => mk v) ;&
  fun '(f, r) => (FrameFlags.type_detail (type f) =? ty, (f, r)).
Definition len (f : t ty) (_ : bool) : Z := varint.min_len ty.
Definition render (f : t ty) (w : writer) : bool * writer :=
  varint.write (varint.of_uint ty) w.
End ops.
End TypeOnly.

(** ** [template <FrameType t> struct PathBase]: PATH_CHALLENGE, PATH_RESPONSE *)

Module PathBase.
Record t (ty : Z) := mk { type : Z; data : Z }.
Arguments mk {ty}. Arguments type {ty}. Arguments data {ty}.
Section ops.
Context {ty : Z}.
Definition set_type (v : Z) (f : t ty) := mk (ty := ty) v (data f).
Definition get_type (f : t ty) (_ : bool) : Z := ty.
Definition parse : t ty * reader -> bool * (t ty * reader) :=
  parse_check set_type type ty ;&
  rd_num_field 8 data (fun v f => mk (type f) v).
Definition len (f : t ty) (_ : bool) : Z := type_minlen ty + 8.
Definition render (f : t ty) : writer -> bool * writer :=
  type_minwrite ty ;& write_num 8 (data f).
End ops.
End PathBase.

(** ** [template <FrameType t> struct MaxDataBase]: MAX_DATA, DATA_BLOCKED *)

Module MaxDataBase.
Record t (ty : Z) := mk { type : Z; max_data : varint.Value }.
Arguments mk {ty}. Arguments type {ty}. Arguments max_data {ty}.
Section ops.
Context {ty : Z}.
Definition set_type (v : Z) (f : t ty) := mk (ty := ty) v (max_data f).
Definition get_type (f : t ty) (_ : bool) : Z := ty.
Definition parse : t ty * reader -> bool * (t ty * reader) :=
  parse_check set_type type ty ;&
  varint.read_to (fun v f => mk (type f) v).
Definition len (f : t ty) (_ : bool) : Z := type_minlen ty + varint.len (max_data f).
Definition render (f : t ty) : writer -> bool * writer :=
  type_minwrite ty ;& varint.write (max_data f).
End ops.
End MaxDataBase.

(** ** [template <FrameType t> struct MaxStreamsBase]: MAX_STREAMS, STREAMS_BLOCKED *)

Module MaxStreamsBase.
Record t (ty : Z) := mk { type : Z; max_streams : varint.Value }.
Arguments mk {ty}. Arguments type {ty}. Arguments max_streams {ty}.
Section ops.
Context {ty : Z}.
Definition set_type (v : Z) (f : t ty) := mk (ty := ty) v (max_streams f).
Definition get_type (f : t ty) (on_cast : bool) : Z :=
  if on_cast then ty else FrameFlags.type_detail (type f).
Definition parse : t ty * reader -> bool * (t ty * reader) :=
  parse_check set_type type ty ;&
  varint.read_to (fun v f => mk (type f) v).
Definition len (f : t ty) (_ : bool) : Z := type_minlen ty + varint.len (max_streams f).
Definition render (f : t ty) : writer -> bool * writer :=
  if negb (FrameFlags.type (type f) =? ty) then fun w => (false, w)
  else type_minwrite (type f) ;& varint.write (max_streams f).
End ops.
End MaxStreamsBase.

(** ** [struct ConnectionCloseFrame] *)

Module ConnectionCloseFrame.
Record t := mk {
  type : Z;
  error_code : varint.Value;
  frame_type : varint.Value;
  reason_phrase_length : varint.Value;
  reason_phrase : list Z;
}.
Definition set_type v f := mk v (error_code f) (frame_type f) (reason_phrase_length f) (reason_phrase f).
Definition is_app (f : t) : bool := FrameFlags.type_detail (type f) =? FrameType.CONNECTION_CLOSE_APP.
Definition get_type (f : t) (on_cast : bool) : Z :=
  if on_cast then FrameType.CONNECTION_CLOSE
  else if is_app f then FrameType.CONNECTION_CLOSE_APP else FrameType.CONNECTION_CLOSE.
Definition parse : t * reader -> bool * (t * reader) :=
  parse_check set_type type FrameType.CONNECTION_CLOSE ;&
  varint.read_to (fun v f => mk (type f) v (frame_type f) (reason_phrase_length f) (reason_phrase f)) ;&
  ifM is_app (retM true)
    (varint.read_to (fun v f => mk (type f) (error_code f) v (reason_phrase_length f) (reason_phrase f))) ;&
  varint.read_to (fun v f => mk (type f) (error_code f) (frame_type f) v (reason_phrase f)) ;&
  rd_field (fun f => varint.value (reason_phrase_length f))
    (fun d f => mk (type f) (error_code f) (frame_type f) (reason_phrase_length f) d).
Definition len (f : t) (use_length_field : bool) : Z :=
  type_minlen FrameType.CONNECTION_CLOSE + varint.len (error_code f) +
  (if negb (is_app f) then varint.len (frame_type f) else 0) +
  (if use_length_field then varint.len (reason_phrase_length f)
   else varint.len (varint.of_uint (size (reason_phrase f)))) +
  size (reason_phrase f).
Definition render (f : t) : writer -> bool * writer :=
  type_minwrite (get_type f false) ;& varint.write (error_code f) ;&
  (if is_app f then retM true else varint.write (frame_type f)) ;&
  varint.write (varint.of_uint (size (reason_phrase f))) ;&
  wr_write (reason_phrase f).
End ConnectionCloseFrame.

(** ** [struct NewTokenFrame] *)

Module NewTokenFrame.
Record t := mk { type : Z; token_length : varint.Value; token : list Z }.
Definition set_type v f := mk v (token_length f) (token f).
Definition get_type (f : t) (_ : bool) : Z := FrameType.NEW_TOKEN.
Definition parse : t * reader -> bool * (t * reader) :=
  parse_check set_type type FrameType.NEW_TOKEN ;&
  varint.read_to (fun v f => mk (type f) v (token f)) ;&
  rd_field (fun f => varint.value (token_length f)) (fun d f => mk (type f) (token_length f) d).
Definition len (f : t) (use_length_field : bool) : Z :=
  type_minlen FrameType.NEW_TOKEN +
  (if use_length_field then varint.len (token_length f)
   else varint.len (varint.of_uint (size (token f)))) +
  size (token f).
Definition render (f : t) : writer -> bool * writer :=
  type_minwrite FrameType.NEW_TOKEN ;&
  varint.write (varint.of_uint (size (token f))) ;& wr_write (token f).
End NewTokenFrame.

(** ** [struct NewConnectionIDFrame] and [struct RetireConnectionIDFrame] *)

Module NewConnectionIDFrame.
Record t := mk {
  type : Z;
  sequence_number : varint.Value;
  retire_proior_to : varint.Value;
  length : Z;
  connectionID : list Z;
  stateless_reset_token : list Z;
}.
Definition set_type v f :=
  mk v (sequence_number f) (retire_proior_to f) (length f) (connectionID f) (stateless_reset_token f).
Definition get_type (f : t) (_ : bool) : Z := FrameType.NEW_CONNECTION_ID.
Definition parse : t * reader -> bool * (t * reader) :=
  parse_check set_type type FrameType.NEW_CONNECTION_ID ;&
  varint.read_to (fun v f => mk (type f) v (retire_proior_to f) (length f) (connectionID f) (stateless_reset_token f)) ;&
  varint.read_to (fun v f => mk (type f) (sequence_number f) v (length f) (connectionID f) (stateless_reset_token f)) ;&
  rd_array_field (fun f => [length f])
    (fun d f => mk (type f) (sequence_number f) (retire_proior_to f) (default 0 (d !! 0%nat)) (connectionID f) (stateless_reset_token f)) ;&
  rd_field length
    (fun d f => mk (type f) (sequence_number f) (retire_proior_to f) (length f) d (stateless_reset_token f)) ;&
  rd_array_field stateless_reset_token
    (fun d f => mk (type f) (sequence_number f) (retire_proior_to f) (length f) (connectionID f) d).
Definition len (f : t) (_ : bool) : Z :=
  type_minlen FrameType.NEW_CONNECTION_ID + varint.len (sequence_number f) +
  varint.len (retire_proior_to f) + 1 + size (connectionID f) + 16.
Definition render (f : t) : writer -> bool * writer :=
  if 0xFF <? size (connectionID f) then fun w => (false, w)
  else
    type_minwrite FrameType.NEW_CONNECTION_ID ;& varint.write (sequence_number f) ;&
    varint.write (retire_proior_to f) ;& wr_write [u8 (size (connectionID f))] ;&
    wr_write (connectionID f) ;& wr_write (stateless_reset_token f).
End NewConnectionIDFrame.

Module RetireConnectionIDFrame.
Record t := mk { type : Z; sequence_number : varint.Value }.
Definition set_type v f := mk v (sequence_number f).
Definition get_type (f : t) (_ : bool) : Z := FrameType.RETIRE_CONNECTION_ID.
Definition parse : t * reader -> bool * (t * reader) :=
  parse_check set_type type FrameType.RETIRE_CONNECTION_ID ;&
  varint.read_to (fun v f => mk (type f) v).
Definition len (f : t) (_ : bool) : Z :=
  type_minlen FrameType.RETIRE_CONNECTION_ID + varint.len (sequence_number f).
Definition render (f : t) : writer -> bool * writer :=
  type_minwrite FrameType.RETIRE_CONNECTION_ID ;& varint.write (sequence_number f).
End RetireConnectionIDFrame.

(** ** Instances of the interface *)

#[global] Instance TypeOnly_frame ty : Frame (TypeOnly.t ty) := {
  f_default := TypeOnly.mk 0; f_type := TypeOnly.type; get_type := TypeOnly.get_type;
  parse := TypeOnly.parse; flen := TypeOnly.len; render := TypeOnly.render }.

#[global] Instance PathBase_frame ty : Frame (PathBase.t ty) := {
  f_default := PathBase.mk 0 0; f_type := PathBase.type; get_type := PathBase.get_type;
  parse := PathBase.parse; flen := PathBase.len; render := PathBase.render }.

#[global] Instance MaxDataBase_frame ty : Frame (MaxDataBase.t ty) := {
  f_default := MaxDataBase.mk 0 (varint.of_uint 0); f_type := MaxDataBase.type;
  get_type := MaxDataBase.get_type; parse := MaxDataBase.parse; flen := MaxDataBase.len;
  render := MaxDataBase.render }.

#[global] Instance MaxStreamsBase_frame ty : Frame (MaxStreamsBase.t ty) := {
  f_default := MaxStreamsBase.mk 0 (varint.of_uint 0); f_type := MaxStreamsBase.type;
  get_type := MaxStreamsBase.get_type; parse := MaxStreamsBase.parse; flen := MaxStreamsBase.len;
  render := MaxStreamsBase.render }.

#[global] Instance ConnectionClose_frame : Frame ConnectionCloseFrame.t := {
  f_default := ConnectionCloseFrame.mk 0 (varint.of_uint 0) (varint.of_uint 0) (varint.of_uint 0) [];
  f_type := ConnectionCloseFrame.type; get_type := ConnectionCloseFrame.get_type;
  parse := ConnectionCloseFrame.parse; flen := ConnectionCloseFrame.len;
  render := ConnectionCloseFrame.render }.

#[global] Instance NewToken_frame : Frame NewTokenFrame.t := {
  f_default := NewTokenFrame.mk 0 (varint.of_uint 0) []; f_type := NewTokenFrame.type;
  get_type := NewTokenFrame.get_type; parse := NewTokenFrame.parse; flen := NewTokenFrame.len;
  render := NewTokenFrame.render }.

#[global] Instance NewConnectionID_frame : Frame NewConnectionIDFrame.t := {
  f_default := NewConnectionIDFrame.mk 0 (varint.of_uint 0) (varint.of_uint 0) 0 [] (replicate 16 0);
  f_type := NewConnectionIDFrame.type; get_type := NewConnectionIDFrame.get_type;
  parse := NewConnectionIDFrame.parse; flen := NewConnectionIDFrame.len;
  render := NewConnectionIDFrame.render }.

#[global] Instance RetireConnectionID_frame : Frame RetireConnectionIDFrame.t := {
  f_default := RetireConnectionIDFrame.mk 0 (varint.of_uint 0); f_type := RetireConnectionIDFrame.type;
  get_type := RetireConnectionIDFrame.get_type; parse := RetireConnectionIDFrame.parse;
  flen := RetireConnectionIDFrame.len; render := RetireConnectionIDFrame.render }.

(** * Lemmas *)

(** A frame type with a one-byte encoding that stands for itself. *)
Class PlainType (ty : Z) : Prop := {
  plain_range : 0 <= ty < 64;
  plain_type : FrameFlags.type ty = ty;
}.

#[global] Hint Extern 1 (PlainType _) => (split; [split; done | done]) : typeclass_instances.

Lemma emits_type ty : 0 <= ty < 2 ^ 62 -> emits (type_minwrite ty) (varint.enc (varint.of_uint ty)).
Proof. intros. apply varint.emits_varint. by apply writable_uint. Qed.

Lemma emits_num8 v : emits (write_num 8 v) (write_be 8 v).
Proof. apply emits_num. Qed.

Lemma reads_type {F} (set_type : Z -> F -> F) ty f rest :
  0 <= ty < 2 ^ 62 ->
  reads_at (parse_type set_type) f (varint.enc (varint.of_uint ty)) rest (set_type ty f).
Proof.
  intros Hty r Hr Hrem. unfold parse_type.
  rewrite (varint.read_enc (varint.of_uint ty) r rest) by (auto using writable_uint).
  unfold varint.is_min_len, varint.norm, varint.len. simpl. by rewrite Z.eqb_refl.
Qed.

(** A test on the object inside a chain. *)
Lemma reads_test {F} (c : F -> bool) f rest :
  c f = true -> reads_at (fun '(f, r) => (c f, (f, r))) f [] rest f.
Proof.
  intros Hc [] Hr _. simpl. rewrite Hc. unfold rd_advance. simpl. by rewrite Nat.add_0_r.
Qed.

Lemma reads_check {F} set_type (get : F -> Z) ty v f rest :
  0 <= v < 2 ^ 62 -> get (set_type v f) = v -> FrameFlags.type v = ty ->
  reads_at (parse_check set_type get ty) f (varint.enc (varint.of_uint v)) rest (set_type v f).
Proof.
  intros Hv Hg Ht. rewrite <- (app_nil_r (varint.enc _)). unfold parse_check.
  eapply reads_andM; [by apply reads_type |].
  apply (reads_test (fun f => FrameFlags.type (get f) =? ty)). by rewrite Hg, Ht, Z.eqb_refl.
Qed.

Lemma advances_type {F} (set_type : Z -> F -> F) : advances (parse_type set_type).
Proof.
  intros f r b f' r' Hr. unfold parse_type. destruct (varint.read r) as [[v ok] r1] eqn:E.
  apply varint.read_advances in E; [| done].
  destruct (negb ok || negb (varint.is_min_len v)); intros [= <- <- <-]; auto.
Qed.

Lemma advances_test {F} (c : F -> bool) :
  advances (fun '(f, r) => (c f, (f, r)) : bool * (F * reader)).
Proof. intros f r b f' r' Hr [= <- <- <-]. auto. Qed.

Lemma advances_check {F} (set_type : Z -> F -> F) get ty : advances (parse_check set_type get ty).
Proof. apply advances_andM; [apply advances_type | apply (advances_test (fun f => _ =? ty))]. Qed.

#[export] Hint Resolve advances_check advances_type : wire.
#[export] Hint Resolve emits_type emits_num8 : wire.

(** Tactics for the laws: split a chain of writes (reads) along the
    concatenation of the bytes, and close each step with its lemma. *)
Ltac emits_chain :=
  repeat first
    [ apply emits_andM
    | apply emits_type | apply varint.emits_varint | apply emits_num8
    | apply emits_write | apply emits_ret_true ].

Ltac advances_chain :=
  repeat first
    [ apply advances_check | apply advances_andM | apply varint.advances_varint
    | apply advances_num | apply advances_array | apply advances_best | apply advances_ret
    | apply advances_if | apply advances_field | apply advances_set ].

Lemma plain_minlen ty : 0 <= ty < 64 -> type_minlen ty = 1.
Proof. intros H. unfold type_minlen, varint.min_len, varint.in_range. by rewrite ltb_true by (unfold varint.border; simpl; lia). Qed.

Lemma enc_type_size ty : 0 <= ty < 64 -> size (varint.enc (varint.of_uint ty)) = 1.
Proof.
  intros H. rewrite varint.enc_size by (apply writable_uint; lia).
  apply (plain_minlen ty H).
Qed.

(** Sizes of the pieces of a frame. *)
Ltac wire_sizes :=
  rewrite ?size_app, ?size_cons, ?size_nil;
  rewrite ?enc_type_size, ?plain_minlen by (assumption || (split; done));
  rewrite ?varint.enc_size by (assumption || (apply writable_uint; lia)).

Lemma len_uint n : varint.len (varint.of_uint n) = varint.min_len n.
Proof. reflexivity. Qed.

(** ** The laws of the frames of this file *)

#[global] Instance TypeOnly_laws ty `{PlainType ty} : FrameLaws (TypeOnly.t ty).
Proof.
  assert (Hd : FrameFlags.type_detail ty = ty)
    by (apply type_detail_small; pose proof (plain_range (ty := ty)); lia).
  pose proof (plain_range (ty := ty)) as Hr.
  refine {| wf := fun _ => True; wire := fun _ => varint.enc (varint.of_uint ty);
            canon := fun _ => TypeOnly.mk ty; tail := fun _ => false |}.
  - intros f _. by rewrite enc_type_size, <- (plain_minlen ty).
  - intros f _. apply emits_type. lia.
  - intros f rest _ _. cbv [parse f_default TypeOnly_frame TypeOnly.parse]. rewrite <- (app_nil_r (varint.enc _)).
    eapply reads_andM; [apply reads_type; lia |].
    apply (reads_test (fun f => FrameFlags.type_detail (TypeOnly.type f) =? ty)).
    simpl. rewrite Hd. apply Z.eqb_refl.
  - apply advances_andM; [apply advances_type |].
    apply (advances_test (fun f => FrameFlags.type_detail (TypeOnly.type f) =? ty)).
  - done.
  - intros f _. exists []. by rewrite app_nil_r.
Defined.

#[global] Instance PathBase_laws ty `{PlainType ty} : FrameLaws (PathBase.t ty).
Proof.
  pose proof (plain_range (ty := ty)) as Hr.
  refine {| wf := fun f => is_u64 (PathBase.data f);
            wire := fun f => varint.enc (varint.of_uint ty) ++ write_be 8 (PathBase.data f);
            canon := fun f => PathBase.mk ty (PathBase.data f); tail := fun _ => false |}.
  - intros f Hf. cbv beta in *. cbv [flen PathBase_frame PathBase.len]. wire_sizes. unfold size. rewrite length_write_be. lia.
  - intros f Hf. emits_chain. lia.
  - intros f rest Hf _. cbv [parse f_default PathBase_frame PathBase.parse].
    eapply reads_andM; [apply (reads_check _ _ _ ty); [lia | done | apply plain_type] |].
    eapply reads_num; [apply length_write_be |].
    rewrite read_write_be, Z.mod_small by done. done.
  - advances_chain.
  - done.
  - eauto.
Defined.

#[global] Instance MaxDataBase_laws ty `{PlainType ty} : FrameLaws (MaxDataBase.t ty).
Proof.
  pose proof (plain_range (ty := ty)) as Hr.
  refine {| wf := fun f => varint.writable (MaxDataBase.max_data f);
            wire := fun f => varint.enc (varint.of_uint ty) ++ varint.enc (MaxDataBase.max_data f);
            canon := fun f => MaxDataBase.mk ty (varint.norm (MaxDataBase.max_data f));
            tail := fun _ => false |}.
  - intros f Hf. cbv beta in *. cbv [flen MaxDataBase_frame MaxDataBase.len]. wire_sizes. lia.
  - intros f Hf. emits_chain; auto. lia.
  - intros f rest Hf _. cbv [parse f_default MaxDataBase_frame MaxDataBase.parse].
    eapply reads_andM; [apply (reads_check _ _ _ ty); [lia | done | apply plain_type] |].
    by eapply varint.reads_varint.
  - advances_chain.
  - done.
  - eauto.
Defined.

#[global] Instance MaxStreamsBase_laws ty `{PlainType ty} : FrameLaws (MaxStreamsBase.t ty).
Proof.
  pose proof (plain_range (ty := ty)) as Hr.
  refine {| wf := fun f => 0 <= MaxStreamsBase.type f < 64 /\
                           FrameFlags.type (MaxStreamsBase.type f) = ty /\
                           varint.writable (MaxStreamsBase.max_streams f);
            wire := fun f => varint.enc (varint.of_uint (MaxStreamsBase.type f)) ++
                             varint.enc (MaxStreamsBase.max_streams f);
            canon := fun f => MaxStreamsBase.mk (MaxStreamsBase.type f)
                                (varint.norm (MaxStreamsBase.max_streams f));
            tail := fun _ => false |}.
  - intros f (Hf1 & Hf2 & Hf3). cbv beta in *. cbv [flen MaxStreamsBase_frame MaxStreamsBase.len]. wire_sizes. lia.
  - intros f (Hf1 & Hf2 & Hf3). simpl in *. unfold MaxStreamsBase.render. rewrite Hf2, Z.eqb_refl.
    simpl. emits_chain; auto. lia.
  - intros f rest (Hf1 & Hf2 & Hf3) _. cbv [parse f_default MaxStreamsBase_frame MaxStreamsBase.parse].
    eapply reads_andM; [apply (reads_check _ _ _ (MaxStreamsBase.type f)); [lia | done | done] |].
    by eapply varint.reads_varint.
  - advances_chain.
  - intros f (Hf1 & Hf2 & Hf3). simpl. symmetry. apply type_detail_small. lia.
  - intros f (Hf1 & Hf2 & Hf3). simpl in *. unfold MaxStreamsBase.get_type.
    rewrite type_detail_small by lia. eauto.
Defined.

#[global] Instance RetireConnectionID_laws : FrameLaws RetireConnectionIDFrame.t.
Proof.
  refine {| wf := fun f => varint.writable (RetireConnectionIDFrame.sequence_number f);
            wire := fun f => varint.enc (varint.of_uint FrameType.RETIRE_CONNECTION_ID) ++
                             varint.enc (RetireConnectionIDFrame.sequence_number f);
            canon := fun f => RetireConnectionIDFrame.mk FrameType.RETIRE_CONNECTION_ID
                                (varint.norm (RetireConnectionIDFrame.sequence_number f));
            tail := fun _ => false |}.
  - intros f Hf. cbv beta in *. cbv [flen RetireConnectionID_frame RetireConnectionIDFrame.len]. wire_sizes. lia.
  - intros f Hf. emits_chain; done.
  - intros f rest Hf _. cbv [parse f_default RetireConnectionID_frame RetireConnectionIDFrame.parse].
    eapply reads_andM; [by eapply reads_check |]. by eapply varint.reads_varint.
  - advances_chain.
  - done.
  - eauto.
Defined.

#[global] Instance NewToken_laws : FrameLaws NewTokenFrame.t.
Proof.
  refine {| wf := fun f => size (NewTokenFrame.token f) < 2 ^ 62;
            wire := fun f => varint.enc (varint.of_uint FrameType.NEW_TOKEN) ++
                             varint.enc (varint.of_uint (size (NewTokenFrame.token f))) ++
                             NewTokenFrame.token f;
            canon := fun f => NewTokenFrame.mk FrameType.NEW_TOKEN
                                (varint.norm (varint.of_uint (size (NewTokenFrame.token f))))
                                (NewTokenFrame.token f);
            tail := fun _ => false |}.
  - intros f Hf. pose proof (size_nonneg (NewTokenFrame.token f)). cbv beta in *.
    cbv [flen NewToken_frame NewTokenFrame.len]. wire_sizes. lia.
  - intros f Hf. pose proof (size_nonneg (NewTokenFrame.token f)).
    emits_chain; done.
  - intros f rest Hf _. pose proof (size_nonneg (NewTokenFrame.token f)). cbv [parse f_default NewToken_frame NewTokenFrame.parse].
    eapply reads_andM; [by eapply reads_check |].
    eapply reads_andM; [eapply varint.reads_varint; [apply writable_uint; lia | done] |].
    by eapply reads_field.
  - advances_chain.
  - done.
  - eauto.
Defined.

Lemma is_app_get_type f a b c d :
  ConnectionCloseFrame.is_app (ConnectionCloseFrame.mk (ConnectionCloseFrame.get_type f false) a b c d)
  = ConnectionCloseFrame.is_app f.
Proof.
  unfold ConnectionCloseFrame.get_type. unfold ConnectionCloseFrame.is_app at 1. simpl.
  by destruct (ConnectionCloseFrame.is_app f).
Qed.

#[global] Instance ConnectionClose_laws : FrameLaws ConnectionCloseFrame.t.
Proof.
  refine {| wf := fun f => varint.writable (ConnectionCloseFrame.error_code f) /\
              (ConnectionCloseFrame.is_app f = false ->
               varint.writable (ConnectionCloseFrame.frame_type f)) /\
              size (ConnectionCloseFrame.reason_phrase f) < 2 ^ 62;
            wire := fun f =>
              varint.enc (varint.of_uint (ConnectionCloseFrame.get_type f false)) ++
              varint.enc (ConnectionCloseFrame.error_code f) ++
              (if ConnectionCloseFrame.is_app f then []
               else varint.enc (ConnectionCloseFrame.frame_type f)) ++
              varint.enc (varint.of_uint (size (ConnectionCloseFrame.reason_phrase f))) ++
              ConnectionCloseFrame.reason_phrase f;
            canon := fun f => ConnectionCloseFrame.mk (ConnectionCloseFrame.get_type f false)
              (varint.norm (ConnectionCloseFrame.error_code f))
              (if ConnectionCloseFrame.is_app f then varint.of_uint 0
               else varint.norm (ConnectionCloseFrame.frame_type f))
              (varint.norm (varint.of_uint (size (ConnectionCloseFrame.reason_phrase f))))
              (ConnectionCloseFrame.reason_phrase f);
            tail := fun _ => false |}.
  - intros f (Hf1 & Hf2 & Hf3). pose proof (size_nonneg (ConnectionCloseFrame.reason_phrase f)).
    cbv [flen ConnectionClose_frame ConnectionCloseFrame.len ConnectionCloseFrame.get_type].
    destruct (ConnectionCloseFrame.is_app f); [| specialize (Hf2 eq_refl)];
      simpl negb; cbv match; wire_sizes; lia.
  - intros f (Hf1 & Hf2 & Hf3). pose proof (size_nonneg (ConnectionCloseFrame.reason_phrase f)).
    cbv [render ConnectionClose_frame ConnectionCloseFrame.render ConnectionCloseFrame.get_type].
    destruct (ConnectionCloseFrame.is_app f); emits_chain; auto; done.
  - intros f rest (Hf1 & Hf2 & Hf3) _.
    pose proof (size_nonneg (ConnectionCloseFrame.reason_phrase f)).
    cbv [parse f_default ConnectionClose_frame ConnectionCloseFrame.parse].
    eapply reads_andM; [apply reads_check; [| done |];
      unfold ConnectionCloseFrame.get_type; by destruct (ConnectionCloseFrame.is_app f) |].
    eapply reads_andM; [by eapply varint.reads_varint |].
    eapply reads_andM with (f1 := ConnectionCloseFrame.mk (ConnectionCloseFrame.get_type f false)
      (varint.norm (ConnectionCloseFrame.error_code f))
      (if ConnectionCloseFrame.is_app f then varint.of_uint 0
       else varint.norm (ConnectionCloseFrame.frame_type f)) (varint.of_uint 0) []).
    { apply reads_if.
      match goal with |- reads_at (if ?c then _ else _) _ _ _ _ =>
        replace c with (ConnectionCloseFrame.is_app f) by (symmetry; apply is_app_get_type) end.
      destruct (ConnectionCloseFrame.is_app f); [apply reads_ret |].
      eapply varint.reads_varint; auto. }
    eapply reads_andM; [eapply varint.reads_varint; [apply writable_uint; lia | done] |].
    by eapply reads_field.
  - advances_chain.
  - done.
  - eauto.
Defined.

#[global] Instance NewConnectionID_laws : FrameLaws NewConnectionIDFrame.t.
Proof.
  refine {| wf := fun f => varint.writable (NewConnectionIDFrame.sequence_number f) /\
              varint.writable (NewConnectionIDFrame.retire_proior_to f) /\
              size (NewConnectionIDFrame.connectionID f) <= 255 /\
              length (NewConnectionIDFrame.stateless_reset_token f) = 16%nat;
            wire := fun f =>
              varint.enc (varint.of_uint FrameType.NEW_CONNECTION_ID) ++
              varint.enc (NewConnectionIDFrame.sequence_number f) ++
              varint.enc (NewConnectionIDFrame.retire_proior_to f) ++
              [size (NewConnectionIDFrame.connectionID f)] ++
              NewConnectionIDFrame.connectionID f ++ NewConnectionIDFrame.stateless_reset_token f;
            canon := fun f => NewConnectionIDFrame.mk FrameType.NEW_CONNECTION_ID
              (varint.norm (NewConnectionIDFrame.sequence_number f))
              (varint.norm (NewConnectionIDFrame.retire_proior_to f))
              (size (NewConnectionIDFrame.connectionID f))
              (NewConnectionIDFrame.connectionID f) (NewConnectionIDFrame.stateless_reset_token f);
            tail := fun _ => false |}.
  - intros f (Hf1 & Hf2 & Hf3 & Hf4). cbv [flen NewConnectionID_frame NewConnectionIDFrame.len].
    wire_sizes. unfold size. rewrite Hf4. lia.
  - intros f (Hf1 & Hf2 & Hf3 & Hf4). pose proof (size_nonneg (NewConnectionIDFrame.connectionID f)).
    cbv [render NewConnectionID_frame NewConnectionIDFrame.render]. rewrite ltb_false by lia.
    rewrite u8_small by (unfold is_byte; lia). emits_chain; done.
  - intros f rest (Hf1 & Hf2 & Hf3 & Hf4) _.
    cbv [parse f_default NewConnectionID_frame NewConnectionIDFrame.parse].
    eapply reads_andM; [by eapply reads_check |].
    eapply reads_andM; [by eapply varint.reads_varint |].
    eapply reads_andM; [by eapply varint.reads_varint |].
    eapply reads_andM; [by eapply reads_array |].
    eapply reads_andM; [by eapply reads_field |].
    eapply reads_array; [by rewrite Hf4 | done].
  - advances_chain.
  - done.
  - eauto.
Defined.
