(* ===== verification/CalcData.v ===== *)
(** * Fitting user data into a frame
      (src/src/include/fnet/quic/frame/calc_data.h)

    How many bytes of user data go into a frame of at most [to_fit] bytes,
    with and without a length field. The length field is a variable-length
    integer, so shrinking the data may shrink the field too: [correct_delta]
    hands the freed bytes back to the data. *)

From stdpp Require Import base list.
From Stdlib Require Import ZArith Lia.
From S2P Require Import Prelude Varint.

Module calc.

Record StreamDataRange := mk_range { fixed_length : Z; max_length : Z; min_zero : bool }.

Definition with_max (r : StreamDataRange) (m : Z) : StreamDataRange :=
  mk_range (fixed_length r) m (min_zero r).

Definition max_length_len (r : StreamDataRange) : Z := varint.len (varint.of_uint (max_length r)).

Definition min_length (r : StreamDataRange) : Z :=
  if min_zero r || (max_length r =? 0) then 0 else 1.

Definition length_exists_max_len (r : StreamDataRange) : Z :=
  u64 (fixed_length r + max_length_len r + max_length r).

Definition length_no_max_len (r : StreamDataRange) : Z := u64 (fixed_length r + max_length r).

Definition length_exists_min_len (r : StreamDataRange) : Z :=
  u64 (fixed_length r + 1 + min_length r).

Definition length_no_min_len (r : StreamDataRange) : Z := u64 (fixed_length r + min_length r).

(** The loop [for (i = 1; i <= delta; i++)], [n] iterations from [i]. *)
Fixpoint correct_delta_loop (to_fit : Z) (range : StreamDataRange) (data_len : Z) (i : Z) (n : nat) : Z :=
  match n with
  | O => i - 1
  | S n' =>
      if to_fit <? length_exists_max_len (with_max range (u64 (data_len + i)))
      then i - 1
      else correct_delta_loop to_fit range data_len (i + 1) n'
  end.

Definition correct_delta (to_fit : Z) (range : StreamDataRange) (data_len delta : Z) : Z :=
  correct_delta_loop to_fit range data_len 1 (Z.to_nat delta).

(** Both return (frame length, data length, valid). *)
Definition shrink_to_fit_with_len (to_fit : Z) (range : StreamDataRange) : Z * Z * bool :=
  if negb (varint.in_range (max_length range) 8) then (0, 0, false)
  else
    let to_write := length_exists_max_len range in
    let data_len := s64 (max_length range) in
    let length_len := varint.len (varint.of_uint (u64 data_len)) in
    let data_len := if to_fit <? to_write then s64 (data_len - (to_write - to_fit)) else data_len in
    let fixed_length_len :=
      if data_len <? 0 then 1 else varint.len (varint.of_uint (u64 data_len)) in
    let diff_varint_len := u8 (length_len - fixed_length_len) in
    let data_len :=
      if negb (diff_varint_len =? 0)
      then s64 (data_len + correct_delta to_fit range data_len diff_varint_len)
      else data_len in
    if (if min_zero range then data_len <? 0 else data_len <=? 0) then (0, 0, false)
    else
      let range := with_max range (u64 data_len) in
      (length_exists_max_len range, max_length range, true).

Definition shrink_to_fit_no_len (to_fit : Z) (range : StreamDataRange) : Z * Z * bool :=
  let to_write := length_no_max_len range in
  if to_fit <? to_write then
    if max_length range <? to_write - to_fit then (0, 0, false)
    else
      let range := with_max range (max_length range - (to_write - to_fit)) in
      let fixed_to_write := length_no_max_len range in
      (fixed_to_write, max_length range, fixed_to_write =? to_fit)
  else (to_write, max_length range, to_write =? to_fit).

(** ** Specification: the length of a frame with [n] bytes of data *)

Definition frame_len (fixed n : Z) : Z := fixed + varint.min_len n + n.

(** Ranges the callers build: a header of a few bytes, data below 2^62. *)
Definition range_ok (r : StreamDataRange) : Prop :=
  2 <= fixed_length r <= 32 /\ 0 <= max_length r < 2 ^ 62.

Lemma min_len_mono a b : 0 <= a <= b -> b < 2 ^ 62 -> varint.min_len a <= varint.min_len b.
Proof. intros. unfold varint.min_len, varint.in_range, varint.border. zcases. Qed.

Lemma min_len_bound a : 0 <= varint.min_len a <= 8.
Proof. unfold varint.min_len, varint.in_range. zcases. Qed.

Lemma min_len_pos a : 0 <= a < 2 ^ 62 -> 1 <= varint.min_len a.
Proof. intros. unfold varint.min_len, varint.in_range, varint.border. zcases. Qed.

Lemma min_len_one a : 0 <= a < 64 -> varint.min_len a = 1.
Proof. intros. unfold varint.min_len, varint.in_range, varint.border. zcases. Qed.

Lemma min_len_huge a : 2 ^ 62 <= a -> varint.min_len a = 0.
Proof. intros. unfold varint.min_len, varint.in_range, varint.border. zcases. Qed.

Lemma exists_max_len_eq r n :
  range_ok r -> 0 <= n < 2 ^ 62 ->
  length_exists_max_len (with_max r n) = frame_len (fixed_length r) n.
Proof.
  intros [H1 H2] Hn. unfold length_exists_max_len, max_length_len, frame_len. simpl.
  change (varint.len (varint.of_uint n)) with (varint.min_len n).
  pose proof (min_len_bound n). apply u64_small. unfold is_u64. lia.
Qed.

(** The loop stops at the largest step that still fits: all steps up to the
    result pass the test, the next one (if any) fails it. *)
Lemma correct_delta_loop_spec to_fit range data_len n i :
  let test k := length_exists_max_len (with_max range (u64 (data_len + k))) <= to_fit in
  let d := correct_delta_loop to_fit range data_len i n in
  i - 1 <= d <= i - 1 + Z.of_nat n /\
  (forall k, i <= k <= d -> test k) /\
  (d < i - 1 + Z.of_nat n -> ~ test (d + 1)).
Proof.
  cbv zeta. revert i. induction n as [| n IH]; intros i; cbn [correct_delta_loop].
  - split_and!; intros; lia.
  - destruct (Z.ltb_spec to_fit (length_exists_max_len (with_max range (u64 (data_len + i))))) as [Hlt | Hge].
    + split_and!; [lia | lia | intros; lia |]. intros _.
      replace (i - 1 + 1) with i by lia. lia.
    + destruct (IH (i + 1)) as (H1 & H2 & H3). split_and!; [lia | lia | |].
      * intros k Hk. destruct (Z.eq_dec k i) as [-> |]; [done | apply H2; lia].
      * intros Hd. apply H3. lia.
Qed.

Lemma correct_delta_spec to_fit range data_len delta :
  0 <= delta ->
  let test k := length_exists_max_len (with_max range (u64 (data_len + k))) <= to_fit in
  let d := correct_delta to_fit range data_len delta in
  0 <= d <= delta /\ (forall k, 1 <= k <= d -> test k) /\ (d < delta -> ~ test (d + 1)).
Proof.
  intros Hd. cbv zeta. unfold correct_delta.
  destruct (correct_delta_loop_spec to_fit range data_len (Z.to_nat delta) 1) as (H1 & H2 & H3).
  rewrite Z2Nat.id in H1, H3 by done. split_and!; [lia | lia | done |].
  intros Hlt. apply H3. lia.
Qed.

Lemma frame_len_lt fixed a b :
  0 <= a < b -> b < 2 ^ 62 -> frame_len fixed a < frame_len fixed b.
Proof. intros H Hb. unfold frame_len. pose proof (min_len_mono a b). lia. Qed.

(** One step of [correct_delta] tests what it should, data lengths that are
    still negative included (unless the whole frame wraps below zero). *)
Lemma delta_test to_fit r n :
  range_ok r -> 0 <= to_fit < 2 ^ 62 -> - 64 <= n < 2 ^ 62 ->
  length_exists_max_len (with_max r (u64 n)) <= to_fit <->
  if n <? 0 then 0 <= fixed_length r + n <= to_fit else frame_len (fixed_length r) n <= to_fit.
Proof.
  intros Hr Ht Hn. destruct (Z.ltb_spec n 0).
  - destruct Hr as [H1 H2]. unfold length_exists_max_len, max_length_len. simpl.
    assert (u64 n = n + 2 ^ 64) as ->.
    { unfold u64. rewrite <- (Z.mod_add _ 1) by lia. apply Z.mod_small. lia. }
    change (varint.len (varint.of_uint (n + 2 ^ 64))) with (varint.min_len (n + 2 ^ 64)).
    rewrite min_len_huge by lia. unfold u64.
    destruct (Z.lt_ge_cases (fixed_length r + n) 0).
    + rewrite Z.mod_small by lia. lia.
    + replace (fixed_length r + 0 + (n + 2 ^ 64)) with (fixed_length r + n + 1 * 2 ^ 64) by lia.
      rewrite Z.mod_add, Z.mod_small by lia. lia.
  - rewrite u64_small by (unfold is_u64; lia). rewrite exists_max_len_eq by (done || lia). done.
Qed.

(** The data length the function settles on when not everything fits. *)
Definition settled (to_fit : Z) (r : StreamDataRange) : Z :=
  let D := to_fit - fixed_length r - varint.min_len (max_length r) in
  let diff := varint.min_len (max_length r) - (if D <? 0 then 1 else varint.min_len D) in
  D + correct_delta to_fit r D diff.

Lemma shrink_with_len_eq to_fit r :
  range_ok r -> 0 <= to_fit < 2 ^ 62 ->
  shrink_to_fit_with_len to_fit r =
    let n := if to_fit <? frame_len (fixed_length r) (max_length r)
             then settled to_fit r else max_length r in
    if (if min_zero r then n <? 0 else n <=? 0) then (0, 0, false)
    else (frame_len (fixed_length r) n, n, true).
Proof.
  intros Hr Ht. pose proof Hr as [H1 H2]. cbv zeta. unfold shrink_to_fit_with_len, varint.in_range.
  change (varint.border 8) with (2 ^ 62). rewrite ltb_true by lia. cbn [negb].
  assert (Hm : length_exists_max_len r = frame_len (fixed_length r) (max_length r))
    by (rewrite <- (exists_max_len_eq r) by (done || lia); by destruct r).
  rewrite Hm, s64_small, (u64_small (max_length r)) by (unfold is_s64, is_u64; lia).
  change (varint.len (varint.of_uint (max_length r))) with (varint.min_len (max_length r)).
  pose proof (min_len_pos (max_length r)) as HL. pose proof (min_len_bound (max_length r)) as HL8.
  destruct (Z.ltb_spec to_fit (frame_len (fixed_length r) (max_length r))) as [Hlt | Hge].
  - unfold settled. set (D := to_fit - fixed_length r - varint.min_len (max_length r)).
    assert (max_length r - (frame_len (fixed_length r) (max_length r) - to_fit) = D) as ->
      by (unfold frame_len, D; lia).
    assert (HD : - 40 <= D < max_length r) by (unfold frame_len, D in *; lia).
    rewrite s64_small by (unfold is_s64; lia).
    assert (Hf : (if D <? 0 then 1 else varint.len (varint.of_uint (u64 D)))
                 = if D <? 0 then 1 else varint.min_len D).
    { destruct (Z.ltb_spec D 0); [done |]. by rewrite u64_small by (unfold is_u64; lia). }
    rewrite Hf. set (fl := if D <? 0 then 1 else varint.min_len D).
    assert (Hfl : 1 <= fl <= varint.min_len (max_length r)).
    { unfold fl. destruct (Z.ltb_spec D 0); [lia |].
      pose proof (min_len_mono D (max_length r)). pose proof (min_len_pos D). lia. }
    rewrite u8_small by (unfold is_byte; lia).
    destruct (correct_delta_spec to_fit r D (varint.min_len (max_length r) - fl)) as (Hd & _); [lia |].
    destruct (Z.eqb_spec (varint.min_len (max_length r) - fl) 0) as [E | E]; cbn [negb].
    + assert (correct_delta to_fit r D (varint.min_len (max_length r) - fl) = 0) as -> by lia.
      rewrite Z.add_0_r. destruct (if min_zero r then _ else _) eqn:Ez; [done |].
      assert (0 <= D) by (destruct (min_zero r); zcases).
      rewrite u64_small, exists_max_len_eq by (unfold is_u64; done || lia). done.
    + rewrite s64_small by (unfold is_s64; lia).
      destruct (if min_zero r then _ else _) eqn:Ez; [done |].
      match goal with |- context [u64 ?n] => assert (0 <= n) by (destruct (min_zero r); zcases) end.
      rewrite u64_small, exists_max_len_eq by (unfold is_u64; done || lia). done.
  - rewrite (ltb_false (max_length r) 0) by lia.
    rewrite (u64_small (max_length r)) by (unfold is_u64; lia).
    change (varint.len (varint.of_uint (max_length r))) with (varint.min_len (max_length r)).
    rewrite Z.sub_diag. change (u8 0) with 0. cbn [Z.eqb negb].
    rewrite (u64_small (max_length r)) by (unfold is_u64; lia).
    rewrite exists_max_len_eq by (done || lia).
    by rewrite (ltb_false (max_length r) 0) by lia.
Qed.

(** What [settled] achieves. *)
Lemma settled_spec to_fit r :
  range_ok r -> 0 <= to_fit < 2 ^ 62 ->
  to_fit < frame_len (fixed_length r) (max_length r) ->
  let n := settled to_fit r in
  n < max_length r /\
  (0 <= n -> frame_len (fixed_length r) n <= to_fit) /\
  (7 <= to_fit \/ max_length r < 2 ^ 30 ->
   forall m, 0 <= m <= max_length r -> n < m -> to_fit < frame_len (fixed_length r) m).
Proof.
  intros Hr Ht Hlt. pose proof Hr as [H1 H2]. cbv zeta. unfold settled.
  set (L := varint.min_len (max_length r)). set (D := to_fit - fixed_length r - L).
  set (fl := if D <? 0 then 1 else varint.min_len D).
  pose proof (min_len_bound (max_length r)) as HL8. fold L in HL8.
  assert (HD : - 40 <= D < max_length r) by (unfold frame_len, D, L in *; lia).
  assert (Hfl : 1 <= fl <= L).
  { unfold fl, L. pose proof (min_len_pos (max_length r)). destruct (Z.ltb_spec D 0); [lia |].
    pose proof (min_len_mono D (max_length r)). pose proof (min_len_pos D). lia. }
  destruct (correct_delta_spec to_fit r D (L - fl)) as (Hd & Hyes & Hno); [lia |].
  set (d := correct_delta to_fit r D (L - fl)) in *.
  assert (Hfit : 0 <= D + d -> frame_len (fixed_length r) (D + d) <= to_fit).
  { intros Hn. destruct (Z.eq_dec d 0) as [E |].
    - rewrite E, Z.add_0_r in *. pose proof (min_len_mono D (max_length r)).
      unfold frame_len. fold L in H. lia.
    - specialize (Hyes d ltac:(lia)). apply delta_test in Hyes; [| done | done | lia].
      by rewrite ltb_false in Hyes by lia. }
  assert (Hmax : D + d < max_length r).
  { destruct (Z.lt_ge_cases (D + d) (max_length r)); [done |].
    destruct (Z.eq_dec d 0); [lia |]. specialize (Hfit ltac:(lia)).
    pose proof (min_len_mono (max_length r) (D + d)). unfold frame_len in *.
    pose proof (min_len_bound (D + d)). lia. }
  split_and!; [done | done |]. intros Hsmall m Hm Hnm.
  assert (Hm1 : 1 <= varint.min_len m) by (apply min_len_pos; lia).
  destruct (Z.lt_ge_cases to_fit 3); [unfold frame_len; lia |].
  assert (Hfix : 0 <= fixed_length r + D + 1).
  { assert (L <= 4 \/ 7 <= to_fit) as [? | ?]; [| unfold D; lia | unfold D; lia].
    destruct Hsmall; [by right | left]. unfold L, varint.min_len, varint.in_range, varint.border.
    zcases. }
  destruct (Z.eq_dec d (L - fl)) as [E | E].
  - assert (fl <= varint.min_len m).
    { unfold fl. destruct (Z.ltb_spec D 0); [lia |]. apply min_len_mono; lia. }
    unfold frame_len. unfold D in *. lia.
  - specialize (Hno ltac:(lia)). rewrite delta_test in Hno by (done || lia).
    destruct (Z.ltb_spec (D + (d + 1)) 0); [exfalso; apply Hno; unfold D in *; lia |].
    destruct (Z.eq_dec m (D + (d + 1))) as [-> |]; [lia |].
    pose proof (frame_len_lt (fixed_length r) (D + (d + 1)) m). lia.
Qed.

Lemma with_len_spec to_fit r fl n ok :
  range_ok r -> 0 <= to_fit < 2 ^ 62 -> shrink_to_fit_with_len to_fit r = (fl, n, ok) ->
  (ok = true -> 0 <= n <= max_length r /\ fl = frame_len (fixed_length r) n /\ fl <= to_fit /\
                (min_zero r = false -> 0 < n)) /\
  (7 <= to_fit \/ max_length r < 2 ^ 30 ->
   forall m, (if min_zero r then 0 <= m else 0 < m) -> m <= max_length r ->
     (ok = true -> n < m) -> to_fit < frame_len (fixed_length r) m).
Proof.
  intros Hr Ht. rewrite shrink_with_len_eq by done. cbv zeta. pose proof Hr as [_ H2].
  set (k := if to_fit <? _ then settled to_fit r else max_length r).
  assert (Hk : k <= max_length r /\ (0 <= k -> frame_len (fixed_length r) k <= to_fit) /\
    (7 <= to_fit \/ max_length r < 2 ^ 30 ->
     forall m, 0 <= m <= max_length r -> k < m -> to_fit < frame_len (fixed_length r) m)).
  { unfold k. destruct (Z.ltb_spec to_fit (frame_len (fixed_length r) (max_length r))).
    - destruct (settled_spec to_fit r) as (? & ? & ?); auto. split_and!; auto; lia.
    - split_and!; [lia | auto | intros; lia]. }
  destruct Hk as (Hk1 & Hk2 & Hk3).
  destruct (if min_zero r then _ else _) eqn:Ez; intros [= <- <- <-].
  - split; [discriminate |]. intros Hs m Hm Hm2 _. apply Hk3; [done | |];
      destruct (min_zero r); zcases.
  - assert (0 <= k) by (destruct (min_zero r); zcases). split.
    + intros _. split_and!; auto. intros Hz. rewrite Hz in Ez. zcases.
    + intros Hs m Hm Hm2 Hlt. apply Hk3; auto; destruct (min_zero r); lia.
Qed.

Lemma no_len_spec to_fit r fl n ok :
  range_ok r -> 0 <= to_fit < 2 ^ 62 -> shrink_to_fit_no_len to_fit r = (fl, n, ok) ->
  (ok = true <-> fixed_length r <= to_fit <= fixed_length r + max_length r) /\
  (ok = true -> fl = to_fit /\ n = to_fit - fixed_length r) /\
  (fl = 0 <-> to_fit < fixed_length r).
Proof.
  intros [H1 H2] Ht. unfold shrink_to_fit_no_len, length_no_max_len. simpl.
  rewrite !u64_small by (unfold is_u64; lia).
  repeat zcase_one; intros [= <- <- <-]; split_and!; (split || idtac); intros; (done || lia).
Qed.

End calc.

(** * Properties *)

(** [shrink_to_fit_with_len] is sound and optimal. A valid answer is a
    data length within the data there is (not empty unless [min_zero]) whose
    frame, length field included, has the announced length and fits
    [to_fit]; and no longer data would fit, nor any data at all when the
    answer is "invalid". Optimality needs [to_fit >= 7] or less than 2^30
    bytes of data: below that [correct_delta] can stop early on a wrapped
    length. *)
Theorem shrink_with_len_optimal to_fit fixed max z fl n ok :
  2 <= fixed <= 32 -> 0 <= max < 2 ^ 62 -> 0 <= to_fit < 2 ^ 62 ->
  calc.shrink_to_fit_with_len to_fit (calc.mk_range fixed max z) = (fl, n, ok) ->
  (ok = true -> 0 <= n <= max /\ fl = fixed + varint.min_len n + n /\ fl <= to_fit /\
                (z = false -> 0 < n)) /\
  (7 <= to_fit \/ max < 2 ^ 30 ->
   forall m, (if z then 0 <= m else 0 < m) -> m <= max -> (ok = true -> n < m) ->
     to_fit < fixed + varint.min_len m + m).
Proof.
  intros H1 H2 H3 E. by apply (calc.with_len_spec to_fit (calc.mk_range fixed max z)) in E.
Qed.

Lemma shrink_with_len_optimal_witness :
  calc.shrink_to_fit_with_len 67 (calc.mk_range 2 7994 true) = (66, 63, true) /\
  67 < 2 + varint.min_len 64 + 64.
Proof.
  split; [reflexivity |].
  apply (shrink_with_len_optimal 67 2 7994 true 66 63 true); try lia; reflexivity.
Defined.
