(* ===== verification/FrameStream.v ===== *)
(** * Frames that carry data or belong to a stream
      (src/src/include/fnet/quic/frame/stream_manage.h, crypto.h, datagram.h)

    RESET_STREAM, STOP_SENDING, STREAM, MAX_STREAM_DATA, STREAM_DATA_BLOCKED,
    CRYPTO and DATAGRAM, and the functions that build a frame of a given size
    from the data to send. *)

From stdpp Require Import base list.
From Stdlib Require Import ZArith Lia.
From S2P Require Import Prelude Bytes Varint Types FrameBase CalcData.

(** ** [struct ResetStreamFrame] *)

Module ResetStreamFrame.
Record t := mk {
  type : Z;
  streamID : varint.Value;
  application_protocol_error_code : varint.Value;
  final_size : varint.Value;
}.
Definition set_type v f := mk v (streamID f) (application_protocol_error_code f) (final_size f).
Definition get_type (f : t) (_ : bool) : Z := FrameType.RESET_STREAM.
Definition parse : t * reader -> bool * (t * reader) :=
  parse_check set_type type FrameType.RESET_STREAM ;&
  varint.read_to (fun v f => mk (type f) v (application_protocol_error_code f) (final_size f)) ;&
  varint.read_to (fun v f => mk (type f) (streamID f) v (final_size f)) ;&
  varint.read_to (fun v f => mk (type f) (streamID f) (application_protocol_error_code f) v).
Definition len (f : t) (_ : bool) : Z :=
  type_minlen FrameType.RESET_STREAM + varint.len (streamID f) +
  varint.len (application_protocol_error_code f) + varint.len (final_size f).
Definition render (f : t) : writer -> bool * writer :=
  type_minwrite FrameType.RESET_STREAM ;& varint.write (streamID f) ;&
  varint.write (application_protocol_error_code f) ;& varint.write (final_size f).
End ResetStreamFrame.

(** ** [struct StopSendingFrame] *)

Module StopSendingFrame.
Record t := mk {
  type : Z;
  streamID : varint.Value;
  application_protocol_error_code : varint.Value;
}.
Definition set_type v f := mk v (streamID f) (application_protocol_error_code f).
Definition get_type (f : t) (_ : bool) : Z := FrameType.STOP_SENDING.
Definition parse : t * reader -> bool * (t * reader) :=
  parse_check set_type type FrameType.STOP_SENDING ;&
  varint.read_to (fun v f => mk (type f) v (application_protocol_error_code f)) ;&
  varint.read_to (fun v f => mk (type f) (streamID f) v).
Definition len (f : t) (_ : bool) : Z :=
  type_minlen FrameType.STOP_SENDING + varint.len (streamID f) +
  varint.len (application_protocol_error_code f).
Definition render (f : t) : writer -> bool * writer :=
  type_minwrite FrameType.STOP_SENDING ;& varint.write (streamID f) ;&
  varint.write (application_protocol_error_code f).
End StopSendingFrame.

(** ** [struct StreamFrame] *)

Module StreamFrame.
Record t := mk {
  type : Z;
  streamID : varint.Value;
  offset : varint.Value;
  length : varint.Value;
  stream_data : list Z;
}.
Definition set_type v f := mk v (streamID f) (offset f) (length f) (stream_data f).
Definition get_type (f : t) (on_cast : bool) : Z :=
  if on_cast then FrameType.STREAM
  else if negb (FrameFlags.type (type f) =? FrameType.STREAM)
  then make_STREAM (negb (varint.value (offset f) =? 0)) true false
  else FrameFlags.type_detail (type f).
Definition has_off (f : t) : bool := FrameFlags.STREAM_off (type f).
Definition has_len (f : t) : bool := FrameFlags.STREAM_len (type f).
Definition parse : t * reader -> bool * (t * reader) :=
  parse_check set_type type FrameType.STREAM ;&
  varint.read_to (fun v f => mk (type f) v (offset f) (length f) (stream_data f)) ;&
  ifM has_off
    (varint.read_to (fun v f => mk (type f) (streamID f) v (length f) (stream_data f)))
    (setM (fun f => mk (type f) (streamID f) (varint.of_uint 0) (length f) (stream_data f))) ;&
  ifM has_len
    (varint.read_to (fun v f => mk (type f) (streamID f) (offset f) v (stream_data f)))
    (retM true) ;&
  ifM has_len
    (rd_field (fun f => varint.value (length f))
      (fun d f => mk (type f) (streamID f) (offset f) (length f) d))
    (rd_best_field (fun d f => mk (type f) (streamID f) (offset f) (length f) d)).
Definition len (f : t) (use_length_field : bool) : Z :=
  let tyval := get_type f false in
  type_minlen FrameType.STREAM + varint.len (streamID f) +
  (if FrameFlags.STREAM_off tyval then varint.len (offset f) else 0) +
  (if negb (FrameFlags.STREAM_len tyval) then 0
   else if use_length_field then varint.len (length f)
   else varint.len (varint.of_uint (size (stream_data f)))) +
  size (stream_data f).
Definition render (f : t) : writer -> bool * writer :=
  let tyval := get_type f false in
  type_minwrite tyval ;& varint.write (streamID f) ;&
  (if negb (FrameFlags.STREAM_off tyval) then retM true else varint.write (offset f)) ;&
  (if negb (FrameFlags.STREAM_len tyval) then retM true
   else varint.write (varint.of_uint (size (stream_data f)))) ;&
  wr_write (stream_data f).
(** [StreamFrame{}] *)
Definition zero : t := mk 0 (varint.of_uint 0) (varint.of_uint 0) (varint.of_uint 0) [].
End StreamFrame.

Definition calc_stream_overhead (stream_id offset : Z) (has_ofs : bool) : Z :=
  1 + varint.len (varint.of_uint stream_id) + (if has_ofs then varint.len (varint.of_uint offset) else 0).

Definition stream_size_range (stream_id offset max_length : Z) (allow_zero : bool) : calc.StreamDataRange :=
  calc.mk_range (calc_stream_overhead stream_id offset (negb (offset =? 0))) max_length allow_zero.

Definition make_fit_size_Stream (to_fit stream_id offset : Z) (src : list Z) (fin allow_zero : bool)
    : StreamFrame.t * bool :=
  let range := stream_size_range stream_id offset (size src) allow_zero in
  let '(ok, no_len_data, valid) := calc.shrink_to_fit_no_len to_fit range in
  if valid then
    (StreamFrame.mk (make_STREAM (negb (offset =? 0)) false (fin && (size src =? no_len_data)))
       (varint.of_uint stream_id) (varint.of_uint offset) (varint.of_uint no_len_data)
       (rsubstr src 0 no_len_data), true)
  else if ok =? 0 then (StreamFrame.zero, false)
  else
    let '(_, with_len_data, use_len) := calc.shrink_to_fit_with_len to_fit range in
    if use_len then
      (StreamFrame.mk (make_STREAM (negb (offset =? 0)) true (fin && (size src =? with_len_data)))
         (varint.of_uint stream_id) (varint.of_uint offset) (varint.of_uint with_len_data)
         (rsubstr src 0 with_len_data), true)
    else (StreamFrame.zero, false).

(** ** [template <FrameType t> struct MaxStreamDataBase]: MAX_STREAM_DATA,
    STREAM_DATA_BLOCKED *)

Module MaxStreamDataBase.
Record t (ty : Z) := mk { type : Z; streamID : varint.Value; max_stream_data : varint.Value }.
Arguments mk {ty}. Arguments type {ty}. Arguments streamID {ty}. Arguments max_stream_data {ty}.
Section ops.
Context {ty : Z}.
Definition set_type (v : Z) (f : t ty) := mk (ty := ty) v (streamID f) (max_stream_data f).
Definition get_type (f : t ty) (_ : bool) : Z := ty.
Definition parse : t ty * reader -> bool * (t ty * reader) :=
  parse_check set_type type ty ;&
  varint.read_to (fun v f => mk (type f) v (max_stream_data f)) ;&
  varint.read_to (fun v f => mk (type f) (streamID f) v).
Definition len (f : t ty) (_ : bool) : Z :=
  type_minlen ty + varint.len (streamID f) + varint.len (max_stream_data f).
Definition render (f : t ty) : writer -> bool * writer :=
  type_minwrite ty ;& varint.write (streamID f) ;& varint.write (max_stream_data f).
End ops.
End MaxStreamDataBase.

(** ** [struct CryptoFrame] *)

Module CryptoFrame.
Record t := mk { type : Z; offset : varint.Value; length : varint.Value; crypto_data : list Z }.
Definition set_type v f := mk v (offset f) (length f) (crypto_data f).
Definition get_type (f : t) (_ : bool) : Z := FrameType.CRYPTO.
Definition parse : t * reader -> bool * (t * reader) :=
  parse_check set_type type FrameType.CRYPTO ;&
  varint.read_to (fun v f => mk (type f) v (length f) (crypto_data f)) ;&
  varint.read_to (fun v f => mk (type f) (offset f) v (crypto_data f)) ;&
  rd_field (fun f => varint.value (length f)) (fun d f => mk (type f) (offset f) (length f) d).
Definition len (f : t) (use_length_field : bool) : Z :=
  type_minlen FrameType.CRYPTO + varint.len (offset f) +
  (if use_length_field then varint.len (length f)
   else varint.len (varint.of_uint (size (crypto_data f)))) +
  size (crypto_data f).
Definition render (f : t) : writer -> bool * writer :=
  type_minwrite FrameType.CRYPTO ;& varint.write (offset f) ;&
  varint.write (varint.of_uint (size (crypto_data f))) ;& wr_write (crypto_data f).
Definition zero : t := mk 0 (varint.of_uint 0) (varint.of_uint 0) [].
End CryptoFrame.

Definition make_fit_size_Crypto (to_fit offset : Z) (src : list Z) : CryptoFrame.t * bool :=
  let range := calc.mk_range (1 + varint.len (varint.of_uint offset)) (size src) false in
  let '(_, len, ok) := calc.shrink_to_fit_with_len to_fit range in
  if negb ok then (CryptoFrame.zero, false)
  else (CryptoFrame.mk 0 (varint.of_uint offset) (varint.of_uint len) (rsubstr src 0 len), true).

(** ** [struct DatagramFrame] *)

Module DatagramFrame.
Record t := mk { type : Z; length : varint.Value; datagram_data : list Z }.
Definition set_type v f := mk v (length f) (datagram_data f).
Definition is_plain (f : t) : bool := FrameFlags.type_detail (type f) =? FrameType.DATAGRAM.
Definition get_type (f : t) (on_cast : bool) : Z :=
  if on_cast then FrameType.DATAGRAM
  else if is_plain f then FrameType.DATAGRAM else FrameType.DATAGRAM_LEN.
Definition parse : t * reader -> bool * (t * reader) :=
  parse_check set_type type FrameType.DATAGRAM ;&
  ifM (fun f => FrameFlags.type_detail (type f) =? FrameType.DATAGRAM_LEN)
    (varint.read_to (fun v f => mk (type f) v (datagram_data f)) ;&
     rd_field (fun f => varint.value (length f)) (fun d f => mk (type f) (length f) d))
    (rd_best_field (fun d f => mk (type f) (length f) d)).
Definition len (f : t) (use_length_field : bool) : Z :=
  type_minlen FrameType.DATAGRAM +
  (if is_plain f then 0
   else if use_length_field then varint.len (length f)
   else varint.len (varint.of_uint (size (datagram_data f)))) +
  size (datagram_data f).
Definition render (f : t) : writer -> bool * writer :=
  type_minwrite (get_type f false) ;&
  (if is_plain f then retM true else varint.write (varint.of_uint (size (datagram_data f)))) ;&
  wr_write (datagram_data f).
Definition zero : t := mk 0 (varint.of_uint 0) [].
End DatagramFrame.

Definition make_fit_size_Datagram (to_fit : Z) (src : list Z) : DatagramFrame.t * bool :=
  let dgram := DatagramFrame.mk FrameType.DATAGRAM (varint.of_uint 0) src in
  let no_len := DatagramFrame.len dgram false in
  if no_len =? to_fit then (dgram, true)
  else
    let dgram := DatagramFrame.mk FrameType.DATAGRAM_LEN (varint.of_uint 0) src in
    let with_len := DatagramFrame.len dgram false in
    if with_len <=? to_fit then (dgram, true) else (DatagramFrame.zero, false).

(** ** Instances of the interface *)

#[global] Instance ResetStream_frame : Frame ResetStreamFrame.t := {
  f_default := ResetStreamFrame.mk 0 (varint.of_uint 0) (varint.of_uint 0) (varint.of_uint 0);
  f_type := ResetStreamFrame.type; get_type := ResetStreamFrame.get_type;
  parse := ResetStreamFrame.parse; flen := ResetStreamFrame.len; render := ResetStreamFrame.render }.

#[global] Instance StopSending_frame : Frame StopSendingFrame.t := {
  f_default := StopSendingFrame.mk 0 (varint.of_uint 0) (varint.of_uint 0);
  f_type := StopSendingFrame.type; get_type := StopSendingFrame.get_type;
  parse := StopSendingFrame.parse; flen := StopSendingFrame.len; render := StopSendingFrame.render }.

#[global] Instance Stream_frame : Frame StreamFrame.t := {
  f_default := StreamFrame.zero; f_type := StreamFrame.type; get_type := StreamFrame.get_type;
  parse := StreamFrame.parse; flen := StreamFrame.len; render := StreamFrame.render }.

#[global] Instance MaxStreamDataBase_frame ty : Frame (MaxStreamDataBase.t ty) := {
  f_default := MaxStreamDataBase.mk 0 (varint.of_uint 0) (varint.of_uint 0);
  f_type := MaxStreamDataBase.type; get_type := MaxStreamDataBase.get_type;
  parse := MaxStreamDataBase.parse; flen := MaxStreamDataBase.len;
  render := MaxStreamDataBase.render }.

#[global] Instance Crypto_frame : Frame CryptoFrame.t := {
  f_default := CryptoFrame.zero; f_type := CryptoFrame.type; get_type := CryptoFrame.get_type;
  parse := CryptoFrame.parse; flen := CryptoFrame.len; render := CryptoFrame.render }.

#[global] Instance Datagram_frame : Frame DatagramFrame.t := {
  f_default := DatagramFrame.zero; f_type := DatagramFrame.type; get_type := DatagramFrame.get_type;
  parse := DatagramFrame.parse; flen := DatagramFrame.len; render := DatagramFrame.render }.

(** * Lemmas *)

(** ** The laws *)

#[global] Instance ResetStream_laws : FrameLaws ResetStreamFrame.t.
Proof.
  refine {| wf := fun f => varint.writable (ResetStreamFrame.streamID f) /\
              varint.writable (ResetStreamFrame.application_protocol_error_code f) /\
              varint.writable (ResetStreamFrame.final_size f);
            wire := fun f => varint.enc (varint.of_uint FrameType.RESET_STREAM) ++
              varint.enc (ResetStreamFrame.streamID f) ++
              varint.enc (ResetStreamFrame.application_protocol_error_code f) ++
              varint.enc (ResetStreamFrame.final_size f);
            canon := fun f => ResetStreamFrame.mk FrameType.RESET_STREAM
              (varint.norm (ResetStreamFrame.streamID f))
              (varint.norm (ResetStreamFrame.application_protocol_error_code f))
              (varint.norm (ResetStreamFrame.final_size f));
            tail := fun _ => false |}.
  - intros f (H1 & H2 & H3). cbv [flen ResetStream_frame ResetStreamFrame.len]. wire_sizes. lia.
  - intros f (H1 & H2 & H3). emits_chain; done.
  - intros f rest (H1 & H2 & H3) _. cbv [parse f_default ResetStream_frame ResetStreamFrame.parse].
    eapply reads_andM; [by eapply reads_check |].
    eapply reads_andM; [by eapply varint.reads_varint |].
    eapply reads_andM; [by eapply varint.reads_varint |]. by eapply varint.reads_varint.
  - advances_chain.
  - done.
  - eauto.
Defined.

#[global] Instance StopSending_laws : FrameLaws StopSendingFrame.t.
Proof.
  refine {| wf := fun f => varint.writable (StopSendingFrame.streamID f) /\
              varint.writable (StopSendingFrame.application_protocol_error_code f);
            wire := fun f => varint.enc (varint.of_uint FrameType.STOP_SENDING) ++
              varint.enc (StopSendingFrame.streamID f) ++
              varint.enc (StopSendingFrame.application_protocol_error_code f);
            canon := fun f => StopSendingFrame.mk FrameType.STOP_SENDING
              (varint.norm (StopSendingFrame.streamID f))
              (varint.norm (StopSendingFrame.application_protocol_error_code f));
            tail := fun _ => false |}.
  - intros f (H1 & H2). cbv [flen StopSending_frame StopSendingFrame.len]. wire_sizes. lia.
  - intros f (H1 & H2). emits_chain; done.
  - intros f rest (H1 & H2) _. cbv [parse f_default StopSending_frame StopSendingFrame.parse].
    eapply reads_andM; [by eapply reads_check |].
    eapply reads_andM; [by eapply varint.reads_varint |]. by eapply varint.reads_varint.
  - advances_chain.
  - done.
  - eauto.
Defined.

#[global] Instance MaxStreamDataBase_laws ty `{PlainType ty} : FrameLaws (MaxStreamDataBase.t ty).
Proof.
  pose proof (plain_range (ty := ty)) as Hr.
  refine {| wf := fun f => varint.writable (MaxStreamDataBase.streamID f) /\
              varint.writable (MaxStreamDataBase.max_stream_data f);
            wire := fun f => varint.enc (varint.of_uint ty) ++
              varint.enc (MaxStreamDataBase.streamID f) ++
              varint.enc (MaxStreamDataBase.max_stream_data f);
            canon := fun f => MaxStreamDataBase.mk ty
              (varint.norm (MaxStreamDataBase.streamID f))
              (varint.norm (MaxStreamDataBase.max_stream_data f));
            tail := fun _ => false |}.
  - intros f (H1 & H2). cbv [flen MaxStreamDataBase_frame MaxStreamDataBase.len]. wire_sizes. lia.
  - intros f (H1 & H2). emits_chain; (done || lia).
  - intros f rest (H1 & H2) _. cbv [parse f_default MaxStreamDataBase_frame MaxStreamDataBase.parse].
    eapply reads_andM; [apply (reads_check _ _ _ ty); [lia | done | apply plain_type] |].
    eapply reads_andM; [by eapply varint.reads_varint |]. by eapply varint.reads_varint.
  - advances_chain.
  - done.
  - eauto.
Defined.

#[global] Instance Crypto_laws : FrameLaws CryptoFrame.t.
Proof.
  refine {| wf := fun f => varint.writable (CryptoFrame.offset f) /\
              size (CryptoFrame.crypto_data f) < 2 ^ 62;
            wire := fun f => varint.enc (varint.of_uint FrameType.CRYPTO) ++
              varint.enc (CryptoFrame.offset f) ++
              varint.enc (varint.of_uint (size (CryptoFrame.crypto_data f))) ++
              CryptoFrame.crypto_data f;
            canon := fun f => CryptoFrame.mk FrameType.CRYPTO
              (varint.norm (CryptoFrame.offset f))
              (varint.norm (varint.of_uint (size (CryptoFrame.crypto_data f))))
              (CryptoFrame.crypto_data f);
            tail := fun _ => false |}.
  all: try (intros f (H1 & H2)); try (intros f rest (H1 & H2) _);
    try pose proof (size_nonneg (CryptoFrame.crypto_data f)).
  - cbv [flen Crypto_frame CryptoFrame.len]. wire_sizes. lia.
  - emits_chain; done.
  - cbv [parse f_default Crypto_frame CryptoFrame.parse].
    eapply reads_andM; [by eapply reads_check |].
    eapply reads_andM; [by eapply varint.reads_varint |].
    eapply reads_andM; [eapply varint.reads_varint; [apply writable_uint; lia | done] |].
    by eapply reads_field.
  - advances_chain.
  - done.
  - eauto.
Defined.

(** DATAGRAM: without a length field it takes the rest of the packet. *)
#[global] Instance Datagram_laws : FrameLaws DatagramFrame.t.
Proof.
  refine {| wf := fun f => size (DatagramFrame.datagram_data f) < 2 ^ 62;
            wire := fun f => varint.enc (varint.of_uint (DatagramFrame.get_type f false)) ++
              (if DatagramFrame.is_plain f then []
               else varint.enc (varint.of_uint (size (DatagramFrame.datagram_data f)))) ++
              DatagramFrame.datagram_data f;
            canon := fun f => DatagramFrame.mk (DatagramFrame.get_type f false)
              (if DatagramFrame.is_plain f then varint.of_uint 0
               else varint.norm (varint.of_uint (size (DatagramFrame.datagram_data f))))
              (DatagramFrame.datagram_data f);
            tail := DatagramFrame.is_plain |}.
  - intros f Hf. pose proof (size_nonneg (DatagramFrame.datagram_data f)).
    cbv [flen Datagram_frame DatagramFrame.len DatagramFrame.get_type].
    destruct (DatagramFrame.is_plain f); cbv match; wire_sizes; lia.
  - intros f Hf. pose proof (size_nonneg (DatagramFrame.datagram_data f)).
    cbv [render Datagram_frame DatagramFrame.render DatagramFrame.get_type].
    destruct (DatagramFrame.is_plain f); emits_chain; done.
  - intros f rest Hf Htail. pose proof (size_nonneg (DatagramFrame.datagram_data f)).
    cbv [parse f_default Datagram_frame DatagramFrame.parse DatagramFrame.get_type].
    eapply reads_andM; [apply reads_check; [| done |]; by destruct (DatagramFrame.is_plain f) |].
    apply reads_if. destruct (DatagramFrame.is_plain f).
    + rewrite Htail by done. by apply reads_best.
    + eapply reads_andM; [eapply varint.reads_varint; [apply writable_uint; lia | done] |].
      by eapply reads_field.
  - advances_chain.
  - done.
  - eauto.
Defined.

(** The eight STREAM types and their bits. *)
Lemma make_STREAM_bits off len fin :
  FrameFlags.type (make_STREAM off len fin) = FrameType.STREAM /\
  FrameFlags.type_detail (make_STREAM off len fin) = make_STREAM off len fin /\
  FrameFlags.STREAM_off (make_STREAM off len fin) = off /\
  FrameFlags.STREAM_len (make_STREAM off len fin) = len /\
  FrameFlags.STREAM_fin (make_STREAM off len fin) = fin /\
  0 <= make_STREAM off len fin < 64.
Proof. destruct off, len, fin; done. Qed.

Lemma stream_type_make v :
  FrameFlags.type v = FrameType.STREAM ->
  exists off len fin, FrameFlags.type_detail v = make_STREAM off len fin.
Proof.
  intros H. unfold FrameFlags.type in H. destruct (is_STREAM (FrameFlags.type_detail v)) eqn:E.
  - apply is_STREAM_iff in E. set (d := FrameFlags.type_detail v) in *.
    assert (d = 8 \/ d = 9 \/ d = 10 \/ d = 11 \/ d = 12 \/ d = 13 \/ d = 14 \/ d = 15) as Hd by lia.
    destruct Hd as [-> | [-> | [-> | [-> | [-> | [-> | [-> | ->]]]]]]];
      [exists false, false, false | exists false, false, true | exists false, true, false
      | exists false, true, true | exists true, false, false | exists true, false, true
      | exists true, true, false | exists true, true, true]; reflexivity.
  - repeat case_match; try discriminate.
    exfalso. unfold is_STREAM in E. rewrite H in E. discriminate.
Qed.

(** The type a STREAM frame is rendered with has the eight-type shape. *)
Lemma stream_get_type f :
  exists off len fin, StreamFrame.get_type f false = make_STREAM off len fin.
Proof.
  unfold StreamFrame.get_type. destruct (Z.eqb_spec (FrameFlags.type (StreamFrame.type f)) FrameType.STREAM).
  - by apply stream_type_make.
  - cbn [negb]. by eexists _, true, false.
Qed.

#[global] Instance Stream_laws : FrameLaws StreamFrame.t.
Proof.
  refine {| wf := fun f => varint.writable (StreamFrame.streamID f) /\
              varint.writable (StreamFrame.offset f) /\ size (StreamFrame.stream_data f) < 2 ^ 62;
            wire := fun f => let ty := StreamFrame.get_type f false in
              varint.enc (varint.of_uint ty) ++ varint.enc (StreamFrame.streamID f) ++
              (if FrameFlags.STREAM_off ty then varint.enc (StreamFrame.offset f) else []) ++
              (if FrameFlags.STREAM_len ty
               then varint.enc (varint.of_uint (size (StreamFrame.stream_data f))) else []) ++
              StreamFrame.stream_data f;
            canon := fun f => let ty := StreamFrame.get_type f false in
              StreamFrame.mk ty (varint.norm (StreamFrame.streamID f))
              (if FrameFlags.STREAM_off ty then varint.norm (StreamFrame.offset f) else varint.of_uint 0)
              (if FrameFlags.STREAM_len ty
               then varint.norm (varint.of_uint (size (StreamFrame.stream_data f)))
               else varint.of_uint 0)
              (StreamFrame.stream_data f);
            tail := fun f => negb (FrameFlags.STREAM_len (StreamFrame.get_type f false)) |}.
  - intros f (H1 & H2 & H3). pose proof (size_nonneg (StreamFrame.stream_data f)). cbv zeta.
    cbv [flen Stream_frame StreamFrame.len]. destruct (stream_get_type f) as (off & len & fin & ->).
    destruct (make_STREAM_bits off len fin) as (_ & _ & -> & -> & _ & Hr).
    destruct off, len; cbn [negb]; wire_sizes; lia.
  - intros f (H1 & H2 & H3). pose proof (size_nonneg (StreamFrame.stream_data f)). cbv zeta.
    cbv [render Stream_frame StreamFrame.render]. destruct (stream_get_type f) as (off & len & fin & ->).
    destruct (make_STREAM_bits off len fin) as (_ & _ & -> & -> & _ & Hr).
    destruct off, len; cbn [negb]; emits_chain; (done || lia).
  - intros f rest (H1 & H2 & H3) Htail. pose proof (size_nonneg (StreamFrame.stream_data f)). cbv zeta.
    cbv [parse f_default Stream_frame StreamFrame.parse].
    destruct (stream_get_type f) as (off & len & fin & E). rewrite E in *.
    destruct (make_STREAM_bits off len fin) as (Hty & _ & Ho & Hl & _ & Hr). rewrite Ho, Hl in *.
    eapply reads_andM; [apply reads_check; [lia | done | done] |].
    eapply reads_andM; [by eapply varint.reads_varint |].
    eapply reads_andM with (f1 := StreamFrame.mk (make_STREAM off len fin)
      (varint.norm (StreamFrame.streamID f))
      (if off then varint.norm (StreamFrame.offset f) else varint.of_uint 0) (varint.of_uint 0) []).
    { apply reads_if. unfold StreamFrame.has_off. cbn [StreamFrame.type StreamFrame.set_type]. rewrite Ho.
      destruct off; [by eapply varint.reads_varint | by apply reads_set]. }
    eapply reads_andM with (f1 := StreamFrame.mk (make_STREAM off len fin)
      (varint.norm (StreamFrame.streamID f))
      (if off then varint.norm (StreamFrame.offset f) else varint.of_uint 0)
      (if len then varint.norm (varint.of_uint (size (StreamFrame.stream_data f))) else varint.of_uint 0) []);
    apply reads_if; unfold StreamFrame.has_len; cbn [StreamFrame.type]; rewrite Hl.
    { destruct len; [| apply reads_ret]. eapply varint.reads_varint; [apply writable_uint; lia | done]. }
    destruct len; [by eapply reads_field | rewrite Htail by done; by apply reads_best].
  - advances_chain.
  - done.
  - intros f _. cbv zeta. eauto.
Defined.

(** ** Frames built to fit *)

Lemma rsubstr_prefix l n : 0 <= n <= size l -> rsubstr l 0 n = take (Z.to_nat n) l.
Proof.
  intros H. rewrite <- (rsubstr_take l (Z.to_nat n)) by (unfold size in H; lia).
  by rewrite Z2Nat.id by lia.
Qed.

Lemma size_take_to n (l : list Z) : 0 <= n <= size l -> size (take (Z.to_nat n) l) = n.
Proof. unfold size. intros. rewrite length_take. lia. Qed.

Lemma overhead_bounds stream_id offset b :
  0 <= stream_id < 2 ^ 62 -> 0 <= offset < 2 ^ 62 ->
  2 <= calc_stream_overhead stream_id offset b <= 32.
Proof.
  intros. unfold calc_stream_overhead. rewrite !len_uint.
  pose proof (calc.min_len_pos stream_id). pose proof (calc.min_len_bound stream_id).
  pose proof (calc.min_len_bound offset). destruct b; lia.
Qed.

(** The frame both branches build, for a prefix of [n] bytes. *)
Definition stream_prefix_frame (stream_id offset : Z) (src : list Z) (has_len fin : bool) (n : Z)
    : StreamFrame.t :=
  StreamFrame.mk (make_STREAM (negb (offset =? 0)) has_len (fin && (size src =? n)))
    (varint.of_uint stream_id) (varint.of_uint offset) (varint.of_uint n) (take (Z.to_nat n) src).

Lemma stream_prefix_facts stream_id offset src has_len fin n :
  0 <= stream_id < 2 ^ 62 -> 0 <= offset < 2 ^ 62 -> size src < 2 ^ 62 -> 0 <= n <= size src ->
  let f := stream_prefix_frame stream_id offset src has_len fin n in
  wf f /\ tail f = negb has_len /\
  flen f false = calc_stream_overhead stream_id offset (negb (offset =? 0)) +
                 (if has_len then varint.min_len n else 0) + n /\
  FrameFlags.STREAM_fin (StreamFrame.type f) = fin && (n =? size src).
Proof.
  intros H1 H2 H3 H4. cbv zeta. unfold stream_prefix_frame. rewrite (Z.eqb_sym (size src) n).
  set (b := negb (offset =? 0)). set (e := fin && (n =? size src)).
  destruct (make_STREAM_bits b has_len e) as (Ht & Hd & Ho & Hl & Hf & _).
  assert (Hg : StreamFrame.get_type (StreamFrame.mk (make_STREAM b has_len e) (varint.of_uint stream_id)
     (varint.of_uint offset) (varint.of_uint n) (take (Z.to_nat n) src)) false = make_STREAM b has_len e).
  { unfold StreamFrame.get_type. cbn [StreamFrame.type]. by rewrite Ht, Hd. }
  split_and!; cbn [wf tail Stream_laws]; rewrite ?Hg; auto using writable_uint.
  - cbn [StreamFrame.streamID StreamFrame.offset StreamFrame.stream_data]. rewrite size_take_to by done.
    split_and!; [by apply writable_uint | by apply writable_uint | lia].
  - by rewrite Hl.
  - cbv [flen Stream_frame StreamFrame.len]. rewrite Hg, Ho, Hl. cbn [StreamFrame.streamID StreamFrame.offset StreamFrame.stream_data].
    rewrite size_take_to by done. unfold calc_stream_overhead. rewrite plain_minlen, !len_uint by done.
    destruct has_len; cbn [negb]; lia.
Qed.

(** What [make_fit_size_Stream] returns, in terms of the two calculators. *)
Lemma make_fit_cases to_fit stream_id offset src fin allow_zero f :
  0 <= stream_id < 2 ^ 62 -> 0 <= offset < 2 ^ 62 -> size src < 2 ^ 62 -> 0 <= to_fit < 2 ^ 62 ->
  make_fit_size_Stream to_fit stream_id offset src fin allow_zero = (f, true) ->
  exists has_len n, 0 <= n <= size src /\ f = stream_prefix_frame stream_id offset src has_len fin n /\
    flen f false <= to_fit /\ (has_len = false -> flen f false = to_fit) /\
    (has_len = true -> allow_zero = false -> 0 < n).
Proof.
  intros H1 H2 H3 H4. pose proof (size_nonneg src). unfold make_fit_size_Stream.
  set (range := stream_size_range _ _ _ _).
  assert (Hr : calc.range_ok range) by (split; simpl; [by apply overhead_bounds | lia]).
  destruct (calc.shrink_to_fit_no_len to_fit range) as [[ok n] valid] eqn:En.
  apply calc.no_len_spec in En as (Hv & Hn & _); [| done | done]. simpl in Hv, Hn.
  destruct valid.
  - intros [= <-]. destruct Hn as [_ Hn]; [done |]. apply proj1 in Hv. specialize (Hv eq_refl).
    exists false, n. rewrite rsubstr_prefix by lia.
    fold (stream_prefix_frame stream_id offset src false fin n).
    destruct (stream_prefix_facts stream_id offset src false fin n) as (_ & _ & -> & _); try lia.
    split_and!; auto; try lia; done.
  - destruct (ok =? 0); [discriminate |].
    destruct (calc.shrink_to_fit_with_len to_fit range) as [[fl k] use_len] eqn:Ek.
    apply calc.with_len_spec in Ek as (Hk & _); [| done | done]. destruct use_len; [| discriminate].
    destruct Hk as (Hk1 & Hk2 & Hk3 & Hk4); [done |]. simpl in Hk1, Hk2, Hk3, Hk4. intros [= <-].
    exists true, k. rewrite rsubstr_prefix by lia.
    fold (stream_prefix_frame stream_id offset src true fin k).
    destruct (stream_prefix_facts stream_id offset src true fin k) as (_ & _ & -> & _); try lia.
    unfold calc.frame_len in Hk2. split_and!; auto; try lia; done.
Qed.

Lemma datagram_len_plain v src :
  DatagramFrame.len (DatagramFrame.mk FrameType.DATAGRAM v src) false = 1 + size src.
Proof. unfold DatagramFrame.len. rewrite plain_minlen by done. simpl. lia. Qed.

Lemma datagram_len_with v src :
  DatagramFrame.len (DatagramFrame.mk FrameType.DATAGRAM_LEN v src) false =
  1 + varint.min_len (size src) + size src.
Proof. unfold DatagramFrame.len. by rewrite plain_minlen. Qed.

(** * Properties *)

(** [make_fit_size_Stream]: a STREAM frame it returns is well formed,
    keeps the stream id and the offset, carries a prefix of the data, is at
    most [to_fit] bytes long (exactly [to_fit] when the length field is left
    out, so that it can close the packet), and has the FIN bit exactly when
    FIN was asked for and the prefix is all of the data. *)
Theorem make_fit_stream_sound to_fit stream_id offset src fin allow_zero f :
  0 <= stream_id < 2 ^ 62 -> 0 <= offset < 2 ^ 62 -> size src < 2 ^ 62 -> 0 <= to_fit < 2 ^ 62 ->
  make_fit_size_Stream to_fit stream_id offset src fin allow_zero = (f, true) ->
  wf f /\ flen f false <= to_fit /\ (tail f = true -> flen f false = to_fit) /\
  StreamFrame.streamID f = varint.of_uint stream_id /\
  StreamFrame.offset f = varint.of_uint offset /\
  exists n, 0 <= n <= size src /\ StreamFrame.stream_data f = take (Z.to_nat n) src /\
    FrameFlags.STREAM_fin (StreamFrame.type f) = fin && (n =? size src).
Proof.
  intros H1 H2 H3 H4 E.
  destruct (make_fit_cases _ _ _ _ _ _ _ H1 H2 H3 H4 E) as (has_len & n & Hn & -> & Hle & Htail & _).
  destruct (stream_prefix_facts stream_id offset src has_len fin n) as (Hwf & Ht & _ & Hfin); auto.
  split_and!; auto.
  - rewrite Ht. destruct has_len; [done | auto].
  - eauto.
Qed.

Lemma make_fit_stream_sound_witness :
  let f := StreamFrame.mk 0x0d (varint.of_uint 4) (varint.of_uint 9) (varint.of_uint 3) [1; 2; 3] in
  make_fit_size_Stream 6 4 9 [1; 2; 3] true false = (f, true) /\ wf f.
Proof.
  split; [reflexivity |].
  apply (make_fit_stream_sound 6 4 9 [1; 2; 3] true false); unfold size; simpl; (lia || reflexivity).
Defined.

(** [make_fit_size_Stream] gives up only when it has to: if it fails,
    the frame header alone is longer than [to_fit], or not even one byte of
    data (no byte, where an empty frame is allowed) fits with its length
    field. Conversely [allow_zero = false] does not keep it from returning an
    empty frame: a buffer of exactly the header's length gets one. *)
Theorem make_fit_stream_complete to_fit stream_id offset src fin allow_zero f :
  0 <= stream_id < 2 ^ 62 -> 0 <= offset < 2 ^ 62 -> size src < 2 ^ 30 -> 0 <= to_fit < 2 ^ 62 ->
  let hdr := calc_stream_overhead stream_id offset (negb (offset =? 0)) in
  (make_fit_size_Stream to_fit stream_id offset src fin allow_zero = (f, false) ->
   to_fit < hdr \/
   forall m, (if allow_zero then 0 <= m else 0 < m) -> m <= size src ->
     to_fit < hdr + varint.min_len m + m) /\
  (to_fit = hdr -> exists g,
     make_fit_size_Stream to_fit stream_id offset src fin allow_zero = (g, true) /\
     StreamFrame.stream_data g = []).
Proof.
  intros H1 H2 H3 H4. cbv zeta. pose proof (size_nonneg src). unfold make_fit_size_Stream.
  set (range := stream_size_range _ _ _ _).
  assert (Hr : calc.range_ok range) by (split; simpl; [by apply overhead_bounds | lia]).
  destruct (calc.shrink_to_fit_no_len to_fit range) as [[ok n] valid] eqn:En.
  apply calc.no_len_spec in En as (Hv & Hn & Hz); [| done | done]. simpl in Hv, Hn, Hz.
  split.
  - destruct valid; [discriminate |]. destruct (Z.eqb_spec ok 0); [intros _; left; by apply Hz |].
    destruct (calc.shrink_to_fit_with_len to_fit range) as [[fl k] use_len] eqn:Ek.
    apply calc.with_len_spec in Ek as (_ & Hk); [| done | done]. destruct use_len; [discriminate |].
    intros _. right. intros m Hm Hms. by apply Hk; [right | | |].
  - intros Heq. assert (valid = true) as -> by (apply Hv; lia).
    destruct Hn as [_ ->]; [done |]. eexists. split; [done |]. cbn [StreamFrame.stream_data].
    rewrite Heq, Z.sub_diag. rewrite rsubstr_prefix by lia. done.
Qed.

Lemma make_fit_stream_complete_witness :
  make_fit_size_Stream 2 4 0 [1; 2; 3] false false =
    (StreamFrame.mk 0x08 (varint.of_uint 4) (varint.of_uint 0) (varint.of_uint 0) [], true) /\
  (exists g, make_fit_size_Stream 2 4 0 [1; 2; 3] false false = (g, true) /\
     StreamFrame.stream_data g = []).
Proof.
  split; [reflexivity |].
  apply (make_fit_stream_complete 2 4 0 [1; 2; 3] false false StreamFrame.zero);
    unfold size; simpl; (lia || reflexivity).
Defined.

(** [make_fit_size_Crypto] and [make_fit_size_Datagram]: a CRYPTO frame
    carries a non-empty prefix of the data at its offset and fits [to_fit];
    a DATAGRAM frame carries all of the data, fits, and leaves its length
    field out only when it then ends exactly at [to_fit]; the datagram is
    refused only if it fits in neither form. *)
Theorem make_fit_crypto_datagram to_fit offset src :
  0 <= offset < 2 ^ 62 -> size src < 2 ^ 62 -> 0 <= to_fit < 2 ^ 62 ->
  (forall f, make_fit_size_Crypto to_fit offset src = (f, true) ->
     wf f /\ flen f false <= to_fit /\ CryptoFrame.offset f = varint.of_uint offset /\
     exists n, 0 < n <= size src /\ CryptoFrame.crypto_data f = take (Z.to_nat n) src) /\
  (forall f, make_fit_size_Datagram to_fit src = (f, true) ->
     wf f /\ flen f false <= to_fit /\ DatagramFrame.datagram_data f = src /\
     (tail f = true -> flen f false = to_fit)) /\
  (forall f, make_fit_size_Datagram to_fit src = (f, false) ->
     to_fit <> 1 + size src /\ to_fit < 1 + varint.min_len (size src) + size src).
Proof.
  intros H1 H2 H3. pose proof (size_nonneg src). split_and!; intros f.
  - unfold make_fit_size_Crypto. set (range := calc.mk_range _ _ _).
    assert (Hr : calc.range_ok range).
    { split; simpl; [| lia]. rewrite len_uint. pose proof (calc.min_len_pos offset).
      pose proof (calc.min_len_bound offset). lia. }
    destruct (calc.shrink_to_fit_with_len to_fit range) as [[fl k] use_len] eqn:Ek.
    apply calc.with_len_spec in Ek as (Hk & _); [| done | done]. destruct use_len; [| discriminate].
    destruct Hk as (Hk1 & Hk2 & Hk3 & Hk4); [done |]. cbn [calc.max_length calc.fixed_length calc.min_zero range] in *.
    specialize (Hk4 eq_refl). unfold calc.frame_len in Hk2. intros [= <-]. rewrite rsubstr_prefix by lia.
    cbn [wf Crypto_laws flen Crypto_frame]. unfold CryptoFrame.len. cbn [CryptoFrame.offset CryptoFrame.crypto_data].
    rewrite size_take_to, plain_minlen by (lia || done). rewrite !len_uint in *.
    split_and!; try lia; auto using writable_uint. exists k. split; [lia | done].
  - unfold make_fit_size_Datagram. rewrite datagram_len_plain, datagram_len_with.
    repeat zcase_one; intros [= <-]; cbn [flen Datagram_frame];
      rewrite ?datagram_len_plain, ?datagram_len_with; split_and!; (done || lia).
  - unfold make_fit_size_Datagram. rewrite datagram_len_plain, datagram_len_with.
    repeat zcase_one; intros [= <-]; lia.
Qed.

Lemma make_fit_crypto_datagram_witness :
  (let f := CryptoFrame.mk 0 (varint.of_uint 100) (varint.of_uint 2) [7; 8] in
   make_fit_size_Crypto 6 100 [7; 8; 9] = (f, true) /\ wf f) /\
  (let f := DatagramFrame.mk 0x30 (varint.of_uint 0) [7; 8; 9] in
   make_fit_size_Datagram 4 [7; 8; 9] = (f, true) /\ wf f).
Proof.
  split; (split; [reflexivity |]).
  - apply (make_fit_crypto_datagram 6 100 [7; 8; 9]); unfold size; simpl; (lia || reflexivity).
  - apply (make_fit_crypto_datagram 4 100 [7; 8; 9]); unfold size; simpl; (lia || reflexivity).
Defined.
