(* ===== verification/FrameAck.v ===== *)
(** * The ACK frame (src/src/include/fnet/quic/frame/ack.h)

    The wire form (gaps and lengths), the list of ranges the rest of the
    stack works with, and the conversions between them. *)

From stdpp Require Import base list.
From Stdlib Require Import ZArith Lia.
From S2P Require Import Prelude Bytes Varint Types FrameBase.

Record WireACKRange := mk_wire_range { gap : varint.Value; wlen : varint.Value }.

Record ACKRange := mk_range { largest : Z; smallest : Z }.

#[global] Instance ACKRange_eq_dec : EqDecision ACKRange.
Proof. solve_decision. Defined.

Record ECNCounts := mk_ecn { ect0 : varint.Value; ect1 : varint.Value; ecn_ce : varint.Value }.

Module ACKFrame.
Record t := mk {
  type : Z;
  largest_ack : varint.Value;
  ack_delay : varint.Value;
  ack_range_count : varint.Value;
  first_ack_range : varint.Value;
  ack_ranges : list WireACKRange;
  ecn_counts : ECNCounts;
}.

Definition set_type v f :=
  mk v (largest_ack f) (ack_delay f) (ack_range_count f) (first_ack_range f) (ack_ranges f) (ecn_counts f).
Definition set_ranges l f :=
  mk (type f) (largest_ack f) (ack_delay f) (ack_range_count f) (first_ack_range f) l (ecn_counts f).
Definition set_ecn e f :=
  mk (type f) (largest_ack f) (ack_delay f) (ack_range_count f) (first_ack_range f) (ack_ranges f) e.

Definition has_ecn (f : t) : bool := FrameFlags.type_detail (type f) =? FrameType.ACK_ECN.

Definition get_type (f : t) (on_cast : bool) : Z :=
  if on_cast then FrameType.ACK
  else if has_ecn f then FrameType.ACK_ECN else FrameType.ACK.

(** One [WireACKRange] is read into a local before it is pushed. *)
Definition read_range (r : reader) : bool * WireACKRange * reader :=
  let '(g, ok, r1) := varint.read r in
  if negb ok then (false, mk_wire_range g (varint.of_uint 0), r1)
  else
    let '(l, ok, r2) := varint.read r1 in (ok, mk_wire_range g l, r2).

(** The loop [for (i = 0; i < ack_range_count; i++)]. The count is the
    peer's and may be close to 2^62; every round consumes at least two
    bytes or fails, so as many rounds as there are bytes are enough. *)
Fixpoint parse_ranges_loop (fuel : nat) (i : Z) (s : t * reader) : bool * (t * reader) :=
  let '(f, r) := s in
  if i <? varint.value (ack_range_count f) then
    match fuel with
    | O => (false, (f, r))
    | S fuel' =>
        let '(ok, range, r') := read_range r in
        if negb ok then (false, (f, r'))
        else parse_ranges_loop fuel' (i + 1) (set_ranges (ack_ranges f ++ [range]) f, r')
    end
  else (true, (f, r)).

Definition parse_ack_ranges (s : t * reader) : bool * (t * reader) :=
  let '(f, r) := s in
  parse_ranges_loop (S (length (rd_remain r))) 0 (set_ranges [] f, r).

Definition parse_ecn_counts : t * reader -> bool * (t * reader) :=
  ifM (fun f => negb (has_ecn f)) (retM true)
    (varint.read_to (fun v f => set_ecn (mk_ecn (ect0 (ecn_counts f)) (ect1 (ecn_counts f)) v) f) ;&
     varint.read_to (fun v f => set_ecn (mk_ecn v (ect1 (ecn_counts f)) (ecn_ce (ecn_counts f))) f) ;&
     varint.read_to (fun v f => set_ecn (mk_ecn (ect0 (ecn_counts f)) v (ecn_ce (ecn_counts f))) f)).

Definition parse : t * reader -> bool * (t * reader) :=
  parse_check set_type type FrameType.ACK ;&
  varint.read_to (fun v f => mk (type f) v (ack_delay f) (ack_range_count f) (first_ack_range f) (ack_ranges f) (ecn_counts f)) ;&
  varint.read_to (fun v f => mk (type f) (largest_ack f) v (ack_range_count f) (first_ack_range f) (ack_ranges f) (ecn_counts f)) ;&
  varint.read_to (fun v f => mk (type f) (largest_ack f) (ack_delay f) v (first_ack_range f) (ack_ranges f) (ecn_counts f)) ;&
  varint.read_to (fun v f => mk (type f) (largest_ack f) (ack_delay f) (ack_range_count f) v (ack_ranges f) (ecn_counts f)) ;&
  parse_ack_ranges ;& parse_ecn_counts.

Definition ack_ranges_len (f : t) : Z :=
  fold_left (fun len r => len + varint.len (gap r) + varint.len (wlen r)) (ack_ranges f) 0.

Definition ecn_counts_len (f : t) : Z :=
  if negb (has_ecn f) then 0
  else varint.len (ecn_ce (ecn_counts f)) + varint.len (ect0 (ecn_counts f)) +
       varint.len (ect1 (ecn_counts f)).

Definition len (f : t) (_ : bool) : Z :=
  type_minlen FrameType.ACK + varint.len (largest_ack f) + varint.len (ack_delay f) +
  varint.len (ack_range_count f) + varint.len (first_ack_range f) + ack_ranges_len f +
  ecn_counts_len f.

Fixpoint render_ranges (l : list WireACKRange) (w : writer) : bool * writer :=
  match l with
  | [] => (true, w)
  | r :: l' =>
      let '(ok, w1) := varint.write (gap r) w in
      if negb ok then (false, w1)
      else
        let '(ok, w2) := varint.write (wlen r) w1 in
        if negb ok then (false, w2) else render_ranges l' w2
  end.

Definition render_ack_range (f : t) (w : writer) : bool * writer :=
  if negb (size (ack_ranges f) =? varint.value (ack_range_count f)) then (false, w)
  else render_ranges (ack_ranges f) w.

Definition render_ecn_counts (f : t) : writer -> bool * writer :=
  if negb (has_ecn f) then retM true
  else varint.write (ecn_ce (ecn_counts f)) ;& varint.write (ect0 (ecn_counts f)) ;&
       varint.write (ect1 (ecn_counts f)).

Definition render (f : t) : writer -> bool * writer :=
  type_minwrite (get_type f false) ;& varint.write (largest_ack f) ;&
  varint.write (ack_delay f) ;& varint.write (ack_range_count f) ;&
  varint.write (first_ack_range f) ;& render_ack_range f ;& render_ecn_counts f.

Definition zero_ecn : ECNCounts := mk_ecn (varint.of_uint 0) (varint.of_uint 0) (varint.of_uint 0).
Definition zero : t :=
  mk 0 (varint.of_uint 0) (varint.of_uint 0) (varint.of_uint 0) (varint.of_uint 0) [] zero_ecn.
End ACKFrame.

(** [is_sorted_ack_ranges]: the loop after the first element. *)
Fixpoint sorted_after (prev : ACKRange) (l : list ACKRange) : bool :=
  match l with
  | [] => true
  | r :: l' =>
      if largest r <? smallest r then false
      else if (smallest prev <=? smallest r) || (largest prev <=? largest r) then false
      else sorted_after r l'
  end.

Definition is_sorted_ack_ranges (l : list ACKRange) : bool :=
  match l with
  | [] => false
  | r :: l' => if largest r <? smallest r then false else sorted_after r l'
  end.

(** [convert_to_ACKFrame]: the gaps after the first range. *)
Fixpoint wire_ranges (prev : ACKRange) (l : list ACKRange) : list WireACKRange :=
  match l with
  | [] => []
  | r :: l' =>
      mk_wire_range (varint.of_uint (u64 (smallest prev - largest r - 2)))
                    (varint.of_uint (u64 (largest r - smallest r)))
      :: wire_ranges r l'
  end.

Definition convert_to_ACKFrame (ranges : list ACKRange) : ACKFrame.t * bool :=
  if negb (is_sorted_ack_ranges ranges) then (ACKFrame.zero, false)
  else
    match ranges with
    | [] => (ACKFrame.zero, false)
    | r :: l =>
        (ACKFrame.mk FrameType.ACK (varint.of_uint (largest r)) (varint.of_uint 0)
           (varint.of_uint (u64 (size ranges - 1)))
           (varint.of_uint (u64 (largest r - smallest r)))
           (wire_ranges r l) ACKFrame.zero_ecn, true)
    end.

Fixpoint unwire_ranges (prev : ACKRange) (l : list WireACKRange) : list ACKRange :=
  match l with
  | [] => []
  | w :: l' =>
      let lg := u64 (smallest prev - varint.value (gap w) - 2) in
      let r := mk_range lg (u64 (lg - varint.value (wlen w))) in
      r :: unwire_ranges r l'
  end.

Definition convert_from_ACKFrame (f : ACKFrame.t) : list ACKRange * bool :=
  let prev := mk_range (varint.value (ACKFrame.largest_ack f))
    (u64 (varint.value (ACKFrame.largest_ack f) - varint.value (ACKFrame.first_ack_range f))) in
  let ranges := prev :: unwire_ranges prev (ACKFrame.ack_ranges f) in
  (ranges, is_sorted_ack_ranges ranges).

(** [1 << exponent] on [int]: undefined from 32 on. *)
Definition shl_int (exponent : Z) : option Z :=
  if (0 <=? exponent) && (exponent <? 32) then Some (s32 (2 ^ exponent)) else None.

Definition encode_ack_delay (base exponent : Z) : option Z :=
  p ← shl_int exponent; Some (base / u64 p).

Definition decode_ack_delay (base exponent : Z) : option Z :=
  p ← shl_int exponent; Some (u64 (base * u64 p)).

#[global] Instance ACK_frame : Frame ACKFrame.t := {
  f_default := ACKFrame.zero; f_type := ACKFrame.type; get_type := ACKFrame.get_type;
  parse := ACKFrame.parse; flen := ACKFrame.len; render := ACKFrame.render }.

(** * Lemmas *)

(** ** The range loop *)

Definition range_enc (r : WireACKRange) : list Z := varint.enc (gap r) ++ varint.enc (wlen r).
Definition ranges_enc (l : list WireACKRange) : list Z := concat (map range_enc l).
Definition range_norm (r : WireACKRange) : WireACKRange :=
  mk_wire_range (varint.norm (gap r)) (varint.norm (wlen r)).
Definition range_writable (r : WireACKRange) : Prop :=
  varint.writable (gap r) /\ varint.writable (wlen r).

Lemma emits_ranges l : Forall range_writable l -> emits (ACKFrame.render_ranges l) (ranges_enc l).
Proof.
  induction 1 as [| r l [H1 H2] Hl IH]; [apply emits_ret_true |].
  change (ranges_enc (r :: l)) with (range_enc r ++ ranges_enc l).
  unfold range_enc. rewrite <- app_assoc.
  pose proof (emits_andM _ _ _ _ (varint.emits_varint _ H1)
                (emits_andM _ _ _ _ (varint.emits_varint _ H2) IH)) as H.
  intros w Hw. specialize (H w Hw). cbn [ACKFrame.render_ranges]. unfold andM in H.
  destruct (varint.write (gap r) w) as [[] w1]; cbn [negb]; [| done].
  by destruct (varint.write (wlen r) w1) as [[] w2].
Qed.

Lemma read_range_enc r rest rd :
  range_writable r -> rd_ok rd -> rd_remain rd = range_enc r ++ rest ->
  ACKFrame.read_range rd = (true, range_norm r, rd_advance rd (length (range_enc r))).
Proof.
  intros [H1 H2] Hrd Hrem. unfold range_enc in Hrem. rewrite <- app_assoc in Hrem.
  unfold ACKFrame.read_range. rewrite (varint.read_enc (gap r) rd _ H1 Hrd Hrem). cbn [negb].
  rewrite (varint.read_enc (wlen r) _ rest); auto.
  - unfold range_enc. by rewrite length_app, rd_advance_advance.
  - apply rd_advance_ok; [done | rewrite Hrem, length_app; lia].
  - by apply rd_advance_remain.
Qed.

Lemma enc_nonempty v : varint.writable v -> (1 <= length (varint.enc v))%nat.
Proof.
  intros H. pose proof (varint.enc_size v H) as Hs. destruct (varint.writable_len v H) as [Hl _].
  unfold size in Hs. destruct Hl as [E | [E | [E | E]]]; rewrite E in Hs; lia.
Qed.

Lemma ranges_enc_length l : Forall range_writable l -> (length l <= length (ranges_enc l))%nat.
Proof.
  induction 1 as [| r l [H1 _] Hl IH]; [done |].
  change (ranges_enc (r :: l)) with (range_enc r ++ ranges_enc l).
  unfold range_enc. rewrite !length_app. pose proof (enc_nonempty _ H1). simpl. lia.
Qed.

Lemma parse_loop_reads l rest : forall fuel i f rd,
  Forall range_writable l -> (length l <= fuel)%nat ->
  varint.value (ACKFrame.ack_range_count f) = i + size l ->
  rd_ok rd -> rd_remain rd = ranges_enc l ++ rest ->
  ACKFrame.parse_ranges_loop fuel i (f, rd) =
    (true, (ACKFrame.set_ranges (ACKFrame.ack_ranges f ++ map range_norm l) f,
            rd_advance rd (length (ranges_enc l)))).
Proof.
  induction l as [| r l IH]; intros fuel i f rd Hw Hf Hc Hrd Hrem.
  - rewrite size_nil in Hc. destruct fuel; simpl; rewrite ltb_false by lia;
      rewrite app_nil_r; unfold rd_advance; rewrite Nat.add_0_r; by destruct f, rd.
  - inversion Hw as [| ? ? Hr Hl]; subst. rewrite size_cons in Hc.
    destruct fuel as [| fuel]; [simpl in Hf; lia |]. cbn [ACKFrame.parse_ranges_loop].
    pose proof (size_nonneg l). rewrite ltb_true by lia.
    change (ranges_enc (r :: l)) with (range_enc r ++ ranges_enc l) in *. rewrite <- app_assoc in Hrem.
    rewrite (read_range_enc r _ rd Hr Hrd Hrem). cbn [negb].
    rewrite IH; auto.
    + cbn [ACKFrame.ack_ranges ACKFrame.set_ranges map]. rewrite <- app_assoc, length_app, rd_advance_advance. done.
    + simpl in Hf. lia.
    + simpl. lia.
    + apply rd_advance_ok; [done | rewrite Hrem, length_app; lia].
    + by apply rd_advance_remain.
Qed.

(** A round that succeeds consumes a byte at least: the fuel
    [parse_ack_ranges] gives is never used up. *)
Lemma read_range_progress rd ok range rd' :
  rd_ok rd -> ACKFrame.read_range rd = (ok, range, rd') ->
  rd_buf rd' = rd_buf rd /\ (rd_index rd <= rd_index rd')%nat /\ rd_ok rd' /\
  (ok = true -> (length (rd_remain rd') < length (rd_remain rd))%nat).
Proof.
  intros Hrd. unfold ACKFrame.read_range.
  destruct (varint.read rd) as [[g okg] r1] eqn:E1.
  pose proof E1 as E1'. apply varint.read_advances in E1' as (Hb1 & Hi1 & Hok1); [| done].
  destruct okg; cbn [negb]; [| intros [= <- <- <-]; split_and!; done].
  destruct (varint.read r1) as [[l okl] r2] eqn:E2.
  pose proof E2 as E2'. apply varint.read_advances in E2' as (Hb2 & Hi2 & Hok2); [| done].
  intros [= <- <- <-]. split_and!; [congruence | lia | done |]. intros _.
  assert (rd_index rd < rd_index r1)%nat.
  { apply varint.read_progress in E1; done. }
  rewrite !rd_remain_length by done. destruct Hok2. rewrite Hb2, Hb1 in *. lia.
Qed.

Lemma parse_loop_fuel fuel : forall i f rd,
  rd_ok rd -> (length (rd_remain rd) < fuel)%nat ->
  ACKFrame.parse_ranges_loop fuel i (f, rd) = ACKFrame.parse_ranges_loop (S fuel) i (f, rd).
Proof.
  induction fuel as [| fuel IH]; intros i f rd Hrd Hlt; [lia |].
  cbn [ACKFrame.parse_ranges_loop]. destruct (i <? _); [| done].
  destruct (ACKFrame.read_range rd) as [[ok range] rd'] eqn:E.
  apply read_range_progress in E as (_ & _ & Hok & Hp); [| done].
  destruct ok; cbn [negb]; [| done]. apply IH; [done |]. specialize (Hp eq_refl). lia.
Qed.

Lemma parse_loop_advances fuel : forall i f rd b f' rd',
  rd_ok rd -> ACKFrame.parse_ranges_loop fuel i (f, rd) = (b, (f', rd')) ->
  rd_buf rd' = rd_buf rd /\ (rd_index rd <= rd_index rd')%nat /\ rd_ok rd'.
Proof.
  induction fuel as [| fuel IH]; intros i f rd b f' rd' Hrd; cbn [ACKFrame.parse_ranges_loop];
    (destruct (i <? _); [| intros [= <- <- <-]; done]).
  - intros [= <- <- <-]. done.
  - destruct (ACKFrame.read_range rd) as [[ok range] rd1] eqn:E.
    apply read_range_progress in E as (Hb & Hi & Hok & _); [| done].
    destruct ok; cbn [negb]; [| intros [= <- <- <-]; done].
    intros E2. destruct (IH _ _ _ _ _ _ Hok E2) as (Hb2 & Hi2 & Hok2).
    split_and!; [congruence | lia | done].
Qed.

Lemma advances_ranges : advances ACKFrame.parse_ack_ranges.
Proof. intros f r b f' r' Hr E. by eapply parse_loop_advances. Qed.

(** ** The laws of ACK *)

Lemma ranges_enc_size l : Forall range_writable l ->
  forall k, fold_left (fun n r => n + varint.len (gap r) + varint.len (wlen r)) l k = k + size (ranges_enc l).
Proof.
  induction 1 as [| r l [H1 H2] Hl IH]; intros k; [unfold size; simpl; lia |].
  change (ranges_enc (r :: l)) with (range_enc r ++ ranges_enc l). unfold range_enc.
  cbn [fold_left]. rewrite IH, !size_app, !varint.enc_size by done. lia.
Qed.

Lemma has_ecn_get_type f a b c d e g :
  ACKFrame.has_ecn (ACKFrame.mk (ACKFrame.get_type f false) a b c d e g) = ACKFrame.has_ecn f.
Proof.
  unfold ACKFrame.get_type. unfold ACKFrame.has_ecn at 1. cbn [ACKFrame.type].
  by destruct (ACKFrame.has_ecn f).
Qed.

Lemma reads_ranges f l rest f' :
  Forall range_writable l -> varint.value (ACKFrame.ack_range_count f) = size l ->
  ACKFrame.set_ranges (map range_norm l) f = f' ->
  reads_at ACKFrame.parse_ack_ranges f (ranges_enc l) rest f'.
Proof.
  intros Hl Hc <- r Hr Hrem. unfold ACKFrame.parse_ack_ranges.
  rewrite (parse_loop_reads l rest); auto.
  rewrite Hrem, length_app. pose proof (ranges_enc_length l Hl). lia.
Qed.

Lemma ecn_reads f e rest f' :
  ACKFrame.has_ecn f = true ->
  varint.writable (ecn_ce e) -> varint.writable (ect0 e) -> varint.writable (ect1 e) ->
  ACKFrame.set_ecn (mk_ecn (varint.norm (ect0 e)) (varint.norm (ect1 e)) (varint.norm (ecn_ce e))) f = f' ->
  reads_at ACKFrame.parse_ecn_counts f
    (varint.enc (ecn_ce e) ++ varint.enc (ect0 e) ++ varint.enc (ect1 e)) rest f'.
Proof.
  intros Hf H1 H2 H3 <-. apply reads_if. rewrite Hf. cbn [negb].
  eapply reads_andM; [by eapply varint.reads_varint |].
  eapply reads_andM; [by eapply varint.reads_varint |].
  by eapply varint.reads_varint.
Qed.

Definition ecn_writable (e : ECNCounts) : Prop :=
  varint.writable (ecn_ce e) /\ varint.writable (ect0 e) /\ varint.writable (ect1 e).

#[global] Instance ACK_laws : FrameLaws ACKFrame.t.
Proof.
  refine {| wf := fun f => varint.writable (ACKFrame.largest_ack f) /\
              varint.writable (ACKFrame.ack_delay f) /\ varint.writable (ACKFrame.ack_range_count f) /\
              varint.writable (ACKFrame.first_ack_range f) /\
              Forall range_writable (ACKFrame.ack_ranges f) /\
              varint.value (ACKFrame.ack_range_count f) = size (ACKFrame.ack_ranges f) /\
              (ACKFrame.has_ecn f = true -> ecn_writable (ACKFrame.ecn_counts f));
            wire := fun f => varint.enc (varint.of_uint (ACKFrame.get_type f false)) ++
              varint.enc (ACKFrame.largest_ack f) ++ varint.enc (ACKFrame.ack_delay f) ++
              varint.enc (ACKFrame.ack_range_count f) ++ varint.enc (ACKFrame.first_ack_range f) ++
              ranges_enc (ACKFrame.ack_ranges f) ++
              (if ACKFrame.has_ecn f
               then varint.enc (ecn_ce (ACKFrame.ecn_counts f)) ++ varint.enc (ect0 (ACKFrame.ecn_counts f)) ++
                    varint.enc (ect1 (ACKFrame.ecn_counts f)) else []);
            canon := fun f => ACKFrame.mk (ACKFrame.get_type f false)
              (varint.norm (ACKFrame.largest_ack f)) (varint.norm (ACKFrame.ack_delay f))
              (varint.norm (ACKFrame.ack_range_count f)) (varint.norm (ACKFrame.first_ack_range f))
              (map range_norm (ACKFrame.ack_ranges f))
              (if ACKFrame.has_ecn f
               then mk_ecn (varint.norm (ect0 (ACKFrame.ecn_counts f)))
                      (varint.norm (ect1 (ACKFrame.ecn_counts f)))
                      (varint.norm (ecn_ce (ACKFrame.ecn_counts f))) else ACKFrame.zero_ecn);
            tail := fun _ => false |}.
  - intros f (H1 & H2 & H3 & H4 & H5 & H6 & H7).
    cbv [flen ACK_frame ACKFrame.len ACKFrame.ack_ranges_len ACKFrame.ecn_counts_len ACKFrame.get_type].
    rewrite ranges_enc_size by done. destruct (ACKFrame.has_ecn f).
    + destruct H7 as (E1 & E2 & E3); [done |]. cbn [negb]. wire_sizes. lia.
    + cbn [negb]. wire_sizes. lia.
  - intros f (H1 & H2 & H3 & H4 & H5 & H6 & H7).
    cbv [render ACK_frame ACKFrame.render ACKFrame.render_ecn_counts ACKFrame.get_type].
    assert (Hr : emits (ACKFrame.render_ack_range f) (ranges_enc (ACKFrame.ack_ranges f))).
    { intros w. unfold ACKFrame.render_ack_range. rewrite H6, Z.eqb_refl. by apply emits_ranges. }
    destruct (ACKFrame.has_ecn f).
    + destruct H7 as (E1 & E2 & E3); [done |]. cbn [negb]. emits_chain; done.
    + cbn [negb]. emits_chain; done.
  - intros f rest (H1 & H2 & H3 & H4 & H5 & H6 & H7) _. cbv [parse f_default ACK_frame ACKFrame.parse].
    eapply reads_andM; [apply reads_check; [| done |];
      unfold ACKFrame.get_type; by destruct (ACKFrame.has_ecn f) |].
    do 4 (eapply reads_andM; [by eapply varint.reads_varint |]).
    eapply reads_andM; [by eapply reads_ranges |].
    destruct (ACKFrame.has_ecn f) eqn:E.
    + destruct H7 as (E1 & E2 & E3); [done |]. apply ecn_reads; auto.
      transitivity (ACKFrame.has_ecn f); [apply has_ecn_get_type | done].
    + apply reads_if. match goal with |- reads_at (if negb ?c then _ else _) _ _ _ _ =>
        replace c with false by (symmetry; transitivity (ACKFrame.has_ecn f); [apply has_ecn_get_type | done]) end.
      apply reads_ret.
  - unfold ACKFrame.parse_ecn_counts. cbv [parse ACK_frame ACKFrame.parse ACKFrame.parse_ecn_counts].
    advances_chain. apply advances_ranges.
  - done.
  - eauto.
Defined.

(** ** Specification of the ranges a frame describes, on unbounded integers *)

Fixpoint exact_ranges (low : Z) (l : list WireACKRange) : list ACKRange :=
  match l with
  | [] => []
  | w :: l' =>
      let lg := low - varint.value (gap w) - 2 in
      let sm := lg - varint.value (wlen w) in
      mk_range lg sm :: exact_ranges sm l'
  end.

Definition exact_ack_ranges (f : ACKFrame.t) : list ACKRange :=
  let lg := varint.value (ACKFrame.largest_ack f) in
  let sm := lg - varint.value (ACKFrame.first_ack_range f) in
  mk_range lg sm :: exact_ranges sm (ACKFrame.ack_ranges f).

Definition is_wire (v : varint.Value) : Prop := 0 <= varint.value v < 2 ^ 62.
Definition is_wire_range (r : WireACKRange) : Prop := is_wire (gap r) /\ is_wire (wlen r).

(** Ranges that can be told apart on the wire: at least one missing number
    between two of them. *)
Fixpoint separated_after (low : Z) (l : list ACKRange) : Prop :=
  match l with
  | [] => True
  | r :: l' => 0 <= smallest r <= largest r /\ largest r + 2 <= low /\ separated_after (smallest r) l'
  end.

Definition separated (l : list ACKRange) : Prop :=
  match l with
  | [] => False
  | r :: l' => 0 <= smallest r <= largest r /\ largest r < 2 ^ 62 /\ separated_after (smallest r) l'
  end.

(** A subtraction that would be negative wraps above every packet number. *)
Lemma u64_neg z : - 2 ^ 63 <= z < 0 -> 2 ^ 63 <= u64 z < 2 ^ 64.
Proof.
  intros H. unfold u64. rewrite <- (Z.mod_add _ 1) by lia. rewrite Z.mod_small by lia. lia.
Qed.

Lemma unwire_exact l : forall prev,
  0 <= smallest prev <= largest prev -> largest prev < 2 ^ 62 -> Forall is_wire_range l ->
  sorted_after prev (unwire_ranges prev l) =
    forallb (fun r => 0 <=? smallest r) (exact_ranges (smallest prev) l) /\
  (sorted_after prev (unwire_ranges prev l) = true ->
   unwire_ranges prev l = exact_ranges (smallest prev) l).
Proof.
  induction l as [| w l IH]; intros prev Hp Hlt Hw; [done |].
  inversion Hw as [| ? ? [Hg Hl] Hws]; subst. unfold is_wire in *.
  cbn [unwire_ranges exact_ranges sorted_after forallb].
  set (lg := smallest prev - varint.value (gap w) - 2). set (sm := lg - varint.value (wlen w)).
  cbn [largest smallest].
  destruct (Z.lt_ge_cases lg 0) as [Hneg | Hlg].
  - pose proof (u64_neg lg ltac:(lia)) as Hu. rewrite (leb_false 0 sm) by lia. cbn [andb].
    destruct (_ <? _); [done |].
    rewrite (leb_true (largest prev)) by lia. rewrite orb_true_r. done.
  - rewrite (u64_small lg) by (unfold is_u64; lia). fold sm.
    destruct (Z.lt_ge_cases sm 0) as [Hneg | Hsm].
    + pose proof (u64_neg sm ltac:(lia)) as Hu. rewrite (leb_false 0 sm) by lia.
      by rewrite (ltb_true lg) by lia.
    + rewrite (u64_small sm) by (unfold is_u64; lia).
      rewrite (leb_true 0 sm), (ltb_false lg sm), (leb_false (smallest prev) sm),
        (leb_false (largest prev) lg) by lia. cbn [orb andb].
      destruct (IH (mk_range lg sm)) as [E1 E2]; simpl; try lia; auto. simpl in E1, E2.
      split; [done |]. intros H. by rewrite E2.
Qed.

Lemma separated_sorted l : forall prev,
  smallest prev <= largest prev -> separated_after (smallest prev) l -> sorted_after prev l = true.
Proof.
  induction l as [| r l IH]; intros prev Hp; [done |]. simpl. intros (H1 & H2 & H3).
  rewrite ltb_false, !leb_false by lia. cbn [orb]. apply IH; [lia | done].
Qed.

Lemma wire_unwire l : forall prev,
  smallest prev < 2 ^ 62 -> separated_after (smallest prev) l ->
  Forall is_wire_range (wire_ranges prev l) /\
  unwire_ranges prev (map range_norm (wire_ranges prev l)) = l.
Proof.
  induction l as [| [lg sm] l IH]; intros prev Hp; [done |]. cbn [separated_after wire_ranges largest smallest].
  intros (H1 & H2 & H3).
  rewrite !u64_small by (unfold is_u64; lia).
  destruct (IH (mk_range lg sm)) as [E1 E2]; simpl; [lia | done |]. split.
  - constructor; [split; unfold is_wire; simpl; lia | done].
  - cbn [map unwire_ranges range_norm gap wlen varint.norm varint.value varint.of_uint].
    replace (smallest prev - (smallest prev - lg - 2) - 2) with lg by lia.
    rewrite (u64_small lg) by (unfold is_u64; lia).
    replace (lg - (lg - sm)) with sm by lia. rewrite (u64_small sm) by (unfold is_u64; lia).
    by rewrite E2.
Qed.

Lemma wire_range_writable l : Forall is_wire_range l ->
  Forall (fun r => varint.vlen (gap r) = 0 /\ varint.vlen (wlen r) = 0) l -> Forall range_writable l.
Proof.
  intros H1 H2. induction H1 as [| r l [Hg Hl] _ IH]; inversion H2 as [| ? ? [E1 E2] ?]; subst; constructor; auto.
  unfold is_wire in *. split; (split; [lia |]); rewrite ?E1, ?E2; simpl; unfold varint.border; simpl; lia.
Qed.

Lemma wire_ranges_vlen l : forall prev,
  Forall (fun r => varint.vlen (gap r) = 0 /\ varint.vlen (wlen r) = 0) (wire_ranges prev l).
Proof. induction l; intros prev; constructor; auto. Qed.

Lemma length_wire_ranges l : forall prev, length (wire_ranges prev l) = length l.
Proof. induction l; intros; simpl; auto. Qed.

(** A value that does not fit a variable-length integer stops the loop. *)
Lemma render_ranges_refuses l : forall w,
  Exists (fun r => 0 <= varint.value (gap r) /\ ~ varint.writable (gap r)) l ->
  fst (ACKFrame.render_ranges l w) = false.
Proof.
  induction l as [| r l IH]; intros w H; [by inversion H |].
  cbn [ACKFrame.render_ranges].
  destruct (varint.write (gap r) w) as [[] w1] eqn:E1; cbn [negb]; [| done].
  destruct (varint.write (wlen r) w1) as [[] w2]; cbn [negb]; [| done].
  inversion H as [? ? [H0 Hn] | ? ? Ht]; subst; [| by apply IH].
  by rewrite varint.write_refuses in E1.
Qed.

Lemma adjacent_unwritable l : forall prev,
  Forall (fun r => 0 <= smallest r <= largest r) (prev :: l) ->
  Exists (fun p => largest (snd p) + 1 = smallest (fst p)) (zip (prev :: l) l) ->
  Exists (fun r => 0 <= varint.value (gap r) /\ ~ varint.writable (gap r)) (wire_ranges prev l).
Proof.
  induction l as [| r l IH]; intros prev Hf Hex; [inversion Hex |].
  inversion Hf as [| ? ? Hp Hr]; subst. simpl in Hex. cbn [wire_ranges].
  inversion Hex as [? ? E | ? ? Ht]; subst; [left | right; by apply IH].
  simpl in *. replace (smallest prev - largest r - 2) with (-1) by lia.
  change (u64 (-1)) with (2 ^ 64 - 1). split; [lia |]. unfold varint.writable. simpl.
  unfold varint.border. simpl. lia.
Qed.

(** Ranges that are separated become a well-formed frame that stands for
    them. *)
Lemma convert_to_spec ranges :
  separated ranges -> size ranges < 2 ^ 62 ->
  exists f, convert_to_ACKFrame ranges = (f, true) /\ wf f /\ ACKFrame.type f = FrameType.ACK /\
    convert_from_ACKFrame (canon f) = (ranges, true).
Proof.
  destruct ranges as [| [lg sm] l]; [done |]. cbn [separated largest smallest]. intros (H1 & H2 & H3) Hs.
  rewrite size_cons in Hs. pose proof (size_nonneg l).
  assert (Hsorted : is_sorted_ack_ranges (mk_range lg sm :: l) = true).
  { cbn [is_sorted_ack_ranges largest smallest]. rewrite ltb_false by lia.
    apply separated_sorted; simpl; [lia | done]. }
  destruct (wire_unwire l (mk_range lg sm)) as [Hw Hu]; [simpl; lia | done |].
  set (f := ACKFrame.mk FrameType.ACK (varint.of_uint lg) (varint.of_uint 0)
              (varint.of_uint (size l)) (varint.of_uint (lg - sm))
              (wire_ranges (mk_range lg sm) l) ACKFrame.zero_ecn).
  assert (Hwf : wf f).
  { cbn [wf ACK_laws f ACKFrame.largest_ack ACKFrame.ack_delay ACKFrame.ack_range_count ACKFrame.first_ack_range ACKFrame.ack_ranges ACKFrame.ecn_counts].
    split_and!; try (apply writable_uint; lia); try discriminate.
    - apply wire_range_writable; [done | apply wire_ranges_vlen].
    - unfold size. by rewrite length_wire_ranges. }
  exists f. split; [| split; [exact Hwf | split; [done |]]].
  { unfold convert_to_ACKFrame. rewrite Hsorted, size_cons. cbn [negb largest smallest].
    rewrite !u64_small by (unfold is_u64; lia). unfold f. do 3 f_equal. lia. }
  change (convert_from_ACKFrame (canon f)) with
    (let prev := mk_range lg (u64 (lg - (lg - sm))) in
     let ranges := prev :: unwire_ranges prev (map range_norm (wire_ranges (mk_range lg sm) l)) in
     (ranges, is_sorted_ack_ranges ranges)). cbv zeta.
  replace (lg - (lg - sm)) with sm by lia. rewrite (u64_small sm) by (unfold is_u64; lia).
  by rewrite Hu, Hsorted.
Qed.

(** Adjacent ranges are never rendered, whatever the delay field holds. *)
Lemma adjacent_render_fails ty lg d n fr r l ecn w :
  Forall (fun r => 0 <= smallest r <= largest r) (r :: l) ->
  Exists (fun p => largest (snd p) + 1 = smallest (fst p)) (zip (r :: l) l) ->
  fst (render (ACKFrame.mk ty lg d n fr (wire_ranges r l) ecn) w) = false.
Proof.
  intros Hf Hex. cbv [render ACK_frame ACKFrame.render].
  do 5 (apply andM_fails_r; intros ?). apply andM_fails_l.
  unfold ACKFrame.render_ack_range. destruct (negb _); [done |].
  apply render_ranges_refuses. by apply adjacent_unwritable.
Qed.

(** * Properties *)

(** Decoding the ranges of a received ACK frame (64-bit arithmetic that
    may wrap, then a sortedness test) agrees with the exact description of
    RFC 9000 19.3.1: the frame is accepted exactly when no described range
    goes below packet number 0, and then the result is the exact list. *)
Theorem ack_ranges_decode f :
  is_wire (ACKFrame.largest_ack f) -> is_wire (ACKFrame.first_ack_range f) ->
  Forall is_wire_range (ACKFrame.ack_ranges f) ->
  let exact := exact_ack_ranges f in
  snd (convert_from_ACKFrame f) = forallb (fun r => 0 <=? smallest r) exact /\
  (snd (convert_from_ACKFrame f) = true -> fst (convert_from_ACKFrame f) = exact).
Proof.
  unfold is_wire. intros H1 H2 H3. cbv zeta. unfold convert_from_ACKFrame, exact_ack_ranges.
  set (lg := varint.value (ACKFrame.largest_ack f)).
  set (sm := lg - varint.value (ACKFrame.first_ack_range f)).
  cbn [fst snd is_sorted_ack_ranges forallb largest smallest].
  destruct (Z.lt_ge_cases sm 0) as [Hneg | Hsm].
  - pose proof (u64_neg sm ltac:(lia)). by rewrite (leb_false 0 sm), (ltb_true lg) by lia.
  - rewrite (u64_small sm) by (unfold is_u64; lia). rewrite (leb_true 0 sm), (ltb_false lg sm) by lia.
    destruct (unwire_exact (ACKFrame.ack_ranges f) (mk_range lg sm)) as [E1 E2]; simpl; try lia; auto.
    simpl in E1, E2. split; [done |]. intros H. by rewrite E2.
Qed.

Lemma ack_ranges_decode_witness :
  let v := varint.of_uint in
  let f := ACKFrame.mk 2 (v 100) (v 0) (v 1) (v 5) [mk_wire_range (v 3) (v 90)] ACKFrame.zero_ecn in
  snd (convert_from_ACKFrame f) = true /\
  fst (convert_from_ACKFrame f) = [mk_range 100 95; mk_range 90 0].
Proof.
  split; [reflexivity |].
  apply (ack_ranges_decode (ACKFrame.mk 2 (varint.of_uint 100) (varint.of_uint 0) (varint.of_uint 1)
    (varint.of_uint 5) [mk_wire_range (varint.of_uint 3) (varint.of_uint 90)] ACKFrame.zero_ecn));
    try reflexivity; repeat constructor; unfold is_wire; simpl; lia.
Defined.

(** Acknowledged ranges survive the trip: for ranges with at least one
    missing number between two of them, [convert_to_ACKFrame] gives a
    well-formed frame, and what the receiver parses from its bytes converts
    back to exactly those ranges. *)
Theorem ack_ranges_roundtrip ranges rest :
  separated ranges -> size ranges < 2 ^ 62 ->
  exists f, convert_to_ACKFrame ranges = (f, true) /\ wf f /\
    reads_at parse f_default (wire f) rest (canon f) /\
    convert_from_ACKFrame (canon f) = (ranges, true).
Proof.
  intros Hs Hn. destruct (convert_to_spec ranges Hs Hn) as (f & E & Hwf & _ & Hc).
  exists f. split; [done | split; [done | split; [| done]]].
  apply parse_reads; [done | discriminate].
Qed.

Lemma ack_ranges_roundtrip_witness :
  exists f, convert_to_ACKFrame [mk_range 92339 92333; mk_range 32322 32321; mk_range 32232 32231] = (f, true) /\
    wf f /\ reads_at parse f_default (wire f) [] (canon f) /\
    convert_from_ACKFrame (canon f) =
      ([mk_range 92339 92333; mk_range 32322 32321; mk_range 32232 32231], true).
Proof. apply ack_ranges_roundtrip; [simpl; lia | unfold size; simpl; lia]. Defined.

(** Adjacent ranges cannot be sent: if one range begins right after the
    next one ends, the list still counts as sorted and is converted, but the
    gap has wrapped to 2^64 - 1 and rendering the frame fails into every
    buffer. *)
Theorem ack_adjacent_never_rendered r l w :
  is_sorted_ack_ranges (r :: l) = true ->
  Forall (fun r => 0 <= smallest r <= largest r) (r :: l) ->
  Exists (fun p => largest (snd p) + 1 = smallest (fst p)) (zip (r :: l) l) ->
  exists f, convert_to_ACKFrame (r :: l) = (f, true) /\ fst (render f w) = false.
Proof.
  intros Hs Hf Hex. unfold convert_to_ACKFrame. rewrite Hs. cbn [negb]. eexists. split; [done |].
  by apply adjacent_render_fails.
Qed.

Lemma ack_adjacent_never_rendered_witness :
  exists f, convert_to_ACKFrame [mk_range 3 3; mk_range 2 2; mk_range 1 1] = (f, true) /\
    fst (render f (new_writer (replicate 64 0))) = false.
Proof.
  apply ack_adjacent_never_rendered; [reflexivity | repeat constructor; simpl; lia |].
  left. reflexivity.
Defined.
