(* ===== verification/FrameParse.v ===== *)
(** * Parsing and writing sequences of frames
      (src/src/include/fnet/quic/frame/cast.h, parse.h, writer.h,
       stream_manage.h)

    The dispatch on the frame type, the payload parser with its callback,
    and the frame writer that builds a payload and its packet status. *)

From stdpp Require Import base list.
From Stdlib Require Import ZArith Lia.
From S2P Require Import Prelude Bytes Varint Types FrameBase FrameStream FrameAck.

(** ** The frames a packet can carry *)

Inductive AnyFrame :=
  | Padding (f : TypeOnly.t FrameType.PADDING)
  | Ping (f : TypeOnly.t FrameType.PING)
  | Ack (f : ACKFrame.t)
  | ResetStream (f : ResetStreamFrame.t)
  | StopSending (f : StopSendingFrame.t)
  | Crypto (f : CryptoFrame.t)
  | NewToken (f : NewTokenFrame.t)
  | Stream (f : StreamFrame.t)
  | MaxData (f : MaxDataBase.t FrameType.MAX_DATA)
  | MaxStreamData (f : MaxStreamDataBase.t FrameType.MAX_STREAM_DATA)
  | MaxStreams (f : MaxStreamsBase.t FrameType.MAX_STREAMS)
  | DataBlocked (f : MaxDataBase.t FrameType.DATA_BLOCKED)
  | StreamDataBlocked (f : MaxStreamDataBase.t FrameType.STREAM_DATA_BLOCKED)
  | StreamsBlocked (f : MaxStreamsBase.t FrameType.STREAMS_BLOCKED)
  | NewConnectionID (f : NewConnectionIDFrame.t)
  | RetireConnectionID (f : RetireConnectionIDFrame.t)
  | PathChallenge (f : PathBase.t FrameType.PATH_CHALLENGE)
  | PathResponse (f : PathBase.t FrameType.PATH_RESPONSE)
  | ConnectionClose (f : ConnectionCloseFrame.t)
  | HandshakeDone (f : TypeOnly.t FrameType.HANDSHAKE_DONE)
  | Datagram (f : DatagramFrame.t)
  | Unknown (type : Z).

(** The action of a frame kind: its members, with the constructor that
    injects its objects. *)
Definition kind_action (R : Type) : Type := forall F (H : Frame F), (F -> AnyFrame) -> R.

(** [select_Frame(typ, cb)]: [cb(F{})] for the frame type, [cb(Frame{})]
    otherwise. *)
Definition select_Frame {R} (typ : Z) (cb : kind_action R) (other : R) : R :=
  if typ =? FrameType.PADDING then cb _ _ Padding
  else if typ =? FrameType.PING then cb _ _ Ping
  else if typ =? FrameType.ACK then cb _ _ Ack
  else if typ =? FrameType.RESET_STREAM then cb _ _ ResetStream
  else if typ =? FrameType.STOP_SENDING then cb _ _ StopSending
  else if typ =? FrameType.CRYPTO then cb _ _ Crypto
  else if typ =? FrameType.NEW_TOKEN then cb _ _ NewToken
  else if typ =? FrameType.STREAM then cb _ _ Stream
  else if typ =? FrameType.MAX_DATA then cb _ _ MaxData
  else if typ =? FrameType.MAX_STREAM_DATA then cb _ _ MaxStreamData
  else if typ =? FrameType.MAX_STREAMS then cb _ _ MaxStreams
  else if typ =? FrameType.DATA_BLOCKED then cb _ _ DataBlocked
  else if typ =? FrameType.STREAM_DATA_BLOCKED then cb _ _ StreamDataBlocked
  else if typ =? FrameType.STREAMS_BLOCKED then cb _ _ StreamsBlocked
  else if typ =? FrameType.NEW_CONNECTION_ID then cb _ _ NewConnectionID
  else if typ =? FrameType.RETIRE_CONNECTION_ID then cb _ _ RetireConnectionID
  else if typ =? FrameType.PATH_CHALLENGE then cb _ _ PathChallenge
  else if typ =? FrameType.PATH_RESPONSE then cb _ _ PathResponse
  else if typ =? FrameType.CONNECTION_CLOSE then cb _ _ ConnectionClose
  else if typ =? FrameType.HANDSHAKE_DONE then cb _ _ HandshakeDone
  else if typ =? FrameType.DATAGRAM then cb _ _ Datagram
  else other.

(** ** [parse_frame] and [parse_frames], with the callback's state [S] *)

Section Parse.
Context {S : Type}.

(** The callback: called with the frame and the error flag; a callback
    that returns nothing is one that returns [true]. *)
Context (cb : AnyFrame -> bool -> S -> bool * S).

Definition parse_frame (s : S * reader) : bool * (S * reader) :=
  let '(st, r) := s in
  let '(ok, (f, _)) := base_parse (0, r) in
  if negb ok then (false, (st, r))
  else
    select_Frame (FrameFlags.type f)
      (fun F _ inj =>
         let '(res, (frame, r')) := parse (f_default (F := F), r) in
         if negb res then
           let '(_, st') := cb (inj frame) true st in (false, (st', r'))
         else
           let '(b, st') := cb (inj frame) false st in (b, (st', r')))
      (let '(_, st') := cb (Unknown f) true st in (false, (st', r))).

(** The loop of [parse_frames]; every round consumes a byte or ends it. *)
Fixpoint parse_frames_loop (fuel : nat) (limit : Z) (ignore_padding : bool) (i : Z)
    (s : S * reader) : bool * (S * reader) :=
  let '(st, r) := s in
  if negb (rd_empty r) && (i <? limit) then
    match fuel with
    | O => (false, (st, r))
    | Datatypes.S fuel' =>
        if ignore_padding && (rd_top r =? 0)
        then parse_frames_loop fuel' limit ignore_padding i (st, rd_offset r 1)
        else
          let '(ok, s') := parse_frame (st, r) in
          if negb ok then (false, s')
          else parse_frames_loop fuel' limit ignore_padding (i + 1) s'
    end
  else (true, (st, r)).

Definition parse_frames (limit : Z) (ignore_padding : bool) (s : S * reader)
    : bool * (S * reader) :=
  parse_frames_loop (Datatypes.S (length (rd_remain (snd s)))) limit ignore_padding 0 s.
End Parse.

(** ** [get_streamID]: the switch on the type; a frame object whose type was
    changed after parsing is outside the contract ([None]). *)
Definition get_streamID (a : AnyFrame) : option (Z * bool) :=
  match a with
  | StopSending f =>
      if FrameFlags.type (StopSendingFrame.type f) =? FrameType.STOP_SENDING
      then Some (varint.value (StopSendingFrame.streamID f), true) else None
  | ResetStream f =>
      if FrameFlags.type (ResetStreamFrame.type f) =? FrameType.RESET_STREAM
      then Some (varint.value (ResetStreamFrame.streamID f), true) else None
  | Stream f =>
      if FrameFlags.type (StreamFrame.type f) =? FrameType.STREAM
      then Some (varint.value (StreamFrame.streamID f), true) else None
  | StreamDataBlocked f =>
      if FrameFlags.type (MaxStreamDataBase.type f) =? FrameType.STREAM_DATA_BLOCKED
      then Some (varint.value (MaxStreamDataBase.streamID f), true) else None
  | MaxStreamData f =>
      if FrameFlags.type (MaxStreamDataBase.type f) =? FrameType.MAX_STREAM_DATA
      then Some (varint.value (MaxStreamDataBase.streamID f), true) else None
  | _ => Some (u64_max, false)
  end.

(** ** [struct fwriter] *)

Record fwriter := mk_fwriter { fw_w : writer; fw_status : Z; fw_prev_type : Z }.

Definition fw_remain (fw : fwriter) : list Z := wr_remain (fw_w fw).

Definition fw_write {F} `{Frame F} (frame : F) (fw : fwriter) : bool * fwriter :=
  let ty := get_type frame false in
  let '(ok, w') := render frame (fw_w fw) in
  if negb ok then (false, mk_fwriter w' (fw_status fw) ty)
  else (true, mk_fwriter w' (PacketStatus.add_frame ty (fw_status fw)) ty).

(** [if (w.remain().size() < frame.len()) no_capacity; if (!w.write(frame)) fatal]:
    how the senders of the transport write a frame. *)
Definition write_checked {F} `{Frame F} (f : F) (w : fwriter) : IOResult * fwriter :=
  if size (fw_remain w) <? flen f false then (no_capacity, w)
  else let '(ok, w') := fw_write f w in (if ok then io_ok else io_fatal, w').

(** [add_padding_for_encryption(fw, wire, auth_tag)]; [pn_len] is [wire.len]. *)
Definition add_padding_for_encryption (pn_len auth_tag : Z) (fw : fwriter) : fwriter :=
  if size (wr_written (fw_w fw)) + pn_len <? auth_tag then
    let '(_, fw) := fw_write (TypeOnly.mk (ty := FrameType.PADDING) 0) fw in
    let '(_, w) := wr_fill 0 (u64 (auth_tag - size (wr_written (fw_w fw)) - pn_len)) (fw_w fw) in
    mk_fwriter w (fw_status fw) (fw_prev_type fw)
  else fw.

(** * Lemmas *)

(** ** Frames of any kind, through the interface *)

(** A function of the frame interface, applied to the frame inside. *)
Definition on_frame {R} (k : forall F (H : Frame F) (L : FrameLaws F), F -> R) (unknown : Z -> R)
    (a : AnyFrame) : R :=
  match a with
  | Padding f => k _ _ _ f
  | Ping f => k _ _ _ f
  | Ack f => k _ _ _ f
  | ResetStream f => k _ _ _ f
  | StopSending f => k _ _ _ f
  | Crypto f => k _ _ _ f
  | NewToken f => k _ _ _ f
  | Stream f => k _ _ _ f
  | MaxData f => k _ _ _ f
  | MaxStreamData f => k _ _ _ f
  | MaxStreams f => k _ _ _ f
  | DataBlocked f => k _ _ _ f
  | StreamDataBlocked f => k _ _ _ f
  | StreamsBlocked f => k _ _ _ f
  | NewConnectionID f => k _ _ _ f
  | RetireConnectionID f => k _ _ _ f
  | PathChallenge f => k _ _ _ f
  | PathResponse f => k _ _ _ f
  | ConnectionClose f => k _ _ _ f
  | HandshakeDone f => k _ _ _ f
  | Datagram f => k _ _ _ f
  | Unknown t => unknown t
  end.

Definition any_wf : AnyFrame -> Prop := on_frame (fun F _ _ f => wf f) (fun _ => False).
Definition any_wire : AnyFrame -> list Z := on_frame (fun F _ _ f => wire f) (fun _ => []).
Definition any_tail : AnyFrame -> bool := on_frame (fun F _ _ f => tail f) (fun _ => false).
Definition any_type : AnyFrame -> Z := on_frame (fun F _ _ f => get_type f false) (fun t => t).
Definition any_len : AnyFrame -> Z := on_frame (fun F _ _ f => flen f false) (fun _ => 0).
Definition any_render : AnyFrame -> writer -> bool * writer :=
  on_frame (fun F _ _ f => render f) (fun _ => retM false).
Definition any_fw_write : AnyFrame -> fwriter -> bool * fwriter :=
  on_frame (fun F _ _ f => fw_write f) (fun _ fw => (false, fw)).

(** The frame a receiver gets. *)
Definition any_canon (a : AnyFrame) : AnyFrame :=
  match a with
  | Padding f => Padding (canon f)
  | Ping f => Ping (canon f)
  | Ack f => Ack (canon f)
  | ResetStream f => ResetStream (canon f)
  | StopSending f => StopSending (canon f)
  | Crypto f => Crypto (canon f)
  | NewToken f => NewToken (canon f)
  | Stream f => Stream (canon f)
  | MaxData f => MaxData (canon f)
  | MaxStreamData f => MaxStreamData (canon f)
  | MaxStreams f => MaxStreams (canon f)
  | DataBlocked f => DataBlocked (canon f)
  | StreamDataBlocked f => StreamDataBlocked (canon f)
  | StreamsBlocked f => StreamsBlocked (canon f)
  | NewConnectionID f => NewConnectionID (canon f)
  | RetireConnectionID f => RetireConnectionID (canon f)
  | PathChallenge f => PathChallenge (canon f)
  | PathResponse f => PathResponse (canon f)
  | ConnectionClose f => ConnectionClose (canon f)
  | HandshakeDone f => HandshakeDone (canon f)
  | Datagram f => Datagram (canon f)
  | Unknown t => Unknown t
  end.

(** The type a frame is sent with fits one byte, and dispatches to its own
    kind. *)
Lemma type_detail_idem v : FrameFlags.type (FrameFlags.type_detail v) = FrameFlags.type v.
Proof.
  unfold FrameFlags.type. assert (E : FrameFlags.type_detail (FrameFlags.type_detail v) = FrameFlags.type_detail v).
  { unfold FrameFlags.type_detail. apply s32_small. unfold s32.
    pose proof (Z.mod_pos_bound (v + 2 ^ 31) (2 ^ 32)). lia. }
  by rewrite E.
Qed.

Lemma stream_get_type_STREAM f : FrameFlags.type (StreamFrame.get_type f false) = FrameType.STREAM.
Proof. destruct (stream_get_type f) as (off & len & fin & ->). apply make_STREAM_bits. Qed.

Lemma any_type_range a : any_wf a -> 0 <= any_type a < 64.
Proof.
  destruct a as [f|f|f|f|f|f|f|f|f|f|f|f|f|f|f|f|f|f|f|f|f|t];
    try (intros _; split; done); intros H; unfold any_wf, any_type, on_frame in *;
    cbn [get_type wf ACK_frame Stream_frame MaxStreamsBase_frame MaxStreamsBase_laws
         ConnectionClose_frame Datagram_frame] in *.
  - unfold ACKFrame.get_type. destruct (ACKFrame.has_ecn f); split; done.
  - destruct (stream_get_type f) as (off & len & fin & ->). apply make_STREAM_bits.
  - destruct H as (H & _). unfold MaxStreamsBase.get_type. rewrite type_detail_small; lia.
  - destruct H as (H & _). unfold MaxStreamsBase.get_type. rewrite type_detail_small; lia.
  - unfold ConnectionCloseFrame.get_type. destruct (ConnectionCloseFrame.is_app f); split; done.
  - unfold DatagramFrame.get_type. destruct (DatagramFrame.is_plain f); split; done.
  - done.
Qed.

(** [parse_frame] on one kind, given that its type dispatches to it. *)
Lemma parse_frame_kind {S F} `{FrameLaws F} (cb : AnyFrame -> bool -> S -> bool * S)
    (inj : F -> AnyFrame) f rest st r :
  wf f -> 0 <= get_type f false < 64 ->
  (forall R (k : kind_action R) other,
     select_Frame (FrameFlags.type (get_type f false)) k other = k F _ inj) ->
  (tail f = true -> rest = []) -> rd_ok r -> rd_remain r = wire f ++ rest ->
  parse_frame cb (st, r) =
    let '(b, st') := cb (inj (canon f)) false st in
    (b, (st', rd_advance r (length (wire f)))).
Proof.
  intros Hwf Hty Hsel Htail Hr Hrem. unfold parse_frame.
  destruct (wire_head f Hwf) as (l & Hl).
  assert (Hb : base_parse (0, r) = (true, (get_type f false,
      rd_advance r (length (varint.enc (varint.of_uint (get_type f false))))))).
  { apply (reads_type (fun v _ => v) _ 0 (l ++ rest)); [lia | done |].
    by rewrite Hrem, Hl, <- app_assoc. }
  rewrite Hb. cbn [negb]. rewrite Hsel.
  rewrite (parse_reads f rest Hwf Htail r Hr Hrem). done.
Qed.

Lemma ack_type_ACK f : FrameFlags.type (ACKFrame.get_type f false) = FrameType.ACK.
Proof. unfold ACKFrame.get_type. by destruct (ACKFrame.has_ecn f). Qed.

Lemma close_type f : FrameFlags.type (ConnectionCloseFrame.get_type f false) = FrameType.CONNECTION_CLOSE.
Proof. unfold ConnectionCloseFrame.get_type. by destruct (ConnectionCloseFrame.is_app f). Qed.

Lemma datagram_type f : FrameFlags.type (DatagramFrame.get_type f false) = FrameType.DATAGRAM.
Proof. unfold DatagramFrame.get_type. by destruct (DatagramFrame.is_plain f). Qed.

Lemma streams_type {ty} (f : MaxStreamsBase.t ty) :
  FrameFlags.type (MaxStreamsBase.get_type f false) = FrameFlags.type (MaxStreamsBase.type f).
Proof. apply type_detail_idem. Qed.

Lemma parse_frame_reads {S} (cb : AnyFrame -> bool -> S -> bool * S) a rest st r :
  any_wf a -> (any_tail a = true -> rest = []) -> rd_ok r -> rd_remain r = any_wire a ++ rest ->
  parse_frame cb (st, r) =
    let '(b, st') := cb (any_canon a) false st in
    (b, (st', rd_advance r (length (any_wire a)))).
Proof.
  intros Hwf Htail Hr Hrem. pose proof (any_type_range a Hwf) as Hty.
  destruct a as [f|f|f|f|f|f|f|f|f|f|f|f|f|f|f|f|f|f|f|f|f|t]; [.. | done];
    apply (parse_frame_kind cb _ f rest st r Hwf Hty); try done; intros R k other; try done;
    cbn [get_type ACK_frame Stream_frame MaxStreamsBase_frame ConnectionClose_frame Datagram_frame].
  - by rewrite ack_type_ACK.
  - by rewrite stream_get_type_STREAM.
  - destruct Hwf as (_ & E & _). by rewrite streams_type, E.
  - destruct Hwf as (_ & E & _). by rewrite streams_type, E.
  - by rewrite close_type.
  - by rewrite datagram_type.
Qed.

(** [parse_frame] only moves forward, and a success consumes the type. *)
Definition moves {S} (s : S * reader) (res : bool * (S * reader)) : Prop :=
  let '(ok, (_, r')) := res in
  rd_buf r' = rd_buf (snd s) /\ rd_ok r' /\ (rd_index (snd s) <= rd_index r')%nat /\
  (ok = true -> (rd_index (snd s) < rd_index r')%nat).

Lemma parse_type_progress {F} (set_type : Z -> F -> F) f r f' r' :
  rd_ok r -> parse_type set_type (f, r) = (true, (f', r')) -> (rd_index r < rd_index r')%nat.
Proof.
  intros Hr. unfold parse_type. destruct (varint.read r) as [[v ok] r1] eqn:E.
  destruct ok; [| discriminate]. destruct (negb _ || negb _); [discriminate |].
  intros [= <- <-]. by eapply varint.read_progress.
Qed.

(** Every [parse] starts with the type. *)
Definition consumes {F} (p : F * reader -> bool * (F * reader)) : Prop :=
  forall f r f' r', rd_ok r -> p (f, r) = (true, (f', r')) -> (rd_index r < rd_index r')%nat.

Lemma consumes_andM {F} (p q : F * reader -> bool * (F * reader)) :
  advances p -> advances q -> consumes p -> consumes (p ;& q).
Proof.
  intros Ha Hq Hp f r f' r' Hr E. apply andM_true_inv in E as ([f1 r1] & E1 & E2).
  pose proof (Hp _ _ _ _ Hr E1). destruct (Ha _ _ _ _ _ Hr E1) as (_ & _ & Hok).
  destruct (Hq _ _ _ _ _ Hok E2) as (_ & ? & _). lia.
Qed.

Lemma consumes_type {F} (set_type : Z -> F -> F) : consumes (parse_type set_type).
Proof. intros f r f' r' Hr E. by eapply parse_type_progress. Qed.

Lemma consumes_check {F} (set_type : Z -> F -> F) get ty : consumes (parse_check set_type get ty).
Proof.
  apply consumes_andM; [apply advances_type | | apply consumes_type].
  apply (advances_test (fun f => FrameFlags.type (get f) =? ty)).
Qed.

Ltac consumes_frame :=
  cbv [parse TypeOnly_frame PathBase_frame MaxDataBase_frame MaxStreamsBase_frame
       MaxStreamDataBase_frame ConnectionClose_frame NewToken_frame NewConnectionID_frame
       RetireConnectionID_frame ResetStream_frame StopSending_frame Stream_frame Crypto_frame
       Datagram_frame ACK_frame];
  match goal with
  | |- consumes TypeOnly.parse => apply consumes_andM; [apply advances_type | | apply consumes_type]
  | _ => apply consumes_andM; [apply advances_check | | apply consumes_check]
  end.

(** Every branch of the dispatch is a parser that moves forward. *)
Lemma select_cases {R} (P : R -> Prop) typ (k : kind_action R) other :
  (forall F (H : Frame F) inj, advances parse -> consumes parse -> P (k F H inj)) ->
  P other -> P (select_Frame typ k other).
Proof.
  intros HP Ho. unfold select_Frame.
  repeat match goal with |- context [if ?c then _ else _] => destruct c end;
    [apply HP; [apply parse_advances | consumes_frame] .. | exact Ho].
  all: try apply (advances_test (fun f => FrameFlags.type_detail (TypeOnly.type f) =? _)).
  all: unfold ACKFrame.parse_ecn_counts; advances_chain.
  apply advances_ranges.
Qed.

Lemma parse_frame_moves {S} (cb : AnyFrame -> bool -> S -> bool * S) st r :
  rd_ok r -> moves (st, r) (parse_frame cb (st, r)).
Proof.
  intros Hr. unfold parse_frame. destruct (base_parse (0, r)) as [ok [f r1]].
  destruct ok; cbn [negb]; [| by split_and!].
  apply (select_cases (moves (st, r))).
  - intros F H inj Hadv Hcon. destruct (parse (f_default, r)) as [res [frame r']] eqn:E.
    pose proof (Hadv _ _ _ _ _ Hr E) as (Hb & Hi & Hok).
    destruct res; cbn [negb]; destruct (cb _ _ st) as [b st']; split_and!; try done.
    intros _. by eapply Hcon.
  - by destruct (cb _ _ st) as [b st'].
Qed.

(** The fuel of [parse_frames] is enough: more does not change the result. *)
Lemma rd_offset_one r :
  rd_ok r -> rd_empty r = false ->
  rd_buf (rd_offset r 1) = rd_buf r /\ rd_ok (rd_offset r 1) /\
  rd_index (rd_offset r 1) = Datatypes.S (rd_index r).
Proof.
  intros [H1 H2] He. apply Z.eqb_neq in He. unfold size in *. unfold rd_offset, rd_offset_internal.
  unfold size. rewrite ltb_false by lia.
  split_and!; simpl; try done; unfold rd_ok, size; simpl; lia.
Qed.

Lemma parse_frames_step {S} (cb : AnyFrame -> bool -> S -> bool * S) limit ip fuel i st r :
  parse_frames_loop cb (Datatypes.S fuel) limit ip i (st, r) =
  if negb (rd_empty r) && (i <? limit) then
    if ip && (rd_top r =? 0)
    then parse_frames_loop cb fuel limit ip i (st, rd_offset r 1)
    else let '(ok, s') := parse_frame cb (st, r) in
         if negb ok then (false, s') else parse_frames_loop cb fuel limit ip (i + 1) s'
  else (true, (st, r)).
Proof. reflexivity. Qed.

Lemma parse_frames_fuel {S} (cb : AnyFrame -> bool -> S -> bool * S) limit ip fuel : forall i st r,
  rd_ok r -> (length (rd_remain r) < fuel)%nat ->
  parse_frames_loop cb fuel limit ip i (st, r) =
  parse_frames_loop cb (Datatypes.S fuel) limit ip i (st, r).
Proof.
  induction fuel as [| fuel IH]; intros i st r Hr Hlt; [lia |].
  rewrite (parse_frames_step cb limit ip fuel), (parse_frames_step cb limit ip (Datatypes.S fuel)).
  destruct (rd_empty r) eqn:He; cbn [negb andb]; [done |].
  destruct (i <? limit); [| done]. rewrite rd_remain_length in Hlt by done.
  assert (rd_index r < length (rd_buf r))%nat.
  { apply Z.eqb_neq in He. unfold size in He. destruct Hr. lia. }
  destruct (ip && _).
  - destruct (rd_offset_one r Hr He) as (Hb & Hok & Hi). apply IH; [done |].
    rewrite rd_remain_length by done. rewrite Hb, Hi. lia.
  - pose proof (parse_frame_moves cb st r Hr) as Hm.
    destruct (parse_frame cb (st, r)) as [[] [st' r']]; cbn [negb]; [| done].
    destruct Hm as (Hb & Hok & _ & Hi). specialize (Hi eq_refl). simpl in *. apply IH; [done |].
    rewrite rd_remain_length by done. rewrite Hb. lia.
Qed.

(** ** A whole payload *)

Definition is_padding (a : AnyFrame) : bool := match a with Padding _ => true | _ => false end.

(** A payload: only its last frame may lack a length field. *)
Fixpoint payload_wf (fs : list AnyFrame) : Prop :=
  match fs with
  | [] => True
  | a :: l => any_wf a /\ (any_tail a = true -> l = []) /\ payload_wf l
  end.

Definition payload (fs : list AnyFrame) : list Z := concat (map any_wire fs).

(** The calls the callback should get: every frame in order, PADDING left
    out on demand, until one of them is refused. *)
Fixpoint deliver {S} (cb : AnyFrame -> bool -> S -> bool * S) (ignore_padding : bool)
    (fs : list AnyFrame) (st : S) : bool * S :=
  match fs with
  | [] => (true, st)
  | a :: l =>
      if ignore_padding && is_padding a then deliver cb ignore_padding l st
      else
        let '(b, st') := cb (any_canon a) false st in
        if b then deliver cb ignore_padding l st' else (false, st')
  end.

Lemma any_wire_head a : any_wf a -> exists l, any_wire a = any_type a :: l.
Proof.
  intros Hwf. pose proof (any_type_range a Hwf) as Hr.
  assert (exists l, any_wire a = varint.enc (varint.of_uint (any_type a)) ++ l) as [l ->].
  { destruct a; cbn [any_wf any_type any_wire on_frame] in *; try done; by apply wire_head. }
  assert (varint.enc (varint.of_uint (any_type a)) = [any_type a]) as ->; [| by eexists].
  unfold varint.enc. rewrite len_uint. fold (type_minlen (any_type a)). rewrite plain_minlen by done.
  unfold varint.write_unchecked. simpl. rewrite u8_small; [done |]. unfold is_byte. lia.
Qed.

Lemma any_type_nonzero a : any_wf a -> is_padding a = false -> any_type a <> 0.
Proof.
  destruct a as [f|f|f|f|f|f|f|f|f|f|f|f|f|f|f|f|f|f|f|f|f|t]; try done; intros H _ E;
    unfold any_wf, any_type, on_frame in *;
    cbn [get_type wf ACK_frame Stream_frame MaxStreamsBase_frame MaxStreamsBase_laws
         ConnectionClose_frame Datagram_frame] in *.
  - pose proof (ack_type_ACK f) as T. by rewrite E in T.
  - pose proof (stream_get_type_STREAM f) as T. by rewrite E in T.
  - destruct H as (_ & H & _). pose proof (streams_type f) as T. by rewrite E, H in T.
  - destruct H as (_ & H & _). pose proof (streams_type f) as T. by rewrite E, H in T.
  - pose proof (close_type f) as T. by rewrite E in T.
  - pose proof (datagram_type f) as T. by rewrite E in T.
Qed.

Lemma rd_top_cons r x l : rd_remain r = x :: l -> rd_top r = x.
Proof.
  intros H. unfold rd_top. rewrite H, size_cons. pose proof (size_nonneg l).
  by rewrite leb_true by lia.
Qed.

Lemma rd_offset_advance r x l :
  rd_ok r -> rd_remain r = x :: l -> rd_offset r 1 = rd_advance r 1.
Proof.
  intros Hr H. pose proof (rd_empty_false r x l Hr H) as He.
  destruct (rd_offset_one r Hr He) as (Hb & _ & Hi). destruct (rd_offset r 1) as [b i].
  simpl in *. subst. unfold rd_advance. f_equal. lia.
Qed.

Lemma parse_frames_deliver {S} (cb : AnyFrame -> bool -> S -> bool * S) limit ip fs : forall fuel i st r,
  payload_wf fs -> rd_ok r -> rd_remain r = payload fs ->
  (length (rd_remain r) < fuel)%nat -> 0 <= i -> i + size fs <= limit ->
  exists r', parse_frames_loop cb fuel limit ip i (st, r) =
    (fst (deliver cb ip fs st), (snd (deliver cb ip fs st), r')) /\
    (fst (deliver cb ip fs st) = true -> rd_remain r' = []).
Proof.
  induction fs as [| a fs IH]; intros fuel i st r Hwf Hr Hrem Hf Hi Hl.
  - exists r. assert (rd_empty r = true) as He.
    { rewrite rd_remain_eq in Hrem by done. apply (f_equal length) in Hrem. rewrite length_drop in Hrem.
      apply eqb_true. unfold size. destruct Hr. simpl in Hrem. lia. }
    destruct fuel; simpl; by rewrite He.
  - destruct Hwf as (Ha & Htail & Hfs). rewrite size_cons in Hl. pose proof (size_nonneg fs).
    destruct fuel as [| fuel]; [lia |]. rewrite parse_frames_step.
    change (payload (a :: fs)) with (any_wire a ++ payload fs) in Hrem.
    destruct (any_wire_head a Ha) as (l & Hl0). assert (Hrem' := Hrem). rewrite Hl0 in Hrem'.
    rewrite (rd_empty_false r _ _ Hr Hrem'), (rd_top_cons r _ _ Hrem'). cbn [negb andb].
    rewrite ltb_true by lia.
    assert (Hok : rd_ok (rd_advance r (length (any_wire a))))
      by (apply rd_advance_ok; [done | rewrite Hrem, length_app; lia]).
    assert (Hrest : rd_remain (rd_advance r (length (any_wire a))) = payload fs)
      by by apply rd_advance_remain.
    assert (Hlen : (length (rd_remain (rd_advance r (length (any_wire a)))) < fuel)%nat)
      by (rewrite Hrest; rewrite Hrem', length_app in Hf; simpl in Hf; lia).
    cbn [deliver]. replace (ip && (any_type a =? 0)) with (ip && is_padding a).
    2: { destruct ip; [| done]. destruct (is_padding a) eqn:Ep; simpl.
         - destruct a; done.
         - rewrite eqb_false; [done |]. by apply any_type_nonzero. }
    destruct (ip && is_padding a) eqn:Ep.
    + rewrite (rd_offset_advance r _ _ Hr Hrem').
      assert (length (any_wire a) = 1%nat) as E1 by (destruct a; simpl in Ep; rewrite ?andb_false_r in Ep; done).
      rewrite E1 in *. apply IH; auto; lia.
    + rewrite (parse_frame_reads cb a (payload fs) st r); auto.
      2: { intros Ht. by rewrite (Htail Ht). }
      destruct (cb (any_canon a) false st) as [b st']. destruct b; cbn [negb].
      * apply IH; auto; lia.
      * by eexists.
Qed.

(** ** Writing a payload *)

Fixpoint fw_write_all (fs : list AnyFrame) (fw : fwriter) : bool * fwriter :=
  match fs with
  | [] => (true, fw)
  | a :: l =>
      let '(ok, fw') := any_fw_write a fw in
      if ok then fw_write_all l fw' else (false, fw')
  end.

Definition status_of (fs : list AnyFrame) (s : Z) : Z :=
  fold_left (fun s t => PacketStatus.add_frame t s) (map any_type fs) s.

Lemma any_wire_size a : any_wf a -> size (any_wire a) = any_len a.
Proof. destruct a; try done; apply wire_size. Qed.

Lemma any_emits a : any_wf a -> emits (any_render a) (any_wire a).
Proof. destruct a; try done; apply render_emits. Qed.

Lemma any_fw_write_eq a fw :
  any_wf a -> any_fw_write a fw =
    let '(ok, w') := any_render a (fw_w fw) in
    if negb ok then (false, mk_fwriter w' (fw_status fw) (any_type a))
    else (true, mk_fwriter w' (PacketStatus.add_frame (any_type a) (fw_status fw)) (any_type a)).
Proof. by destruct a. Qed.

Lemma fw_write_all_put fs : forall fw,
  payload_wf fs -> wr_ok (fw_w fw) -> size (payload fs) <= wr_room (fw_w fw) ->
  exists prev, fw_write_all fs fw =
    (true, mk_fwriter (wr_put (fw_w fw) (payload fs)) (status_of fs (fw_status fw)) prev).
Proof.
  induction fs as [| a fs IH]; intros fw Hwf Hw Hs.
  - exists (fw_prev_type fw). destruct fw as [w s p]. change (payload []) with (@nil Z).
    by rewrite wr_put_nil.
  - destruct Hwf as (Ha & _ & Hfs). change (payload (a :: fs)) with (any_wire a ++ payload fs) in *.
    rewrite size_app in Hs. pose proof (size_nonneg (any_wire a)). pose proof (size_nonneg (payload fs)).
    cbn [fw_write_all]. rewrite any_fw_write_eq by done.
    destruct (any_emits a Ha (fw_w fw) Hw) as [He _]. rewrite He by lia. cbn [negb].
    destruct (IH (mk_fwriter (wr_put (fw_w fw) (any_wire a))
                    (PacketStatus.add_frame (any_type a) (fw_status fw)) (any_type a))) as [prev ->];
      cbn [fw_w fw_status]; auto; [apply wr_put_ok; auto; lia | rewrite wr_put_room by (auto; lia); lia |].
    exists prev. by rewrite wr_put_put by (auto; lia).
Qed.

(** A frame that fits is written; one that does not is not tried. *)
Lemma write_checked_spec {F} `{FrameLaws F} (f : F) w :
  wf f -> wr_ok (fw_w w) ->
  write_checked f w =
    if wr_room (fw_w w) <? flen f false then (no_capacity, w)
    else (io_ok, mk_fwriter (wr_put (fw_w w) (wire f))
            (PacketStatus.add_frame (get_type f false) (fw_status w)) (get_type f false)).
Proof.
  intros Hf Hw. unfold write_checked, fw_remain. rewrite wr_remain_size by done.
  destruct (Z.ltb_spec (wr_room (fw_w w)) (flen f false)); [done |].
  unfold fw_write. destruct (render_emits f Hf (fw_w w) Hw) as [He _].
  rewrite He by (rewrite wire_size by done; lia). done.
Qed.

(** * Properties *)

(** Every kind of frame, through one interface: a well-formed frame is
    rendered to exactly [len()] bytes (and refused by a buffer that is too
    short), and [parse_frame] on those bytes, followed by anything a frame
    with a length can be followed by, hands the same frame, its lengths made
    explicit, to the callback and leaves the reader right behind it. *)
Theorem frame_roundtrip a rest :
  any_wf a -> (any_tail a = true -> rest = []) ->
  size (any_wire a) = any_len a /\ emits (any_render a) (any_wire a) /\
  forall S (cb : AnyFrame -> bool -> S -> bool * S) st r,
    rd_ok r -> rd_remain r = any_wire a ++ rest ->
    parse_frame cb (st, r) =
      let '(b, st') := cb (any_canon a) false st in
      (b, (st', rd_advance r (length (any_wire a)))).
Proof.
  intros Hwf Htail. split; [by apply any_wire_size | split; [by apply any_emits |]].
  intros S cb st r Hr Hrem. by apply (parse_frame_reads cb a rest).
Qed.

Lemma frame_roundtrip_witness :
  let f := StreamFrame.mk 0x0f (varint.of_uint 4) (varint.of_uint 70) (varint.of_uint 0) [1; 2; 3] in
  any_wire (Stream f) = [0x0f; 4; 0x40; 70; 3; 1; 2; 3] /\
  size (any_wire (Stream f)) = any_len (Stream f).
Proof.
  split; [vm_compute; reflexivity |].
  apply (frame_roundtrip (Stream _) [7; 7]); [| discriminate].
  repeat split; unfold size; simpl; unfold varint.border; simpl; lia.
Defined.

(** C27. A payload written frame by frame is read back frame by frame: when
    the frames fit, every write succeeds, the packet status is that of their
    types in order, and [parse_frames] over the written bytes calls the
    callback with exactly those frames in order (PADDING left out when it is
    to be ignored), consuming all of them unless the callback stops it. *)
Theorem payload_roundtrip {S} (cb : AnyFrame -> bool -> S -> bool * S) fs w status prev ip limit st :
  payload_wf fs -> wr_ok w -> size (payload fs) <= wr_room w -> size fs <= limit ->
  exists fw, fw_write_all fs (mk_fwriter w status prev) = (true, fw) /\
    fw_status fw = status_of fs status /\
    wr_written (fw_w fw) = wr_written w ++ payload fs /\
    exists r', parse_frames cb limit ip (st, new_reader (payload fs)) =
      (fst (deliver cb ip fs st), (snd (deliver cb ip fs st), r')) /\
      (fst (deliver cb ip fs st) = true -> rd_remain r' = []).
Proof.
  intros Hwf Hw Hs Hl.
  destruct (fw_write_all_put fs (mk_fwriter w status prev) Hwf Hw Hs) as [p E]. rewrite E.
  eexists. split; [done |]. cbn [fw_w fw_status]. split; [done |].
  split; [by apply wr_put_written |].
  assert (Hr : rd_ok (new_reader (payload fs))).
  { split; simpl; [lia |]. destruct Hw as [Hi Hm]. unfold wr_room in Hs. lia. }
  apply parse_frames_deliver; auto; try lia.
  - rewrite rd_remain_eq by done. done.
Qed.

Lemma payload_roundtrip_witness :
  let fs := [Padding (TypeOnly.mk 0); MaxData (MaxDataBase.mk 0 (varint.of_uint 99));
             Ping (TypeOnly.mk 0); Datagram (DatagramFrame.mk 0x30 (varint.of_uint 0) [5; 6])] in
  let cb a (err : bool) l := (true, l ++ [a]) in
  exists fw, fw_write_all fs (mk_fwriter (new_writer (replicate 20 0)) 0 0) = (true, fw) /\
    fw_status fw = status_of fs 0 /\
    wr_written (fw_w fw) = wr_written (new_writer (replicate 20 0)) ++ payload fs /\
    exists r', parse_frames cb 100 true ([], new_reader (payload fs)) =
      (fst (deliver cb true fs []), (snd (deliver cb true fs []), r')) /\
      (fst (deliver cb true fs []) = true -> rd_remain r' = []).
Proof.
  apply payload_roundtrip.
  - repeat split; try done; unfold varint.border; simpl; try lia; unfold size; simpl; lia.
  - split; simpl; [lia | unfold size; simpl; unfold u64_max; lia].
  - vm_compute. discriminate.
  - unfold size; simpl; lia.
Defined.

(** C36. Parsing arbitrary received bytes ends: [parse_frame] never moves
    the reader back or outside its buffer and consumes at least one byte when
    it succeeds, so the loop of [parse_frames] needs no more rounds than
    there are bytes; a larger bound gives the same result. *)
Theorem parse_frames_terminates {S} (cb : AnyFrame -> bool -> S -> bool * S) st r limit ip extra :
  rd_ok r ->
  moves (st, r) (parse_frame cb (st, r)) /\
  parse_frames cb limit ip (st, r) =
  parse_frames_loop cb (Datatypes.S (length (rd_remain r)) + extra) limit ip 0 (st, r).
Proof.
  intros Hr. split; [by apply parse_frame_moves |]. unfold parse_frames. simpl snd.
  induction extra as [| n IH]; [by rewrite Nat.add_0_r |].
  rewrite Nat.add_succ_r, IH. apply parse_frames_fuel; [done | lia].
Qed.

Lemma parse_frames_terminates_witness :
  let cb a (err : bool) l := (true, l ++ [(a, err)]) in
  parse_frames cb 100 true ([], new_reader [0; 1; 0x21; 9]) =
  parse_frames_loop cb (5 + 7) 100 true 0 ([], new_reader [0; 1; 0x21; 9]).
Proof.
  apply (parse_frames_terminates (fun a (err : bool) l => (true, l ++ [(a, err)])) []
           (new_reader [0; 1; 0x21; 9]) 100 true 7).
  split; simpl; [lia | unfold size; simpl; unfold u64_max; lia].
Defined.

(** The frame type is read as a 64-bit number but classified as an
    [int]: types that differ by a multiple of 2^32 are the same frame. A
    type no specification assigns is so parsed as, say, PING instead of being
    reported as unknown. *)
Theorem frame_type_truncated k v :
  FrameFlags.type (v + k * 2 ^ 32) = FrameFlags.type v /\
  let cb a (err : bool) l := (true, l ++ [(a, err)]) in
  fst (snd (parse_frames cb 10 true ([], new_reader [0xC0; 0; 0; 1; 0; 0; 0; 1]))) =
    [(Ping (TypeOnly.mk (2 ^ 32 + 1)), false)].
Proof.
  split; [| reflexivity].
  assert (E : FrameFlags.type_detail (v + k * 2 ^ 32) = FrameFlags.type_detail v).
  { unfold FrameFlags.type_detail, s32.
    replace (v + k * 2 ^ 32 + 2 ^ 31) with (v + 2 ^ 31 + k * 2 ^ 32) by lia. by rewrite Z.mod_add. }
  unfold FrameFlags.type. by rewrite E.
Qed.

(** [add_padding_for_encryption]: a payload too short for the header
    protection sample ([auth_tag] bytes together with the packet number) is
    brought to exactly that length with zero bytes, which are PADDING frames;
    a longer payload is left alone. Padding never makes a packet
    ack-eliciting. *)
Theorem padding_for_encryption pn_len auth_tag fw :
  wr_ok (fw_w fw) -> 0 <= pn_len <= 4 -> 0 <= auth_tag < 2 ^ 32 ->
  let n := size (wr_written (fw_w fw)) in
  auth_tag - pn_len - n <= wr_room (fw_w fw) ->
  let fw' := add_padding_for_encryption pn_len auth_tag fw in
  (auth_tag <= n + pn_len -> fw' = fw) /\
  (n + pn_len < auth_tag ->
   wr_written (fw_w fw') = wr_written (fw_w fw) ++ replicate (Z.to_nat (auth_tag - pn_len - n)) 0 /\
   size (wr_written (fw_w fw')) + pn_len = auth_tag /\
   PacketStatus.is_ack_eliciting (fw_status fw') = PacketStatus.is_ack_eliciting (fw_status fw)).
Proof.
  intros Hw Hp Ht. cbv zeta. intros Hroom. unfold add_padding_for_encryption. split; intros Hn.
  { by rewrite ltb_false by lia. }
  rewrite ltb_true by lia. set (n := size (wr_written (fw_w fw))) in *.
  assert (Hn0 : 0 <= n) by apply size_nonneg.
  assert (E : any_fw_write (Padding (TypeOnly.mk 0)) fw =
    (true, mk_fwriter (wr_put (fw_w fw) [0]) (PacketStatus.add_frame FrameType.PADDING (fw_status fw)) FrameType.PADDING)).
  { rewrite (any_fw_write_eq (Padding (TypeOnly.mk 0)) fw I).
    destruct (any_emits (Padding (TypeOnly.mk 0)) I (fw_w fw) Hw) as [He _].
    rewrite He; [done |]. change (size (any_wire _)) with 1. lia. }
  cbn [any_fw_write on_frame] in E. rewrite E. cbn [fw_w fw_status fw_prev_type]. rewrite wr_put_written, size_app by (change (size [0]) with 1; auto; lia).
  fold n. change (size [0]) with 1. rewrite u64_small by (unfold is_u64; lia).
  set (m := auth_tag - (n + 1) - pn_len).
  assert (Hfill : wr_fill 0 m (wr_put (fw_w fw) [0]) =
    (true, wr_put (wr_put (fw_w fw) [0]) (replicate (Z.to_nat m) 0))).
  { assert (size [0] = 1) by done.
    apply wr_fill_put; [apply wr_put_ok; auto; lia | | unfold m, u64_max; lia].
    rewrite wr_put_room by (auto; lia). unfold m. lia. }
  rewrite Hfill. cbn [fw_w fw_status].
  rewrite wr_put_put by (auto; change (size [0]) with 1; unfold size, m; rewrite length_replicate; lia).
  rewrite wr_put_written by (auto; rewrite size_app; change (size [0]) with 1; unfold size, m; rewrite length_replicate; lia).
  replace (Z.to_nat (auth_tag - pn_len - n)) with (S (Z.to_nat m)) by (unfold m; lia).
  split_and!; [done | | destruct (add_frame_bits FrameType.PADDING (fw_status fw)) as (-> & _); apply orb_false_r].
  rewrite size_app. fold n. unfold size. rewrite length_app, length_replicate. simpl. unfold m. lia.
Qed.

Lemma padding_for_encryption_witness :
  let fw := mk_fwriter (mk_writer [1; 0; 0; 0; 0; 0] 1) 1 1 in
  let fw' := add_padding_for_encryption 2 4 fw in
  wr_written (fw_w fw') = [1; 0] /\ size (wr_written (fw_w fw')) + 2 = 4.
Proof.
  split; [reflexivity |].
  apply (padding_for_encryption 2 4 (mk_fwriter (mk_writer [1; 0; 0; 0; 0; 0] 1) 1 1));
    try lia; [split; simpl; [lia | unfold size; simpl; unfold u64_max; lia] |
              vm_compute; discriminate | vm_compute; reflexivity].
Defined.
