(* ===== verification/PacketBase.v ===== *)
(** * Packet headers (src/src/include/fnet/quic/packet: packet.h,
      long_packet.h, initial.h, handshake_0rtt.h; src/src/include/view/iovec.h)

    The first byte of every packet ([struct Packet]), the common part of the
    long header ([struct LongPacketBase]) and the two partial packets built
    on it: [InitialPacketPartial] (with a token) and
    [HandshakeZeroRTTParital<type>]. The template parameter [Partial] of the
    packet bodies is the type class [PartialPacket]; what a body may rely on
    is [PartialLaws], proved here for the partial packets of the source. *)

From stdpp Require Import base list.
From Stdlib Require Import ZArith Lia.
From S2P Require Import Prelude Bytes Varint PacketNumber Types.

(** ** Steps of the parse chains *)

(** A call of the base class: it works on the base subobject. *)
Definition zoom {A B} (get : A -> B) (set : B -> A -> A)
    (p : B * reader -> bool * (B * reader)) : A * reader -> bool * (A * reader) :=
  fun '(a, r) => let '(ok, (b, r')) := p (get a, r) in (ok, (set b a, r')).

(** A test of the fields read so far. *)
Definition guardM {F} (c : F -> bool) : F * reader -> bool * (F * reader) :=
  fun '(f, r) => (c f, (f, r)).

(** [r.read(view::wvec(&field, 1))]: one byte into an integer field. *)
Definition rd_byte_field {F} (get : F -> Z) (set : Z -> F -> F)
    : F * reader -> bool * (F * reader) :=
  rd_array_field (fun f => [get f]) (fun l f => set (default 0 (l !! 0%nat)) f).

(** ** [view::shift]: the overlapping move inside a span *)

(** The forward loop of [make_shift_fn]. *)
Fixpoint shift_up (range : list Z) (to from : nat) (i n : nat) : list Z :=
  match n with
  | O => range
  | S n' =>
      shift_up (<[(to + i)%nat := default 0 (range !! (from + i)%nat)]> range) to from (S i) n'
  end.

(** The backward loop: [i] counts down to 0. *)
Fixpoint shift_down (range : list Z) (to from : nat) (i : nat) : list Z :=
  match i with
  | O => range
  | S i' =>
      shift_down (<[(to + i')%nat := default 0 (range !! (from + i')%nat)]> range) to from i'
  end.

Definition shift (range : list Z) (to from len : Z) : bool * list Z :=
  let sz := size range in
  if (sz <=? to) || (sz <? from) then (false, range)
  else if (sz - to <? len) || (sz - from <? len) then (false, range)
  else if to <? from
  then (true, shift_up range (Z.to_nat to) (Z.to_nat from) 0 (Z.to_nat len))
  else (true, shift_down range (Z.to_nat to) (Z.to_nat from) (Z.to_nat len)).

(** ** [struct Packet] *)

Module Packet.
Definition parse {F} (set_flags : Z -> F -> F) : F * reader -> bool * (F * reader) :=
  fun '(f, r) =>
    if rd_empty r then (false, (f, r))
    else (true, (set_flags (rd_top r) f, rd_offset r 1)).

Definition parse_check {F} (set_flags : Z -> F -> F) (flags : F -> Z) (type : PacketType)
    : F * reader -> bool * (F * reader) :=
  parse set_flags ;&
  guardM (fun f =>
    if is_LongPacket type || bool_decide (type = VersionNegotiation)
    then PacketFlags.is_long (flags f)
    else if bool_decide (type = OneRTT) then PacketFlags.is_short (flags f)
    else true).

Definition len : Z := 1.

Definition render (flags : Z) : writer -> bool * writer := wr_fill flags 1.
End Packet.

(** ** [struct LongPacketBase] *)

Module LongPacketBase.
Record t := mk {
  flags : Z;
  version : Z;
  dstIDLen : Z;
  dstID : list Z;
  srcIDLen : Z;
  srcID : list Z;
}.
Definition set_flags v f := mk v (version f) (dstIDLen f) (dstID f) (srcIDLen f) (srcID f).
Definition set_version v f := mk (flags f) v (dstIDLen f) (dstID f) (srcIDLen f) (srcID f).
Definition set_dstIDLen v f := mk (flags f) (version f) v (dstID f) (srcIDLen f) (srcID f).
Definition set_dstID v f := mk (flags f) (version f) (dstIDLen f) v (srcIDLen f) (srcID f).
Definition set_srcIDLen v f := mk (flags f) (version f) (dstIDLen f) (dstID f) v (srcID f).
Definition set_srcID v f := mk (flags f) (version f) (dstIDLen f) (dstID f) (srcIDLen f) v.

Definition parse : t * reader -> bool * (t * reader) :=
  Packet.parse set_flags ;&
  guardM (fun f => PacketFlags.is_long (flags f)) ;&
  rd_num_field 4 version set_version ;&
  rd_byte_field dstIDLen set_dstIDLen ;&
  rd_field dstIDLen set_dstID ;&
  rd_byte_field srcIDLen set_srcIDLen ;&
  rd_field srcIDLen set_srcID.

Definition parse_check (type : PacketType) : t * reader -> bool * (t * reader) :=
  parse ;&
  guardM (fun f =>
    if is_LongPacket type then bool_decide (PacketFlags.type (flags f) (version f) = type)
    else if bool_decide (type = VersionNegotiation) then version f =? 0
    else true).

Definition len (f : t) : Z := Packet.len + 4 + 1 + size (dstID f) + 1 + size (srcID f).

Definition render_with_version (f : t) (first_byte ver : Z) : writer -> bool * writer :=
  if (0xff <? size (dstID f)) || (0xff <? size (srcID f)) then retM false
  else
    wr_fill first_byte 1 ;& write_num 4 ver ;&
    wr_fill (u8 (size (dstID f))) 1 ;& wr_write (dstID f) ;&
    wr_fill (u8 (size (srcID f))) 1 ;& wr_write (srcID f).

Definition render_with_pnlen (f : t) (type : PacketType) (pnlen : Z) : writer -> bool * writer :=
  if negb (packetnum.is_wire_len pnlen) then retM false
  else
    let val := make_packet_flags (version f) type pnlen false false in
    if val =? 0 then retM false
    else render_with_version f val (version f).

Definition render (f : t) : writer -> bool * writer := render_with_version f (flags f) (version f).
End LongPacketBase.

(** ** The template parameter [Partial] of the packet bodies *)

Class PartialPacket (P : Type) := {
  get_packet_type : PacketType;
  pp_base : P -> LongPacketBase.t;
  pp_length : P -> varint.Value;
  pp_parse : P * reader -> bool * (P * reader);
  pp_len : P -> bool -> Z;
  pp_render : P -> Z -> writer -> bool * writer;
}.
Arguments get_packet_type P {_}.

(** ** [struct InitialPacketPartial] *)

Module InitialPacketPartial.
Record t := mk {
  base : LongPacketBase.t;
  token_length : varint.Value;
  token : list Z;
  length : varint.Value;
}.
Definition set_base v f := mk v (token_length f) (token f) (length f).

Definition parse : t * reader -> bool * (t * reader) :=
  zoom base set_base (LongPacketBase.parse_check Initial) ;&
  varint.read_to (fun v f => mk (base f) v (token f) (length f)) ;&
  rd_field (fun f => varint.value (token_length f))
    (fun d f => mk (base f) (token_length f) d (length f)) ;&
  varint.read_to (fun v f => mk (base f) (token_length f) (token f) v).

(** Neither branch counts the bytes of [token] itself. *)
Definition len (f : t) (use_length_field : bool) : Z :=
  LongPacketBase.len (base f) +
  (if use_length_field then varint.len (token_length f)
   else varint.len (varint.of_uint (size (token f)))) +
  (if use_length_field then varint.len (length f) else 0).

Definition render (f : t) (pnlen : Z) : writer -> bool * writer :=
  LongPacketBase.render_with_pnlen (base f) Initial pnlen ;&
  varint.write (varint.of_uint (size (token f))) ;&
  wr_write (token f).
End InitialPacketPartial.

(** ** [template <PacketType type> struct HandshakeZeroRTTParital] *)

Module HandshakeZeroRTTParital.
Record t (type : PacketType) := mk { base : LongPacketBase.t; length : varint.Value }.
Arguments mk {type}. Arguments base {type}. Arguments length {type}.
Section ops.
Context {type : PacketType}.
Definition set_base v (f : t type) : t type := mk v (length f).

Definition parse : t type * reader -> bool * (t type * reader) :=
  zoom base set_base (LongPacketBase.parse_check type) ;&
  varint.read_to (fun v f => mk (base f) v).

Definition len (f : t type) (use_length_field : bool) : Z :=
  LongPacketBase.len (base f) + (if use_length_field then varint.len (length f) else 0).

Definition render (f : t type) (pnlen : Z) : writer -> bool * writer :=
  LongPacketBase.render_with_pnlen (base f) type pnlen.
End ops.
End HandshakeZeroRTTParital.

#[global] Instance PartialPacket_Initial : PartialPacket InitialPacketPartial.t := {
  get_packet_type := Initial;
  pp_base := InitialPacketPartial.base;
  pp_length := InitialPacketPartial.length;
  pp_parse := InitialPacketPartial.parse;
  pp_len := InitialPacketPartial.len;
  pp_render := InitialPacketPartial.render;
}.

#[global] Instance PartialPacket_HandshakeZeroRTT type :
    PartialPacket (HandshakeZeroRTTParital.t type) := {
  get_packet_type := type;
  pp_base := HandshakeZeroRTTParital.base;
  pp_length := HandshakeZeroRTTParital.length;
  pp_parse := HandshakeZeroRTTParital.parse;
  pp_len := HandshakeZeroRTTParital.len;
  pp_render := HandshakeZeroRTTParital.render;
}.

(** * Lemmas *)

(** ** [view::shift] is a memory move *)

Definition moved (range : list Z) (to from n : nat) : list Z :=
  take to range ++ take n (drop from range) ++ drop (to + n) range.

Lemma lookup_moved range to from n k :
  (to + n <= length range)%nat -> (from + n <= length range)%nat ->
  moved range to from n !! k =
    if decide (to <= k < to + n)%nat then range !! (from + (k - to))%nat else range !! k.
Proof.
  intros H1 H2. unfold moved.
  assert (Ht : length (take to range) = to) by (rewrite length_take; lia).
  assert (Hn : length (take n (drop from range)) = n) by (rewrite length_take, length_drop; lia).
  case_decide as Hk.
  - rewrite lookup_app_r by lia. rewrite lookup_app_l by lia.
    rewrite lookup_take_lt, lookup_drop by lia. f_equal. lia.
  - destruct (decide (k < to)%nat).
    + rewrite lookup_app_l by lia. by rewrite lookup_take_lt by lia.
    + rewrite !lookup_app_r by lia. rewrite lookup_drop. f_equal. lia.
Qed.

Lemma shift_up_lookup to from n i range k :
  (to < from)%nat -> (from + i + n <= length range)%nat ->
  shift_up range to from i n !! k =
    if decide (to + i <= k < to + i + n)%nat then range !! (from + (k - to))%nat else range !! k.
Proof.
  intros Hlt. revert i range. induction n as [| n IH]; intros i range Hl; simpl.
  { case_decide; [lia | done]. }
  rewrite IH by (rewrite ?length_insert; lia).
  destruct (lookup_lt_is_Some_2 range (from + i)%nat) as [x Hx]; [lia |].
  rewrite Hx. simpl. repeat case_decide; try lia.
  - by rewrite list_lookup_insert_ne by lia.
  - assert (k = (to + i)%nat) as -> by lia. rewrite list_lookup_insert by lia.
    rewrite <- Hx. destruct (decide _); [| lia]. f_equal. lia.
  - by rewrite list_lookup_insert_ne by lia.
Qed.

Lemma shift_down_lookup to from i range k :
  (from <= to)%nat -> (to + i <= length range)%nat ->
  shift_down range to from i !! k =
    if decide (to <= k < to + i)%nat then range !! (from + (k - to))%nat else range !! k.
Proof.
  intros Hle. revert range. induction i as [| i IH]; intros range Hl; simpl.
  { case_decide; [lia | done]. }
  rewrite IH by (rewrite ?length_insert; lia).
  destruct (lookup_lt_is_Some_2 range (from + i)%nat) as [x Hx]; [lia |].
  rewrite Hx. simpl. repeat case_decide; try lia.
  - by rewrite list_lookup_insert_ne by lia.
  - assert (k = (to + i)%nat) as -> by lia. rewrite list_lookup_insert by lia.
    rewrite <- Hx. destruct (decide _); [| lia]. f_equal. lia.
  - by rewrite list_lookup_insert_ne by lia.
Qed.

(** Whichever loop is taken, the bytes arrive as if the source had been
    read completely before the first store. *)
Lemma shift_moves range to from len :
  0 <= to < size range -> 0 <= from -> 0 <= len ->
  to + len <= size range -> from + len <= size range ->
  shift range to from len =
    (true, moved range (Z.to_nat to) (Z.to_nat from) (Z.to_nat len)).
Proof.
  intros H1 H2 H3 H4 H5. unfold shift. rewrite (leb_false (size range)), !ltb_false by lia.
  cbn [orb]. unfold size in *.
  destruct (Z.ltb_spec to from); f_equal; apply list_eq; intros k; rewrite lookup_moved by lia.
  - rewrite shift_up_lookup by lia. by rewrite Nat.add_0_r.
  - by rewrite shift_down_lookup by lia.
Qed.

(** ** Writing and reading header fields *)

Lemma emits_fill x n : 0 <= n <= u64_max -> emits (wr_fill x n) (replicate (Z.to_nat n) x).
Proof.
  intros Hn w Hw. unfold size. rewrite length_replicate, Z2Nat.id by lia. split; intros Hs.
  - apply wr_fill_put; auto; lia.
  - unfold wr_fill. cbn [fst]. destruct Hw. unfold wr_room, rsubstr, size in *.
    rewrite ltb_false, ltb_true by lia. apply eqb_false. rewrite length_take, length_drop. lia.
Qed.

Lemma emits_byte x : emits (wr_fill x 1) [x].
Proof. apply (emits_fill x 1). unfold u64_max. lia. Qed.

Lemma emits_num4 v : emits (write_num 4 v) (write_be 4 v).
Proof. apply emits_num. Qed.

Lemma reads_zoom {A B} (get : A -> B) set p a bs rest b' a' :
  reads_at p (get a) bs rest b' -> set b' a = a' -> reads_at (zoom get set p) a bs rest a'.
Proof. intros H <- r Hr Hrem. unfold zoom. by rewrite (H r). Qed.

Lemma reads_guard {F} (c : F -> bool) f rest : c f = true -> reads_at (guardM c) f [] rest f.
Proof. intros H [] Hr _. unfold guardM, rd_advance. simpl. by rewrite H, Nat.add_0_r. Qed.

Lemma reads_byte {F} (get : F -> Z) set f b rest f' :
  set b f = f' -> reads_at (rd_byte_field get set) f [b] rest f'.
Proof. intros <-. by apply reads_array. Qed.

Lemma rd_top_head r b l : rd_remain r = b :: l -> rd_top r = b.
Proof. intros E. unfold rd_top. rewrite E, size_cons. pose proof (size_nonneg l). by rewrite leb_true by lia. Qed.

Lemma rd_skip_one r b l : rd_ok r -> rd_remain r = b :: l -> rd_offset r 1 = rd_advance r 1.
Proof.
  intros H E. rewrite rd_remain_eq in E by done. apply (f_equal length) in E.
  rewrite length_drop in E. simpl in E. unfold rd_offset, rd_offset_internal, size.
  by rewrite ltb_false by lia.
Qed.

Lemma reads_packet {F} (set : Z -> F -> F) f b rest f' :
  set b f = f' -> reads_at (Packet.parse set) f [b] rest f'.
Proof.
  intros <- r Hr Hrem. unfold Packet.parse.
  erewrite rd_empty_false, rd_top_head, rd_skip_one by eauto. done.
Qed.

Lemma advances_zoom {A B} (get : A -> B) set p : advances p -> advances (zoom get set p).
Proof.
  intros H f r b f' r' Hr. unfold zoom. destruct (p (get f, r)) as [ok [x r1]] eqn:E.
  intros [= <- <- <-]. by apply (H _ _ _ _ _ Hr E).
Qed.

Lemma advances_guard {F} (c : F -> bool) : advances (guardM c).
Proof. intros f r b f' r' Hr [= <- <- <-]. auto. Qed.

(** A packet whose first byte has been read is not empty. *)
Lemma packet_parse_cases {F} (set : Z -> F -> F) f r :
  rd_ok r ->
  (rd_remain r = [] /\ Packet.parse set (f, r) = (false, (f, r))) \/
  (exists b l, rd_remain r = b :: l /\ Packet.parse set (f, r) = (true, (set b f, rd_advance r 1))).
Proof.
  intros Hr. destruct (rd_remain r) as [| b l] eqn:E.
  - left. split; [done |]. unfold Packet.parse. by rewrite rd_empty_true.
  - right. exists b, l. split; [done |]. by apply (reads_packet set f b l).
Qed.

Lemma advances_packet {F} (set : Z -> F -> F) : advances (Packet.parse set).
Proof.
  intros f r b f' r' Hr. destruct (packet_parse_cases set f r Hr) as [[_ ->] | (x & l & E & ->)].
  - intros [= <- <- <-]. auto.
  - intros [= <- <- <-]. split_and!; [done | simpl; lia |].
    apply rd_advance_ok; [done |]. rewrite E. simpl. lia.
Qed.

Lemma advances_byte {F} (get : F -> Z) set : advances (rd_byte_field get set).
Proof. apply advances_array. Qed.

#[export] Hint Resolve emits_byte emits_num4 advances_zoom advances_guard advances_packet
  advances_byte : wire.

(** A short-circuit chain that starts with a read of the first byte has
    consumed at least that byte when it succeeds. *)
Definition progresses {F} (p : F * reader -> bool * (F * reader)) : Prop :=
  forall f r f' r', rd_ok r -> p (f, r) = (true, (f', r')) -> (rd_index r < rd_index r')%nat.

Lemma progresses_andM {F} (p q : F * reader -> bool * (F * reader)) :
  progresses p -> advances p -> advances q -> progresses (p ;& q).
Proof.
  intros Hp Ha Hq f r f2 r2 Hr E. apply andM_true_inv in E as ([f1 r1] & E1 & E2).
  pose proof (Hp _ _ _ _ Hr E1). destruct (Ha _ _ _ _ _ Hr E1) as (_ & _ & Hr1).
  destruct (Hq _ _ _ _ _ Hr1 E2) as (_ & H2 & _). lia.
Qed.

Lemma progresses_packet {F} (set : Z -> F -> F) : progresses (Packet.parse set).
Proof.
  intros f r f' r' Hr. destruct (packet_parse_cases set f r Hr) as [[_ ->] | (x & l & E & ->)];
    [discriminate |]. intros [= <- <-]. simpl. lia.
Qed.

Lemma progresses_zoom {A B} (get : A -> B) set p : progresses p -> progresses (zoom get set p).
Proof.
  intros H f r f' r' Hr. unfold zoom. destruct (p (get f, r)) as [ok [x r1]] eqn:E.
  intros [= -> <- <-]. by apply (H _ _ _ _ Hr E).
Qed.

#[export] Hint Resolve progresses_andM progresses_packet progresses_zoom : wire.

(** ** The long header *)

Definition base_wf (f : LongPacketBase.t) : Prop :=
  LongPacketBase.version f = 1 /\
  size (LongPacketBase.dstID f) <= 255 /\ size (LongPacketBase.srcID f) <= 255.

(** The header that starts with the byte [b]. *)
Definition base_hdr (f : LongPacketBase.t) (b ver : Z) : list Z :=
  [b] ++ write_be 4 ver ++ [size (LongPacketBase.dstID f)] ++ LongPacketBase.dstID f ++
  [size (LongPacketBase.srcID f)] ++ LongPacketBase.srcID f.

(** What the receiver of that header holds. *)
Definition base_canon (f : LongPacketBase.t) (b ver : Z) : LongPacketBase.t :=
  LongPacketBase.mk b ver (size (LongPacketBase.dstID f)) (LongPacketBase.dstID f)
    (size (LongPacketBase.srcID f)) (LongPacketBase.srcID f).

Lemma base_hdr_size f b ver : size (base_hdr f b ver) = LongPacketBase.len f.
Proof.
  unfold base_hdr, LongPacketBase.len, Packet.len. autorewrite with size.
  assert (size (write_be 4 ver) = 4) as -> by (unfold size; by rewrite length_write_be). lia.
Qed.

Lemma emits_base f b ver :
  size (LongPacketBase.dstID f) <= 255 -> size (LongPacketBase.srcID f) <= 255 ->
  emits (LongPacketBase.render_with_version f b ver) (base_hdr f b ver).
Proof.
  intros H1 H2. unfold LongPacketBase.render_with_version.
  pose proof (size_nonneg (LongPacketBase.dstID f)). pose proof (size_nonneg (LongPacketBase.srcID f)).
  rewrite !ltb_false, !u8_small by (unfold is_byte; lia). cbn [orb]. unfold base_hdr.
  repeat apply emits_andM; auto with wire.
Qed.

Lemma reads_base f0 f b ver rest :
  PacketFlags.is_long b = true -> 0 <= ver < 2 ^ 32 ->
  reads_at LongPacketBase.parse f0 (base_hdr f b ver) rest (base_canon f b ver).
Proof.
  intros Hb Hv. unfold LongPacketBase.parse, base_hdr.
  eapply reads_andM; [by apply reads_packet |]. rewrite <- (app_nil_l (write_be 4 ver ++ _)).
  eapply reads_andM; [by apply reads_guard |].
  eapply reads_andM; [by eapply reads_num; [apply length_write_be |] |].
  do 2 (eapply reads_andM; [by apply reads_byte || by apply reads_field |]).
  eapply reads_andM; [by apply reads_byte |]. apply reads_field; [done |].
  unfold base_canon. cbn. rewrite read_write_be, Z.mod_small by (change (8 * _) with 32; lia).
  done.
Qed.

(** The types that the first byte of a long header can name. *)
Lemma long_flags t n :
  has_LengthField t = true -> 1 <= n <= 4 ->
  let b := make_packet_flags 1 t n false false in
  b <> 0 /\ PacketFlags.is_long b = true /\ PacketFlags.type b 1 = t /\
  PacketFlags.packet_number_length b = n.
Proof.
  intros Ht Hn. assert (n = 1 \/ n = 2 \/ n = 3 \/ n = 4) as Hn' by lia.
  destruct t; try discriminate; destruct Hn' as [-> | [-> | [-> | ->]]]; done.
Qed.

Lemma emits_with_pnlen f t n :
  base_wf f -> has_LengthField t = true -> 1 <= n <= 4 ->
  emits (LongPacketBase.render_with_pnlen f t n)
    (base_hdr f (make_packet_flags 1 t n false false) 1).
Proof.
  intros (Hv & H1 & H2) Ht Hn. unfold LongPacketBase.render_with_pnlen.
  unfold packetnum.is_wire_len. rewrite !leb_true, Hv by lia. cbn [negb andb].
  destruct (long_flags t n Ht Hn) as (Hb & _). rewrite eqb_false by done. by apply emits_base.
Qed.

(** A header that was rendered was well formed. *)
Lemma with_pnlen_ok f t n w w' :
  has_LengthField t = true -> LongPacketBase.render_with_pnlen f t n w = (true, w') -> base_wf f.
Proof.
  intros Ht. unfold LongPacketBase.render_with_pnlen, LongPacketBase.render_with_version.
  destruct (negb _); [done |]. destruct (Z.eqb_spec (LongPacketBase.version f) 1) as [E | E].
  - destruct (_ =? 0); [done |]. unfold base_wf.
    destruct (Z.ltb_spec 0xff (size (LongPacketBase.dstID f))); [done |].
    destruct (Z.ltb_spec 0xff (size (LongPacketBase.srcID f))); [done |]. lia.
  - assert (packet_type_to_mask t (LongPacketBase.version f) = 0) as Hm
      by (unfold packet_type_to_mask; rewrite (eqb_false _ 1) by done; by destruct t).
    unfold make_packet_flags. by rewrite Hm.
Qed.

Lemma reads_check_long f0 f b t rest :
  PacketFlags.type b 1 = t -> is_LongPacket t = true -> 
  reads_at (LongPacketBase.parse_check t) f0 (base_hdr f b 1) rest (base_canon f b 1).
Proof.
  intros Ht Hl. rewrite <- (app_nil_r (base_hdr f b 1)). unfold LongPacketBase.parse_check.
  eapply reads_andM; [apply reads_base; [| lia] | apply reads_guard].
  - unfold PacketFlags.type, PacketFlags.is_long in *. destruct (PacketFlags.is_short b); [| done].
    by subst.
  - rewrite Hl. by apply bool_decide_eq_true.
Qed.

(** ** What a packet body relies on *)

Class PartialLaws (P : Type) `{PartialPacket P} := {
  pp_wf : P -> Prop;
  pp_hdr : P -> Z -> list Z;
  pp_canon : P -> Z -> varint.Value -> P;
  pp_uncounted : P -> Z;
  pp_has_length : has_LengthField (get_packet_type P) = true;
  pp_render_emits p n : pp_wf p -> 1 <= n <= 4 ->
    emits (pp_render p n) (pp_hdr p (make_packet_flags 1 (get_packet_type P) n false false));
  pp_render_ok p n w w' : pp_render p n w = (true, w') -> pp_wf p;
  pp_parse_reads p0 p b l rest : pp_wf p -> PacketFlags.type b 1 = get_packet_type P ->
    varint.writable l ->
    reads_at pp_parse p0 (pp_hdr p b ++ varint.enc l) rest (pp_canon p b (varint.norm l));
  pp_parse_advances : advances pp_parse;
  pp_parse_progresses : progresses pp_parse;
  pp_wf_base p : pp_wf p -> base_wf (pp_base p);
  pp_base_canon p b l : pp_base (pp_canon p b l) = base_canon (pp_base p) b 1;
  pp_length_canon p b l : pp_length (pp_canon p b l) = l;
  pp_len_canon p b l : pp_wf p -> varint.writable l ->
    pp_len (pp_canon p b (varint.norm l)) true = size (pp_hdr p b ++ varint.enc l) - pp_uncounted p;
  pp_hdr_base p : exists tl, forall b', pp_hdr p b' = base_hdr (pp_base p) b' 1 ++ tl;
}.

#[global] Instance PartialLaws_Initial : PartialLaws InitialPacketPartial.t.
Proof.
  refine {|
    pp_wf p := base_wf (InitialPacketPartial.base p) /\ size (InitialPacketPartial.token p) < 2 ^ 62;
    pp_hdr p b := base_hdr (InitialPacketPartial.base p) b 1 ++
      varint.enc (varint.of_uint (size (InitialPacketPartial.token p))) ++
      InitialPacketPartial.token p;
    pp_canon p b l := InitialPacketPartial.mk (base_canon (InitialPacketPartial.base p) b 1)
      (varint.norm (varint.of_uint (size (InitialPacketPartial.token p))))
      (InitialPacketPartial.token p) l;
    pp_uncounted p := size (InitialPacketPartial.token p) |};
    cbn [get_packet_type pp_render pp_parse pp_base pp_length pp_len PartialPacket_Initial]; try done.
  - intros p n [Hw Ht] Hn. unfold InitialPacketPartial.render.
    apply emits_andM; [by apply emits_with_pnlen |]. apply emits_andM; [| apply emits_write].
    apply varint.emits_varint, writable_uint. pose proof (size_nonneg (InitialPacketPartial.token p)). lia.
  - intros p n w w' E. unfold InitialPacketPartial.render in E.
    apply andM_true_inv in E as (w1 & E1 & E). apply with_pnlen_ok in E1; [| done].
    apply andM_true_inv in E as (w2 & E2 & _). split; [done |].
    destruct (Z.lt_ge_cases (size (InitialPacketPartial.token p)) (2 ^ 62)); [done |].
    rewrite varint.write_refuses in E2; [done | apply size_nonneg |].
    intros [_ Hw]. unfold varint.border in Hw. simpl in Hw. lia.
  - intros p0 p b l rest [Hw Ht] Hb Hl. unfold InitialPacketPartial.parse. rewrite <- !app_assoc.
    eapply reads_andM; [eapply reads_zoom; [by apply reads_check_long | done] |].
    eapply reads_andM; [eapply varint.reads_varint; [| done] |].
    { apply writable_uint. pose proof (size_nonneg (InitialPacketPartial.token p)). lia. }
    eapply reads_andM; [by apply reads_field |]. by eapply varint.reads_varint.
  - unfold InitialPacketPartial.parse, LongPacketBase.parse_check, LongPacketBase.parse. auto 20 with wire.
  - unfold InitialPacketPartial.parse, LongPacketBase.parse_check, LongPacketBase.parse. auto 20 with wire.
  - by intros p [].
  - intros p b l [_ Ht] Hl. unfold InitialPacketPartial.len.
    cbn [InitialPacketPartial.base InitialPacketPartial.token_length InitialPacketPartial.length].
    assert (Hw : varint.writable (varint.of_uint (size (InitialPacketPartial.token p))))
      by (apply writable_uint; pose proof (size_nonneg (InitialPacketPartial.token p)); lia).
    rewrite !size_app, base_hdr_size, !varint.enc_size, !varint.len_norm by done.
    unfold LongPacketBase.len, base_canon. cbn. lia.
  - intros p. eauto.
Defined.

Section HandshakeZeroRTTLaws.
Context (type : PacketType) (Htype : has_LengthField type = true).

Definition HandshakeZeroRTT_laws : PartialLaws (HandshakeZeroRTTParital.t type).
Proof using Htype.
  refine {|
    pp_wf p := base_wf (HandshakeZeroRTTParital.base p);
    pp_hdr p b := base_hdr (HandshakeZeroRTTParital.base p) b 1;
    pp_canon p b l := HandshakeZeroRTTParital.mk
      (base_canon (HandshakeZeroRTTParital.base p) b 1) l;
    pp_uncounted p := 0 |};
    cbn [get_packet_type pp_render pp_parse pp_base pp_length pp_len PartialPacket_HandshakeZeroRTT];
    try done.
  - intros p n Hw Hn. by apply emits_with_pnlen.
  - intros p n w w' E. by apply with_pnlen_ok in E.
  - intros p0 p b l rest Hw Hb Hl. unfold HandshakeZeroRTTParital.parse.
    eapply reads_andM; [eapply reads_zoom; [apply reads_check_long; [done |] | done] |].
    { by destruct type. }
    by eapply varint.reads_varint.
  - unfold HandshakeZeroRTTParital.parse, LongPacketBase.parse_check, LongPacketBase.parse. auto 20 with wire.
  - unfold HandshakeZeroRTTParital.parse, LongPacketBase.parse_check, LongPacketBase.parse. auto 20 with wire.
  - intros p b l _ Hl. unfold HandshakeZeroRTTParital.len.
    cbn [HandshakeZeroRTTParital.base HandshakeZeroRTTParital.length].
    rewrite !size_app, base_hdr_size, varint.enc_size, varint.len_norm by done.
    unfold LongPacketBase.len, base_canon. cbn. lia.
  - intros p. exists []. intros b. by rewrite app_nil_r.
Defined.
End HandshakeZeroRTTLaws.

#[global] Instance PartialLaws_Handshake : PartialLaws (HandshakeZeroRTTParital.t Handshake) :=
  HandshakeZeroRTT_laws Handshake eq_refl.
#[global] Instance PartialLaws_ZeroRTT : PartialLaws (HandshakeZeroRTTParital.t ZeroRTT) :=
  HandshakeZeroRTT_laws ZeroRTT eq_refl.
