(* ===== verification/LongPacket.v ===== *)
(** * Long header packets (src/src/include/fnet/quic/packet/long_plain_cipher.h)

    [LongPacketPlainBase<Partial>] and [LongPacketCipherBase<Partial>] over
    any [PartialPacket]: rendering from a finished payload ([render]),
    rendering around a payload that is written directly into the packet
    buffer ([render_in_place]), and parsing. The payload callback of
    [render_in_place] is a writer action with a state of its own. *)

From stdpp Require Import base list.
From Stdlib Require Import ZArith Lia.
From S2P Require Import Prelude Bytes Varint PacketNumber Types PacketBase.

(** [packetnum::read(r, field, len)]. *)
Definition rd_pn_field {F} (len : F -> Z) (set : Z -> F -> F)
    : F * reader -> bool * (F * reader) :=
  fun '(f, r) =>
    match packetnum.read r (len f) with
    | (Some v, r') => (true, (set (packetnum.wvalue v) f, r'))
    | (None, r') => (false, (f, r'))
    end.

(** Stores through a sub-span: [bs] over the bytes from [pos] on. *)
Definition store_at (l : list Z) (pos : nat) (bs : list Z) : list Z :=
  take pos l ++ bs ++ drop (pos + length bs) l.

(** Stores through the span [remain()] taken when the index was [i]. *)
Definition shift_at (i : nat) (to from len : Z) (w : writer) : bool * writer :=
  let '(ok, rem) := shift (drop i (wr_buf w)) to from len in
  (ok, mk_writer (take i (wr_buf w) ++ rem) (wr_index w)).

(** A write action that also carries the state of the payload callback. *)
Definition liftW {S} (p : writer -> bool * writer) : writer * S -> bool * (writer * S) :=
  fun '(w, s) => let '(ok, w') := p w in (ok, (w', s)).

(** ** [template <class Partial> struct LongPacketPlainBase] *)

Module LongPacketPlainBase.
Record t (P : Type) := mk { part : P; wire_pn : Z; payload : list Z; auth_tag : list Z }.
Arguments mk {P}. Arguments part {P}. Arguments wire_pn {P}.
Arguments payload {P}. Arguments auth_tag {P}.
Section ops.
Context {P : Type} `{PartialPacket P}.
Definition set_part (v : P) (f : t P) : t P := mk v (wire_pn f) (payload f) (auth_tag f).
Definition set_wire_pn v (f : t P) := mk (part f) v (payload f) (auth_tag f).
Definition set_payload v (f : t P) := mk (part f) (wire_pn f) v (auth_tag f).
Definition set_auth_tag v (f : t P) := mk (part f) (wire_pn f) (payload f) v.
Definition pnlen (f : t P) : Z :=
  PacketFlags.packet_number_length (LongPacketBase.flags (pp_base (part f))).

Definition parse (tag_len : Z) : t P * reader -> bool * (t P * reader) :=
  zoom part set_part pp_parse ;&
  rd_pn_field pnlen set_wire_pn ;&
  rd_field (fun f => u64 (varint.value (pp_length (part f)) - pnlen f - tag_len)) set_payload ;&
  rd_field (fun _ => tag_len) set_auth_tag.

Definition length_value (pnlen payload_size padding auth_tag_len : Z) : varint.Value :=
  varint.of_uint (u64 (pnlen + payload_size + padding + auth_tag_len)).

Definition head_len (f : t P) (use_length_field : bool) (pn_len auth_tag_len padding : Z) : Z :=
  pp_len (part f) use_length_field +
  (if use_length_field then 0
   else varint.len (length_value pn_len (size (payload f)) padding auth_tag_len)).

Definition len (f : t P) (use_length_field : bool) (pn_len auth_tag_len padding : Z) : Z :=
  head_len f use_length_field pn_len auth_tag_len padding +
  (if use_length_field then pnlen f else pn_len) +
  size (payload f) +
  (if use_length_field then size (auth_tag f) else padding + auth_tag_len).

Definition render (f : t P) (pn : packetnum.WireVal) (auth_tag_len padding : Z)
    : writer -> bool * writer :=
  pp_render (part f) (packetnum.wlen pn) ;&
  varint.write (length_value (packetnum.wlen pn) (size (payload f)) padding auth_tag_len) ;&
  packetnum.write pn ;&
  wr_fill 0 padding ;&
  wr_write (payload f) ;&
  wr_fill 0 auth_tag_len.

(** The lambda [write_length_pn_payload_tag]. The temporary writer shares
    the bytes of [rem], so what it wrote is in [w]'s buffer afterwards. *)
Definition write_length_pn_payload_tag {S} (pn : packetnum.WireVal)
    (payload_render : writer * S -> bool * (writer * S)) (auth_tag_len padding : Z)
    : writer * S -> bool * (writer * S) :=
  fun '(w, s) =>
    let rem := wr_remain w in
    let pn_len := packetnum.wlen pn in
    let min_ := varint.len (varint.of_uint (u64 (pn_len + padding + auth_tag_len))) in
    let max_ := varint.len (varint.of_uint (size rem)) in
    if max_ <? min_ then (false, (w, s))
    else
      let reserved := u64 (max_ + pn_len + padding + auth_tag_len) in
      if size rem <? reserved then (false, (w, s))
      else
        let usable := size rem - reserved in
        let '(ok, (tmpw, s)) := payload_render (new_writer (rsubstr rem reserved usable), s) in
        let w1 := mk_writer (store_at (wr_buf w) (wr_index w + Z.to_nat reserved) (wr_buf tmpw))
                            (wr_index w) in
        if negb ok then (false, (w1, s))
        else
          let written_size := Z.of_nat (wr_index tmpw) in
          let length_filed_value := length_value pn_len written_size padding auth_tag_len in
          let pre_reserved := u64 (varint.len length_filed_value + pn_len + padding) in
          liftW (varint.write length_filed_value ;& packetnum.write pn ;& wr_fill 0 padding ;&
                 shift_at (wr_index w) pre_reserved reserved written_size ;&
                 (fun w => wr_fill 0 auth_tag_len (wr_offset w written_size))) (w1, s).

Definition render_in_place {S} (f : t P) (pn : packetnum.WireVal)
    (payload_render : writer * S -> bool * (writer * S)) (auth_tag_len padding : Z)
    : writer * S -> bool * (writer * S) :=
  liftW (pp_render (part f) (packetnum.wlen pn)) ;&
  write_length_pn_payload_tag pn payload_render auth_tag_len padding.
End ops.
End LongPacketPlainBase.

(** ** [template <class Partial> struct LongPacketCipherBase] *)

Module LongPacketCipherBase.
Record t (P : Type) := mk { part : P; protected_payload : list Z; auth_tag : list Z }.
Arguments mk {P}. Arguments part {P}. Arguments protected_payload {P}. Arguments auth_tag {P}.
Section ops.
Context {P : Type} `{PartialPacket P}.
Definition set_part (v : P) (f : t P) : t P := mk v (protected_payload f) (auth_tag f).

Definition parse (tag_len : Z) : t P * reader -> bool * (t P * reader) :=
  zoom part set_part pp_parse ;&
  rd_field (fun f => u64 (varint.value (pp_length (part f)) - tag_len))
    (fun v f => mk (part f) v (auth_tag f)) ;&
  rd_field (fun _ => tag_len) (fun v f => mk (part f) (protected_payload f) v).

Definition head_len (f : t P) : Z := pp_len (part f) true.
Definition len (f : t P) : Z := head_len f + size (protected_payload f) + size (auth_tag f).
End ops.
End LongPacketCipherBase.

(** * Lemmas *)

Lemma reads_pn {F} (len : F -> Z) set f k v rest f' :
  len f = k -> 1 <= k <= 4 -> set (v mod 2 ^ (8 * k)) f = f' ->
  reads_at (rd_pn_field len set) f (write_be (Z.to_nat k) v) rest f'.
Proof.
  intros Hl Hk <- r Hr Hrem. unfold rd_pn_field.
  rewrite Hl, (packetnum.read_pn k v r rest) by done. by rewrite length_write_be.
Qed.

Lemma advances_pn {F} (len : F -> Z) set : advances (rd_pn_field len set).
Proof.
  intros f r b f' r' Hr. unfold rd_pn_field, packetnum.read.
  destruct (negb _); [intros [= <- <- <-]; auto |].
  destruct (read_internal r (len f)) as [[d ok] r1] eqn:E. apply read_internal_advances in E; [| done].
  destruct ok; intros [= <- <- <-]; auto.
Qed.

#[export] Hint Resolve advances_pn : wire.

(** [writes w bs w']: [w'] is [w] with [bs] appended, whatever the bytes
    after them are. *)
Definition writes (w : writer) (bs : list Z) (w' : writer) : Prop :=
  wr_ok w' /\ length (wr_buf w') = length (wr_buf w) /\
  wr_index w' = (wr_index w + length bs)%nat /\
  take (wr_index w') (wr_buf w') = take (wr_index w) (wr_buf w) ++ bs.

Lemma writes_put w bs : wr_ok w -> size bs <= wr_room w -> writes w bs (wr_put w bs).
Proof.
  intros Hw Hs. pose proof (wr_put_ok w bs Hw Hs) as Hok.
  pose proof (wr_put_written w bs Hw Hs) as Hwr. rewrite !wr_written_eq in Hwr by done.
  unfold writes. split_and!; auto. destruct Hw. unfold wr_put, wr_room, size in *. simpl.
  rewrite !length_app, length_take, length_drop. lia.
Qed.

Lemma writes_trans w1 a w2 b w3 : writes w1 a w2 -> writes w2 b w3 -> writes w1 (a ++ b) w3.
Proof.
  intros (A1 & A2 & A3 & A4) (B1 & B2 & B3 & B4). unfold writes. split_and!; auto.
  - congruence.
  - rewrite length_app. lia.
  - by rewrite B4, A4, <- app_assoc.
Qed.

Lemma writes_room w bs w' : writes w bs w' -> wr_room w' = wr_room w - size bs.
Proof. intros (_ & A2 & A3 & _). unfold wr_room, size. lia. Qed.

Lemma writes_written w bs w' : wr_ok w -> writes w bs w' -> wr_written w' = wr_written w ++ bs.
Proof. intros Hw (A1 & _ & _ & A4). by rewrite !wr_written_eq, A4. Qed.

(** [writes] only looks at the part before the index. *)
Lemma writes_congr w w0 bs w' :
  wr_index w0 = wr_index w -> length (wr_buf w0) = length (wr_buf w) ->
  take (wr_index w) (wr_buf w0) = take (wr_index w) (wr_buf w) ->
  writes w0 bs w' -> writes w bs w'.
Proof. intros E1 E2 E3 (A1 & A2 & A3 & A4). unfold writes. rewrite E1, E3 in *. split_and!; auto; congruence. Qed.

Lemma length_store_at l pos bs : (pos + length bs <= length l)%nat -> length (store_at l pos bs) = length l.
Proof. intros. unfold store_at. rewrite !length_app, length_take, length_drop. lia. Qed.

Lemma store_at_suffix l pos bs :
  (pos + length bs = length l)%nat ->
  store_at l pos bs = take pos l ++ bs.
Proof. intros H. unfold store_at. rewrite drop_ge by lia. by rewrite app_nil_r. Qed.

Lemma len_uint_mono a b :
  0 <= a <= b -> b < 2 ^ 62 -> varint.len (varint.of_uint a) <= varint.len (varint.of_uint b).
Proof.
  intros H1 H2. unfold varint.len, varint.min_len, varint.in_range, varint.border. simpl. zcases.
Qed.

Lemma len_uint_range a :
  0 <= a < 2 ^ 62 -> 1 <= varint.len (varint.of_uint a) <= 8.
Proof. unfold varint.len, varint.min_len, varint.in_range, varint.border. simpl. zcases. Qed.

(** Moving the payload down behind the fields that were written last. *)
Lemma shift_behind w pre bs junk R :
  wr_ok w -> (length pre <= R)%nat ->
  size pre < wr_room w ->
  drop (wr_index w + R) (wr_buf w) = bs ++ junk ->
  (R + length bs <= length (wr_buf w) - wr_index w)%nat ->
  exists y, shift_at (wr_index w) (size pre) (Z.of_nat R) (size bs) (wr_put w pre) = (true, y) /\
    writes w (pre ++ bs) (wr_offset y (size bs)).
Proof.
  intros Hw HR Hpre Hbs Hlen. pose proof Hw as [Hi Hb].
  set (i := wr_index w) in *. set (B := wr_buf w) in *. unfold wr_room in Hpre.
  fold i B in Hpre. unfold size in *.
  assert (Hti : length (take i B) = i) by (rewrite length_take; lia).
  assert (Hd : drop i (wr_buf (wr_put w pre)) = pre ++ drop (i + length pre) B).
  { unfold wr_put. simpl. by rewrite drop_app_length' by done. }
  unfold shift_at. rewrite Hd. rewrite shift_moves;
    unfold size; rewrite ?length_app, ?length_drop; try lia.
  rewrite !Nat2Z.id. eexists. split; [done |]. unfold moved.
  rewrite take_app_length, drop_app_ge by done. rewrite drop_drop.
  replace (i + length pre + (R - length pre))%nat with (i + R)%nat by lia.
  rewrite Hbs, take_app_length. unfold wr_put at 1. cbn [wr_buf wr_index].
  assert (Hti' : take i (take (wr_index w) (wr_buf w) ++ pre ++ drop (wr_index w + length pre) (wr_buf w))
          = take i B) by (fold i B; by rewrite take_app_length' by done).
  rewrite Hti'. clear Hti'. set (T := drop _ (pre ++ _)).
  assert (HT : length T = (length B - i - length pre - length bs)%nat).
  { unfold T. rewrite length_drop, length_app, length_drop. lia. }
  set (B' := take i B ++ pre ++ bs ++ T).
  assert (HB' : length B' = length B) by (unfold B'; rewrite !length_app; lia).
  unfold wr_offset, wr_offset_internal. cbn [wr_buf wr_index wr_put]. fold i B.
  assert ((size B' - Z.of_nat (i + length pre) <? Z.of_nat (length bs)) = false) as ->.
  { apply ltb_false. unfold size. lia. }
  rewrite Nat2Z.id. unfold writes, wr_ok. cbn [wr_buf wr_index]. fold i B. rewrite HB'.
  unfold size in *. split_and!; [lia | lia | done | rewrite length_app; lia |].
  unfold B'. rewrite !app_assoc. rewrite take_app_length'; [done |]. rewrite !length_app. lia.
Qed.

(** ** The body of a long packet *)

(** Length field, packet number and padding; then payload and tag. *)
Definition body_front (pn : packetnum.WireVal) (n padding tag : Z) : list Z :=
  varint.enc (LongPacketPlainBase.length_value (packetnum.wlen pn) n padding tag) ++
  write_be (Z.to_nat (packetnum.wlen pn)) (packetnum.wvalue pn) ++
  replicate (Z.to_nat padding) 0.

Definition body (pn : packetnum.WireVal) (bs : list Z) (padding tag : Z) : list Z :=
  body_front pn (size bs) padding tag ++ bs ++ replicate (Z.to_nat tag) 0.

Definition pn_ok (pn : packetnum.WireVal) : Prop := 1 <= packetnum.wlen pn <= 4.

Lemma length_value_eq k n padding tag :
  0 <= k + n + padding + tag < 2 ^ 62 ->
  LongPacketPlainBase.length_value k n padding tag = varint.of_uint (k + n + padding + tag).
Proof. intros H. unfold LongPacketPlainBase.length_value. by rewrite u64_small by (unfold is_u64; lia). Qed.

Lemma body_front_size pn n padding tag :
  pn_ok pn -> 0 <= n -> 0 <= padding -> 0 <= tag ->
  packetnum.wlen pn + n + padding + tag < 2 ^ 62 ->
  size (body_front pn n padding tag) =
    varint.len (varint.of_uint (packetnum.wlen pn + n + padding + tag)) + packetnum.wlen pn + padding.
Proof.
  intros Hk Hn Hp Ht Hs. unfold pn_ok in Hk. unfold body_front. rewrite !size_app, length_value_eq by lia.
  rewrite varint.enc_size by (apply writable_uint; lia).
  unfold size. rewrite length_write_be, length_replicate. lia.
Qed.

Lemma emits_front pn n padding tag :
  pn_ok pn -> 0 <= n -> 0 <= padding -> 0 <= tag ->
  packetnum.wlen pn + n + padding + tag < 2 ^ 62 ->
  emits (varint.write (LongPacketPlainBase.length_value (packetnum.wlen pn) n padding tag) ;&
         packetnum.write pn ;& wr_fill 0 padding) (body_front pn n padding tag).
Proof.
  intros Hk Hn Hp Ht Hs. unfold pn_ok in Hk. unfold body_front. rewrite length_value_eq by lia.
  apply emits_andM; [apply varint.emits_varint, writable_uint; lia |].
  apply emits_andM; [destruct pn; by apply packetnum.emits_pn |].
  apply emits_fill. unfold u64_max. lia.
Qed.

Lemma andM_assoc {S} (p q r : S -> bool * S) s : (p ;& q ;& r) s = ((p ;& q) ;& r) s.
Proof. unfold andM. destruct (p s) as [[] s1]; [| done]. by destruct (q s1) as [[] s2]. Qed.

Lemma andM_assoc3 {S} (p q r t : S -> bool * S) s : (p ;& q ;& r ;& t) s = ((p ;& q ;& r) ;& t) s.
Proof. unfold andM. destruct (p s) as [[] s1]; [| done]. destruct (q s1) as [[] s2]; [| done]. by destruct (r s2) as [[] s3]. Qed.

(** The temporary writer the payload callback is given. *)
Definition payload_room (room : Z) (pn : packetnum.WireVal) (padding tag : Z) : Z :=
  room - (varint.len (varint.of_uint room) + packetnum.wlen pn + padding + tag).

Definition payload_writer (w : writer) (pn : packetnum.WireVal) (padding tag : Z) : writer :=
  new_writer (drop (Z.to_nat (wr_room w - payload_room (wr_room w) pn padding tag)) (wr_remain w)).

(** Everything after the callback, on a buffer that holds the payload [R]
    bytes behind the index. *)
Lemma in_place_chain pn bs junk padding tag w R :
  wr_ok w -> pn_ok pn -> 0 <= padding -> 0 <= tag -> 0 < size bs + tag -> wr_room w < 2 ^ 62 ->
  size (body_front pn (size bs) padding tag) + tag <= R -> R + size bs <= wr_room w ->
  drop (wr_index w + Z.to_nat R) (wr_buf w) = bs ++ junk ->
  let L := LongPacketPlainBase.length_value (packetnum.wlen pn) (size bs) padding tag in
  exists w',
    (varint.write L ;& packetnum.write pn ;& wr_fill 0 padding ;&
     shift_at (wr_index w) (u64 (varint.len L + packetnum.wlen pn + padding)) R (size bs) ;&
     (fun w => wr_fill 0 tag (wr_offset w (size bs)))) w = (true, w') /\
    writes w (body pn bs padding tag) w'.
Proof.
  intros Hw Hk Hp Ht Hne Hroom HR HRb Hbs L. set (pre := body_front pn (size bs) padding tag) in *.
  pose proof (size_nonneg bs). pose proof (size_nonneg pre). pose proof Hk as Hk'. unfold pn_ok in Hk'.
  assert (Hsum : packetnum.wlen pn + size bs + padding + tag < 2 ^ 62).
  { assert (packetnum.wlen pn + padding <= size pre); [| lia]. unfold pre, body_front.
    rewrite !size_app. unfold size. rewrite length_write_be, length_replicate. lia. }
  assert (Hpre : size pre = varint.len L + packetnum.wlen pn + padding).
  { unfold L. rewrite length_value_eq by lia. by apply body_front_size. }
  rewrite <- Hpre, u64_small by (unfold is_u64; lia).
  destruct (shift_behind w pre bs junk (Z.to_nat R)) as (y & Hy & Hwy);
    [done | unfold size in *; lia | lia | done | unfold wr_room, size in *; lia |].
  rewrite Z2Nat.id in Hy by lia. pose proof (writes_room _ _ _ Hwy) as Hry. rewrite size_app in Hry.
  exists (wr_put (wr_offset y (size bs)) (replicate (Z.to_nat tag) 0)). split.
  - rewrite andM_assoc3. eapply andM_ok; [by apply emits_front; auto; fold pre; lia |].
    eapply andM_ok; [exact Hy |]. apply wr_fill_put; [apply Hwy | lia | unfold u64_max; lia].
  - unfold body. rewrite app_assoc. eapply writes_trans; [exact Hwy |].
    apply writes_put; [apply Hwy |]. unfold size at 1. rewrite length_replicate. lia.
Qed.

(** The payload sits where the temporary writer has put it. *)
Lemma stored_payload w R bs :
  wr_ok w -> (R + length bs <= length (wr_buf w) - wr_index w)%nat ->
  let t := wr_put (new_writer (drop R (wr_remain w))) bs in
  let w1 := mk_writer (store_at (wr_buf w) (wr_index w + R) (wr_buf t)) (wr_index w) in
  wr_index t = length bs /\ wr_ok w1 /\ length (wr_buf w1) = length (wr_buf w) /\
  take (wr_index w) (wr_buf w1) = take (wr_index w) (wr_buf w) /\
  exists junk, drop (wr_index w1 + R) (wr_buf w1) = bs ++ junk.
Proof.
  intros Hw HR t w1. pose proof Hw as [Hi Hb].
  assert (Ht : wr_buf t = bs ++ drop (length bs) (drop R (wr_remain w))) by done.
  assert (Hlt : (wr_index w + R + length (wr_buf t) = length (wr_buf w))%nat).
  { rewrite Ht, wr_remain_eq, length_app, !length_drop by done. lia. }
  assert (HB : wr_buf w1 = take (wr_index w + R) (wr_buf w) ++ wr_buf t)
    by by apply store_at_suffix.
  assert (Hl : length (wr_buf w1) = length (wr_buf w))
    by (rewrite HB, length_app, length_take; lia).
  split_and!; [done | split; unfold size in *; rewrite Hl; simpl; lia | done | |].
  - rewrite HB, take_app_le by (rewrite length_take; lia). rewrite take_take. f_equal. lia.
  - eexists. rewrite HB, <- Ht. apply drop_app_length'. rewrite length_take. simpl. lia.
Qed.

Lemma in_place_spec {S} pn (cb : writer * S -> bool * (writer * S)) tag padding w s bs s' :
  wr_ok w -> wr_room w < 2 ^ 62 -> pn_ok pn -> 0 <= padding -> 0 <= tag ->
  0 < size bs + tag -> size bs <= payload_room (wr_room w) pn padding tag ->
  let t := payload_writer w pn padding tag in
  cb (t, s) = (true, (wr_put t bs, s')) ->
  exists w', LongPacketPlainBase.write_length_pn_payload_tag pn cb tag padding (w, s) =
      (true, (w', s')) /\ writes w (body pn bs padding tag) w'.
Proof.
  intros Hw Hroom Hk Hp Ht Hne Hbs t Hcb. pose proof Hk as Hk'. unfold pn_ok in Hk'.
  pose proof (size_nonneg bs). assert (0 <= wr_room w) by (destruct Hw; unfold wr_room, size; lia).
  unfold payload_room in Hbs. set (M := varint.len (varint.of_uint (wr_room w))) in *.
  assert (HM : 1 <= M <= 8) by (apply len_uint_range; lia).
  set (R := M + packetnum.wlen pn + padding + tag) in *.
  assert (Htw : t = new_writer (drop (Z.to_nat R) (wr_remain w))).
  { unfold t, payload_writer, payload_room. fold M R. do 3 f_equal. lia. }
  unfold LongPacketPlainBase.write_length_pn_payload_tag. rewrite wr_remain_size by done. fold M.
  rewrite (u64_small (M + _ + _ + _)), (u64_small (_ + padding + tag)) by (unfold is_u64; lia). fold R.
  rewrite ltb_false by (apply len_uint_mono; lia). rewrite ltb_false by lia.
  assert (rsubstr (wr_remain w) R (wr_room w - R) = drop (Z.to_nat R) (wr_remain w)) as ->.
  { unfold rsubstr. rewrite wr_remain_size by done. rewrite !ltb_false by lia.
    apply take_ge. rewrite length_drop. pose proof (wr_remain_size w Hw). unfold size in *. lia. }
  rewrite <- Htw, Hcb. cbn [negb].
  destruct (stored_payload w (Z.to_nat R) bs Hw) as (Hti & Hw1 & Hl1 & Htk & junk & Hj).
  { unfold wr_room, size in *. lia. }
  rewrite Htw, Hti. set (w1 := mk_writer (store_at _ _ _) _) in *.
  assert (Hr1 : wr_room w1 = wr_room w) by (unfold wr_room, size; by rewrite Hl1).
  destruct (in_place_chain pn bs junk padding tag w1 R) as (w' & E & HW); auto; try lia.
  { rewrite body_front_size by (auto; lia).
    assert (varint.len (varint.of_uint (packetnum.wlen pn + size bs + padding + tag)) <= M); [| lia].
    apply len_uint_mono; lia. }
  exists w'. split; [unfold liftW; change (Z.of_nat (length bs)) with (size bs) | ].
  - change (wr_index w1) with (wr_index w) in E. by rewrite E.
  - by apply (writes_congr w w1).
Qed.

(** What success says about the buffer and the callback. *)
Lemma in_place_room {S} w pn (cb : writer * S -> bool * (writer * S)) tag padding s w' s' :
  wr_ok w -> 0 <= wr_room w < 2 ^ 62 -> pn_ok pn -> 0 <= padding < 2 ^ 62 -> 0 <= tag < 2 ^ 62 ->
  LongPacketPlainBase.write_length_pn_payload_tag pn cb tag padding (w, s) = (true, (w', s')) ->
  0 <= payload_room (wr_room w) pn padding tag /\
  exists t', cb (payload_writer w pn padding tag, s) = (true, (t', s')).
Proof.
  intros Hw Hr Hk Hp Ht. unfold pn_ok in Hk. pose proof (len_uint_range (wr_room w) Hr) as HM.
  unfold LongPacketPlainBase.write_length_pn_payload_tag. rewrite wr_remain_size by done.
  destruct (_ <? _); [done |]. rewrite (u64_small (_ + _ + _ + _)) by (unfold is_u64; lia).
  destruct (Z.ltb_spec (wr_room w) (varint.len (varint.of_uint (wr_room w)) + packetnum.wlen pn + padding + tag))
    as [| Hle]; [done |].
  set (R := varint.len _ + _ + _ + _) in *.
  assert (rsubstr (wr_remain w) R (wr_room w - R) = drop (Z.to_nat R) (wr_remain w)) as ->.
  { unfold rsubstr. rewrite wr_remain_size by done. rewrite !ltb_false by lia.
    apply take_ge. rewrite length_drop. pose proof (wr_remain_size w Hw). unfold size in *. lia. }
  assert (new_writer (drop (Z.to_nat R) (wr_remain w)) = payload_writer w pn padding tag) as ->.
  { unfold payload_writer, payload_room. fold R. do 3 f_equal. lia. }
  destruct (cb _) as [[] [t' s1]]; cbn [negb]; [| done]. unfold liftW.
  destruct (andM _ _ _) as [ok w1]. intros [= -> <- <-].
  split; [unfold payload_room; fold R; lia | eauto].
Qed.

Lemma payload_writer_room w pn padding tag :
  wr_ok w -> 0 <= payload_room (wr_room w) pn padding tag <= wr_room w ->
  wr_ok (payload_writer w pn padding tag) /\
  wr_room (payload_writer w pn padding tag) = payload_room (wr_room w) pn padding tag.
Proof.
  intros Hw Hp. pose proof (wr_remain_size w Hw) as Hs. destruct Hw as [Hi Hb].
  unfold payload_writer. set (q := payload_room _ _ _ _) in *. clearbody q.
  assert (Hl : size (drop (Z.to_nat (wr_room w - q)) (wr_remain w)) = q)
    by (unfold size in *; rewrite length_drop; lia).
  unfold wr_ok, new_writer. set (d := drop _ _) in *. clearbody d.
  unfold wr_room in *. cbn [wr_buf wr_index]. rewrite Hl. unfold size in *. lia.
Qed.

(** ** Rendering and parsing a whole packet *)

(** Sizes that occur in one packet buffer. *)
Definition body_bounds (pn : packetnum.WireVal) (n padding tag : Z) : Prop :=
  0 <= n /\ 0 <= padding /\ 0 <= tag /\ packetnum.wlen pn + n + padding + tag < 2 ^ 62.

Lemma payload_room_bounds room pn n padding tag :
  0 <= room < 2 ^ 62 -> 0 <= padding -> 0 <= tag -> 0 <= n ->
  n <= payload_room room pn padding tag -> body_bounds pn n padding tag.
Proof.
  intros Hr Hp Ht Hn Hle. unfold payload_room in Hle. pose proof (len_uint_range room Hr).
  unfold body_bounds. lia.
Qed.

Section PacketLaws.
Context {P : Type} `{PartialLaws P}.

Let T := get_packet_type P.

Definition plain_wire (p : P) (b : Z) (pn : packetnum.WireVal) (bs : list Z) (padding tag : Z)
    : list Z :=
  pp_hdr p b ++ body pn bs padding tag.

Lemma emits_body pn bs padding tag :
  pn_ok pn -> body_bounds pn (size bs) padding tag ->
  emits (varint.write (LongPacketPlainBase.length_value (packetnum.wlen pn) (size bs) padding tag) ;&
         packetnum.write pn ;& wr_fill 0 padding ;& wr_write bs ;& wr_fill 0 tag)
    (body pn bs padding tag).
Proof.
  intros Hk (H1 & H2 & H3 & H4) w Hw. rewrite andM_assoc3. unfold body. apply emits_andM; [| | done].
  - by apply emits_front.
  - apply emits_andM; [apply emits_write | apply emits_fill]. unfold pn_ok in Hk. unfold u64_max. lia.
Qed.

Lemma emits_plain (f : LongPacketPlainBase.t P) pn padding tag :
  pp_wf (LongPacketPlainBase.part f) -> pn_ok pn ->
  body_bounds pn (size (LongPacketPlainBase.payload f)) padding tag ->
  emits (LongPacketPlainBase.render f pn tag padding)
    (plain_wire (LongPacketPlainBase.part f) (make_packet_flags 1 T (packetnum.wlen pn) false false)
       pn (LongPacketPlainBase.payload f) padding tag).
Proof.
  intros Hwf Hk Hb. unfold LongPacketPlainBase.render, plain_wire.
  apply emits_andM; [by apply pp_render_emits | by apply emits_body].
Qed.

(** The object the receiver of an unprotected packet holds. *)
Definition plain_canon (p : P) (b : Z) (pn : packetnum.WireVal) (bs : list Z) (padding tag : Z)
    : LongPacketPlainBase.t P :=
  LongPacketPlainBase.mk
    (pp_canon p b (varint.norm (LongPacketPlainBase.length_value (packetnum.wlen pn) (size bs) padding tag)))
    (packetnum.wvalue pn mod 2 ^ (8 * packetnum.wlen pn))
    (replicate (Z.to_nat padding) 0 ++ bs) (replicate (Z.to_nat tag) 0).

Lemma reads_plain f0 p b pn bs padding tag rest :
  pp_wf p -> pn_ok pn -> body_bounds pn (size bs) padding tag ->
  PacketFlags.type b 1 = T -> PacketFlags.packet_number_length b = packetnum.wlen pn ->
  reads_at (LongPacketPlainBase.parse tag) f0 (plain_wire p b pn bs padding tag) rest
    (plain_canon p b pn bs padding tag).
Proof.
  intros Hwf Hk Hb Ht Hpn. pose proof Hb as (H1 & H2 & H3 & H4). pose proof Hk as Hk'.
  unfold pn_ok in Hk'. unfold plain_canon.
  set (L := LongPacketPlainBase.length_value _ _ _ _).
  assert (plain_wire p b pn bs padding tag = (pp_hdr p b ++ varint.enc L) ++
    write_be (Z.to_nat (packetnum.wlen pn)) (packetnum.wvalue pn) ++
    (replicate (Z.to_nat padding) 0 ++ bs) ++ replicate (Z.to_nat tag) 0) as ->
    by (unfold plain_wire, body, body_front; by rewrite <- !app_assoc).
  unfold LongPacketPlainBase.parse.
  assert (HL : varint.writable L)
    by (unfold L; rewrite length_value_eq by lia; apply writable_uint; lia).
  assert (HLv : varint.value L = packetnum.wlen pn + size bs + padding + tag)
    by (unfold L; by rewrite length_value_eq by lia).
  clearbody L. eapply reads_andM; [eapply reads_zoom; [by apply pp_parse_reads | done] |].
  eapply reads_andM; [eapply (reads_pn _ _ _ (packetnum.wlen pn)); [| done | done] |].
  { unfold LongPacketPlainBase.pnlen. cbn. by rewrite pp_base_canon. }
  eapply reads_andM; [eapply reads_field; [| done] | by apply reads_field; [
    unfold size; rewrite length_replicate; lia |]].
  unfold LongPacketPlainBase.pnlen. cbn. rewrite pp_base_canon, pp_length_canon.
  cbn. rewrite Hpn. change (varint.value (varint.norm L)) with (varint.value L).
  rewrite HLv, u64_small by (unfold is_u64; lia). rewrite size_app. unfold size at 2.
  rewrite length_replicate. lia.
Qed.

(** A protected packet: whatever the bytes after the length field are, they
    are split into payload and tag. *)
Lemma reads_cipher c0 p b L prot tagb rest :
  pp_wf p -> PacketFlags.type b 1 = T -> varint.writable L ->
  varint.value L = size prot + size tagb ->
  reads_at (LongPacketCipherBase.parse (size tagb)) c0
    ((pp_hdr p b ++ varint.enc L) ++ prot ++ tagb) rest
    (LongPacketCipherBase.mk (pp_canon p b (varint.norm L)) prot tagb).
Proof.
  intros Hwf Ht HL HLv. unfold LongPacketCipherBase.parse.
  assert (varint.value L < 2 ^ 62).
  { destruct HL as [_ HL]. unfold varint.border in HL. destruct (varint.vlen L =? 0); [simpl in HL; lia |].
    repeat destruct (_ =? _); lia. }
  eapply reads_andM; [eapply reads_zoom; [by apply pp_parse_reads | done] |].
  eapply reads_andM; [eapply reads_field; [| done] | by apply reads_field].
  cbn. rewrite pp_length_canon. change (varint.value (varint.norm L)) with (varint.value L).
  pose proof (size_nonneg prot). pose proof (size_nonneg tagb).
  rewrite u64_small by (unfold is_u64; lia). lia.
Qed.

Lemma plain_advances tag : advances (LongPacketPlainBase.parse (P := P) tag).
Proof.
  unfold LongPacketPlainBase.parse. pose proof pp_parse_advances. auto 20 with wire.
Qed.

Lemma cipher_advances tag : advances (LongPacketCipherBase.parse (P := P) tag).
Proof.
  unfold LongPacketCipherBase.parse. pose proof pp_parse_advances. auto 20 with wire.
Qed.

Lemma cipher_progresses tag : progresses (LongPacketCipherBase.parse (P := P) tag).
Proof.
  unfold LongPacketCipherBase.parse. pose proof pp_parse_advances. pose proof pp_parse_progresses.
  apply progresses_andM; auto 20 with wire.
Qed.

Lemma in_place_packet {S} (f : LongPacketPlainBase.t P) pn (cb : writer * S -> bool * (writer * S))
    tag padding w s bs s' :
  let b := make_packet_flags 1 T (packetnum.wlen pn) false false in
  let w0 := wr_put w (pp_hdr (LongPacketPlainBase.part f) b) in
  wr_ok w -> wr_room w < 2 ^ 62 -> pn_ok pn -> 0 <= padding -> 0 <= tag ->
  pp_wf (LongPacketPlainBase.part f) ->
  size (pp_hdr (LongPacketPlainBase.part f) b) <= wr_room w ->
  0 < size bs + tag -> size bs <= payload_room (wr_room w0) pn padding tag ->
  let t := payload_writer w0 pn padding tag in
  cb (t, s) = (true, (wr_put t bs, s')) ->
  exists w', LongPacketPlainBase.render_in_place f pn cb tag padding (w, s) = (true, (w', s')) /\
    writes w (plain_wire (LongPacketPlainBase.part f) b pn bs padding tag) w'.
Proof.
  intros b w0 Hw Hroom Hk Hp Ht Hwf Hh Hne Hbs t Hcb.
  assert (Hw0 : wr_ok w0) by by apply wr_put_ok.
  assert (Hr0 : wr_room w0 < 2 ^ 62).
  { unfold w0. rewrite wr_put_room by done. pose proof (size_nonneg (pp_hdr (LongPacketPlainBase.part f) b)). lia. }
  destruct (in_place_spec pn cb tag padding w0 s bs s') as (w' & E & HW); auto.
  exists w'. split.
  - unfold LongPacketPlainBase.render_in_place. eapply andM_ok; [| exact E].
    unfold liftW. destruct (pp_render_emits (LongPacketPlainBase.part f) (packetnum.wlen pn) Hwf Hk w Hw)
      as [Hr _]. by rewrite Hr.
  - eapply writes_trans; [by apply writes_put | done].
Qed.

(** A callback that only ever appends to the writer it is given. *)
Definition appends {S} (cb : writer * S -> bool * (writer * S)) : Prop :=
  forall t s t' s', wr_ok t -> cb (t, s) = (true, (t', s')) ->
    exists bs, size bs <= wr_room t /\ t' = wr_put t bs.

(** Whenever [render_in_place] succeeds, the packet is the one [render]
    would have produced for what the callback has appended. *)
Lemma in_place_inv {S} (f : LongPacketPlainBase.t P) pn (cb : writer * S -> bool * (writer * S))
    tag padding w s w' s' :
  let b := make_packet_flags 1 T (packetnum.wlen pn) false false in
  appends cb -> wr_ok w -> wr_room w < 2 ^ 62 -> pn_ok pn -> 0 <= padding < 2 ^ 62 -> 0 < tag < 2 ^ 62 ->
  LongPacketPlainBase.render_in_place f pn cb tag padding (w, s) = (true, (w', s')) ->
  let w0 := wr_put w (pp_hdr (LongPacketPlainBase.part f) b) in
  let t := payload_writer w0 pn padding tag in
  pp_wf (LongPacketPlainBase.part f) /\
  exists bs, wr_ok t /\ cb (t, s) = (true, (wr_put t bs, s')) /\ size bs <= wr_room t /\
    body_bounds pn (size bs) padding tag /\
    writes w (plain_wire (LongPacketPlainBase.part f) b pn bs padding tag) w'.
Proof.
  intros b Hcb Hw Hroom Hk Hp Ht E w0 t. pose proof E as E0.
  unfold LongPacketPlainBase.render_in_place in E. apply andM_true_inv in E as ([w1 s1] & E1 & E).
  unfold liftW in E1. destruct (pp_render _ _ w) as [ok1 x] eqn:Er. injection E1 as -> -> ->.
  pose proof (pp_render_ok _ _ _ _ Er) as Hwf. split; [done |].
  destruct (pp_render_emits _ _ Hwf Hk w Hw) as [R1 R2]. fold T b in R1, R2.
  assert (Hh : size (pp_hdr (LongPacketPlainBase.part f) b) <= wr_room w).
  { destruct (Z.le_gt_cases (size (pp_hdr (LongPacketPlainBase.part f) b)) (wr_room w)); [done |].
    rewrite Er in R2. specialize (R2 ltac:(done)). done. }
  rewrite R1 in Er by done. injection Er as <-. fold w0 in E.
  assert (Hw0 : wr_ok w0) by by apply wr_put_ok.
  assert (Hr0 : 0 <= wr_room w0 < 2 ^ 62).
  { unfold w0. rewrite wr_put_room by done. pose proof (size_nonneg (pp_hdr (LongPacketPlainBase.part f) b)).
    clearbody b. lia. }
  destruct (in_place_room w0 pn cb tag padding s1 w' s') as (Hpr & t' & Ht'); auto; [lia |].
  fold t in Ht'. destruct (payload_writer_room w0 pn padding tag Hw0) as [Htok Htr].
  { pose proof (len_uint_range (wr_room w0) Hr0). unfold pn_ok, payload_room in *. lia. }
  destruct (Hcb _ _ _ _ Htok Ht') as (bs & Hbs & ->). exists bs. fold t in Hbs, Htr.
  assert (Hbs' : size bs <= payload_room (wr_room w0) pn padding tag) by (rewrite <- Htr; done).
  destruct (in_place_packet f pn cb tag padding w s1 bs s') as (w2 & E2 & HW); auto; try lia.
  { pose proof (size_nonneg bs). lia. }
  rewrite E0 in E2. injection E2 as <-. split_and!; auto.
  apply (payload_room_bounds (wr_room w0)); auto using size_nonneg; lia.
Qed.
End PacketLaws.

(** * Properties *)

(** A long header packet (Initial, Handshake or 0-RTT) that [render] has
    written is parsed back by [parse] with the same tag length, from
    whatever object it is parsed into and whatever bytes follow: version,
    connection ids and (for Initial) token are those of the sender, the
    packet number bytes, the payload behind its padding and the room left
    for the tag are recovered, and exactly the written bytes are consumed. *)
Theorem long_packet_roundtrip {P} `{PartialLaws P} (f f0 : LongPacketPlainBase.t P)
    pn padding tag w w' rest :
  pp_wf (LongPacketPlainBase.part f) -> pn_ok pn ->
  0 <= packetnum.wvalue pn < 2 ^ (8 * packetnum.wlen pn) ->
  body_bounds pn (size (LongPacketPlainBase.payload f)) padding tag -> wr_ok w ->
  LongPacketPlainBase.render f pn tag padding w = (true, w') ->
  exists bytes f',
    wr_written w' = wr_written w ++ bytes /\
    reads_at (LongPacketPlainBase.parse tag) f0 bytes rest f' /\
    (let b := make_packet_flags 1 (get_packet_type P) (packetnum.wlen pn) false false in
     LongPacketPlainBase.part f' = pp_canon (LongPacketPlainBase.part f) b
       (varint.norm (varint.of_uint (packetnum.wlen pn + size (LongPacketPlainBase.payload f) +
                                     padding + tag))) /\
     pp_base (LongPacketPlainBase.part f') = base_canon (pp_base (LongPacketPlainBase.part f)) b 1) /\
    LongPacketPlainBase.wire_pn f' = packetnum.wvalue pn /\
    LongPacketPlainBase.payload f' =
      replicate (Z.to_nat padding) 0 ++ LongPacketPlainBase.payload f /\
    LongPacketPlainBase.auth_tag f' = replicate (Z.to_nat tag) 0.
Proof.
  intros Hwf Hk Hv Hb Hw E. destruct (long_flags (get_packet_type P) (packetnum.wlen pn))
    as (_ & _ & Ht & Hpn); [apply pp_has_length | done |].
  destruct (emits_plain f pn padding tag Hwf Hk Hb w Hw) as [H1 H2].
  destruct (Z.le_gt_cases (size (plain_wire (LongPacketPlainBase.part f)
    (make_packet_flags 1 (get_packet_type P) (packetnum.wlen pn) false false) pn
    (LongPacketPlainBase.payload f) padding tag)) (wr_room w)) as [Hfit | Hbig].
  2: { specialize (H2 ltac:(lia)). by rewrite E in H2. }
  rewrite H1 in E by done. injection E as <-.
  eexists _, _. split; [by apply wr_put_written |].
  split; [by apply reads_plain |]. unfold plain_canon. cbn [LongPacketPlainBase.part
    LongPacketPlainBase.wire_pn LongPacketPlainBase.payload LongPacketPlainBase.auth_tag].
  destruct Hb as (B1 & B2 & B3 & B4). unfold pn_ok in Hk.
  rewrite length_value_eq, pp_base_canon, (Z.mod_small (packetnum.wvalue pn)) by lia. done.
Qed.

Definition witness_initial : LongPacketPlainBase.t InitialPacketPartial.t :=
  LongPacketPlainBase.mk
    (InitialPacketPartial.mk (LongPacketBase.mk 0 1 0 [1; 2; 3] 0 [4; 5])
       (varint.of_uint 0) [9; 8; 7; 6] (varint.of_uint 0)) 0 [0x06; 0; 1; 42] [].

Lemma long_packet_roundtrip_witness :
  let f := witness_initial in
  let pn := packetnum.mk_WireVal 0x1234 2 in
  let w := new_writer (replicate 64 0xff) in
  exists w' bytes f',
    LongPacketPlainBase.render f pn 16 3 w = (true, w') /\
    wr_written w' = wr_written w ++ bytes /\
    reads_at (LongPacketPlainBase.parse 16) f bytes [0xab] f' /\
    InitialPacketPartial.token (LongPacketPlainBase.part f') = [9; 8; 7; 6] /\
    LongPacketPlainBase.wire_pn f' = 0x1234 /\
    LongPacketPlainBase.payload f' = [0; 0; 0; 0x06; 0; 1; 42].
Proof.
  cbv zeta.
  destruct (LongPacketPlainBase.render witness_initial (packetnum.mk_WireVal 0x1234 2) 16 3
    (new_writer (replicate 64 0xff))) as [[] w'] eqn:E; [| vm_compute in E; discriminate].
  destruct (long_packet_roundtrip witness_initial witness_initial
    (packetnum.mk_WireVal 0x1234 2) 3 16 (new_writer (replicate 64 0xff)) w' [0xab])
    as (bytes & f' & H1 & H2 & [H3 _] & H4 & H5 & _); [| | | | | exact E |].
  - split; [split; [done | split; vm_compute; discriminate] | vm_compute; done].
  - split; vm_compute; discriminate.
  - split; vm_compute; [discriminate | done].
  - unfold body_bounds. vm_compute. intuition discriminate.
  - split; vm_compute; [lia | discriminate].
  - exists w', bytes, f'. rewrite H3, H4, H5.
    split_and!; [reflexivity | exact H1 | exact H2 | reflexivity ..].
Defined.

(** [render_in_place], which lets the payload be written straight into
    the packet buffer behind a worst-case gap and then moves it down,
    produces the packet that [render] produces for that payload: both
    succeed, at the same index and with the same written bytes. *)
Theorem render_in_place_agrees {P S} `{PartialLaws P} (f : LongPacketPlainBase.t P) pn tag padding w
    (cb : writer * S -> bool * (writer * S)) s s' :
  let p := LongPacketPlainBase.part f in
  let bs := LongPacketPlainBase.payload f in
  let b := make_packet_flags 1 (get_packet_type P) (packetnum.wlen pn) false false in
  let w0 := wr_put w (pp_hdr p b) in
  let t := payload_writer w0 pn padding tag in
  wr_ok w -> wr_room w < 2 ^ 62 -> pn_ok pn -> 0 <= padding -> 0 <= tag -> pp_wf p ->
  size (pp_hdr p b) <= wr_room w -> 0 < size bs + tag ->
  size bs <= payload_room (wr_room w0) pn padding tag ->
  cb (t, s) = (true, (wr_put t bs, s')) ->
  exists w1 w2,
    LongPacketPlainBase.render_in_place f pn cb tag padding (w, s) = (true, (w1, s')) /\
    LongPacketPlainBase.render f pn tag padding w = (true, w2) /\
    wr_index w1 = wr_index w2 /\ wr_written w1 = wr_written w2 /\ wr_ok w1.
Proof.
  intros p bs b w0 t Hw Hroom Hk Hp Ht Hwf Hh Hne Hbs Hcb.
  destruct (in_place_packet f pn cb tag padding w s bs s') as (w1 & E1 & HW); auto.
  fold p b in HW.
  pose proof (writes_room _ _ _ HW) as Hr. destruct (proj1 HW) as [Hi1 _].
  assert (Hfit : size (plain_wire p b pn bs padding tag) <= wr_room w)
    by (clear -Hr Hi1; unfold wr_room, size in *; lia).
  assert (Hbb : body_bounds pn (size bs) padding tag).
  { apply (payload_room_bounds (wr_room w0)); auto using size_nonneg. unfold w0.
    rewrite wr_put_room by done. pose proof (size_nonneg (pp_hdr p b)). clearbody b p. lia. }
  destruct (emits_plain f pn padding tag Hwf Hk Hbb w Hw) as [E2 _].
  specialize (E2 Hfit). exists w1. eexists. split; [exact E1 |]. split; [exact E2 |].
  split_and!; [apply HW | | apply HW].
  rewrite (writes_written _ _ _ Hw HW). symmetry. by apply wr_put_written.
Qed.

Lemma render_in_place_agrees_witness :
  let w := new_writer (replicate 80 0) in
  let cb := liftW (S := unit) (wr_write [0x06; 0; 1; 42]) in
  let pn := packetnum.mk_WireVal 7 1 in
  exists w1 w2,
    LongPacketPlainBase.render_in_place witness_initial pn cb 16 0 (w, tt) = (true, (w1, tt)) /\
    LongPacketPlainBase.render witness_initial pn 16 0 w = (true, w2) /\
    wr_index w1 = wr_index w2 /\ wr_written w1 = wr_written w2 /\ wr_ok w1.
Proof.
  apply (render_in_place_agrees witness_initial (packetnum.mk_WireVal 7 1) 16 0
    (new_writer (replicate 80 0)) (liftW (wr_write [0x06; 0; 1; 42])) tt tt).
  - split; vm_compute; [lia | discriminate].
  - vm_compute; done.
  - split; vm_compute; discriminate.
  - lia.
  - lia.
  - split; [split; [done | split; vm_compute; discriminate] | vm_compute; done].
  - vm_compute. discriminate.
  - vm_compute. done.
  - vm_compute. discriminate.
  - vm_compute. reflexivity.
Defined.
