(* ===== verification/ShortPacket.v ===== *)
(** * The other packets (src/src/include/fnet/quic/packet: onertt.h, retry.h,
      versionnego.h, stateless_reset.h, crypto.h)

    1-RTT packets, Retry with the pseudo packet its integrity tag is
    computed over, Version Negotiation, Stateless Reset, and [CryptoPacket],
    the view of a packet that packet protection works on. *)

From stdpp Require Import base list.
From Stdlib Require Import ZArith Lia.
From S2P Require Import Prelude Bytes Varint PacketNumber Types PacketBase LongPacket.

(** [r.read(field, g(r.remain().size()))]. *)
Definition rd_rest_field {F} (g : Z -> Z) (set : list Z -> F -> F)
    : F * reader -> bool * (F * reader) :=
  fun '(f, r) => rd_field (fun _ => g (size (rd_remain r))) set (f, r).

(** ** [struct OneRTTPacketPartial] *)

Module OneRTTPacketPartial.
Record t := mk { flags : Z; dstID : list Z }.

(** [get_dstID_len] sees a copy of the reader and may set [len]. *)
Definition parse (get_dstID_len : reader -> Z -> bool * Z) : t * reader -> bool * (t * reader) :=
  Packet.parse_check (fun v f => mk v (dstID f)) flags OneRTT ;&
  fun '(f, r) =>
    let '(ok, len) := get_dstID_len r 0 in
    if ok then rd_field (fun _ => len) (fun v f => mk (flags f) v) (f, r) else (false, (f, r)).

Definition len (f : t) : Z := Packet.len + size (dstID f).
Definition head_len (f : t) : Z := len f.

Definition render (f : t) (version pnlen : Z) (key spin : bool) : writer -> bool * writer :=
  let val := make_packet_flags version OneRTT pnlen spin key in
  if val =? 0 then retM false else wr_fill val 1 ;& wr_write (dstID f).
End OneRTTPacketPartial.

(** ** [struct OneRTTPacketPlain] *)

Module OneRTTPacketPlain.
Record t := mk {
  part : OneRTTPacketPartial.t; wire_pn : Z; payload : list Z; auth_tag : list Z }.
Definition set_part v f := mk v (wire_pn f) (payload f) (auth_tag f).
Definition pnlen (f : t) : Z := PacketFlags.packet_number_length (OneRTTPacketPartial.flags (part f)).

Definition parse (tag_len : Z) (get_dstID_len : reader -> Z -> bool * Z)
    : t * reader -> bool * (t * reader) :=
  zoom part set_part (OneRTTPacketPartial.parse get_dstID_len) ;&
  rd_pn_field pnlen (fun v f => mk (part f) v (payload f) (auth_tag f)) ;&
  rd_rest_field (fun n => u64 (n - tag_len)) (fun v f => mk (part f) (wire_pn f) v (auth_tag f)) ;&
  rd_field (fun _ => tag_len) (fun v f => mk (part f) (wire_pn f) (payload f) v).

Definition len (f : t) (use_length_field : bool) (pn_len auth_tag_len padding : Z) : Z :=
  OneRTTPacketPartial.len (part f) +
  (if use_length_field then pnlen f else pn_len) +
  size (payload f) +
  (if use_length_field then size (auth_tag f) else padding + auth_tag_len).

Definition render (f : t) (version : Z) (pn : packetnum.WireVal) (key : bool)
    (auth_tag_len padding : Z) (spin : bool) : writer -> bool * writer :=
  OneRTTPacketPartial.render (part f) version (packetnum.wlen pn) key spin ;&
  packetnum.write pn ;&
  wr_fill 0 padding ;&
  wr_write (payload f) ;&
  wr_fill 0 auth_tag_len.

(** The lambda [check_write]; the temporary writer shares the bytes of
    [rem], all but the last [auth_tag_len] of them. *)
Definition check_write {S} (payload_render : writer * S -> bool * (writer * S)) (auth_tag_len : Z)
    : writer * S -> bool * (writer * S) :=
  fun '(w, s) =>
    let rem := wr_remain w in
    if size rem <? auth_tag_len then (false, (w, s))
    else
      let '(ok, (tmpw, s)) :=
        payload_render (new_writer (rsubstr rem 0 (size rem - auth_tag_len)), s) in
      let w1 := mk_writer (store_at (wr_buf w) (wr_index w) (wr_buf tmpw)) (wr_index w) in
      if negb ok then (false, (w1, s))
      else (true, (wr_offset w1 (Z.of_nat (wr_index tmpw)), s)).

Definition render_in_place {S} (f : t) (version : Z) (pn : packetnum.WireVal) (key : bool)
    (payload_render : writer * S -> bool * (writer * S)) (auth_tag_len padding : Z) (spin : bool)
    : writer * S -> bool * (writer * S) :=
  liftW (OneRTTPacketPartial.render (part f) version (packetnum.wlen pn) key spin) ;&
  liftW (packetnum.write pn) ;&
  liftW (wr_fill 0 padding) ;&
  check_write payload_render auth_tag_len ;&
  liftW (wr_fill 0 auth_tag_len).
End OneRTTPacketPlain.

(** ** [struct OneRTTPacketCipher] *)

Module OneRTTPacketCipher.
Record t := mk {
  part : OneRTTPacketPartial.t; protected_payload : list Z; auth_tag : list Z }.

Definition parse (tag_len : Z) (get_dstID_len : reader -> Z -> bool * Z)
    : t * reader -> bool * (t * reader) :=
  zoom part (fun v f => mk v (protected_payload f) (auth_tag f))
    (OneRTTPacketPartial.parse get_dstID_len) ;&
  rd_rest_field (fun n => u64 (n - tag_len)) (fun v f => mk (part f) v (auth_tag f)) ;&
  rd_field (fun _ => tag_len) (fun v f => mk (part f) (protected_payload f) v).

Definition head_len (f : t) : Z := OneRTTPacketPartial.head_len (part f).
Definition len (f : t) : Z :=
  OneRTTPacketPartial.len (part f) + size (protected_payload f) + size (auth_tag f).
End OneRTTPacketCipher.

(** ** [struct RetryPacket] *)

Module RetryPacket.
Record t := mk {
  base : LongPacketBase.t; retry_token : list Z; retry_integrity_tag : list Z }.

Definition parse : t * reader -> bool * (t * reader) :=
  zoom base (fun v f => mk v (retry_token f) (retry_integrity_tag f))
    (LongPacketBase.parse_check Retry) ;&
  rd_rest_field (fun n => u64 (n - 16)) (fun v f => mk (base f) v (retry_integrity_tag f)) ;&
  rd_array_field retry_integrity_tag (fun v f => mk (base f) (retry_token f) v).

Definition len (f : t) : Z := LongPacketBase.len (base f) + size (retry_token f) + 16.

Definition render (f : t) : writer -> bool * writer :=
  LongPacketBase.render_with_pnlen (base f) Retry 1 ;&
  wr_write (retry_token f) ;&
  wr_write (retry_integrity_tag f).
End RetryPacket.

(** ** [struct RetryPseudoPacket] *)

Module RetryPseudoPacket.
Record t := mk {
  origDstIDlen : Z; origDstID : list Z; long_packet : LongPacketBase.t; retry_token : list Z }.

Definition len (f : t) : Z :=
  1 + size (origDstID f) + LongPacketBase.len (long_packet f) + size (retry_token f).

Definition render (f : t) : writer -> bool * writer :=
  if 0xff <? size (origDstID f) then retM false
  else
    wr_fill (u8 (size (origDstID f))) 1 ;&
    wr_write (origDstID f) ;&
    LongPacketBase.render (long_packet f) ;&
    wr_write (retry_token f).

Definition from_retry_packet (origdst : list Z) (retry : RetryPacket.t) (f : t) : t :=
  mk (origDstIDlen f) origdst (RetryPacket.base retry) (RetryPacket.retry_token retry).
End RetryPseudoPacket.

(** ** [struct VersionNegotiationPacket] *)

Module VersionNegotiationPacket.
Record t := mk { base : LongPacketBase.t; negotiated_versions : list Z }.
Definition push_back v f := mk (base f) (negotiated_versions f ++ [v]).

(** The loop of [parse]; one round consumes four bytes. *)
Fixpoint versions_loop (fuel : nat) : t * reader -> option (bool * (t * reader)) :=
  fun '(f, r) =>
    match fuel with
    | O => None
    | S fuel' =>
        if rd_empty r then Some (true, (f, r))
        else
          let '(ok, ver, r') := read_num 4 r 0 in
          if ok then versions_loop fuel' (push_back ver f, r') else Some (false, (f, r'))
    end.

Definition parse : t * reader -> option (bool * (t * reader)) :=
  fun s =>
    match zoom base (fun v f => mk v (negotiated_versions f))
            (LongPacketBase.parse_check VersionNegotiation) s with
    | (true, (f, r)) => versions_loop (S (length (rd_remain r))) (mk (base f) [], r)
    | (false, s') => Some (false, s')
    end.

Definition len (f : t) : Z := LongPacketBase.len (base f) + 4 * size (negotiated_versions f).

Fixpoint write_versions (l : list Z) : writer -> bool * writer :=
  match l with
  | [] => retM true
  | ver :: l' => write_num 4 ver ;& write_versions l'
  end.

Definition render (f : t) : writer -> bool * writer :=
  let flags := LongPacketBase.flags (base f) in
  let val := if negb (PacketFlags.is_long flags)
             then make_packet_flags 0 VersionNegotiation 0 false false else flags in
  LongPacketBase.render_with_version (base f) val 0 ;& write_versions (negotiated_versions f).
End VersionNegotiationPacket.

(** ** [struct StatelessReset] *)

Module StatelessReset.
Record t := mk { flags : Z; unpredicable_bits : list Z; stateless_reset_token : list Z }.

Definition parse : t * reader -> bool * (t * reader) :=
  Packet.parse (fun v f => mk v (unpredicable_bits f) (stateless_reset_token f)) ;&
  guardM (fun f => PacketFlags.is_short (flags f)) ;&
  guardM (fun f => negb (PacketFlags.invalid (flags f))) ;&
  rd_rest_field (fun n => u64 (n - 16)) (fun v f => mk (flags f) v (stateless_reset_token f)) ;&
  rd_array_field stateless_reset_token (fun v f => mk (flags f) (unpredicable_bits f) v).

Definition len (f : t) : Z := Packet.len + size (unpredicable_bits f) + 16.

Definition render (f : t) (first_byte_random : Z) : writer -> bool * writer :=
  if size (unpredicable_bits f) <? 4 then retM false
  else
    wr_fill (Z.lor 0x40 (Z.land 0x3f first_byte_random)) 1 ;&
    wr_write (unpredicable_bits f) ;&
    wr_write (stateless_reset_token f).
End StatelessReset.

(** ** [struct CryptoPacket] *)

Record CryptoPacketParsed := mk_CryptoPacketParsed {
  cp_head : list Z; cp_sample : list Z; cp_protected_payload : list Z; cp_auth_tag : list Z }.

Record CryptoPacketPnKnown := mk_CryptoPacketPnKnown {
  pk_head : list Z; pk_protected_payload : list Z; pk_auth_tag : list Z }.

Module CryptoPacket.
Record t := mk { src : list Z; head_len : Z; packet_number : Z }.
Definition skip_part : Z := 4.

Definition payload_len (c : t) : Z :=
  if size (src c) <? head_len c then 0 else size (src c) - head_len c.

Definition parse (c : t) (sample_len tag_len : Z) : option CryptoPacketParsed :=
  let head := rsubstr (src c) 0 (head_len c) in
  let payload_len := u64 (size (src c) - head_len c - tag_len) in
  let protected_payload := rsubstr (src c) (head_len c) payload_len in
  let auth_tag := rsubstr (src c) (u64 (head_len c + payload_len)) tag_len in
  let sample := rsubstr (src c) (u64 (head_len c + skip_part)) sample_len in
  if negb (size head =? head_len c) || negb (size protected_payload =? payload_len) ||
     negb (size auth_tag =? tag_len) || negb (size sample =? sample_len) then None
  else if negb (size (src c) =? u64 (head_len c + payload_len + tag_len)) then None
  else Some (mk_CryptoPacketParsed head sample protected_payload auth_tag).

Definition parse_pnknown (c : t) (pnlen tag_len : Z) : option CryptoPacketPnKnown :=
  if negb (packetnum.is_wire_len pnlen) then None
  else
    let head := rsubstr (src c) 0 (u64 (head_len c + pnlen)) in
    let payload_len := u64 (size (src c) - u64 (head_len c + pnlen + tag_len)) in
    let protected_payload := rsubstr (src c) (u64 (head_len c + pnlen)) payload_len in
    let auth_tag := rsubstr (src c) (u64 (head_len c + pnlen + payload_len)) tag_len in
    if negb (size head =? u64 (head_len c + pnlen)) || negb (size protected_payload =? payload_len) ||
       negb (size auth_tag =? tag_len) then None
    else if negb (size (src c) =? u64 (head_len c + pnlen + payload_len + tag_len)) then None
    else Some (mk_CryptoPacketPnKnown head protected_payload auth_tag).
End CryptoPacket.

(** * Lemmas *)

(** Spans of a reader's buffer have the size of the buffer at most. *)
Lemma rd_remain_small r a b : rd_ok r -> rd_remain r = a ++ b -> size a + size b <= u64_max.
Proof.
  intros Hr E. rewrite <- size_app, <- E. unfold size. rewrite rd_remain_length by done.
  destruct Hr. unfold size in *. lia.
Qed.

Lemma reads_rest {F} (g : Z -> Z) (set : list Z -> F -> F) f bs rest f' :
  (size bs + size rest <= u64_max -> g (size bs + size rest) = size bs) ->
  set bs f = f' -> reads_at (rd_rest_field g set) f bs rest f'.
Proof.
  intros Hg Hs r Hr Hrem. unfold rd_rest_field.
  apply (reads_field (fun _ => g (size (rd_remain r))) set f bs rest f'); auto.
  rewrite Hrem, size_app. apply Hg. by apply (rd_remain_small r).
Qed.

Lemma advances_rest {F} (g : Z -> Z) (set : list Z -> F -> F) : advances (rd_rest_field g set).
Proof. intros f r b f' r' Hr. unfold rd_rest_field. by apply advances_field. Qed.

#[export] Hint Resolve advances_rest : wire.

Lemma u64_sub_tail (a b : Z) : 0 <= a -> 0 <= b -> a < 2 ^ 64 -> u64 (a + b - b) = a.
Proof. intros. rewrite Z.add_simpl_r. apply u64_small. unfold is_u64. lia. Qed.

(** ** 1-RTT packets *)

Definition onertt_hdr (b : Z) (id : list Z) : list Z := [b] ++ id.

Lemma onertt_flags n spin key :
  1 <= n <= 4 ->
  let b := make_packet_flags 1 OneRTT n spin key in
  b <> 0 /\ PacketFlags.is_short b = true /\ PacketFlags.packet_number_length b = n /\
  PacketFlags.invalid b = false /\ PacketFlags.spin b = spin /\ PacketFlags.key_phase b = key.
Proof.
  intros Hn. assert (n = 1 \/ n = 2 \/ n = 3 \/ n = 4) as Hn' by lia.
  destruct Hn' as [-> | [-> | [-> | ->]]]; destruct spin, key; done.
Qed.

Lemma emits_onertt_partial f n spin key :
  1 <= n <= 4 ->
  emits (OneRTTPacketPartial.render f 1 n key spin)
    (onertt_hdr (make_packet_flags 1 OneRTT n spin key) (OneRTTPacketPartial.dstID f)).
Proof.
  intros Hn. unfold OneRTTPacketPartial.render. destruct (onertt_flags n spin key Hn) as (Hb & _).
  rewrite eqb_false by done. apply emits_andM; auto with wire.
Qed.

Lemma reads_onertt_partial gd f0 b id rest :
  PacketFlags.is_short b = true -> (forall r, gd r 0 = (true, size id)) ->
  reads_at (OneRTTPacketPartial.parse gd) f0 (onertt_hdr b id) rest (OneRTTPacketPartial.mk b id).
Proof.
  intros Hb Hgd. unfold OneRTTPacketPartial.parse, onertt_hdr, Packet.parse_check.
  eapply reads_andM.
  - rewrite <- (app_nil_r [b]). eapply reads_andM; [by apply reads_packet | by apply reads_guard].
  - intros r Hr Hrem. rewrite Hgd. by apply (reads_field _ _ _ id rest).
Qed.

(** A packet number of [1..4] bytes, padding, payload and room for the tag. *)
Definition onertt_wire (b : Z) (id : list Z) (pn : packetnum.WireVal) (bs : list Z)
    (padding tag : Z) : list Z :=
  onertt_hdr b id ++ write_be (Z.to_nat (packetnum.wlen pn)) (packetnum.wvalue pn) ++
  replicate (Z.to_nat padding) 0 ++ bs ++ replicate (Z.to_nat tag) 0.

Lemma emits_wire_pn pn :
  pn_ok pn -> emits (packetnum.write pn) (write_be (Z.to_nat (packetnum.wlen pn)) (packetnum.wvalue pn)).
Proof. destruct pn. apply packetnum.emits_pn. Qed.

Lemma emits_onertt f pn key spin padding tag :
  pn_ok pn -> 0 <= padding <= u64_max -> 0 <= tag <= u64_max ->
  emits (OneRTTPacketPlain.render f 1 pn key tag padding spin)
    (onertt_wire (make_packet_flags 1 OneRTT (packetnum.wlen pn) spin key)
       (OneRTTPacketPartial.dstID (OneRTTPacketPlain.part f)) pn (OneRTTPacketPlain.payload f)
       padding tag).
Proof.
  intros Hk Hp Ht. unfold OneRTTPacketPlain.render, onertt_wire.
  apply emits_andM; [by apply emits_onertt_partial |]. apply emits_andM; [by apply emits_wire_pn |].
  apply emits_andM; [by apply emits_fill |]. apply emits_andM; [apply emits_write | by apply emits_fill].
Qed.

Lemma reads_onertt gd f0 b id pn bs padding tag :
  PacketFlags.is_short b = true -> PacketFlags.packet_number_length b = packetnum.wlen pn ->
  pn_ok pn -> 0 <= padding -> 0 <= tag -> (forall r, gd r 0 = (true, size id)) ->
  reads_at (OneRTTPacketPlain.parse tag gd) f0 (onertt_wire b id pn bs padding tag) []
    (OneRTTPacketPlain.mk (OneRTTPacketPartial.mk b id)
       (packetnum.wvalue pn mod 2 ^ (8 * packetnum.wlen pn))
       (replicate (Z.to_nat padding) 0 ++ bs) (replicate (Z.to_nat tag) 0)).
Proof.
  intros Hb Hn Hk Hp Ht Hgd. unfold OneRTTPacketPlain.parse, onertt_wire.
  rewrite (app_assoc (replicate _ _) bs).
  assert (Htag : size (replicate (Z.to_nat tag) 0) = tag) by (unfold size; rewrite length_replicate; lia).
  eapply reads_andM; [eapply reads_zoom; [by apply reads_onertt_partial | done] |].
  eapply reads_andM; [by eapply (reads_pn _ _ _ (packetnum.wlen pn)) |].
  eapply reads_andM; [eapply reads_rest; [| done] | by apply reads_field].
  rewrite app_nil_r, Htag. intros Hsm. apply u64_sub_tail; auto using size_nonneg.
  unfold u64_max in Hsm. lia.
Qed.

Lemma rsubstr_0 l n : 0 <= n <= size l -> rsubstr l 0 n = take (Z.to_nat n) l.
Proof.
  intros H. unfold rsubstr. rewrite ltb_false, ltb_false by lia. done.
Qed.

Lemma check_write_spec {S} (cb : writer * S -> bool * (writer * S)) tag w s bs s' :
  wr_ok w -> 0 <= tag -> tag + size bs <= wr_room w ->
  let t := new_writer (take (Z.to_nat (wr_room w - tag)) (wr_remain w)) in
  cb (t, s) = (true, (wr_put t bs, s')) ->
  exists w', OneRTTPacketPlain.check_write cb tag (w, s) = (true, (w', s')) /\ writes w bs w'.
Proof.
  intros Hw Ht Hbs t Hcb. pose proof Hw as [Hi Hb]. pose proof (size_nonneg bs).
  unfold OneRTTPacketPlain.check_write. pose proof (wr_remain_size w Hw) as Hrs. rewrite Hrs.
  rewrite ltb_false by lia.
  rewrite rsubstr_0 by lia. fold t. rewrite Hcb. cbn [negb]. eexists. split; [reflexivity |].
  set (tb := wr_buf (wr_put t bs)).
  assert (HtB : tb = bs ++ drop (length bs) (take (Z.to_nat (wr_room w - tag)) (wr_remain w))) by done.
  assert (Hti : wr_index (wr_put t bs) = length bs) by done. rewrite Hti.
  assert (Htl : length tb = Z.to_nat (wr_room w - tag)).
  { rewrite HtB, length_app, length_drop, length_take. unfold size in *. lia. }
  assert (Hlen : length (store_at (wr_buf w) (wr_index w) tb) = length (wr_buf w)).
  { apply length_store_at. rewrite Htl. unfold wr_room, size in *. lia. }
  unfold wr_offset, wr_offset_internal. cbn [wr_buf wr_index]. unfold size. rewrite Hlen.
  rewrite ltb_false by (unfold wr_room, size in *; lia). rewrite Nat2Z.id.
  unfold writes, wr_ok, size. cbn [wr_buf wr_index]. rewrite Hlen. unfold wr_room, size in *.
  split_and!; [lia | lia | done | done |]. unfold store_at. rewrite HtB, !app_assoc.
  rewrite <- app_assoc, take_app_length'; [done |]. rewrite length_app, length_take. lia.
Qed.

Lemma liftW_inv {S} p (w : writer) (s : S) w' s' :
  liftW p (w, s) = (true, (w', s')) -> p w = (true, w') /\ s' = s.
Proof. unfold liftW. destruct (p w) as [ok x]. by intros [= -> <- <-]. Qed.

(** A successful write action has appended its bytes. *)
Lemma emits_inv p bs w w' : emits p bs -> wr_ok w -> p w = (true, w') ->
  size bs <= wr_room w /\ w' = wr_put w bs.
Proof.
  intros H Hw E. destruct (H w Hw) as [H1 H2].
  destruct (Z.le_gt_cases (size bs) (wr_room w)) as [Hle | Hgt].
  - rewrite H1 in E by done. by injection E as <-.
  - rewrite E in H2. by specialize (H2 ltac:(lia)).
Qed.

Lemma check_write_inv {S} (cb : writer * S -> bool * (writer * S)) tag w s w' s' :
  appends cb -> wr_ok w -> 0 <= tag ->
  OneRTTPacketPlain.check_write cb tag (w, s) = (true, (w', s')) ->
  exists bs t, wr_ok t /\ cb (t, s) = (true, (wr_put t bs, s')) /\ size bs <= wr_room t /\
    writes w bs w'.
Proof.
  intros Hcb Hw Ht E. pose proof E as E0. unfold OneRTTPacketPlain.check_write in E.
  pose proof (wr_remain_size w Hw) as Hrs. rewrite Hrs in E.
  destruct (Z.ltb_spec (wr_room w) tag) as [| Hle]; [done |].
  rewrite rsubstr_0 in E by lia.
  set (t := new_writer _) in *. destruct (cb (t, s)) as [[] [t' s5]] eqn:Ecb; [| done].
  assert (Hs5 : s5 = s') by by injection E. subst s5.
  assert (Htr : wr_room t = wr_room w - tag).
  { unfold t, new_writer. set (n := wr_room w) in *. clearbody n. unfold wr_room, size in *.
    cbn [wr_buf wr_index]. rewrite length_take. lia. }
  assert (Htok : wr_ok t).
  { split; [simpl; lia |]. assert (size (wr_buf t) = wr_room t) as -> by (unfold wr_room; simpl; lia).
    rewrite Htr. destruct Hw. unfold wr_room. lia. }
  destruct (Hcb _ _ _ _ Htok Ecb) as (bs & Hbs & ->).
  destruct (check_write_spec cb tag w s bs s') as (w5 & E6 & HW); [done | lia | lia | done |].
  rewrite E6 in E0. injection E0 as <-. eauto 10.
Qed.

Lemma onertt_in_place_inv {S} f version pn key spin (cb : writer * S -> bool * (writer * S))
    tag padding w s w' s' :
  appends cb -> wr_ok w -> pn_ok pn -> 0 <= padding <= u64_max -> 0 <= tag <= u64_max ->
  OneRTTPacketPlain.render_in_place f version pn key cb tag padding spin (w, s) = (true, (w', s')) ->
  exists bs, size bs <= wr_room w /\
    (exists t, wr_ok t /\ cb (t, s) = (true, (wr_put t bs, s')) /\ size bs <= wr_room t) /\
    writes w (onertt_wire (make_packet_flags 1 OneRTT (packetnum.wlen pn) spin key)
      (OneRTTPacketPartial.dstID (OneRTTPacketPlain.part f)) pn bs padding tag) w'.
Proof.
  intros Hcb Hw Hk Hp Ht E. unfold OneRTTPacketPlain.render_in_place in E.
  change (OneRTTPacketPartial.render (OneRTTPacketPlain.part f) version) with
    (OneRTTPacketPartial.render (OneRTTPacketPlain.part f) 1) in E.
  apply andM_true_inv in E as ([w1 s1] & E1 & E). apply liftW_inv in E1 as [E1 ->].
  apply (emits_inv _ _ _ _ (emits_onertt_partial _ _ _ _ Hk) Hw) in E1 as [F1 ->].
  set (h := onertt_hdr _ _) in *. assert (Hw1 : wr_ok (wr_put w h)) by by apply wr_put_ok.
  apply andM_true_inv in E as ([w2 s2] & E2 & E). apply liftW_inv in E2 as [E2 ->].
  apply (emits_inv _ _ _ _ (emits_wire_pn _ Hk) Hw1) in E2 as [F2 ->].
  set (pb := write_be _ _) in *. assert (Hw2 : wr_ok (wr_put (wr_put w h) pb)) by by apply wr_put_ok.
  apply andM_true_inv in E as ([w3 s3] & E3 & E). apply liftW_inv in E3 as [E3 ->].
  apply (emits_inv _ _ _ _ (emits_fill 0 padding Hp) Hw2) in E3 as [F3 ->].
  set (z := replicate _ 0) in *. set (w3 := wr_put _ z) in *.
  assert (Hw3 : wr_ok w3) by by apply wr_put_ok.
  apply andM_true_inv in E as ([w5 s4] & E4 & E). apply liftW_inv in E as [E5 ->].
  apply check_write_inv in E4 as (bs & t & Htok & Ecb & Hbs & HW); [| done | done | lia].
  assert (HW3 : writes w (h ++ pb ++ z ++ bs) w5).
  { repeat (eapply writes_trans; [by apply writes_put |]). done. }
  pose proof (writes_room _ _ _ HW3) as Hroom.
  apply (emits_inv _ _ _ _ (emits_fill 0 tag Ht) (proj1 HW3)) in E5 as [F5 ->].
  exists bs. split_and!.
  - pose proof (proj1 HW) as [Hi _]. pose proof (size_nonneg h). pose proof (size_nonneg pb).
    pose proof (size_nonneg z). rewrite !size_app in Hroom.
    assert (0 <= wr_room w5) by (unfold wr_room, size; lia). lia.
  - exists t. done.
  - unfold onertt_wire. fold h pb z.
    replace (h ++ pb ++ z ++ bs ++ replicate (Z.to_nat tag) 0) with
      ((h ++ pb ++ z ++ bs) ++ replicate (Z.to_nat tag) 0) by by rewrite <- !app_assoc.
    eapply writes_trans; [done |]. by apply writes_put; [apply HW3 |].
Qed.

(** ** What a successful parse has consumed *)

(** [consumed r r' bs]: going from [r] to [r'] consumed exactly [bs]. *)
Definition consumed (r r' : reader) (bs : list Z) : Prop :=
  rd_ok r' /\ rd_remain r = bs ++ rd_remain r' /\ r' = rd_advance r (length bs).

Lemma consumed_trans r1 a r2 b r3 :
  consumed r1 r2 a -> consumed r2 r3 b -> consumed r1 r3 (a ++ b).
Proof.
  intros (A1 & A2 & A3) (B1 & B2 & B3). split_and!; [done | | ].
  - by rewrite A2, B2, app_assoc.
  - rewrite B3, A3, rd_advance_advance, length_app. done.
Qed.

Lemma consumed_app r a b :
  rd_ok r -> rd_remain r = a ++ b -> consumed r (rd_advance r (length a)) a.
Proof.
  intros Hr E. split_and!; [apply rd_advance_ok; [done | rewrite E, length_app; lia] | | done].
  by rewrite E, (rd_advance_remain r a b).
Qed.

Lemma read_internal_inv r n d r' :
  rd_ok r -> read_internal r n = (d, true, r') -> size d = n /\ consumed r r' d.
Proof.
  intros Hr E. destruct (Z.lt_ge_cases n 0) as [Hn | Hn].
  { by rewrite read_internal_neg in E by done. }
  destruct (read_internal_cases r n Hr Hn) as [(a & b & Ha & Hs & E') | [_ E']];
    rewrite E' in E; [| discriminate]. injection E as <- <-.
  split; [done |]. by apply (consumed_app r a b).
Qed.

Lemma field_inv {F} (n : F -> Z) (set : list Z -> F -> F) f r f' r' :
  rd_ok r -> rd_field n set (f, r) = (true, (f', r')) ->
  exists d, size d = n f /\ f' = set d f /\ consumed r r' d.
Proof.
  intros Hr. unfold rd_field. destruct (read_internal r (n f)) as [[d ok] r1] eqn:E.
  intros [= -> <- <-]. apply read_internal_inv in E as [? ?]; eauto.
Qed.

Lemma array_inv {F} (get : F -> list Z) set f r f' r' :
  rd_ok r -> rd_array_field get set (f, r) = (true, (f', r')) ->
  exists d, length d = length (get f) /\ f' = set d f /\ consumed r r' d.
Proof.
  intros Hr. unfold rd_array_field, rd_read_into.
  destruct (read_internal r (size (get f))) as [[d ok] r1] eqn:E. destruct ok; [| discriminate].
  apply read_internal_inv in E as [Hs Hc]; [| done]. intros [= _ <- <-].
  assert (length d = length (get f)) by (unfold size in Hs; lia). exists d. split_and!; auto.
  unfold copy_bytes. rewrite take_ge by lia. rewrite drop_ge by lia. by rewrite app_nil_r.
Qed.

Lemma byte_inv {F} (get : F -> Z) set f r f' r' :
  rd_ok r -> rd_byte_field get set (f, r) = (true, (f', r')) ->
  exists b, f' = set b f /\ consumed r r' [b].
Proof.
  intros Hr E. apply array_inv in E as (d & Hl & -> & Hc); [| done].
  destruct d as [| b [| ]]; try discriminate. eauto.
Qed.

Lemma num_inv {F} n (get : F -> Z) set f r f' r' :
  rd_ok r -> rd_num_field n get set (f, r) = (true, (f', r')) ->
  exists d, length d = n /\ f' = set (read_be d) f /\ consumed r r' d.
Proof.
  intros Hr. unfold rd_num_field, read_num. destruct (read_internal r (Z.of_nat n)) as [[d ok] r1] eqn:E.
  destruct ok; [| discriminate]. apply read_internal_inv in E as [Hs Hc]; [| done].
  intros [= <- <-]. exists d. split_and!; auto. unfold size in Hs. lia.
Qed.

Lemma packet_inv {F} (set : Z -> F -> F) f r f' r' :
  rd_ok r -> Packet.parse set (f, r) = (true, (f', r')) -> exists b, f' = set b f /\ consumed r r' [b].
Proof.
  intros Hr. destruct (packet_parse_cases set f r Hr) as [[_ ->] | (b & l & E & ->)]; [discriminate |].
  intros [= <- <-]. exists b. split; [done |]. by apply (consumed_app r [b] l).
Qed.

Lemma guard_inv {F} (c : F -> bool) f r f' r' :
  guardM c (f, r) = (true, (f', r')) -> c f = true /\ f' = f /\ r' = r.
Proof. by intros [= ? <- <-]. Qed.

Lemma zoom_inv {A B} (get : A -> B) set p (a : A) r a' r' :
  zoom get set p (a, r) = (true, (a', r')) ->
  exists b', p (get a, r) = (true, (b', r')) /\ a' = set b' a.
Proof.
  unfold zoom. destruct (p (get a, r)) as [ok [b r1]]. intros [= -> <- <-]. eauto.
Qed.

Lemma rest_inv {F} (g : Z -> Z) (set : list Z -> F -> F) f r f' r' :
  rd_ok r -> rd_rest_field g set (f, r) = (true, (f', r')) ->
  exists d, size d = g (size (rd_remain r)) /\ f' = set d f /\ consumed r r' d.
Proof. intros Hr E. by apply field_inv in E. Qed.

(** A parsed long header is the consumed bytes. *)
Lemma base_inv f0 r f r' :
  rd_ok r -> Forall is_byte (rd_remain r) -> LongPacketBase.parse (f0, r) = (true, (f, r')) ->
  f = base_canon f (LongPacketBase.flags f) (LongPacketBase.version f) /\
  consumed r r' (base_hdr f (LongPacketBase.flags f) (LongPacketBase.version f)).
Proof.
  intros Hr Hby. unfold LongPacketBase.parse. intros E.
  apply andM_true_inv in E as ([f1 r1] & E1 & E). apply packet_inv in E1 as (b & -> & C1); [| done].
  apply andM_true_inv in E as ([f2 r2] & E2 & E). apply guard_inv in E2 as (_ & -> & ->).
  pose proof (proj1 C1) as Hr1.
  apply andM_true_inv in E as ([f3 r3] & E3 & E). apply num_inv in E3 as (v & Hv & -> & C3); [| done].
  pose proof (proj1 C3) as Hr3.
  apply andM_true_inv in E as ([f4 r4] & E4 & E). apply byte_inv in E4 as (dl & -> & C4); [| done].
  pose proof (proj1 C4) as Hr4.
  apply andM_true_inv in E as ([f5 r5] & E5 & E). apply field_inv in E5 as (di & Hd & -> & C5); [| done].
  pose proof (proj1 C5) as Hr5.
  apply andM_true_inv in E as ([f6 r6] & E6 & E). apply byte_inv in E6 as (sl & -> & C6); [| done].
  pose proof (proj1 C6) as Hr6.
  apply field_inv in E as (si & Hs & -> & C7); [| done]. cbn in Hd, Hs.
  assert (Hv' : write_be 4 (read_be v) = v).
  { rewrite <- Hv. apply write_read_be. destruct C1 as (_ & R1 & _). destruct C3 as (_ & R3 & _).
    rewrite R1, R3 in Hby. apply Forall_app in Hby as [_ Hby]. by apply Forall_app in Hby as [? _]. }
  unfold base_canon, base_hdr. cbn -[app]. rewrite Hv', Hd, Hs. split; [done |].
  repeat (eapply consumed_trans; [eassumption |]). done.
Qed.

(** ** Retry *)

Lemma remain_forall (Q : Z -> Prop) r a r' : consumed r r' a -> Forall Q (rd_remain r) -> Forall Q a /\ Forall Q (rd_remain r').
Proof. intros (_ & E & _). rewrite E. apply Forall_app. Qed.

Lemma retry_inv f0 r f r' :
  rd_ok r -> Forall is_byte (rd_remain r) -> length (RetryPacket.retry_integrity_tag f0) = 16%nat ->
  RetryPacket.parse (f0, r) = (true, (f, r')) ->
  let b := RetryPacket.base f in
  length (RetryPacket.retry_integrity_tag f) = 16%nat /\
  size (LongPacketBase.dstID b) <= 255 /\ size (LongPacketBase.srcID b) <= 255 /\
  PacketFlags.type (LongPacketBase.flags b) (LongPacketBase.version b) = Retry /\
  rd_remain r = (base_hdr b (LongPacketBase.flags b) (LongPacketBase.version b) ++
                 RetryPacket.retry_token f) ++ RetryPacket.retry_integrity_tag f.
Proof.
  intros Hr Hby Htag E. unfold RetryPacket.parse in E.
  apply andM_true_inv in E as ([f1 r1] & E1 & E). apply zoom_inv in E1 as (b1 & E1 & ->).
  unfold LongPacketBase.parse_check in E1. apply andM_true_inv in E1 as ([b2 r2] & E1 & E2).
  apply guard_inv in E2 as (Hty & -> & ->). apply bool_decide_eq_true in Hty.
  apply base_inv in E1 as [Hcanon C1]; [| done | done]. pose proof (proj1 C1) as Hr1.
  destruct (remain_forall _ _ _ _ C1 Hby) as [Hbh Hb1].
  apply andM_true_inv in E as ([f3 r3] & E3 & E).
  apply rest_inv in E3 as (tok & Htok & -> & C3); [| done]. pose proof (proj1 C3) as Hr3.
  apply array_inv in E as (tag & Hlt & -> & C4); [| done]. cbn in Hlt |- *.
  destruct C3 as (_ & R3 & _). destruct C4 as (_ & R4 & _). destruct C1 as (_ & R1 & _).
  assert (Hsz : size (rd_remain r2) = size tok + 16 + size (rd_remain r')).
  { rewrite R3, R4, !size_app. unfold size. lia. }
  pose proof (size_nonneg tok). pose proof (size_nonneg (rd_remain r')).
  assert (size (rd_remain r2) <= u64_max).
  { unfold size. rewrite rd_remain_length by done. destruct Hr1. unfold size in *. lia. }
  assert (Hr' : rd_remain r' = []).
  { rewrite u64_small in Htok by (unfold is_u64, u64_max in *; lia).
    apply nil_length_inv. unfold size in *. lia. }
  rewrite Hr', app_nil_r in R4. rewrite R1, R3, R4, app_assoc. split_and!; [lia | | | done | done].
  - unfold base_hdr in Hbh. rewrite !Forall_app in Hbh. destruct Hbh as (_ & _ & Hx & _).
    inversion Hx as [| ? ? Hx1 _]. unfold is_byte in Hx1. lia.
  - unfold base_hdr in Hbh. rewrite !Forall_app in Hbh. destruct Hbh as (_ & _ & _ & _ & Hx & _).
    inversion Hx as [| ? ? Hx1 _]. unfold is_byte in Hx1. lia.
Qed.

Lemma emits_pseudo odcid f g :
  size odcid <= 255 -> size (LongPacketBase.dstID (RetryPacket.base f)) <= 255 ->
  size (LongPacketBase.srcID (RetryPacket.base f)) <= 255 ->
  let b := RetryPacket.base f in
  emits (RetryPseudoPacket.render (RetryPseudoPacket.from_retry_packet odcid f g))
    ([size odcid] ++ odcid ++ base_hdr b (LongPacketBase.flags b) (LongPacketBase.version b) ++
     RetryPacket.retry_token f).
Proof.
  intros Ho Hd Hs b. unfold RetryPseudoPacket.render. cbn [RetryPseudoPacket.origDstID
    RetryPseudoPacket.from_retry_packet RetryPseudoPacket.long_packet RetryPseudoPacket.retry_token].
  pose proof (size_nonneg odcid). rewrite ltb_false, u8_small by (unfold is_byte; lia).
  apply emits_andM; [apply emits_byte |]. apply emits_andM; [apply emits_write |].
  apply emits_andM; [by apply emits_base | apply emits_write].
Qed.

Lemma emits_retry f :
  base_wf (RetryPacket.base f) ->
  emits (RetryPacket.render f)
    (base_hdr (RetryPacket.base f) 0xF0 1 ++ RetryPacket.retry_token f ++
     RetryPacket.retry_integrity_tag f).
Proof.
  intros (Hv & H1 & H2). unfold RetryPacket.render, LongPacketBase.render_with_pnlen. rewrite Hv.
  apply emits_andM; [by apply emits_base | auto with wire].
Qed.

Lemma reads_retry f0 f :
  base_wf (RetryPacket.base f) -> length (RetryPacket.retry_integrity_tag f) = 16%nat ->
  length (RetryPacket.retry_integrity_tag f0) = 16%nat ->
  reads_at RetryPacket.parse f0
    (base_hdr (RetryPacket.base f) 0xF0 1 ++ RetryPacket.retry_token f ++
     RetryPacket.retry_integrity_tag f) []
    (RetryPacket.mk (base_canon (RetryPacket.base f) 0xF0 1) (RetryPacket.retry_token f)
       (RetryPacket.retry_integrity_tag f)).
Proof.
  intros Hwf Ht Ht0. unfold RetryPacket.parse.
  eapply reads_andM; [eapply reads_zoom; [by apply reads_check_long | done] |].
  eapply reads_andM; [eapply reads_rest; [| done] | eapply reads_array; [| done]; cbn; lia].
  assert (Hs : size (RetryPacket.retry_integrity_tag f) = 16) by (unfold size; by rewrite Ht).
  pose proof (size_nonneg (RetryPacket.retry_token f)).
  rewrite app_nil_r, Hs. intros Hsm. apply u64_sub_tail; unfold u64_max in Hsm; lia.
Qed.

(** ** Version negotiation *)

Definition versions_wire (l : list Z) : list Z := concat (map (write_be 4) l).

Lemma emits_versions l : emits (VersionNegotiationPacket.write_versions l) (versions_wire l).
Proof.
  induction l as [| v l IH]; [apply emits_ret_true |]. apply emits_andM; [apply emits_num4 | done].
Qed.

Lemma read_num_ok n r v rest old :
  rd_ok r -> rd_remain r = write_be n v ++ rest ->
  read_num n r old = (true, v mod 2 ^ (8 * Z.of_nat n), rd_advance r n).
Proof.
  intros Hr E. unfold read_num. erewrite read_internal_ok; [| done | exact E | unfold size; by rewrite length_write_be].
  by rewrite read_write_be, length_write_be.
Qed.

Lemma versions_loop_ok l fuel f r :
  rd_ok r -> rd_remain r = versions_wire l -> Forall (fun v => 0 <= v < 2 ^ 32) l ->
  (length l < fuel)%nat ->
  VersionNegotiationPacket.versions_loop fuel (f, r) =
    Some (true, (VersionNegotiationPacket.mk (VersionNegotiationPacket.base f)
                   (VersionNegotiationPacket.negotiated_versions f ++ l),
                 rd_advance r (length (versions_wire l)))).
Proof.
  revert fuel f r. induction l as [| v l IH]; intros fuel f r Hr Hrem Hl Hfuel;
    (destruct fuel as [| fuel]; [simpl in Hfuel; lia |]).
  - simpl. rewrite rd_empty_true by done. unfold rd_advance. rewrite app_nil_r, Nat.add_0_r.
    by destruct f, r.
  - apply Forall_cons in Hl as [Hv Hl]. change (versions_wire (v :: l)) with
      (write_be 4 v ++ versions_wire l) in *. simpl.
    assert (Hne : rd_empty r = false).
    { destruct (write_be 4 v) eqn:Ew; [apply (f_equal length) in Ew; by rewrite length_write_be in Ew |].
      by apply (rd_empty_false r z (l0 ++ versions_wire l)). }
    rewrite Hne, (read_num_ok 4 r v (versions_wire l)) by done.
    change (2 ^ (8 * Z.of_nat 4)) with (2 ^ 32). rewrite Z.mod_small by done.
    destruct (consumed_app r (write_be 4 v) (versions_wire l) Hr Hrem) as (Hr2 & _ & _).
    rewrite length_write_be in Hr2. rewrite IH; [| done | | done | simpl in Hfuel; lia].
    + rewrite rd_advance_advance. simpl.
      by rewrite <- app_assoc.
    + rewrite <- (length_write_be 4 v) at 1. by apply rd_advance_remain.
Qed.

Lemma read_num_progress n r old v r' :
  (0 < n)%nat -> rd_ok r -> read_num n r old = (true, v, r') ->
  rd_ok r' /\ (length (rd_remain r') < length (rd_remain r))%nat.
Proof.
  intros Hn Hr. unfold read_num. destruct (read_internal r (Z.of_nat n)) as [[d ok] r1] eqn:E.
  destruct ok; [| discriminate]. intros [= _ <-].
  apply read_internal_inv in E as (Hs & Hok & -> & _); [| done]. split; [done |].
  rewrite length_app. unfold size in Hs. lia.
Qed.

(** The loop always ends within one round per remaining byte. *)
Lemma versions_loop_total fuel f r :
  rd_ok r -> (length (rd_remain r) < fuel)%nat ->
  is_Some (VersionNegotiationPacket.versions_loop fuel (f, r)).
Proof.
  revert f r. induction fuel as [| fuel IH]; intros f r Hr Hf; [lia |]. simpl.
  destruct (rd_empty r); [eauto |]. destruct (read_num 4 r 0) as [[ok v] r'] eqn:E.
  destruct ok; [| eauto]. apply read_num_progress in E as [Hr' Hlt]; [| lia | done].
  apply IH; [done | lia].
Qed.

Lemma vn_parse_total s : rd_ok (snd s) -> is_Some (VersionNegotiationPacket.parse s).
Proof.
  destruct s as [f r]. intros Hr. unfold VersionNegotiationPacket.parse.
  destruct (zoom _ _ _ (f, r)) as [[] [f1 r1]] eqn:E; [| eauto].
  apply versions_loop_total; [| lia].
  assert (Ha : advances (LongPacketBase.parse_check VersionNegotiation)).
  { unfold LongPacketBase.parse_check, LongPacketBase.parse. auto 20 with wire. }
  by destruct (advances_zoom VersionNegotiationPacket.base
    (fun v f => VersionNegotiationPacket.mk v (VersionNegotiationPacket.negotiated_versions f))
    _ Ha _ _ _ _ _ Hr E) as (_ & _ & ?).
Qed.

(** The first byte [render] chooses. *)
Definition vn_flags (f : VersionNegotiationPacket.t) : Z :=
  let flags := LongPacketBase.flags (VersionNegotiationPacket.base f) in
  if PacketFlags.is_long flags then flags else 0x80.

Definition vn_wire (f : VersionNegotiationPacket.t) : list Z :=
  base_hdr (VersionNegotiationPacket.base f) (vn_flags f) 0 ++
  versions_wire (VersionNegotiationPacket.negotiated_versions f).

Lemma emits_vn f :
  size (LongPacketBase.dstID (VersionNegotiationPacket.base f)) <= 255 ->
  size (LongPacketBase.srcID (VersionNegotiationPacket.base f)) <= 255 ->
  emits (VersionNegotiationPacket.render f) (vn_wire f).
Proof.
  intros H1 H2. unfold VersionNegotiationPacket.render, vn_wire, vn_flags.
  destruct (PacketFlags.is_long _); (apply emits_andM; [by apply emits_base | apply emits_versions]).
Qed.

Lemma length_versions_wire l : length (versions_wire l) = (4 * length l)%nat.
Proof.
  induction l as [| v l IH]; [done |].
  change (versions_wire (v :: l)) with (write_be 4 v ++ versions_wire l).
  rewrite length_app, length_write_be, IH. simpl. lia.
Qed.

Lemma reads_vn f0 f r :
  Forall (fun v => 0 <= v < 2 ^ 32) (VersionNegotiationPacket.negotiated_versions f) ->
  rd_ok r -> rd_remain r = vn_wire f ->
  VersionNegotiationPacket.parse (f0, r) =
    Some (true, (VersionNegotiationPacket.mk
                   (base_canon (VersionNegotiationPacket.base f) (vn_flags f) 0)
                   (VersionNegotiationPacket.negotiated_versions f),
                 rd_advance r (length (vn_wire f)))).
Proof.
  intros Hv Hr Hrem. unfold VersionNegotiationPacket.parse, vn_wire in *.
  assert (Hlong : PacketFlags.is_long (vn_flags f) = true).
  { unfold vn_flags. by destruct (PacketFlags.is_long (LongPacketBase.flags _)) eqn:E. }
  set (h := base_hdr _ _ _) in *. set (vs := versions_wire _) in *.
  assert (Hp : reads_at (zoom VersionNegotiationPacket.base
      (fun v f => VersionNegotiationPacket.mk v (VersionNegotiationPacket.negotiated_versions f))
      (LongPacketBase.parse_check VersionNegotiation)) f0 h vs
    (VersionNegotiationPacket.mk (base_canon (VersionNegotiationPacket.base f) (vn_flags f) 0)
       (VersionNegotiationPacket.negotiated_versions f0))).
  { eapply reads_zoom; [| done]. rewrite <- (app_nil_r h). unfold LongPacketBase.parse_check.
    eapply reads_andM; [by apply reads_base | by apply reads_guard]. }
  rewrite (Hp r Hr Hrem). destruct (consumed_app r h vs Hr Hrem) as (Hr1 & _ & _).
  pose proof (rd_advance_remain r h vs Hr Hrem) as Hrem1.
  rewrite (versions_loop_ok (VersionNegotiationPacket.negotiated_versions f)); try done.
  - cbn -[length app]. by rewrite rd_advance_advance, length_app.
  - rewrite Hrem1. unfold vs. rewrite length_versions_wire. lia.
Qed.

(** ** Stateless reset *)

Lemma emits_reset f rnd :
  4 <= size (StatelessReset.unpredicable_bits f) ->
  emits (StatelessReset.render f rnd)
    ([Z.lor 0x40 (Z.land 0x3f rnd)] ++ StatelessReset.unpredicable_bits f ++
     StatelessReset.stateless_reset_token f).
Proof.
  intros H. unfold StatelessReset.render. rewrite ltb_false by lia.
  repeat apply emits_andM; auto with wire.
Qed.

(** Only six bits of the random byte are used: 64 cases. *)
Lemma reset_first_byte rnd :
  PacketFlags.is_short (Z.lor 0x40 (Z.land 0x3f rnd)) = true /\
  PacketFlags.invalid (Z.lor 0x40 (Z.land 0x3f rnd)) = false.
Proof.
  unfold PacketFlags.is_short, PacketFlags.invalid.
  rewrite !Z.land_lor_distr_l, <- !Z.land_assoc, !(Z.land_comm rnd), !Z.land_assoc. split.
  - reflexivity.
  - change (Z.land 0x3f 0x40) with 0. by rewrite Z.land_0_l.
Qed.

Lemma reads_reset f0 b bits token :
  PacketFlags.is_short b = true -> PacketFlags.invalid b = false ->
  length token = 16%nat -> length (StatelessReset.stateless_reset_token f0) = 16%nat ->
  reads_at StatelessReset.parse f0 ([b] ++ bits ++ token) [] (StatelessReset.mk b bits token).
Proof.
  intros Hs Hi Ht Ht0. unfold StatelessReset.parse.
  eapply reads_andM; [by apply reads_packet |]. rewrite <- (app_nil_l (bits ++ token)).
  eapply reads_andM; [by apply reads_guard |]. rewrite <- (app_nil_l (bits ++ token)).
  eapply reads_andM; [apply reads_guard; cbn; by rewrite Hi |].
  eapply reads_andM; [eapply reads_rest; [| done] | eapply reads_array; [| done]; cbn; lia].
  assert (Hsz : size token = 16) by (unfold size; by rewrite Ht).
  pose proof (size_nonneg bits).
  rewrite app_nil_r, Hsz. intros Hsm. apply u64_sub_tail; unfold u64_max in Hsm; lia.
Qed.

(** ** [CryptoPacket] *)

Lemma rsubstr_size l pos n :
  0 <= pos -> 0 <= n ->
  size (rsubstr l pos n) = if size l <? pos then 0 else n `min` (size l - pos).
Proof.
  intros Hp Hn. unfold rsubstr. destruct (Z.ltb_spec (size l) pos); [done |].
  unfold size in *. rewrite length_take, length_drop.
  destruct (Z.ltb_spec (Z.of_nat (length l) - pos) n); lia.
Qed.

Lemma rsubstr_in l pos n :
  0 <= pos -> 0 <= n -> pos + n <= size l ->
  rsubstr l pos n = take (Z.to_nat n) (drop (Z.to_nat pos) l).
Proof. intros Hp Hn H. unfold rsubstr. by rewrite !ltb_false by lia. Qed.

Lemma take_drop3 {A} (l : list A) a b c :
  (a + b + c = length l)%nat ->
  l = take a l ++ take b (drop a l) ++ take c (drop (a + b) l).
Proof.
  intros H. rewrite (take_ge (drop (a + b) l)) by (rewrite length_drop; lia).
  by rewrite <- drop_drop, !take_drop.
Qed.

Lemma crypto_parse_some c sample_len tag_len :
  0 <= CryptoPacket.head_len c -> 0 <= tag_len -> 0 <= sample_len -> size (CryptoPacket.src c) < 2 ^ 63 ->
  CryptoPacket.head_len c + tag_len <= size (CryptoPacket.src c) ->
  CryptoPacket.head_len c + 4 + sample_len <= size (CryptoPacket.src c) ->
  let h := Z.to_nat (CryptoPacket.head_len c) in
  let n := Z.to_nat (size (CryptoPacket.src c) - CryptoPacket.head_len c - tag_len) in
  CryptoPacket.parse c sample_len tag_len = Some (mk_CryptoPacketParsed
    (take h (CryptoPacket.src c)) (take (Z.to_nat sample_len) (drop (h + 4) (CryptoPacket.src c)))
    (take n (drop h (CryptoPacket.src c)))
    (take (Z.to_nat tag_len) (drop (h + n) (CryptoPacket.src c)))).
Proof.
  destruct c as [src hl pn]. cbn. intros Hh Ht Hs Hsz H1 H2. unfold CryptoPacket.parse, CryptoPacket.skip_part. cbn.
  rewrite !(u64_small (_ - _ - _)), !(u64_small (hl + _)) by (unfold is_u64; lia).
  rewrite !(u64_small (hl + _ + _)) by (unfold is_u64; lia).
  rewrite !rsubstr_size by lia. rewrite !ltb_false by lia. rewrite !eqb_true by lia. cbn.
  rewrite !rsubstr_in by lia. f_equal. f_equal; do 2 f_equal; lia.
Qed.

Lemma crypto_parse_none c sample_len tag_len :
  is_u64 (CryptoPacket.head_len c) -> is_u64 tag_len -> is_u64 sample_len -> 0 < sample_len ->
  size (CryptoPacket.src c) < 2 ^ 63 ->
  size (CryptoPacket.src c) < CryptoPacket.head_len c + tag_len \/
  size (CryptoPacket.src c) < CryptoPacket.head_len c + 4 + sample_len ->
  CryptoPacket.parse c sample_len tag_len = None.
Proof.
  destruct c as [src hl pn]. unfold is_u64. cbn. intros Hh Ht Hs Hs0 Hsz H.
  unfold CryptoPacket.parse, CryptoPacket.skip_part. cbn.
  set (pl := u64 (size src - hl - tag_len)). assert (Hpl : is_u64 pl) by apply u64_range.
  unfold is_u64 in Hpl. rewrite (rsubstr_size src 0), (rsubstr_size src hl pl) by lia.
  destruct (Z.le_gt_cases hl (size src)) as [Hl | Hl].
  2: { rewrite (ltb_false (size src) 0) by (pose proof (size_nonneg src); lia).
       rewrite eqb_false by lia. done. }
  destruct (Z.le_gt_cases (hl + tag_len) (size src)) as [Hl2 | Hl2].
  2: { rewrite (ltb_false (size src) hl) by lia. rewrite (eqb_false _ pl); [by rewrite !orb_true_r |].
       assert (pl = size src - hl - tag_len + 2 ^ 64); [| lia]. unfold pl, u64. symmetry.
       apply Z.mod_unique with (-1); lia. }
  rewrite (u64_small (hl + 4)) by (unfold is_u64; lia).
  rewrite (rsubstr_size src (hl + 4)) by lia.
  rewrite (eqb_false (if size src <? hl + 4 then _ else _) sample_len); [by rewrite !orb_true_r |].
  destruct (Z.ltb_spec (size src) (hl + 4)); lia.
Qed.

Lemma crypto_pnknown_some c pnlen tag_len :
  1 <= pnlen <= 4 -> 0 <= CryptoPacket.head_len c -> 0 <= tag_len -> size (CryptoPacket.src c) < 2 ^ 63 ->
  CryptoPacket.head_len c + pnlen + tag_len <= size (CryptoPacket.src c) ->
  let h := Z.to_nat (CryptoPacket.head_len c + pnlen) in
  let n := Z.to_nat (size (CryptoPacket.src c) - (CryptoPacket.head_len c + pnlen + tag_len)) in
  CryptoPacket.parse_pnknown c pnlen tag_len = Some (mk_CryptoPacketPnKnown
    (take h (CryptoPacket.src c)) (take n (drop h (CryptoPacket.src c)))
    (take (Z.to_nat tag_len) (drop (h + n) (CryptoPacket.src c)))).
Proof.
  destruct c as [src hl pn]. cbn. intros Hp Hh Ht Hsz H1.
  unfold CryptoPacket.parse_pnknown, packetnum.is_wire_len. cbn. rewrite !leb_true by lia. cbn.
  rewrite !(u64_small (hl + pnlen + tag_len)), !(u64_small (hl + pnlen)) by (unfold is_u64; lia).
  rewrite !(u64_small (size src - _)) by (unfold is_u64; lia).
  rewrite !(u64_small (hl + pnlen + _)) by (unfold is_u64; lia).
  rewrite !(u64_small (hl + pnlen + _ + _)) by (unfold is_u64; lia).
  rewrite !rsubstr_size by lia. rewrite !ltb_false by lia. rewrite !eqb_true by lia. cbn.
  rewrite !rsubstr_in by lia. f_equal. f_equal; do 2 f_equal; lia.
Qed.

(** * Properties *)

(** The two views packet protection takes of a packet. With a sample,
    parsing succeeds exactly when header, tag and sample fit in the packet;
    then header, protected payload and tag are a partition of its bytes and
    the sample starts four bytes behind the header. A length that underflows
    is refused, never read. When the packet number length is known, the
    view is the same partition with those bytes moved to the header. *)
Theorem crypto_packet_partition c sample_len tag_len pnlen :
  is_u64 (CryptoPacket.head_len c) -> is_u64 tag_len -> is_u64 sample_len -> 0 < sample_len ->
  1 <= pnlen <= 4 -> size (CryptoPacket.src c) < 2 ^ 63 ->
  let fits := CryptoPacket.head_len c + tag_len <= size (CryptoPacket.src c) /\
              CryptoPacket.head_len c + 4 + sample_len <= size (CryptoPacket.src c) in
  (is_Some (CryptoPacket.parse c sample_len tag_len) <-> fits) /\
  (forall p, CryptoPacket.parse c sample_len tag_len = Some p ->
     CryptoPacket.src c = cp_head p ++ cp_protected_payload p ++ cp_auth_tag p /\
     size (cp_head p) = CryptoPacket.head_len c /\ size (cp_auth_tag p) = tag_len /\
     size (cp_sample p) = sample_len /\
     (exists k, drop 4 (cp_protected_payload p ++ cp_auth_tag p) = cp_sample p ++ k) /\
     (CryptoPacket.head_len c + pnlen + tag_len <= size (CryptoPacket.src c) ->
      exists q, CryptoPacket.parse_pnknown c pnlen tag_len = Some q /\
        pk_head q = cp_head p ++ take (Z.to_nat pnlen) (cp_protected_payload p) /\
        pk_protected_payload q = drop (Z.to_nat pnlen) (cp_protected_payload p) /\
        pk_auth_tag q = cp_auth_tag p)).
Proof.
  intros Hh Ht Hs Hs0 Hp Hsz fits. pose proof Hh as Hh'. pose proof Ht as Ht'. unfold is_u64 in Hh', Ht', Hs.
  destruct (decide (fits)) as [Hf | Hf].
  2: { rewrite crypto_parse_none; auto; [split; [split; [by intros [] | tauto] | done] |].
       unfold fits in Hf. lia. }
  destruct Hf as [H1 H2]. rewrite crypto_parse_some by lia.
  split; [split; [done | eauto] |]. intros p [= <-]. cbn.
  destruct c as [src hl pn]. cbn in *. unfold size in *.
  split_and!; try (rewrite length_take, ?length_drop; lia).
  - apply take_drop3. lia.
  - eexists.
    rewrite (take_ge (drop (Z.to_nat hl + _) src)) by (rewrite length_drop; lia).
    rewrite <- drop_drop, take_drop, drop_drop. symmetry. apply take_drop.
  - intros H3. eexists. rewrite crypto_pnknown_some by (cbn; unfold size; lia). cbn. split; [done |]. cbn.
    replace (Z.to_nat (hl + pnlen)) with (Z.to_nat hl + Z.to_nat pnlen)%nat by lia. unfold size.
    split_and!.
    + rewrite take_take, Nat.min_l by lia. symmetry. apply take_take_drop.
    + replace (Z.to_nat (Z.of_nat (length src) - hl - tag_len)) with
        (Z.to_nat pnlen + Z.to_nat (Z.of_nat (length src) - (hl + pnlen + tag_len)))%nat by lia.
      by rewrite <- take_drop_commute, drop_drop.
    + do 2 f_equal. lia.
Qed.

Lemma crypto_packet_partition_witness :
  let c := CryptoPacket.mk (replicate 1 0x4c ++ replicate 20 0x65) 1 u64_max in
  is_Some (CryptoPacket.parse c 16 16) /\
  (forall p, CryptoPacket.parse c 16 16 = Some p ->
     CryptoPacket.src c = cp_head p ++ cp_protected_payload p ++ cp_auth_tag p).
Proof.
  destruct (crypto_packet_partition
    (CryptoPacket.mk (replicate 1 0x4c ++ replicate 20 0x65) 1 u64_max) 16 16 3)
    as [H1 H2]; [split; vm_compute; congruence .. | lia | lia | vm_compute; done |].
  cbv zeta. split.
  - apply H1. split; vm_compute; discriminate.
  - intros p Hp. apply (H2 p Hp).
Defined.

(** A received Retry packet and the input of its integrity check: the
    pseudo packet built from what [parse] returned is the original
    destination id, with its length, followed by exactly the received bytes
    up to the last 16, and those last 16 are the integrity tag. *)
Theorem retry_integrity_input bytes f0 f r' odcid g w :
  Forall is_byte bytes -> size bytes <= u64_max ->
  length (RetryPacket.retry_integrity_tag f0) = 16%nat ->
  RetryPacket.parse (f0, new_reader bytes) = (true, (f, r')) ->
  size odcid <= 255 -> wr_ok w ->
  1 + size odcid + (size bytes - 16) <= wr_room w ->
  let n := (length bytes - 16)%nat in
  RetryPseudoPacket.render (RetryPseudoPacket.from_retry_packet odcid f g) w =
    (true, wr_put w ([size odcid] ++ odcid ++ take n bytes)) /\
  RetryPacket.retry_integrity_tag f = drop n bytes /\
  PacketFlags.type (LongPacketBase.flags (RetryPacket.base f))
    (LongPacketBase.version (RetryPacket.base f)) = Retry.
Proof.
  intros Hby Hsz Ht E Ho Hw Hroom n.
  assert (Hr : rd_ok (new_reader bytes)) by (split; simpl; [lia | done]).
  assert (Hrem : rd_remain (new_reader bytes) = bytes) by by rewrite rd_remain_eq.
  apply retry_inv in E as (Hlt & Hd & Hs & Hty & Hb); [| done | by rewrite Hrem | done].
  rewrite Hrem in Hb. set (front := base_hdr _ _ _ ++ _) in Hb.
  assert (Hn : n = length front) by (unfold n; rewrite Hb, length_app; lia).
  rewrite Hn, Hb, take_app_length, drop_app_length. split_and!; [| done | done].
  apply emits_pseudo; auto. fold front. rewrite Hb in Hroom.
  assert (size (RetryPacket.retry_integrity_tag f) = 16) by (unfold size; by rewrite Hlt).
  autorewrite with size in *. clearbody n front. lia.
Qed.

Lemma retry_integrity_input_witness :
  let bytes := [0xF0; 0; 0; 0; 1; 0; 2; 7; 8; 0x74; 0x6f; 0x6b] ++ replicate 16 0xEE in
  let f0 := RetryPacket.mk (LongPacketBase.mk 0 0 0 [] 0 []) [] (replicate 16 0) in
  exists f r', RetryPacket.parse (f0, new_reader bytes) = (true, (f, r')) /\
    RetryPseudoPacket.render (RetryPseudoPacket.from_retry_packet [1; 2] f
        (RetryPseudoPacket.mk 0 [] (RetryPacket.base f0) [])) (new_writer (replicate 32 0)) =
      (true, wr_put (new_writer (replicate 32 0))
        ([size [1; 2]] ++ [1; 2] ++ take (length bytes - 16) bytes)) /\
    RetryPacket.retry_integrity_tag f = drop (length bytes - 16) bytes.
Proof.
  cbv zeta. eexists _, _. split; [vm_compute; reflexivity |].
  edestruct (retry_integrity_input
    ([0xF0; 0; 0; 0; 1; 0; 2; 7; 8; 0x74; 0x6f; 0x6b] ++ replicate 16 0xEE)
    (RetryPacket.mk (LongPacketBase.mk 0 0 0 [] 0 []) [] (replicate 16 0))) as (H1 & H2 & _);
    [ repeat constructor; vm_compute; congruence | vm_compute; discriminate | reflexivity
    | vm_compute; reflexivity | | | | split; [exact H1 | exact H2]].
  - vm_compute; discriminate.
  - split; vm_compute; [lia | discriminate].
  - vm_compute; discriminate.
Defined.

(** Version negotiation: the parse loop always ends, and a rendered
    packet, whatever its header flags were, is parsed back with both
    connection ids, version 0 and the offered versions in order, consuming
    the whole datagram. *)
Theorem version_negotiation_roundtrip f f0 w :
  size (LongPacketBase.dstID (VersionNegotiationPacket.base f)) <= 255 ->
  size (LongPacketBase.srcID (VersionNegotiationPacket.base f)) <= 255 ->
  Forall (fun v => 0 <= v < 2 ^ 32) (VersionNegotiationPacket.negotiated_versions f) ->
  wr_ok w -> VersionNegotiationPacket.len f <= wr_room w ->
  exists bytes,
    VersionNegotiationPacket.render f w = (true, wr_put w bytes) /\
    size bytes = VersionNegotiationPacket.len f /\
    (forall r, rd_ok r -> rd_remain r = bytes ->
       exists f' r', VersionNegotiationPacket.parse (f0, r) = Some (true, (f', r')) /\
         VersionNegotiationPacket.negotiated_versions f' =
           VersionNegotiationPacket.negotiated_versions f /\
         LongPacketBase.version (VersionNegotiationPacket.base f') = 0 /\
         LongPacketBase.dstID (VersionNegotiationPacket.base f') =
           LongPacketBase.dstID (VersionNegotiationPacket.base f) /\
         LongPacketBase.srcID (VersionNegotiationPacket.base f') =
           LongPacketBase.srcID (VersionNegotiationPacket.base f) /\
         rd_empty r' = true) /\
    (forall s, rd_ok (snd s) -> is_Some (VersionNegotiationPacket.parse s)).
Proof.
  intros H1 H2 Hv Hw Hfit. exists (vn_wire f).
  assert (Hs : size (vn_wire f) = VersionNegotiationPacket.len f).
  { unfold vn_wire, VersionNegotiationPacket.len. rewrite size_app, base_hdr_size.
    unfold size at 1. rewrite length_versions_wire. unfold size. lia. }
  split; [by apply emits_vn; auto; lia |]. split; [done |]. split; [| apply vn_parse_total].
  intros r Hr Hrem. rewrite (reads_vn f0 f r) by done. eexists _, _. split_and!; try done.
  apply rd_empty_true; [apply rd_advance_ok; [done | by rewrite Hrem] |].
  apply rd_advance_remain; [done |]. by rewrite app_nil_r.
Qed.

Lemma version_negotiation_roundtrip_witness :
  let f := VersionNegotiationPacket.mk (LongPacketBase.mk 0 0 0 [1; 2] 0 [3]) [9292; 293321; 1] in
  exists bytes,
    VersionNegotiationPacket.render f (new_writer (replicate 64 0)) =
      (true, wr_put (new_writer (replicate 64 0)) bytes) /\
    size bytes = 22.
Proof.
  destruct (version_negotiation_roundtrip
    (VersionNegotiationPacket.mk (LongPacketBase.mk 0 0 0 [1; 2] 0 [3]) [9292; 293321; 1])
    (VersionNegotiationPacket.mk (LongPacketBase.mk 0 0 0 [] 0 []) []) (new_writer (replicate 64 0)))
    as (bytes & H1 & H2 & _); [vm_compute; discriminate .. | | | vm_compute; discriminate |].
  - repeat constructor; vm_compute; congruence.
  - split; vm_compute; [lia | discriminate].
  - exists bytes. split; [exact H1 | exact H2].
Defined.
