(* ===== verification/PacketParse.v ===== *)
(** * Creating packets and parsing datagrams
      (src/src/include/fnet/quic/packet: creation.h, parse.h, summary.h, wire.h)

    [create_packet] on the sending side; [parse_packet], [parse_packets],
    [with_crypto_parse], [convert_cipher_to_plain] and [summarize] on the
    receiving side. The generic callbacks of the source are functions with a
    state of their own; a callback that returns [void] is one that returns
    [true]. The callback may rewrite the bytes it is shown (packet protection
    is removed in place); the reader never looks at those bytes again. *)

From stdpp Require Import base list.
From Stdlib Require Import ZArith Lia.
From S2P Require Import Prelude Bytes Varint PacketNumber Types PacketBase LongPacket ShortPacket.

(** ** [struct PacketSummary] *)

Record PacketSummary := mk_PacketSummary {
  ps_type : PacketType;
  ps_version : Z;
  ps_dstID : list Z;
  ps_srcID : list Z;
  ps_token : list Z;
  ps_packet_number : Z;
  ps_largest_ack : Z;
  ps_key_bit : bool;
  ps_spin : bool;
}.

(** The packet types the generic lambdas are instantiated with. *)
Inductive AnyPacket :=
  | APacket (flags : Z)
  | ALongPacketBase (p : LongPacketBase.t)
  | AVersionNegotiationPacket (p : VersionNegotiationPacket.t)
  | AInitialPacketCipher (p : LongPacketCipherBase.t InitialPacketPartial.t)
  | AZeroRTTPacketCipher (p : LongPacketCipherBase.t (HandshakeZeroRTTParital.t ZeroRTT))
  | AHandshakePacketCipher (p : LongPacketCipherBase.t (HandshakeZeroRTTParital.t Handshake))
  | ARetryPacket (p : RetryPacket.t)
  | AStatelessReset (p : StatelessReset.t)
  | AOneRTTPacketCipher (p : OneRTTPacketCipher.t).

(** Freshly declared objects; the members without initializer are zero here,
    and every one of them is overwritten before it is read. *)
Definition empty_base : LongPacketBase.t := LongPacketBase.mk 0 0 0 [] 0 [].
Definition empty_value : varint.Value := varint.of_uint 0.
Definition empty_verneg : VersionNegotiationPacket.t := VersionNegotiationPacket.mk empty_base [].
Definition empty_initial : InitialPacketPartial.t :=
  InitialPacketPartial.mk empty_base empty_value [] empty_value.
Definition empty_partial {ty} : HandshakeZeroRTTParital.t ty :=
  HandshakeZeroRTTParital.mk empty_base empty_value.
Definition empty_cipher {P} (p : P) : LongPacketCipherBase.t P := LongPacketCipherBase.mk p [] [].
Definition empty_retry : RetryPacket.t := RetryPacket.mk empty_base [] (replicate 16 0).
Definition empty_reset : StatelessReset.t := StatelessReset.mk 0 [] (replicate 16 0).
Definition empty_onertt : OneRTTPacketCipher.t :=
  OneRTTPacketCipher.mk (OneRTTPacketPartial.mk 0 []) [] [].

Section Parse.
Context {S : Type}.

(** [cb(type, packet, src, err, valid_type)]. *)
Definition callback : Type := PacketType -> AnyPacket -> list Z -> bool -> bool -> S -> bool * S.

Context (tag_len : Z) (cb : callback) (is_stateless_reset : StatelessReset.t -> bool)
  (get_dstID_len : reader -> Z -> bool * Z).

(** The lambda [invoke_cb]: the callback sees what was read since [offset]. *)
Definition invoke_cb (offset : nat) (type : PacketType) (packet : AnyPacket) (err valid_type : bool)
    : reader * S -> bool * (reader * S) :=
  fun '(r, s) =>
    let src := rsubstr (rd_read r) (Z.of_nat offset) u64_max in
    let '(ok, s') := cb type packet src err valid_type s in (ok, (r, s')).

(** [invoke_cb(..., true, ...); return false;] *)
Definition fail_cb (offset : nat) (type : PacketType) (packet : AnyPacket) (valid_type : bool)
    (x : reader * S) : bool * (reader * S) :=
  (false, snd (invoke_cb offset type packet true valid_type x)).

(** One [case] of the dispatch: a parsed object, or the object as far as it
    was parsed. *)
Definition parsed {P} (offset : nat) (type : PacketType) (wrap : P -> AnyPacket)
    (res : bool * (P * reader)) (s : S) : bool * (reader * S) :=
  match res with
  | (true, (p, r)) => invoke_cb offset type (wrap p) false true (r, s)
  | (false, (p, r)) => fail_cb offset type (wrap p) true (r, s)
  end.

Definition parse_packet : reader * S -> option (bool * (reader * S)) :=
  fun '(r, s) =>
    if rd_empty r then Some (false, (r, s))
    else
      let offset := rd_index r in
      let flags := rd_top r in
      if PacketFlags.is_long flags then
        let peek := rd_offset r 1 in
        let '(ok, version, _) := read_num 4 peek 0 in
        if negb ok then Some (fail_cb offset Unknown (APacket flags) false (r, s))
        else if version =? version_negotiation then
          match VersionNegotiationPacket.parse (empty_verneg, r) with
          | None => None
          | Some res => Some (parsed offset VersionNegotiation AVersionNegotiationPacket res s)
          end
        else
          match PacketFlags.type flags version with
          | Initial => Some (parsed offset Initial AInitialPacketCipher
              (LongPacketCipherBase.parse tag_len (empty_cipher empty_initial, r)) s)
          | ZeroRTT => Some (parsed offset ZeroRTT AZeroRTTPacketCipher
              (LongPacketCipherBase.parse tag_len (empty_cipher empty_partial, r)) s)
          | Handshake => Some (parsed offset Handshake AHandshakePacketCipher
              (LongPacketCipherBase.parse tag_len (empty_cipher empty_partial, r)) s)
          | Retry => Some (parsed offset Retry ARetryPacket (RetryPacket.parse (empty_retry, r)) s)
          | _ => Some (fail_cb offset LongPacket
              (ALongPacketBase (LongPacketBase.mk flags version 0 [] 0 [])) false (r, s))
          end
      else
        let '(ok, (reset, peek)) := StatelessReset.parse (empty_reset, r) in
        if ok && is_stateless_reset reset
        then Some (invoke_cb offset StatelessReset (AStatelessReset reset) false true (peek, s))
        else Some (parsed offset OneRTT AOneRTTPacketCipher
               (OneRTTPacketCipher.parse tag_len get_dstID_len (empty_onertt, r)) s).

(** The loop of [parse_packets]; every round consumes at least one byte. *)
Fixpoint packets_loop (fuel : nat) : reader * S -> option (bool * (reader * S)) :=
  fun '(r, s) =>
    match fuel with
    | O => None
    | Datatypes.S fuel' =>
        if rd_empty r then Some (true, (r, s))
        else
          match parse_packet (r, s) with
          | None => None
          | Some (false, x) => Some (false, x)
          | Some (true, x) => packets_loop fuel' x
          end
    end.

Definition parse_packets : reader * S -> option (bool * (reader * S)) :=
  fun '(r, s) => packets_loop (Datatypes.S (length (rd_remain r))) (r, s).
End Parse.
Arguments callback : clear implicits.

(** The overload on a writable span. *)
Definition parse_packets_span {S} (src : list Z) (auth_tag_len : Z) (cb : callback S)
    (is_stateless_reset : StatelessReset.t -> bool) (get_dstID_len : reader -> Z -> bool * Z) (s : S)
    : option (bool * (reader * S)) :=
  parse_packets auth_tag_len cb is_stateless_reset get_dstID_len (new_reader src, s).

(** ** [with_crypto_parse] *)

(** [packet.head_len()] of the four cipher types, [None] for the others. *)
Definition cipher_head_len (p : AnyPacket) : option Z :=
  match p with
  | AInitialPacketCipher c => Some (LongPacketCipherBase.head_len c)
  | AZeroRTTPacketCipher c => Some (LongPacketCipherBase.head_len c)
  | AHandshakePacketCipher c => Some (LongPacketCipherBase.head_len c)
  | AOneRTTPacketCipher c => Some (OneRTTPacketCipher.head_len c)
  | _ => None
  end.

Definition with_crypto_parse {S}
    (crypto_cb : PacketType -> AnyPacket -> CryptoPacket.t -> S -> bool * S)
    (plain_cb : PacketType -> AnyPacket -> list Z -> S -> bool * S)
    (err_cb : callback S) (check_connID : AnyPacket -> list Z -> S -> bool * S) : callback S :=
  fun type packet src err valid_type s =>
    if negb valid_type || err then err_cb type packet src err valid_type s
    else
      match cipher_head_len packet with
      | Some head_len =>
          let '(ok, s) := check_connID packet src s in
          if negb ok then (true, s)
          else crypto_cb type packet (CryptoPacket.mk src head_len packetnum.infinity) s
      | None => plain_cb type packet src s
      end.

(** ** [convert_cipher_to_plain] *)

Definition convert_long_to_plain {P} `{PartialPacket P} (parsed : CryptoPacket.t)
    (plain : LongPacketPlainBase.t P) (tag_len : Z) : LongPacketPlainBase.t P * bool :=
  let '(ok, (plain, _)) :=
    LongPacketPlainBase.parse tag_len (plain, new_reader (CryptoPacket.src parsed)) in
  (plain, ok).

Definition convert_onertt_to_plain (parsed : CryptoPacket.t) (cipher : OneRTTPacketCipher.t)
    (plain : OneRTTPacketPlain.t) (tag_len : Z) : OneRTTPacketPlain.t * bool :=
  let '(ok, (plain, _)) :=
    OneRTTPacketPlain.parse tag_len
      (fun _ _ => (true, size (OneRTTPacketPartial.dstID (OneRTTPacketCipher.part cipher))))
      (plain, new_reader (CryptoPacket.src parsed)) in
  (plain, ok).

(** ** [summarize] *)

Definition summarize_long (type : PacketType) (b : LongPacketBase.t) (token : list Z) (pn : Z)
    : PacketSummary :=
  mk_PacketSummary type (LongPacketBase.version b) (LongPacketBase.dstID b) (LongPacketBase.srcID b)
    token pn packetnum.infinity false false.

(** The types for which [summarize] compiles. *)
Definition summarize (packet : AnyPacket) (pn : Z) : option PacketSummary :=
  match packet with
  | AInitialPacketCipher c =>
      let p := LongPacketCipherBase.part c in
      Some (summarize_long Initial (InitialPacketPartial.base p) (InitialPacketPartial.token p) pn)
  | AHandshakePacketCipher c =>
      Some (summarize_long Handshake
              (HandshakeZeroRTTParital.base (LongPacketCipherBase.part c)) [] pn)
  | AZeroRTTPacketCipher c =>
      Some (summarize_long ZeroRTT
              (HandshakeZeroRTTParital.base (LongPacketCipherBase.part c)) [] pn)
  | AOneRTTPacketCipher c =>
      let p := OneRTTPacketCipher.part c in
      let flags := OneRTTPacketPartial.flags p in
      Some (mk_PacketSummary OneRTT 0 (OneRTTPacketPartial.dstID p) [] [] pn packetnum.infinity
              (PacketFlags.key_phase flags) (PacketFlags.spin flags))
  | ARetryPacket p =>
      let b := RetryPacket.base p in
      Some (mk_PacketSummary Retry 0 (LongPacketBase.dstID b) (LongPacketBase.srcID b)
              (RetryPacket.retry_token p) 0 packetnum.infinity false false)
  | _ => None
  end.

(** ** [create_packet] *)

Section Create.
Context {S : Type} (summary : PacketSummary) (largest_acked auth_tag_len : Z) (use_full : bool)
  (render_payload : packetnum.WireVal -> writer * S -> bool * (writer * S)).

(** [full()]. *)
Definition wr_full (w : writer) : bool := size (wr_buf w) =? Z.of_nat (wr_index w).

(** The lambda [with_padding]; its state carries the captured [payload_len]. *)
Definition with_padding (wire : packetnum.WireVal) : writer * (S * Z) -> bool * (writer * (S * Z)) :=
  fun '(w, (s, payload_len)) =>
    let poffset := wr_index w in
    let '(ok, (w, s)) := render_payload wire (w, s) in
    if negb ok then (false, (w, (s, payload_len)))
    else
      let w := if use_full && negb (wr_full w) then snd (wr_fill 0 (size (wr_remain w)) w) else w in
      (true, (w, (s, u64 (Z.of_nat (wr_index w) - Z.of_nat poffset)))).

(** The lambda [get_crypto_packet]. *)
Definition get_crypto_packet (offset : nat) (wire : packetnum.WireVal) (w : writer) (payload_len : Z)
    : CryptoPacket.t :=
  let src := rsubstr (wr_written w) (Z.of_nat offset) u64_max in
  CryptoPacket.mk src
    (u64 (size src - payload_len - auth_tag_len - packetnum.wlen wire))
    (ps_packet_number summary).

(** [{{}, false}], or the packet that was rendered. *)
Definition created (offset : nat) (wire : packetnum.WireVal) (res : bool * (writer * (S * Z)))
    : option CryptoPacket.t * (writer * S) :=
  let '(ok, (w, (s, payload_len))) := res in
  (if ok then Some (get_crypto_packet offset wire w payload_len) else None, (w, s)).

Definition summary_base : LongPacketBase.t :=
  LongPacketBase.mk 0 (ps_version summary) 0 (ps_dstID summary) 0 (ps_srcID summary).

(** The lambda [render_long]. *)
Definition render_long {P} `{PartialPacket P} (offset : nat) (wire : packetnum.WireVal)
    (plain : P) (x : writer * S) : option CryptoPacket.t * (writer * S) :=
  let '(w, s) := x in
  created offset wire
    (LongPacketPlainBase.render_in_place (LongPacketPlainBase.mk plain 0 [] []) wire
       (with_padding wire) auth_tag_len 0 (w, (s, 0))).

Definition create_packet : writer * S -> option CryptoPacket.t * (writer * S) :=
  fun '(w, s) =>
    match packetnum.encode (ps_packet_number summary) largest_acked with
    | None => (None, (w, s))
    | Some wire =>
        let offset := wr_index w in
        match ps_type summary with
        | Initial => render_long offset wire
            (InitialPacketPartial.mk summary_base empty_value (ps_token summary) empty_value) (w, s)
        | Handshake => render_long offset wire
            (HandshakeZeroRTTParital.mk (type := Handshake) summary_base empty_value) (w, s)
        | ZeroRTT => render_long offset wire
            (HandshakeZeroRTTParital.mk (type := ZeroRTT) summary_base empty_value) (w, s)
        | OneRTT => created offset wire
            (OneRTTPacketPlain.render_in_place
               (OneRTTPacketPlain.mk (OneRTTPacketPartial.mk 0 (ps_dstID summary)) 0 [] [])
               (ps_version summary) wire (ps_key_bit summary) (with_padding wire)
               auth_tag_len 0 (ps_spin summary) (w, (s, 0)))
        | _ => (None, (w, s))
        end
    end.
End Create.

(** * Lemmas *)

(** ** Every parser only moves forward *)

Lemma base_check_advances t : advances (LongPacketBase.parse_check t).
Proof. unfold LongPacketBase.parse_check, LongPacketBase.parse. auto 20 with wire. Qed.

Lemma base_check_progresses t : progresses (LongPacketBase.parse_check t).
Proof. unfold LongPacketBase.parse_check, LongPacketBase.parse. auto 20 with wire. Qed.

#[export] Hint Resolve base_check_advances base_check_progresses : wire.

Lemma retry_advances : advances RetryPacket.parse.
Proof. unfold RetryPacket.parse. auto 10 with wire. Qed.

Lemma retry_progresses : progresses RetryPacket.parse.
Proof. unfold RetryPacket.parse. apply progresses_andM; auto 10 with wire. Qed.

Lemma reset_advances : advances StatelessReset.parse.
Proof. unfold StatelessReset.parse. auto 10 with wire. Qed.

Lemma reset_progresses : progresses StatelessReset.parse.
Proof. unfold StatelessReset.parse. apply progresses_andM; auto 10 with wire. Qed.

Lemma onertt_partial_advances gd : advances (OneRTTPacketPartial.parse gd).
Proof.
  unfold OneRTTPacketPartial.parse, Packet.parse_check. apply advances_andM; [auto with wire |].
  intros f r b f' r' Hr. destruct (gd r 0) as [[] len].
  - by apply advances_field.
  - intros [= <- <- <-]. auto.
Qed.

Lemma onertt_partial_progresses gd : progresses (OneRTTPacketPartial.parse gd).
Proof.
  unfold OneRTTPacketPartial.parse, Packet.parse_check. apply progresses_andM; [auto with wire .. |].
  intros f r b f' r' Hr. destruct (gd r 0) as [[] len].
  - by apply advances_field.
  - intros [= <- <- <-]. auto.
Qed.

#[export] Hint Resolve onertt_partial_advances onertt_partial_progresses : wire.

Lemma onertt_advances tag gd : advances (OneRTTPacketCipher.parse tag gd).
Proof. unfold OneRTTPacketCipher.parse. auto 10 with wire. Qed.

Lemma onertt_progresses tag gd : progresses (OneRTTPacketCipher.parse tag gd).
Proof. unfold OneRTTPacketCipher.parse. apply progresses_andM; auto 10 with wire. Qed.

Lemma versions_loop_advances fuel f r b f' r' :
  rd_ok r -> VersionNegotiationPacket.versions_loop fuel (f, r) = Some (b, (f', r')) ->
  rd_buf r' = rd_buf r /\ (rd_index r <= rd_index r')%nat /\ rd_ok r'.
Proof.
  revert f r. induction fuel as [| fuel IH]; intros f r Hr E; [done |]. simpl in E.
  destruct (rd_empty r); [by injection E as <- <- <- |].
  unfold read_num in E. destruct (read_internal r (Z.of_nat 4)) as [[d ok] r1] eqn:E1.
  apply read_internal_advances in E1 as (A1 & A2 & A3); [| done].
  destruct ok; [| by injection E as <- <- <-].
  apply IH in E as (B1 & B2 & B3); [| done]. split_and!; auto; [congruence | lia].
Qed.

Lemma vn_advances f r b f' r' :
  rd_ok r -> VersionNegotiationPacket.parse (f, r) = Some (b, (f', r')) ->
  rd_buf r' = rd_buf r /\ (rd_index r <= rd_index r')%nat /\ rd_ok r' /\
  (b = true -> (rd_index r < rd_index r')%nat).
Proof.
  intros Hr E. unfold VersionNegotiationPacket.parse in E.
  destruct (zoom _ _ _ (f, r)) as [ok [f1 r1]] eqn:Ez.
  destruct (advances_zoom _ _ _ (base_check_advances VersionNegotiation) _ _ _ _ _ Hr Ez) as (A1 & A2 & A3).
  destruct ok.
  - pose proof (progresses_zoom _ _ _ (base_check_progresses VersionNegotiation) _ _ _ _ Hr Ez).
    apply versions_loop_advances in E as (B1 & B2 & B3); [| done]. split_and!; auto; [congruence | lia | lia].
  - injection E as <- <- <-. by split_and!.
Qed.

(** ** One packet is one event

    What [parse_packet] reports does not depend on the callback: it is a
    packet type, a packet, two marks, and how far the reader has moved. *)

Record event := mk_event {
  ev_type : PacketType; ev_packet : AnyPacket; ev_err : bool; ev_valid : bool; ev_reader : reader }.

Definition ev_src (r : reader) (e : event) : list Z :=
  drop (rd_index r) (take (rd_index (ev_reader e)) (rd_buf r)).

(** Running the callback on an event. *)
Definition run_event {S} (cb : callback S) (r : reader) (e : event) (s : S) : bool * (reader * S) :=
  let '(ok, s') := cb (ev_type e) (ev_packet e) (ev_src r e) (ev_err e) (ev_valid e) s in
  (negb (ev_err e) && ok, (ev_reader e, s')).

Definition event_of (tag_len : Z) isr gd (r : reader) (e : event) : Prop :=
  (forall S (cb : callback S) s, parse_packet tag_len cb isr gd (r, s) = Some (run_event cb r e s)) /\
  rd_buf (ev_reader e) = rd_buf r /\ (rd_index r <= rd_index (ev_reader e))%nat /\
  rd_ok (ev_reader e) /\ (ev_err e = false -> (rd_index r < rd_index (ev_reader e))%nat).

Lemma src_eq r r' :
  rd_ok r' -> rd_buf r' = rd_buf r -> (rd_index r <= rd_index r')%nat ->
  rsubstr (rd_read r') (Z.of_nat (rd_index r)) u64_max =
    drop (rd_index r) (take (rd_index r') (rd_buf r)).
Proof.
  intros [Hi Hs] Hb Hle. unfold rd_read. rewrite rsubstr_take, Hb by (rewrite <- ?Hb; done).
  apply rsubstr_drop; [rewrite length_take, <- Hb; lia |].
  unfold size in *. rewrite length_take, <- Hb. lia.
Qed.

Section Events.
Context (tag_len : Z) (isr : StatelessReset.t -> bool) (gd : reader -> Z -> bool * Z).

Lemma event_of_fail r type p valid :
  rd_ok r ->
  (forall S (cb : callback S) s, parse_packet tag_len cb isr gd (r, s) =
     Some (fail_cb cb (rd_index r) type p valid (r, s))) ->
  exists e, event_of tag_len isr gd r e.
Proof.
  intros Hr E. exists (mk_event type p true valid r). split; [| split_and!; cbn; done || lia].
  intros S cb s. rewrite E. unfold fail_cb, invoke_cb, run_event, ev_src. cbn [ev_type ev_packet ev_err ev_valid ev_reader].
  rewrite src_eq by done. by destruct (cb _ _ _ _ _ s).
Qed.

Lemma event_of_parsed {P} r type (wrap : P -> AnyPacket) ok p r' :
  rd_ok r -> rd_buf r' = rd_buf r -> (rd_index r <= rd_index r')%nat -> rd_ok r' ->
  (ok = true -> (rd_index r < rd_index r')%nat) ->
  (forall S (cb : callback S) s, parse_packet tag_len cb isr gd (r, s) =
     Some (parsed cb (rd_index r) type wrap (ok, (p, r')) s)) ->
  exists e, event_of tag_len isr gd r e.
Proof.
  intros Hr Hb Hi Hr' Hp E. exists (mk_event type (wrap p) (negb ok) true r'). split.
  - intros S cb s. rewrite E. unfold parsed, fail_cb, invoke_cb, run_event, ev_src.
    cbn [ev_type ev_packet ev_err ev_valid ev_reader]. rewrite src_eq by done.
    destruct ok; cbn; by destruct (cb _ _ _ _ _ s).
  - split_and!; auto. cbn. intros E1. apply Hp. by destruct ok.
Qed.

Lemma event_of_chain {P} r type (wrap : P -> AnyPacket) (q : P * reader -> bool * (P * reader)) p0 :
  advances q -> progresses q -> rd_ok r ->
  (forall S (cb : callback S) s, parse_packet tag_len cb isr gd (r, s) =
     Some (parsed cb (rd_index r) type wrap (q (p0, r)) s)) ->
  exists e, event_of tag_len isr gd r e.
Proof.
  intros Ha Hp Hr E. destruct (q (p0, r)) as [ok [p r']] eqn:Eq.
  destruct (Ha _ _ _ _ _ Hr Eq) as (A1 & A2 & A3).
  apply (event_of_parsed r type wrap ok p r'); auto.
  intros ->. by apply (Hp _ _ _ _ Hr Eq).
Qed.

Lemma parse_packet_event r :
  rd_ok r -> rd_empty r = false -> exists e, event_of tag_len isr gd r e.
Proof.
  intros Hr Hne. destruct (PacketFlags.is_long (rd_top r)) eqn:Hl.
  - destruct (read_num 4 (rd_offset r 1) 0) as [[ok version] r1] eqn:En.
    destruct ok.
    2: { eapply (event_of_fail r Unknown (APacket (rd_top r)) false); [done |].
         intros. unfold parse_packet. rewrite Hne, Hl, En. done. }
    destruct (version =? version_negotiation) eqn:Ev.
    { destruct (vn_parse_total (empty_verneg, r) Hr) as [[ok [p r']] Evn].
      destruct (vn_advances _ _ _ _ _ Hr Evn) as (A1 & A2 & A3 & A4).
      eapply (event_of_parsed r VersionNegotiation AVersionNegotiationPacket ok p r'); auto.
      intros. unfold parse_packet. rewrite Hne, Hl, En. cbn [negb]. rewrite Ev, Evn. done. }
    destruct (PacketFlags.type (rd_top r) version) eqn:Et;
      try (eapply (event_of_fail r LongPacket); [done |]; intros; unfold parse_packet;
           rewrite Hne, Hl, En; cbn [negb]; rewrite Ev, Et; reflexivity);
      (eapply event_of_chain; [| | done | intros; unfold parse_packet; rewrite Hne, Hl, En;
         cbn [negb]; rewrite Ev, Et; reflexivity]);
      first [apply cipher_advances | apply cipher_progresses | apply retry_advances | apply retry_progresses].
  - destruct (StatelessReset.parse (empty_reset, r)) as [ok [reset peek]] eqn:Es.
    destruct (reset_advances _ _ _ _ _ Hr Es) as (A1 & A2 & A3).
    destruct (ok && isr reset) eqn:Ei.
    + apply andb_true_iff in Ei as [-> Ei].
      pose proof (reset_progresses _ _ _ _ Hr Es).
      eapply (event_of_parsed r StatelessReset AStatelessReset true reset peek); auto.
      intros. unfold parse_packet. rewrite Hne, Hl, Es, Ei. done.
    + eapply event_of_chain; [apply onertt_advances | apply onertt_progresses | done |].
      intros. unfold parse_packet. rewrite Hne, Hl, Es, Ei. reflexivity.
Qed.
End Events.

(** ** Datagrams *)

(** A callback that also keeps the spans it was shown. *)
Definition logged {S} (cb : callback S) : callback (S * list (list Z)) :=
  fun type p src err valid '(s, log) =>
    let '(ok, s') := cb type p src err valid s in (ok, (s', log ++ [src])).

Lemma remain_shrinks r r' :
  rd_ok r -> rd_ok r' -> rd_buf r' = rd_buf r -> (rd_index r < rd_index r')%nat ->
  (length (rd_remain r') < length (rd_remain r))%nat.
Proof.
  intros H1 H2 Hb Hi. rewrite !rd_remain_length, Hb by done. destruct H2. rewrite Hb in *. lia.
Qed.

Lemma ev_src_app r e :
  (rd_index r <= rd_index (ev_reader e))%nat ->
  take (rd_index (ev_reader e)) (rd_buf r) = take (rd_index r) (rd_buf r) ++ ev_src r e.
Proof.
  intros Hi. unfold ev_src. rewrite <- (take_drop (rd_index r) (take (rd_index (ev_reader e)) _)) at 1.
  f_equal. rewrite take_take. f_equal. lia.
Qed.

Lemma packets_loop_partition {S} tag_len (cb : callback S) isr gd fuel r s log :
  rd_ok r -> (length (rd_remain r) < fuel)%nat ->
  exists ok r' s' log',
    packets_loop tag_len (logged cb) isr gd fuel (r, (s, log)) = Some (ok, (r', (s', log ++ log'))) /\
    rd_ok r' /\ rd_buf r' = rd_buf r /\
    take (rd_index r') (rd_buf r) = take (rd_index r) (rd_buf r) ++ concat log' /\
    Forall (fun src => src <> []) (removelast log') /\
    (ok = true -> rd_empty r' = true /\ Forall (fun src => src <> []) log').
Proof.
  revert r s log. induction fuel as [| fuel IH]; intros r s log Hr Hf; [lia |].
  cbn [packets_loop].
  destruct (rd_empty r) eqn:Hne.
  { exists true, r, s, []. rewrite !app_nil_r. split_and!; auto. }
  destruct (parse_packet_event tag_len isr gd r Hr Hne) as (e & He & Hb & Hi & Hok & Hp).
  rewrite (He _ (logged cb) (s, log)). unfold run_event. cbn [logged].
  set (src := ev_src r e).
  destruct (cb (ev_type e) (ev_packet e) src (ev_err e) (ev_valid e) s) as [ok s'] eqn:Ec.
  pose proof (ev_src_app r e Hi) as Happ. fold src in Happ.
  destruct (negb (ev_err e) && ok) eqn:Eok.
  - apply andb_true_iff in Eok as [Ee ->]. apply negb_true_iff in Ee. specialize (Hp Ee).
    destruct (IH (ev_reader e) s' (log ++ [src]) Hok) as (ok & r' & s2 & log' & E & H1 & H2 & H3 & H5 & H4).
    { pose proof (remain_shrinks r (ev_reader e) Hr Hok Hb Hp). lia. }
    exists ok, r', s2, (src :: log'). rewrite E, <- app_assoc. split; [done |].
    assert (Hsrc : src <> []).
    { intros E0. rewrite E0, app_nil_r in Happ. apply (f_equal length) in Happ.
      destruct Hok as [Hio _]. rewrite Hb in Hio. rewrite !length_take in Happ. lia. }
    rewrite Hb in *. split_and!; [done | done | | |].
    + by rewrite H3, Happ, <- app_assoc.
    + simpl. destruct log'; [constructor | by constructor].
    + intros ->. destruct (H4 eq_refl). split; [done |]. by constructor.
  - exists false, (ev_reader e), s', [src]. split_and!; [done | done | done | | constructor | done].
    simpl. by rewrite app_nil_r.
Qed.

(** C37. A received datagram: [parse_packets] always ends, and whatever the
    callback does, the spans it is shown are consecutive, follow each other
    without gap or overlap from where the reader stood, and all but the last
    are non-empty; when it reports success, the last is non-empty too and they
    cover the datagram to its end. (The last span of a datagram that could
    not be parsed to its end is empty if the failure was found before
    anything of the packet was read.) *)
Theorem parse_packets_partition {S} tag_len (cb : callback S) isr gd r s :
  rd_ok r ->
  exists ok r' s' log,
    parse_packets tag_len (logged cb) isr gd (r, (s, [])) = Some (ok, (r', (s', log))) /\
    rd_buf r' = rd_buf r /\
    take (rd_index r') (rd_buf r) = take (rd_index r) (rd_buf r) ++ concat log /\
    Forall (fun src => src <> []) (removelast log) /\
    (ok = true -> rd_remain r = concat log /\ Forall (fun src => src <> []) log).
Proof.
  intros Hr. unfold parse_packets.
  destruct (packets_loop_partition tag_len cb isr gd (Datatypes.S (length (rd_remain r))) r s [] Hr)
    as (ok & r' & s' & log & E & H1 & H2 & H3 & H5 & H4); [lia |].
  exists ok, r', s', log. split_and!; auto. intros Hk. destruct (H4 Hk) as [He Hne]. split; [| done].
  rewrite rd_remain_eq by done. apply Z.eqb_eq in He. unfold size in He.
  rewrite H2 in He. rewrite take_ge in H3 by lia. rewrite H3.
  rewrite drop_app_length'; [done |]. rewrite length_take. destruct Hr. lia.
Qed.

(** A datagram with an Initial packet, then one cut in the middle
    of a long header. *)
Lemma parse_packets_partition_witness :
  let bytes := [0xC0; 0; 0; 0; 1; 0; 0; 0; 4; 1; 2; 3; 4; 0xE0; 0; 0] in
  let cb : callback (list PacketType) := fun ty _ _ _ _ s => (true, s ++ [ty]) in
  exists ok r' s' log,
    parse_packets 2 (logged cb) (fun _ => false) (fun _ _ => (true, 0))
      (new_reader bytes, ([], [])) = Some (ok, (r', (s', log))) /\
    rd_buf r' = bytes /\ take (rd_index r') bytes = [] ++ concat log /\
    ok = false /\ s' = [Initial; Unknown].
Proof.
  cbv zeta.
  destruct (parse_packets_partition 2 (fun ty _ _ _ _ s => (true, s ++ [ty])) (fun _ => false)
    (fun _ _ => (true, 0)) (new_reader [0xC0; 0; 0; 0; 1; 0; 0; 0; 4; 1; 2; 3; 4; 0xE0; 0; 0])
    ([] : list PacketType)) as (ok & r' & s' & log & E & H1 & H2 & _ & _).
  { split; vm_compute; [lia | discriminate]. }
  exists ok, r', s', log. split_and!; [exact E | exact H1 | exact H2 | |];
    vm_compute in E; injection E as <- <- <- <-; reflexivity.
Defined.
