(* ===== verification/PacketCreate.v ===== *)
(** * From [create_packet] to [parse_packets]

    What a sender creates (packet/creation.h), packet protection changes and
    a receiver parses (packet/parse.h). Packet protection itself is code
    outside this model (packet/../crypto, TLS): [protected] states what it
    may change of a packet, RFC 9001 section 5.4. *)

From stdpp Require Import base list.
From Stdlib Require Import ZArith Lia.
From S2P Require Import Prelude Bytes Varint PacketNumber Types PacketBase LongPacket ShortPacket PacketParse.

(** Packet protection keeps the header, except for the bits of the first
    byte that the mask covers, and the length of everything behind it. *)
Definition protected (c : CryptoPacket.t) (src : list Z) : Prop :=
  exists b h x y m,
    CryptoPacket.src c = (b :: h) ++ x /\ size (b :: h) = CryptoPacket.head_len c /\
    src = (PacketFlags.protect b m :: h) ++ y /\ length y = length x.

(** The receiver's view of a packet agrees with the sender's summary. *)
Definition received_as (sm : PacketSummary) (pkt : AnyPacket) : Prop :=
  forall pn, exists sm',
    summarize pkt pn = Some sm' /\
    ps_type sm' = ps_type sm /\ ps_dstID sm' = ps_dstID sm /\ ps_packet_number sm' = pn /\
    (ps_type sm <> OneRTT -> ps_version sm' = ps_version sm /\ ps_srcID sm' = ps_srcID sm) /\
    (ps_type sm = Initial -> ps_token sm' = ps_token sm) /\
    (ps_type sm = OneRTT -> ps_spin sm' = ps_spin sm).

(** [parse_packet] on [src], followed by [rest], reports [pkt] with exactly
    [src] and continues behind it. *)
Definition parses_as tag_len isr gd (ty : PacketType) (pkt : AnyPacket) (src rest : list Z) : Prop :=
  forall S (cb : callback S) r s, rd_ok r -> rd_remain r = src ++ rest ->
    parse_packet tag_len cb isr gd (r, s) =
      Some (let '(ok, s') := cb ty pkt src false true s in
            (ok, (rd_advance r (length src), s'))).

(** ** The mask leaves the packet type alone *)

Lemma protect_type b m : PacketFlags.type (PacketFlags.protect b m) 1 = PacketFlags.type b 1.
Proof.
  unfold PacketFlags.type. rewrite protect_is_short.
  destruct (PacketFlags.is_short b) eqn:E; [done |].
  unfold PacketFlags.protect, PacketFlags.protect_mask. rewrite E.
  rewrite land_lxor_distr_l, <- Z.land_assoc. change (Z.land 15 48) with 0.
  by rewrite Z.land_0_r, Z.lxor_0_r.
Qed.

Lemma protect_spin b m : PacketFlags.spin (PacketFlags.protect b m) = PacketFlags.spin b.
Proof.
  unfold PacketFlags.spin. rewrite protect_is_short.
  destruct (PacketFlags.is_short b) eqn:E; [| done].
  unfold PacketFlags.protect, PacketFlags.protect_mask. rewrite E.
  rewrite land_lxor_distr_l, <- Z.land_assoc. change (Z.land 31 32) with 0.
  by rewrite Z.land_0_r, Z.lxor_0_r.
Qed.

Lemma encode_wire_ok pn la wire : packetnum.encode pn la = Some wire -> pn_ok wire.
Proof.
  unfold packetnum.encode, pn_ok. cbv zeta. set (mb := _ / 8 + _). clearbody mb.
  repeat case_match; intros [= <-]; simpl; lia.
Qed.

(** ** [create_packet] *)

Lemma written_since w bs w' :
  wr_ok w -> writes w bs w' -> rsubstr (wr_written w') (Z.of_nat (wr_index w)) u64_max = bs.
Proof.
  intros Hw HW. rewrite (writes_written w bs w' Hw HW), wr_written_eq by done.
  pose proof HW as ([Hi Hs] & Hl & Hx & _). destruct Hw as [Hi0 Hs0].
  rewrite rsubstr_drop.
  - apply drop_app_length'. rewrite length_take. lia.
  - rewrite length_app, length_take. lia.
  - unfold size in *. rewrite length_app, length_take. lia.
Qed.

Section Creating.
Context {S : Type} (sm : PacketSummary) (la tag : Z) (use_full : bool)
  (rp : packetnum.WireVal -> writer * S -> bool * (writer * S)).
Context (Hrp : forall wire, appends (rp wire)) (Htag : 0 < tag < 2 ^ 62).

(** Filling the rest of the buffer appends zeros. *)
Lemma pad_full (c : bool) t bs :
  wr_ok t -> size bs <= wr_room t ->
  exists bs', size bs' <= wr_room t /\
    (if c then snd (wr_fill 0 (size (wr_remain (wr_put t bs))) (wr_put t bs)) else wr_put t bs) =
      wr_put t bs'.
Proof.
  intros Ht Hbs. destruct c; [| eauto].
  assert (Hok : wr_ok (wr_put t bs)) by by apply wr_put_ok.
  rewrite wr_remain_size by done. pose proof (wr_put_room t bs Ht Hbs) as Hr.
  rewrite wr_fill_put; [| done | unfold wr_room, size in *; lia
    | destruct Hok; unfold wr_room, size, u64_max in *; lia].
  cbn [snd]. set (z := replicate _ 0).
  assert (Hz : size z = wr_room t - size bs).
  { unfold z, size at 1. rewrite length_replicate, Hr. lia. }
  rewrite wr_put_put by (auto; lia). exists (bs ++ z). split; [rewrite size_app; lia | done].
Qed.

(** The payload and its zero padding, and the length that is remembered. *)
Lemma with_padding_spec wire t s pl t' s' pl' :
  wr_ok t -> with_padding use_full rp wire (t, (s, pl)) = (true, (t', (s', pl'))) ->
  exists bs, size bs <= wr_room t /\ t' = wr_put t bs /\ pl' = size bs.
Proof using Hrp.
  intros Ht E. unfold with_padding in E. destruct (rp wire (t, s)) as [[] [t1 s1]] eqn:Er; [| done].
  destruct (Hrp wire _ _ _ _ Ht Er) as (bs & Hbs & ->). cbn [negb] in E.
  destruct (pad_full (use_full && negb (wr_full (wr_put t bs))) t bs Ht Hbs) as (bs' & Hbs' & Ep).
  rewrite Ep in E. exists bs'. split; [done |]. split; [congruence |].
  assert (pl' = u64 (Z.of_nat (wr_index (wr_put t bs')) - Z.of_nat (wr_index t))) as -> by congruence.
  destruct Ht as [? Hs]. unfold wr_put. cbn [wr_index].
  rewrite u64_small; unfold is_u64, u64_max, wr_room, size in *; lia.
Qed.

Lemma with_padding_appends wire : appends (with_padding use_full rp wire).
Proof.
  intros t [s pl] t' [s' pl'] Ht E. apply with_padding_spec in E as (bs & ? & ? & ?); eauto.
Qed.

Lemma render_long_spec {P} `{PartialLaws P} wire p w s c w' s' :
  let b := make_packet_flags 1 (get_packet_type P) (packetnum.wlen wire) false false in
  wr_ok w -> wr_room w < 2 ^ 62 -> pn_ok wire ->
  render_long sm tag use_full rp (wr_index w) wire p (w, s) = (Some c, (w', s')) ->
  pp_wf p /\ exists bs L,
    writes w (CryptoPacket.src c) w' /\
    varint.writable L /\ varint.value L = packetnum.wlen wire + size bs + tag /\
    CryptoPacket.src c = (pp_hdr p b ++ varint.enc L) ++
      write_be (Z.to_nat (packetnum.wlen wire)) (packetnum.wvalue wire) ++ bs ++
      replicate (Z.to_nat tag) 0 /\
    CryptoPacket.head_len c = size (pp_hdr p b ++ varint.enc L).
Proof.
  intros b Hw Hroom Hk E. unfold render_long, created in E.
  destruct (LongPacketPlainBase.render_in_place _ _ _ _ _ _) as [ok [w1 [s1 pl]]] eqn:Er.
  destruct ok; [| done]. injection E as <- <- <-.
  apply in_place_inv in Er as (Hwf & bs & Htok & Hcb & Hbs & Hbb & HW);
    auto using with_padding_appends; [| lia].
  cbn [LongPacketPlainBase.part] in *. fold b in Hcb, HW. split; [done |].
  assert (Hpl : pl = size bs).
  { apply with_padding_spec in Hcb as (bs' & _ & Eb & ->); [| done].
    apply (f_equal wr_index) in Eb. unfold wr_put in Eb. cbn [wr_index] in Eb. unfold size. lia. }
  set (L := varint.of_uint (packetnum.wlen wire + size bs + tag)).
  pose proof Hbb as (B1 & B2 & B3 & B4). unfold pn_ok in Hk.
  assert (HL : varint.writable L) by (apply writable_uint; lia).
  assert (Hwire : plain_wire p b wire bs 0 tag = (pp_hdr p b ++ varint.enc L) ++
      write_be (Z.to_nat (packetnum.wlen wire)) (packetnum.wvalue wire) ++ bs ++
      replicate (Z.to_nat tag) 0).
  { unfold plain_wire, body, body_front. rewrite length_value_eq by lia. rewrite Z.add_0_r.
    fold L. simpl. by rewrite app_nil_r, <- !app_assoc. }
  exists bs, L. unfold get_crypto_packet. cbn [CryptoPacket.src CryptoPacket.head_len].
  rewrite (written_since _ _ _ Hw HW). split_and!; auto.
  rewrite Hpl, Hwire. set (H' := pp_hdr p b ++ varint.enc L). rewrite !size_app.
  assert (size (write_be (Z.to_nat (packetnum.wlen wire)) (packetnum.wvalue wire)) = packetnum.wlen wire)
    as -> by (unfold size; rewrite length_write_be; lia).
  assert (size (replicate (Z.to_nat tag) 0) = tag) as ->
    by (unfold size; rewrite length_replicate; lia).
  assert (size H' <= wr_room w).
  { pose proof (writes_room _ _ _ HW) as Hr. rewrite Hwire in Hr. fold H' in Hr. rewrite size_app in Hr.
    pose proof (size_nonneg (write_be (Z.to_nat (packetnum.wlen wire)) (packetnum.wvalue wire) ++ bs ++
      replicate (Z.to_nat tag) 0)).
    assert (0 <= wr_room w1) by (destruct HW as ([? ?] & _); unfold wr_room, size; lia).
    clear -H Hr H1 H2. lia. }
  pose proof (size_nonneg H'). rewrite u64_small by (unfold is_u64; lia). lia.
Qed.

Lemma render_onertt_spec wire w s c w' s' :
  let b := make_packet_flags 1 OneRTT (packetnum.wlen wire) (ps_spin sm) (ps_key_bit sm) in
  wr_ok w -> wr_room w < 2 ^ 62 -> pn_ok wire ->
  created sm tag (wr_index w) wire (OneRTTPacketPlain.render_in_place
      (OneRTTPacketPlain.mk (OneRTTPacketPartial.mk 0 (ps_dstID sm)) 0 [] [])
      (ps_version sm) wire (ps_key_bit sm) (with_padding use_full rp wire) tag 0 (ps_spin sm)
      (w, (s, 0))) = (Some c, (w', s')) ->
  exists bs, writes w (CryptoPacket.src c) w' /\
    CryptoPacket.src c = (b :: ps_dstID sm) ++
      write_be (Z.to_nat (packetnum.wlen wire)) (packetnum.wvalue wire) ++ bs ++
      replicate (Z.to_nat tag) 0 /\
    CryptoPacket.head_len c = size (b :: ps_dstID sm).
Proof using Hrp Htag.
  intros b Hw Hroom Hk E. unfold created in E.
  destruct (OneRTTPacketPlain.render_in_place _ _ _ _ _ _ _ _ _) as [ok [w1 [s1 pl]]] eqn:Er.
  destruct ok; [| done]. injection E as <- <- <-.
  apply onertt_in_place_inv in Er as (bs & Hbs & (t & Htok & Hcb & Hbt) & HW);
    [| apply with_padding_appends | done | done | unfold u64_max; lia | unfold u64_max; lia].
  cbn [OneRTTPacketPlain.part OneRTTPacketPartial.dstID] in HW. fold b in HW.
  assert (Hpl : pl = size bs).
  { apply with_padding_spec in Hcb as (bs' & _ & Eb & ->); [| done].
    apply (f_equal wr_index) in Eb. unfold wr_put in Eb. cbn [wr_index] in Eb. unfold size. lia. }
  exists bs. unfold get_crypto_packet. cbn [CryptoPacket.src CryptoPacket.head_len].
  rewrite (written_since _ _ _ Hw HW). split_and!; auto.
  pose proof (writes_room _ _ _ HW) as Hr. pose proof (proj1 HW) as [Hi _].
  assert (0 <= wr_room w1) by (unfold wr_room, size; lia).
  unfold onertt_wire, onertt_hdr in *. rewrite !size_app in *. unfold pn_ok in Hk.
  assert (size (write_be (Z.to_nat (packetnum.wlen wire)) (packetnum.wvalue wire)) = packetnum.wlen wire)
    as Es by (unfold size; rewrite length_write_be; lia).
  assert (size (replicate (Z.to_nat tag) 0) = tag) as Et by (unfold size; rewrite length_replicate; lia).
  rewrite Es, Et, Hpl, !size_cons, size_nil in *. change (size (replicate (Z.to_nat 0) 0)) with 0 in *.
  pose proof (size_nonneg bs). pose proof (size_nonneg (ps_dstID sm)).
  rewrite u64_small by (unfold is_u64; clearbody b; lia). clearbody b. lia.
Qed.
End Creating.

(** ** Parsing a protected packet *)

Lemma parses_as_of_reads {P} tag isr gd ty (wrap : P -> AnyPacket)
    (q : P * reader -> bool * (P * reader)) p0 pkt src rest :
  reads_at q p0 src rest pkt ->
  (forall S (cb : callback S) r s, rd_ok r -> rd_remain r = src ++ rest ->
     parse_packet tag cb isr gd (r, s) = Some (parsed cb (rd_index r) ty wrap (q (p0, r)) s)) ->
  parses_as tag isr gd ty (wrap pkt) src rest.
Proof.
  intros Hq Hd S cb r s Hr Hrem. rewrite Hd by done. rewrite (Hq r Hr Hrem).
  unfold parsed, invoke_cb. destruct (consumed_app r src rest Hr Hrem) as (Hr' & _ & _).
  rewrite src_eq by (done || simpl; lia). cbn [rd_advance rd_index].
  assert (drop (rd_index r) (take (rd_index r + length src) (rd_buf r)) = src) as ->.
  { rewrite <- take_drop_commute. rewrite rd_remain_eq in Hrem by done. rewrite Hrem.
    apply take_app_length. }
  by destruct (cb ty (wrap pkt) src false true s).
Qed.

(** The first five bytes of a long header select the parser. *)
Lemma long_dispatch b f tl r :
  rd_ok r -> rd_remain r = base_hdr f b 1 ++ tl ->
  rd_empty r = false /\ rd_top r = b /\ exists r', read_num 4 (rd_offset r 1) 0 = (true, 1, r').
Proof.
  intros Hr Hrem.
  assert (E : base_hdr f b 1 ++ tl = b :: (write_be 4 1 ++ ([size (LongPacketBase.dstID f)] ++
    LongPacketBase.dstID f ++ [size (LongPacketBase.srcID f)] ++ LongPacketBase.srcID f) ++ tl)).
  { unfold base_hdr. by rewrite <- !app_assoc. }
  rewrite E in Hrem. split_and!; [by eapply rd_empty_false | by eapply rd_top_head |].
  rewrite (rd_skip_one r b _ Hr Hrem). eexists. eapply (read_num_ok 4 _ 1).
  - apply rd_advance_ok; [done |]. rewrite Hrem. simpl. lia.
  - exact (rd_advance_remain r [b] _ Hr Hrem).
Qed.

Lemma parses_long {P} `{PartialLaws P} tag isr gd (wrap : LongPacketCipherBase.t P -> AnyPacket) e0
    p b L y :
  (forall S (cb : callback S) r s r', rd_empty r = false -> PacketFlags.is_long (rd_top r) = true ->
     read_num 4 (rd_offset r 1) 0 = (true, 1, r') ->
     PacketFlags.type (rd_top r) 1 = get_packet_type P ->
     parse_packet tag cb isr gd (r, s) = Some (parsed cb (rd_index r) (get_packet_type P) wrap
       (LongPacketCipherBase.parse tag (e0, r)) s)) ->
  pp_wf p -> PacketFlags.type b 1 = get_packet_type P -> varint.writable L -> 0 <= tag ->
  varint.value L = size y -> tag <= size y ->
  exists prot tagb, forall rest,
    parses_as tag isr gd (get_packet_type P)
      (wrap (LongPacketCipherBase.mk (pp_canon p b (varint.norm L)) prot tagb))
      ((pp_hdr p b ++ varint.enc L) ++ y) rest.
Proof.
  intros Hd Hwf Hb HL Ht HLv Hy.
  exists (take (Z.to_nat (size y - tag)) y), (drop (Z.to_nat (size y - tag)) y).
  set (prot := take _ y). set (tagb := drop _ y).
  assert (Hs : size tagb = tag) by (unfold tagb, size in *; rewrite length_drop; lia).
  assert (Ey : y = prot ++ tagb) by (symmetry; apply take_drop).
  rewrite Ey. intros rest.
  apply (parses_as_of_reads tag isr gd _ wrap (LongPacketCipherBase.parse tag) e0).
  - rewrite <- Hs. apply reads_cipher; auto. rewrite HLv, Ey, size_app. done.
  - intros S cb r s Hr Hrem. destruct (pp_hdr_base p) as [tl Htl]. rewrite Htl, <- !app_assoc in Hrem.
    destruct (long_dispatch b (pp_base p) _ r Hr Hrem) as (H1 & H2 & r' & H3).
    eapply Hd; eauto; rewrite H2; [| done].
    unfold PacketFlags.type, PacketFlags.is_long in *. destruct (PacketFlags.is_short b); [| done].
    pose proof pp_has_length as Hhl. rewrite <- Hb in Hhl. done.
Qed.

Lemma parses_onertt tag isr gd b id y :
  PacketFlags.is_short b = true -> 0 <= tag <= size y ->
  (forall r, gd r 0 = (true, size id)) -> (forall x, isr x = false) ->
  exists prot tagb,
    parses_as tag isr gd OneRTT
      (AOneRTTPacketCipher (OneRTTPacketCipher.mk (OneRTTPacketPartial.mk b id) prot tagb))
      ((b :: id) ++ y) [].
Proof.
  intros Hb Ht Hgd Hisr.
  exists (take (Z.to_nat (size y - tag)) y), (drop (Z.to_nat (size y - tag)) y).
  set (prot := take _ y). set (tagb := drop _ y).
  assert (Hs : size tagb = tag) by (unfold tagb, size in *; rewrite length_drop; lia).
  assert (Ey : y = prot ++ tagb) by (symmetry; apply take_drop). rewrite Ey.
  apply (parses_as_of_reads tag isr gd _ AOneRTTPacketCipher (OneRTTPacketCipher.parse tag gd)
    empty_onertt).
  - unfold OneRTTPacketCipher.parse. change (b :: id) with (onertt_hdr b id).
    eapply reads_andM; [eapply reads_zoom; [by apply reads_onertt_partial | done] |].
    eapply reads_andM; [eapply reads_rest; [| done] | by apply reads_field].
    rewrite app_nil_r, Hs. intros Hsm. pose proof (size_nonneg prot).
    apply u64_sub_tail; unfold u64_max in Hsm; lia.
  - intros S cb r s Hr Hrem. cbn [app] in Hrem. unfold parse_packet.
    erewrite rd_empty_false, rd_top_head by eauto. unfold PacketFlags.is_long. rewrite Hb. cbn [negb].
    destruct (StatelessReset.parse (empty_reset, r)) as [ok [reset peek]].
    by rewrite Hisr, andb_false_r.
Qed.

(** ** A packet on its way *)

(** What protection leaves of a packet whose header is [b :: h]. *)
Lemma protected_inv c b h x src :
  CryptoPacket.src c = (b :: h) ++ x -> CryptoPacket.head_len c = size (b :: h) -> protected c src ->
  exists m y, src = (PacketFlags.protect b m :: h) ++ y /\ length y = length x.
Proof.
  intros E1 E2 (b1 & h1 & x1 & y & m & A1 & A2 & -> & A4). rewrite E1 in A1. rewrite E2 in A2.
  apply app_inj_1 in A1 as [A1 <-]; [| unfold size in A2; lia]. injection A1 as <- <-. eauto.
Qed.

Lemma protected_long {P} `{PartialLaws P} c p b l x src :
  CryptoPacket.src c = (pp_hdr p b ++ l) ++ x -> CryptoPacket.head_len c = size (pp_hdr p b ++ l) ->
  protected c src ->
  exists m y, src = (pp_hdr p (PacketFlags.protect b m) ++ l) ++ y /\ length y = length x.
Proof.
  destruct (pp_hdr_base p) as [tl Htl]. rewrite !Htl. unfold base_hdr. intros E1 E2 Hp.
  destruct (protected_inv c b _ x src E1 E2 Hp) as (m & y & -> & Hl).
  exists m, y. by rewrite Htl.
Qed.

Section Sent.
Context {S : Type} (sm : PacketSummary) (la tag : Z) (use_full : bool)
  (rp : packetnum.WireVal -> writer * S -> bool * (writer * S))
  (isr : StatelessReset.t -> bool) (gd : reader -> Z -> bool * Z).
Context (Hrp : forall wire, appends (rp wire)) (Htag : 0 < tag < 2 ^ 62).

(** The bytes of an Initial header that the receiver's [head_len] misses. *)
Definition missed : Z := if decide (ps_type sm = Initial) then size (ps_token sm) else 0.

(** A datagram that starts with this packet is understood. *)
Definition understood (c : CryptoPacket.t) (src : list Z) : Prop :=
  exists pkt, received_as sm pkt /\
    cipher_head_len pkt = Some (CryptoPacket.head_len c - missed) /\
    forall rest, (ps_type sm = OneRTT -> rest = []) ->
      parses_as tag isr gd (ps_type sm) pkt src rest.

Lemma long_understood {P} `{PartialLaws P} (wrap : LongPacketCipherBase.t P -> AnyPacket) e0
    wire p w s c w' s' src :
  ps_type sm = get_packet_type P ->
  (forall (S' : Type) (cb : callback S') r s r', rd_empty r = false -> PacketFlags.is_long (rd_top r) = true ->
     read_num 4 (rd_offset r 1) 0 = (true, 1, r') ->
     PacketFlags.type (rd_top r) 1 = get_packet_type P ->
     parse_packet tag cb isr gd (r, s) = Some (parsed cb (rd_index r) (get_packet_type P) wrap
       (LongPacketCipherBase.parse tag (e0, r)) s)) ->
  (forall cph, cipher_head_len (wrap cph) = Some (LongPacketCipherBase.head_len cph)) ->
  pp_uncounted p = missed ->
  (pp_wf p -> forall b l prot tagb, received_as sm (wrap (LongPacketCipherBase.mk (pp_canon p b l) prot tagb))) ->
  wr_ok w -> wr_room w < 2 ^ 62 -> pn_ok wire ->
  render_long sm tag use_full rp (wr_index w) wire p (w, s) = (Some c, (w', s')) ->
  protected c src ->
  writes w (CryptoPacket.src c) w' /\ length src = length (CryptoPacket.src c) /\ understood c src.
Proof using Hrp Htag.
  intros Hty Hd Hch Hm Hrec Hw Hroom Hk E Hpr.
  destruct (render_long_spec sm tag use_full rp Hrp Htag wire p w s c w' s' Hw Hroom Hk E)
    as (Hwf & bs & L & HW & HL & HLv & Hsrc & Hhl).
  destruct (protected_long c p _ _ _ src Hsrc Hhl Hpr) as (m & y & -> & Hy).
  split; [done |]. split.
  { rewrite Hsrc. destruct (pp_hdr_base p) as [tl Htl]. rewrite !Htl. unfold base_hdr.
    rewrite !length_app, Hy, !length_app. simpl. lia. }
  set (b := make_packet_flags _ _ _ _ _) in *. unfold pn_ok in Hk.
  destruct (long_flags (get_packet_type P) (packetnum.wlen wire)) as (_ & _ & Hb & _);
    [apply pp_has_length | done |]. fold b in Hb.
  assert (Hys : size y = packetnum.wlen wire + size bs + tag).
  { unfold size. rewrite Hy, !length_app, length_write_be, length_replicate. unfold size. lia. }
  pose proof (size_nonneg bs).
  destruct (parses_long tag isr gd wrap e0 p (PacketFlags.protect b m) L y Hd Hwf) as (prot & tagb & Hpa);
    [by rewrite protect_type | done | lia | lia | lia |].
  exists (wrap (LongPacketCipherBase.mk (pp_canon p (PacketFlags.protect b m) (varint.norm L)) prot tagb)).
  split; [by apply Hrec |]. split.
  - rewrite Hch, Hhl, <- Hm. f_equal. unfold LongPacketCipherBase.head_len.
    cbn [LongPacketCipherBase.part]. rewrite pp_len_canon by done. f_equal.
    rewrite !size_app. f_equal. destruct (pp_hdr_base p) as [tl Htl]. rewrite !Htl, !size_app, !base_hdr_size. done.
  - intros rest _. rewrite Hty. apply Hpa.
Qed.
End Sent.

(** [parse_packet] evaluated on the first five bytes of a long header. *)
Ltac dispatch_long :=
  intros ? ? ? ? ? H1 H2 H3 H4; unfold parse_packet; rewrite H1, H2, H3; cbn [negb];
  change (1 =? version_negotiation) with false; cbv iota; rewrite H4; reflexivity.

Section CreatedPackets.
Context (tag : Z) (isr : StatelessReset.t -> bool) (gd : reader -> Z -> bool * Z).
Context (Htag : 0 < tag < 2 ^ 62).

(** What a receiver has to know to parse 1-RTT packets: the length of the
    ids it has handed out, and that no packet looks like a stateless reset. *)
Definition knows_ids (sm : PacketSummary) : Prop :=
  ps_type sm = OneRTT ->
  (forall x, isr x = false) /\ (forall r, gd r 0 = (true, size (ps_dstID sm))).

Lemma received_long sm b n prot tagb :
  base_wf (summary_base sm) ->
  (ps_type sm = Initial -> forall tl l, received_as sm (AInitialPacketCipher (LongPacketCipherBase.mk
     (InitialPacketPartial.mk (base_canon (summary_base sm) b 1) tl (ps_token sm) l) prot tagb))) /\
  (ps_type sm = ZeroRTT -> received_as sm (AZeroRTTPacketCipher (LongPacketCipherBase.mk
     (HandshakeZeroRTTParital.mk (base_canon (summary_base sm) b 1) n) prot tagb))) /\
  (ps_type sm = Handshake -> received_as sm (AHandshakePacketCipher (LongPacketCipherBase.mk
     (HandshakeZeroRTTParital.mk (base_canon (summary_base sm) b 1) n) prot tagb))).
Proof.
  intros (Hv & _). cbn in Hv.
  split_and!; intros Ht; try intros tl l; intros pn; eexists; (split; [reflexivity |]);
    rewrite Ht; cbn; split_and!; try done; by rewrite Hv.
Qed.

Lemma created_understood {S} sm la use_full (rp : packetnum.WireVal -> writer * S -> bool * (writer * S))
    w s c w' s' src :
  (forall wire, appends (rp wire)) -> wr_ok w -> wr_room w < 2 ^ 62 -> knows_ids sm ->
  create_packet sm la tag use_full rp (w, s) = (Some c, (w', s')) -> protected c src ->
  writes w (CryptoPacket.src c) w' /\ length src = length (CryptoPacket.src c) /\
  understood sm tag isr gd c src.
Proof using Htag.
  intros Hrp Hw Hroom Hids E Hpr. unfold create_packet in E.
  destruct (packetnum.encode _ _) as [wire |] eqn:Ee; [| done].
  pose proof (encode_wire_ok _ _ _ Ee) as Hk.
  destruct (ps_type sm) eqn:Ht; try done.
  - eapply (long_understood sm tag use_full rp isr gd Hrp Htag AInitialPacketCipher); eauto.
    + dispatch_long.
    + unfold missed. by rewrite decide_True.
    + intros [Hwf _] b l prot tagb. by apply (received_long sm b l prot tagb Hwf).
  - eapply (long_understood sm tag use_full rp isr gd Hrp Htag AZeroRTTPacketCipher); eauto.
    + dispatch_long.
    + unfold missed. rewrite decide_False; [done | by rewrite Ht].
    + intros Hwf b l prot tagb. by apply (received_long sm b l prot tagb Hwf).
  - eapply (long_understood sm tag use_full rp isr gd Hrp Htag AHandshakePacketCipher); eauto.
    + dispatch_long.
    + unfold missed. rewrite decide_False; [done | by rewrite Ht].
    + intros Hwf b l prot tagb. by apply (received_long sm b l prot tagb Hwf).
  - apply render_onertt_spec in E as (bs & HW & Hsrc & Hhl); auto.
    destruct (protected_inv c _ _ _ src Hsrc Hhl Hpr) as (m & y & -> & Hy).
    split; [done |]. split; [rewrite Hsrc; simpl; rewrite !length_app, Hy, !length_app; lia |].
    destruct (onertt_flags (packetnum.wlen wire) (ps_spin sm) (ps_key_bit sm) Hk)
      as (_ & Hb1 & _ & _ & Hb2 & _). destruct (Hids Ht) as [Hisr Hgd].
    set (b := make_packet_flags _ _ _ _ _) in *.
    assert (Hyl : tag <= size y).
    { unfold size. rewrite Hy, !length_app, length_replicate. lia. }
    destruct (parses_onertt tag isr gd (PacketFlags.protect b m) (ps_dstID sm) y) as (prot & tagb & Hpa);
      [by rewrite protect_is_short | lia | done | done |].
    eexists. split; [| split; [| intros rest Hr; rewrite (Hr Ht), Ht; exact Hpa]].
    + intros pn. eexists. split; [reflexivity |]. rewrite Ht. cbn. split_and!; try done.
      intros _. by rewrite protect_spin.
    + rewrite Hhl. cbn. unfold missed. rewrite decide_False by by rewrite Ht. f_equal.
      unfold OneRTTPacketCipher.head_len, OneRTTPacketPartial.head_len, OneRTTPacketPartial.len, Packet.len.
      cbn. rewrite size_cons. lia.
Qed.
End CreatedPackets.

(** ** Coalesced datagrams *)

(** Packets created one after another in the same buffer. *)
Inductive creates {S : Type} (tag : Z) :
    list PacketSummary -> writer * S -> list CryptoPacket.t -> writer * S -> Prop :=
  | creates_nil x : creates tag [] x [] x
  | creates_cons sm la use_full rp w s c w1 s1 sms cs y :
      (forall wire, appends (rp wire)) ->
      create_packet sm la tag use_full rp (w, s) = (Some c, (w1, s1)) ->
      creates tag sms (w1, s1) cs y ->
      creates tag (sm :: sms) (w, s) (c :: cs) y.

(** The callback that records everything it is shown. *)
Definition collect : callback (list (PacketType * AnyPacket * list Z * bool * bool)) :=
  fun type p src err valid s => (true, s ++ [(type, p, src, err, valid)]).

Definition report (sm : PacketSummary) (pkt : AnyPacket) (src : list Z) :=
  (ps_type sm, pkt, src, false, true).

(** A 1-RTT packet has no length and takes the rest of its datagram. *)
Definition onertt_only_last (sms : list PacketSummary) : Prop :=
  Forall (fun sm => ps_type sm <> OneRTT) (removelast sms).

Lemma onertt_only_last_cons sm sms :
  onertt_only_last (sm :: sms) -> onertt_only_last sms /\ (ps_type sm = OneRTT -> sms = []).
Proof.
  unfold onertt_only_last. destruct sms as [| sm2 sms]; [done |].
  change (removelast (sm :: sm2 :: sms)) with (sm :: removelast (sm2 :: sms)).
  intros H. apply Forall_cons in H as [H1 H2]. split; [done |]. by intros E.
Qed.

Section Coalesced.
Context (tag : Z) (isr : StatelessReset.t -> bool) (gd : reader -> Z -> bool * Z).
Context (Htag : 0 < tag < 2 ^ 62).

(** Every packet of a datagram is understood where it stands. *)
Lemma creates_understood {S} sms (x : writer * S) cs y srcs :
  creates tag sms x cs y -> wr_ok (fst x) -> wr_room (fst x) < 2 ^ 62 ->
  Forall (knows_ids isr gd) sms -> Forall2 protected cs srcs ->
  writes (fst x) (concat (map CryptoPacket.src cs)) (fst y) /\
  length (concat srcs) = length (concat (map CryptoPacket.src cs)) /\
  exists pkts, Forall2 received_as sms pkts /\ length srcs = length sms /\
    Forall (fun '(sm, pkt, src) => src <> [] /\
      forall rest, (ps_type sm = OneRTT -> rest = []) ->
        parses_as tag isr gd (ps_type sm) pkt src rest) (zip (zip sms pkts) srcs).
Proof using Htag.
  intros H. revert srcs. induction H as [x | sm la full rp w s c w1 s1 sms cs y Hrp E H IH];
    intros srcs Hw Hroom Hids Hpr.
  { apply Forall2_nil_inv_l in Hpr as ->. split_and!; [| done | by exists []].
    rewrite <- (wr_put_nil (fst x)) at 2. apply writes_put; [done |].
    rewrite size_nil. destruct Hw. unfold wr_room, size. lia. }
  apply Forall2_cons_inv_l in Hpr as (src & srcs' & Hp1 & Hpr & ->).
  apply Forall_cons in Hids as [Hid Hids]. cbn [fst] in *.
  destruct (created_understood tag isr gd Htag sm la full rp w s c w1 s1 src)
    as (HW & Hlen & pkt & Hrec & Hhl & Hpa); auto.
  pose proof (writes_room _ _ _ HW) as Hr1.
  destruct (IH srcs') as (HW2 & Hlen2 & pkts & Hf & Hls & Hall); auto.
  { apply HW. } { pose proof (size_nonneg (CryptoPacket.src c)). lia. }
  split; [by eapply writes_trans |]. split; [simpl; rewrite !length_app; lia |].
  exists (pkt :: pkts). split; [by constructor |]. split; [simpl; lia |].
  simpl. constructor; [| done]. split; [| done].
  destruct Hp1 as (b & h & ? & ? & m & _ & _ & -> & _). done.
Qed.

Lemma collect_loop l fuel r evs :
  rd_ok r -> rd_remain r = concat (map (fun '(_, _, src) => src) l) -> (length l < fuel)%nat ->
  onertt_only_last (map (fun '(sm, _, _) => sm) l) ->
  Forall (fun '(sm, pkt, src) => src <> [] /\
    forall rest, (ps_type sm = OneRTT -> rest = []) ->
      parses_as tag isr gd (ps_type sm) pkt src rest) l ->
  exists r', rd_empty r' = true /\
    packets_loop tag collect isr gd fuel (r, evs) =
      Some (true, (r', evs ++ map (fun '(sm, pkt, src) => report sm pkt src) l)).
Proof.
  revert fuel r evs. induction l as [| [[sm pkt] src] l IH]; intros fuel r evs Hr Hrem Hf Hlast Hall;
    (destruct fuel as [| fuel]; [simpl in Hf; lia |]); cbn [packets_loop].
  - rewrite rd_empty_true by done. exists r. rewrite app_nil_r. auto using rd_empty_true.
  - apply Forall_cons in Hall as [[Hne Hpa] Hall]. cbn [map concat] in Hrem.
    apply onertt_only_last_cons in Hlast as [Hlast Hone].
    assert (Hrest : ps_type sm = OneRTT -> concat (map (fun '(_, _, src) => src) l) = []).
    { intros E. specialize (Hone E). by destruct l. }
    destruct (consumed_app r src _ Hr Hrem) as (Hr' & _ & _).
    assert (rd_empty r = false) as ->.
    { destruct src as [| b src]; [done |]. by eapply rd_empty_false. }
    rewrite (Hpa _ Hrest _ collect r evs Hr Hrem). cbn [collect].
    destruct (IH fuel (rd_advance r (length src)) (evs ++ [report sm pkt src])) as (r' & He & El); auto.
    { by apply rd_advance_remain. } { simpl in Hf. lia. }
    exists r'. split; [done |]. unfold report in El at 1. rewrite El. cbn [map]. by rewrite <- app_assoc.
Qed.
End Coalesced.

(** No mask and the bytes themselves. *)
Lemma protected_refl c :
  0 < CryptoPacket.head_len c <= size (CryptoPacket.src c) -> protected c (CryptoPacket.src c).
Proof.
  intros H. set (n := Z.to_nat (CryptoPacket.head_len c)).
  assert (Hl : length (take n (CryptoPacket.src c)) = n) by (rewrite length_take; unfold size in *; lia).
  destruct (take n (CryptoPacket.src c)) as [| b h] eqn:E; [simpl in Hl; lia |].
  exists b, h, (drop n (CryptoPacket.src c)), (drop n (CryptoPacket.src c)), 0.
  unfold PacketFlags.protect. rewrite Z.land_0_l, Z.lxor_0_r, <- E, take_drop.
  split_and!; try done. unfold size. rewrite E, Hl. lia.
Qed.

Lemma appends_write {S} l : appends (liftW (S := S) (wr_write l)).
Proof.
  intros t s t' s' Ht E. apply liftW_inv in E as [E _].
  apply (emits_inv _ _ _ _ (emits_write l) Ht) in E as [? ->]. eauto.
Qed.

Lemma length_le_concat {A} (l : list (list A)) :
  Forall (fun x => x <> []) l -> (length l <= length (concat l))%nat.
Proof.
  induction 1 as [| x l Hx _ IH]; [done |]. simpl. rewrite length_app.
  destruct x; [done | simpl; lia].
Qed.

Lemma zip_fst_snd {A B C} (a : list A) (b : list B) (c : list C) :
  length b = length a -> length c = length a ->
  map (fun '(x, _, _) => x) (zip (zip a b) c) = a /\
  map (fun '(_, _, z) => z) (zip (zip a b) c) = c.
Proof.
  revert b c. induction a as [| x a IH]; intros [| y b] [| z c] H1 H2; try done.
  simpl in *. destruct (IH b c) as [-> ->]; [lia | lia | done].
Qed.

(** * Properties *)

(** C9. From the sender to the receiver of a datagram. Packets of any
    types are created one after another in one buffer (only the last may be
    1-RTT), then protected: the mask changes bits of the first bytes and
    everything behind the headers may become any bytes of the same length.
    [parse_packets] then reports exactly these packets in this order, each
    with exactly its bytes and without error, and every one is received
    with the type, version, connection ids, token and spin bit it was
    created with; nothing is left over. *)
Theorem coalesced_datagram {S} tag isr gd sms (x y : writer * S) cs srcs :
  0 < tag < 2 ^ 62 -> wr_ok (fst x) -> wr_room (fst x) < 2 ^ 62 ->
  creates tag sms x cs y -> Forall (knows_ids isr gd) sms -> onertt_only_last sms ->
  Forall2 protected cs srcs ->
  wr_written (fst y) = wr_written (fst x) ++ concat (map CryptoPacket.src cs) /\
  length (concat srcs) = length (concat (map CryptoPacket.src cs)) /\
  exists pkts r',
    Forall2 received_as sms pkts /\ rd_empty r' = true /\
    parse_packets_span (concat srcs) tag collect isr gd [] =
      Some (true, (r', map (fun '(sm, pkt, src) => report sm pkt src) (zip (zip sms pkts) srcs))).
Proof.
  intros Htag Hw Hroom Hc Hids Hlast Hpr.
  destruct (creates_understood tag isr gd Htag sms x cs y srcs) as (HW & Hlen & pkts & Hf & Hls & Hall); auto.
  split; [by apply writes_written |]. split; [done |].
  destruct (zip_fst_snd sms pkts srcs) as [Z1 Z2]; [symmetry; by eapply Forall2_length | done |].
  set (l := zip (zip sms pkts) srcs) in *.
  assert (Hr : rd_ok (new_reader (concat srcs))).
  { split; [simpl; lia |]. cbn. unfold size. rewrite Hlen. destruct HW as ([? ?] & ? & ? & _).
    unfold size in *. lia. }
  assert (Hrem : rd_remain (new_reader (concat srcs)) = concat srcs) by by rewrite rd_remain_eq.
  destruct (collect_loop tag isr gd l (Datatypes.S (length (concat srcs))) (new_reader (concat srcs)) [])
    as (r' & He & El); auto.
  - by rewrite Z2.
  - assert (length l = length srcs) as -> by (rewrite <- Z2, length_map; done).
    apply le_n_S, length_le_concat. rewrite <- Z2. apply Forall_map.
    eapply Forall_impl; [exact Hall |]. by intros [[? ?] ?] [? _].
  - by rewrite Z1.
  - exists pkts, r'. split_and!; auto. unfold parse_packets_span, parse_packets. by rewrite Hrem.
Qed.

(** The header length the receiver hands to packet protection. For
    Handshake, 0-RTT and 1-RTT packets it is the length of the header that
    was sent; for an Initial packet it is short by the size of the token, so
    it is right only when there is no token. *)
Theorem received_head_len {S S'} tag isr gd sm la use_full
    (rp : packetnum.WireVal -> writer * S -> bool * (writer * S)) w s c w' s' src
    (crypto_cb : PacketType -> AnyPacket -> CryptoPacket.t -> S' -> bool * S') plain_cb err_cb r t :
  0 < tag < 2 ^ 62 -> (forall wire, appends (rp wire)) -> wr_ok w -> wr_room w < 2 ^ 62 ->
  knows_ids isr gd sm ->
  create_packet sm la tag use_full rp (w, s) = (Some c, (w', s')) -> protected c src ->
  rd_ok r -> rd_remain r = src ->
  exists pkt,
    parse_packet tag (with_crypto_parse crypto_cb plain_cb err_cb (fun _ _ t => (true, t)))
        isr gd (r, t) =
      Some (let '(ok, t') := crypto_cb (ps_type sm) pkt
              (CryptoPacket.mk src
                 (CryptoPacket.head_len c -
                  (if decide (ps_type sm = Initial) then size (ps_token sm) else 0))
                 packetnum.infinity) t in
            (ok, (rd_advance r (length src), t'))).
Proof.
  intros Htag Hrp Hw Hroom Hids E Hpr Hr Hrem.
  destruct (created_understood tag isr gd Htag sm la use_full rp w s c w' s' src)
    as (_ & _ & pkt & _ & Hhl & Hpa); auto.
  exists pkt. rewrite (Hpa [] (fun _ => eq_refl) _ _ r t Hr) by by rewrite app_nil_r.
  unfold with_crypto_parse. rewrite Hhl. done.
Qed.

(** An Initial packet with a token and a 1-RTT packet behind it. *)
Definition witness_summaries : list PacketSummary :=
  [mk_PacketSummary Initial 1 [1; 2] [3] [9; 9; 9] 0 u64_max false false;
   mk_PacketSummary OneRTT 1 [4; 5] [] [] 1 u64_max true true].

Definition witness_payload (_ : packetnum.WireVal) : writer * unit -> bool * (writer * unit) :=
  liftW (wr_write [1; 1; 1]).

Lemma coalesced_datagram_witness :
  exists (y : writer * unit) cs pkts r',
    creates 16 witness_summaries (new_writer (replicate 100 0), tt) cs y /\
    Forall2 received_as witness_summaries pkts /\ rd_empty r' = true /\
    parse_packets_span (concat (map CryptoPacket.src cs)) 16 collect (fun _ => false)
        (fun _ _ => (true, 2)) [] =
      Some (true, (r', map (fun '(sm, pkt, src) => report sm pkt src)
        (zip (zip witness_summaries pkts) (map CryptoPacket.src cs)))).
Proof.
  assert (Hc : exists y cs, creates 16 witness_summaries (new_writer (replicate 100 0), tt) cs y /\
    Forall2 protected cs (map CryptoPacket.src cs)).
  { eexists _, _. split.
    - eapply (creates_cons 16 _ u64_max false witness_payload);
        [intros; apply appends_write | vm_compute; reflexivity |].
      eapply (creates_cons 16 _ 0 false witness_payload);
        [intros; apply appends_write | vm_compute; reflexivity | constructor].
    - repeat constructor; apply protected_refl; vm_compute; split; congruence. }
  destruct Hc as (y & cs & Hc & Hp).
  destruct (coalesced_datagram 16 (fun _ => false) (fun _ _ => (true, 2)) witness_summaries
    (new_writer (replicate 100 0), tt) y cs (map CryptoPacket.src cs))
    as (_ & _ & pkts & r' & H1 & H2 & H3).
  - lia.
  - split; vm_compute; [lia | discriminate].
  - vm_compute. done.
  - exact Hc.
  - repeat constructor; discriminate.
  - repeat constructor; discriminate.
  - exact Hp.
  - exists y, cs, pkts, r'. split_and!; [exact Hc | exact H1 | exact H2 | exact H3].
Defined.

(** The token of three bytes is missing in the length the callback sees. *)
Lemma received_head_len_witness :
  let sm := mk_PacketSummary Initial 1 [1; 2] [3] [9; 9; 9] 0 u64_max false false in
  let crypto (_ : PacketType) (_ : AnyPacket) (crp : CryptoPacket.t) (_ : Z) :=
    (true, CryptoPacket.head_len crp) in
  exists c w',
    create_packet sm u64_max 16 false witness_payload (new_writer (replicate 100 0), tt) =
      (Some c, (w', tt)) /\
    parse_packet 16 (with_crypto_parse crypto (fun _ _ _ t => (true, t)) (fun _ _ _ _ _ t => (false, t))
        (fun _ _ t => (true, t))) (fun _ => false) (fun _ _ => (true, 2))
        (new_reader (CryptoPacket.src c), 0) =
      Some (true, (rd_advance (new_reader (CryptoPacket.src c)) (length (CryptoPacket.src c)),
                   CryptoPacket.head_len c - 3)).
Proof.
  cbv zeta.
  assert (Hc : exists c w', create_packet
      (mk_PacketSummary Initial 1 [1; 2] [3] [9; 9; 9] 0 u64_max false false) u64_max 16 false
      witness_payload (new_writer (replicate 100 0), tt) = (Some c, (w', tt)) /\
    0 < CryptoPacket.head_len c <= size (CryptoPacket.src c) /\
    size (CryptoPacket.src c) <= u64_max).
  { eexists _, _. split; [vm_compute; reflexivity |]. vm_compute. split; [split |]; congruence. }
  destruct Hc as (c & w' & E & Hh & Hs). exists c, w'. split; [exact E |].
  assert (Hr : rd_ok (new_reader (CryptoPacket.src c))) by (split; [simpl; lia | exact Hs]).
  destruct (received_head_len 16 (fun _ => false) (fun _ _ => (true, 2))
    (mk_PacketSummary Initial 1 [1; 2] [3] [9; 9; 9] 0 u64_max false false) u64_max false
    witness_payload (new_writer (replicate 100 0)) tt c w' tt (CryptoPacket.src c)
    (fun _ _ crp _ => (true, CryptoPacket.head_len crp)) (fun _ _ _ t => (true, t))
    (fun _ _ _ _ _ t => (false, t)) (new_reader (CryptoPacket.src c)) 0)
    as [pkt H]; [lia | intros; apply appends_write | | | | exact E | | exact Hr | | exact H].
  - split; vm_compute; [lia | discriminate].
  - vm_compute. done.
  - intros H. discriminate H.
  - by apply protected_refl.
  - by rewrite rd_remain_eq.
Defined.
