(* ===== verification/StreamId.v ===== *)
(** * Stream identifiers and credit counters
      (src/src/include/fnet/quic/stream/stream_id.h, core/limiter.h,
       initial_limits.h, fragment.h)

    [Module StreamID] is the bit layout of a stream identifier,
    [Module Limiter] the credit counter every flow-controlled resource of the
    transport uses. *)

From stdpp Require Import base list.
From Stdlib Require Import ZArith Lia.
From S2P Require Import Prelude Varint.

Inductive Origin := client | server | unknown_origin.
Inductive StreamType := bidi | uni | unknown_type.

#[global] Instance Origin_eq_dec : EqDecision Origin.
Proof. solve_decision. Defined.
#[global] Instance StreamType_eq_dec : EqDecision StreamType.
Proof. solve_decision. Defined.

Definition inverse (dir : Origin) : Origin :=
  match dir with client => server | server => client | unknown_origin => unknown_origin end.

(** The comparisons [orig == Origin::server] and [typ == StreamType::uni]. *)
Definition is_server (o : Origin) : bool := match o with server => true | _ => false end.
Definition is_uni (t : StreamType) : bool := match t with uni => true | _ => false end.

(** ** [struct StreamID]: [flags_t<std::uint64_t, 2, 60, 1, 1>], highest bits
    first; the model of an id is its 64-bit value *)

Module StreamID.
Definition invalid_mask : Z := 0xC000000000000000.
Definition seq_mask : Z := 0x3FFFFFFFFFFFFFFC.
Definition type_mask : Z := 0x2.
Definition origin_mask : Z := 0x1.
Definition seq_max : Z := 2 ^ 60 - 1.

(** [Flags::get] and [Flags::set] for a field of several bits at [sh]. *)
Definition get_bits (mask sh v : Z) : Z := Z.shiftr (Z.land v mask) sh.
Definition set_bits (mask sh val v : Z) : Z :=
  Z.lor (Z.land v (Z.lxor u64_max mask)) (Z.shiftl val sh).
(** ... and for a single bit. *)
Definition get_bit (mask v : Z) : bool := negb (Z.land v mask =? 0).
Definition set_bit (mask : Z) (b : bool) (v : Z) : Z :=
  if b then Z.lor v mask else Z.land v (Z.lxor u64_max mask).

Definition invalid_bit (v : Z) : Z := get_bits invalid_mask 62 v.
Definition set_invalid_bit (val v : Z) : Z := set_bits invalid_mask 62 val v.
Definition seq_count_raw (v : Z) : Z := get_bits seq_mask 2 v.
Definition type_raw (v : Z) : bool := get_bit type_mask v.
Definition origin_raw (v : Z) : bool := get_bit origin_mask v.

(** [StreamID(seq, orig, typ)] *)
Definition make_id (seq : Z) (orig : Origin) (typ : StreamType) : Z :=
  let v := 0 in
  let v := if seq_max <? seq then set_invalid_bit 1 v else set_bits seq_mask 2 seq v in
  let v := match orig with
           | unknown_origin => set_invalid_bit 1 v
           | _ => set_bit origin_mask (is_server orig) v
           end in
  match typ with
  | unknown_type => set_invalid_bit 1 v
  | _ => set_bit type_mask (is_uni typ) v
  end.

Definition invalid_id : Z := u64_max.

Definition valid (v : Z) : bool := invalid_bit v =? 0.

Definition seq_count (v : Z) : Z := if negb (valid v) then u64_max else seq_count_raw v.

Definition type (v : Z) : StreamType :=
  if negb (valid v) then unknown_type else if type_raw v then uni else bidi.

Definition origin (v : Z) : Origin :=
  if negb (valid v) then unknown_origin else if origin_raw v then server else client.
End StreamID.

(** ** [struct InitialLimits] and [struct Fragment] *)

Record InitialLimits := mk_limits {
  conn_data_limit : Z;
  bidi_stream_limit : Z;
  uni_stream_limit : Z;
  bidi_stream_data_local_limit : Z;
  bidi_stream_data_remote_limit : Z;
  uni_stream_data_limit : Z;
}.

Record Fragment := mk_fragment { frag_offset : Z; fragment : list Z; frag_fin : bool }.

(** ** [struct Limiter] *)

Module Limiter.
Record t := mk { limit : Z; used : Z }.
Definition zero : t := mk 0 0.

Definition avail_size (l : t) : Z := if used l <? limit l then limit l - used l else 0.
Definition on_limit (delta : Z) (l : t) : bool := avail_size l <? delta.
Definition set_limit (new_limit : Z) (l : t) : bool * t :=
  if varint.border 8 <=? new_limit then (false, l) else (true, mk new_limit (used l)).
Definition update_limit (new_limit : Z) (l : t) : bool * t :=
  if varint.border 8 <=? new_limit then (false, l)
  else if limit l <? new_limit then (true, mk new_limit (used l)) else (false, l).
Definition use (s : Z) (l : t) : bool * t :=
  if on_limit s l then (false, l) else (true, mk (limit l) (u64 (used l + s))).
Definition update_use (new_used : Z) (l : t) : bool * t :=
  if limit l <? new_used then (false, l)
  else if used l <? new_used then (true, mk (limit l) new_used) else (true, l).
Definition current_limit (l : t) : Z := limit l.
Definition current_usage (l : t) : Z := used l.
End Limiter.

(** * Lemmas *)

(** ** The fields of an id in arithmetic *)

Lemma id_shape v : is_u64 v ->
  StreamID.invalid_bit v = v / 2 ^ 62 /\
  StreamID.seq_count_raw v = v mod 2 ^ 62 / 4 /\
  StreamID.type_raw v = negb (v / 2 mod 2 =? 0) /\
  StreamID.origin_raw v = negb (v mod 2 =? 0).
Proof.
  intros H. unfold is_u64 in H. split_and!.
  - unfold StreamID.invalid_bit, StreamID.get_bits.
    change StreamID.invalid_mask with (Z.shiftl (Z.ones 2) 62).
    rewrite Z.shiftr_land, Z.shiftr_shiftl_l, Z.shiftl_0_r by lia.
    rewrite Z.land_ones, Z.shiftr_div_pow2 by lia. apply Z.mod_small.
    split; [apply Z.div_pos | apply Z.div_lt_upper_bound]; lia.
  - unfold StreamID.seq_count_raw, StreamID.get_bits.
    change StreamID.seq_mask with (Z.shiftl (Z.ones 60) 2).
    rewrite Z.shiftr_land, Z.shiftr_shiftl_l, Z.shiftl_0_r by lia.
    rewrite Z.land_ones, Z.shiftr_div_pow2 by lia. change (2 ^ 2) with 4.
    change (2 ^ 62) with (4 * 2 ^ 60). rewrite Z.rem_mul_r by lia.
    rewrite (Z.mul_comm 4), Z.div_add by lia.
    rewrite (Z.div_small (v mod 4)) by (apply Z.mod_pos_bound; lia). lia.
  - unfold StreamID.type_raw, StreamID.get_bit.
    change StreamID.type_mask with 2.
    pose proof (Z.mod_pos_bound v 4). pose proof (Z.div_mod v 4).
    set (q := v / 4) in *. set (r := v mod 4) in *.
    assert (E : Z.land v 2 = Z.land r 2).
    { replace v with (Z.lor (Z.shiftl q 2) r) by (rewrite lor_shiftl_add by lia; change (2 ^ 2) with 4; lia).
      rewrite Z.land_lor_distr_l, land_shiftl_small by lia. apply Z.lor_0_l. }
    assert (Hv : v / 2 mod 2 = r / 2).
    { replace v with (r + (2 * q) * 2) by lia. rewrite Z.div_add by lia.
      rewrite Z.add_comm, (Z.mul_comm 2 q), Z.add_comm, Z.mod_add by lia. apply Z.mod_small.
      split; [apply Z.div_pos | apply Z.div_lt_upper_bound]; lia. }
    rewrite E, Hv. assert (r = 0 \/ r = 1 \/ r = 2 \/ r = 3) as [-> | [-> | [-> | ->]]] by lia; done.
  - unfold StreamID.origin_raw, StreamID.get_bit. change StreamID.origin_mask with (Z.ones 1).
    by rewrite Z.land_ones by lia.
Qed.

(** The value the constructor computes for a valid triple. *)
Definition id_value (seq : Z) (orig : Origin) (typ : StreamType) : Z :=
  4 * seq + (if is_uni typ then 2 else 0) + (if is_server orig then 1 else 0).

Lemma make_id_valid seq orig typ :
  0 <= seq <= StreamID.seq_max -> orig <> unknown_origin -> typ <> unknown_type ->
  StreamID.make_id seq orig typ = id_value seq orig typ.
Proof.
  intros Hs Ho Ht. unfold StreamID.make_id. rewrite ltb_false by lia. unfold StreamID.seq_max in Hs.
  unfold StreamID.set_bits. rewrite Z.land_0_l, Z.lor_0_l.
  assert (Hclear : forall m b, (m = 1 \/ m = 2) -> 0 <= b < 4 -> Z.land b m = 0 ->
    Z.land (Z.shiftl seq 2 + b) (Z.lxor u64_max m) = Z.shiftl seq 2 + b).
  { intros m b Hm Hb Hz. rewrite <- lor_add_disjoint by (apply land_shiftl_small; lia).
    rewrite Z.lxor_comm, Z.land_comm, land_lxor_distr_l.
    assert (Hm0 : Z.land m (Z.lor (Z.shiftl seq 2) b) = 0).
    { rewrite Z.land_lor_distr_r, (Z.land_comm m b), Hz, Z.lor_0_r, Z.land_comm.
      apply land_shiftl_small; lia. }
    rewrite Hm0, Z.lxor_0_l. change u64_max with (Z.ones 64).
    rewrite Z.land_comm, Z.land_ones by lia. apply Z.mod_small.
    rewrite lor_shiftl_add by lia. change (2 ^ 2) with 4. lia. }
  assert (Hset : forall m b, (m = 1 \/ m = 2) -> 0 <= b < 4 -> Z.land b m = 0 ->
    Z.lor (Z.shiftl seq 2 + b) m = Z.shiftl seq 2 + (b + m)).
  { intros m b Hm Hb Hz. rewrite <- lor_add_disjoint by (apply land_shiftl_small; lia).
    rewrite <- Z.lor_assoc, (lor_add_disjoint b m) by done.
    apply lor_add_disjoint, land_shiftl_small; [lia |]. destruct Hm as [-> | ->].
    - split; [lia |]. destruct (Z.eq_dec b 3) as [-> |]; [done | change (2 ^ 2) with 4; lia].
    - split; [lia |]. destruct (Z.eq_dec b 3) as [-> |]; [done |].
      destruct (Z.eq_dec b 2) as [-> |]; [done | change (2 ^ 2) with 4; lia]. }
  pose proof (Hclear 1 0 ltac:(auto) ltac:(lia) eq_refl) as C1.
  pose proof (Hclear 2 0 ltac:(auto) ltac:(lia) eq_refl) as C2.
  pose proof (Hset 1 0 ltac:(auto) ltac:(lia) eq_refl) as S1.
  pose proof (Hset 2 0 ltac:(auto) ltac:(lia) eq_refl) as S2.
  rewrite Z.add_0_r in C1, C2, S1, S2.
  unfold id_value, StreamID.set_bit, StreamID.origin_mask, StreamID.type_mask.
  replace (4 * seq) with (Z.shiftl seq 2) by (rewrite Z.shiftl_mul_pow2; lia).
  destruct orig, typ; try done;
    cbn [is_server is_uni]; rewrite ?C1, ?S1, ?C2, ?S2, ?Hclear, ?Hset by (auto; done || lia); lia.
Qed.

Lemma id_value_fields seq orig typ :
  0 <= seq <= StreamID.seq_max -> orig <> unknown_origin -> typ <> unknown_type ->
  let v := id_value seq orig typ in
  0 <= v < 2 ^ 62 /\ StreamID.valid v = true /\ StreamID.seq_count v = seq /\
  StreamID.type v = typ /\ StreamID.origin v = orig.
Proof.
  intros Hs Ho Ht. cbv zeta. unfold StreamID.seq_max in Hs.
  assert (Hv : exists b, id_value seq orig typ = 4 * seq + b /\ 0 <= b < 4 /\
    (b / 2 mod 2 =? 0) = negb (is_uni typ) /\
    (b mod 2 =? 0) = negb (is_server orig)).
  { unfold id_value. destruct orig, typ; try done;
      [exists 0 | exists 2 | exists 1 | exists 3]; (split; [simpl; lia | done]). }
  destruct Hv as (b & -> & Hb & Hty & Hor). set (v := 4 * seq + b).
  assert (Hr : 0 <= v < 2 ^ 62) by (unfold v; lia).
  destruct (id_shape v) as (H1 & H2 & H3 & H4); [unfold is_u64; lia |].
  unfold StreamID.valid, StreamID.seq_count, StreamID.type, StreamID.origin, StreamID.valid.
  rewrite H1, H2, H3, H4. rewrite Z.div_small, (Z.mod_small v) by lia. cbn [Z.eqb negb].
  assert (v / 2 mod 2 = b / 2 mod 2) as ->.
  { unfold v. replace (4 * seq + b) with (b + (2 * seq) * 2) by lia. rewrite Z.div_add by lia.
    rewrite (Z.mul_comm 2 seq), Z.mod_add by lia. done. }
  assert (v mod 2 = b mod 2) as ->.
  { unfold v. replace (4 * seq + b) with (b + (2 * seq) * 2) by lia. by rewrite Z.mod_add by lia. }
  assert (v / 4 = seq) as ->.
  { unfold v. rewrite Z.mul_comm, Z.div_add_l by lia. rewrite Z.div_small by lia. lia. }
  rewrite Hty, Hor, !negb_involutive. split_and!; try lia; try done; destruct orig, typ; done.
Qed.

(** ** The credit counter *)

(** The specification: credit granted and credit spent. *)
Definition limiter_ok (l : Limiter.t) : Prop :=
  0 <= Limiter.used l <= Limiter.limit l /\ Limiter.limit l < 2 ^ 62.

Lemma avail_eq l : limiter_ok l -> Limiter.avail_size l = Limiter.limit l - Limiter.used l.
Proof. intros [H1 H2]. unfold Limiter.avail_size. zcases. Qed.

Lemma update_limit_ok n l b l' :
  limiter_ok l -> 0 <= n -> Limiter.update_limit n l = (b, l') ->
  limiter_ok l' /\ Limiter.used l' = Limiter.used l /\
  Limiter.limit l' = (if b then n else Limiter.limit l) /\
  (b = true <-> Limiter.limit l < n < 2 ^ 62).
Proof.
  unfold limiter_ok, Limiter.update_limit. intros [H1 H2] Hn.
  change (varint.border 8) with (2 ^ 62).
  repeat zcase_one; intros [= <- <-]; simpl; split_and!; try lia; split; (done || lia).
Qed.

Lemma use_ok s l b l' :
  limiter_ok l -> 0 <= s -> Limiter.use s l = (b, l') ->
  limiter_ok l' /\ Limiter.limit l' = Limiter.limit l /\
  Limiter.used l' = (if b then Limiter.used l + s else Limiter.used l) /\
  (b = true <-> s <= Limiter.limit l - Limiter.used l).
Proof.
  intros Hl Hs. pose proof Hl as [H1 H2]. unfold Limiter.use, Limiter.on_limit. rewrite avail_eq by done.
  destruct (Z.ltb_spec (Limiter.limit l - Limiter.used l) s); intros [= <- <-]; simpl.
  - split_and!; try done. split; [done | lia].
  - rewrite u64_small by (unfold is_u64; lia).
    unfold limiter_ok. simpl. split_and!; lia.
Qed.

Lemma update_use_ok n l b l' :
  limiter_ok l -> 0 <= n -> Limiter.update_use n l = (b, l') ->
  limiter_ok l' /\ Limiter.limit l' = Limiter.limit l /\
  Limiter.used l' = (if b then Z.max (Limiter.used l) n else Limiter.used l) /\
  (b = true <-> n <= Limiter.limit l).
Proof.
  unfold limiter_ok, Limiter.update_use. intros [H1 H2] Hn.
  repeat zcase_one; intros [= <- <-]; simpl; split_and!; try lia; split; (done || lia).
Qed.

(** * Properties *)

(** Stream identifiers: the constructor and the accessors are inverse.
    Every sequence number below 2^60 with a known origin and type gives a
    valid id below 2^62 (so it can be sent) that reads back the same; and
    every valid id is the one its own fields construct. *)
Theorem stream_id_roundtrip seq orig typ v :
  0 <= seq <= StreamID.seq_max -> orig <> unknown_origin -> typ <> unknown_type -> is_u64 v ->
  (let id := StreamID.make_id seq orig typ in
   0 <= id < 2 ^ 62 /\ StreamID.valid id = true /\ StreamID.seq_count id = seq /\
   StreamID.type id = typ /\ StreamID.origin id = orig) /\
  (StreamID.valid v = true ->
   StreamID.make_id (StreamID.seq_count v) (StreamID.origin v) (StreamID.type v) = v).
Proof.
  intros Hs Ho Ht Hv. split; [cbv zeta; rewrite make_id_valid by done; by apply id_value_fields |].
  intros Hval. destruct (id_shape v Hv) as (H1 & H2 & H3 & H4). unfold is_u64 in Hv.
  unfold StreamID.valid in Hval. rewrite H1 in Hval. apply Z.eqb_eq in Hval.
  assert (Hr : 0 <= v < 2 ^ 62).
  { split; [lia |]. pose proof (Z.div_mod v (2 ^ 62)). pose proof (Z.mod_pos_bound v (2 ^ 62)). lia. }
  unfold StreamID.seq_count, StreamID.origin, StreamID.type, StreamID.valid.
  rewrite H1, H2, H3, H4, Hval. rewrite (Z.mod_small v) by lia. cbn [Z.eqb negb].
  assert (Hq : 0 <= v / 4 <= StreamID.seq_max).
  { unfold StreamID.seq_max. split; [apply Z.div_pos; lia |].
    assert (v / 4 < 2 ^ 60) by (apply Z.div_lt_upper_bound; lia). lia. }
  rewrite make_id_valid; [| done | by destruct (v mod 2 =? 0) | by destruct (v / 2 mod 2 =? 0)].
  unfold id_value. pose proof (Z.div_mod v 2). pose proof (Z.mod_pos_bound v 2).
  pose proof (Z.div_mod (v / 2) 2). pose proof (Z.mod_pos_bound (v / 2) 2).
  assert (v / 4 = v / 2 / 2) by (rewrite Z.div_div by lia; done).
  destruct (Z.eqb_spec (v / 2 mod 2) 0), (Z.eqb_spec (v mod 2) 0);
    cbn [is_server is_uni negb]; lia.
Qed.

Lemma stream_id_roundtrip_witness :
  (let id := StreamID.make_id 5 server uni in
   0 <= id < 2 ^ 62 /\ StreamID.valid id = true /\ StreamID.seq_count id = 5 /\
   StreamID.type id = uni /\ StreamID.origin id = server) /\
  (StreamID.valid 22 = true ->
   StreamID.make_id (StreamID.seq_count 22) (StreamID.origin 22) (StreamID.type 22) = 22).
Proof.
  apply (stream_id_roundtrip 5 server uni 22); try discriminate; unfold StreamID.seq_max, is_u64; lia.
Defined.

(** The credit counter refines "granted and spent": with at most the
    limit spent and the limit below 2^62, [use] succeeds exactly when the
    credit left covers the request and then spends exactly that,
    [update_use] exactly when the absolute position is within the limit, and
    [update_limit] only ever raises the limit, within 62 bits. No operation
    overflows, spends credit that was not granted or takes any back. *)
Theorem limiter_refines l n :
  limiter_ok l -> 0 <= n ->
  (forall b l', Limiter.use n l = (b, l') -> limiter_ok l' /\
     Limiter.limit l' = Limiter.limit l /\
     (b = true <-> n <= Limiter.limit l - Limiter.used l) /\
     Limiter.used l' = (if b then Limiter.used l + n else Limiter.used l)) /\
  (forall b l', Limiter.update_use n l = (b, l') -> limiter_ok l' /\
     Limiter.limit l' = Limiter.limit l /\ (b = true <-> n <= Limiter.limit l) /\
     Limiter.used l' = (if b then Z.max (Limiter.used l) n else Limiter.used l)) /\
  (forall b l', Limiter.update_limit n l = (b, l') -> limiter_ok l' /\
     Limiter.used l' = Limiter.used l /\ (b = true <-> Limiter.limit l < n < 2 ^ 62) /\
     Limiter.limit l' = (if b then n else Limiter.limit l)).
Proof.
  intros Hl Hn. split_and!; intros b l' E.
  - destruct (use_ok n l b l' Hl Hn E) as (? & ? & ? & ?). auto.
  - destruct (update_use_ok n l b l' Hl Hn E) as (? & ? & ? & ?). auto.
  - destruct (update_limit_ok n l b l' Hl Hn E) as (? & ? & ? & ?). auto.
Qed.

Lemma limiter_refines_witness :
  Limiter.use 40 (Limiter.mk 100 60) = (true, Limiter.mk 100 100) /\
  limiter_ok (Limiter.mk 100 100).
Proof.
  split; [reflexivity |].
  refine (proj1 (proj1 (limiter_refines (Limiter.mk 100 60) 40 _ _) true _ eq_refl));
    unfold limiter_ok; simpl; lia.
Defined.
