(* ===== verification/StreamState.v ===== *)
(** * The two halves of a stream
      (src/src/include/fnet/quic/stream/core/base.h)

    [Module SendState] is [SendUniStreamState], [Module RecvState] is
    [RecvUniStreamState]: the state enumerations, the credit counters and
    every operation that changes them. The step relations at the end say how
    a stream half can evolve under any sequence of these operations. *)

From stdpp Require Import base list.
From Stdlib Require Import ZArith Lia Relations.
From S2P Require Import Prelude Varint StreamId.

(** ** [struct SendUniStreamState] *)

Module SendState.
Inductive st := ready | send_st | data_sent | data_recved | reset_sent | reset_recved.

Definition flag_reset_by_peer : Z := 0x1.
Definition flag_reset_by_local : Z := 0x2.
Definition flag_reset_sent : Z := 0x4.

Record t := mk { limit : Limiter.t; error_code : Z; state : st; reset_flags : Z }.
Definition init : t := mk Limiter.zero 0 ready 0.

Definition set_limiter l s := mk l (error_code s) (state s) (reset_flags s).
Definition set_state x s := mk (limit s) (error_code s) x (reset_flags s).

Definition sendable_size (s : t) : Z := Limiter.avail_size (limit s).
Definition send_limit (s : t) : Z := Limiter.current_limit (limit s).
Definition sent_bytes (s : t) : Z := Limiter.current_usage (limit s).

Definition update_send_limit (credit : Z) (s : t) : bool * t :=
  let '(b, l) := Limiter.update_limit credit (limit s) in (b, set_limiter l s).
Definition set_send_limit (new_limit : Z) (s : t) : bool * t :=
  let '(b, l) := Limiter.set_limit new_limit (limit s) in (b, set_limiter l s).

Definition is_terminal_state (s : t) : bool :=
  match state s with data_recved | reset_recved => true | _ => false end.
Definition is_ready (s : t) : bool := match state s with ready => true | _ => false end.
Definition can_send (s : t) : bool := match state s with ready | send_st => true | _ => false end.
Definition can_retransmit (s : t) : bool :=
  match state s with send_st | data_sent => true | _ => false end.
Definition can_reset (s : t) : bool :=
  match state s with ready | send_st | data_sent => true | _ => false end.
Definition can_retransmit_reset (s : t) : bool :=
  match state s with reset_sent => true | _ => false end.
Definition is_data_sent (s : t) : bool := match state s with data_sent => true | _ => false end.

Definition reset (s : t) : bool * t :=
  match state s with
  | reset_sent | data_recved | reset_recved => (false, s)
  | _ => (true, mk (limit s) (error_code s) reset_sent (Z.lor (reset_flags s) flag_reset_sent))
  end.

Definition reset_ack (s : t) : bool * t :=
  match state s with
  | reset_recved => (true, s)
  | reset_sent => (true, set_state reset_recved s)
  | _ => (false, s)
  end.

Definition send (send_max : Z) (s : t) : bool * t :=
  if negb (can_send s) then (false, s)
  else
    let '(ok, l) := Limiter.update_use send_max (limit s) in
    if negb ok then (false, set_limiter l s)
    else (true, set_state send_st (set_limiter l s)).

Definition sent (s : t) : bool * t :=
  match state s with send_st => (true, set_state data_sent s) | _ => (false, s) end.

Definition sent_ack (s : t) : bool * t :=
  match state s with data_sent => (true, set_state data_recved s) | _ => (false, s) end.

Definition set_error_code_impl (code : Z) (by_peer : bool) (s : t) : bool * t :=
  match state s with
  | reset_sent | data_recved | reset_recved => (false, s)
  | _ => (true, mk (limit s) code (state s)
            (Z.lor (reset_flags s) (if by_peer then flag_reset_by_peer else flag_reset_by_local)))
  end.

Definition set_error_code (code : Z) (s : t) : bool * t := set_error_code_impl code false s.
Definition recv_stop_sending (code : Z) (s : t) : t := snd (set_error_code_impl code true s).

Definition is_reset_required (s : t) : bool :=
  (Z.land (reset_flags s) flag_reset_sent =? 0) &&
  (negb (Z.land (reset_flags s) flag_reset_by_local =? 0) ||
   negb (Z.land (reset_flags s) flag_reset_by_peer =? 0)).

Definition get_error_code (s : t) : Z := error_code s.

(** Any operation, successful or not. *)
Inductive step : t -> t -> Prop :=
  | step_update_limit n s : 0 <= n -> step s (snd (update_send_limit n s))
  | step_set_limit n s : 0 <= n -> step s (snd (set_send_limit n s))
  | step_send n s : 0 <= n -> step s (snd (send n s))
  | step_sent s : step s (snd (sent s))
  | step_sent_ack s : step s (snd (sent_ack s))
  | step_reset s : step s (snd (reset s))
  | step_reset_ack s : step s (snd (reset_ack s))
  | step_set_error c s : step s (snd (set_error_code c s))
  | step_stop_sending c s : step s (recv_stop_sending c s).

(** A sequence of operations, with the highest limit in force on the way. *)
Inductive run : t -> Z -> t -> Prop :=
  | run_nil s : run s (send_limit s) s
  | run_cons s s1 g s2 : step s s1 -> run s1 g s2 -> run s (Z.max (send_limit s) g) s2.
End SendState.

(** ** [struct RecvUniStreamState] *)

Module RecvState.
Inductive st := pre_recv | recv_st | size_known_st | data_recved | reset_recved | data_read_st | reset_read_st.

Record t := mk {
  limit : Limiter.t;
  error_code : Z;
  ini_limit : Z;
  state : st;
  stop_required : bool;
  should_send_limit_update : bool;
}.
Definition init : t := mk Limiter.zero 0 0 pre_recv false false.

Definition set_limiter l s :=
  mk l (error_code s) (ini_limit s) (state s) (stop_required s) (should_send_limit_update s).
Definition set_state x s :=
  mk (limit s) (error_code s) (ini_limit s) x (stop_required s) (should_send_limit_update s).

Definition update_recv_limit (new_limit : Z) (s : t) : bool * t :=
  let '(b, l) := Limiter.update_limit new_limit (limit s) in
  let upd := b || should_send_limit_update s in
  (upd, mk l (error_code s) (ini_limit s) (state s) (stop_required s) upd).

Definition set_recv_limit (new_limit : Z) (s : t) : bool * t :=
  let '(b, l) := Limiter.set_limit new_limit (limit s) in
  if b then (true, mk l (error_code s) new_limit (state s) (stop_required s) (should_send_limit_update s))
  else (false, set_limiter l s).

Definition initial_limit (s : t) : Z := ini_limit s.
Definition recv_limit (s : t) : Z := Limiter.current_limit (limit s).
Definition recv_bytes (s : t) : Z := Limiter.current_usage (limit s).
Definition require_send_limit_update (s : t) : bool := should_send_limit_update s.
Definition is_stop_required (s : t) : bool := stop_required s.

Definition is_recv (s : t) : bool := match state s with pre_recv | recv_st => true | _ => false end.
Definition can_recv (s : t) : bool :=
  is_recv s || match state s with size_known_st => true | _ => false end.
Definition is_size_known (s : t) : bool :=
  match state s with reset_recved | size_known_st => true | _ => false end.

Definition recv (recv_max : Z) (s : t) : bool * t :=
  if is_size_known s && (Limiter.current_usage (limit s) <? recv_max) then (false, s)
  else if negb (can_recv s) then (false, s)
  else
    let '(ok, l) := Limiter.update_use recv_max (limit s) in
    if negb ok then (false, set_limiter l s)
    else
      let s := set_limiter l s in
      (true, match state s with size_known_st => s | _ => set_state recv_st s end).

Definition size_known (s : t) : bool * t :=
  match state s with
  | size_known_st => (true, s)
  | recv_st => (true, set_state size_known_st s)
  | _ => (false, s)
  end.

Definition is_pre_recv (s : t) : bool := match state s with pre_recv => true | _ => false end.
Definition can_stop_sending (s : t) : bool :=
  match state s with reset_recved | reset_read_st | data_read_st => false | _ => true end.

Definition reset (fin_size code : Z) (s : t) : bool * t :=
  match state s with
  | data_read_st | reset_read_st => (true, s)
  | _ =>
      if is_size_known s && negb (fin_size =? Limiter.current_usage (limit s)) then (false, s)
      else
        let '(ok, l) := Limiter.update_use fin_size (limit s) in
        if negb ok then (false, set_limiter l s)
        else (true, mk l code (ini_limit s) reset_recved (stop_required s) (should_send_limit_update s))
  end.

Definition stop_sending (code : Z) (s : t) : bool * t :=
  if negb (can_stop_sending s) then (false, s)
  else (true, mk (limit s) code (ini_limit s) (state s) true (should_send_limit_update s)).

Definition max_stream_data_sent (s : t) : t :=
  mk (limit s) (error_code s) (ini_limit s) (state s) (stop_required s) false.

Definition reset_read (s : t) : bool * t :=
  match state s with reset_recved => (true, set_state reset_read_st s) | _ => (false, s) end.
Definition recved (s : t) : bool * t :=
  match state s with size_known_st => (true, set_state data_recved s) | _ => (false, s) end.
Definition data_read (s : t) : bool * t :=
  match state s with data_recved => (true, set_state data_read_st s) | _ => (false, s) end.

Definition is_terminal_state (s : t) : bool :=
  match state s with data_read_st | reset_read_st => true | _ => false end.
Definition is_recv_all_state (s : t) : bool :=
  match state s with data_recved | reset_recved => true | _ => is_terminal_state s end.
Definition is_reset (s : t) : bool :=
  match state s with reset_recved | reset_read_st => true | _ => false end.
Definition get_error_code (s : t) : Z := error_code s.

Inductive step : t -> t -> Prop :=
  | step_update_limit n s : 0 <= n -> step s (snd (update_recv_limit n s))
  | step_set_limit n s : 0 <= n -> step s (snd (set_recv_limit n s))
  | step_recv n s : 0 <= n -> step s (snd (recv n s))
  | step_size_known s : step s (snd (size_known s))
  | step_reset n c s : 0 <= n -> step s (snd (reset n c s))
  | step_stop c s : step s (snd (stop_sending c s))
  | step_max_sent s : step s (max_stream_data_sent s)
  | step_reset_read s : step s (snd (reset_read s))
  | step_recved s : step s (snd (recved s))
  | step_data_read s : step s (snd (data_read s)).

Inductive run : t -> Z -> t -> Prop :=
  | run_nil s : run s (recv_limit s) s
  | run_cons s s1 g s2 : step s s1 -> run s1 g s2 -> run s (Z.max (recv_limit s) g) s2.
End RecvState.

(** * Lemmas *)

#[local] Arguments Z.testbit : simpl never.

(** ** Counters *)

(** The counters of a limiter, whether or not the credit is respected. *)
Definition counters_ok (l : Limiter.t) : Prop := 0 <= Limiter.used l < 2 ^ 62 /\ 0 <= Limiter.limit l < 2 ^ 62.

Lemma update_limit_counters n l b l' : counters_ok l -> 0 <= n -> Limiter.update_limit n l = (b, l') ->
  counters_ok l' /\ Limiter.used l' = Limiter.used l /\ Limiter.limit l <= Limiter.limit l'.
Proof.
  unfold counters_ok, Limiter.update_limit. change (varint.border 8) with (2 ^ 62). intros Hl Hn.
  destruct (2 ^ 62 <=? n) eqn:E1; [| destruct (Limiter.limit l <? n) eqn:E2]; intros [= <- <-]; simpl; lia.
Qed.
Lemma set_limit_counters n l b l' : counters_ok l -> 0 <= n -> Limiter.set_limit n l = (b, l') ->
  counters_ok l' /\ Limiter.used l' = Limiter.used l.
Proof.
  unfold counters_ok, Limiter.set_limit. change (varint.border 8) with (2 ^ 62). intros Hl Hn.
  destruct (2 ^ 62 <=? n) eqn:E1; intros [= <- <-]; simpl; lia.
Qed.
Lemma update_use_counters n l b l' : counters_ok l -> 0 <= n -> Limiter.update_use n l = (b, l') ->
  counters_ok l' /\ Limiter.used l <= Limiter.used l' /\ Limiter.limit l' = Limiter.limit l /\
  (Limiter.used l' = Limiter.used l \/ Limiter.used l' <= Limiter.limit l').
Proof.
  unfold counters_ok, Limiter.update_use. intros Hl Hn.
  destruct (Limiter.limit l <? n) eqn:E1; [| destruct (Limiter.used l <? n) eqn:E2]; intros [= <- <-]; simpl; lia.
Qed.

(** ** The sending half *)

Module SendFacts.
Import SendState.

(** Where a state stands on its way to the end. *)
Definition rank (x : st) : nat :=
  match x with
  | ready => 0 | send_st => 1 | data_sent => 2 | reset_sent => 3 | data_recved => 4 | reset_recved => 4
  end.

(** Reachable states: the credit is respected, and "reset sent" is
    recorded exactly in the two reset states. *)
Definition inv (s : t) : Prop :=
  limiter_ok (limit s) /\
  Z.testbit (reset_flags s) 2 = match state s with reset_sent | reset_recved => true | _ => false end.

(** ... and without the credit, which [set_send_limit] can take back. *)
Definition sane (s : t) : Prop :=
  counters_ok (limit s) /\
  Z.testbit (reset_flags s) 2 = match state s with reset_sent | reset_recved => true | _ => false end.

(** What one operation can do. *)
Definition evolves (s s' : t) : Prop :=
  (rank (state s) <= rank (state s'))%nat /\
  (is_terminal_state s = true -> state s' = state s) /\
  (can_send s = false -> sent_bytes s' = sent_bytes s) /\
  sent_bytes s <= sent_bytes s' /\
  (sent_bytes s' = sent_bytes s \/ sent_bytes s' <= send_limit s').

Lemma step_inv s s' : sane s -> step s s' ->
  sane s' /\ evolves s s' /\ (send_limit s <= send_limit s' \/ exists n, s' = snd (set_send_limit n s)).
Proof.
  intros [Hl Hf] Hs. unfold sane, evolves, sent_bytes, send_limit, Limiter.current_usage, Limiter.current_limit.
  destruct Hs as [n s Hn | n s Hn | n s Hn | s | s | s | s | c s | c s].
  - unfold update_send_limit. destruct (Limiter.update_limit n (limit s)) as [b l] eqn:E.
    destruct (update_limit_counters n (limit s) b l Hl Hn E) as (H1 & H2 & H3). simpl. split_and!; auto; lia.
  - destruct (set_send_limit n s) as [b s1] eqn:E1. unfold set_send_limit in E1.
    destruct (Limiter.set_limit n (limit s)) as [b' l] eqn:E. injection E1 as <- <-.
    destruct (set_limit_counters n (limit s) b' l Hl Hn E) as (H1 & H2). simpl. split_and!; auto; try lia.
    right. exists n. unfold set_send_limit. by rewrite E.
  - unfold send. destruct (can_send s) eqn:Ec; cbn [negb]; [| split_and!; auto; simpl; lia].
    destruct (Limiter.update_use n (limit s)) as [b l] eqn:E.
    destruct (update_use_counters n (limit s) b l Hl Hn E) as (H1 & H2 & H3 & H4).
    destruct s as [lim ec x fl]. simpl in *. destruct b; cbn [negb]; destruct x; simpl in *; try discriminate;
      split_and!; auto; (done || lia).
  - unfold sent. destruct s as [lim ec x fl]; simpl in *. destruct x; simpl; split_and!; auto; (done || lia).
  - unfold sent_ack. destruct s as [lim ec x fl]; simpl in *. destruct x; simpl; split_and!; auto; (done || lia).
  - unfold reset. destruct s as [lim ec x fl]; simpl in *. destruct x; simpl; split_and!; auto;
      try (rewrite Z.lor_spec, Hf); (done || lia).
  - unfold reset_ack. destruct s as [lim ec x fl]; simpl in *. destruct x; simpl; split_and!; auto; (done || lia).
  - unfold set_error_code, set_error_code_impl. destruct s as [lim ec x fl]; simpl in *.
    destruct x; simpl; split_and!; auto; try (rewrite Z.lor_spec, Hf); (done || lia).
  - unfold recv_stop_sending, set_error_code_impl. destruct s as [lim ec x fl]; simpl in *.
    destruct x; simpl; split_and!; auto; try (rewrite Z.lor_spec, Hf); (done || lia).
Qed.

Lemma send_run_inv s g s' : sane s -> run s g s' ->
  sane s' /\ (rank (state s) <= rank (state s'))%nat /\
  (is_terminal_state s = true -> state s' = state s) /\
  (can_send s = false -> sent_bytes s' = sent_bytes s) /\
  sent_bytes s <= sent_bytes s' <= Z.max (sent_bytes s) g.
Proof.
  intros Hi H. revert Hi. induction H as [s | s s1 g s2 H1 H2 IH]; intros Hi.
  - split; [done |]. split_and!; auto; lia.
  - destruct (step_inv _ _ Hi H1) as (Hi1 & (A1 & A2 & A3 & A4 & A5) & _).
    assert (G : send_limit s1 <= g) by (inversion H2; lia).
    destruct (IH Hi1) as (Hi2 & B1 & B2 & B3 & B4). split; [done |]. split_and!; try lia.
    + intros Ht. assert (E := A2 Ht). rewrite <- E. apply B2. unfold is_terminal_state in *. by rewrite E.
    + intros Hc. rewrite <- (A3 Hc). apply B3. unfold can_send in *.
      destruct (state s), (state s1); simpl in *; (done || lia).
Qed.
End SendFacts.

(** ** The receiving half *)

Module RecvFacts.
Import RecvState.

Definition rank (x : st) : nat :=
  match x with
  | pre_recv => 0 | recv_st => 1 | size_known_st => 2 | data_recved => 3 | reset_recved => 4
  | data_read_st => 5 | reset_read_st => 5
  end.

(** The final size of the stream has been announced. *)
Definition final_known (s : t) : bool :=
  match state s with pre_recv | recv_st => false | _ => true end.

Definition evolves (s s' : t) : Prop :=
  (rank (state s) <= rank (state s'))%nat /\
  (is_terminal_state s = true -> state s' = state s) /\
  recv_bytes s <= recv_bytes s' /\
  (recv_bytes s' = recv_bytes s \/ recv_bytes s' <= recv_limit s') /\
  (recv_limit s <= recv_limit s' \/ exists n, s' = snd (set_recv_limit n s)).

(** The size does not change once it is known, unless a reset arrives
    after all data has. *)
Definition size_kept (s s' : t) : Prop :=
  final_known s = true ->
  recv_bytes s' = recv_bytes s \/ state s = data_recved /\ state s' = reset_recved.

Lemma use_frozen n l b l' : 0 <= n <= Limiter.used l -> Limiter.update_use n l = (b, l') -> l' = l.
Proof.
  intros Hn. unfold Limiter.update_use. destruct (Limiter.limit l <? n); [by intros [= _ <-] |].
  rewrite ltb_false by lia. by intros [= _ <-].
Qed.

Ltac recv_done s x :=
  unfold evolves, size_kept, recv_bytes, recv_limit, Limiter.current_usage, Limiter.current_limit;
  destruct s as [lim ec il x sr su]; simpl in *; destruct x; simpl; split_and!; auto; (done || lia).

Lemma step_ok s s' : counters_ok (limit s) -> step s s' ->
  counters_ok (limit s') /\ evolves s s' /\ size_kept s s'.
Proof.
  intros Hl Hs. destruct Hs as [n s Hn | n s Hn | n s Hn | s | n c s Hn | c s | s | s | s | s].
  - unfold update_recv_limit. destruct (Limiter.update_limit n (limit s)) as [b l] eqn:E.
    destruct (update_limit_counters n (limit s) b l Hl Hn E) as (H1 & H2 & H3).
    unfold evolves, size_kept, recv_bytes, recv_limit, Limiter.current_usage, Limiter.current_limit.
    simpl. split_and!; auto; lia.
  - assert (K : limit (snd (set_recv_limit n s)) = snd (Limiter.set_limit n (limit s)) /\ state (snd (set_recv_limit n s)) = state s)
      by (unfold set_recv_limit; by destruct (Limiter.set_limit n (limit s)) as [[] l]).
    destruct K as [K1 K2]. destruct (Limiter.set_limit n (limit s)) as [b l] eqn:E. cbn [snd] in K1.
    destruct (set_limit_counters n (limit s) b l Hl Hn E) as (H1 & H2).
    unfold evolves, size_kept, recv_bytes, recv_limit, is_terminal_state, Limiter.current_usage, Limiter.current_limit.
    rewrite K1, K2, H2. split_and!; eauto; lia.
  - unfold recv. destruct (is_size_known s && _) eqn:Ek; [recv_done s x |].
    destruct (can_recv s) eqn:Ec; cbn [negb]; [| recv_done s x].
    destruct (Limiter.update_use n (limit s)) as [b l] eqn:E.
    destruct (update_use_counters n (limit s) b l Hl Hn E) as (H1 & H2 & H3 & H4).
    assert (Hfix : final_known s = true -> l = limit s).
    { intros Hk. destruct s as [lim ec il x sr su]; destruct x; try discriminate. simpl in *.
      apply Z.ltb_ge in Ek. eapply use_frozen; eauto. }
    destruct b; cbn [negb]; unfold evolves, size_kept, recv_bytes, recv_limit, Limiter.current_usage,
      Limiter.current_limit; destruct s as [lim ec il x sr su]; destruct x; try discriminate; simpl in *;
      split_and!; auto; try lia; intros; try discriminate; left; by rewrite Hfix.
  - unfold size_known. recv_done s x.
  - unfold reset. destruct (is_size_known s && _) eqn:Ek; [recv_done s x |].
    destruct (Limiter.update_use n (limit s)) as [b l] eqn:E.
    destruct (update_use_counters n (limit s) b l Hl Hn E) as (H1 & H2 & H3 & H4).
    assert (Hfix : is_size_known s = true -> l = limit s).
    { intros Hk. rewrite Hk in Ek. simpl in Ek. apply negb_false_iff, Z.eqb_eq in Ek.
      destruct Hl. eapply use_frozen; eauto. unfold Limiter.current_usage in Ek. lia. }
    assert (Hno : b = false -> l = limit s).
    { intros ->. unfold Limiter.update_use in E. by repeat case_match; simplify_eq. }
    destruct b; cbn [negb]; unfold evolves, size_kept, recv_bytes, recv_limit, Limiter.current_usage,
      Limiter.current_limit; destruct s as [lim ec il x sr su]; destruct x; simpl in *;
      split_and!; auto; try lia; intros; try discriminate; try (left; by rewrite Hfix); try done.
    left. by rewrite Hno.
  - unfold stop_sending. destruct (can_stop_sending s); cbn [negb]; recv_done s x.
  - recv_done s x.
  - unfold reset_read. recv_done s x.
  - unfold recved. recv_done s x.
  - unfold data_read. recv_done s x.
Qed.

Lemma run_ok s g s' : counters_ok (limit s) -> run s g s' ->
  counters_ok (limit s') /\ (rank (state s) <= rank (state s'))%nat /\
  (is_terminal_state s = true -> state s' = state s) /\
  recv_bytes s <= recv_bytes s' <= Z.max (recv_bytes s) g.
Proof.
  intros Hl H. revert Hl. induction H as [s | s s1 g s2 H1 H2 IH]; intros Hl.
  - split; [done |]. split_and!; auto; lia.
  - destruct (step_ok _ _ Hl H1) as (Hl1 & (A1 & A2 & A3 & A4 & _) & _).
    assert (G : recv_limit s1 <= g) by (inversion H2; lia).
    destruct (IH Hl1) as (Hl2 & B1 & B2 & B3). split; [done |]. split_and!; try lia.
    intros Ht. assert (E := A2 Ht). rewrite <- E. apply B2. unfold is_terminal_state in *. by rewrite E.
Qed.
End RecvFacts.

(** * Properties *)

(** C29. The sending half under any sequence of operations, successful or
    not, [set_send_limit] included: its counters stay in 62 bits; it only
    moves forward (ready, send, data sent, and then to one of the two ends),
    the end states are final; once FIN or RESET_STREAM is sent the number of
    bytes sent, which is the final size the peer is told, never changes;
    "reset sent" is flagged exactly in the reset states; and the bytes sent
    never exceed the highest limit [g] in force on the way. They exceed the
    limit in force at the end only where [set_send_limit], which new initial
    limits of the peer cause, has taken credit back: every other operation
    keeps a stream within its limit there. *)
Theorem send_state_machine s g s' :
  SendFacts.sane s -> SendState.run s g s' ->
  SendFacts.sane s' /\
  (SendFacts.rank (SendState.state s) <= SendFacts.rank (SendState.state s'))%nat /\
  (SendState.is_terminal_state s = true -> SendState.state s' = SendState.state s) /\
  (SendState.can_send s = false -> SendState.sent_bytes s' = SendState.sent_bytes s) /\
  SendState.sent_bytes s <= SendState.sent_bytes s' <= Z.max (SendState.sent_bytes s) g /\
  forall s1, SendState.step s' s1 -> SendState.sent_bytes s' <= SendState.send_limit s' ->
    SendState.sent_bytes s1 <= SendState.send_limit s1 \/ exists n, s1 = snd (SendState.set_send_limit n s').
Proof.
  intros Hi H. destruct (SendFacts.send_run_inv s g s' Hi H) as (Hi' & A1 & A2 & A3 & A4). split_and!; auto; try lia.
  intros s1 H1 Hw. destruct (SendFacts.step_inv _ _ Hi' H1) as (_ & (_ & _ & _ & _ & [B | B]) & [C | C]); auto. lia.
Qed.

Lemma send_state_machine_witness :
  let s := SendState.mk (Limiter.mk 100 0) 0 SendState.ready 0 in
  let s' := snd (SendState.set_send_limit 50 (snd (SendState.sent (snd (SendState.send 60 s))))) in
  SendState.sent_bytes s' <= 100 /\ SendState.sent_bytes s' = 60 /\ SendState.send_limit s' = 50 /\ SendState.state s' = SendState.data_sent.
Proof.
  split; [| split_and!; reflexivity].
  destruct (send_state_machine (SendState.mk (Limiter.mk 100 0) 0 SendState.ready 0) 100
    (snd (SendState.set_send_limit 50 (snd (SendState.sent (snd (SendState.send 60 (SendState.mk (Limiter.mk 100 0) 0 SendState.ready 0)))))))) as (_ & _ & _ & _ & H & _).
  - split; [unfold counters_ok; simpl; lia | reflexivity].
  - set (s0 := SendState.mk (Limiter.mk 100 0) 0 SendState.ready 0).
    apply (SendState.run_cons s0 (snd (SendState.send 60 s0)) 100); [apply SendState.step_send; lia |].
    apply (SendState.run_cons (snd (SendState.send 60 s0)) (snd (SendState.sent (snd (SendState.send 60 s0)))) 100); [apply SendState.step_sent |].
    apply (SendState.run_cons (snd (SendState.sent (snd (SendState.send 60 s0)))) _ 50 _ (SendState.step_set_limit 50 _ ltac:(lia))).
    apply SendState.run_nil.
  - exact (proj2 H).
Defined.

(** C30. The receiving half under any sequence of operations, [set_recv_limit]
    included: the counters stay in 62 bits, the state only moves forward, the
    end states are final, and the bytes received never exceed the highest
    limit [g] in force on the way; they exceed the limit in force at the end
    only where [set_recv_limit], which new initial limits of this end cause,
    has taken credit back. Once the final size is known (FIN, all data,
    reset) an operation leaves the number of received bytes alone, with one
    exception: a RESET_STREAM that arrives after all data has been received
    is not compared with the final size, and does change it. *)
Theorem recv_state_machine s g s' :
  counters_ok (RecvState.limit s) -> RecvState.run s g s' ->
  counters_ok (RecvState.limit s') /\
  (RecvFacts.rank (RecvState.state s) <= RecvFacts.rank (RecvState.state s'))%nat /\
  (RecvState.is_terminal_state s = true -> RecvState.state s' = RecvState.state s) /\
  RecvState.recv_bytes s <= RecvState.recv_bytes s' <= Z.max (RecvState.recv_bytes s) g /\
  (forall s1, RecvState.step s' s1 ->
   (RecvState.recv_bytes s' <= RecvState.recv_limit s' ->
    RecvState.recv_bytes s1 <= RecvState.recv_limit s1 \/ exists n, s1 = snd (RecvState.set_recv_limit n s')) /\
   (RecvFacts.final_known s' = true ->
    RecvState.recv_bytes s1 = RecvState.recv_bytes s' \/
    RecvState.state s' = RecvState.data_recved /\ RecvState.state s1 = RecvState.reset_recved)) /\
  (let after := RecvState.reset 9 0
     (snd (RecvState.recved (snd (RecvState.size_known
       (snd (RecvState.recv 5 (RecvState.mk (Limiter.mk 100 0) 0 0 RecvState.pre_recv false false)))))))
   in fst after = true /\ RecvState.recv_bytes (snd after) = 9).
Proof.
  intros Hl H. destruct (RecvFacts.run_ok s g s' Hl H) as (Hl' & A1 & A2 & A3). split_and!; auto; try lia; try done.
  intros s1 H1. destruct (RecvFacts.step_ok s' s1 Hl' H1) as (_ & (_ & _ & _ & B & C) & Hk). split; [| exact Hk].
  intros Hw. destruct B as [B | B], C as [C | C]; auto. lia.
Qed.

Lemma recv_state_machine_witness :
  let s := RecvState.mk (Limiter.mk 100 7) 0 0 RecvState.size_known_st false false in
  let s' := snd (RecvState.recv 8 s) in
  RecvState.recv_bytes s' <= 100.
Proof.
  destruct (recv_state_machine (RecvState.mk (Limiter.mk 100 7) 0 0 RecvState.size_known_st false false) 100
    (snd (RecvState.recv 8 (RecvState.mk (Limiter.mk 100 7) 0 0 RecvState.size_known_st false false))))
    as (_ & _ & _ & H & _).
  - unfold counters_ok; simpl; lia.
  - set (s0 := RecvState.mk (Limiter.mk 100 7) 0 0 RecvState.size_known_st false false).
    apply (RecvState.run_cons s0 (snd (RecvState.recv 8 s0)) 100); [apply RecvState.step_recv; lia |]. apply RecvState.run_nil.
  - exact (proj2 H).
Defined.
