(* ===== verification/ConnBase.v ===== *)
(** * Stream limits of a connection
      (src/src/include/fnet/quic/stream/core/issue_accept.h, conn_base.h)

    Which stream identifiers may be opened and accepted, and the
    connection-level flow control. The locks of [ConnectionBase] protect
    single operations; each operation here is one critical section. *)

From stdpp Require Import base list strings.
From Stdlib Require Import ZArith Lia.
From S2P Require Import Prelude Bytes Varint Types FrameBase FrameStream FrameAck FrameParse StreamId StreamState.

#[local] Open Scope string_scope.
#[local] Open Scope Z_scope.
#[local] Open Scope list_scope.

(** ** [struct StreamIDAcceptor] and [struct StreamIDIssuer] *)

Module Acceptor.
Record t := mk { limit : Limiter.t; type : StreamType; origin : Origin; should_send_limit_update : bool }.

Definition set_dir (dir : Origin) (a : t) : t := mk (limit a) (type a) dir (should_send_limit_update a).

Definition accept (new_id : Z) (a : t) : option Error * t :=
  if negb (StreamID.valid new_id) || negb (bool_decide (StreamID.type new_id = type a))
  then (Some (quic_error "invalid stream_id or type not matched. library bug!"), a)
  else if negb (bool_decide (StreamID.origin new_id = origin a))
  then (Some (QUICError "stream id provided by peer has not valid direction flag"
                STREAM_STATE_ERROR FrameType.PADDING), a)
  else
    let '(ok, l) := Limiter.update_use (u64 (StreamID.seq_count new_id + 1)) (limit a) in
    let a' := mk l (type a) (origin a) (should_send_limit_update a) in
    if negb ok
    then (Some (QUICError "stream over concurrency limit received" FLOW_CONTROL_ERROR FrameType.PADDING), a')
    else (None, a').

Definition is_accepted (id : Z) (a : t) : bool :=
  bool_decide (StreamID.origin id = origin a) && bool_decide (StreamID.type id = type a) &&
  (StreamID.seq_count id <? Limiter.current_usage (limit a)).

Definition update_limit (new_limit : Z) (a : t) : bool * t :=
  let '(res, l) := Limiter.update_limit new_limit (limit a) in
  (res, mk l (type a) (origin a) (res || should_send_limit_update a)).
End Acceptor.

Module Issuer.
Record t := mk { limit : Limiter.t; type : StreamType; origin : Origin }.

Definition set_dir (dir : Origin) (i : t) : t := mk (limit i) (type i) dir.

Definition next (i : t) : Z := StreamID.make_id (Limiter.current_usage (limit i)) (origin i) (type i).

Definition issue (i : t) : Z * t :=
  let res := next i in
  if negb (StreamID.valid res) then (StreamID.invalid_id, i)
  else
    let '(ok, l) := Limiter.use 1 (limit i) in
    if negb ok then (StreamID.invalid_id, mk l (type i) (origin i))
    else (res, mk l (type i) (origin i)).

Definition is_issued (id : Z) (i : t) : bool :=
  bool_decide (StreamID.origin id = origin i) && bool_decide (StreamID.type id = type i) &&
  (StreamID.seq_count id <? Limiter.current_usage (limit i)).

Definition update_limit (new_limit : Z) (i : t) : option Error * t :=
  if 2 ^ 60 <=? new_limit
  then (Some (QUICError "" FRAME_ENCODING_ERROR
                (if bool_decide (type i = bidi) then FrameType.MAX_STREAMS_BIDI else FrameType.MAX_STREAMS_UNI)), i)
  else (None, mk (snd (Limiter.update_limit new_limit (limit i))) (type i) (origin i)).
End Issuer.

(** ** [struct ConnFlowLimit] and [struct StreamsState] *)

Record ConnFlowLimit := mk_flow { flow_send : Limiter.t; flow_recv : Limiter.t; flow_update : bool }.

Definition flow_update_recv_limit (lim : Z) (c : ConnFlowLimit) : bool * ConnFlowLimit :=
  let '(res, l) := Limiter.update_limit lim (flow_recv c) in
  (res, mk_flow (flow_send c) l (res || flow_update c)).

Record StreamsState := mk_streams {
  uni_issuer : Issuer.t;
  bidi_issuer : Issuer.t;
  uni_acceptor : Acceptor.t;
  bidi_acceptor : Acceptor.t;
  conn_flow : ConnFlowLimit;
  send_ini_limit : InitialLimits;
  recv_ini_limit : InitialLimits;
}.

Definition no_limits : InitialLimits := mk_limits 0 0 0 0 0 0.

Definition new_streams : StreamsState :=
  mk_streams (Issuer.mk Limiter.zero uni unknown_origin) (Issuer.mk Limiter.zero bidi unknown_origin)
    (Acceptor.mk Limiter.zero uni unknown_origin false) (Acceptor.mk Limiter.zero bidi unknown_origin false)
    (mk_flow Limiter.zero Limiter.zero false) no_limits no_limits.

Definition set_uni_issuer x s := mk_streams x (bidi_issuer s) (uni_acceptor s) (bidi_acceptor s) (conn_flow s) (send_ini_limit s) (recv_ini_limit s).
Definition set_bidi_issuer x s := mk_streams (uni_issuer s) x (uni_acceptor s) (bidi_acceptor s) (conn_flow s) (send_ini_limit s) (recv_ini_limit s).
Definition set_uni_acceptor x s := mk_streams (uni_issuer s) (bidi_issuer s) x (bidi_acceptor s) (conn_flow s) (send_ini_limit s) (recv_ini_limit s).
Definition set_bidi_acceptor x s := mk_streams (uni_issuer s) (bidi_issuer s) (uni_acceptor s) x (conn_flow s) (send_ini_limit s) (recv_ini_limit s).
Definition set_conn_flow x s := mk_streams (uni_issuer s) (bidi_issuer s) (uni_acceptor s) (bidi_acceptor s) x (send_ini_limit s) (recv_ini_limit s).

Definition set_dir (orig : Origin) (s : StreamsState) : StreamsState :=
  mk_streams (Issuer.set_dir orig (uni_issuer s)) (Issuer.set_dir orig (bidi_issuer s))
    (Acceptor.set_dir (inverse orig) (uni_acceptor s)) (Acceptor.set_dir (inverse orig) (bidi_acceptor s))
    (conn_flow s) (send_ini_limit s) (recv_ini_limit s).

Definition peer_origin (s : StreamsState) : Origin := Acceptor.origin (uni_acceptor s).
Definition local_origin (s : StreamsState) : Origin := Issuer.origin (uni_issuer s).

Definition issuer_set_limit (n : Z) (i : Issuer.t) : Issuer.t :=
  Issuer.mk (snd (Limiter.set_limit n (Issuer.limit i))) (Issuer.type i) (Issuer.origin i).
Definition acceptor_set_limit (n : Z) (a : Acceptor.t) : Acceptor.t :=
  Acceptor.mk (snd (Limiter.set_limit n (Acceptor.limit a))) (Acceptor.type a) (Acceptor.origin a)
    (Acceptor.should_send_limit_update a).

Definition set_send_initial_limit (lim : InitialLimits) (s : StreamsState) : StreamsState :=
  mk_streams (issuer_set_limit (uni_stream_limit lim) (uni_issuer s))
    (issuer_set_limit (bidi_stream_limit lim) (bidi_issuer s))
    (uni_acceptor s) (bidi_acceptor s)
    (mk_flow (snd (Limiter.set_limit (conn_data_limit lim) (flow_send (conn_flow s))))
       (flow_recv (conn_flow s)) (flow_update (conn_flow s)))
    lim (recv_ini_limit s).

Definition set_recv_initial_limit (lim : InitialLimits) (s : StreamsState) : StreamsState :=
  mk_streams (uni_issuer s) (bidi_issuer s)
    (acceptor_set_limit (uni_stream_limit lim) (uni_acceptor s))
    (acceptor_set_limit (bidi_stream_limit lim) (bidi_acceptor s))
    (mk_flow (flow_send (conn_flow s))
       (snd (Limiter.set_limit (conn_data_limit lim) (flow_recv (conn_flow s)))) (flow_update (conn_flow s)))
    (send_ini_limit s) lim.

(** ** [struct ConnectionBase] *)

(** [use_send_credit(cb)]: the callback sees the credit left and the limit
    and answers how much it takes, with a result of its own. *)
Definition use_send_credit {A} (cb : Z -> Z -> Z * A) (s : StreamsState) : bool * A * StreamsState :=
  let l := flow_send (conn_flow s) in
  let '(reqsize, a) := cb (Limiter.avail_size l) (Limiter.current_limit l) in
  if reqsize =? 0 then (true, a, s)
  else
    let '(ok, l') := Limiter.use reqsize l in
    (ok, a, set_conn_flow (mk_flow l' (flow_recv (conn_flow s)) (flow_update (conn_flow s))) s).

Definition use_recv_credit (use_delta : Z) (s : StreamsState) : bool * StreamsState :=
  let '(ok, l) := Limiter.use use_delta (flow_recv (conn_flow s)) in
  (ok, set_conn_flow (mk_flow (flow_send (conn_flow s)) l (flow_update (conn_flow s))) s).

Definition recv_max_data (f : MaxDataBase.t FrameType.MAX_DATA) (s : StreamsState) : bool * StreamsState :=
  let '(ok, l) := Limiter.update_limit (varint.value (MaxDataBase.max_data f)) (flow_send (conn_flow s)) in
  (ok, set_conn_flow (mk_flow l (flow_recv (conn_flow s)) (flow_update (conn_flow s))) s).

Definition recv_max_streams (f : MaxStreamsBase.t FrameType.MAX_STREAMS) (s : StreamsState)
    : option Error * StreamsState :=
  let ty := FrameFlags.type_detail (MaxStreamsBase.type f) in
  let n := varint.value (MaxStreamsBase.max_streams f) in
  if ty =? FrameType.MAX_STREAMS_UNI then
    let '(err, i) := Issuer.update_limit n (uni_issuer s) in (err, set_uni_issuer i s)
  else if ty =? FrameType.MAX_STREAMS_BIDI then
    let '(err, i) := Issuer.update_limit n (bidi_issuer s) in (err, set_bidi_issuer i s)
  else (None, s).

(** [recv(frame)]; the casts are to the kind the parser created. *)
Definition conn_recv (a : AnyFrame) (s : StreamsState) : option Error * StreamsState :=
  match a with
  | MaxStreams f => recv_max_streams f s
  | MaxData f => (None, snd (recv_max_data f s))
  | DataBlocked _ | StreamsBlocked _ => (None, s)
  | _ => (Some (quic_error "unexpected frame type. expect MAX_STREAMS(bidi/uni) or MAX_DATA"), s)
  end.

Definition update_max_data (decide_new_limit : Limiter.t -> Z -> Z) (s : StreamsState) : bool * StreamsState :=
  let new_limit := decide_new_limit (flow_recv (conn_flow s)) (conn_data_limit (recv_ini_limit s)) in
  let '(res, c) := flow_update_recv_limit new_limit (conn_flow s) in (res, set_conn_flow c s).

Definition send_max_data (w : fwriter) (s : StreamsState) : IOResult * fwriter * StreamsState :=
  let f := MaxDataBase.mk (ty := FrameType.MAX_DATA) 0
             (varint.of_uint (Limiter.current_limit (flow_recv (conn_flow s)))) in
  let '(res, w') := write_checked f w in
  if bool_decide (res = io_ok)
  then (res, w', set_conn_flow (mk_flow (flow_send (conn_flow s)) (flow_recv (conn_flow s)) false) s)
  else (res, w', s).

Definition send_max_data_if_updated (w : fwriter) (s : StreamsState) : IOResult * fwriter * StreamsState :=
  if negb (flow_update (conn_flow s)) then (not_in_io_state, w, s) else send_max_data w s.

Definition update_max_uni_streams (decide_new_limit : Limiter.t -> Z -> Z) (s : StreamsState) : bool * StreamsState :=
  let new_limit := decide_new_limit (Acceptor.limit (uni_acceptor s)) (uni_stream_limit (recv_ini_limit s)) in
  let '(res, a) := Acceptor.update_limit new_limit (uni_acceptor s) in (res, set_uni_acceptor a s).

Definition update_max_bidi_streams (decide_new_limit : Limiter.t -> Z -> Z) (s : StreamsState) : bool * StreamsState :=
  let new_limit := decide_new_limit (Acceptor.limit (bidi_acceptor s)) (bidi_stream_limit (recv_ini_limit s)) in
  let '(res, a) := Acceptor.update_limit new_limit (bidi_acceptor s) in (res, set_bidi_acceptor a s).

Definition acceptor_sent (a : Acceptor.t) : Acceptor.t :=
  Acceptor.mk (Acceptor.limit a) (Acceptor.type a) (Acceptor.origin a) false.

Definition send_max_uni_streams (w : fwriter) (s : StreamsState) : IOResult * fwriter * StreamsState :=
  let f := MaxStreamsBase.mk (ty := FrameType.MAX_STREAMS) FrameType.MAX_STREAMS_UNI
             (varint.of_uint (Limiter.current_limit (Acceptor.limit (uni_acceptor s)))) in
  let '(res, w') := write_checked f w in
  if bool_decide (res = io_ok) then (res, w', set_uni_acceptor (acceptor_sent (uni_acceptor s)) s)
  else (res, w', s).

Definition send_max_uni_streams_if_updated (w : fwriter) (s : StreamsState) : IOResult * fwriter * StreamsState :=
  if negb (Acceptor.should_send_limit_update (uni_acceptor s)) then (not_in_io_state, w, s)
  else send_max_uni_streams w s.

Definition send_max_bidi_streams (w : fwriter) (s : StreamsState) : IOResult * fwriter * StreamsState :=
  let f := MaxStreamsBase.mk (ty := FrameType.MAX_STREAMS) FrameType.MAX_STREAMS_BIDI
             (varint.of_uint (Limiter.current_limit (Acceptor.limit (bidi_acceptor s)))) in
  let '(res, w') := write_checked f w in
  if bool_decide (res = io_ok) then (res, w', set_bidi_acceptor (acceptor_sent (bidi_acceptor s)) s)
  else (res, w', s).

Definition send_max_bidi_streams_if_updated (w : fwriter) (s : StreamsState) : IOResult * fwriter * StreamsState :=
  if negb (Acceptor.should_send_limit_update (bidi_acceptor s)) then (not_in_io_state, w, s)
  else send_max_bidi_streams w s.

(** [open_impl]: the arguments of the single callback. *)
Definition open_impl (i : Issuer.t) : (Z * bool) * Issuer.t :=
  let '(id, i') := Issuer.issue i in
  if negb (StreamID.valid id) then ((id, Limiter.on_limit 1 (Issuer.limit i')), i')
  else ((id, false), i').

Definition open_uni (s : StreamsState) : (Z * bool) * StreamsState :=
  let '(call, i) := open_impl (uni_issuer s) in (call, set_uni_issuer i s).
Definition open_bidi (s : StreamsState) : (Z * bool) * StreamsState :=
  let '(call, i) := open_impl (bidi_issuer s) in (call, set_bidi_issuer i s).

(** [accept_impl]: the callbacks (id, created by a higher id, error) in
    order. *)
Definition accept_impl (id : Z) (a : Acceptor.t) : list (Z * bool * option Error) * Acceptor.t :=
  let current_usage := Limiter.current_usage (Acceptor.limit a) in
  let '(err, a') := Acceptor.accept id a in
  match err with
  | Some e => ([(id, false, Some e)], a')
  | None =>
      (map (fun i => (StreamID.make_id i (Acceptor.origin a') (Acceptor.type a'),
                      negb (i =? StreamID.seq_count id), None))
         (seqZ current_usage (Limiter.current_usage (Acceptor.limit a') - current_usage)), a')
  end.

(** [accept]: an id of unknown type is reported and then still handed to the
    unidirectional acceptor. *)
Definition accept (id : Z) (s : StreamsState) : list (Z * bool * option Error) * StreamsState :=
  let first :=
    match StreamID.type id with
    | unknown_type => [(id, false, Some (QUICError "invalid stream id by peer? or library bug"
                                           PROTOCOL_VIOLATION FrameType.PADDING))]
    | _ => []
    end in
  match StreamID.type id with
  | bidi => let '(calls, a) := accept_impl id (bidi_acceptor s) in (first ++ calls, set_bidi_acceptor a s)
  | _ => let '(calls, a) := accept_impl id (uni_acceptor s) in (first ++ calls, set_uni_acceptor a s)
  end.

(** [check_recv_frame]: (already created, error). *)
Definition check_recv_frame (type : Z) (id : Z) (s : StreamsState) : bool * option Error :=
  if bool_decide (StreamID.origin id = local_origin s) then
    match StreamID.type id with
    | bidi =>
        if negb (Issuer.is_issued id (bidi_issuer s))
        then (true, Some (QUICError "not created stream id on bidirectional stream" PROTOCOL_VIOLATION type))
        else if negb (is_BidiStreamOK type)
        then (true, Some (QUICError "not allowed frame type for bidirectional stream. library bug!"
                            STREAM_STATE_ERROR type))
        else (true, None)
    | uni =>
        if negb (Issuer.is_issued id (uni_issuer s))
        then (true, Some (QUICError "not created stream id on unidirectional stream" PROTOCOL_VIOLATION type))
        else if negb (is_UniStreamReceiverOK type)
        then (true, Some (QUICError "not allowed frame type for sending unidirectional stream."
                            STREAM_STATE_ERROR type))
        else (true, None)
    | unknown_type => (false, Some (quic_error "unexpected stream type. library bug!!"))
    end
  else if bool_decide (StreamID.origin id = peer_origin s) then
    match StreamID.type id with
    | bidi =>
        if negb (is_BidiStreamOK type)
        then (true, Some (QUICError "not allowed frame type for bidirectional stream. library bug!"
                            STREAM_STATE_ERROR type))
        else (false, None)
    | _ =>
        if negb (is_UniStreamSenderOK type)
        then (true, Some (QUICError "not allowed frame type for receiving unidirectional stream."
                            STREAM_STATE_ERROR type))
        else (false, None)
    end
  else (false, Some (quic_error "unexpected stream type. library bug!!")).

Definition send_conn_blocked (w : fwriter) (max_data : Z) : IOResult * fwriter :=
  if varint.border 8 <=? max_data then (invalid_data, w)
  else write_checked (MaxDataBase.mk (ty := FrameType.DATA_BLOCKED) 0 (varint.of_uint max_data)) w.

(** The source sets a MAX_STREAMS type on the STREAMS_BLOCKED frame. *)
Definition send_streams_blocked (w : fwriter) (max_streams : Z) (is_uni : bool) : IOResult * fwriter :=
  if varint.border 8 <=? max_streams then (invalid_data, w)
  else write_checked (MaxStreamsBase.mk (ty := FrameType.STREAMS_BLOCKED)
         (if is_uni then FrameType.MAX_STREAMS_UNI else FrameType.MAX_STREAMS_BIDI)
         (varint.of_uint max_streams)) w.

(** * Lemmas *)

(** Known origin and type, credit respected, ids in range. *)
Definition issuer_ok (i : Issuer.t) : Prop :=
  limiter_ok (Issuer.limit i) /\ Limiter.limit (Issuer.limit i) <= 2 ^ 60 /\
  Issuer.origin i <> unknown_origin /\ Issuer.type i <> unknown_type.

Definition acceptor_ok (a : Acceptor.t) : Prop :=
  limiter_ok (Acceptor.limit a) /\ Acceptor.origin a <> unknown_origin /\ Acceptor.type a <> unknown_type.

(** An id of a given origin and type is the one built from its number. *)
Lemma id_of_fields id o t :
  is_u64 id -> StreamID.valid id = true -> StreamID.origin id = o -> StreamID.type id = t ->
  id = id_value (StreamID.seq_count id) o t /\ 0 <= StreamID.seq_count id <= StreamID.seq_max.
Proof.
  intros Hid Hv <- <-. destruct (id_shape id Hid) as (H1 & H2 & H3 & H4). unfold is_u64 in Hid.
  pose proof Hv as Hv'. unfold StreamID.valid in Hv'. rewrite H1 in Hv'. apply Z.eqb_eq in Hv'.
  assert (Hr : 0 <= id < 2 ^ 62).
  { split; [lia |]. pose proof (Z.div_mod id (2 ^ 62)). pose proof (Z.mod_pos_bound id (2 ^ 62)). lia. }
  unfold StreamID.seq_count, StreamID.origin, StreamID.type, id_value. rewrite Hv. cbn [negb].
  rewrite H2, H3, H4, (Z.mod_small id) by lia. unfold StreamID.seq_max.
  assert (id / 4 < 2 ^ 60) by (apply Z.div_lt_upper_bound; lia).
  assert (0 <= id / 4) by (apply Z.div_pos; lia). split; [| lia].
  pose proof (Z.div_mod id 2). pose proof (Z.mod_pos_bound id 2).
  pose proof (Z.div_mod (id / 2) 2). pose proof (Z.mod_pos_bound (id / 2) 2).
  assert (id / 4 = id / 2 / 2) by (rewrite Z.div_div by lia; done).
  destruct (Z.eqb_spec (id / 2 mod 2) 0), (Z.eqb_spec (id mod 2) 0); cbn [is_server is_uni negb]; lia.
Qed.

Lemma valid_of_type id t : t <> unknown_type -> StreamID.type id = t -> StreamID.valid id = true.
Proof. intros Ht. unfold StreamID.type. destruct (StreamID.valid id); [done |]. by intros <-. Qed.

Lemma issue_spec i :
  issuer_ok i ->
  let n := Limiter.used (Issuer.limit i) in
  Issuer.issue i =
    if n <? Limiter.limit (Issuer.limit i)
    then (id_value n (Issuer.origin i) (Issuer.type i),
          Issuer.mk (Limiter.mk (Limiter.limit (Issuer.limit i)) (n + 1)) (Issuer.type i) (Issuer.origin i))
    else (StreamID.invalid_id, i).
Proof.
  intros (Hl & Hm & Ho & Ht). pose proof Hl as [Hu Hb]. cbv zeta. unfold Issuer.issue, Issuer.next, Limiter.current_usage.
  destruct (Z.ltb_spec (Limiter.used (Issuer.limit i)) (Limiter.limit (Issuer.limit i))).
  - rewrite make_id_valid by (unfold StreamID.seq_max; auto; lia).
    destruct (id_value_fields (Limiter.used (Issuer.limit i)) (Issuer.origin i) (Issuer.type i)) as (_ & -> & _);
      [unfold StreamID.seq_max; lia | done | done |]. cbn [negb].
    unfold Limiter.use, Limiter.on_limit. rewrite avail_eq by done. rewrite ltb_false by lia. cbn [negb].
    by rewrite u64_small by (unfold is_u64; lia).
  - unfold Limiter.use, Limiter.on_limit. rewrite avail_eq by done. rewrite ltb_true by lia. cbn [negb].
    destruct (StreamID.valid _); cbn [negb]; [| done]. by destruct i.
Qed.

Lemma accept_spec id a :
  acceptor_ok a -> is_u64 id ->
  let k := StreamID.seq_count id in
  (fst (Acceptor.accept id a) = None <->
   StreamID.type id = Acceptor.type a /\ StreamID.origin id = Acceptor.origin a /\
   k < Limiter.limit (Acceptor.limit a)) /\
  (fst (Acceptor.accept id a) = None ->
   snd (Acceptor.accept id a) =
     Acceptor.mk (Limiter.mk (Limiter.limit (Acceptor.limit a)) (Z.max (Limiter.used (Acceptor.limit a)) (k + 1)))
       (Acceptor.type a) (Acceptor.origin a) (Acceptor.should_send_limit_update a)) /\
  (fst (Acceptor.accept id a) <> None -> snd (Acceptor.accept id a) = a).
Proof.
  intros (Hl & Ho & Ht) Hid. cbv zeta. pose proof Hl as [Hu Hm]. unfold Acceptor.accept.
  destruct (decide (StreamID.type id = Acceptor.type a)) as [E | E].
  2: { rewrite (bool_decide_false _ E), orb_true_r. simpl. split_and!; auto; try done. split; [done |]. intros (? & ? & ?). done. }
  rewrite (bool_decide_true _ E), (valid_of_type id _ Ht E). cbn [negb orb].
  destruct (decide (StreamID.origin id = Acceptor.origin a)) as [E2 | E2].
  2: { rewrite (bool_decide_false _ E2). simpl. split_and!; auto; try done. split; [done |]. intros (? & ? & ?). done. }
  rewrite (bool_decide_true _ E2). cbn [negb].
  destruct (id_of_fields id _ _ Hid (valid_of_type id _ Ht E) E2 E) as [_ Hs]. unfold StreamID.seq_max in Hs.
  rewrite u64_small by (unfold is_u64; lia).
  destruct (Limiter.update_use _ (Acceptor.limit a)) as [ok l] eqn:Eu.
  pose proof Eu as Eu'. apply update_use_ok in Eu' as (_ & H1 & H2 & H3); [| done | lia].
  assert (l = Limiter.mk (Limiter.limit l) (Limiter.used l)) as -> by by destruct l. rewrite H1, H2.
  destruct ok; cbn [negb fst snd].
  - apply proj1 in H3. specialize (H3 eq_refl). split_and!; try done.
    split; [| done]. intros _. split_and!; auto; lia.
  - split_and!; try done; [split; [done |]; intros (_ & _ & H); assert (false = true) by (apply H3; lia); done |].
    intros _. destruct a as [[ll lu] ty o su]. simpl in *. done.
Qed.

(** Numbers of the streams [accept_impl] announces. *)
Lemma accept_impl_none id a :
  fst (Acceptor.accept id a) = None ->
  accept_impl id a =
    (map (fun i => (StreamID.make_id i (Acceptor.origin (snd (Acceptor.accept id a)))
                      (Acceptor.type (snd (Acceptor.accept id a))),
                    negb (i =? StreamID.seq_count id), None))
       (seqZ (Limiter.used (Acceptor.limit a))
          (Limiter.used (Acceptor.limit (snd (Acceptor.accept id a))) - Limiter.used (Acceptor.limit a))),
     snd (Acceptor.accept id a)).
Proof. unfold accept_impl. destruct (Acceptor.accept id a) as [[e |] a']; [discriminate | done]. Qed.

(** * Properties *)

(** Opening streams: with credit left, [issue] returns the valid id of
    the next number (0, 1, 2, ... in order, never twice), counts it and
    recognises it as issued from then on; without credit it returns the
    invalid id and changes nothing. The issued ids are exactly those with a
    smaller number. *)
Theorem issue_in_order i :
  issuer_ok i ->
  let n := Limiter.used (Issuer.limit i) in
  (n < Limiter.limit (Issuer.limit i) ->
   exists id i', Issuer.issue i = (id, i') /\ issuer_ok i' /\
     StreamID.valid id = true /\ StreamID.seq_count id = n /\
     StreamID.origin id = Issuer.origin i /\ StreamID.type id = Issuer.type i /\
     Limiter.used (Issuer.limit i') = n + 1 /\
     Issuer.is_issued id i = false /\ Issuer.is_issued id i' = true) /\
  (n = Limiter.limit (Issuer.limit i) -> Issuer.issue i = (StreamID.invalid_id, i)) /\
  (forall id, is_u64 id ->
     Issuer.is_issued id i = true <->
     exists k, 0 <= k < n /\ id = StreamID.make_id k (Issuer.origin i) (Issuer.type i)).
Proof.
  intros Hi. cbv zeta. pose proof (issue_spec i Hi) as E. cbv zeta in E.
  destruct Hi as (Hl & Hm & Ho & Ht). pose proof Hl as [Hu Hb].
  set (n := Limiter.used (Issuer.limit i)) in *. split_and!.
  - intros Hn. rewrite ltb_true in E by lia. eexists _, _. split; [exact E |].
    destruct (id_value_fields n (Issuer.origin i) (Issuer.type i)) as (_ & Hv & Hs & Hty & Hor);
      [unfold StreamID.seq_max; lia | done | done |].
    unfold issuer_ok, limiter_ok, Issuer.is_issued, Limiter.current_usage.
    cbn [Issuer.limit Issuer.type Issuer.origin Limiter.limit Limiter.used].
    rewrite Hs, Hty, Hor, !bool_decide_true by done. rewrite ltb_false, ltb_true by lia.
    split_and!; auto; try lia; done.
  - intros Hn. by rewrite ltb_false in E by lia.
  - intros id Hid. unfold Issuer.is_issued, Limiter.current_usage. fold n.
    rewrite !andb_true_iff, !bool_decide_eq_true, Z.ltb_lt. split.
    + intros [[H1 H2] H3]. destruct (id_of_fields id _ _ Hid (valid_of_type id _ Ht H2) H1 H2) as [Eid Hs].
      exists (StreamID.seq_count id). split; [lia |]. by rewrite make_id_valid by auto.
    + intros (k & Hk & ->). rewrite make_id_valid by (unfold StreamID.seq_max; auto; lia).
      destruct (id_value_fields k (Issuer.origin i) (Issuer.type i)) as (_ & _ & Hs & Hty & Hor);
        [unfold StreamID.seq_max; lia | done | done |].
      split_and!; auto. lia.
Qed.

Lemma issue_in_order_witness :
  let i := Issuer.mk (Limiter.mk 3 2) bidi client in
  Issuer.issue i = (8, Issuer.mk (Limiter.mk 3 3) bidi client) /\
  (Issuer.is_issued 4 i = true <-> exists k, 0 <= k < 2 /\ 4 = StreamID.make_id k client bidi).
Proof.
  split; [reflexivity |].
  apply (issue_in_order (Issuer.mk (Limiter.mk 3 2) bidi client)).
  - unfold issuer_ok, limiter_ok. simpl. split_and!; try lia; discriminate.
  - unfold is_u64. lia.
Defined.

(** Accepting a stream the peer opened: [accept_impl] succeeds exactly
    for an id of the acceptor's type and origin whose number is within the
    announced limit. It then announces every stream not seen so far up to
    that number, in increasing order and each once, only the id itself being
    marked as not implied by a higher one; the id counts as accepted
    afterwards. A refused id is reported once and leaves no trace. *)
Theorem accept_opens_lower_ids id a :
  acceptor_ok a -> is_u64 id ->
  let k := StreamID.seq_count id in
  let n := Limiter.used (Acceptor.limit a) in
  let '(calls, a') := accept_impl id a in
  if bool_decide (StreamID.type id = Acceptor.type a) && bool_decide (StreamID.origin id = Acceptor.origin a) &&
     (k <? Limiter.limit (Acceptor.limit a))
  then calls = map (fun j => (id_value j (Acceptor.origin a) (Acceptor.type a), negb (j =? k), None))
                 (seqZ n (Z.max n (k + 1) - n)) /\
       Limiter.used (Acceptor.limit a') = Z.max n (k + 1) /\ acceptor_ok a' /\
       Acceptor.is_accepted id a' = true
  else (exists e, calls = [(id, false, Some e)]) /\ a' = a.
Proof.
  intros Ha Hid. cbv zeta. destruct (accept_spec id a Ha Hid) as (H1 & H2 & H3). cbv zeta in *.
  set (k := StreamID.seq_count id) in *. set (n := Limiter.used (Acceptor.limit a)) in *.
  destruct (fst (Acceptor.accept id a)) eqn:E.
  - assert (bool_decide (StreamID.type id = Acceptor.type a) &&
            bool_decide (StreamID.origin id = Acceptor.origin a) && (k <? Limiter.limit (Acceptor.limit a)) = false) as ->.
    { apply not_true_is_false. rewrite !andb_true_iff, !bool_decide_eq_true, Z.ltb_lt. intros [[? ?] ?].
      assert (Some e = None) by (apply H1; auto). done. }
    unfold accept_impl. destruct (Acceptor.accept id a) as [err a']. simpl in E, H3. subst err.
    split; [by eexists | by apply H3].
  - destruct H1 as [H1 _]. destruct (H1 eq_refl) as (Hty & Hor & Hk). specialize (H2 eq_refl).
    rewrite (accept_impl_none id a E), H2. destruct Ha as (Hl & Ho & Ht). pose proof Hl as [Hu Hm].
    rewrite !bool_decide_true, ltb_true by done. cbn [andb Acceptor.limit Acceptor.origin Acceptor.type Limiter.used].
    destruct (id_of_fields id _ _ Hid (valid_of_type id _ Ht Hty) Hor Hty) as [_ Hs].
    split_and!; auto.
    + fold n. apply list_fmap_ext. intros j x Hx. apply lookup_seqZ in Hx as [-> Hj].
      rewrite make_id_valid; auto. fold n in Hu. unfold n in *. lia.
    + unfold acceptor_ok, limiter_ok.
      cbn [Acceptor.limit Acceptor.type Acceptor.origin Limiter.limit Limiter.used]. fold n in Hu. split_and!; auto; lia.
    + unfold Acceptor.is_accepted, Limiter.current_usage.
      cbn [Acceptor.limit Acceptor.type Acceptor.origin Limiter.limit Limiter.used]. rewrite !bool_decide_true, ltb_true by (auto; lia). done.
Qed.

Lemma accept_opens_lower_ids_witness :
  let a := Acceptor.mk (Limiter.mk 10 1) bidi server false in
  fst (accept_impl 13 a) =
    [(5, true, None); (9, true, None); (13, false, None)] /\
  Acceptor.is_accepted 13 (snd (accept_impl 13 a)) = true.
Proof.
  split; [reflexivity |].
  refine (proj2 (proj2 (proj2 (accept_opens_lower_ids 13 (Acceptor.mk (Limiter.mk 10 1) bidi server false) _ _)))).
  - unfold acceptor_ok, limiter_ok. simpl. split_and!; try lia; discriminate.
  - unfold is_u64. lia.
Defined.

(** Credit handed over: when [send_max_data] succeeds, the frame it has
    appended carries the current receive limit of the connection and the
    pending-update mark is cleared; it fails only for lack of room and then
    changes nothing. A peer that parses those bytes and feeds the frame to
    its connection gets no error and from then on may send up to that limit,
    or its old one if that was higher. *)
Theorem max_data_handover w s peer rest :
  wr_ok (fw_w w) -> limiter_ok (flow_recv (conn_flow s)) -> limiter_ok (flow_send (conn_flow peer)) ->
  let lim := Limiter.limit (flow_recv (conn_flow s)) in
  let a := MaxData (MaxDataBase.mk 0 (varint.of_uint lim)) in
  let '(res, w', s') := send_max_data w s in
  (res = no_capacity /\ w' = w /\ s' = s /\ wr_room (fw_w w) < any_len a) \/
  (res = io_ok /\ wr_written (fw_w w') = wr_written (fw_w w) ++ any_wire a /\
   flow_update (conn_flow s') = false /\ flow_recv (conn_flow s') = flow_recv (conn_flow s) /\
   (forall r, rd_ok r -> rd_remain r = any_wire a ++ rest ->
    let '(ok, (got, _)) := parse_frame (fun f err _ => (true, Some (f, err))) (None, r) in
    ok = true /\ exists f, got = Some (f, false) /\
    let '(err, peer') := conn_recv f peer in
    err = None /\ Limiter.limit (flow_send (conn_flow peer')) = Z.max (Limiter.limit (flow_send (conn_flow peer))) lim)).
Proof.
  intros Hw Hs Hp. cbv zeta. destruct Hs as [Hs1 Hs2].
  set (lim := Limiter.limit (flow_recv (conn_flow s))) in *.
  set (f := MaxDataBase.mk (ty := FrameType.MAX_DATA) 0 (varint.of_uint lim)).
  assert (Hf : wf f) by (apply writable_uint; lia).
  unfold send_max_data, Limiter.current_limit. fold lim f. rewrite write_checked_spec by done.
  destruct (Z.ltb_spec (wr_room (fw_w w)) (flen f false)) as [Hlt | Hge].
  - left. done.
  - right. assert (Hsz : size (wire f) <= wr_room (fw_w w)) by by rewrite wire_size.
    split_and!; try done; [by apply wr_put_written |].
    intros r Hr Hrem. rewrite (parse_frame_reads _ (MaxData f) rest) by done. split; [done |].
    eexists. split; [done |]. cbn [any_canon conn_recv]. unfold recv_max_data.
    change (varint.value (MaxDataBase.max_data (canon f))) with lim.
    destruct (Limiter.update_limit lim (flow_send (conn_flow peer))) as [b l] eqn:E.
    apply update_limit_ok in E as (_ & _ & E1 & E2); [| done | lia]. split; [done |].
    cbn [snd conn_flow set_conn_flow flow_send]. rewrite E1. destruct b.
    + apply proj1 in E2. specialize (E2 eq_refl). lia.
    + assert (~ (Limiter.limit (flow_send (conn_flow peer)) < lim)); [| lia].
      intros H. assert (false = true) by (apply E2; lia). done.
Qed.

Lemma max_data_handover_witness :
  let s := set_conn_flow (mk_flow Limiter.zero (Limiter.mk 5000 100) true) new_streams in
  let '(res, w', s') := send_max_data (mk_fwriter (new_writer (replicate 8 0)) 0 0) s in
  wr_written (fw_w w') = [0x10; 0x53; 0x88] /\ res = io_ok /\ flow_update (conn_flow s') = false.
Proof.
  split; [reflexivity |].
  destruct (max_data_handover (mk_fwriter (new_writer (replicate 8 0)) 0 0)
    (set_conn_flow (mk_flow Limiter.zero (Limiter.mk 5000 100) true) new_streams) new_streams [])
    as [(H & _) | (H1 & _ & H2 & _)].
  - split; simpl; [lia | unfold size; simpl; unfold u64_max; lia].
  - unfold limiter_ok; simpl; lia.
  - unfold limiter_ok; simpl; lia.
  - discriminate H.
  - exact (conj H1 H2).
Defined.

(** A blocked opening of streams is never announced: the frame
    [send_streams_blocked] builds has a MAX_STREAMS type, which its own
    [render] refuses, so the call ends in "fatal" where it should succeed,
    whatever the room. *)
Theorem streams_blocked_never_sent w n is_uni :
  fst (send_streams_blocked w n is_uni) <> io_ok.
Proof.
  unfold send_streams_blocked. destruct (_ <=? n); [done |]. unfold write_checked.
  destruct (_ <? _); [done |]. unfold fw_write.
  assert (E : fst (render (MaxStreamsBase.mk (ty := FrameType.STREAMS_BLOCKED)
            (if is_uni then FrameType.MAX_STREAMS_UNI else FrameType.MAX_STREAMS_BIDI) (varint.of_uint n)) (fw_w w)) = false).
  { by destruct is_uni. }
  destruct (render _ (fw_w w)) as [ok w']. simpl in E. by subst ok.
Qed.

(** Which stream frames are accepted: on a stream this endpoint opened,
    only if it was opened, with any stream frame when it is bidirectional
    and with MAX_STREAM_DATA and STOP_SENDING when this endpoint only sends;
    on a stream of the peer, with any stream frame when it is bidirectional
    and with STREAM, STREAM_DATA_BLOCKED and RESET_STREAM when the peer only
    sends. Everything else is an error; the flag tells own streams from
    streams still to be created. *)
Theorem check_recv_frame_table ty id s :
  StreamID.valid id = true -> local_origin s <> unknown_origin -> peer_origin s = inverse (local_origin s) ->
  let own := bool_decide (StreamID.origin id = local_origin s) in
  let '(created, err) := check_recv_frame ty id s in
  (err = None <->
   match own, StreamID.type id with
   | true, bidi => Issuer.is_issued id (bidi_issuer s) = true /\ is_BidiStreamOK ty = true
   | true, _ => Issuer.is_issued id (uni_issuer s) = true /\ is_UniStreamReceiverOK ty = true
   | false, bidi => is_BidiStreamOK ty = true
   | false, _ => is_UniStreamSenderOK ty = true
   end) /\
  (err = None -> created = own).
Proof.
  intros Hv Hl Hp. cbv zeta. unfold check_recv_frame.
  assert (Ht : StreamID.type id = bidi \/ StreamID.type id = uni).
  { unfold StreamID.type. rewrite Hv. simpl. destruct (StreamID.type_raw id); auto. }
  assert (Ho : StreamID.origin id <> unknown_origin).
  { unfold StreamID.origin. rewrite Hv. simpl. by destruct (StreamID.origin_raw id). }
  destruct (decide (StreamID.origin id = local_origin s)) as [E | E].
  - rewrite bool_decide_true by done. destruct Ht as [-> | ->].
    + destruct (Issuer.is_issued id (bidi_issuer s)), (is_BidiStreamOK ty); simpl; split; try done; naive_solver.
    + destruct (Issuer.is_issued id (uni_issuer s)), (is_UniStreamReceiverOK ty); simpl; split; try done; naive_solver.
  - rewrite bool_decide_false, bool_decide_true by
      (try done; rewrite Hp; destruct (StreamID.origin id), (local_origin s); done).
    destruct Ht as [-> | ->].
    + destruct (is_BidiStreamOK ty); simpl; split; try done; naive_solver.
    + destruct (is_UniStreamSenderOK ty); simpl; split; try done; naive_solver.
Qed.

Lemma check_recv_frame_table_witness :
  let s := set_dir client new_streams in
  let '(created, err) := check_recv_frame FrameType.STREAM 3 s in
  (err = None <-> is_UniStreamSenderOK FrameType.STREAM = true) /\ (err = None -> created = false).
Proof. apply (check_recv_frame_table FrameType.STREAM 3 (set_dir client new_streams)); done. Defined.
