(* ===== verification/StreamBase.v ===== *)
(** * Sending and receiving stream data
      (src/src/include/fnet/quic/stream/core/stream_base.h)

    [send_impl] and [recv_impl] join the stream halves, the connection-level
    credit and the frames; [SendUniStreamBase] and [RecvUniStreamBase] add the
    control frames of a stream. *)

From stdpp Require Import base list strings.
From Stdlib Require Import ZArith Lia.
From S2P Require Import Prelude Bytes Varint Types FrameBase CalcData FrameStream FrameAck FrameParse StreamId StreamState ConnBase.

#[local] Open Scope string_scope.
#[local] Open Scope Z_scope.
#[local] Open Scope list_scope.

(** ** [struct StreamWriteData] *)

Module WriteData.
Record t := mk {
  src : list Z;
  discarded_offset : Z;
  written_offset : Z;
  fin : bool;
  fin_written : bool;
}.

Definition get_remain (limit : Z) (d : t) : list Z :=
  rsubstr (src d) (u64 (written_offset d - discarded_offset d)) limit.

Definition update (new_discard : Z) (new_src : list Z) (is_fin : bool) (d : t) : bool * t :=
  let cur := u64 (size (src d) + discarded_offset d) in
  let new := u64 (size new_src + new_discard) in
  if (if fin d then negb (cur =? new) else new <? cur) || (written_offset d <? new_discard)
  then (false, d)
  else (true, mk new_src new_discard (written_offset d) (fin d || is_fin) (fin_written d)).

Definition remain (d : t) : Z := u64 (size (src d) + discarded_offset d - written_offset d).
Definition should_fin (d : t) : bool := fin d && negb (fin_written d).
Definition write_fin (d : t) : t := mk (src d) (discarded_offset d) (written_offset d) (fin d) true.
Definition advance (n : Z) (d : t) : t :=
  mk (src d) (discarded_offset d) (u64 (written_offset d + n)) (fin d) (fin_written d).
End WriteData.

(** ** [send_impl] *)

(** What the callback of [use_send_credit] leaves in the captured
    variables. *)
Record credit_result := mk_credit { cr_block : bool; cr_ok : bool; cr_frame : StreamFrame.t; cr_max : Z }.

(** Everything [send_impl] changes; [F] is the state of [save_fragment]. *)
Record send_env (F : Type) := mk_env {
  e_w : fwriter;
  e_conn : StreamsState;
  e_state : SendState.t;
  e_data : WriteData.t;
  e_saved : F;
}.
Arguments mk_env {F}. Arguments e_w {F}. Arguments e_conn {F}. Arguments e_state {F}.
Arguments e_data {F}. Arguments e_saved {F}.

Definition zmin (a b : Z) : Z := if a <? b then a else b.

(** The callback handed to [use_send_credit]: the STREAM frame for the data
    the connection still has credit for. *)
Definition send_credit_cb (writable_size id payload_limit : Z) (data : WriteData.t) (conn_limit max_data : Z)
    : Z * credit_result :=
  let flow_control_limit := zmin conn_limit payload_limit in
  if (flow_control_limit =? 0) && negb (WriteData.should_fin data)
  then (0, mk_credit true true StreamFrame.zero max_data)
  else
    let stream_data := WriteData.get_remain flow_control_limit data in
    let '(frame, ok) :=
      make_fit_size_Stream writable_size id (WriteData.written_offset data) stream_data
        (WriteData.should_fin data) (WriteData.should_fin data) in
    (if ok then size (StreamFrame.stream_data frame) else 0, mk_credit false ok frame max_data).

(** The rest of [send_impl], once the frame is made. *)
Definition send_commit {F} (save_fragment : Fragment -> F -> bool * F) (frame : StreamFrame.t) (e : send_env F)
    : (IOResult * Z) * send_env F :=
  let '(ok, state) :=
    SendState.send (u64 (varint.value (StreamFrame.offset frame) + size (StreamFrame.stream_data frame))) (e_state e) in
  if negb ok then ((io_fatal, 0), mk_env (e_w e) (e_conn e) state (e_data e) (e_saved e))
  else
    let data := WriteData.advance (size (StreamFrame.stream_data frame)) (e_data e) in
    let '(ok, w) := fw_write frame (e_w e) in
    if negb ok then ((io_fatal, 0), mk_env w (e_conn e) state data (e_saved e))
    else
      let is_fin := FrameFlags.STREAM_fin (StreamFrame.type frame) in
      let state := if is_fin then snd (SendState.sent state) else state in
      let data := if is_fin then WriteData.write_fin data else data in
      let frag := mk_fragment (varint.value (StreamFrame.offset frame)) (StreamFrame.stream_data frame) is_fin in
      let '(ok, saved) := save_fragment frag (e_saved e) in
      ((if ok then io_ok else io_fatal, 0), mk_env w (e_conn e) state data saved).

Definition send_impl {F} (save_fragment : Fragment -> F -> bool * F) (id fairness_limit : Z) (e : send_env F)
    : (IOResult * Z) * send_env F :=
  let state := e_state e in let data := e_data e in
  if negb (SendState.can_send state) then ((not_in_io_state, 0), e)
  else
    let writable_size := size (fw_remain (e_w e)) in
    let least_overhead :=
      calc_stream_overhead id (WriteData.written_offset data) (negb (WriteData.written_offset data =? 0)) in
    if writable_size <? least_overhead then ((no_capacity, 0), e)
    else
      let remain_data_size := WriteData.remain data in
      if (remain_data_size =? 0) && negb (WriteData.should_fin data) then ((no_data, 0), e)
      else
        let adjust_data_size := zmin remain_data_size fairness_limit in
        let payload_limit := zmin adjust_data_size (SendState.sendable_size state) in
        if (payload_limit =? 0) && negb (WriteData.should_fin data)
        then ((block_by_stream, SendState.send_limit state), e)
        else
          let '(_, cr, conn) := use_send_credit (send_credit_cb writable_size id payload_limit data) (e_conn e) in
          let e := mk_env (e_w e) conn state data (e_saved e) in
          if cr_block cr then ((block_by_conn, cr_max cr), e)
          else if negb (cr_ok cr) then ((no_capacity, 0), e)
          else send_commit save_fragment (cr_frame cr) e.

(** ** [struct SendUniStreamBase] *)

Module SendUniStreamBase.
Record t := mk { id : Z; state : SendState.t; data : WriteData.t }.

Definition set_state s b := mk (id b) s (data b).

Definition update_data (discard : Z) (src : list Z) (fin : bool) (b : t) : bool * t :=
  let '(ok, d) := WriteData.update discard src fin (data b) in (ok, mk (id b) (state b) d).

Definition has_data_to_send (b : t) : bool :=
  SendState.can_send (state b) && negb (WriteData.remain (data b) =? 0).

(** Limits set by the peer: its view of "local" and "remote". *)
Definition set_initial (ini : InitialLimits) (self : Origin) (b : t) : t :=
  match StreamID.type (id b) with
  | uni => set_state (snd (SendState.set_send_limit (uni_stream_data_limit ini) (state b))) b
  | bidi =>
      if bool_decide (StreamID.origin (id b) = self)
      then set_state (snd (SendState.set_send_limit (bidi_stream_data_remote_limit ini) (state b))) b
      else set_state (snd (SendState.set_send_limit (bidi_stream_data_local_limit ini) (state b))) b
  | unknown_type => b
  end.

Definition recv_max_stream_data (f : MaxStreamDataBase.t FrameType.MAX_STREAM_DATA) (b : t) : bool * t :=
  if negb (id b =? varint.value (MaxStreamDataBase.streamID f)) then (false, b)
  else
    let '(ok, s) := SendState.update_send_limit (varint.value (MaxStreamDataBase.max_stream_data f)) (state b) in
    (ok, set_state s b).

Definition reset_frame (b : t) : ResetStreamFrame.t :=
  ResetStreamFrame.mk 0 (varint.of_uint (id b)) (varint.of_uint (SendState.get_error_code (state b)))
    (varint.of_uint (SendState.sent_bytes (state b))).

Definition send_reset (w : fwriter) (b : t) : IOResult * fwriter * t :=
  let reset := reset_frame b in
  if size (fw_remain w) <? flen reset false then (no_capacity, w, b)
  else
    let '(ok, s) := SendState.reset (state b) in
    let b := set_state s b in
    if negb ok then (not_in_io_state, w, b)
    else let '(ok, w) := fw_write reset w in (if ok then io_ok else io_fatal, w, b).

Definition send_reset_if_stop_required (w : fwriter) (b : t) : IOResult * fwriter * t :=
  if SendState.is_reset_required (state b) then send_reset w b else (not_in_io_state, w, b).

Definition send_retransmit_reset (w : fwriter) (b : t) : IOResult * fwriter :=
  if negb (SendState.can_retransmit_reset (state b)) then (not_in_io_state, w)
  else write_checked (reset_frame b) w.

Definition recv_stop_sending (f : StopSendingFrame.t) (b : t) : t :=
  if negb (varint.value (StopSendingFrame.streamID f) =? id b) then b
  else set_state (SendState.recv_stop_sending
         (varint.value (StopSendingFrame.application_protocol_error_code f)) (state b)) b.

Definition request_reset (code : Z) (b : t) : IOResult * t :=
  let '(ok, s) := SendState.set_error_code code (state b) in
  (if ok then io_ok else not_in_io_state, set_state s b).

Definition all_send_done (b : t) : bool * t :=
  let '(ok, s) := SendState.sent_ack (state b) in (ok, set_state s b).

Definition reset_done (b : t) : IOResult * t :=
  let '(ok, s) := SendState.reset_ack (state b) in
  (if ok then io_ok else not_in_io_state, set_state s b).

(** [save_retransmit(sent, remain, has_remain)] with its state [F]. *)
Definition send_retransmit_stream {F} (save_retransmit : Fragment -> Fragment -> bool -> F -> bool * F)
    (offset : Z) (frg : list Z) (fin : bool) (b : t) (w : fwriter) (st : F) : IOResult * fwriter * F :=
  let written := WriteData.written_offset (data b) in
  let top := u64 (offset + size frg) in
  if negb (SendState.can_retransmit (state b)) then (not_in_io_state, w, st)
  else if written <? top then (invalid_data, w, st)
  else if fin && negb (WriteData.fin_written (data b)) then (invalid_data, w, st)
  else if fin && negb (top =? written) then (invalid_data, w, st)
  else
    let '(frame, ok) := make_fit_size_Stream (size (fw_remain w)) (id b) offset frg fin fin in
    if negb ok then (no_capacity, w, st)
    else
      let '(ok, w) := fw_write frame w in
      if negb ok then (io_fatal, w, st)
      else
        let is_fin := FrameFlags.STREAM_fin (StreamFrame.type frame) in
        let n := size (StreamFrame.stream_data frame) in
        let sent := mk_fragment (varint.value (StreamFrame.offset frame)) (StreamFrame.stream_data frame) is_fin in
        let remain := mk_fragment (u64 (varint.value (StreamFrame.offset frame) + n))
                        (rsubstr frg n u64_max) (fin && negb is_fin) in
        let remaining := negb (size (fragment remain) =? 0) in
        let '(ok, st) := save_retransmit sent remain remaining st in
        (if ok then io_ok else io_fatal, w, st).
End SendUniStreamBase.

Definition send_stream_blocked (w : fwriter) (id max_data : Z) : IOResult * fwriter :=
  if (varint.border 8 <=? max_data) || negb (StreamID.valid id) then (invalid_data, w)
  else write_checked (MaxStreamDataBase.mk (ty := FrameType.STREAM_DATA_BLOCKED) 0
         (varint.of_uint id) (varint.of_uint max_data)) w.

(** ** [recv_impl] *)

(** [deliver_data(frag, cur_used)] with its state [F]. *)
Definition recv_impl {F} (deliver_data : Fragment -> Z -> F -> option Error * F) (frame : StreamFrame.t) (id : Z)
    (conn : StreamsState) (state : RecvState.t) (st : F)
    : (IOResult * option Error) * (StreamsState * RecvState.t * F) :=
  if negb (varint.value (StreamFrame.streamID frame) =? id)
  then ((id_mismatch, Some (LibError "unexpected streamID on StreamFrame. library bug!!")), (conn, state, st))
  else if negb (RecvState.can_recv state) then ((not_in_io_state, None), (conn, state, st))
  else
    let prev_used := RecvState.recv_bytes state in
    let '(ok, state) :=
      RecvState.recv (u64 (varint.value (StreamFrame.offset frame) + size (StreamFrame.stream_data frame))) state in
    if negb ok
    then ((block_by_stream, Some (QUICError "stream flow control limit overflow" FLOW_CONTROL_ERROR
                                    (FrameFlags.type_detail (StreamFrame.type frame)))), (conn, state, st))
    else
      let cur_used := RecvState.recv_bytes state in
      let '(ok, conn) :=
        if negb (u64 (cur_used - prev_used) =? 0) then use_recv_credit (u64 (cur_used - prev_used)) conn
        else (true, conn) in
      if negb ok
      then ((block_by_conn, Some (QUICError "connection flow control limit overflow" FLOW_CONTROL_ERROR
                                    (FrameFlags.type_detail (StreamFrame.type frame)))), (conn, state, st))
      else
        let is_fin := FrameFlags.STREAM_fin (StreamFrame.type frame) in
        let state := if is_fin then snd (RecvState.size_known state) else state in
        let frag := mk_fragment (varint.value (StreamFrame.offset frame)) (StreamFrame.stream_data frame) is_fin in
        let '(err, st) := deliver_data frag cur_used st in
        match err with
        | Some e => ((io_fatal, Some e), (conn, state, st))
        | None => ((io_ok, None), (conn, state, st))
        end.

(** ** [struct RecvUniStreamBase] *)

Module RecvUniStreamBase.
Record t := mk { id : Z; state : RecvState.t }.
Definition set_state s b := mk (id b) s.

Definition set_initial (ini : InitialLimits) (self : Origin) (b : t) : t :=
  match StreamID.type (id b) with
  | uni => set_state (snd (RecvState.set_recv_limit (uni_stream_data_limit ini) (state b))) b
  | bidi =>
      if bool_decide (StreamID.origin (id b) = self)
      then set_state (snd (RecvState.set_recv_limit (bidi_stream_data_local_limit ini) (state b))) b
      else set_state (snd (RecvState.set_recv_limit (bidi_stream_data_remote_limit ini) (state b))) b
  | unknown_type => b
  end.

Definition update_recv_limit (decide_new_limit : Limiter.t -> Z -> Z) (b : t) : bool * t :=
  let new_limit := decide_new_limit (RecvState.limit (state b)) (RecvState.initial_limit (state b)) in
  (true, set_state (snd (RecvState.update_recv_limit new_limit (state b))) b).

Definition send_max_stream_data (w : fwriter) (b : t) : IOResult * fwriter * t :=
  if negb (RecvState.is_recv (state b)) then (not_in_io_state, w, b)
  else
    let f := MaxStreamDataBase.mk (ty := FrameType.MAX_STREAM_DATA) 0 (varint.of_uint (id b))
               (varint.of_uint (RecvState.recv_limit (state b))) in
    let '(res, w) := write_checked f w in
    if bool_decide (res = io_ok) then (res, w, set_state (RecvState.max_stream_data_sent (state b)) b)
    else (res, w, b).

Definition send_max_stream_data_if_updated (w : fwriter) (b : t) : IOResult * fwriter * t :=
  if negb (RecvState.require_send_limit_update (state b)) then (not_in_io_state, w, b)
  else send_max_stream_data w b.

Definition recv_reset (reset : ResetStreamFrame.t) (conn : StreamsState) (b : t)
    : (IOResult * option Error) * (StreamsState * t) :=
  if negb (id b =? varint.value (ResetStreamFrame.streamID reset))
  then ((id_mismatch, Some (LibError "unexpected stream id on ResetFrame. library bug!!")), (conn, b))
  else
    let prev_used := RecvState.recv_bytes (state b) in
    let '(ok, s) := RecvState.reset (varint.value (ResetStreamFrame.final_size reset))
                      (varint.value (ResetStreamFrame.application_protocol_error_code reset)) (state b) in
    let b := set_state s b in
    if negb ok
    then ((block_by_stream, Some (QUICError "final size has no consistency" FINAL_SIZE_ERROR FrameType.RESET_STREAM)), (conn, b))
    else
      let cur_used := RecvState.recv_bytes (state b) in
      let '(ok, conn) :=
        if negb (u64 (cur_used - prev_used) =? 0) then use_recv_credit (u64 (cur_used - prev_used)) conn
        else (true, conn) in
      if negb ok
      then ((block_by_stream, Some (QUICError "connection flow control limit violation" FLOW_CONTROL_ERROR FrameType.RESET_STREAM)), (conn, b))
      else ((io_ok, None), (conn, b)).

Definition request_stop_sending (code : Z) (b : t) : bool * t :=
  let '(ok, s) := RecvState.stop_sending code (state b) in (ok, set_state s b).

Definition send_stop_sending (w : fwriter) (b : t) : IOResult * fwriter :=
  if negb (RecvState.is_stop_required (state b)) || negb (RecvState.can_stop_sending (state b))
  then (not_in_io_state, w)
  else write_checked (StopSendingFrame.mk 0 (varint.of_uint (id b))
         (varint.of_uint (RecvState.get_error_code (state b)))) w.
End RecvUniStreamBase.

(** * Lemmas *)

Lemma zmin_eq a b : zmin a b = Z.min a b.
Proof. unfold zmin. destruct (Z.ltb_spec a b); lia. Qed.

(** The window of data still to send. *)
Definition data_ok (d : WriteData.t) : Prop :=
  0 <= WriteData.discarded_offset d <= WriteData.written_offset d /\
  WriteData.written_offset d <= WriteData.discarded_offset d + size (WriteData.src d) < 2 ^ 62.

Definition unsent (d : WriteData.t) : list Z :=
  drop (Z.to_nat (WriteData.written_offset d - WriteData.discarded_offset d)) (WriteData.src d).

Lemma remain_eq d : data_ok d -> WriteData.remain d = size (unsent d).
Proof.
  intros [H1 H2]. unfold WriteData.remain, unsent, size in *. rewrite length_drop.
  rewrite u64_small by (unfold is_u64; lia). lia.
Qed.

Lemma get_remain_eq m d :
  data_ok d -> 0 <= m <= size (unsent d) -> WriteData.get_remain m d = take (Z.to_nat m) (unsent d).
Proof.
  intros [H1 H2] Hm. unfold WriteData.get_remain, rsubstr, unsent, size in *. rewrite length_drop in Hm.
  rewrite u64_small by (unfold is_u64; lia). rewrite ltb_false by lia. by rewrite ltb_false by lia.
Qed.

Lemma send_within x s :
  SendFacts.inv s -> SendState.can_send s = true ->
  SendState.sent_bytes s <= x <= SendState.send_limit s ->
  SendState.send x s =
    (true, SendState.mk (Limiter.mk (SendState.send_limit s) x) (SendState.error_code s) SendState.send_st
             (SendState.reset_flags s)).
Proof.
  unfold SendState.sent_bytes, SendState.send_limit, Limiter.current_usage, Limiter.current_limit.
  intros [[Hu Hm] _] Hc Hx. unfold SendState.send, Limiter.update_use. rewrite Hc. cbn [negb].
  rewrite ltb_false by lia. destruct s as [[ll lu] ec st fl]. simpl in *.
  destruct (Z.ltb_spec lu x); [done |]. assert (x = lu) as -> by lia. done.
Qed.

Lemma use_credit_eq {A} (cb : Z -> Z -> Z * A) s n a :
  limiter_ok (flow_send (conn_flow s)) ->
  let l := flow_send (conn_flow s) in
  cb (Limiter.limit l - Limiter.used l) (Limiter.limit l) = (n, a) ->
  0 <= n <= Limiter.limit l - Limiter.used l ->
  exists s', use_send_credit cb s = (true, a, s') /\ (n = 0 -> s' = s) /\
    s' = set_conn_flow (mk_flow (Limiter.mk (Limiter.limit l) (Limiter.used l + n))
           (flow_recv (conn_flow s)) (flow_update (conn_flow s))) s.
Proof.
  intros Hl. cbv zeta. intros E Hn. unfold use_send_credit. rewrite avail_eq by done.
  unfold Limiter.current_limit. rewrite E. pose proof Hl as [Hu Hm].
  destruct (Z.eqb_spec n 0) as [-> |].
  - exists s. split_and!; try done. destruct s as [? ? ? ? [[ll lu] ? ?] ? ?]. simpl. by rewrite Z.add_0_r.
  - unfold Limiter.use, Limiter.on_limit. rewrite avail_eq by done. rewrite ltb_false by lia.
    eexists. split; [done |]. split; [lia |]. by rewrite u64_small by (unfold is_u64; lia).
Qed.

(** What has to hold before sending, and holds again afterwards. *)
Definition send_pre {F} (id : Z) (e : send_env F) : Prop :=
  wr_ok (fw_w (e_w e)) /\ wr_room (fw_w (e_w e)) < 2 ^ 62 /\ 0 <= id < 2 ^ 62 /\
  limiter_ok (flow_send (conn_flow (e_conn e))) /\ SendFacts.inv (e_state e) /\ data_ok (e_data e) /\
  WriteData.written_offset (e_data e) = SendState.sent_bytes (e_state e).

Definition conn_avail (c : StreamsState) : Z :=
  Limiter.limit (flow_send (conn_flow c)) - Limiter.used (flow_send (conn_flow c)).

(** The most that may be sent now: what there is, the caller's share and
    the credit of the stream and of the connection. *)
Definition send_window {F} (fairness : Z) (e : send_env F) : Z :=
  Z.min (conn_avail (e_conn e))
    (Z.min (Z.min (size (unsent (e_data e))) fairness)
       (SendState.send_limit (e_state e) - SendState.sent_bytes (e_state e))).

(** The environment after [n] bytes were sent with frame [f]. *)
Definition sent_env {F} (f : StreamFrame.t) (n : Z) (is_fin : bool) (e : send_env F) (saved : F) : send_env F :=
  let l := flow_send (conn_flow (e_conn e)) in
  let s := e_state e in
  let d := e_data e in
  mk_env
    (mk_fwriter (wr_put (fw_w (e_w e)) (wire f))
       (PacketStatus.add_frame (get_type f false) (fw_status (e_w e))) (get_type f false))
    (set_conn_flow (mk_flow (Limiter.mk (Limiter.limit l) (Limiter.used l + n))
       (flow_recv (conn_flow (e_conn e))) (flow_update (conn_flow (e_conn e)))) (e_conn e))
    (SendState.mk (Limiter.mk (SendState.send_limit s) (SendState.sent_bytes s + n)) (SendState.error_code s)
       (if is_fin then SendState.data_sent else SendState.send_st) (SendState.reset_flags s))
    (WriteData.mk (WriteData.src d) (WriteData.discarded_offset d) (WriteData.written_offset d + n)
       (WriteData.fin d) (if is_fin then true else WriteData.fin_written d))
    saved.

Lemma sendable_eq s : SendFacts.inv s ->
  SendState.sendable_size s = SendState.send_limit s - SendState.sent_bytes s.
Proof. intros [Hl _]. by apply avail_eq. Qed.

(** The frame that can be made now, or none. *)
Definition stream_frame_now {F} (id fairness : Z) (e : send_env F) (f : StreamFrame.t) (n : Z) : Prop :=
  let d := e_data e in
  let m := send_window fairness e in
  exists has_len, 0 <= n <= m /\
    f = stream_prefix_frame id (WriteData.written_offset d) (take (Z.to_nat m) (unsent d)) has_len
          (WriteData.should_fin d) n /\
    flen f false <= wr_room (fw_w (e_w e)).

Lemma window_bounds {F} id fairness (e : send_env F) :
  send_pre id e -> 0 <= fairness ->
  let m := send_window fairness e in
  0 <= m <= size (unsent (e_data e)) /\ m <= conn_avail (e_conn e) /\
  SendState.sent_bytes (e_state e) + m <= SendState.send_limit (e_state e).
Proof.
  intros (_ & _ & _ & [Hu Hm] & [[Hsu Hsm] _] & _) Hf. cbv zeta. pose proof (size_nonneg (unsent (e_data e))).
  unfold send_window, conn_avail, SendState.send_limit, SendState.sent_bytes, Limiter.current_limit,
    Limiter.current_usage in *. lia.
Qed.

Lemma frame_now_facts {F} id fairness (e : send_env F) f n :
  send_pre id e -> 0 <= fairness -> stream_frame_now id fairness e f n ->
  wf f /\ StreamFrame.offset f = varint.of_uint (WriteData.written_offset (e_data e)) /\
  StreamFrame.stream_data f = take (Z.to_nat n) (unsent (e_data e)) /\
  size (StreamFrame.stream_data f) = n /\
  FrameFlags.STREAM_fin (StreamFrame.type f) =
    WriteData.should_fin (e_data e) && (n =? send_window fairness e).
Proof.
  intros Hp Hf (has_len & Hn & -> & Hfit). pose proof (window_bounds id fairness e Hp Hf) as (Hm & _ & _).
  destruct Hp as (_ & _ & Hid & _ & _ & [Hd1 Hd2] & _). set (m := send_window fairness e) in *.
  assert (Hunsent : size (unsent (e_data e)) < 2 ^ 62)
    by (unfold unsent, size in *; rewrite length_drop; lia).
  assert (Hsz : size (take (Z.to_nat m) (unsent (e_data e))) = m) by (apply size_take_to; lia).
  destruct (stream_prefix_facts id (WriteData.written_offset (e_data e)) (take (Z.to_nat m) (unsent (e_data e)))
              has_len (WriteData.should_fin (e_data e)) n) as (Hwf & _ & _ & Hfin); try lia.
  rewrite Hsz in Hfin.
  assert (Hdata : StreamFrame.stream_data (stream_prefix_frame id (WriteData.written_offset (e_data e))
     (take (Z.to_nat m) (unsent (e_data e))) has_len (WriteData.should_fin (e_data e)) n) =
     take (Z.to_nat n) (unsent (e_data e))).
  { cbn [StreamFrame.stream_data stream_prefix_frame]. rewrite take_take. f_equal. lia. }
  split; [done |]. split_and!; [done | done | rewrite Hdata; apply size_take_to; lia | done].
Qed.

(** What the callback asks for. *)
Lemma send_credit_cb_spec {F} id fairness (e : send_env F) :
  send_pre id e -> 0 <= fairness ->
  let payload := Z.min (Z.min (size (unsent (e_data e))) fairness)
                   (SendState.send_limit (e_state e) - SendState.sent_bytes (e_state e)) in
  let max := Limiter.limit (flow_send (conn_flow (e_conn e))) in
  let '(n, cr) := send_credit_cb (wr_room (fw_w (e_w e))) id payload (e_data e) (conn_avail (e_conn e)) max in
  cr_block cr || negb (cr_ok cr) = true /\ n = 0 \/
  cr_block cr = false /\ cr_ok cr = true /\ stream_frame_now id fairness e (cr_frame cr) n.
Proof.
  intros Hp Hf. pose proof (window_bounds id fairness e Hp Hf) as (Hm & Hc & _).
  destruct Hp as (Hw & Hroom & Hid & _ & _ & Hd & _). pose proof Hd as [Hd1 Hd2]. cbv zeta. unfold send_credit_cb.
  rewrite zmin_eq. fold (send_window fairness e). set (m := send_window fairness e) in *.
  destruct ((m =? 0) && _); [left; done |]. rewrite get_remain_eq by (done || lia).
  assert (Hsz : size (take (Z.to_nat m) (unsent (e_data e))) = m) by (apply size_take_to; lia).
  assert (Hunsent : size (unsent (e_data e)) < 2 ^ 62)
    by (unfold unsent, size in *; rewrite length_drop; lia).
  destruct (make_fit_size_Stream _ _ _ _ _ _) as [f ok] eqn:Ef. destruct ok; [right | left; done].
  assert (Hr0 : 0 <= wr_room (fw_w (e_w e))) by (destruct Hw; unfold wr_room, size; lia).
  apply make_fit_cases in Ef as (has_len & n & Hn & -> & Hfit & _ & _); try lia.
  rewrite Hsz in Hn. cbn [cr_block cr_ok cr_frame]. split; [done |]. split; [done |].
  cbn [StreamFrame.stream_data stream_prefix_frame]. rewrite take_take.
  rewrite Nat.min_l by lia. rewrite size_take_to by lia. exists has_len. done.
Qed.

(** Committing a frame that was made now. *)
Lemma send_commit_spec {F} (save : Fragment -> F -> bool * F) id fairness (e : send_env F) f n conn :
  send_pre id e -> 0 <= fairness -> stream_frame_now id fairness e f n ->
  SendState.can_send (e_state e) = true ->
  let l := flow_send (conn_flow (e_conn e)) in
  conn = set_conn_flow (mk_flow (Limiter.mk (Limiter.limit l) (Limiter.used l + n))
           (flow_recv (conn_flow (e_conn e))) (flow_update (conn_flow (e_conn e)))) (e_conn e) ->
  let is_fin := WriteData.should_fin (e_data e) && (n =? send_window fairness e) in
  let '(ok, saved) := save (mk_fragment (WriteData.written_offset (e_data e))
                              (take (Z.to_nat n) (unsent (e_data e))) is_fin) (e_saved e) in
  send_commit save f (mk_env (e_w e) conn (e_state e) (e_data e) (e_saved e)) =
    ((if ok then io_ok else io_fatal, 0), sent_env f n is_fin e saved).
Proof.
  intros Hp Hf Hnow Hcan. cbv zeta. intros ->.
  destruct (frame_now_facts id fairness e f n Hp Hf Hnow) as (Hwf & Hoff & Hdata & Hdsz & Hfin).
  pose proof (window_bounds id fairness e Hp Hf) as (Hm & _ & Hsb). destruct Hnow as (has_len & Hn & _ & Hfit).
  destruct Hp as (Hw & _ & _ & _ & Hs & [Hd1 Hd2] & Hso).
  assert (Hub : size (unsent (e_data e)) = size (WriteData.src (e_data e)) -
    (WriteData.written_offset (e_data e) - WriteData.discarded_offset (e_data e)))
    by (unfold unsent, size in *; rewrite length_drop; lia).
  unfold send_commit. cbn [e_w e_conn e_state e_data e_saved]. rewrite Hdsz, Hoff, Hfin. cbn [varint.value varint.of_uint].
  rewrite u64_small by (unfold is_u64; lia). rewrite send_within by (done || lia). cbn [negb].
  unfold fw_write. destruct (render_emits f Hwf (fw_w (e_w e)) Hw) as [He _].
  rewrite He by (rewrite wire_size by done; lia). cbn [negb]. rewrite Hdata.
  destruct (save _ (e_saved e)) as [ok saved]. f_equal.
  unfold sent_env, WriteData.advance, WriteData.write_fin. rewrite u64_small by (unfold is_u64; lia).
  rewrite Hso. by destruct (_ && _).
Qed.

(** [send_impl]: nothing happens, or a frame made now is committed. *)
Lemma send_impl_spec {F} (save : Fragment -> F -> bool * F) id fairness (e : send_env F) :
  send_pre id e -> 0 <= fairness ->
  let '((res, _), e') := send_impl save id fairness e in
  (res <> io_ok /\ res <> io_fatal /\ e' = e) \/
  exists f n, stream_frame_now id fairness e f n /\ SendState.can_send (e_state e) = true /\
    let is_fin := WriteData.should_fin (e_data e) && (n =? send_window fairness e) in
    let '(ok, saved) := save (mk_fragment (WriteData.written_offset (e_data e))
                                (take (Z.to_nat n) (unsent (e_data e))) is_fin) (e_saved e) in
    res = (if ok then io_ok else io_fatal) /\ e' = sent_env f n is_fin e saved.
Proof.
  intros Hp Hf. pose proof (send_credit_cb_spec id fairness e Hp Hf) as Hcb. cbv zeta in Hcb.
  pose proof (window_bounds id fairness e Hp Hf) as (Hm & Hav & _).
  pose proof Hp as (Hw & _ & _ & Hc & Hs & Hd & _). pose proof Hc as [Hu _]. unfold send_impl, fw_remain.
  rewrite wr_remain_size, remain_eq, !zmin_eq, sendable_eq by done.
  destruct (SendState.can_send (e_state e)) eqn:Ecan; cbn [negb]; [| by left].
  destruct (_ <? calc_stream_overhead _ _ _); [by left |].
  destruct ((_ =? 0) && negb _); [by left |]. destruct ((_ =? 0) && negb _); [by left |].
  destruct (send_credit_cb _ _ _ _ _ _) as [n cr] eqn:Ecb in Hcb.
  destruct Hcb as [[Hcr ->] | (Hb & Hok & Hnow)].
  - destruct (use_credit_eq _ (e_conn e) 0 cr Hc Ecb) as (s' & -> & E0 & _); [unfold conn_avail in *; lia |].
    rewrite (E0 eq_refl). destruct (cr_block cr), (cr_ok cr); try discriminate; left; by destruct e.
  - destruct (use_credit_eq _ (e_conn e) n cr Hc Ecb) as (s' & -> & _ & Es').
    { destruct Hnow as (_ & Hn & _). unfold conn_avail in *. lia. }
    rewrite Hb, Hok. cbn [negb].
    pose proof (send_commit_spec save id fairness e (cr_frame cr) n s' Hp Hf Hnow Ecan Es') as Hcm. cbv zeta in Hcm.
    destruct (save _ (e_saved e)) as [ok saved] eqn:Es. rewrite Hcm. right.
    exists (cr_frame cr), n. split; [done |]. split; [done |]. cbv zeta. by rewrite Es.
Qed.

Lemma sent_env_pre {F} id fairness (e : send_env F) f n is_fin saved :
  send_pre id e -> 0 <= fairness -> stream_frame_now id fairness e f n ->
  SendState.can_send (e_state e) = true -> send_pre id (sent_env f n is_fin e saved).
Proof.
  intros Hp Hf Hnow Hcan. pose proof (window_bounds id fairness e Hp Hf) as (Hm & Hav & Hsb).
  destruct (frame_now_facts id fairness e f n Hp Hf Hnow) as (Hwf & _ & _ & _ & _).
  destruct Hnow as (has_len & Hn & _ & Hfit).
  destruct Hp as (Hw & Hroom & Hid & [Hu Hl] & [[Hsu Hsl] Hfl] & [Hd1 Hd2] & Hso).
  assert (Hub : size (unsent (e_data e)) = size (WriteData.src (e_data e)) -
    (WriteData.written_offset (e_data e) - WriteData.discarded_offset (e_data e)))
    by (unfold unsent, size in *; rewrite length_drop; lia).
  rewrite <- wire_size in Hfit by done. unfold conn_avail, SendState.send_limit, SendState.sent_bytes,
    Limiter.current_limit, Limiter.current_usage in *.
  split; [by apply wr_put_ok |]. split; [cbn [sent_env e_w fw_w]; rewrite wr_put_room by done;
    pose proof (size_nonneg (wire f)); lia |].
  split; [done |]. split; [unfold limiter_ok; cbn; lia |].
  split; [| split; [unfold data_ok; cbn; lia |
    unfold SendState.sent_bytes, Limiter.current_usage; cbn;
    unfold SendState.sent_bytes, Limiter.current_usage; lia]].
  split; [unfold limiter_ok; cbn; unfold SendState.send_limit, SendState.sent_bytes,
    Limiter.current_limit, Limiter.current_usage; lia |].
  cbn [sent_env e_state SendState.reset_flags SendState.state]. rewrite Hfl. unfold SendState.can_send in Hcan.
  destruct (SendState.state (e_state e)), is_fin; done.
Qed.

(** ** Sending with room to spare *)

Lemma make_fit_roomy to_fit id offset src fin allow_zero :
  0 <= id < 2 ^ 62 -> 0 <= offset < 2 ^ 62 -> size src < 2 ^ 62 -> to_fit < 2 ^ 62 ->
  size src + 40 <= to_fit -> allow_zero = true ->
  make_fit_size_Stream to_fit id offset src fin allow_zero =
    (stream_prefix_frame id offset src true fin (size src), true).
Proof.
  intros Hi Ho Hs Ht Hr ->. pose proof (size_nonneg src). unfold make_fit_size_Stream.
  set (range := stream_size_range _ _ _ _).
  pose proof (overhead_bounds id offset (negb (offset =? 0)) Hi Ho) as Hov.
  assert (Hrg : calc.range_ok range) by (split; simpl; [done | lia]).
  destruct (calc.shrink_to_fit_no_len to_fit range) as [[ok n] valid] eqn:En.
  apply calc.no_len_spec in En as (Hv & _ & Hz); [| done | lia]. simpl in Hv, Hz.
  destruct valid; [exfalso; apply proj1 in Hv; specialize (Hv eq_refl); lia |].
  rewrite eqb_false by (rewrite Hz; lia).
  rewrite calc.shrink_with_len_eq by (done || lia).
  assert (Hfl : calc.frame_len (calc.fixed_length range) (calc.max_length range) <= to_fit).
  { unfold calc.frame_len. simpl. pose proof (calc.min_len_bound (size src)). lia. }
  rewrite ltb_false by done. cbn [range stream_size_range calc.min_zero calc.max_length].
  rewrite ltb_false by lia. by rewrite rsubstr_prefix by lia.
Qed.

(** With FIN pending and room to spare, the whole window goes out. *)
Lemma send_impl_roomy {F} (save : Fragment -> F -> bool * F) id fairness (e : send_env F) :
  send_pre id e -> 0 <= fairness -> SendState.can_send (e_state e) = true ->
  WriteData.should_fin (e_data e) = true ->
  let d := e_data e in
  let m := send_window fairness e in
  m + 40 <= wr_room (fw_w (e_w e)) ->
  send_impl save id fairness e =
    let '(ok, saved) := save (mk_fragment (WriteData.written_offset d) (take (Z.to_nat m) (unsent d)) true) (e_saved e) in
    ((if ok then io_ok else io_fatal, 0),
     sent_env (stream_prefix_frame id (WriteData.written_offset d) (take (Z.to_nat m) (unsent d)) true true m) m true e saved).
Proof.
  intros Hp Hf Hcan Hfin. cbv zeta. intros Hroom.
  pose proof (window_bounds id fairness e Hp Hf) as (Hm & Hav & _). set (m := send_window fairness e) in *.
  pose proof Hp as (Hw & Hroom2 & Hid & Hc & Hs & Hd & _). pose proof Hd as [Hd1 Hd2]. pose proof Hc as [Hu _].
  set (f := stream_prefix_frame id _ _ _ _ _).
  assert (Hsz : size (take (Z.to_nat m) (unsent (e_data e))) = m) by (apply size_take_to; lia).
  assert (Hunsent : size (unsent (e_data e)) < 2 ^ 62) by (unfold unsent, size in *; rewrite length_drop; lia).
  pose proof (overhead_bounds id (WriteData.written_offset (e_data e))
    (negb (WriteData.written_offset (e_data e) =? 0)) Hid ltac:(lia)) as Hov.
  assert (Hfit : make_fit_size_Stream (wr_room (fw_w (e_w e))) id (WriteData.written_offset (e_data e))
      (take (Z.to_nat m) (unsent (e_data e))) true true = (f, true)).
  { rewrite make_fit_roomy; rewrite ?Hsz; (done || lia). }
  assert (Hnow : stream_frame_now id fairness e f m).
  { exists true. fold m. rewrite Hfin. split; [lia |]. split; [done |].
    apply make_fit_cases in Hfit as (? & ? & _ & -> & ? & _); (done || lia). }
  assert (Ecb : send_credit_cb (wr_room (fw_w (e_w e))) id
      (Z.min (Z.min (size (unsent (e_data e))) fairness)
         (SendState.send_limit (e_state e) - SendState.sent_bytes (e_state e)))
      (e_data e) (conn_avail (e_conn e)) (Limiter.limit (flow_send (conn_flow (e_conn e)))) =
      (m, mk_credit false true f (Limiter.limit (flow_send (conn_flow (e_conn e)))))).
  { unfold send_credit_cb. rewrite zmin_eq. fold (send_window fairness e). fold m. rewrite Hfin, andb_false_r.
    rewrite get_remain_eq, Hfit by (done || lia).
    destruct (frame_now_facts id fairness e f m Hp Hf Hnow) as (_ & _ & _ & -> & _). done. }
  unfold send_impl, fw_remain. rewrite wr_remain_size, remain_eq, !zmin_eq, sendable_eq, Hcan, Hfin by done.
  rewrite !andb_false_r. cbn [negb]. rewrite ltb_false by lia.
  destruct (use_credit_eq _ (e_conn e) m _ Hc Ecb) as (s' & -> & _ & Es'); [unfold conn_avail in *; lia |].
  cbn [cr_block cr_ok cr_frame negb].
  pose proof (send_commit_spec save id fairness e f m s' Hp Hf Hnow Hcan Es') as Hcm. cbv zeta in Hcm.
  fold m in Hcm. rewrite Hfin, Z.eqb_refl in Hcm. cbn [andb] in Hcm.
  destruct (save _ (e_saved e)) as [ok saved]. exact Hcm.
Qed.

(** ** Receiving *)

Lemma use_recv_credit_eq n s :
  limiter_ok (flow_recv (conn_flow s)) -> 0 <= n ->
  let l := flow_recv (conn_flow s) in
  let avail := Limiter.limit l - Limiter.used l in
  use_recv_credit n s =
    (n <=? avail,
     if n <=? avail
     then set_conn_flow (mk_flow (flow_send (conn_flow s)) (Limiter.mk (Limiter.limit l) (Limiter.used l + n))
                           (flow_update (conn_flow s))) s
     else s).
Proof.
  intros Hl Hn. cbv zeta. pose proof Hl as [Hu Hm]. unfold use_recv_credit, Limiter.use, Limiter.on_limit.
  rewrite avail_eq by done. destruct (Z.leb_spec n (Limiter.limit (flow_recv (conn_flow s)) - Limiter.used (flow_recv (conn_flow s)))).
  - rewrite ltb_false by lia. by rewrite u64_small by (unfold is_u64; lia).
  - rewrite ltb_true by lia. by destruct s as [? ? ? ? [? ? ?] ? ?].
Qed.

Lemma recv_spec x s :
  limiter_ok (RecvState.limit s) -> 0 <= x -> RecvState.can_recv s = true ->
  let u := RecvState.recv_bytes s in
  let '(ok, s') := RecvState.recv x s in
  (ok = true <-> x <= RecvState.recv_limit s /\ (RecvState.is_size_known s = true -> x <= u)) /\
  RecvState.recv_bytes s' = (if ok then Z.max u x else u) /\
  RecvState.recv_limit s' = RecvState.recv_limit s /\ limiter_ok (RecvState.limit s') /\
  (ok = true -> RecvState.state s' =
     match RecvState.state s with RecvState.size_known_st => RecvState.size_known_st | _ => RecvState.recv_st end).
Proof.
  intros Hl Hx Hc. cbv zeta. unfold RecvState.recv, RecvState.recv_bytes, RecvState.recv_limit,
    Limiter.current_usage, Limiter.current_limit. rewrite Hc. cbn [negb].
  destruct (RecvState.is_size_known s && (Limiter.used (RecvState.limit s) <? x)) eqn:E.
  - apply andb_true_iff in E as [E1 E2]. apply Z.ltb_lt in E2. split_and!; try done. split; [done |].
    intros [_ H]. specialize (H E1). lia.
  - destruct (Limiter.update_use x (RecvState.limit s)) as [ok l] eqn:Eu.
    apply update_use_ok in Eu as (H1 & H2 & H3 & H4); [| done | done].
    destruct ok; cbn [negb RecvState.limit RecvState.set_limiter].
    + split_and!; try done.
      * split; [intros _ | done]. split; [by apply H4 |]. intros Hk. rewrite Hk in E. simpl in E.
        by apply Z.ltb_ge in E.
      * by destruct s as [? ? ? [] ? ?].
      * by destruct s as [? ? ? [] ? ?].
      * by destruct s as [? ? ? [] ? ?].
      * intros _. by destruct s as [? ? ? [] ? ?].
    + split_and!; try done. split; [done |]. intros [H _]. apply H4 in H. done.
Qed.

(** * Properties *)


Definition plain_send_env : send_env Z :=
  mk_env (mk_fwriter (new_writer (replicate 63 0)) 0 0)
    (set_conn_flow (mk_flow (Limiter.mk 1000 0) Limiter.zero false) new_streams)
    (SendState.mk (Limiter.mk 1000 0) 0 SendState.ready 0)
    (WriteData.mk (replicate 110 7) 0 0 false false) 0.


(** FIN can be sent too early: the frame carries FIN when it takes all
    of the data the flow control lets through, not all of the data there is.
    With FIN pending, a credit window smaller than the data and room for the
    frame, [send_impl] succeeds, sends FIN right after the window and counts
    the stream as completely sent; the rest of the data is then refused for
    ever. *)
Theorem send_fin_too_early {F} (save : Fragment -> F -> bool * F) id fairness e :
  send_pre id e -> 0 <= fairness -> (forall g s, fst (save g s) = true) ->
  SendState.can_send (e_state e) = true -> WriteData.should_fin (e_data e) = true ->
  let m := send_window fairness e in
  m < size (unsent (e_data e)) -> m + 40 <= wr_room (fw_w (e_w e)) ->
  let '((res, _), e') := send_impl save id fairness e in
  res = io_ok /\ WriteData.written_offset (e_data e') = WriteData.written_offset (e_data e) + m /\
  SendState.state (e_state e') = SendState.data_sent /\
  0 < size (unsent (e_data e')) /\
  fst (fst (send_impl save id fairness e')) = not_in_io_state.
Proof.
  intros Hp Hf Hsave Hcan Hfin. cbv zeta. intros Hm Hroom.
  rewrite (send_impl_roomy save id fairness e Hp Hf Hcan Hfin Hroom).
  set (f := stream_prefix_frame _ _ _ _ _ _).
  match goal with |- context [save ?g ?s] => specialize (Hsave g s); destruct (save g s) as [ok saved] end.
  simpl in Hsave. subst ok. split; [done |]. split; [done |]. split; [done |]. split; [| done].
  pose proof (window_bounds id fairness e Hp Hf) as (Hm0 & _ & _).
  destruct Hp as (_ & _ & _ & _ & _ & [Hd1 Hd2] & _).
  unfold unsent, size in *. cbn. rewrite !length_drop in *. lia.
Qed.

Definition early_fin_env : send_env unit :=
  mk_env (mk_fwriter (new_writer (replicate 60 0)) 0 0)
    (set_conn_flow (mk_flow (Limiter.mk 1000 0) Limiter.zero false) new_streams)
    (SendState.mk (Limiter.mk 3 0) 0 SendState.ready 0)
    (WriteData.mk [1; 2; 3; 4; 5] 0 0 true false) tt.

Lemma send_fin_too_early_witness :
  let r := send_impl (fun _ _ => (true, tt)) 4 u64_max early_fin_env in
  wr_written (fw_w (e_w (snd r))) = [0x0b; 4; 3; 1; 2; 3] /\
  SendState.state (e_state (snd r)) = SendState.data_sent /\ 0 < size (unsent (e_data (snd r))).
Proof.
  cbv zeta. split; [vm_compute; reflexivity |].
  assert (H1 : send_pre 4 early_fin_env).
  { unfold send_pre, wr_ok, limiter_ok, data_ok, SendFacts.inv, limiter_ok.
    vm_compute. repeat split; try congruence; lia. }
  assert (H2 : 0 <= u64_max) by (unfold u64_max; lia).
  assert (H3 : send_window u64_max early_fin_env < size (unsent (e_data early_fin_env))) by (vm_compute; reflexivity).
  assert (H4 : send_window u64_max early_fin_env + 40 <= wr_room (fw_w (e_w early_fin_env))) by (vm_compute; discriminate).
  pose proof (send_fin_too_early (fun _ (_ : unit) => (true, tt)) 4 u64_max early_fin_env H1 H2
    (fun _ _ => eq_refl) eq_refl eq_refl H3 H4) as H.
  destruct (send_impl _ 4 u64_max early_fin_env) as [[res lim] e'].
  destruct H as (_ & _ & A & B & _). exact (conj A B).
Defined.

(** C32. [recv_impl], branch by branch, for a frame of its stream whose data
    ends at [x]: a stream that no longer receives ignores it; data beyond
    the stream's limit, or beyond its known size, is a flow control error
    and changes nothing; new data beyond the connection's credit is a flow
    control error and spends none of it. Otherwise the connection is charged
    exactly for the bytes above the highest offset so far, the stream's count
    becomes the new highest offset, FIN fixes the size, and the fragment is
    delivered once, with that count. *)
Theorem recv_flow_control {F} (deliver : Fragment -> Z -> F -> option Error * F) frame id conn state st :
  varint.value (StreamFrame.streamID frame) = id ->
  0 <= varint.value (StreamFrame.offset frame) < 2 ^ 62 -> size (StreamFrame.stream_data frame) < 2 ^ 62 ->
  limiter_ok (RecvState.limit state) -> limiter_ok (flow_recv (conn_flow conn)) ->
  let off := varint.value (StreamFrame.offset frame) in
  let fin := FrameFlags.STREAM_fin (StreamFrame.type frame) in
  let x := off + size (StreamFrame.stream_data frame) in
  let u := RecvState.recv_bytes state in
  let l := flow_recv (conn_flow conn) in
  let '((res, err), (conn', state', st')) := recv_impl deliver frame id conn state st in
  if negb (RecvState.can_recv state) then
    res = not_in_io_state /\ err = None /\ conn' = conn /\ state' = state /\ st' = st
  else if (RecvState.recv_limit state <? x) || (RecvState.is_size_known state && (u <? x)) then
    res = block_by_stream /\ err <> None /\ conn' = conn /\ RecvState.recv_bytes state' = u /\ st' = st
  else if Limiter.limit l - Limiter.used l <? Z.max u x - u then
    res = block_by_conn /\ err <> None /\ conn' = conn /\ st' = st
  else
    let '(derr, dst) := deliver (mk_fragment off (StreamFrame.stream_data frame) fin) (Z.max u x) st in
    res = (match derr with Some _ => io_fatal | None => io_ok end) /\ err = derr /\ st' = dst /\
    RecvState.recv_bytes state' = Z.max u x /\
    Limiter.used (flow_recv (conn_flow conn')) = Limiter.used l + (Z.max u x - u) /\
    limiter_ok (flow_recv (conn_flow conn')) /\ limiter_ok (RecvState.limit state') /\
    (fin = true -> RecvState.is_size_known state' = true).
Proof.
  intros Hid Hoff Hsz Hl Hc. cbv zeta. pose proof (size_nonneg (StreamFrame.stream_data frame)).
  set (x := varint.value (StreamFrame.offset frame) + size (StreamFrame.stream_data frame)).
  unfold recv_impl. rewrite Hid, Z.eqb_refl. cbn [negb].
  destruct (RecvState.can_recv state) eqn:Ecan; cbn [negb]; [| done].
  fold x. rewrite (u64_small x) by (unfold is_u64, x; lia).
  pose proof (recv_spec x state Hl ltac:(unfold x; lia) Ecan) as Hr. cbv zeta in Hr.
  destruct (RecvState.recv x state) as [ok s1]. destruct Hr as (Hok & Hb & Hlim & Hl1 & Hst).
  pose proof Hl as [Hu Hm]. pose proof Hl1 as [Hu1 Hm1].
  set (u := RecvState.recv_bytes state) in *. destruct ok; cbn [negb].
  - destruct Hok as [Hok _]. destruct (Hok eq_refl) as [Hx Hk].
    assert ((RecvState.recv_limit state <? x) || (RecvState.is_size_known state && (u <? x)) = false) as ->.
    { rewrite ltb_false by lia. destruct (RecvState.is_size_known state); [| done]. rewrite ltb_false by auto. done. }
    rewrite Hb.
    assert (Hrange : 0 <= Z.max u x - u < 2 ^ 62).
    { assert (0 <= u) by apply Hu. assert (x < 2 ^ 62) by (eapply Z.le_lt_trans; [exact Hx | exact Hm]). lia. }
    rewrite u64_small by (unfold is_u64; lia). rewrite use_recv_credit_eq by (done || lia).
    pose proof Hc as [Hcu Hcm]. set (l := flow_recv (conn_flow conn)) in *.
    destruct (Z.ltb_spec (Limiter.limit l - Limiter.used l) (Z.max u x - u)) as [Hover | Hfits].
    + rewrite leb_false by lia. rewrite eqb_false by lia. done.
    + rewrite leb_true by lia.
      assert (Hfin : FrameFlags.STREAM_fin (StreamFrame.type frame) = true ->
        RecvState.is_size_known (snd (RecvState.size_known s1)) = true).
      { intros _. specialize (Hst eq_refl). unfold RecvState.size_known, RecvState.is_size_known. rewrite Hst.
        destruct (RecvState.state state); simpl; try done; by rewrite Hst. }
      assert (Hsame : RecvState.recv_bytes (snd (RecvState.size_known s1)) = Z.max u x /\
        limiter_ok (RecvState.limit (snd (RecvState.size_known s1)))).
      { unfold RecvState.size_known. by destruct s1 as [? ? ? [] ? ?]. }
      destruct Hsame as [Hs1 Hs2]. set (d := Z.max u x - u) in *.
      destruct (Z.eqb_spec d 0) as [E0 | E0]; cbn [negb]; destruct (deliver _ _ st) as [derr dst];
        destruct (FrameFlags.STREAM_fin _); destruct derr; split_and!; try done;
        cbn [conn_flow set_conn_flow flow_recv Limiter.used]; fold l; try lia; unfold limiter_ok; cbn; lia.
  - assert ((RecvState.recv_limit state <? x) || (RecvState.is_size_known state && (u <? x)) = true) as ->; [| done].
    destruct (Z.ltb_spec (RecvState.recv_limit state) x); [done |].
    destruct (RecvState.is_size_known state); simpl.
    + apply Z.ltb_lt. destruct (Z.lt_ge_cases u x); [done |]. assert (false = true) by (apply Hok; auto). done.
    + assert (false = true) by (apply Hok; split; [lia | done]). done.
Qed.

Lemma recv_flow_control_witness :
  let frame := StreamFrame.mk 0x0b (varint.of_uint 4) (varint.of_uint 0) (varint.of_uint 0) [9; 9; 9] in
  let conn := set_conn_flow (mk_flow Limiter.zero (Limiter.mk 100 20) false) new_streams in
  let state := RecvState.mk (Limiter.mk 50 0) 0 0 RecvState.pre_recv false false in
  let '((res, err), (conn', state', st')) := recv_impl (fun g n k => (None, k + n)) frame 4 conn state 0 in
  res = io_ok /\ err = None /\ st' = 3 /\ RecvState.recv_bytes state' = 3 /\
  Limiter.used (flow_recv (conn_flow conn')) = 20 + 3 /\
  limiter_ok (flow_recv (conn_flow conn')) /\ limiter_ok (RecvState.limit state') /\
  (true = true -> RecvState.is_size_known state' = true).
Proof.
  apply (recv_flow_control (fun g n k => (None, k + n))
    (StreamFrame.mk 0x0b (varint.of_uint 4) (varint.of_uint 0) (varint.of_uint 0) [9; 9; 9]) 4
    (set_conn_flow (mk_flow Limiter.zero (Limiter.mk 100 20) false) new_streams)
    (RecvState.mk (Limiter.mk 50 0) 0 0 RecvState.pre_recv false false) 0);
    unfold limiter_ok, size; simpl; (lia || reflexivity).
Defined.

(** FIN below the highest offset already received is accepted: five bytes
    were received, then FIN at offset three. *)
Example recv_fin_below_received :
  let conn := set_conn_flow (mk_flow Limiter.zero (Limiter.mk 100 5) false) new_streams in
  let state := RecvState.mk (Limiter.mk 50 5) 0 0 RecvState.recv_st false false in
  let r := recv_impl (fun g n (k : unit) => (None, k))
             (StreamFrame.mk 0x0b (varint.of_uint 4) (varint.of_uint 0) (varint.of_uint 3) [9; 9; 9]) 4 conn state tt in
  fst (fst r) = io_ok /\ RecvState.state (snd (fst (snd r))) = RecvState.size_known_st /\
  RecvState.recv_bytes (snd (fst (snd r))) = 5.
Proof. split_and!; reflexivity. Qed.

(** Retransmission loses nothing: a lost fragment that lies within what
    was sent is either left alone for lack of room or resent, a prefix of it
    in one frame; the two fragments handed to the caller, sent and remaining,
    are consecutive, make up the lost one, and exactly one of them carries
    its FIN; the caller is told whether anything remains. Fragments that were
    never sent (or claim a FIN that was not) are refused. *)
Theorem retransmit_partitions {F} (save : Fragment -> Fragment -> bool -> F -> bool * F) offset frg fin b w st :
  wr_ok (fw_w w) -> wr_room (fw_w w) < 2 ^ 62 -> 0 <= SendUniStreamBase.id b < 2 ^ 62 -> 0 <= offset ->
  let written := WriteData.written_offset (SendUniStreamBase.data b) in
  written < 2 ^ 62 -> offset + size frg < 2 ^ 64 ->
  let '(res, w', st') := SendUniStreamBase.send_retransmit_stream save offset frg fin b w st in
  if negb (SendState.can_retransmit (SendUniStreamBase.state b)) then res = not_in_io_state /\ w' = w /\ st' = st
  else if (written <? offset + size frg) ||
          (fin && (negb (WriteData.fin_written (SendUniStreamBase.data b)) || negb (offset + size frg =? written)))
  then res = invalid_data /\ w' = w /\ st' = st
  else
    (res = no_capacity /\ w' = w /\ st' = st) \/
    exists f sent remain,
      wf f /\ fw_w w' = wr_put (fw_w w) (wire f) /\ size (wire f) <= wr_room (fw_w w) /\
      StreamFrame.stream_data f = fragment sent /\ StreamFrame.offset f = varint.of_uint offset /\
      frag_offset sent = offset /\ fragment sent ++ fragment remain = frg /\
      frag_offset remain = offset + size (fragment sent) /\
      frag_fin sent = fin && (size (fragment remain) =? 0) /\
      frag_fin remain = fin && negb (frag_fin sent) /\
      let '(ok, st2) := save sent remain (negb (size (fragment remain) =? 0)) st in
      res = (if ok then io_ok else io_fatal) /\ st' = st2.
Proof.
  intros Hw Hroom Hid Hoff. cbv zeta. intros Hwr Htop. unfold SendUniStreamBase.send_retransmit_stream.
  pose proof (size_nonneg frg). rewrite (u64_small (offset + size frg)) by (unfold is_u64; lia).
  destruct (SendState.can_retransmit _); cbn [negb]; [| done].
  set (written := WriteData.written_offset _) in *.
  destruct (Z.ltb_spec written (offset + size frg)) as [| Hin]; cbn [orb]; [done |].
  destruct (fin && negb (WriteData.fin_written _)) eqn:E1.
  { apply andb_true_iff in E1 as [-> ->]. done. }
  destruct (fin && negb (offset + size frg =? written)) eqn:E2.
  { apply andb_true_iff in E2 as [-> ->]. rewrite orb_true_r. done. }
  assert (fin && (negb (WriteData.fin_written (SendUniStreamBase.data b)) || negb (offset + size frg =? written)) = false) as ->
    by (destruct fin; simpl in *; by rewrite ?E1, ?E2).
  unfold fw_remain. rewrite wr_remain_size by done.
  destruct (make_fit_size_Stream _ _ _ _ _ _) as [f ok] eqn:Ef. destruct ok; cbn [negb]; [| by left].
  assert (Hr0 : 0 <= wr_room (fw_w w)) by (destruct Hw; unfold wr_room, size; lia).
  apply make_fit_cases in Ef as (has_len & n & Hn & -> & Hfit & _ & _); try lia.
  destruct (stream_prefix_facts (SendUniStreamBase.id b) offset frg has_len fin n) as (Hwf & _ & _ & Hfin); try lia.
  set (f := stream_prefix_frame _ _ _ _ _ _) in *. unfold fw_write.
  destruct (render_emits f Hwf (fw_w w) Hw) as [He _]. rewrite He by (rewrite wire_size by done; lia). cbn [negb].
  rewrite Hfin. change (StreamFrame.stream_data f) with (take (Z.to_nat n) frg).
  change (varint.value (StreamFrame.offset f)) with offset. rewrite size_take_to by done.
  assert (Hdrop : rsubstr frg n u64_max = drop (Z.to_nat n) frg).
  { rewrite <- (rsubstr_drop frg (Z.to_nat n)) by (unfold size, u64_max in *; lia). by rewrite Z2Nat.id by lia. }
  rewrite Hdrop, (u64_small (offset + n)) by (unfold is_u64; lia).
  assert (Hdz : (size (drop (Z.to_nat n) frg) =? 0) = (n =? size frg)).
  { unfold size in *. rewrite length_drop. repeat zcase_one; lia. }
  set (sent := mk_fragment offset (take (Z.to_nat n) frg) (fin && (n =? size frg))).
  set (remain := mk_fragment (offset + n) (drop (Z.to_nat n) frg) (fin && negb (fin && (n =? size frg)))).
  destruct (save sent remain _ st) as [ok st2] eqn:Es.
  right. exists f, sent, remain. rewrite Es. cbn [fragment frag_offset frag_fin sent remain].
  split; [done |]. split; [done |]. split; [by rewrite wire_size |].
  rewrite Hdz, size_take_to, take_drop by done. done.
Qed.
