(* ===== verification/QTime.v ===== *)
(** * QTime: time, timers and the configuration of the status component

    Models [fnet/quic/time.h], [status/constant.h], [status/config.h] and
    [status/pn_space.h]. A [Time] is the [std::int64_t] it holds. The clock
    function belongs to the embedder: an operation that calls [clock.now()]
    takes the value read as an argument ([now]), one argument per call. *)

From stdpp Require Import base numbers.
From Stdlib Require Import ZArith Lia.
From S2P Require Import Prelude Types.

Module time.

Definition invalid : Z := -1.
Definition valid (t : Z) : bool := 0 <=? t.

(** [struct Clock], its reading aside. *)
Record Clock := mk_clock { millisecond : Z }.

(** [std::int64_t * std::uint64_t] is computed modulo 2^64 and read back as
    [time_t]. *)
Definition to_clock_granularity (c : Clock) (millisec : Z) : Z := s64 (millisec * millisecond c).
Definition to_millisec (c : Clock) (t : Z) : Z := s64 (u64 t / millisecond c).
Definition to_nanosec (c : Clock) (t : Z) : Z := s64 (u64 (t * 1000000) / millisecond c).

(** [struct Timer]: its deadline. *)
Definition Timer := Z.
Definition new_timer : Timer := invalid.
Definition set_deadline (t : Z) : Timer := if negb (valid t) then invalid else t.
Definition not_working (d : Timer) : bool := negb (valid d).
Definition get_deadline (d : Timer) : Z := d.
Definition cancel : Timer := invalid.
Definition timeout (d : Timer) (now : Z) : bool := negb (d =? invalid) && (d <? now).
Definition set_timeout (now delta : Z) : Timer := set_deadline (s64 (now + delta)).

End time.

(** ** [status/constant.h] *)

Definition amplification_factor : Z := 3.
Record Ratio := mk_ratio { num : Z; den : Z }.
Definition abs_ (a : Z) : Z := if a <? 0 then - a else a.
Definition max_ (a b : Z) : Z := if a <? b then b else a.
Definition min_ (a b : Z) : Z := if a <? b then a else b.

(** ** [status/config.h] *)

Record Config := mk_config {
  window_initial_factor : Z; window_minimum_factor : Z;
  handshake_timeout : Z; handshake_idle_timeout : Z; initial_rtt : Z;
  packet_order_threshold : Z; time_threshold : Ratio;
  delay_ack_packet_count : Z; use_ack_delay : bool;
  pacer_N : Ratio; clock : time.Clock;
  persistent_congestion_threshold : Z; ping_duration : Z;
  path_validation_timeout_factor : Z;
  (* struct InternalConfig : Config *)
  idle_timeout : Z; local_ack_delay_exponent : Z; local_max_ack_delay : Z }.

(** The values the members are initialised with; the clock counts
    milliseconds. *)
Definition default_config : Config :=
  mk_config 10 2 0 0 333 3 (mk_ratio 9 8) 2 false (mk_ratio 5 4) (time.mk_clock 1) 3 0 3 0 3 0.

Module PayloadSize.
Definition t := Z.
Definition reset (max_payload_size : Z) : t := max_payload_size.
Definition update_payload_size (size : Z) (p : t) : bool * t :=
  if size <? p then (false, p) else (true, size).
Definition current_max_payload_size (p : t) : Z := p.
End PayloadSize.

(** ** [status/pn_space.h] *)

Inductive PacketNumberSpace := initial | handshake | application | no_space.

#[global] Instance PacketNumberSpace_eq_dec : EqDecision PacketNumberSpace.
Proof. solve_decision. Defined.

Definition from_packet_type (typ : PacketType) : PacketNumberSpace :=
  match typ with
  | Types.Initial => initial
  | Types.Handshake => handshake
  | Types.ZeroRTT | Types.OneRTT => application
  | _ => no_space
  end.

(** An array indexed by [space_to_index]; [no_space] is out of its range. *)
Record Spaces (A : Type) := mk_spaces { s_initial : A; s_handshake : A; s_app : A }.
Arguments mk_spaces {A}. Arguments s_initial {A}. Arguments s_handshake {A}. Arguments s_app {A}.

Definition sget {A} (s : Spaces A) (space : PacketNumberSpace) : option A :=
  match space with
  | initial => Some (s_initial s)
  | handshake => Some (s_handshake s)
  | application => Some (s_app s)
  | no_space => None
  end.

Definition sset {A} (space : PacketNumberSpace) (x : A) (s : Spaces A) : Spaces A :=
  match space with
  | initial => mk_spaces x (s_handshake s) (s_app s)
  | handshake => mk_spaces (s_initial s) x (s_app s)
  | application => mk_spaces (s_initial s) (s_handshake s) x
  | no_space => s
  end.

(** ** Facts *)

Lemma max_spec a b : max_ a b = Z.max a b.
Proof. unfold max_. zcases. Qed.
Lemma min_spec a b : min_ a b = Z.min a b.
Proof. unfold min_. zcases. Qed.
Lemma abs_spec a : abs_ a = Z.abs a.
Proof. unfold abs_. zcases. Qed.
Create Rewrite HintDb minmax.
#[export] Hint Rewrite max_spec min_spec abs_spec : minmax.

Lemma timer_set_valid t : time.valid t = true -> time.set_deadline t = t.
Proof. unfold time.set_deadline. by intros ->. Qed.

Lemma timeout_iff d now :
  time.timeout d now = true <-> d <> -1 /\ d < now.
Proof. unfold time.timeout, time.invalid. rewrite andb_true_iff, negb_true_iff, Z.eqb_neq, Z.ltb_lt. done. Qed.
