(* ===== verification/RecvHistory.v ===== *)
(** * RecvHistory: which packets were received, and their acknowledgement

    Models [fnet/quic/ack/recv_history.h]: [RecvSpaceHistory] keeps the packet
    numbers received in one packet number space as an ascending list of
    inclusive ranges, answers the duplicate test, forgets acknowledged
    numbers and writes ACK frames; [RecvPacketHistory] has one of them per
    space and the delayed-ACK timer. *)

From stdpp Require Import base list numbers sets sorting.
From Stdlib Require Import ZArith Lia.
From S2P Require Import Prelude Bytes Varint PacketNumber Types FrameBase FrameAck FrameParse QTime.

Record RecvRange := mk_recv_range { rbegin : Z; rend : Z }.

Module RecvSpaceHistory.

Record t := mk {
  ranges : list RecvRange;
  ignore_under : Z;
  lowest : Z;                 (* lowest_recved_since_last_ack *)
  largest : Z;                (* largest_recved_since_last_ack *)
  ack_eliciting : Z           (* ack_eliciting_packet_since_last_ack *)
}.

Definition infinity : Z := packetnum.infinity.

Definition reset : t := mk [] 0 infinity infinity 0.

Definition set_ranges (l : list RecvRange) (h : t) : t :=
  mk l (ignore_under h) (lowest h) (largest h) (ack_eliciting h).

(** The loop from [rbegin()], over the list in descending order. *)
Fixpoint dup_loop (pn : Z) (desc : list RecvRange) : bool :=
  match desc with
  | [] => false
  | it :: below =>
      if (rbegin it <=? pn) && (pn <=? rend it) then true
      else if rend it <? pn then false
      else dup_loop pn below
  end.

Definition is_duplicated (pn : Z) (h : t) : bool :=
  if pn <? ignore_under h then true else dup_loop pn (rev (ranges h)).

Definition on_ack_sent (h : t) : t := mk (ranges h) (ignore_under h) infinity infinity 0.

(** The loop of [add_to_range]: [desc] is what is left to visit, in
    descending order, [above] the part already passed, in list order (so its
    head is [*prev]). The result is the whole list. *)
Fixpoint add_loop (pn : Z) (above desc : list RecvRange) : bool * list RecvRange :=
  match desc with
  | [] =>
      match above with
      | prev :: more =>
          if u64 (pn + 1) =? rbegin prev then (true, mk_recv_range pn (rend prev) :: more)
          else (true, mk_recv_range pn pn :: above)
      | [] => (true, [mk_recv_range pn pn])
      end
  | it :: below =>
      if u64 (rend it + 1) =? pn then
        let it' := mk_recv_range (rbegin it) pn in
        match above with
        | prev :: more =>
            (* erase(it.base()) erases the element after it: prev *)
            if rbegin prev =? rend it' then (true, rev below ++ it' :: more)
            else (true, rev below ++ it' :: above)
        | [] => (true, rev below ++ [it'])
        end
      else if rend it <? u64 (pn + 1) then
        (true, rev below ++ it :: mk_recv_range pn pn :: above)
      else if (rbegin it <=? pn) && (pn <=? rend it) then
        (false, rev below ++ it :: above)
      else add_loop pn (it :: above) below
  end.

Definition add_to_range (pn : Z) (h : t) : bool * t :=
  if pn <? ignore_under h then (false, h)
  else let '(b, l) := add_loop pn [] (rev (ranges h)) in (b, set_ranges l h).

Definition on_packet_processed (pn : Z) (eliciting : bool) (h : t) : bool * t :=
  let n := if eliciting then u64 (ack_eliciting h + 1) else ack_eliciting h in
  let '(lo, hi) := if lowest h =? infinity then (pn, pn) else (lowest h, largest h) in
  let lo := if pn <? lo then pn else lo in
  let hi := if hi <? pn then pn else hi in
  add_to_range pn (mk (ranges h) (ignore_under h) lo hi n).

Fixpoint delete_loop (pn : Z) (l : list RecvRange) : list RecvRange :=
  match l with
  | [] => []
  | it :: l' =>
      if rend it <? pn then delete_loop pn l'
      else if (rbegin it <=? pn) && (pn <=? rend it) then mk_recv_range pn (rend it) :: l'
      else it :: delete_loop pn l'
  end.

Definition delete_under (pn : Z) (h : t) : bool * t :=
  if pn <? ignore_under h then (false, h)
  else (true, mk (delete_loop pn (ranges h)) pn (lowest h) (largest h) (ack_eliciting h)).

Fixpoint ranges_loop (lo hi : Z) (desc : list RecvRange) : list ACKRange :=
  match desc with
  | [] => []
  | it :: below =>
      if hi <? rbegin it then ranges_loop lo hi below
      else if rend it <? lo then []
      else
        let e := if hi <? rend it then hi else rend it in
        let b := if rbegin it <? lo then lo else rbegin it in
        mk_range e b :: ranges_loop lo hi below
  end.

(** What [get_ranges(r)] appends to [r]. *)
Definition get_ranges (h : t) : list ACKRange :=
  if (largest h =? infinity) || (lowest h =? infinity) then []
  else ranges_loop (lowest h) (largest h) (rev (ranges h)).

Definition set_ack_delay (v : Z) (f : ACKFrame.t) : ACKFrame.t :=
  ACKFrame.mk (ACKFrame.type f) (ACKFrame.largest_ack f) (varint.of_uint v)
    (ACKFrame.ack_range_count f) (ACKFrame.first_ack_range f) (ACKFrame.ack_ranges f)
    (ACKFrame.ecn_counts f).

(** [send]: the result, the writer, the scratch buffer, the history and
    [largest_ack]. [delay] is the pointer, [None] for [nullptr]; the whole
    call is undefined ([None]) when the delay's shift is. *)
Definition send (w : fwriter) (buffer : list ACKRange) (delay : option Z) (config : Config) (h : t)
    : option (IOResult * fwriter * list ACKRange * t * Z) :=
  if ack_eliciting h =? 0 then Some (no_data, w, buffer, h, infinity)
  else
    let buffer := get_ranges h in
    if size buffer =? 0 then Some (no_data, w, buffer, h, infinity)
    else
      let '(f, ok) := convert_to_ACKFrame buffer in
      if negb ok then Some (io_fatal, w, buffer, h, infinity)
      else
        f ← match delay with
            | Some d =>
                v ← encode_ack_delay d (local_ack_delay_exponent config); Some (set_ack_delay v f)
            | None => Some f
            end;
        let '(res, w') := write_checked f w in
        Some (if bool_decide (res = io_ok)
              then (res, w', buffer, on_ack_sent h, varint.value (ACKFrame.largest_ack f))
              else (res, w', buffer, h, infinity)).

End RecvSpaceHistory.

Module RecvPacketHistory.

Record t := mk {
  last_recv : Z;
  ack_delay : time.Timer;
  buffer : list ACKRange;
  h_initial : RecvSpaceHistory.t;
  h_handshake : RecvSpaceHistory.t;
  h_app : RecvSpaceHistory.t
}.

Definition reset : t :=
  mk time.invalid time.cancel [] RecvSpaceHistory.reset RecvSpaceHistory.reset RecvSpaceHistory.reset.

Definition set_initial x h := mk (last_recv h) (ack_delay h) (buffer h) x (h_handshake h) (h_app h).
Definition set_handshake x h := mk (last_recv h) (ack_delay h) (buffer h) (h_initial h) x (h_app h).
Definition set_app x h := mk (last_recv h) (ack_delay h) (buffer h) (h_initial h) (h_handshake h) x.
Definition set_buffer x h := mk (last_recv h) (ack_delay h) x (h_initial h) (h_handshake h) (h_app h).

Definition is_duplicated (space : PacketNumberSpace) (pn : Z) (h : t) : bool :=
  match space with
  | initial => RecvSpaceHistory.is_duplicated pn (h_initial h)
  | handshake => RecvSpaceHistory.is_duplicated pn (h_handshake h)
  | application => RecvSpaceHistory.is_duplicated pn (h_app h)
  | no_space => false
  end.

(** [now] is the reading of [config.clock.now()]. *)
Definition on_packet_processed (space : PacketNumberSpace) (pn : Z) (eliciting : bool)
    (config : Config) (now : Z) (h : t) : bool * t :=
  match space with
  | initial =>
      let '(b, x) := RecvSpaceHistory.on_packet_processed pn eliciting (h_initial h) in
      (b, set_initial x h)
  | handshake =>
      let '(b, x) := RecvSpaceHistory.on_packet_processed pn eliciting (h_handshake h) in
      (b, set_handshake x h)
  | application =>
      let '(b, x) := RecvSpaceHistory.on_packet_processed pn eliciting (h_app h) in
      let h := set_app x h in
      if time.not_working (ack_delay h) &&
         (RecvSpaceHistory.ack_eliciting x <? delay_ack_packet_count config)
      then
        let delay := s64 (now + time.to_clock_granularity (clock config) (local_max_ack_delay config)) in
        (b, mk now (time.set_deadline delay) (buffer h) (h_initial h) (h_handshake h) (h_app h))
      else (b, h)
  | no_space => (false, h)
  end.

Definition should_send_app_ack (config : Config) (now : Z) (h : t) : bool :=
  negb (use_ack_delay config) ||
  (time.timeout (ack_delay h) now ||
   (delay_ack_packet_count config <=? RecvSpaceHistory.ack_eliciting (h_app h))).

Definition on_ack_sent (h : t) : t :=
  mk time.invalid time.cancel (buffer h) (h_initial h) (h_handshake h) (h_app h).

Definition on_packet_number_space_discarded (space : PacketNumberSpace) (h : t) : t :=
  match space with
  | initial => set_initial RecvSpaceHistory.reset h
  | handshake => set_handshake RecvSpaceHistory.reset h
  | _ => h
  end.

Definition delete_onertt_under (pn : Z) (h : t) : t :=
  set_app (snd (RecvSpaceHistory.delete_under pn (h_app h))) h.

(** [now1] is read by the timer test, [now2] for the delay; the last
    component is [largest_ack] where it is assigned. *)
Definition send (w : fwriter) (space : PacketNumberSpace) (config : Config) (now1 now2 : Z) (h : t)
    : option (IOResult * fwriter * t * option Z) :=
  match space with
  | initial =>
      '(res, w', b, x, la) ← RecvSpaceHistory.send w (buffer h) None config (h_initial h);
      Some (res, w', set_buffer b (set_initial x h), Some la)
  | handshake =>
      '(res, w', b, x, la) ← RecvSpaceHistory.send w (buffer h) None config (h_handshake h);
      Some (res, w', set_buffer b (set_handshake x h), Some la)
  | application =>
      if negb (should_send_app_ack config now1 h) then Some (no_data, w, h, None)
      else
        let delay := if time.not_working (ack_delay h) then 0 else u64 (now2 - last_recv h) in
        '(res, w', b, x, la) ← RecvSpaceHistory.send w (buffer h) (Some delay) config (h_app h);
        let h := set_buffer b (set_app x h) in
        Some (res, w', if bool_decide (res = io_ok) then on_ack_sent h else h, Some la)
  | no_space => Some (io_fatal, w, h, None)
  end.

Definition get_deadline (h : t) : Z := time.get_deadline (ack_delay h).

End RecvPacketHistory.

(** * Lemmas *)

(** A packet number short of [packetnum::infinity]. *)
Definition is_pn (pn : Z) : Prop := 0 <= pn < 2 ^ 64 - 1.

Definition covers (pn : Z) (r : RecvRange) : Prop := rbegin r <= pn <= rend r.
Definition seen (pn : Z) (l : list RecvRange) : Prop := exists r, r ∈ l /\ covers pn r.

Definition valid_range (r : RecvRange) : Prop :=
  0 <= rbegin r /\ rbegin r <= rend r /\ rend r < 2 ^ 64 - 1.
Definition before (r s : RecvRange) : Prop := rend r < rbegin s.

(** The representation invariant: ascending and disjoint. *)
Definition ranges_ok (l : list RecvRange) : Prop :=
  Forall valid_range l /\ StronglySorted before l.

Lemma ranges_ok_app l k :
  ranges_ok (l ++ k) <->
  ranges_ok l /\ ranges_ok k /\ forall r s, r ∈ l -> s ∈ k -> before r s.
Proof. unfold ranges_ok. rewrite Forall_app, StronglySorted_app. naive_solver. Qed.

Lemma ranges_ok_cons r l :
  ranges_ok (r :: l) <-> valid_range r /\ ranges_ok l /\ forall s, s ∈ l -> before r s.
Proof.
  unfold ranges_ok. rewrite Forall_cons. split.
  - intros [[? ?] Hs]. inversion Hs as [| ? ? ? Hf]; subst. rewrite Forall_forall in Hf. auto.
  - intros (? & [? ?] & ?). split; [done |]. constructor; [done |]. by apply Forall_forall.
Qed.

Lemma ranges_ok_valid l r : ranges_ok l -> r ∈ l -> valid_range r.
Proof. intros [H _]. rewrite Forall_forall in H. auto. Qed.

Lemma elem_of_rev {A} (x : A) l : x ∈ rev l <-> x ∈ l.
Proof. rewrite !list_elem_of_In. symmetry. apply in_rev. Qed.

Lemma seen_app pn l k : seen pn (l ++ k) <-> seen pn l \/ seen pn k.
Proof. unfold seen. set_solver. Qed.
Lemma seen_cons pn r l : seen pn (r :: l) <-> covers pn r \/ seen pn l.
Proof. unfold seen. set_solver. Qed.
Lemma seen_nil pn : seen pn [] <-> False.
Proof. unfold seen. set_solver. Qed.
Lemma seen_rev pn l : seen pn (rev l) <-> seen pn l.
Proof. unfold seen. setoid_rewrite elem_of_rev. done. Qed.

Create Rewrite HintDb ranges.
#[export] Hint Rewrite ranges_ok_app ranges_ok_cons seen_app seen_cons seen_nil seen_rev : ranges.

Lemma u64_succ pn : is_pn pn -> u64 (pn + 1) = pn + 1.
Proof. unfold is_pn. intros. apply u64_small. unfold is_u64. lia. Qed.

Module HistoryFacts.
Import RecvSpaceHistory.

(** The duplicate test of an ordered list is membership. *)
Lemma dup_loop_spec pn desc :
  ranges_ok (rev desc) -> dup_loop pn desc = true <-> seen pn desc.
Proof.
  induction desc as [| it below IH]; simpl; intros Hok; autorewrite with ranges in *; [done |].
  destruct Hok as (Hb & (Hv & _ & _) & Hlt). unfold covers, valid_range, before in *.
  destruct (Z.leb_spec (rbegin it) pn), (Z.leb_spec pn (rend it)); simpl; try (split; auto; lia).
  - rewrite (ltb_true (rend it) pn) by lia. split; [done |].
    intros [? | (r & Hr & Hc)]; [lia |]. unfold covers in Hc.
    specialize (Hlt r it ltac:(by rewrite elem_of_rev) ltac:(set_solver)). lia.
  - rewrite (ltb_false (rend it) pn), IH by (auto; lia). split; [auto | by intros [? | ?]; [lia |]].
Qed.

(** Adding a number that is not there: the order is kept and the number is
    the only one that is new. *)
Lemma add_loop_spec pn desc : forall above,
  is_pn pn -> ranges_ok (rev desc ++ above) -> (forall r, r ∈ above -> pn < rbegin r) ->
  ~ seen pn desc ->
  exists l, add_loop pn above desc = (true, l) /\ ranges_ok l /\
    forall q, seen q l <-> q = pn \/ seen q (rev desc ++ above).
Proof.
  induction desc as [| it below IH]; simpl; intros above Hpn Hok Hab Hns.
  - assert (Hnew : ranges_ok (mk_recv_range pn pn :: above)).
    { apply ranges_ok_cons. unfold valid_range, before, is_pn in *. simpl. split_and!; auto; lia. }
    assert (Hq : forall q k, seen q (mk_recv_range pn pn :: k) <-> q = pn \/ seen q k).
    { intros q k. autorewrite with ranges. unfold covers. simpl. intuition lia. }
    destruct above as [| prev more]; [eauto |]. rewrite u64_succ by done.
    destruct (Z.eqb_spec (pn + 1) (rbegin prev)) as [E | E]; [| eauto].
    eexists. split; [done |]. autorewrite with ranges in *. unfold is_pn, valid_range, before in *. simpl.
    split; [intuition lia |]. intros q. autorewrite with ranges. unfold covers. simpl. intuition lia.
  - rewrite <- app_assoc in Hok |- *. simpl in Hok |- *. autorewrite with ranges in *.
    destruct Hok as (Hb & (Hv & Hok & Hia) & Hba). unfold covers, valid_range, before, is_pn in *.
    rewrite (u64_succ (rend it)), (u64_succ pn) by (unfold is_pn; lia).
    destruct (Z.eqb_spec (rend it + 1) pn) as [E | E]; [| destruct (Z.ltb_spec (rend it) (pn + 1)) as [E1 | E1]].
    + set (l := rev below ++ mk_recv_range (rbegin it) pn :: above).
      exists l. split; [| split]; subst l.
      * destruct above as [| prev more]; [done |]. simpl. rewrite eqb_false; [done |].
        specialize (Hab prev ltac:(set_solver)). lia.
      * autorewrite with ranges. split_and!; auto; unfold valid_range, before; simpl; try lia; try done.
        intros r s Hr Hs. specialize (Hba r). set_unfold. destruct Hs as [-> | Hs]; simpl; auto.
      * intros q. autorewrite with ranges. unfold covers. simpl. intuition lia.
    + exists (rev below ++ it :: mk_recv_range pn pn :: above). split; [done | split].
      * autorewrite with ranges. split_and!; auto; unfold valid_range, before; simpl; try lia.
        -- intros s. set_unfold. intros [-> | Hs]; simpl; [lia | auto].
        -- intros r s Hr. specialize (Hba r it Hr ltac:(set_solver)) as Hbi. specialize (Hba r).
           set_unfold. intros [-> | [-> | Hs]]; simpl; [auto | lia | auto].
      * intros q. autorewrite with ranges. unfold covers. simpl. intuition lia.
    + rewrite (leb_true pn (rend it)), andb_true_r by lia.
      destruct (Z.leb_spec (rbegin it) pn); [exfalso; apply Hns; left; lia |].
      destruct (IH (it :: above)) as (l & El & Hl & Hq); auto.
      * autorewrite with ranges. auto.
      * intros r. set_unfold. intros [-> | ?]; auto.
      * exists l. split_and!; auto.
Qed.

Lemma delete_loop_spec pn l :
  0 <= pn -> ranges_ok l ->
  ranges_ok (delete_loop pn l) /\ forall q, seen q (delete_loop pn l) <-> pn <= q /\ seen q l.
Proof.
  intros Hpn. induction l as [| it l IH]; simpl; intros Hok; [split; [done |]; intros; autorewrite with ranges; tauto |].
  autorewrite with ranges in Hok. destruct Hok as (Hv & Hl & Hil). destruct (IH Hl) as [IH1 IH2].
  assert (Hlow : pn <= rend it -> forall q, seen q l -> pn <= q).
  { intros Hp q (s & Hs & Hc). specialize (Hil s Hs). unfold before, covers in *. lia. }
  unfold valid_range, before in *.
  destruct (Z.ltb_spec (rend it) pn); [| rewrite (leb_true pn (rend it)), andb_true_r by lia;
    destruct (Z.leb_spec (rbegin it) pn)].
  - split; [done |]. intros q. rewrite IH2. autorewrite with ranges. unfold covers. intuition lia.
  - autorewrite with ranges. unfold valid_range, before. simpl. split; [intuition lia |].
    intros q. autorewrite with ranges. unfold covers. simpl. specialize (Hlow ltac:(lia) q). intuition lia.
  - autorewrite with ranges. split; [split_and!; auto |].
    + intros s Hs. unfold before. destruct (ranges_ok_valid _ s IH1 Hs) as (? & ? & ?).
      assert (Hseen : seen (rbegin s) (delete_loop pn l)) by (exists s; unfold covers; auto with lia).
      apply IH2 in Hseen as (_ & r & Hr & Hc). specialize (Hil r Hr). unfold covers in Hc. lia.
    + intros q. autorewrite with ranges. rewrite IH2. specialize (Hlow ltac:(lia) q). unfold covers. intuition lia.
Qed.

Lemma is_duplicated_spec pn h :
  ranges_ok (ranges h) -> is_duplicated pn h = true <-> pn < ignore_under h \/ seen pn (ranges h).
Proof.
  intros Hok. unfold is_duplicated. destruct (Z.ltb_spec pn (ignore_under h)); [intuition |].
  rewrite dup_loop_spec by (by rewrite rev_involutive). autorewrite with ranges. intuition lia.
Qed.

Lemma processed_spec pn el h :
  ranges_ok (ranges h) -> is_pn pn -> is_duplicated pn h = false ->
  exists h', on_packet_processed pn el h = (true, h') /\ ranges_ok (ranges h') /\
    ignore_under h' = ignore_under h /\
    (forall q, seen q (ranges h') <-> q = pn \/ seen q (ranges h)).
Proof.
  intros Hok Hpn Hd. unfold on_packet_processed.
  destruct (if lowest h =? infinity then (pn, pn) else _) as [lo hi].
  unfold add_to_range. cbn [ranges ignore_under].
  assert (Hns : ~ (pn < ignore_under h \/ seen pn (ranges h))) by (rewrite <- is_duplicated_spec by done; congruence).
  rewrite ltb_false by lia.
  destruct (add_loop_spec pn (rev (ranges h)) []) as (l & El & Hl & Hq); auto.
  - by rewrite app_nil_r, rev_involutive.
  - intros r Hr. by apply elem_of_nil in Hr.
  - autorewrite with ranges. tauto.
  - rewrite El. eexists. split; [done |]. cbn [set_ranges ranges ignore_under]. split_and!; auto.
    intros q. by rewrite Hq, app_nil_r, rev_involutive.
Qed.

(** ** Histories as traces of events *)

(** What happens to a space: a packet arrives (the connection drops it when
    [is_duplicated]), acknowledged numbers are forgotten, an ACK is sent. *)
Inductive event := Received (pn : Z) (eliciting : bool) | DeleteUnder (pn : Z) | AckSent.

Definition step (h : t) (e : event) : t :=
  match e with
  | Received pn el => if is_duplicated pn h then h else snd (on_packet_processed pn el h)
  | DeleteUnder pn => snd (delete_under pn h)
  | AckSent => on_ack_sent h
  end.

Definition run (evs : list event) : t := fold_left step evs reset.

Definition event_ok (e : event) : Prop :=
  match e with Received pn _ | DeleteUnder pn => is_pn pn | AckSent => True end.

(** The specification: [pn] is a duplicate because of this event. *)
Definition explains (pn : Z) (e : event) : bool :=
  match e with Received q _ => pn =? q | DeleteUnder q => pn <? q | AckSent => false end.

Lemma step_spec h e :
  ranges_ok (ranges h) -> event_ok e ->
  ranges_ok (ranges (step h e)) /\
  forall pn, is_duplicated pn (step h e) = is_duplicated pn h || explains pn e.
Proof.
  intros Hok He. assert (Hgoal : ranges_ok (ranges (step h e)) /\
    forall pn, is_duplicated pn (step h e) = true <-> is_duplicated pn h = true \/ explains pn e = true).
  { destruct e as [q el | q |]; simpl in *.
    - destruct (is_duplicated q h) eqn:Hd.
      + split; [done |]. intros pn. destruct (Z.eqb_spec pn q); subst; intuition congruence.
      + destruct (processed_spec q el h) as (h' & -> & Hok' & Hi & Hq); auto. simpl. split; [done |].
        intros pn. rewrite !is_duplicated_spec, Hi, Hq, Z.eqb_eq by done. intuition lia.
    - unfold delete_under. destruct (Z.ltb_spec q (ignore_under h)); simpl.
      + split; [done |]. intros pn. rewrite is_duplicated_spec, Z.ltb_lt by done. intuition lia.
      + destruct (delete_loop_spec q (ranges h)) as [Hok' Hq]; [unfold is_pn in He; lia | done |].
        split; [done |]. intros pn. rewrite !is_duplicated_spec, Z.ltb_lt by done. simpl. rewrite Hq.
        destruct (Z.lt_ge_cases pn q); intuition lia.
    - split; [done |]. intros pn. rewrite !is_duplicated_spec by done. simpl. intuition congruence. }
  destruct Hgoal as [H1 H2]. split; [done |]. intros pn. apply eq_true_iff_eq. rewrite orb_true_iff. apply H2.
Qed.

Lemma run_spec evs : Forall event_ok evs ->
  ranges_ok (ranges (run evs)) /\ forall pn, 0 <= pn -> is_duplicated pn (run evs) = existsb (explains pn) evs.
Proof.
  unfold run. assert (G : forall h, ranges_ok (ranges h) -> Forall event_ok evs ->
    ranges_ok (ranges (fold_left step evs h)) /\
    forall pn, is_duplicated pn (fold_left step evs h) = is_duplicated pn h || existsb (explains pn) evs).
  { induction evs as [| e evs IH]; simpl; intros h Hok Hev.
    - split; [done |]. intros. by rewrite orb_false_r.
    - inversion Hev; subst. destruct (step_spec h e) as [Hok' Hd]; auto.
      destruct (IH (step h e)) as [H1' H2']; auto. split; [done |]. intros pn. by rewrite H2', Hd, orb_assoc. }
  intros Hev. destruct (G reset) as [H1 H2]; auto; [split; constructor |].
  split; [done |]. intros pn Hpn. rewrite H2. unfold is_duplicated. simpl. by rewrite ltb_false.
Qed.

(** ** The ranges that are acknowledged *)

Definition acked (pn : Z) (l : list ACKRange) : Prop :=
  exists r, r ∈ l /\ smallest r <= pn <= FrameAck.largest r.

(** At least one number is missing between two ranges. *)
Definition gapped (l : list RecvRange) : Prop :=
  StronglySorted (fun r s => rend r + 1 < rbegin s) l.

Lemma ranges_loop_acked lo hi desc :
  ranges_ok (rev desc) -> forall q, acked q (ranges_loop lo hi desc) <-> lo <= q <= hi /\ seen q desc.
Proof.
  induction desc as [| it below IH]; simpl; intros Hok q; [unfold acked, seen; set_solver |].
  autorewrite with ranges in *. destruct Hok as (Hb & (Hv & _ & _) & Hlt). specialize (IH Hb q).
  assert (Hlow : seen q below -> q < rbegin it).
  { intros (s & Hs & Hc). specialize (Hlt s it ltac:(by rewrite elem_of_rev) ltac:(set_solver)).
    unfold before, covers in *. lia. }
  unfold covers, valid_range in *.
  destruct (Z.ltb_spec hi (rbegin it)); [rewrite IH; intuition lia |].
  destruct (Z.ltb_spec (rend it) lo); [unfold acked; split; [set_solver | intuition lia] |].
  assert (E : forall x l, acked q (x :: l) <-> smallest x <= q <= FrameAck.largest x \/ acked q l)
    by (intros; unfold acked; set_solver).
  rewrite E, IH. simpl. zcases; intuition lia.
Qed.

Lemma ranges_loop_separated lo hi desc : forall low,
  0 <= lo <= hi -> ranges_ok (rev desc) -> gapped (rev desc) ->
  (forall r, r ∈ desc -> hi + 2 <= low \/ rend r + 2 <= low) ->
  separated_after low (ranges_loop lo hi desc).
Proof.
  induction desc as [| it below IH]; simpl; intros low Hlo Hok Hg Hlow; [done |].
  autorewrite with ranges in *. destruct Hok as (Hb & (Hv & _ & _) & _).
  unfold gapped in *. rewrite StronglySorted_app in Hg. destruct Hg as (Hx & Hg & _).
  assert (Hbelow : forall r, r ∈ below -> rend r + 2 <= rbegin it).
  { intros r Hr. specialize (Hx r it ltac:(by rewrite elem_of_rev) ltac:(set_solver)). lia. }
  assert (Hit := Hlow it ltac:(set_solver)). unfold valid_range in Hv.
  destruct (Z.ltb_spec hi (rbegin it)); [apply IH; auto; set_solver |].
  destruct (Z.ltb_spec (rend it) lo); [done |].
  simpl. split; [zcases | split; [zcases |]]. apply IH; auto. intros r Hr. specialize (Hbelow r Hr). zcases.
Qed.

Lemma separated_bounded l : l <> [] -> separated_after (2 ^ 62 + 1) l -> separated l.
Proof. destruct l as [| r l]; [done |]. simpl. intros _ (? & ? & ?). split_and!; auto; lia. Qed.

Lemma ranges_loop_size lo hi desc : size (ranges_loop lo hi desc) <= size desc.
Proof.
  induction desc as [| it below IH]; simpl; [done |]. autorewrite with size.
  pose proof (size_nonneg (ranges_loop lo hi below)). pose proof (size_nonneg below).
  repeat zcase_one; autorewrite with size; lia.
Qed.

Lemma size_rev {A} (l : list A) : size (rev l) = size l.
Proof. unfold size. by rewrite length_rev. Qed.

(** What the window of a history acknowledges. *)
Lemma get_ranges_acked h :
  ranges_ok (ranges h) -> lowest h <> infinity -> largest h <> infinity ->
  forall q, acked q (get_ranges h) <-> lowest h <= q <= largest h /\ seen q (ranges h).
Proof.
  intros Hok H1 H2 q. unfold get_ranges. rewrite !eqb_false by done. simpl.
  rewrite ranges_loop_acked by (by rewrite rev_involutive). by autorewrite with ranges.
Qed.

Lemma get_ranges_separated h :
  ranges_ok (ranges h) -> gapped (ranges h) -> 0 <= lowest h <= largest h -> largest h < 2 ^ 62 ->
  get_ranges h <> [] -> separated (get_ranges h).
Proof.
  intros Hok Hg Hw Hl Hne. apply separated_bounded; [done |]. unfold get_ranges in *.
  destruct ((largest h =? infinity) || (lowest h =? infinity)); [done |].
  apply ranges_loop_separated; rewrite ?rev_involutive; auto. intros; lia.
Qed.

Lemma get_ranges_size h : size (get_ranges h) <= size (ranges h).
Proof.
  unfold get_ranges. destruct ((largest h =? infinity) || (lowest h =? infinity)); [apply size_nonneg |].
  rewrite <- (size_rev (ranges h)). apply ranges_loop_size.
Qed.

Lemma acked_nonempty q l : acked q l -> l <> [].
Proof. intros (r & Hr & _) ->. by apply elem_of_nil in Hr. Qed.

(** ** Writing the ACK frame *)

Definition delay_ok (config : Config) (delay : option Z) : Prop :=
  match delay with
  | Some d => 0 <= d < 2 ^ 62 /\ 0 <= local_ack_delay_exponent config <= 30
  | None => True
  end.

Lemma encode_ack_delay_small d e :
  0 <= d < 2 ^ 62 -> 0 <= e <= 30 ->
  exists v, encode_ack_delay d e = Some v /\ 0 <= v < 2 ^ 62.
Proof.
  intros Hd He. unfold encode_ack_delay, shl_int. rewrite (leb_true 0 e), ltb_true by lia. simpl.
  assert (1 <= 2 ^ e <= 2 ^ 30) by (split; [apply (Z.pow_le_mono_r 2 0); lia | apply Z.pow_le_mono_r; lia]).
  rewrite s32_small, u64_small by (unfold is_u64; lia). eexists. split; [done |].
  split; [apply Z.div_pos; lia |]. apply Z.le_lt_trans with d; [apply Z.div_le_upper_bound; nia | lia].
Qed.

(** The delay field does not matter for what the frame acknowledges. *)
Lemma set_ack_delay_spec v f :
  0 <= v < 2 ^ 62 -> wf f ->
  wf (set_ack_delay v f) /\ convert_from_ACKFrame (canon (set_ack_delay v f)) = convert_from_ACKFrame (canon f).
Proof.
  intros Hv (H1 & H2 & H3 & H4 & H5 & H6 & H7). split; [| done].
  split; [exact H1 | split; [by apply writable_uint |]].
  split; [exact H3 | split; [exact H4 | split; [exact H5 | split; [exact H6 | exact H7]]]].
Qed.

Definition with_delay (config : Config) (delay : option Z) (f : ACKFrame.t) : option ACKFrame.t :=
  match delay with
  | Some d => v ← encode_ack_delay d (local_ack_delay_exponent config); Some (set_ack_delay v f)
  | None => Some f
  end.

Lemma with_delay_spec config delay f :
  delay_ok config delay -> wf f ->
  exists f', with_delay config delay f = Some f' /\ wf f' /\
    convert_from_ACKFrame (canon f') = convert_from_ACKFrame (canon f).
Proof.
  destruct delay as [d |]; simpl; [| eauto]. intros [Hd He] Hwf.
  destruct (encode_ack_delay_small _ _ Hd He) as (v & -> & Hv). simpl. eexists. split; [done |].
  by apply set_ack_delay_spec.
Qed.

Lemma send_eq w b delay config h :
  ack_eliciting h <> 0 -> get_ranges h <> [] ->
  send w b delay config h =
    let '(f, ok) := convert_to_ACKFrame (get_ranges h) in
    if negb ok then Some (io_fatal, w, get_ranges h, h, infinity)
    else
      f ← with_delay config delay f;
      let '(res, w') := write_checked f w in
      Some (if bool_decide (res = io_ok)
            then (res, w', get_ranges h, on_ack_sent h, varint.value (ACKFrame.largest_ack f))
            else (res, w', get_ranges h, h, infinity)).
Proof.
  intros Hn Hne. unfold send. rewrite eqb_false by done.
  assert (size (get_ranges h) <> 0) by (unfold size; destruct (get_ranges h); simpl; [done | lia]).
  by rewrite eqb_false.
Qed.

(** Separated ranges are sent whenever there is room. *)
Lemma send_spec w b delay config h :
  separated (get_ranges h) -> size (get_ranges h) < 2 ^ 62 -> ack_eliciting h <> 0 ->
  delay_ok config delay -> wr_ok (fw_w w) ->
  exists f, wf f /\ convert_from_ACKFrame (canon f) = (get_ranges h, true) /\
    send w b delay config h =
      Some (if wr_room (fw_w w) <? flen f false then (no_capacity, w, get_ranges h, h, infinity)
            else (io_ok,
                  mk_fwriter (wr_put (fw_w w) (wire f))
                    (PacketStatus.add_frame (get_type f false) (fw_status w)) (get_type f false),
                  get_ranges h, on_ack_sent h, varint.value (ACKFrame.largest_ack f))).
Proof.
  intros Hs Hn He Hd Hw. destruct (convert_to_spec _ Hs Hn) as (f & E & Hwf & _ & Hc).
  destruct (with_delay_spec config delay f Hd Hwf) as (f' & E' & Hwf' & Hc').
  exists f'. split; [done | split; [congruence |]].
  rewrite send_eq by (auto; by destruct (get_ranges h)). rewrite E. cbn [negb]. rewrite E'. cbn [mbind option_bind].
  rewrite write_checked_spec by done. destruct (wr_room (fw_w w) <? flen f' false).
  - by rewrite bool_decide_false.
  - by rewrite bool_decide_true.
Qed.

(** ** Filling a hole *)

(** Ranges above [pn] are passed over. *)
Lemma add_loop_skip pn k : forall above desc,
  is_pn pn -> (forall r, r ∈ k -> valid_range r /\ pn < rbegin r) ->
  add_loop pn above (rev k ++ desc) = add_loop pn (k ++ above) desc.
Proof.
  induction k as [| r k IH] using rev_ind; intros above desc Hpn Hk; [done |].
  rewrite rev_app_distr. simpl.
  destruct (Hk r) as [(Hv1 & Hv2 & Hv3) Hr]; [set_solver |].
  rewrite (u64_succ (rend r)), (u64_succ pn) by (unfold is_pn in *; lia).
  rewrite eqb_false, ltb_false, (leb_false (rbegin r)) by lia. simpl.
  rewrite IH; [by rewrite <- app_assoc | done | intros s Hs; apply Hk; set_solver].
Qed.

Lemma fill_hole l1 r1 r2 l2 :
  ranges_ok (l1 ++ r1 :: r2 :: l2) -> rend r1 + 2 = rbegin r2 ->
  add_loop (rend r1 + 1) [] (rev (l1 ++ r1 :: r2 :: l2)) =
    (true, l1 ++ mk_recv_range (rbegin r1) (rend r1 + 1) :: r2 :: l2).
Proof.
  intros Hok Hh. pose proof Hok as Hok'. autorewrite with ranges in Hok'.
  destruct Hok' as (_ & (Hv1 & (Hv2 & Hl2 & H22) & _) & _).
  assert (Hpn : is_pn (rend r1 + 1)) by (unfold is_pn, valid_range in *; lia).
  rewrite rev_app_distr. simpl. rewrite <- (app_assoc (rev l2 ++ [r2])). simpl.
  change (rev l2 ++ [r2]) with (rev (r2 :: l2)). rewrite add_loop_skip; auto.
  - rewrite app_nil_r. simpl. rewrite u64_succ, (eqb_true (rend r1 + 1)) by (unfold is_pn, valid_range in *; lia).
    rewrite eqb_false by lia. by rewrite rev_involutive.
  - intros r. set_unfold. intros [-> | Hr]; [unfold valid_range in *; split; [done | lia] |].
    split; [by eapply ranges_ok_valid |]. specialize (H22 r Hr). unfold before, valid_range in *. lia.
Qed.

Lemma ranges_loop_above lo hi k : forall desc,
  (forall r, r ∈ k -> lo <= rend r) ->
  ranges_loop lo hi (k ++ desc) = ranges_loop lo hi k ++ ranges_loop lo hi desc.
Proof.
  induction k as [| r k IH]; intros desc Hk; [done |]. simpl.
  rewrite (ltb_false (rend r) lo) by (apply Hk; set_solver). rewrite IH by set_solver.
  by destruct (hi <? rbegin r).
Qed.

Lemma zip_tail_exists {A} (P : A * A -> Prop) x y r : forall k,
  P (x, y) -> Exists P (zip (k ++ x :: y :: r) (drop 1 (k ++ x :: y :: r))).
Proof.
  induction k as [| a k IH]; intros H; [by left |]. specialize (IH H).
  destruct k; simpl in *; rewrite ?drop_0 in *; right; done.
Qed.

(** Two ranges that touch are still two ranges in what is acknowledged. *)
Lemma get_ranges_adjacent h l1 r1 r2 l2 :
  ranges h = l1 ++ r1 :: r2 :: l2 -> ranges_ok (ranges h) -> rend r1 + 1 = rbegin r2 ->
  lowest h <= rend r1 -> rbegin r2 <= largest h -> largest h <> infinity -> lowest h <> infinity ->
  Exists (fun p => FrameAck.largest (snd p) + 1 = smallest (fst p)) (zip (get_ranges h) (drop 1 (get_ranges h))).
Proof.
  intros E Hok Hadj Hlo Hhi H1 H2. unfold get_ranges. rewrite !eqb_false by done. simpl. rewrite E in *.
  autorewrite with ranges in Hok. destruct Hok as (_ & (Hv1 & (Hv2 & Hl2 & H22) & _) & _).
  rewrite rev_app_distr. simpl. rewrite <- !app_assoc. simpl.
  rewrite ranges_loop_above.
  - simpl. unfold valid_range in *.
    rewrite (ltb_false (largest h) (rbegin r2)), (ltb_false (rend r2)), (ltb_false (rbegin r2)) by lia.
    rewrite (ltb_false (largest h) (rbegin r1)), (ltb_false (rend r1)), (ltb_false (largest h) (rend r1)) by lia.
    apply zip_tail_exists. simpl. lia.
  - intros r Hr. rewrite elem_of_rev in Hr. specialize (H22 r Hr). pose proof (ranges_ok_valid _ _ Hl2 Hr).
    unfold before, valid_range in *. lia.
Qed.

Lemma get_ranges_valid h :
  ranges_ok (ranges h) -> 0 <= lowest h <= largest h ->
  Forall (fun r => 0 <= smallest r <= FrameAck.largest r) (get_ranges h).
Proof.
  intros Hok Hw. unfold get_ranges. destruct ((largest h =? infinity) || _); [constructor |].
  assert (Hv : Forall valid_range (rev (ranges h))) by (apply Forall_rev, Hok).
  induction Hv as [| r l (? & ? & ?) _ IH]; simpl; [constructor |].
  destruct (Z.ltb_spec (largest h) (rbegin r)); [done |].
  destruct (Z.ltb_spec (rend r) (lowest h)); constructor; auto; simpl; zcases.
Qed.

(** A history with touching ranges in its window sends nothing. *)
Lemma send_adjacent_fails w b delay config h res w' b' h' la :
  Forall (fun r => 0 <= smallest r <= FrameAck.largest r) (get_ranges h) ->
  Exists (fun p => FrameAck.largest (snd p) + 1 = smallest (fst p)) (zip (get_ranges h) (drop 1 (get_ranges h))) ->
  ack_eliciting h <> 0 ->
  send w b delay config h = Some (res, w', b', h', la) -> (res = no_capacity \/ res = io_fatal) /\ h' = h.
Proof.
  intros Hv Hex He. destruct (get_ranges h) as [| r l] eqn:Eg; [by inversion Hex |]. simpl in Hex.
  rewrite send_eq, Eg by (auto; congruence). unfold convert_to_ACKFrame.
  destruct (is_sorted_ack_ranges (r :: l)); cbn [negb]; [| intros [= <- <- <- <- <-]; auto].
  set (f := ACKFrame.mk _ _ _ _ _ _ _).
  destruct (with_delay config delay f) as [f' |] eqn:Ed; [| done]. simpl.
  assert (Hr : forall w, fst (render f' w) = false).
  { intros x. destruct delay as [d |]; simpl in Ed.
    - destruct (encode_ack_delay d _); [| done]. simpl in Ed. injection Ed as <-. by apply adjacent_render_fails.
    - injection Ed as <-. by apply adjacent_render_fails. }
  unfold write_checked, fw_write. destruct (size (fw_remain w) <? flen f' false).
  - rewrite bool_decide_false by done. intros [= <- <- <- <- <-]. auto.
  - specialize (Hr (fw_w w)). destruct (render f' (fw_w w)) as [ok x]. simpl in Hr. subst ok. cbn [negb].
    rewrite bool_decide_false by done. intros [= <- <- <- <- <-]. auto.
Qed.

(** ** What has to be acknowledged *)

(** The packets that arrived, were not duplicates, and came after the last
    ACK. *)
Definition note (s : t * list Z) (e : event) : t * list Z :=
  let '(h, l) := s in
  (step h e,
   match e with
   | Received pn _ => if is_duplicated pn h then l else pn :: l
   | DeleteUnder _ => l
   | AckSent => []
   end).
Definition trace (evs : list event) : t * list Z := fold_left note evs (reset, []).
Definition pending (evs : list event) : list Z := snd (trace evs).

Definition event_small (e : event) : Prop :=
  match e with Received pn _ | DeleteUnder pn => 0 <= pn < 2 ^ 62 | AckSent => True end.

Lemma event_small_ok e : event_small e -> event_ok e.
Proof. destruct e; simpl; unfold is_pn; lia. Qed.

Lemma trace_snoc evs e : trace (evs ++ [e]) = note (trace evs) e.
Proof. unfold trace. by rewrite fold_left_app. Qed.

Lemma trace_run evs : fst (trace evs) = run evs.
Proof.
  induction evs as [| e evs IH] using rev_ind; [done |]. rewrite trace_snoc. unfold run in *.
  rewrite fold_left_app. simpl. rewrite <- IH. by destruct (trace evs).
Qed.

Lemma run_snoc evs e : run (evs ++ [e]) = step (run evs) e.
Proof. unfold run. by rewrite fold_left_app. Qed.

Definition window_ok (h : t) : Prop :=
  lowest h = infinity /\ largest h = infinity \/ 0 <= lowest h <= largest h /\ largest h < 2 ^ 62.

(** The window always spans what is pending, and what is pending is there
    unless it was deleted. *)
Definition pending_inv (h : t) (l : list Z) : Prop :=
  window_ok h /\
  forall pn, pn ∈ l -> lowest h <= pn <= largest h /\ largest h < 2 ^ 62 /\ (ignore_under h <= pn -> seen pn (ranges h)).

Lemma processed_window pn el h :
  window_ok h -> 0 <= pn < 2 ^ 62 ->
  let h' := snd (on_packet_processed pn el h) in
  0 <= lowest h' <= largest h' /\ largest h' < 2 ^ 62 /\ lowest h' <= pn <= largest h' /\
  (lowest h <> infinity -> lowest h' <= lowest h /\ largest h <= largest h').
Proof.
  intros Hw Hpn h'. assert (Hinf : infinity = 2 ^ 64 - 1) by reflexivity.
  subst h'. unfold on_packet_processed, window_ok in *.
  destruct (Z.eqb_spec (lowest h) infinity) as [E | E].
  all: unfold add_to_range; cbn [ranges ignore_under];
    destruct (pn <? ignore_under h); [| destruct (add_loop pn [] (rev (ranges h)))]; simpl; zcases.
Qed.

Lemma pending_inv_step h l e :
  ranges_ok (ranges h) -> event_small e -> pending_inv h l -> pending_inv (fst (note (h, l) e)) (snd (note (h, l) e)).
Proof.
  intros Hok He [Hw Hp]. assert (Hinf : infinity = 2 ^ 64 - 1) by reflexivity.
  destruct e as [q el | q |]; simpl in *.
  - destruct (is_duplicated q h) eqn:Hd; [done |].
    destruct (processed_spec q el h) as (h' & E & Hok' & Hi & Hq); auto; [unfold is_pn; lia |].
    pose proof (processed_window q el h Hw He) as Hwin. rewrite E in *. simpl in *.
    destruct Hwin as (W1 & W2 & W3 & W4). split; [right; lia |].
    intros pn Hpn. apply elem_of_cons in Hpn as [-> | Hpn]; [split_and!; try lia; intros; apply Hq; auto |].
    destruct (Hp pn Hpn) as (P1 & P2 & P3). rewrite Hi. assert (lowest h <> infinity) by lia.
    split_and!; try lia. intros. apply Hq. auto.
  - unfold delete_under. destruct (Z.ltb_spec q (ignore_under h)); simpl; [done |]. split; [done |]. simpl.
    intros pn Hpn. destruct (Hp pn Hpn) as (P1 & P2 & P3). split_and!; try lia.
    intros. apply delete_loop_spec; auto with lia.
  - split; [left; done |]. intros pn Hpn. by apply elem_of_nil in Hpn.
Qed.

Lemma pending_run evs : Forall event_small evs -> pending_inv (run evs) (pending evs).
Proof.
  unfold pending. rewrite <- trace_run. induction evs as [| e evs IH] using rev_ind.
  - intros _. split; [left; done |]. intros pn Hpn. by apply elem_of_nil in Hpn.
  - intros Hev. apply Forall_app in Hev as [Hev He]. inversion He; subst.
    rewrite trace_snoc. assert (Hok : ranges_ok (ranges (fst (trace evs)))).
    { rewrite trace_run. apply run_spec. by eapply Forall_impl, event_small_ok. }
    destruct (trace evs) as [h l]. apply pending_inv_step; auto.
Qed.

(** Nothing is in the history that did not arrive. *)
Lemma seen_received evs pn :
  Forall event_small evs -> seen pn (ranges (run evs)) -> exists el, Received pn el ∈ evs.
Proof.
  induction evs as [| e evs IH] using rev_ind; intros Hev Hs; [by apply seen_nil in Hs |].
  apply Forall_app in Hev as [Hev He]. inversion He as [| ? ? He' _]; subst.
  assert (Hok : ranges_ok (ranges (run evs))) by (apply run_spec; by eapply Forall_impl, event_small_ok).
  rewrite run_snoc in Hs. setoid_rewrite elem_of_app.
  destruct e as [q el | q |]; simpl in *.
  - destruct (is_duplicated q (run evs)) eqn:Hd; [destruct (IH Hev Hs); eauto |].
    destruct (processed_spec q el (run evs)) as (h' & E & _ & _ & Hq); auto; [unfold is_pn; lia |].
    rewrite E in Hs. simpl in Hs. apply Hq in Hs as [-> | Hs]; [exists el; right; set_solver |].
    destruct (IH Hev Hs); eauto.
  - unfold delete_under in Hs. destruct (q <? ignore_under (run evs)); simpl in Hs.
    + destruct (IH Hev Hs); eauto.
    + apply delete_loop_spec in Hs as [_ Hs]; auto with lia. destruct (IH Hev Hs); eauto.
  - destruct (IH Hev Hs); eauto.
Qed.
End HistoryFacts.

(** * Properties *)

Import RecvSpaceHistory HistoryFacts.

(** C16. The duplicate test is exact over the whole life of a packet number
    space: after any sequence of arrivals, deletions and ACKs, the stored
    ranges are ascending and disjoint, a packet number counts as a duplicate
    exactly when it arrived before or lies under a deleted bound, and a
    number that is not a duplicate is recorded. *)
Theorem recv_history_exact evs :
  Forall event_ok evs ->
  ranges_ok (ranges (run evs)) /\
  (forall pn, 0 <= pn -> is_duplicated pn (run evs) = existsb (explains pn) evs) /\
  (forall pn el, is_pn pn -> is_duplicated pn (run evs) = false ->
     fst (on_packet_processed pn el (run evs)) = true).
Proof.
  intros Hev. destruct (run_spec evs Hev) as [Hok Hd]. split_and!; auto.
  intros pn el Hpn Hn. by destruct (processed_spec pn el (run evs)) as (h' & -> & _).
Qed.

Lemma recv_history_exact_witness :
  let evs := [Received 5 true; Received 3 true; Received 4 false; DeleteUnder 4; AckSent; Received 9 true] in
  is_duplicated 3 (run evs) = true /\ is_duplicated 5 (run evs) = true /\
  is_duplicated 6 (run evs) = false /\ fst (on_packet_processed 6 true (run evs)) = true.
Proof.
  pose proof (recv_history_exact
    [Received 5 true; Received 3 true; Received 4 false; DeleteUnder 4; AckSent; Received 9 true]
    ltac:(repeat constructor; unfold is_pn; simpl; lia)) as (_ & H & H').
  cbv zeta. rewrite !H by lia. do 3 (split; [reflexivity |]).
  apply H'; [unfold is_pn; lia | by rewrite H by lia].
Defined.

(** C38. ACKs tell the truth and leave nothing out: when the numbers received
    so far leave a gap between any two stored ranges, [send] writes, as soon
    as there is room, a well-formed ACK frame; what the peer decodes from it
    are only packets that did arrive, and all those that arrived since the
    last ACK and were not deleted since. The history then starts a new
    period. *)
Theorem recv_send_acks evs w b delay config :
  Forall event_small evs -> let h := run evs in
  gapped (ranges h) -> size (ranges h) < 2 ^ 62 -> ack_eliciting h <> 0 ->
  (exists pn, pn ∈ pending evs /\ ignore_under h <= pn) ->
  delay_ok config delay -> wr_ok (fw_w w) ->
  exists f ranges, wf f /\ convert_from_ACKFrame (canon f) = (ranges, true) /\
    send w b delay config h =
      Some (if wr_room (fw_w w) <? flen f false then (no_capacity, w, ranges, h, infinity)
            else (io_ok,
                  mk_fwriter (wr_put (fw_w w) (wire f))
                    (PacketStatus.add_frame (get_type f false) (fw_status w)) (get_type f false),
                  ranges, on_ack_sent h, varint.value (ACKFrame.largest_ack f))) /\
    (forall pn, acked pn ranges -> exists el, Received pn el ∈ evs) /\
    (forall pn, pn ∈ pending evs -> ignore_under h <= pn -> acked pn ranges).
Proof.
  intros Hev h Hg Hn He (p & Hp & Hpi) Hd Hw. assert (Hinf : infinity = 2 ^ 64 - 1) by reflexivity.
  destruct (run_spec evs ltac:(by eapply Forall_impl, event_small_ok)) as [Hok _]. fold h in Hok.
  destruct (pending_run evs Hev) as [Hwin Hpend]. fold h in Hwin, Hpend.
  destruct (Hpend p Hp) as (P1 & P2 & _). unfold window_ok in Hwin.
  assert (Hacked := get_ranges_acked h Hok ltac:(lia) ltac:(lia)).
  assert (Hall : forall pn, pn ∈ pending evs -> ignore_under h <= pn -> acked pn (get_ranges h)).
  { intros pn Hpn Hi. apply Hacked. destruct (Hpend pn Hpn) as (? & _ & ?). auto. }
  destruct (send_spec w b delay config h) as (f & Hwf & Hc & Hs); auto.
  - apply get_ranges_separated; auto; try lia. by eapply acked_nonempty, Hall.
  - pose proof (get_ranges_size h). lia.
  - exists f, (get_ranges h). split_and!; auto.
    intros pn Hpn. apply Hacked in Hpn as [_ Hpn]. by apply seen_received.
Qed.

Lemma recv_send_acks_witness :
  let evs := [Received 5 true; Received 6 true; Received 9 false] in
  let w := mk_fwriter (new_writer (replicate 30 0)) 0 0 in
  exists f ranges, wf f /\ convert_from_ACKFrame (canon f) = (ranges, true) /\
    send w [] (Some 1000) default_config (run evs) =
      Some (if wr_room (fw_w w) <? flen f false then (no_capacity, w, ranges, run evs, infinity)
            else (io_ok,
                  mk_fwriter (wr_put (fw_w w) (wire f))
                    (PacketStatus.add_frame (get_type f false) (fw_status w)) (get_type f false),
                  ranges, on_ack_sent (run evs), varint.value (ACKFrame.largest_ack f))) /\
    (forall pn, acked pn ranges -> exists el, Received pn el ∈ evs) /\
    (forall pn, pn ∈ pending evs -> ignore_under (run evs) <= pn -> acked pn ranges).
Proof.
  apply (recv_send_acks [Received 5 true; Received 6 true; Received 9 false]).
  - repeat constructor; simpl; lia.
  - vm_compute. repeat constructor.
  - vm_compute. reflexivity.
  - vm_compute. discriminate.
  - exists 9. split; [vm_compute; repeat constructor | vm_compute; discriminate].
  - simpl. lia.
  - split; vm_compute; [lia | discriminate].
Defined.

(** A hole that is filled stops acknowledgements: when exactly one number
    is missing between two stored ranges, a later packet arrived since the
    last ACK, and the missing one then arrives, the two ranges touch but stay
    apart in the list, and every attempt to send an ACK ends without room or
    with a fatal result and leaves the history as it is. *)
Theorem gap_fill_never_acked h l1 r1 r2 l2 el :
  ranges h = l1 ++ r1 :: r2 :: l2 -> ranges_ok (ranges h) -> rend r1 + 2 = rbegin r2 ->
  ignore_under h <= rend r1 + 1 ->
  0 <= lowest h <= largest h -> rend r1 + 1 < largest h < 2 ^ 62 ->
  (el = true /\ 0 <= ack_eliciting h < 2 ^ 64 - 1 \/ ack_eliciting h <> 0 /\ el = false) ->
  is_duplicated (rend r1 + 1) h = false /\
  exists h', on_packet_processed (rend r1 + 1) el h = (true, h') /\
    forall w b delay config res w' b' h'' la,
      send w b delay config h' = Some (res, w', b', h'', la) ->
      (res = no_capacity \/ res = io_fatal) /\ h'' = h'.
Proof.
  intros E Hok Hh Hi Hlo Hhi He. assert (Hinf : infinity = 2 ^ 64 - 1) by reflexivity.
  assert (Hd : is_duplicated (rend r1 + 1) h = false).
  { apply not_true_is_false. rewrite is_duplicated_spec by done. intros [? | Hs]; [lia |].
    rewrite E in *. autorewrite with ranges in *. destruct Hok as (_ & (Hv1 & (Hv2 & Hl2 & H22) & _) & Hb).
    unfold covers, valid_range in *. destruct Hs as [(s & Hs & Hc) | [? | [? | (s & Hs & Hc)]]]; try lia; unfold covers in Hc.
    - specialize (Hb s r1 Hs ltac:(set_solver)). unfold before in *. lia.
    - specialize (H22 s Hs). unfold before in *. lia. }
  split; [done |].
  destruct (processed_spec (rend r1 + 1) el h) as (h' & Eh & Hok' & _); auto; [unfold is_pn; pose proof (ranges_ok_valid _ r1 Hok ltac:(rewrite E; set_solver)) as (? & ? & ?); lia |].
  exists h'. split; [done |]. intros w b delay config res w' b' h'' la.
  assert (Hh' : ranges h' = l1 ++ mk_recv_range (rbegin r1) (rend r1 + 1) :: r2 :: l2 /\
    lowest h' = Z.min (lowest h) (rend r1 + 1) /\ largest h' = largest h /\ ack_eliciting h' <> 0).
  { revert Eh. unfold on_packet_processed. rewrite eqb_false by lia. unfold add_to_range. cbn [ranges ignore_under].
    rewrite (ltb_false (rend r1 + 1) (ignore_under h)) by lia. rewrite E, fill_hole by (rewrite <- ?E; done).
    intros [= <-]. simpl. split_and!; [done | zcases | zcases |].
    destruct He as [[-> ?] | [? ->]]; [rewrite u64_small by (unfold is_u64; lia); lia | done]. }
  destruct Hh' as (Hr & Hlw & Hlg & Ha). pose proof (ranges_ok_valid _ r1 Hok ltac:(rewrite E; set_solver)) as (? & ? & ?).
  apply send_adjacent_fails; auto.
  - apply get_ranges_valid; [done | lia].
  - eapply get_ranges_adjacent; eauto; simpl; lia.
Qed.

Lemma gap_fill_never_acked_witness :
  let h := run [Received 1 true; Received 3 true] in
  is_duplicated 2 h = false /\
  exists h', on_packet_processed 2 true h = (true, h') /\
    forall w b delay config res w' b' h'' la,
      send w b delay config h' = Some (res, w', b', h'', la) ->
      (res = no_capacity \/ res = io_fatal) /\ h'' = h'.
Proof.
  apply (gap_fill_never_acked (run [Received 1 true; Received 3 true]) [] (mk_recv_range 1 1) (mk_recv_range 3 3) []).
  - reflexivity.
  - apply run_spec. repeat constructor; simpl; unfold is_pn; lia.
  - reflexivity.
  - vm_compute. discriminate.
  - vm_compute. split; discriminate.
  - vm_compute. split; [reflexivity | reflexivity].
  - left. split; [reflexivity |]. vm_compute. split; [discriminate | reflexivity].
Defined.
