(* ===== verification/Rtt.v ===== *)
(** * Rtt: round-trip estimation, handshake state and probe timeouts

    Models [fnet/quic/status/rtt.h], [status/handshake.h] and
    [status/pto.h]. *)

From stdpp Require Import base list numbers sets.
From Stdlib Require Import ZArith Lia.
From S2P Require Import Prelude QTime.

(** ** [struct RTT] *)

Module RTT.

Record t := mk {
  latest_rtt : Z;
  min_rtt : Z;
  smoothed_rtt : Z;
  rttvar : Z;
  peer_max_ack_delay : Z;
  first_ack_sample : Z
}.

Definition new : t := mk 0 0 (-1) (-1) time.invalid 0.

Definition has_first_ack_sample (r : t) : bool := negb (first_ack_sample r =? 0).

Definition reset (config : Config) : t :=
  let s := time.to_clock_granularity (clock config) (initial_rtt config) in
  mk 0 0 s (Z.shiftr s 1) time.invalid 0.

Definition on_connection_migrate (config : Config) (r : t) : t :=
  let s := time.to_clock_granularity (clock config) (initial_rtt config) in
  mk 0 0 s (Z.shiftr s 1) (peer_max_ack_delay r) (first_ack_sample r).

(** [now1] and [now2] are the two readings of the clock; [ack_delay] is a
    [utime_t], so the sums with it are unsigned. *)
Definition sample_rtt (now1 now2 time_sent ack_delay : Z) (r : t) : bool * t :=
  let rtt := s64 (now1 - time_sent) in
  if rtt <? 0 then (false, r)
  else if first_ack_sample r =? 0 then
    (true, mk rtt rtt rtt (Z.quot rtt 2) (peer_max_ack_delay r) now2)
  else
    let min_rtt := min_ (min_rtt r) rtt in
    let ack_delay :=
      if 0 <=? peer_max_ack_delay r then min_ ack_delay (peer_max_ack_delay r) else ack_delay in
    let adjusted_rtt :=
      if u64 (min_rtt + ack_delay) <=? u64 rtt then s64 (rtt - ack_delay) else rtt in
    let rttvar_sample := abs_ (s64 (smoothed_rtt r - adjusted_rtt)) in
    let rttvar := Z.shiftr (s64 (3 * rttvar r + rttvar_sample)) 2 in
    let smoothed_rtt := Z.shiftr (s64 (7 * smoothed_rtt r + adjusted_rtt)) 3 in
    (true, mk rtt min_rtt smoothed_rtt rttvar (peer_max_ack_delay r) (first_ack_sample r)).

Definition apply_max_ack_delay (time : Z) (r : t) : t :=
  mk (latest_rtt r) (min_rtt r) (smoothed_rtt r) (rttvar r) (s64 time) (first_ack_sample r).

Definition max_ack_delay (r : t) : Z := if peer_max_ack_delay r <=? 0 then 0 else peer_max_ack_delay r.

End RTT.

(** ** [struct HandshakeStatus] *)

Module HandshakeStatus.

Definition flag_is_sever : Z := 0x01.
Definition flag_has_sent_handshake : Z := 0x02.
Definition flag_has_received_handshake : Z := 0x04.
Definition flag_has_received_handshake_ack : Z := 0x08.
Definition flag_handshake_confirmed : Z := 0x10.
Definition flag_handshake_complete : Z := 0x20.
Definition flag_retry_received : Z := 0x40.
Definition flag_has_received_packet : Z := 0x80.
Definition flag_retry_required : Z := 0x100.
Definition flag_retry_sent : Z := 0x200.
Definition flag_started : Z := 0x400.
Definition flag_peer_validated_by_token : Z := 0x800.
Definition flag_transport_parameter_read : Z := 0x1000.

Record t := mk { sent_bytes : Z; recv_bytes : Z; flag : Z }.

Definition has (f : Z) (h : t) : bool := negb (Z.land (flag h) f =? 0).
Definition add_flag (f : Z) (h : t) : t := mk (sent_bytes h) (recv_bytes h) (Z.lor (flag h) f).

Definition reset (local_is_server : bool) : t :=
  mk 0 0 (Z.lor 0 (if local_is_server then flag_is_sever else 0)).

Definition has_received_packet : t -> bool := has flag_has_received_packet.

Definition on_packet_sent (space : PacketNumberSpace) (size : Z) (h : t) : t :=
  let h := mk (u64 (sent_bytes h + size)) (recv_bytes h) (flag h) in
  if bool_decide (space = handshake) then add_flag flag_has_sent_handshake h else h.

Definition on_datagram_received (size : Z) (h : t) : t :=
  mk (sent_bytes h) (u64 (recv_bytes h + size)) (flag h).

Definition on_packet_decrypted (space : PacketNumberSpace) (h : t) : t :=
  let h := add_flag flag_has_received_packet h in
  if bool_decide (space = handshake) then add_flag flag_has_received_handshake h else h.

Definition on_ack_received (space : PacketNumberSpace) (h : t) : t :=
  if bool_decide (space = handshake) then add_flag flag_has_received_handshake_ack h else h.

Definition on_handshake_confirmed : t -> t := add_flag flag_handshake_confirmed.
Definition on_handshake_complete : t -> t := add_flag flag_handshake_complete.
Definition on_retry_received : t -> t := add_flag flag_retry_received.
Definition on_transport_parameter_read : t -> t := add_flag flag_transport_parameter_read.

Definition is_server : t -> bool := has flag_is_sever.
Definition handshake_packet_is_sent : t -> bool := has flag_has_sent_handshake.
Definition handshake_packet_is_received : t -> bool := has flag_has_received_handshake.
Definition handshake_packet_ack_is_received : t -> bool := has flag_has_received_handshake_ack.
Definition has_received_retry : t -> bool := has flag_retry_received.
Definition handshake_confirmed : t -> bool := has flag_handshake_confirmed.
Definition handshake_complete : t -> bool := has flag_handshake_complete.

Definition peer_address_validated_by_token : t -> bool := has flag_peer_validated_by_token.
Definition set_peer_address_validated_by_token : t -> t := add_flag flag_peer_validated_by_token.

Definition peer_address_validated (h : t) : bool :=
  if negb (is_server h) then true
  else handshake_packet_is_received h || peer_address_validated_by_token h.

Definition is_at_anti_amplification_limit (h : t) : bool :=
  if peer_address_validated h then false
  else u64 (amplification_factor * recv_bytes h) <=? sent_bytes h.

Definition peer_completed_address_validation (h : t) : bool :=
  if is_server h then true
  else handshake_packet_ack_is_received h || handshake_confirmed h.

Definition request_retry (h : t) : bool * t :=
  if negb (is_server h) then (false, h) else (true, add_flag flag_retry_required h).
Definition retry_required : t -> bool := has flag_retry_required.
Definition on_retry_sent : t -> t := add_flag flag_retry_sent.
Definition on_handshake_start : t -> t := add_flag flag_started.
Definition has_sent_retry : t -> bool := has flag_retry_sent.
Definition handshake_started : t -> bool := has flag_started.
Definition transport_parameter_read : t -> bool := has flag_transport_parameter_read.

End HandshakeStatus.

(** ** [struct PTOStatus] *)

(** [max_] of a signed and an unsigned operand compares and returns
    unsigned values. *)
Definition calc_probe_timeout_duration (smoothed_rtt rttvar : Z) (c : time.Clock) (pto_exponent : Z) : Z :=
  s64 (smoothed_rtt + max_ (u64 (s64 (Z.shiftl rttvar 2)))
                           (u64 (time.to_clock_granularity c 1 * pto_exponent))).

Module PTOStatus.

Record t := mk { pto_count : Z; probe_required : Z; pto_space : PacketNumberSpace }.

Definition reset : t := mk 0 0 no_space.

(** [utime_t(1) << pto_count], for counts below 64. *)
Definition pto_exponent (p : t) : Z := u64 (Z.shiftl 1 (pto_count p)).

Definition probe_timeout_duration (config : Config) (rtt : RTT.t) (p : t) : Z :=
  calc_probe_timeout_duration (RTT.smoothed_rtt rtt) (RTT.rttvar rtt) (clock config) (pto_exponent p).

Definition probe_timeout_duration_with_max_ack_delay (config : Config) (rtt : RTT.t) (p : t) : Z :=
  s64 (probe_timeout_duration config rtt p + RTT.max_ack_delay rtt * pto_exponent p).

Definition is_probe_required (space : PacketNumberSpace) (p : t) : bool :=
  bool_decide (pto_space p = space) && (0 <? probe_required p).

Definition on_packet_sent (ack_eliciting : bool) (p : t) : t :=
  if ack_eliciting && (0 <? probe_required p)
  then mk (pto_count p) (probe_required p - 1) (pto_space p) else p.

Definition on_pto_no_flight (space : PacketNumberSpace) (p : t) : t :=
  mk (u64 (pto_count p + 1)) (u64 (probe_required p + 1)) space.

Definition on_pto_timeout (space : PacketNumberSpace) (p : t) : t :=
  mk (u64 (pto_count p + 1)) (u64 (probe_required p + 2)) space.

Definition on_ack_received (status : HandshakeStatus.t) (p : t) : t :=
  mk (if HandshakeStatus.peer_completed_address_validation status then 0 else pto_count p) 0 (pto_space p).

Definition on_packet_number_space_discard (p : t) : t := mk 0 0 no_space.

Definition on_retry_received (now1 now2 : Z) (first_sent_time : Z) (s : t * RTT.t) : t * RTT.t :=
  let '(p, rtt) := s in
  let rtt := if pto_count p =? 0 then snd (RTT.sample_rtt now1 now2 first_sent_time 0 rtt) else rtt in
  (mk 0 (probe_required p) (pto_space p), rtt).

End PTOStatus.

(** * Lemmas *)

Module RttFacts.
Import RTT.

Inductive event :=
  | Sample (now1 now2 time_sent ack_delay : Z)
  | MaxAckDelay (time : Z).

Definition step (r : t) (e : event) : t :=
  match e with
  | Sample now1 now2 sent delay => snd (sample_rtt now1 now2 sent delay r)
  | MaxAckDelay d => apply_max_ack_delay d r
  end.

Definition run (config : Config) (evs : list event) : t := fold_left step evs (reset config).

(** The round trips measured. *)
Definition samples (evs : list event) : list Z :=
  omap (fun e => match e with Sample now1 _ sent _ => Some (now1 - sent) | MaxAckDelay _ => None end) evs.

Definition event_ok (e : event) : Prop :=
  match e with
  | Sample now1 now2 sent delay => 0 <= now1 - sent < 2 ^ 59 /\ 0 < now2 /\ 0 <= delay < 2 ^ 63
  | MaxAckDelay _ => True
  end.

(** The estimates lie between the least sample and any bound of them. *)
Definition within (r : t) (m B : Z) : Prop :=
  min_rtt r = m /\ 0 <= m /\ m <= smoothed_rtt r <= B /\ 0 <= rttvar r <= B /\ first_ack_sample r <> 0.

Lemma shiftr_avg a b k n m B :
  0 <= n -> 0 <= k -> k + 1 = 2 ^ n -> m <= a <= B -> m <= b <= B -> m <= Z.shiftr (k * a + b) n <= B.
Proof.
  intros Hn Hk E Ha Hb. rewrite Z.shiftr_div_pow2, <- E by done. split.
  - apply Z.div_le_lower_bound; nia.
  - apply Z.div_le_upper_bound; nia.
Qed.

(** A later sample keeps the estimates within the samples. *)
Lemma sample_within now1 now2 sent delay r m B :
  within r m B -> B < 2 ^ 59 -> 0 <= now1 - sent <= B -> 0 <= delay < 2 ^ 63 ->
  exists r', sample_rtt now1 now2 sent delay r = (true, r') /\
    within r' (Z.min m (now1 - sent)) B /\ latest_rtt r' = now1 - sent.
Proof.
  intros (Hm & H0 & Hs & Hv & Hf) HB Hr Hd. unfold sample_rtt.
  rewrite (s64_small (now1 - sent)), ltb_false, eqb_false by (unfold is_s64; lia).
  set (x := now1 - sent) in *. rewrite min_spec, Hm. set (m' := Z.min m x).
  set (d := if 0 <=? peer_max_ack_delay r then _ else _).
  assert (Hd' : 0 <= d < 2 ^ 63) by (subst d; rewrite ?min_spec; zcases).
  rewrite (u64_small (m' + d)), (u64_small x) by (unfold is_u64; lia).
  set (adj := if m' + d <=? x then _ else _).
  assert (Ha : m' <= adj <= x).
  { subst adj. destruct (Z.leb_spec (m' + d) x); [rewrite s64_small by (unfold is_s64; lia) |]; lia. }
  rewrite abs_spec, (s64_small (smoothed_rtt r - adj)) by (unfold is_s64; lia).
  rewrite (s64_small (3 * rttvar r + _)), (s64_small (7 * smoothed_rtt r + adj)) by (unfold is_s64; lia).
  eexists. split; [done |]. unfold within. cbn [min_rtt smoothed_rtt rttvar first_ack_sample latest_rtt].
  split; [| done]. split_and!; auto; try lia; try (apply shiftr_avg; lia).
  - apply (shiftr_avg (smoothed_rtt r) adj 7 3 m' B); lia.
  - apply (shiftr_avg (smoothed_rtt r) adj 7 3 m' B); lia.
  - apply (shiftr_avg (rttvar r) (Z.abs (smoothed_rtt r - adj)) 3 2 0 B); lia.
  - apply (shiftr_avg (rttvar r) (Z.abs (smoothed_rtt r - adj)) 3 2 0 B); lia.
Qed.

(** The first sample. *)
Lemma sample_first now1 now2 sent delay r :
  first_ack_sample r = 0 -> 0 <= now1 - sent < 2 ^ 59 -> now2 <> 0 ->
  exists r', sample_rtt now1 now2 sent delay r = (true, r') /\
    within r' (now1 - sent) (now1 - sent) /\ latest_rtt r' = now1 - sent.
Proof.
  intros Hf Hr Hn. unfold sample_rtt. rewrite s64_small, ltb_false, eqb_true by (unfold is_s64; lia).
  eexists. split; [done |]. unfold within. simpl. split; [| done].
  rewrite Z.quot_div_nonneg by lia. split_and!; try lia; [apply Z.div_pos; lia | apply Z.div_le_upper_bound; lia].
Qed.

Lemma within_mono r m B B' : within r m B -> B <= B' -> within r m B'.
Proof. unfold within. intuition lia. Qed.

(** The state after a run: untouched before the first sample, within the
    samples afterwards. *)
Lemma run_within config evs : Forall event_ok evs ->
  match samples evs with
  | [] => first_ack_sample (run config evs) = 0
  | s :: l =>
      within (run config evs) (fold_left Z.min l s) (fold_left Z.max l s) /\
      fold_left Z.max l s < 2 ^ 59 /\ List.last (s :: l) 0 = latest_rtt (run config evs)
  end.
Proof.
  induction evs as [| e evs IH] using rev_ind; intros Hev; [done |].
  apply Forall_app in Hev as [Hev He]. inversion He as [| ? ? He' _]; subst. specialize (IH Hev).
  unfold run, samples in *. rewrite fold_left_app, omap_app. simpl.
  destruct e as [now1 now2 sent delay | d]; simpl in *.
  - set (r := fold_left step evs (reset config)) in *.
    destruct (omap _ evs) as [| s l]; simpl.
    + destruct (sample_first now1 now2 sent delay r) as (r' & -> & Hw & Hl); auto; try lia.
      simpl. rewrite Hl. split_and!; auto; lia.
    + destruct IH as (Hw & HB & Hl). set (x := now1 - sent) in *.
      rewrite !fold_left_app. simpl.
      destruct (sample_within now1 now2 sent delay r (fold_left Z.min l s) (Z.max (fold_left Z.max l s) x))
        as (r' & -> & Hw' & Hl'); try lia; [eapply within_mono; [done | lia] |].
      split_and!; auto; [lia |]. change (s :: l ++ [x]) with ((s :: l) ++ [x]). rewrite List.last_last. by destruct l.
  - rewrite app_nil_r. destruct (omap _ evs) as [| s l]; [done |]. done.
Qed.

Lemma fold_min_spec l : forall s, fold_left Z.min l s ∈ s :: l /\ forall x, x ∈ s :: l -> fold_left Z.min l s <= x.
Proof.
  induction l as [| y l IH]; simpl; intros s; [set_solver by lia |].
  destruct (IH (Z.min s y)) as [H1 H2]. split.
  - apply elem_of_cons in H1 as [-> | H1]; [destruct (Z.min_spec s y) as [[_ ->] | [_ ->]]; set_solver | set_solver].
  - intros x Hx. assert (fold_left Z.min l (Z.min s y) <= Z.min s y) by (apply H2; set_solver).
    apply elem_of_cons in Hx as [-> | Hx]; [lia |]. apply elem_of_cons in Hx as [-> | Hx]; [lia |].
    apply H2. set_solver.
Qed.

Lemma fold_max_le B l : forall s, (forall x, x ∈ s :: l -> x <= B) -> fold_left Z.max l s <= B.
Proof.
  induction l as [| y l IH]; simpl; intros s H; [apply H; set_solver |].
  apply IH. intros x Hx. apply elem_of_cons in Hx as [-> | Hx]; [| apply H; set_solver].
  assert (s <= B) by (apply H; set_solver). assert (y <= B) by (apply H; set_solver). lia.
Qed.
End RttFacts.

(** ** Flags *)

Module HandshakeFacts.
Import HandshakeStatus.

(** A flag once set stays set, and setting one does not set another. *)
Lemma has_add_flag f g h : 0 <= f -> 0 <= g -> 0 <= flag h ->
  has f (add_flag g h) = has f h || negb (Z.land g f =? 0).
Proof.
  intros Hf Hg Hh. unfold has, add_flag. simpl. rewrite Z.land_lor_distr_l.
  rewrite <- negb_andb. f_equal. apply eq_true_iff_eq. rewrite andb_true_iff, !Z.eqb_eq. apply Z.lor_eq_0_iff.
Qed.

(** A client never has to validate the server's address, a server never
    waits for the client to have done so. *)
Lemma validation_roles h :
  (is_server h = false -> is_at_anti_amplification_limit h = false) /\
  (is_server h = true -> peer_completed_address_validation h = true).
Proof.
  unfold is_at_anti_amplification_limit, peer_address_validated, peer_completed_address_validation.
  by split; intros ->.
Qed.

(** An unvalidated server is at the limit exactly when it has sent three
    times what it has received. *)
Lemma amplification_limit h :
  peer_address_validated h = false -> 0 <= recv_bytes h < 2 ^ 62 ->
  is_at_anti_amplification_limit h = true <-> 3 * recv_bytes h <= sent_bytes h.
Proof.
  intros Hv Hr. unfold is_at_anti_amplification_limit, amplification_factor. rewrite Hv.
  rewrite u64_small by (unfold is_u64; lia). apply Z.leb_le.
Qed.
End HandshakeFacts.

(** The probe timeout without overflow: only the granularity backs off, so
    the timeout of successive probes stays the same until the backed-off
    granularity passes [4 * rttvar]. *)
Lemma probe_timeout_exact config rtt p :
  0 <= RTT.smoothed_rtt rtt < 2 ^ 60 -> 0 <= RTT.rttvar rtt < 2 ^ 59 ->
  0 <= PTOStatus.pto_count p <= 20 -> 0 <= time.millisecond (clock config) < 2 ^ 30 ->
  PTOStatus.probe_timeout_duration config rtt p =
    RTT.smoothed_rtt rtt +
    Z.max (4 * RTT.rttvar rtt) (time.millisecond (clock config) * 2 ^ PTOStatus.pto_count p).
Proof.
  intros Hs Hv Hc Hm. unfold PTOStatus.probe_timeout_duration, calc_probe_timeout_duration,
    PTOStatus.pto_exponent, time.to_clock_granularity.
  rewrite !Z.shiftl_mul_pow2 by lia. rewrite !Z.mul_1_l, max_spec.
  assert (1 <= 2 ^ PTOStatus.pto_count p <= 2 ^ 20)
    by (split; [apply (Z.pow_le_mono_r 2 0); lia | apply Z.pow_le_mono_r; lia]).
  rewrite (u64_small (2 ^ PTOStatus.pto_count p)) by (unfold is_u64; lia).
  rewrite (s64_small (time.millisecond _)), (s64_small (_ * 2 ^ 2)) by (unfold is_s64; lia).
  rewrite !u64_small by (unfold is_u64; nia). rewrite s64_small by (unfold is_s64; nia).
  f_equal. f_equal. lia.
Qed.

(** * Properties *)

Import RttFacts.

(** The round-trip estimator is bounded by what was measured: however
    the peer chooses the acknowledgement delays and whenever its maximal
    delay becomes known, after any sequence of samples the minimum is the
    least sample, [smoothed_rtt] lies between the least and the greatest
    sample, [rttvar] between zero and the greatest, and no step overflows. *)
Theorem rtt_estimates_bounded config evs :
  Forall event_ok evs -> samples evs <> [] ->
  let r := run config evs in
  RTT.min_rtt r ∈ samples evs /\ (forall s, s ∈ samples evs -> RTT.min_rtt r <= s) /\
  RTT.latest_rtt r = List.last (samples evs) 0 /\
  forall B, (forall s, s ∈ samples evs -> s <= B) ->
    RTT.min_rtt r <= RTT.smoothed_rtt r <= B /\ 0 <= RTT.rttvar r <= B.
Proof.
  intros Hev Hne r. pose proof (run_within config evs Hev) as H. fold r in H.
  destruct (samples evs) as [| s l]; [done |]. destruct H as ((Hm & H0 & Hs & Hv & _) & _ & Hl).
  destruct (fold_min_spec l s) as [H1 H2]. rewrite Hm. split_and!; auto.
  intros B HB. pose proof (fold_max_le B l s HB). lia.
Qed.

Lemma rtt_estimates_bounded_witness :
  let evs := [Sample 1100 1100 1000 0; MaxAckDelay 25; Sample 1400 1401 1220 40; Sample 1500 1500 1440 7] in
  let r := run default_config evs in
  RTT.min_rtt r = 60 /\ 60 <= RTT.smoothed_rtt r <= 180 /\ 0 <= RTT.rttvar r <= 180.
Proof.
  pose proof (rtt_estimates_bounded default_config
    [Sample 1100 1100 1000 0; MaxAckDelay 25; Sample 1400 1401 1220 40; Sample 1500 1500 1440 7]) as H.
  cbv zeta in *. destruct H as (_ & _ & _ & H); [repeat constructor; simpl; lia | discriminate |].
  split; [reflexivity |]. apply H. simpl. set_solver by lia.
Defined.
