(* ===== verification/PnManage.v ===== *)
(** * PnManage: packet number spaces and the idle timer

    Models [fnet/quic/status/pn_manage.h] and [status/idle_timer.h]. *)

From stdpp Require Import base list numbers.
From Stdlib Require Import ZArith Lia.
From S2P Require Import Prelude PacketNumber Types QTime Rtt.

(** ** [struct PacketNumberIssuer] *)

Module PacketNumberIssuer.

Record t := mk {
  issue_packet_number : Z;
  highest_sent : Z;
  largest_acked_packet : Z;
  last_ack_eliciting_packet_sent_time : Z;
  ack_eliciting_in_flight : Z;
  ecn_ce_counter : Z
}.

Definition reset : t := mk 0 (-1) packetnum.infinity 0 0 0.

Definition counts_in_flight (status : Z) : bool :=
  PacketStatus.is_ack_eliciting status && PacketStatus.is_byte_counted status.

Definition decrement_ack_eliciting_in_flight (status : Z) (i : t) : t :=
  if counts_in_flight status
  then mk (issue_packet_number i) (highest_sent i) (largest_acked_packet i)
         (last_ack_eliciting_packet_sent_time i) (u64 (ack_eliciting_in_flight i - 1)) (ecn_ce_counter i)
  else i.

Definition on_connection_migration (i : t) : t :=
  mk (issue_packet_number i) (-1) packetnum.infinity (last_ack_eliciting_packet_sent_time i)
    (ack_eliciting_in_flight i) (ecn_ce_counter i).

Definition next_packet_number (i : t) : Z := u64 (issue_packet_number i).

Definition consume_packet_number (i : t) : t :=
  mk (s64 (issue_packet_number i + 1)) (highest_sent i) (largest_acked_packet i)
    (last_ack_eliciting_packet_sent_time i) (ack_eliciting_in_flight i) (ecn_ce_counter i).

(** The error is [None]; [now] is the reading of the clock. *)
Definition on_packet_sent (now pn status : Z) (i : t) : option (Z * Z) * t :=
  let cmp := s64 pn in
  if (cmp <=? highest_sent i) || (issue_packet_number i <? cmp) then (None, i)
  else
    let range_begin := s64 (highest_sent i + 1) in
    let last := if PacketStatus.is_ack_eliciting status then now else last_ack_eliciting_packet_sent_time i in
    let n := if counts_in_flight status then u64 (ack_eliciting_in_flight i + 1) else ack_eliciting_in_flight i in
    (Some (range_begin, s64 pn),
     mk (issue_packet_number i) (s64 pn) (largest_acked_packet i) last n (ecn_ce_counter i)).

Definition on_ack_received (new_largest_ack_pn : Z) (i : t) : t :=
  if (largest_acked_packet i =? packetnum.infinity) || (largest_acked_packet i <? new_largest_ack_pn)
  then mk (issue_packet_number i) (highest_sent i) new_largest_ack_pn
         (last_ack_eliciting_packet_sent_time i) (ack_eliciting_in_flight i) (ecn_ce_counter i)
  else i.

Definition on_packet_number_space_discard (i : t) : t :=
  mk (issue_packet_number i) (highest_sent i) (largest_acked_packet i) 0 0 (ecn_ce_counter i).

Definition on_packet_ack (status : Z) : t -> t := decrement_ack_eliciting_in_flight status.
Definition on_packet_lost (status : Z) : t -> t := decrement_ack_eliciting_in_flight status.

Definition no_ack_eliciting_in_flight (i : t) : bool := ack_eliciting_in_flight i =? 0.

Definition on_retry_received (i : t) : t :=
  mk (issue_packet_number i) (-1) packetnum.infinity 0 0 (ecn_ce_counter i).

Definition is_ecn_ce_updated (ecn_ce : Z) (i : t) : bool * t :=
  if ecn_ce_counter i <? ecn_ce
  then (true, mk (issue_packet_number i) (highest_sent i) (largest_acked_packet i)
                (last_ack_eliciting_packet_sent_time i) (ack_eliciting_in_flight i) ecn_ce)
  else (false, i).

End PacketNumberIssuer.

(** ** [struct PacketNumberAcceptor]: the largest number received *)

Module PacketNumberAcceptor.
Definition t := Z.
Definition reset : t := 0.
Definition on_packet_processed (pn : Z) (a : t) : t := if a <? pn then pn else a.
Definition largest_received_packet_number (a : t) : Z := a.
End PacketNumberAcceptor.

(** ** [struct SentAckTracker] *)

Module SentAckTracker.
Definition t := Z.
Definition reset : t := 0.
Definition get_onertt_largest_acked_sent_ack (s : t) : Z := s.
Definition on_packet_acked (space : PacketNumberSpace) (largest_sent_ack : Z) (s : t) : t :=
  if bool_decide (space = application)
  then if negb (largest_sent_ack =? packetnum.infinity) then max_ s (u64 (largest_sent_ack + 1)) else s
  else s.
End SentAckTracker.

(** ** [struct IdleTimer] *)

Module IdleTimer.

Record t := mk {
  timeout_ : Z;                (* idle_timeout *)
  last_recv_time : Z;
  first_sent_time : Z          (* first_ack_eliciting_packet_after_idle_sent_time *)
}.

Definition reset : t := mk 0 time.invalid time.invalid.

Definition current_timeout (config : Config) (hs : HandshakeStatus.t) (i : t) : Z :=
  if HandshakeStatus.handshake_confirmed hs then timeout_ i
  else u64 (time.to_clock_granularity (clock config) (handshake_idle_timeout config)).

Definition get_deadline (config : Config) (hs : HandshakeStatus.t) (i : t) : Z :=
  if negb (time.valid (last_recv_time i)) && negb (time.valid (first_sent_time i)) then time.invalid
  else
    let timeout := current_timeout config hs i in
    if timeout =? 0 then time.invalid
    else if negb (time.valid (last_recv_time i)) then s64 (first_sent_time i + timeout)
    else if negb (time.valid (first_sent_time i)) then s64 (last_recv_time i + timeout)
    else s64 (min_ (last_recv_time i) (first_sent_time i) + timeout).

Definition timeout (config : Config) (hs : HandshakeStatus.t) (now : Z) (i : t) : bool :=
  let deadline := get_deadline config hs i in
  if negb (time.valid deadline) then false else deadline <=? now.

Definition on_packet_decrypted (now : Z) (i : t) : t := mk (timeout_ i) now time.invalid.

Definition on_packet_sent (now : Z) (ack_eliciting : bool) (i : t) : t :=
  if negb (time.valid (first_sent_time i)) && ack_eliciting
  then mk (timeout_ i) (last_recv_time i) now else i.

Definition apply_idle_timeout (config : Config) (peer_idle_timeout : Z) (i : t) : t :=
  let v := if peer_idle_timeout =? 0 then idle_timeout config
           else if idle_timeout config =? 0 then peer_idle_timeout
           else min_ (idle_timeout config) peer_idle_timeout in
  mk (u64 (time.to_clock_granularity (clock config) v)) (last_recv_time i) (first_sent_time i).

End IdleTimer.

(** * Lemmas *)

Module IssuerFacts.
Import PacketNumberIssuer.

(** Numbers are sent in ascending order, never beyond the next one. *)
Lemma sent_ascending now pn status i range i' :
  0 <= pn < 2 ^ 62 -> on_packet_sent now pn status i = (Some range, i') ->
  highest_sent i < pn <= issue_packet_number i /\ highest_sent i' = pn /\
  (-1 <= highest_sent i -> range = (highest_sent i + 1, pn)).
Proof.
  intros Hpn. unfold on_packet_sent. rewrite (s64_small pn) by (unfold is_s64; lia).
  destruct (Z.leb_spec pn (highest_sent i)); [done |]. destruct (Z.ltb_spec (issue_packet_number i) pn); [done |].
  simpl. intros [= <- <-]. simpl. split_and!; auto; try lia. intros. by rewrite s64_small by (unfold is_s64; lia).
Qed.

(** The largest acknowledged number only grows. *)
Lemma acked_monotone pn i :
  0 <= pn < packetnum.infinity -> largest_acked_packet i <> packetnum.infinity ->
  largest_acked_packet (on_ack_received pn i) = Z.max (largest_acked_packet i) pn.
Proof. intros. unfold on_ack_received. rewrite eqb_false by done. simpl. zcase_one; simpl; lia. Qed.
End IssuerFacts.

Module IdleFacts.
Import IdleTimer.

(** After the peer was heard, the connection stays alive for the whole
    timeout. *)
Lemma idle_not_early config hs now now' i :
  0 <= now -> now + current_timeout config hs i < 2 ^ 63 -> 0 <= current_timeout config hs i ->
  now' < now + current_timeout config hs i ->
  timeout config hs now' (on_packet_decrypted now i) = false.
Proof.
  intros Hn Hb Ht Hlt. unfold timeout, get_deadline.
  change (current_timeout config hs (on_packet_decrypted now i)) with (current_timeout config hs i).
  unfold on_packet_decrypted, time.valid, time.invalid. cbn [last_recv_time first_sent_time].
  rewrite (leb_true 0 now) by done. cbn [negb andb].
  destruct (Z.eqb_spec (current_timeout config hs i) 0) as [E | E]; [done |].
  change (0 <=? -1) with false. cbn [negb].
  rewrite s64_small by (unfold is_s64; lia). rewrite (leb_false _ now') by lia. by destruct (negb _).
Qed.
End IdleFacts.
