(* ===== verification/LossTimer.v ===== *)
(** * LossTimer: the loss-detection timer

    Models [fnet/quic/status/loss_timer.h]: which of the loss times, the
    anti-amplification limit and the probe timeout the single timer of a
    connection is armed for. *)

From stdpp Require Import base list numbers sets.
From Stdlib Require Import ZArith Lia.
From S2P Require Import Prelude QTime Rtt PnManage.

Inductive LossTimerState := no_timer | wait_for_loss | at_anti_amplification_limit | wait_for_pto.
Inductive LostReason := not_lost | lost_time_threshold | lost_packet_order_threshold | lost_invalid.

Definition no_ack_eliciting_in_flight (issuers : Spaces PacketNumberIssuer.t) : bool :=
  PacketNumberIssuer.no_ack_eliciting_in_flight (s_initial issuers) &&
  PacketNumberIssuer.no_ack_eliciting_in_flight (s_handshake issuers) &&
  PacketNumberIssuer.no_ack_eliciting_in_flight (s_app issuers).

Module LossTimer.

Record t := mk {
  loss_time : Spaces Z;
  timer : time.Timer;
  state : LossTimerState;
  timer_space : PacketNumberSpace
}.

Definition reset : t := mk (mk_spaces 0 0 0) time.cancel no_timer no_space.

(** One round of the loop of [get_loss_time_and_space]. *)
Definition loss_round (loss : Z) (space : PacketNumberSpace) (s : Z * PacketNumberSpace) : Z * PacketNumberSpace :=
  let '(time, sp) := s in
  if (time =? 0) || (loss <? time) then (loss, space) else (time, sp).

Definition get_loss_time_and_space (l : t) : Z * PacketNumberSpace :=
  loss_round (s_app (loss_time l)) application
    (loss_round (s_handshake (loss_time l)) handshake
       (loss_round (s_initial (loss_time l)) initial (0, no_space))).

(** One round of the loop of [get_pto_and_space] that does not return. *)
Definition pto_round (duration : Z) (issuer : PacketNumberIssuer.t) (space : PacketNumberSpace)
    (s : Z * PacketNumberSpace) : Z * PacketNumberSpace :=
  let '(pto_timeout, pto_space) := s in
  let t := s64 (PacketNumberIssuer.last_ack_eliciting_packet_sent_time issuer + duration) in
  if (pto_timeout =? time.invalid) || (t <? pto_timeout) then (t, space) else (pto_timeout, pto_space).

(** [now] is the reading of the clock when nothing is in flight. *)
Definition get_pto_and_space (config : Config) (hs : HandshakeStatus.t) (pto : PTOStatus.t) (rtt : RTT.t)
    (issuers : Spaces PacketNumberIssuer.t) (now : Z) : Z * PacketNumberSpace :=
  let duration := PTOStatus.probe_timeout_duration config rtt pto in
  if duration <? 0 then (time.invalid, initial)
  else if no_ack_eliciting_in_flight issuers then
    if HandshakeStatus.peer_completed_address_validation hs then (time.invalid, initial)
    else if HandshakeStatus.handshake_packet_is_sent hs then (s64 (now + duration), handshake)
    else (s64 (now + duration), initial)
  else
    let s := (time.invalid, no_space) in
    let s := if PacketNumberIssuer.no_ack_eliciting_in_flight (s_initial issuers) then s
             else pto_round duration (s_initial issuers) initial s in
    let s := if PacketNumberIssuer.no_ack_eliciting_in_flight (s_handshake issuers) then s
             else pto_round duration (s_handshake issuers) handshake s in
    if PacketNumberIssuer.no_ack_eliciting_in_flight (s_app issuers) then s
    else if negb (HandshakeStatus.handshake_confirmed hs) then s
    else
      let duration := s64 (duration + RTT.max_ack_delay rtt * PTOStatus.pto_exponent pto) in
      pto_round duration (s_app issuers) application s.

Definition timeout (now : Z) (l : t) : bool := time.timeout (timer l) now.
Definition get_deadline (l : t) : Z := time.get_deadline (timer l).

Definition set_loss_time (space : PacketNumberSpace) (v : Z) (l : t) : t :=
  mk (sset space v (loss_time l)) (timer l) (state l) (timer_space l).

Definition reset_loss_time (space : PacketNumberSpace) (l : t) : t := set_loss_time space 0 l.

Definition update_loss_time (space : PacketNumberSpace) (time : Z) (l : t) : t :=
  match sget (loss_time l) space with
  | Some loss => if (loss =? 0) || (time <? loss) then set_loss_time space time l else l
  | None => l
  end.

Definition on_packet_number_space_discard (space : PacketNumberSpace) (l : t) : t := reset_loss_time space l.
Definition on_retry_received (l : t) : t := reset.

Definition set_ping (config : Config) (now : Z) (ping_timer : time.Timer) : time.Timer :=
  if negb (ping_duration config =? 0)
  then time.set_timeout now (time.to_clock_granularity (clock config) (ping_duration config))
  else ping_timer.

(** [now1] is read for the probe timeout, [now2] for the ping timer. *)
Definition set_loss_detection_timer (config : Config) (pto : PTOStatus.t) (rtt : RTT.t)
    (hs : HandshakeStatus.t) (issuers : Spaces PacketNumberIssuer.t) (now1 now2 : Z)
    (s : t * time.Timer) : t * time.Timer :=
  let '(l, ping_timer) := s in
  let '(earliest_loss_time, space_1) := get_loss_time_and_space l in
  if negb (earliest_loss_time =? 0) then
    (mk (loss_time l) (time.set_deadline earliest_loss_time) wait_for_loss space_1, time.cancel)
  else if HandshakeStatus.is_at_anti_amplification_limit hs then
    (mk (loss_time l) time.cancel at_anti_amplification_limit no_space, time.cancel)
  else if no_ack_eliciting_in_flight issuers && HandshakeStatus.peer_completed_address_validation hs then
    (mk (loss_time l) time.cancel no_timer no_space, set_ping config now2 ping_timer)
  else
    let '(timeout, space_2) := get_pto_and_space config hs pto rtt issuers now1 in
    if timeout =? time.invalid then
      (mk (loss_time l) time.cancel no_timer no_space, set_ping config now2 ping_timer)
    else (mk (loss_time l) (time.set_deadline timeout) wait_for_pto space_2, ping_timer).

End LossTimer.

(** * Lemmas *)

Module LossFacts.
Import LossTimer.

Definition losses_ok (l : t) : Prop :=
  0 <= s_initial (loss_time l) /\ 0 <= s_handshake (loss_time l) /\ 0 <= s_app (loss_time l).

(** What the loop over the spaces selects. *)
Lemma loss_time_selected l :
  losses_ok l ->
  let '(t, sp) := get_loss_time_and_space l in
  sget (loss_time l) sp = Some t /\ (t = 0 <-> s_app (loss_time l) = 0) /\ t <= s_app (loss_time l) /\
  (s_handshake (loss_time l) <> 0 -> t <= s_handshake (loss_time l)) /\
  (s_initial (loss_time l) <> 0 -> s_handshake (loss_time l) <> 0 -> t <= s_initial (loss_time l)).
Proof.
  intros (H0 & H1 & H2). unfold get_loss_time_and_space, loss_round. destruct (loss_time l) as [a b c]; simpl in *.
  repeat zcase_one; simpl in *; repeat zcase_one; simpl in *; repeat zcase_one; simpl; split_and!; auto; try lia.
Qed.

(** The spaces a probe may be sent in. *)
Definition eligible (hs : HandshakeStatus.t) (issuers : Spaces PacketNumberIssuer.t) (sp : PacketNumberSpace) : Prop :=
  match sget issuers sp with
  | Some i => PacketNumberIssuer.no_ack_eliciting_in_flight i = false /\
              (sp = application -> HandshakeStatus.handshake_confirmed hs = true)
  | None => False
  end.

(** The probe deadline of a space. *)
Definition probe_deadline (config : Config) (pto : PTOStatus.t) (rtt : RTT.t) (issuers : Spaces PacketNumberIssuer.t)
    (sp : PacketNumberSpace) : Z :=
  match sget issuers sp with
  | Some i =>
      PacketNumberIssuer.last_ack_eliciting_packet_sent_time i +
      (PTOStatus.probe_timeout_duration config rtt pto +
       (if bool_decide (sp = application) then RTT.max_ack_delay rtt * PTOStatus.pto_exponent pto else 0))
  | None => 0
  end.

Definition times_ok (config : Config) (pto : PTOStatus.t) (rtt : RTT.t) (issuers : Spaces PacketNumberIssuer.t) : Prop :=
  0 <= PTOStatus.probe_timeout_duration config rtt pto < 2 ^ 61 /\
  0 <= RTT.max_ack_delay rtt * PTOStatus.pto_exponent pto < 2 ^ 61 /\
  forall sp i, sget issuers sp = Some i -> 0 <= PacketNumberIssuer.last_ack_eliciting_packet_sent_time i < 2 ^ 61.

(** The state of the loop after the spaces [v]: the earliest deadline of
    the eligible ones among them. *)
Definition selected (E : PacketNumberSpace -> Prop) (D : PacketNumberSpace -> Z) (v : list PacketNumberSpace)
    (s : Z * PacketNumberSpace) : Prop :=
  (fst s = time.invalid /\ forall x, x ∈ v -> ~ E x) \/
  (0 <= fst s /\ snd s ∈ v /\ E (snd s) /\ fst s = D (snd s) /\ forall x, x ∈ v -> E x -> fst s <= D x).

Lemma selected_skip E D v s x : ~ E x -> selected E D v s -> selected E D (x :: v) s.
Proof.
  intros Hx [[Ht Hn] | (H0 & Hv & He & Hd & Hm)]; [left | right]; split_and?; auto.
  - intros y Hy. apply elem_of_cons in Hy as [-> | Hy]; auto.
  - by right.
  - intros y Hy. apply elem_of_cons in Hy as [-> | Hy]; auto. done.
Qed.

Lemma selected_round E D v s x duration i :
  E x -> 0 <= D x -> s64 (PacketNumberIssuer.last_ack_eliciting_packet_sent_time i + duration) = D x ->
  selected E D v s -> selected E D (x :: v) (pto_round duration i x s).
Proof.
  intros Hx H0 HD Hs. destruct s as [t sp]. unfold pto_round. rewrite HD. unfold selected in *. simpl in *.
  unfold time.invalid in *. destruct Hs as [[-> Hn] | (Ht & Hv & He & Hd & Hm)].
  - right. simpl. split_and!; auto; [by left |]. intros y Hy Ey. apply elem_of_cons in Hy as [-> | Hy]; [lia | by apply Hn in Hy].
  - right. rewrite eqb_false by lia. destruct (Z.ltb_spec (D x) t); simpl; split_and!; auto; try (by left); try (by right).
    + intros y Hy Ey. apply elem_of_cons in Hy as [-> | Hy]; [lia |]. specialize (Hm y Hy Ey). lia.
    + intros y Hy Ey. apply elem_of_cons in Hy as [-> | Hy]; [lia | auto].
Qed.

(** With packets in flight, the probe deadline is the earliest of the
    eligible spaces. *)
Lemma pto_selected config hs pto rtt issuers now :
  times_ok config pto rtt issuers -> no_ack_eliciting_in_flight issuers = false ->
  selected (eligible hs issuers) (probe_deadline config pto rtt issuers) [application; handshake; initial]
    (get_pto_and_space config hs pto rtt issuers now).
Proof.
  intros (Hd & He & Ht) Hf. unfold get_pto_and_space. rewrite (ltb_false _ 0), Hf by lia.
  pose proof (Ht initial _ eq_refl) as T0. pose proof (Ht handshake _ eq_refl) as T1. pose proof (Ht application _ eq_refl) as T2.
  set (E := eligible hs issuers). set (D := probe_deadline config pto rtt issuers).
  set (dur := PTOStatus.probe_timeout_duration config rtt pto) in *.
  set (extra := RTT.max_ack_delay rtt * PTOStatus.pto_exponent pto) in *. cbv zeta.
  set (s0 := if PacketNumberIssuer.no_ack_eliciting_in_flight (s_initial issuers) then (time.invalid, no_space)
             else pto_round dur (s_initial issuers) initial (time.invalid, no_space)).
  assert (S0 : selected E D [initial] s0).
  { subst s0. destruct (PacketNumberIssuer.no_ack_eliciting_in_flight (s_initial issuers)) eqn:E0.
    - apply selected_skip; [unfold E, eligible; simpl; intuition congruence |]. left. split; [done |].
      intros x Hx. by apply elem_of_nil in Hx.
    - apply selected_round; [unfold E, eligible; simpl; intuition congruence | unfold D, probe_deadline; simpl; fold dur; lia | |].
      + unfold D, probe_deadline. simpl. fold dur. rewrite s64_small by (unfold is_s64; lia). lia.
      + left. split; [done |]. intros x Hx. by apply elem_of_nil in Hx. }
  set (s1 := if PacketNumberIssuer.no_ack_eliciting_in_flight (s_handshake issuers) then s0 else pto_round dur (s_handshake issuers) handshake s0).
  assert (S1 : selected E D [handshake; initial] s1).
  { subst s1. destruct (PacketNumberIssuer.no_ack_eliciting_in_flight (s_handshake issuers)) eqn:E1.
    - apply selected_skip; [unfold E, eligible; simpl; intuition congruence | done].
    - apply selected_round; [unfold E, eligible; simpl; intuition congruence | unfold D, probe_deadline; simpl; fold dur; lia | | done].
      unfold D, probe_deadline. simpl. fold dur. rewrite s64_small by (unfold is_s64; lia). lia. }
  destruct (PacketNumberIssuer.no_ack_eliciting_in_flight (s_app issuers)) eqn:E2;
    [apply selected_skip; [unfold E, eligible; simpl; intuition congruence | done] |].
  destruct (HandshakeStatus.handshake_confirmed hs) eqn:E3; cbn [negb];
    [| apply selected_skip; [unfold E, eligible; simpl; intuition congruence | done]].
  assert (HD : D application = PacketNumberIssuer.last_ack_eliciting_packet_sent_time (s_app issuers) + (dur + extra)) by done.
  apply selected_round; [unfold E, eligible; simpl; intuition congruence | lia | | done].
  rewrite HD, (s64_small (dur + extra)), s64_small by (unfold is_s64; lia). done.
Qed.
End LossFacts.

(** * Properties *)

Import LossTimer LossFacts.

(** What the loss timer is armed for. If the application space has a
    loss time, the timer waits for loss, until the loss time of the space it
    records, which no recorded loss time precedes (those of earlier spaces
    count as long as the handshake space has one). If the application space
    has none, the loss times of the Initial and Handshake spaces are ignored;
    and when the timer waits for a probe with packets in flight, it is set to
    the earliest probe deadline of the spaces that may send one. *)
Theorem loss_timer_armed config pto rtt hs issuers now1 now2 l ping :
  losses_ok l -> times_ok config pto rtt issuers ->
  let '(l', ping') := set_loss_detection_timer config pto rtt hs issuers now1 now2 (l, ping) in
  loss_time l' = loss_time l /\
  (s_app (loss_time l) <> 0 ->
     state l' = wait_for_loss /\ sget (loss_time l) (timer_space l') = Some (get_deadline l') /\
     ping' = time.cancel /\ get_deadline l' <= s_app (loss_time l) /\
     (s_handshake (loss_time l) <> 0 -> get_deadline l' <= s_handshake (loss_time l)) /\
     (s_initial (loss_time l) <> 0 -> s_handshake (loss_time l) <> 0 -> get_deadline l' <= s_initial (loss_time l))) /\
  (s_app (loss_time l) = 0 -> state l' <> wait_for_loss) /\
  (state l' = wait_for_pto -> no_ack_eliciting_in_flight issuers = false ->
     eligible hs issuers (timer_space l') /\
     get_deadline l' = probe_deadline config pto rtt issuers (timer_space l') /\
     forall sp, eligible hs issuers sp -> get_deadline l' <= probe_deadline config pto rtt issuers sp).
Proof.
  intros Hl Ht. unfold set_loss_detection_timer. pose proof (loss_time_selected l Hl) as Hsel.
  destruct (get_loss_time_and_space l) as [t sp]. destruct Hsel as (Hg & Hz & Ha & Hh & Hi).
  destruct (Z.eqb_spec t 0) as [E0 | E0]; cbn [negb].
  - assert (s_app (loss_time l) = 0) by tauto.
    destruct (HandshakeStatus.is_at_anti_amplification_limit hs); [split_and!; done |].
    destruct (no_ack_eliciting_in_flight issuers && _); [split_and!; done |].
    pose proof (pto_selected config hs pto rtt issuers now1 Ht) as Hp.
    destruct (get_pto_and_space config hs pto rtt issuers now1) as [tp sp2].
    destruct (Z.eqb_spec tp time.invalid) as [E1 | E1]; [split_and!; done |].
    split_and!; try done. intros _ Hf. destruct (Hp Hf) as [[? _] | (P0 & _ & P1 & P2 & P3)]; [done |].
    simpl in *. unfold get_deadline, time.get_deadline. simpl. rewrite timer_set_valid by (by apply leb_true).
    split_and!; auto. intros x Hx. apply P3; [| done]. destruct x; [set_solver | set_solver | set_solver | by destruct Hx].
  - assert (s_app (loss_time l) <> 0) by tauto.
    assert (0 <= t) by (destruct Hl as (? & ? & ?), sp; simpl in Hg; congruence || (injection Hg as <-; done)).
    unfold get_deadline, time.get_deadline. simpl. rewrite timer_set_valid by (by apply leb_true). split_and!; try done.
Qed.

Lemma loss_timer_armed_witness :
  let i := PacketNumberIssuer.mk 5 4 1 100 2 0 in
  let l := LossTimer.mk (mk_spaces 70 0 0) time.cancel no_timer no_space in
  let '(l', _) := set_loss_detection_timer default_config PTOStatus.reset (RTT.reset default_config)
                    (HandshakeStatus.reset false) (mk_spaces i PacketNumberIssuer.reset PacketNumberIssuer.reset)
                    200 200 (l, time.new_timer) in
  state l' = wait_for_pto /\ get_deadline l' = 1097.
Proof.
  cbv zeta. pose proof (loss_timer_armed default_config PTOStatus.reset (RTT.reset default_config)
    (HandshakeStatus.reset false) (mk_spaces (PacketNumberIssuer.mk 5 4 1 100 2 0) PacketNumberIssuer.reset PacketNumberIssuer.reset)
    200 200 (LossTimer.mk (mk_spaces 70 0 0) time.cancel no_timer no_space) time.new_timer) as H.
  destruct (set_loss_detection_timer _ _ _ _ _ _ _ _) as [l' p] eqn:E.
  destruct H as (_ & _ & _ & H).
  - unfold losses_ok. simpl. lia.
  - split; [vm_compute; split; [discriminate | reflexivity] |]. split; [vm_compute; split; [discriminate | reflexivity] |].
    intros [] i Hi; simpl in Hi; try discriminate; injection Hi as <-; simpl; lia.
  - assert (Hs : state l' = wait_for_pto) by (vm_compute in E; injection E as <- <-; reflexivity).
    split; [exact Hs |]. destruct (H Hs eq_refl) as (_ & -> & _).
    vm_compute in E. injection E as <- <-. reflexivity.
Defined.
