(* ===== verification/Congestion.v ===== *)
(** * Congestion: the congestion window and the NewReno controller

    Models [fnet/quic/status/congestion.h] and [status/new_reno.h]. The
    controller is generic over the algorithm: the class [Algorithm] is the
    interface that [Congestion<Alg>] expects of [Alg], [AlgorithmLaws] what
    the window relies on. *)

From stdpp Require Import base list numbers.
From Stdlib Require Import ZArith Lia Relations.
From S2P Require Import Prelude Types QTime Rtt.

Definition min_window (config : Config) (max_udp_payload_size : Z) : Z :=
  u64 (window_minimum_factor config * max_udp_payload_size).

(** ** [struct WindowModifier]: the window it points to, and what it may do *)

Module WindowModifier.
Record t := mk { conf : Config; psize : PayloadSize.t; window : Z; incr : bool }.
Definition get_window (m : t) : Z := window m.
Definition get_min_window (m : t) : Z := min_window (conf m) (PayloadSize.current_max_payload_size (psize m)).
Definition max_payload (m : t) : Z := PayloadSize.current_max_payload_size (psize m).
Definition update (new_window : Z) (m : t) : bool * t :=
  if incr m
  then if new_window <? window m then (false, m) else (true, mk (conf m) (psize m) new_window (incr m))
  else if window m <? new_window then (false, m) else (true, mk (conf m) (psize m) new_window (incr m)).
End WindowModifier.

(** ** The algorithm's interface *)

Class Algorithm (A : Type) := {
  alg_on_packet_sent : Z -> Z -> A -> A;
  alg_on_packet_ack : Z -> Z -> A * WindowModifier.t -> A * WindowModifier.t;
  alg_on_congestion_event : Z -> A * WindowModifier.t -> A * WindowModifier.t
}.

(** [struct NullAlgorithm] *)
Inductive NullAlgorithm := null_alg.
#[global] Instance Null_algorithm : Algorithm NullAlgorithm := {
  alg_on_packet_sent _ _ a := a;
  alg_on_packet_ack _ _ s := s;
  alg_on_congestion_event _ s := s
}.

(** [struct NewReno : NullAlgorithm]. The products are unsigned; a zero
    window, which the source divides by, is excluded where it matters. *)
Module NewReno.
Record t := mk { ssthresh : Z; loss_reduction_factor : Ratio }.
Definition new : t := mk u64_max (mk_ratio 1 2).

Definition on_packet_ack (sent_bytes time_sent : Z) (s : t * WindowModifier.t) : t * WindowModifier.t :=
  let '(a, m) := s in
  if WindowModifier.get_window m <? ssthresh a
  then (a, snd (WindowModifier.update (u64 (WindowModifier.get_window m + sent_bytes)) m))
  else (a, snd (WindowModifier.update
             (u64 (WindowModifier.max_payload m * sent_bytes) / WindowModifier.get_window m) m)).

Definition on_congestion_event (time_sent : Z) (s : t * WindowModifier.t) : t * WindowModifier.t :=
  let '(a, m) := s in
  let ss := u64 (num (loss_reduction_factor a) * WindowModifier.get_window m) /
            u64 (den (loss_reduction_factor a)) in
  (mk ss (loss_reduction_factor a), snd (WindowModifier.update (max_ ss (WindowModifier.get_min_window m)) m)).
End NewReno.

#[global] Instance NewReno_algorithm : Algorithm NewReno.t := {
  alg_on_packet_sent _ _ a := a;
  alg_on_packet_ack := NewReno.on_packet_ack;
  alg_on_congestion_event := NewReno.on_congestion_event
}.

(** ** [template <class Alg> struct Congestion] *)

Module Congestion.

Record t (A : Type) := mk {
  congestion_window : Z;
  bytes_in_flight : Z;
  congestion_recovery_start_time : Z;
  should_send_any : bool;
  algorithm : A
}.
Arguments mk {A}. Arguments congestion_window {A}. Arguments bytes_in_flight {A}.
Arguments congestion_recovery_start_time {A}. Arguments should_send_any {A}. Arguments algorithm {A}.

Section ops.
Context {A : Type} `{Algorithm A}.

Definition reset (config : Config) (payload_size : PayloadSize.t) (alg : A) : t A :=
  mk (u64 (window_initial_factor config * PayloadSize.current_max_payload_size payload_size)) 0 0 false alg.

Definition on_packet_sent (sent_bytes time_sent : Z) (c : t A) : t A :=
  mk (congestion_window c) (u64 (bytes_in_flight c + sent_bytes)) (congestion_recovery_start_time c)
    false (alg_on_packet_sent sent_bytes time_sent (algorithm c)).

Definition in_congestion_recovery (time : Z) (c : t A) : bool := time <=? congestion_recovery_start_time c.

Definition set_bytes_in_flight (b : Z) (c : t A) : t A :=
  mk (congestion_window c) b (congestion_recovery_start_time c) (should_send_any c) (algorithm c).

(** [limited] is what [is_flow_control_limited()] returns. *)
Definition on_packet_ack (config : Config) (payload_size : PayloadSize.t) (sent_bytes time_sent status : Z)
    (limited : bool) (c : t A) : t A :=
  if negb (PacketStatus.is_byte_counted status) then c
  else
    let c := set_bytes_in_flight (u64 (bytes_in_flight c - sent_bytes)) c in
    if limited then c
    else if in_congestion_recovery time_sent c then c
    else
      let '(alg, m) := alg_on_packet_ack sent_bytes time_sent
        (algorithm c, WindowModifier.mk config payload_size (congestion_window c) true) in
      mk (WindowModifier.window m) (bytes_in_flight c) (congestion_recovery_start_time c) (should_send_any c) alg.

(** One lost packet; the accumulator is [sent_time_of_last_loss]. *)
Definition on_packet_lost (sent_bytes time_sent status : Z) (s : Z * t A) : Z * t A :=
  let '(last_loss, c) := s in
  if negb (PacketStatus.is_ack_eliciting status) then (last_loss, c)
  else
    let c := set_bytes_in_flight (u64 (bytes_in_flight c - sent_bytes)) c in
    if PacketStatus.is_mtu_probe status then (last_loss, c)
    else (max_ last_loss time_sent, c).

Definition on_congestion_event (config : Config) (payload_size : PayloadSize.t) (time_sent : Z) (c : t A) : t A :=
  if in_congestion_recovery time_sent c then c
  else
    let '(alg, m) := alg_on_congestion_event time_sent
      (algorithm c, WindowModifier.mk config payload_size (congestion_window c) false) in
    mk (WindowModifier.window m) (bytes_in_flight c) time_sent true alg.

(** The [is_persistent_congestion] the callback is handed. *)
Definition is_persistent_congestion (config : Config) (payload_size : PayloadSize.t) (first_ack_sample duration : Z)
    (earliest latest : Z) (c : t A) : bool * t A :=
  if (latest <=? first_ack_sample) || (earliest <=? first_ack_sample) then (false, c)
  else if duration <=? s64 (latest - earliest) then
    (true, mk (min_window config (PayloadSize.current_max_payload_size payload_size)) (bytes_in_flight c) 0
             (should_send_any c) (algorithm c))
  else (false, c).

(** [cb] stands for [persistent_congestion_cb]: what it does with the
    function it is handed. [now] is the reading of the clock. *)
Definition on_packets_lost (time_sent : Z) (config : Config) (payload_size : PayloadSize.t) (rtt : RTT.t)
    (pto : PTOStatus.t) (now : Z) (cb : (Z -> Z -> t A -> bool * t A) -> t A -> t A) (c : t A) : t A :=
  let c := if 0 <? time_sent then on_congestion_event config payload_size time_sent c else c in
  if negb (RTT.has_first_ack_sample rtt) then c
  else
    let duration := s64 (now - PTOStatus.probe_timeout_duration_with_max_ack_delay config rtt pto *
                               persistent_congestion_threshold config) in
    if negb (time.valid duration) then c
    else cb (is_persistent_congestion config payload_size (RTT.first_ack_sample rtt) duration) c.

Definition bandwidth (rtt : RTT.t) (c : t A) : Z :=
  if RTT.smoothed_rtt rtt =? 0 then u64_max
  else congestion_window c / u64 (RTT.smoothed_rtt rtt).

Definition on_update_max_udp_payload_size (config : Config) (current new : Z) (c : t A) : t A :=
  if min_window config current =? congestion_window c
  then mk (min_window config new) (bytes_in_flight c) (congestion_recovery_start_time c) (should_send_any c) (algorithm c)
  else c.

Definition on_packet_number_space_discard (decrease status : Z) (c : t A) : t A :=
  if PacketStatus.is_byte_counted status
  then set_bytes_in_flight (u64 (bytes_in_flight c - decrease)) c else c.

Definition on_connection_migration (config : Config) (psize : PayloadSize.t) (c : t A) : t A :=
  mk (u64 (window_initial_factor config * PayloadSize.current_max_payload_size psize)) (bytes_in_flight c)
    (congestion_recovery_start_time c) (should_send_any c) (algorithm c).

Definition is_on_congestion_limited (c : t A) : bool := congestion_window c <=? bytes_in_flight c.

End ops.
End Congestion.

(** * Lemmas *)

(** What [Congestion] relies on: acknowledgements do not shrink the window,
    congestion events do not grow it and respect the minimum. *)
Class AlgorithmLaws (A : Type) `{Algorithm A} := {
  ack_grows bytes t a m :
    WindowModifier.incr m = true ->
    WindowModifier.window m <= WindowModifier.window (snd (alg_on_packet_ack bytes t (a, m)));
  event_shrinks t a m :
    WindowModifier.incr m = false ->
    WindowModifier.window (snd (alg_on_congestion_event t (a, m))) <= WindowModifier.window m;
  event_keeps_min t a m :
    WindowModifier.incr m = false -> WindowModifier.get_min_window m <= WindowModifier.window m ->
    WindowModifier.get_min_window m <= WindowModifier.window (snd (alg_on_congestion_event t (a, m)))
}.

(** The modifier enforces the direction, whatever it is asked to do. *)
Lemma update_incr v m : WindowModifier.incr m = true ->
  WindowModifier.window m <= WindowModifier.window (snd (WindowModifier.update v m)).
Proof. intros Hi. unfold WindowModifier.update. rewrite Hi. zcases. Qed.

Lemma update_decr v m : WindowModifier.incr m = false ->
  WindowModifier.window (snd (WindowModifier.update v m)) <= WindowModifier.window m.
Proof. intros Hi. unfold WindowModifier.update. rewrite Hi. zcases. Qed.

#[global] Instance Null_laws : AlgorithmLaws NullAlgorithm.
Proof. split; simpl; intros; lia. Qed.

#[global] Instance NewReno_laws : AlgorithmLaws NewReno.t.
Proof.
  split; intros; simpl.
  - unfold NewReno.on_packet_ack. destruct (_ <? _); simpl; by apply update_incr.
  - by apply update_decr.
  - unfold WindowModifier.update. rewrite max_spec, H. zcase_one; simpl; lia.
Qed.

Module CongestionFacts.
Import Congestion.

Section laws.
Context {A : Type} `{AlgorithmLaws A}.

Lemma ack_window_grows config psize bytes time status limited (c : t A) :
  congestion_window c <= congestion_window (on_packet_ack config psize bytes time status limited c).
Proof.
  unfold on_packet_ack. destruct (negb _); [lia |]. destruct limited; [done |].
  destruct (in_congestion_recovery time _); [done |].
  pose proof (ack_grows bytes time (algorithm c) (WindowModifier.mk config psize (congestion_window c) true) eq_refl) as Hg.
  simpl in *. by destruct (alg_on_packet_ack _ _ _).
Qed.

Lemma event_window config psize time (c : t A) :
  let w' := congestion_window (on_congestion_event config psize time c) in
  w' <= congestion_window c /\
  (min_window config psize <= congestion_window c -> min_window config psize <= w').
Proof.
  unfold on_congestion_event. destruct (in_congestion_recovery time c); [simpl; lia |].
  set (m := WindowModifier.mk config psize (congestion_window c) false).
  pose proof (event_shrinks time (algorithm c) m eq_refl) as H1.
  pose proof (event_keeps_min time (algorithm c) m eq_refl) as H2.
  destruct (alg_on_congestion_event time (algorithm c, m)) as [alg m']. simpl in *. auto.
Qed.
End laws.

(** ** Traces of NewReno *)

Inductive event :=
  | Sent (bytes time : Z)
  | Acked (bytes time status : Z) (limited : bool)
  | Lost (time : Z).

Definition step (config : Config) (psize : PayloadSize.t) (c : t NewReno.t) (e : event) : t NewReno.t :=
  match e with
  | Sent bytes time => on_packet_sent bytes time c
  | Acked bytes time status limited => on_packet_ack config psize bytes time status limited c
  | Lost time => on_congestion_event config psize time c
  end.

(** One packet is at most one datagram. *)
Definition event_ok (psize : Z) (e : event) : Prop :=
  match e with Acked bytes _ _ _ => 0 <= bytes <= psize | _ => True end.

Definition setting_ok (config : Config) (psize : Z) : Prop :=
  0 < psize < 2 ^ 31 /\ 1 <= window_minimum_factor config < 2 ^ 31.

Lemma min_window_eq config psize : setting_ok config psize ->
  min_window config psize = window_minimum_factor config * psize /\ psize <= min_window config psize < 2 ^ 62.
Proof. intros [? ?]. unfold min_window. rewrite u64_small by (unfold is_u64; nia). nia. Qed.

(** The controller in congestion avoidance. *)
Definition avoiding (config : Config) (psize : Z) (c : t NewReno.t) : Prop :=
  min_window config psize <= congestion_window c < 2 ^ 62 /\
  NewReno.ssthresh (algorithm c) <= congestion_window c /\
  NewReno.loss_reduction_factor (algorithm c) = mk_ratio 1 2.

(** A congestion event halves the window, down to the minimum, and leaves
    the controller in congestion avoidance. *)
Lemma event_halves config psize time c :
  setting_ok config psize -> min_window config psize <= congestion_window c < 2 ^ 62 ->
  NewReno.loss_reduction_factor (algorithm c) = mk_ratio 1 2 -> in_congestion_recovery time c = false ->
  let c' := on_congestion_event config psize time c in
  congestion_window c' = Z.max (congestion_window c / 2) (min_window config psize) /\
  avoiding config psize c' /\ congestion_recovery_start_time c' = time.
Proof.
  intros Hset Hw Hf Hr. destruct (min_window_eq config psize Hset) as [_ Hm]. destruct Hset as [Hp _].
  assert (Hdiv : congestion_window c / 2 <= congestion_window c) by (apply Z.div_le_upper_bound; lia).
  unfold on_congestion_event. rewrite Hr. simpl. unfold NewReno.on_congestion_event. simpl. rewrite Hf.
  unfold WindowModifier.get_window, WindowModifier.get_min_window, WindowModifier.update, PayloadSize.current_max_payload_size.
  simpl. rewrite Z.mul_1_l, u64_small, max_spec by (unfold is_u64; lia). change (u64 2) with 2.
  rewrite ltb_false by lia. simpl. unfold avoiding; simpl; split_and!; auto; lia.
Qed.

(** In congestion avoidance nothing grows the window. *)
Lemma avoiding_step config psize c e :
  setting_ok config psize -> event_ok psize e -> avoiding config psize c ->
  avoiding config psize (step config psize c e) /\
  congestion_window (step config psize c e) <= congestion_window c.
Proof.
  intros Hset He (Hw & Hs & Hf). destruct (min_window_eq config psize Hset) as [_ Hm].
  destruct e as [bytes time | bytes time status limited | time]; simpl in *.
  - unfold avoiding. simpl. auto with lia.
  - unfold on_packet_ack. destruct (negb _); [unfold avoiding; auto with lia |].
    destruct limited; [unfold avoiding; simpl; auto with lia |].
    destruct (in_congestion_recovery time _); [unfold avoiding; simpl; auto with lia |]. simpl.
    unfold NewReno.on_packet_ack, WindowModifier.get_window. simpl. rewrite ltb_false by lia. simpl.
    unfold WindowModifier.update, WindowModifier.max_payload, PayloadSize.current_max_payload_size. simpl.
    destruct Hset as [Hp _].
    assert (Hq : u64 (psize * bytes) / congestion_window c <= congestion_window c).
    { rewrite u64_small by (unfold is_u64; nia). apply Z.div_le_upper_bound; nia. }
    unfold avoiding. zcase_one; simpl; split_and!; auto; lia.
  - destruct (in_congestion_recovery time c) eqn:Hr.
    + unfold on_congestion_event. rewrite Hr. unfold avoiding. auto with lia.
    + destruct (event_halves config psize time c Hset Hw Hf Hr) as (_ & Ha & _). split; [done |].
      by destruct (event_window config psize time c).
Qed.

Lemma avoiding_run config psize evs : setting_ok config psize -> Forall (event_ok psize) evs ->
  forall c, avoiding config psize c ->
  avoiding config psize (fold_left (step config psize) evs c) /\
  congestion_window (fold_left (step config psize) evs c) <= congestion_window c.
Proof.
  intros Hset. induction 1 as [| e evs He _ IH]; intros c Hc; simpl; [auto with lia |].
  destruct (avoiding_step config psize c e Hset He Hc) as [Hc' Hle].
  destruct (IH _ Hc') as [? ?]. auto with lia.
Qed.
End CongestionFacts.

(** * Properties *)

Import Congestion CongestionFacts.

(** NewReno after the first loss: a congestion event outside a recovery
    period halves the window, not below the minimum, and events for packets
    sent before it are ignored; from then on, whatever is sent, acknowledged
    and lost, the window stays at or above the minimum but never grows again
    (the congestion-avoidance increase lacks the current window). *)
Theorem new_reno_window config psize c time :
  setting_ok config psize -> min_window config psize <= congestion_window c < 2 ^ 62 ->
  NewReno.loss_reduction_factor (algorithm c) = mk_ratio 1 2 -> in_congestion_recovery time c = false ->
  let c1 := on_congestion_event config psize time c in
  congestion_window c1 = Z.max (congestion_window c / 2) (min_window config psize) /\
  (forall t, t <= time -> on_congestion_event config psize t c1 = c1) /\
  forall evs, Forall (event_ok psize) evs ->
    min_window config psize <= congestion_window (fold_left (step config psize) evs c1) <= congestion_window c1.
Proof.
  intros Hset Hw Hf Hr. destruct (event_halves config psize time c Hset Hw Hf Hr) as (E & Ha & Ht).
  split_and!; [done | |].
  - intros t Hle. unfold on_congestion_event at 1, in_congestion_recovery. rewrite Ht. by rewrite leb_true.
  - intros evs Hev. destruct (avoiding_run config psize evs Hset Hev _ Ha) as [(? & _) ?]. lia.
Qed.

Lemma new_reno_window_witness :
  let c := reset default_config 1200 NewReno.new in
  let c1 := on_congestion_event default_config 1200 5 c in
  congestion_window c1 = 6000 /\
  congestion_window (fold_left (step default_config 1200)
    [Sent 1200 10; Acked 1200 10 7 false; Acked 1200 11 7 false] c1) <= 6000.
Proof.
  destruct (new_reno_window default_config 1200 (reset default_config 1200 NewReno.new) 5) as (E & _ & H).
  - unfold setting_ok. simpl. lia.
  - vm_compute. split; [discriminate | reflexivity].
  - reflexivity.
  - reflexivity.
  - split; [exact E |]. cbv zeta. rewrite E in H. apply H. repeat constructor; simpl; lia.
Defined.
