(* ===== verification/AckRecord.v ===== *)
(** * AckRecord: who learns that a packet was acknowledged or lost

    Models [fnet/quic/ack/ack_lost_record.h], [resend/ack_handler.h] and
    [resend/fragments.h]. Every packet carries at most one record, shared by
    the packet history, which marks it, and by the senders of what is in the
    packet, which look at it. The records live in a store, a map from
    locations; a shared pointer is a location. The store never frees a
    record: one that nobody owns any more is read by nobody, so marking it
    has no effect that could be seen. *)

From stdpp Require Import base list gmap fin_maps.
From Stdlib Require Import ZArith Lia.
From S2P Require Import Prelude Types.

(** ** [struct ACKLostRecord] *)

Inductive ACKLostState := rec_wait | rec_ack | rec_lost.

#[global] Instance ACKLostState_eq_dec : EqDecision ACKLostState.
Proof. solve_decision. Defined.

Notation loc := positive (only parsing).
Notation records := (gmap positive ACKLostState) (only parsing).

Module ACKLostRecord.
Definition wait (l : loc) (h : records) : records := <[l := rec_wait]> h.
Definition ack (l : loc) (h : records) : records := <[l := rec_ack]> h.
Definition lost (l : loc) (h : records) : records := <[l := rec_lost]> h.
Definition is_ack (l : loc) (h : records) : bool := bool_decide (h !! l = Some rec_ack).
Definition is_lost (l : loc) (h : records) : bool := bool_decide (h !! l = Some rec_lost).
End ACKLostRecord.

Definition make_ack_wait (h : records) : loc * records :=
  let l := fresh (dom h) in (l, <[l := rec_wait]> h).

(** [mark_as_lost] and [mark_as_ack]: [lock()] of a weak pointer that was
    never set fails. *)
Definition lock (vec : option loc) (h : records) : option loc :=
  match vec with Some l => if decide (is_Some (h !! l)) then Some l else None | None => None end.

Definition mark_as_lost (vec : option loc) (h : records) : records :=
  match lock vec h with Some l => ACKLostRecord.lost l h | None => h end.
Definition mark_as_ack (vec : option loc) (h : records) : records :=
  match lock vec h with Some l => ACKLostRecord.ack l h | None => h end.

(** ** [struct ACKRecorder]: the record of the packet being written, made
    when the first sender asks for it. Together with the store it is the
    [observer] of the senders. *)

Module ACKRecorder.
Definition t := option loc.
Definition new : t := None.
Definition record (s : t * records) : loc * (t * records) :=
  let '(rec, h) := s in
  match rec with
  | Some l => (l, (rec, h))
  | None => let '(l, h) := make_ack_wait h in (l, (Some l, h))
  end.
Definition get (rec : t) : option loc := rec.
End ACKRecorder.

Notation observer := (ACKRecorder.t * gmap positive ACKLostState)%type (only parsing).

(** ** [struct ACKHandler] *)

Module ACKHandler.
Definition t := option loc.
Definition reset : t := None.
Definition is_ack (a : t) (h : records) : bool :=
  match a with None => false | Some l => ACKLostRecord.is_ack l h end.
Definition is_lost (a : t) (h : records) : bool :=
  match a with None => false | Some l => ACKLostRecord.is_lost l h end.
Definition not_confirmed (a : t) : bool := match a with None => false | Some _ => true end.
Definition confirm : t := None.
Definition wait (o : observer) : t * observer := let '(l, o) := ACKRecorder.record o in (Some l, o).
End ACKHandler.

(** ** [template struct Retransmiter] *)

Module Retransmiter.

Record Resend (F : Type) := mk_resend { frag : F; wait : ACKHandler.t }.
Arguments mk_resend {F}. Arguments frag {F}. Arguments wait {F}.

Section ops.
Context {F S : Type}.

Definition t := list (Resend F).

Definition reset : t := [].

Definition save_new_frag (fr : F) (s : t * observer) : t * observer :=
  let '(fragset, o) := s in
  let '(w, o) := ACKHandler.wait o in (fragset ++ [mk_resend fr w], o).

(** Erases the acknowledged fragments and counts the lost ones. *)
Fixpoint detect_ack_and_lost (h : records) (l : t) : Z * t :=
  match l with
  | [] => (0, [])
  | it :: l' =>
      let '(i, l') := detect_ack_and_lost h l' in
      if ACKHandler.is_ack (wait it) h then (i, l')
      else ((if ACKHandler.is_lost (wait it) h then 1 else 0) + i, it :: l')
  end.

(** What [send] does with a fragment: its result, the fragment as it leaves
    it, the fragments it handed to [save_new] in order, and its own state. *)
Definition sender := F -> S -> IOResult * F * list F * S.

(** The loop of [retransmit]: [Some res] when it returns early. *)
Fixpoint retransmit_loop (send : sender) (l tmpfrags : t) (o : observer) (s : S)
    : option IOResult * t * t * observer * S :=
  match l with
  | [] => (None, [], tmpfrags, o, s)
  | it :: l' =>
      if ACKHandler.is_ack (wait it) (snd o) then retransmit_loop send l' tmpfrags o s
      else if ACKHandler.is_lost (wait it) (snd o) then
        let '(res, fr, news, s) := send (frag it) s in
        let '(tmpfrags, o) := foldl (fun x f => save_new_frag f x) (tmpfrags, o) news in
        let it := mk_resend fr (wait it) in
        match res with
        | io_fatal | invalid_data => (Some res, it :: l', tmpfrags, o, s)
        | no_capacity => (None, it :: l', tmpfrags, o, s)
        | not_in_io_state =>
            let '(w, o) := ACKHandler.wait o in
            let '(r, l', tmpfrags, o, s) := retransmit_loop send l' tmpfrags o s in
            (r, mk_resend fr w :: l', tmpfrags, o, s)
        | _ => retransmit_loop send l' tmpfrags o s
        end
      else
        let '(r, l', tmpfrags, o, s) := retransmit_loop send l' tmpfrags o s in
        (r, it :: l', tmpfrags, o, s)
  end.

Definition retransmit (send : sender) (o : observer) (l : t) (s : S) : IOResult * t * observer * S :=
  let '(r, l, tmpfrags, o, s) := retransmit_loop send l [] o s in
  match r with
  | Some res => (res, l, o, s)
  | None => (io_ok, l ++ tmpfrags, o, s)
  end.

Definition sent (fr : F) (s : t * observer) : t * observer := save_new_frag fr s.
Definition remain (l : t) : Z := size l.

End ops.
Arguments t : clear implicits. Arguments sender : clear implicits.
End Retransmiter.

(** * Lemmas *)

(** Making a record changes no record that was marked. *)
Definition extends (h h' : records) : Prop :=
  forall l x, x <> rec_wait -> h' !! l = Some x <-> h !! l = Some x.

Lemma extends_refl h : extends h h.
Proof. done. Qed.

Lemma extends_trans h1 h2 h3 : extends h1 h2 -> extends h2 h3 -> extends h1 h3.
Proof. intros H1 H2 l x Hx. by rewrite (H2 l x Hx), (H1 l x Hx). Qed.

Lemma handler_extends h h' a :
  extends h h' ->
  ACKHandler.is_ack a h' = ACKHandler.is_ack a h /\ ACKHandler.is_lost a h' = ACKHandler.is_lost a h.
Proof.
  intros He. destruct a as [l |]; [| done].
  unfold ACKHandler.is_ack, ACKHandler.is_lost, ACKLostRecord.is_ack, ACKLostRecord.is_lost.
  split; apply bool_decide_ext, He; done.
Qed.

(** The record of the packet being written is not marked yet. *)
Definition unmarked (o : observer) : Prop :=
  match fst o with Some l => snd o !! l = Some rec_wait | None => True end.

Lemma record_spec o :
  unmarked o ->
  let '(l, o') := ACKRecorder.record o in
  fst o' = Some l /\ unmarked o' /\ extends (snd o) (snd o') /\ snd o' !! l = Some rec_wait.
Proof.
  destruct o as [[l |] h]; unfold unmarked; simpl; intros Hu.
  { split_and!; auto using extends_refl. }
  set (l := fresh (dom h)). assert (Hl : h !! l = None) by (apply not_elem_of_dom, is_fresh).
  rewrite lookup_insert. split_and!; [done | by case_decide | | by case_decide].
  intros l' x Hx. destruct (decide (l = l')) as [<- |].
  - rewrite lookup_insert, Hl. case_decide; [| done]. split; congruence.
  - by rewrite lookup_insert_ne.
Qed.

(** Once made, the record stays the same. *)
Lemma record_again o : let '(l, o') := ACKRecorder.record o in ACKRecorder.record o' = (l, o').
Proof. destruct o as [[l |] h]; done. Qed.

(** What the unacknowledged fragments of a list hold. *)
Section Contents.
Import Retransmiter.
Context {F S X : Type} (content : F -> list X) (P : F -> Prop) (Q : S -> Prop).

Definition pending (h : records) (l : t F) : list X :=
  l ≫= fun it => if ACKHandler.is_ack (wait it) h then [] else content (frag it).

Lemma pending_app h l1 l2 : pending h (l1 ++ l2) = pending h l1 ++ pending h l2.
Proof. apply bind_app. Qed.

Lemma pending_extends h h' l : extends h h' -> pending h' l = pending h l.
Proof.
  intros He. unfold pending. induction l as [| it l IH]; [done |]. rewrite !bind_cons, IH.
  by destruct (handler_extends h h' (wait it) He) as [-> _].
Qed.

Lemma handler_wait_spec o :
  unmarked o ->
  let '(w, o') := ACKHandler.wait o in
  unmarked o' /\ extends (snd o) (snd o') /\ ACKHandler.is_ack w (snd o') = false.
Proof.
  intros Hu. unfold ACKHandler.wait. pose proof (record_spec o Hu) as Hr.
  destruct (ACKRecorder.record o) as [l o']. destruct Hr as (_ & Hu' & He & Hl). split_and!; [done | done |].
  unfold ACKHandler.is_ack, ACKLostRecord.is_ack. rewrite Hl. done.
Qed.

Lemma save_new_spec fr l o :
  unmarked o ->
  let '(l', o') := save_new_frag fr (l, o) in
  unmarked o' /\ extends (snd o) (snd o') /\ pending (snd o') l' = pending (snd o) l ++ content fr.
Proof.
  intros Hu. unfold save_new_frag. pose proof (handler_wait_spec o Hu) as Hw.
  destruct (ACKHandler.wait o) as [w o']. destruct Hw as (Hu' & He & Hn). split_and!; [done | done |].
  rewrite pending_app, (pending_extends _ _ l He). unfold pending at 2. simpl. rewrite Hn. by rewrite app_nil_r.
Qed.

Lemma save_all_spec news l o :
  unmarked o ->
  let '(l', o') := foldl (fun x f => save_new_frag f x) (l, o) news in
  unmarked o' /\ extends (snd o) (snd o') /\ pending (snd o') l' = pending (snd o) l ++ (news ≫= content).
Proof.
  revert l o. induction news as [| f news IH]; intros l o Hu.
  { simpl. split_and!; [done | apply extends_refl | by rewrite app_nil_r]. }
  cbn [foldl]. pose proof (save_new_spec f l o Hu) as H1. destruct (save_new_frag f (l, o)) as [l1 o1].
  destruct H1 as (Hu1 & He1 & Hp1). specialize (IH l1 o1 Hu1).
  destruct (foldl _ (l1, o1) news) as [l2 o2]. destruct IH as (Hu2 & He2 & Hp2).
  split_and!; [done | by eapply extends_trans |]. rewrite Hp2, Hp1, bind_cons. by rewrite <- app_assoc.
Qed.

(** Results after which [retransmit] keeps the fragment. *)
Definition keeps (res : IOResult) : bool :=
  match res with no_capacity | not_in_io_state => true | _ => false end.
Definition breaks (res : IOResult) : bool :=
  match res with io_fatal | invalid_data => true | _ => false end.

(** A sender that loses nothing: what it saved and what it left make up the
    fragment. [P] and [Q] are what the fragments and the sender's state
    satisfy. *)
Definition lossless (send : sender F S) : Prop :=
  forall f s, P f -> Q s -> let '(res, f', news, s') := send f s in
  Q s' /\ P f' /\ Forall P news /\ breaks res = false /\ content f ≡ₚ (news ≫= content) ++ (if keeps res then content f' else []).

Lemma pending_cons h it l :
  pending h (it :: l) = (if ACKHandler.is_ack (wait it) h then [] else content (frag it)) ++ pending h l.
Proof. apply bind_cons. Qed.

Lemma perm_kept (new f l tmp : list X) : (f ++ l) ++ tmp ++ new ≡ₚ ((new ++ f) ++ l) ++ tmp.
Proof.
  rewrite (app_assoc (f ++ l) tmp new), (Permutation_app_comm _ new), !app_assoc. done.
Qed.

(** One lost fragment: what it held is in what was saved and kept. *)
Lemma perm_resent (c new f l l' tmp tmp' : list X) :
  l' ++ tmp' ≡ₚ l ++ tmp ++ new -> c ≡ₚ new ++ f ->
  (f ++ l') ++ tmp' ≡ₚ (c ++ l) ++ tmp.
Proof.
  intros H ->. rewrite <- app_assoc, H, !app_assoc, <- (app_assoc (f ++ l)). apply perm_kept.
Qed.

Definition frags_ok (l : t F) : Prop := Forall (fun it => P (frag it)) l.

Lemma save_all_ok news l o :
  Forall P news -> frags_ok l -> frags_ok (fst (foldl (fun x f => save_new_frag f x) (l, o) news)).
Proof.
  intros Hn. revert l o. induction Hn as [| f news Hf Hn IH]; intros l o Hl; [done |]. cbn [foldl].
  unfold save_new_frag at 2. destruct (ACKHandler.wait o) as [w o1]. apply IH, Forall_app. split; [done |].
  by repeat constructor.
Qed.

(** Sending a lost fragment, up to what is done with the fragment itself. *)
Lemma resend_one send it tmp o s :
  lossless send -> unmarked o -> P (frag it) -> Q s -> frags_ok tmp ->
  let '(res, f', news, s1) := send (frag it) s in
  let '(tmp1, o1) := foldl (fun x f => save_new_frag f x) (tmp, o) news in
  (Q s1 /\ P f' /\ frags_ok tmp1 /\ breaks res = false) /\
  unmarked o1 /\ extends (snd o) (snd o1) /\
  pending (snd o1) tmp1 = pending (snd o) tmp ++ (news ≫= content) /\
  content (frag it) ≡ₚ (news ≫= content) ++ (if keeps res then content f' else []).
Proof.
  intros Hs Hu Hf HQ Ht. specialize (Hs (frag it) s Hf HQ). destruct (send (frag it) s) as [[[res f'] news] s1].
  destruct Hs as (HQ1 & Hf' & Hn & Hb & Hc).
  pose proof (save_all_spec news tmp o Hu) as H1. pose proof (save_all_ok news tmp o Hn Ht) as H2.
  destruct (foldl _ (tmp, o) news) as [tmp1 o1]. by destruct H1 as (? & ? & ?).
Qed.

Definition keeps_all (l tmp : t F) (o : observer) (r : option IOResult * t F * t F * observer * S) : Prop :=
  let '(r, l', tmp', o', s') := r in
  r = None /\ (Q s' /\ frags_ok l' /\ frags_ok tmp') /\
  unmarked o' /\ extends (snd o) (snd o') /\
  pending (snd o') l' ++ pending (snd o') tmp' ≡ₚ pending (snd o) l ++ pending (snd o) tmp.

Lemma retransmit_loop_keeps send : lossless send ->
  forall l tmp o s, unmarked o -> frags_ok l -> frags_ok tmp -> Q s ->
  keeps_all l tmp o (retransmit_loop send l tmp o s).
Proof.
  intros Hs l. induction l as [| it l IH]; intros tmp o s Hu Hl Ht HQ; cbn [retransmit_loop].
  { unfold keeps_all. by split_and!; [.. | apply extends_refl |]. }
  apply Forall_cons in Hl as [Hf Hl]. unfold keeps_all in *. rewrite pending_cons.
  destruct (ACKHandler.is_ack (wait it) (snd o)) eqn:Ea; [apply IH; done |].
  destruct (ACKHandler.is_lost (wait it) (snd o)) eqn:El; cycle 1.
  { specialize (IH tmp o s Hu Hl Ht HQ). destruct (retransmit_loop _ _ _ _ _) as [[[[r l'] tmp'] o'] s'].
    destruct IH as (-> & (HQ' & Hl' & Ht') & Hu' & He' & Hp'). split_and!; auto; [by apply Forall_cons |].
    rewrite pending_cons, (proj1 (handler_extends _ _ (wait it) He')), Ea, <- app_assoc, Hp'. by rewrite app_assoc. }
  pose proof (resend_one send it tmp o s Hs Hu Hf HQ Ht) as H1. destruct (send (frag it) s) as [[[res f'] news] s1].
  destruct (foldl _ (tmp, o) news) as [tmp1 o1]. destruct H1 as ((HQ1 & Hf' & Ht1 & Hb) & Hu1 & He1 & Hp1 & Hc).
  assert (Ha1 : ACKHandler.is_ack (wait it) (snd o1) = false) by (by rewrite (proj1 (handler_extends _ _ _ He1))).
  pose proof (IH tmp1 o1 s1 Hu1 Hl Ht1 HQ1) as Her.
  destruct res; cbn [breaks keeps] in *; try done;
    try (destruct (retransmit_loop _ _ _ _ _) as [[[[r l'] tmp'] o'] s'];
         destruct Her as (-> & HF' & Hu' & He' & Hp'); split_and!; [done | apply HF'.. | done | by eapply extends_trans |];
         rewrite Hp1, (pending_extends _ _ l He1) in Hp'; by apply (perm_resent _ _ [] _ _ _ _ Hp')).
  - pose proof (handler_wait_spec o1 Hu1) as Hw. destruct (ACKHandler.wait o1) as [w o2].
    destruct Hw as (Hu2 & He2 & Hn). specialize (IH tmp1 o2 s1 Hu2 Hl Ht1 HQ1).
    destruct (retransmit_loop _ _ _ _ _) as [[[[r l'] tmp'] o'] s'].
    destruct IH as (-> & (HQ' & Hl' & Ht') & Hu' & He' & Hp').
    assert (He02 : extends (snd o) (snd o2)) by (by eapply extends_trans).
    split_and!; [done | done | by apply Forall_cons | done | done | by eapply extends_trans |].
    rewrite (pending_extends _ _ tmp1 He2), Hp1, (pending_extends _ _ l He02) in Hp'.
    rewrite pending_cons. cbn [wait frag]. rewrite (proj1 (handler_extends _ _ w He')), Hn.
    by apply (perm_resent _ _ _ _ _ _ _ Hp').
  - split_and!; [done | done | by apply Forall_cons | done.. |]. rewrite pending_cons. cbn [wait frag]. rewrite Ha1.
    eapply perm_resent; [| by apply Hc]. by rewrite Hp1, (pending_extends _ _ l He1).
Qed.

(** A round of retransmission with a lossless sender neither loses nor
    duplicates what is not acknowledged. *)
Lemma retransmit_keeps send l o s : lossless send -> unmarked o -> frags_ok l -> Q s ->
  let '(res, l', o', s') := retransmit send o l s in
  res = io_ok /\ Q s' /\ frags_ok l' /\ unmarked o' /\ extends (snd o) (snd o') /\
  pending (snd o') l' ≡ₚ pending (snd o) l.
Proof.
  intros Hs Hu Hl HQ. unfold retransmit. pose proof (retransmit_loop_keeps send Hs l [] o s Hu Hl) as H.
  destruct (retransmit_loop _ _ _ _ _) as [[[[r l'] tmp'] o'] s'].
  destruct H as (-> & (HQ' & Hl' & Ht') & Hu' & He & Hp); [by constructor | done |].
  split_and!; [done | done | by apply Forall_app | done | done |].
  rewrite pending_app, Hp. by rewrite app_nil_r.
Qed.

(** Detection drops exactly the acknowledged fragments. *)
Lemma detect_filters h (l : list (Resend F)) :
  snd (detect_ack_and_lost h l) = filter (fun it => ACKHandler.is_ack (wait it) h = false) l /\
  fst (detect_ack_and_lost h l) =
    size (filter (fun it => ACKHandler.is_ack (wait it) h = false /\ ACKHandler.is_lost (wait it) h = true) l).
Proof.
  induction l as [| it l [IH1 IH2]]; [done |]. cbn [detect_ack_and_lost].
  destruct (detect_ack_and_lost h l) as [i l']. simpl in IH1, IH2. subst. rewrite !filter_cons.
  destruct (ACKHandler.is_ack (wait it) h), (ACKHandler.is_lost (wait it) h);
    repeat case_decide; naive_solver (rewrite ?size_cons; lia).
Qed.
End Contents.
