(* ===== verification/StreamImpl.v ===== *)
(** * StreamImpl: streams with buffers, retransmission and flow control

    Models [fnet/quic/stream/impl]: conn_flow.h, send_buffer.h,
    recv_buffer.h and stream.h. A stream holds a weak pointer to the
    connection's flow control; here it is an argument, [None] when the
    connection is gone. The user-level buffer is the default one
    ([SendBuffer], [FragmentSaver]): a growing byte string on the sending
    side, a callback with a state of its own on the receiving side. *)

From stdpp Require Import base list gmap strings.
From Stdlib Require Import ZArith Lia.
From S2P Require Import Prelude Bytes Varint Types FrameBase CalcData FrameStream FrameAck FrameParse StreamId StreamState ConnBase StreamBase AckRecord.

#[local] Open Scope string_scope.
#[local] Open Scope Z_scope.
#[local] Open Scope list_scope.

(** ** [struct ConnFlowControl] *)

Module ConnFlowControl.
Record t := mk {
  base : StreamsState;
  max_data : ACKHandler.t;
  max_uni_streams : ACKHandler.t;
  max_bidi_streams : ACKHandler.t
}.
Definition set_base (b : StreamsState) (c : t) : t := mk b (max_data c) (max_uni_streams c) (max_bidi_streams c).

Definition update_max_data (decide : Limiter.t -> Z -> Z) (c : t) : bool * t :=
  let '(ok, b) := ConnBase.update_max_data decide (base c) in (ok, set_base b c).
Definition update_max_uni_streams (decide : Limiter.t -> Z -> Z) (c : t) : bool * t :=
  let '(ok, b) := ConnBase.update_max_uni_streams decide (base c) in (ok, set_base b c).
Definition update_max_bidi_streams (decide : Limiter.t -> Z -> Z) (c : t) : bool * t :=
  let '(ok, b) := ConnBase.update_max_bidi_streams decide (base c) in (ok, set_base b c).

Definition writes := fwriter -> StreamsState -> IOResult * fwriter * StreamsState.

(** The limit frame if it changed, or again if the last one was lost. *)
Definition send_limit (send_updated send_force : writes) (w : fwriter) (b : StreamsState)
    (rec : ACKHandler.t) (o : observer) : IOResult * fwriter * StreamsState * ACKHandler.t * observer :=
  let '(res, w, b) := send_updated w b in
  if bool_decide (res = io_ok) then let '(rec, o) := ACKHandler.wait o in (res, w, b, rec, o)
  else if ACKHandler.not_confirmed rec then
    let '(fatal, w, b, rec, o) :=
      if ACKHandler.is_lost rec (snd o) then
        let '(res, w, b) := send_force w b in
        if bool_decide (res = io_fatal) then (true, w, b, rec, o)
        else if bool_decide (res = io_ok) then let '(rec, o) := ACKHandler.wait o in (false, w, b, rec, o)
        else (false, w, b, rec, o)
      else (false, w, b, rec, o) in
    if fatal : bool then (io_fatal, w, b, rec, o)
    else (io_ok, w, b, if ACKHandler.is_ack rec (snd o) then ACKHandler.confirm else rec, o)
  else (io_ok, w, b, rec, o).

Definition send_max_data (w : fwriter) (o : observer) (c : t) : IOResult * fwriter * observer * t :=
  let '(res, w, b, rec, o) := send_limit send_max_data_if_updated ConnBase.send_max_data w (base c) (max_data c) o in
  (res, w, o, mk b rec (max_uni_streams c) (max_bidi_streams c)).

Definition send_max_uni_streams (w : fwriter) (o : observer) (c : t) : IOResult * fwriter * observer * t :=
  let '(res, w, b, rec, o) :=
    send_limit send_max_uni_streams_if_updated ConnBase.send_max_uni_streams w (base c) (max_uni_streams c) o in
  (res, w, o, mk b (max_data c) rec (max_bidi_streams c)).

Definition send_max_bidi_streams (w : fwriter) (o : observer) (c : t) : IOResult * fwriter * observer * t :=
  let '(res, w, b, rec, o) :=
    send_limit send_max_bidi_streams_if_updated ConnBase.send_max_bidi_streams w (base c) (max_bidi_streams c) o in
  (res, w, o, mk b (max_data c) (max_uni_streams c) rec).

Definition send (w : fwriter) (o : observer) (c : t) : IOResult * fwriter * observer * t :=
  let '(res, w, o, c) := send_max_data w o c in
  if bool_decide (res = io_fatal) then (res, w, o, c)
  else
    let '(res, w, o, c) := send_max_uni_streams w o c in
    if bool_decide (res = io_fatal) then (res, w, o, c) else send_max_bidi_streams w o c.

Definition recv_max_data (f : MaxDataBase.t FrameType.MAX_DATA) (c : t) : bool * t :=
  let '(ok, b) := ConnBase.recv_max_data f (base c) in (ok, set_base b c).
Definition recv_max_streams (f : MaxStreamsBase.t FrameType.MAX_STREAMS) (c : t) : option Error * t :=
  let '(err, b) := ConnBase.recv_max_streams f (base c) in (err, set_base b c).
Definition recv (a : AnyFrame) (c : t) : option Error * t :=
  let '(err, b) := conn_recv a (base c) in (err, set_base b c).
End ConnFlowControl.

(** ** [struct StreamFragment] (resend/fragments.h) and [SendBuffer] *)

Record StreamFragment := mk_sfrag { sf_offset : Z; sf_data : list Z; sf_fin : bool }.

Record StreamWriteBufferState := mk_wbs {
  wb_result : IOResult; perfect_written_buffer_count : Z; written_size_of_last_buffer : Z }.

Module SendBuffer.
Definition t := list Z.
Definition append (input : list (list Z)) (b : t) : StreamWriteBufferState * t :=
  (mk_wbs io_ok (size input) 0, b ++ concat input).
Definition shift_front (n : Z) (b : t) : t := drop (Z.to_nat n) b.
Definition fairness_limit : Z := u64_max.
End SendBuffer.

(** ** [struct SendUniStream] *)

Module SendUniStream.
Record t := mk {
  uni : SendUniStreamBase.t;
  src : SendBuffer.t;
  reset_wait : ACKHandler.t;
  frags : Retransmiter.t StreamFragment
}.
Definition set_uni u s := mk u (src s) (reset_wait s) (frags s).
Definition set_frags f s := mk (uni s) (src s) (reset_wait s) f.
Definition set_reset_wait r s := mk (uni s) (src s) r (frags s).
Definition state (s : t) : SendState.t := SendUniStreamBase.state (uni s).
Definition data (s : t) : WriteData.t := SendUniStreamBase.data (uni s).

Definition new (id : Z) (c : ConnFlowControl.t) : t :=
  let base := ConnFlowControl.base c in
  mk (SendUniStreamBase.set_initial (send_ini_limit base) (local_origin base)
        (SendUniStreamBase.mk id SendState.init (WriteData.mk [] 0 0 false false)))
     [] ACKHandler.reset Retransmiter.reset.

Definition apply_peer_initial_limits (conn : option ConnFlowControl.t) (s : t) : t :=
  match conn with
  | None => s
  | Some c =>
      let base := ConnFlowControl.base c in
      set_uni (SendUniStreamBase.set_initial (send_ini_limit base) (local_origin base) (uni s)) s
  end.

Definition maybe_send_done (s : t) : t :=
  if SendState.is_data_sent (state s) && (Retransmiter.remain (frags s) =? 0)
  then set_uni (snd (SendUniStreamBase.all_send_done (uni s))) s else s.

(** The callback of [frags.retransmit]: the state of [save_retransmit] is
    what was handed to [save_new], the fragment and [should_remove]. *)
Definition save_retransmit (sent remain : Fragment) (has_remain : bool)
    (st : list StreamFragment * StreamFragment * bool) : bool * (list StreamFragment * StreamFragment * bool) :=
  let '(news, fr, should_remove) := st in
  let news := news ++ [mk_sfrag (frag_offset sent) (fragment sent) (frag_fin sent)] in
  if has_remain
  then (true, (news, mk_sfrag (frag_offset remain) (fragment remain) (frag_fin remain), should_remove))
  else (true, (news, fr, true)).

Definition resend_fragment (u : SendUniStreamBase.t) : Retransmiter.sender StreamFragment fwriter :=
  fun fr w =>
    let '(res, w, (news, fr, should_remove)) :=
      SendUniStreamBase.send_retransmit_stream save_retransmit (sf_offset fr) (sf_data fr) (sf_fin fr) u w
        ([], fr, false) in
    match res with
    | io_fatal | invalid_data => (res, fr, news, w)
    | _ => if should_remove : bool then (io_ok, fr, news, w) else (not_in_io_state, fr, news, w)
    end.

Definition send_retransmit (w : fwriter) (o : observer) (s : t) : IOResult * fwriter * observer * t :=
  if negb (SendState.can_retransmit (state s)) then (not_in_io_state, w, o, s)
  else
    let '(res, fr, o, w) := Retransmiter.retransmit (resend_fragment (uni s)) o (frags s) w in
    let s := set_frags fr s in
    (res, w, o, if bool_decide (res = io_ok) then maybe_send_done s else s).

(** [frags.sent] as the [save_fragment] of [send_stream]. *)
Definition save_sent (f : Fragment) (x : Retransmiter.t StreamFragment * observer)
    : bool * (Retransmiter.t StreamFragment * observer) :=
  (true, Retransmiter.sent (mk_sfrag (frag_offset f) (fragment f) (frag_fin f)) x).

(** [send_stream_unlocked] after the retransmissions. *)
Definition send_new_data (w : fwriter) (o : observer) (c : ConnFlowControl.t) (s : t)
    : IOResult * fwriter * observer * option ConnFlowControl.t * t :=
  let id := SendUniStreamBase.id (uni s) in
  let '((res, blocked_size), e) :=
    send_impl save_sent id SendBuffer.fairness_limit
      (mk_env w (ConnFlowControl.base c) (state s) (data s) (frags s, o)) in
  let '(fr, o) := e_saved e in
  let s := mk (SendUniStreamBase.mk id (e_state e) (e_data e)) (src s) (reset_wait s) fr in
  let conn := Some (ConnFlowControl.set_base (e_conn e) c) in
  match res with
  | block_by_stream =>
      let '(res, w) := send_stream_blocked (e_w e) id blocked_size in
      (if bool_decide (res = io_ok) then block_by_stream else res, w, o, conn, s)
  | block_by_conn =>
      let '(res, w) := send_conn_blocked (e_w e) blocked_size in
      (if bool_decide (res = io_ok) then block_by_conn else res, w, o, conn, s)
  | _ => (res, e_w e, o, conn, s)
  end.

Definition send_stream_unlocked (w : fwriter) (o : observer) (conn : option ConnFlowControl.t) (s : t)
    : IOResult * fwriter * observer * option ConnFlowControl.t * t :=
  match conn with
  | None => (io_fatal, w, o, conn, s)
  | Some c =>
      let '(res, w, o, s) := send_retransmit w o s in
      match res with
      | io_ok | no_data | not_in_io_state => send_new_data w o c s
      | _ => (res, w, o, conn, s)
      end
  end.

Definition send_reset_unlocked (w : fwriter) (o : observer) (s : t) : IOResult * fwriter * observer * t :=
  if ACKHandler.not_confirmed (reset_wait s) then
    if ACKHandler.is_ack (reset_wait s) (snd o) then
      let '(res, u) := SendUniStreamBase.reset_done (uni s) in
      (res, w, o, mk u (src s) ACKHandler.confirm (frags s))
    else if ACKHandler.is_lost (reset_wait s) (snd o) then
      let '(res, w) := SendUniStreamBase.send_retransmit_reset w (uni s) in
      if bool_decide (res = io_ok)
      then let '(r, o) := ACKHandler.wait o in (res, w, o, set_reset_wait r s)
      else (res, w, o, s)
    else (io_ok, w, o, s)
  else
    let '(r, w, u) := SendUniStreamBase.send_reset_if_stop_required w (uni s) in
    let s := set_uni u s in
    if negb (bool_decide (r = io_ok)) then (r, w, o, s)
    else let '(r, o) := ACKHandler.wait o in (io_ok, w, o, set_reset_wait r s).

(** [detect_ack_lost]; [h] is the store of records. *)
Definition detect_ack_lost (h : records) (s : t) : IOResult * t :=
  if ACKHandler.not_confirmed (reset_wait s) then
    if ACKHandler.is_ack (reset_wait s) h
    then (not_in_io_state, set_uni (snd (SendUniStreamBase.reset_done (uni s))) s)
    else if ACKHandler.is_lost (reset_wait s) h then (io_ok, s)
    else (no_data, s)
  else
    let '(lost, fr) := Retransmiter.detect_ack_and_lost h (frags s) in
    let s := maybe_send_done (set_frags fr s) in
    if SendState.is_terminal_state (state s) then (not_in_io_state, s)
    else (if negb (lost =? 0) then io_ok else no_data, s).

(** [send]: (result, finished). *)
Definition send (w : fwriter) (o : observer) (conn : option ConnFlowControl.t) (s : t)
    : (IOResult * bool) * (fwriter * observer * option ConnFlowControl.t * t) :=
  if SendState.is_terminal_state (state s) then ((io_ok, true), (w, o, conn, s))
  else
    let '(res, w, o, s) := send_reset_unlocked w o s in
    if negb (bool_decide (res = not_in_io_state))
    then ((res, SendState.is_terminal_state (state s)), (w, o, conn, s))
    else
      let '(res, w, o, conn, s) := send_stream_unlocked w o conn s in
      ((res, SendState.is_terminal_state (state s)), (w, o, conn, s)).

Definition recv (a : AnyFrame) (s : t) : bool * t :=
  match a with
  | StopSending f => (true, set_uni (SendUniStreamBase.recv_stop_sending f (uni s)) s)
  | MaxStreamData f => (true, set_uni (snd (SendUniStreamBase.recv_max_stream_data f (uni s))) s)
  | _ => (false, s)
  end.

Definition discard_written_data_impl (fin : bool) (input : list (list Z)) (s : t) : StreamWriteBufferState * t :=
  let written := WriteData.written_offset (data s) in
  let discarded := WriteData.discarded_offset (data s) in
  let src := if negb (u64 (written - discarded) =? 0)
             then SendBuffer.shift_front (u64 (written - discarded)) (src s) else src s in
  let '(res, src) := SendBuffer.append input src in
  if bool_decide (wb_result res = io_fatal) then (res, mk (uni s) src (reset_wait s) (frags s))
  else
    let '(ok, u) := SendUniStreamBase.update_data written src fin (uni s) in
    (mk_wbs (if ok then wb_result res else io_fatal) (perfect_written_buffer_count res) (written_size_of_last_buffer res),
     mk u src (reset_wait s) (frags s)).

Definition discard_written_data (s : t) : bool * t :=
  let '(res, s) := discard_written_data_impl (WriteData.fin (data s)) [] s in
  (negb (bool_decide (wb_result res = io_fatal)), s).

(** [write_ex]; the flag tells whether [on_data_added] is called (for a
    connection that still exists). *)
Definition write_ex (fin discard_written : bool) (input : list (list Z)) (s : t)
    : StreamWriteBufferState * bool * t :=
  if WriteData.fin (data s) then
    let '(res, s) := if discard_written then discard_written_data_impl true [] s else (mk_wbs io_ok 0 0, s) in
    if negb (bool_decide (wb_result res = io_ok)) then (res, false, s)
    else (mk_wbs io_cancel 0 0, false, s)
  else if discard_written then let '(res, s) := discard_written_data_impl fin input s in (res, false, s)
  else
    let '(res, src) := SendBuffer.append input (src s) in
    if bool_decide (wb_result res = io_fatal) then (res, false, mk (uni s) src (reset_wait s) (frags s))
    else
      let '(ok, u) := SendUniStreamBase.update_data (WriteData.discarded_offset (data s)) src fin (uni s) in
      let r := if ok then wb_result res else io_fatal in
      (mk_wbs r (perfect_written_buffer_count res) (written_size_of_last_buffer res),
       bool_decide (r = io_ok), mk u src (reset_wait s) (frags s)).

Definition write (d : list Z) (fin discard_written : bool) (s : t) : StreamWriteBufferState * bool * t :=
  write_ex fin discard_written [d] s.

Definition set_sender (handler : SendBuffer.t) (s : t) : bool * t :=
  if SendState.is_ready (state s) then (true, mk (uni s) handler (reset_wait s) (frags s)) else (false, s).

Definition request_reset (code : Z) (s : t) : IOResult * t :=
  let '(res, u) := SendUniStreamBase.request_reset code (uni s) in (res, set_uni u s).

Definition data_transmited (s : t) : bool :=
  (WriteData.remain (data s) =? 0) && (Retransmiter.remain (frags s) =? 0).

Definition is_closed (expired : bool) (s : t) : bool := expired || SendState.is_terminal_state (state s).
Definition is_removable (expired : bool) (s : t) : bool := is_closed expired s.
Definition is_fin (s : t) : bool := WriteData.fin (data s).
End SendUniStream.

(** ** [struct RecvUniStream] *)

(** [FragmentSaver]: [save(id, type, fragment, total, error code)] with the
    state of the user, and the automatic window update. Either may be
    absent. *)
Record FragmentSaver (V : Type) := mk_saver {
  sv_callback : option (Z -> Z -> Fragment -> Z -> Z -> V -> (bool * option Error) * V);
  sv_auto_update : option (Limiter.t -> Z -> bool -> V -> Z * V)
}.
Arguments mk_saver {V}. Arguments sv_callback {V}. Arguments sv_auto_update {V}.

Definition saver_save {V} (sv : FragmentSaver V) (id type : Z) (frag : Fragment) (total_recv error_code : Z) (v : V)
    : (bool * option Error) * V :=
  match sv_callback sv with
  | Some callback => callback id type frag total_recv error_code v
  | None => ((false, None), v)
  end.

Module RecvUniStream.
Record t := mk {
  uni : RecvUniStreamBase.t;
  max_data_wait : ACKHandler.t;
  stop_sending_wait : ACKHandler.t
}.
Definition set_uni u s := mk u (max_data_wait s) (stop_sending_wait s).
Definition state (s : t) : RecvState.t := RecvUniStreamBase.state (uni s).

Definition new (id : Z) (c : ConnFlowControl.t) : t :=
  let base := ConnFlowControl.base c in
  mk (RecvUniStreamBase.set_initial (recv_ini_limit base) (local_origin base) (RecvUniStreamBase.mk id RecvState.init))
     ACKHandler.reset ACKHandler.reset.

Definition apply_local_initial_limits (conn : option ConnFlowControl.t) (s : t) : t :=
  match conn with
  | None => s
  | Some c =>
      let base := ConnFlowControl.base c in
      set_uni (RecvUniStreamBase.set_initial (recv_ini_limit base) (local_origin base) (uni s)) s
  end.

Definition update_recv_limit (decide_new_limit : Limiter.t -> Z -> Z) (s : t) : bool * t :=
  let '(ok, u) := RecvUniStreamBase.update_recv_limit decide_new_limit (uni s) in (ok, set_uni u s).

(** [FragmentSaver::do_auto_update] *)
Definition do_auto_update {V} (sv : FragmentSaver V) (v : V) (s : t) : V * t :=
  match sv_auto_update sv with
  | None => (v, s)
  | Some auto_update =>
      let '(query, v) := auto_update Limiter.zero 0 true v in
      if query =? 0 then (v, s)
      else
        let '(new_limit, v) := auto_update (RecvState.limit (state s)) (RecvState.initial_limit (state s)) false v in
        (v, snd (update_recv_limit (fun _ _ => new_limit) s))
  end.

Definition send_stop_sending_unlocked (w : fwriter) (o : observer) (s : t) : IOResult * fwriter * observer * t :=
  let try_send :=
    let '(res, w) := RecvUniStreamBase.send_stop_sending w (uni s) in
    if negb (bool_decide (res = io_ok)) then (res, w, o, s)
    else let '(r, o) := ACKHandler.wait o in (io_ok, w, o, mk (uni s) (max_data_wait s) r) in
  if ACKHandler.not_confirmed (stop_sending_wait s) then
    if ACKHandler.is_lost (stop_sending_wait s) (snd o) then try_send
    else if ACKHandler.is_ack (stop_sending_wait s) (snd o)
    then (io_ok, w, o, mk (uni s) (max_data_wait s) ACKHandler.confirm)
    else try_send
  else try_send.

Definition send_max_stream_data_unlocked (w : fwriter) (o : observer) (s : t) : IOResult * fwriter * observer * t :=
  let '(res, w, u) := RecvUniStreamBase.send_max_stream_data_if_updated w (uni s) in
  let s := set_uni u s in
  if bool_decide (res = io_ok) then let '(r, o) := ACKHandler.wait o in (res, w, o, mk u r (stop_sending_wait s))
  else if bool_decide (res = io_fatal) then (res, w, o, s)
  else if ACKHandler.not_confirmed (max_data_wait s) then
    if ACKHandler.is_lost (max_data_wait s) (snd o) then
      let '(res, w, u) := RecvUniStreamBase.send_max_stream_data w u in
      let s := set_uni u s in
      if negb (bool_decide (res = io_ok))
      then (res, w, o, if bool_decide (res = not_in_io_state)
                       then mk u ACKHandler.confirm (stop_sending_wait s) else s)
      else let '(r, o) := ACKHandler.wait o in (io_ok, w, o, mk u r (stop_sending_wait s))
    else if ACKHandler.is_ack (max_data_wait s) (snd o)
    then (io_ok, w, o, mk u ACKHandler.confirm (stop_sending_wait s))
    else (io_ok, w, o, s)
  else (io_ok, w, o, s).

Definition eof : Error := LibError "EOF".

(** The deliver callback of [recv_stream]: the saver, and whether it said
    that all data arrived; [uni.state.recved()] follows, since nothing else
    changes the state after it. *)
Definition recv_stream {V} (sv : FragmentSaver V) (frame : StreamFrame.t) (conn : option ConnFlowControl.t)
    (v : V) (s : t) : option Error * (option ConnFlowControl.t * V * t) :=
  match conn with
  | None => (Some eof, (conn, v, s))
  | Some c =>
      let deliver := fun frag recv_bytes '(_, v) =>
        let '((all_done, err), v) :=
          saver_save sv (RecvUniStreamBase.id (uni s)) (FrameFlags.type_detail (StreamFrame.type frame)) frag recv_bytes 0 v in
        match err with Some e => (Some e, (false, v)) | None => (None, (all_done, v)) end in
      let '((_, err), (base, st, (all_done, v))) :=
        recv_impl deliver frame (RecvUniStreamBase.id (uni s)) (ConnFlowControl.base c) (state s) (false, v) in
      let st := if all_done : bool then snd (RecvState.recved st) else st in
      (err, (Some (ConnFlowControl.set_base base c), v, set_uni (RecvUniStreamBase.set_state st (uni s)) s))
  end.

Definition recv_reset {V} (sv : FragmentSaver V) (frame : ResetStreamFrame.t) (conn : option ConnFlowControl.t)
    (v : V) (s : t) : option Error * (option ConnFlowControl.t * V * t) :=
  match conn with
  | None => (Some eof, (conn, v, s))
  | Some c =>
      let '((_, err), (base, u)) := RecvUniStreamBase.recv_reset frame (ConnFlowControl.base c) (uni s) in
      let s := set_uni u s in
      let conn := Some (ConnFlowControl.set_base base c) in
      match err with
      | Some e => (Some e, (conn, v, s))
      | None =>
          let n := RecvState.recv_bytes (state s) in
          let '((_, err2), v) :=
            saver_save sv (RecvUniStreamBase.id u) FrameType.RESET_STREAM (mk_fragment n [] true) n
              (RecvState.get_error_code (state s)) v in
          (err2, (conn, v, s))
      end
  end.

Definition recv {V} (sv : FragmentSaver V) (a : AnyFrame) (conn : option ConnFlowControl.t) (v : V) (s : t)
    : option Error * (option ConnFlowControl.t * V * t) :=
  let '(err, (conn, v, s)) :=
    match a with
    | Stream f => recv_stream sv f conn v s
    | ResetStream f => recv_reset sv f conn v s
    | StreamDataBlocked _ => (None, (conn, v, s))
    | _ => (Some (LibError "unexpected frame type"), (conn, v, s))
    end in
  let '(v, s) := do_auto_update sv v s in (err, (conn, v, s)).

(** The public wrapper calls the wrong one of the two. *)
Definition send_max_stream_data (w : fwriter) (o : observer) (s : t) : IOResult * fwriter * observer * t :=
  send_stop_sending_unlocked w o s.

Definition send {V} (sv : FragmentSaver V) (w : fwriter) (o : observer) (v : V) (s : t)
    : IOResult * fwriter * observer * V * t :=
  let '(v, s) := do_auto_update sv v s in
  let '(res, w, o, s) := send_stop_sending_unlocked w o s in
  if bool_decide (res = io_fatal) then (res, w, o, v, s)
  else let '(res, w, o, s) := send_max_stream_data_unlocked w o s in (res, w, o, v, s).

Definition request_stop_sending (code : Z) (s : t) : bool * t :=
  let '(ok, u) := RecvUniStreamBase.request_stop_sending code (uni s) in (ok, set_uni u s).

Definition set_st (r : bool * RecvState.t) (s : t) : bool * t :=
  (fst r, set_uni (RecvUniStreamBase.set_state (snd r) (uni s)) s).
Definition user_read_all (s : t) : bool * t := set_st (RecvState.data_read (state s)) s.
Definition user_read_reset (s : t) : bool * t := set_st (RecvState.reset_read (state s)) s.
Definition user_read_full (s : t) : bool * t :=
  if RecvState.is_reset (state s) then user_read_reset s else user_read_all s.

Definition is_closed (expired : bool) (s : t) : bool := expired || RecvState.is_terminal_state (state s).
Definition is_removable (expired : bool) (s : t) : bool := expired || RecvState.is_recv_all_state (state s).
Definition is_reset (s : t) : bool := RecvState.is_reset (state s).
End RecvUniStream.

(** ** [struct BidiStream] *)

Module BidiStream.
Record t := mk { sender : SendUniStream.t; receiver : RecvUniStream.t }.

Definition new (id : Z) (c : ConnFlowControl.t) : t := mk (SendUniStream.new id c) (RecvUniStream.new id c).

Definition send {V} (sv : FragmentSaver V) (w : fwriter) (o : observer) (conn : option ConnFlowControl.t) (v : V) (s : t)
    : (IOResult * bool) * (fwriter * observer * option ConnFlowControl.t * V * t) :=
  let '(res, w, o, v, r) := RecvUniStream.send sv w o v (receiver s) in
  match res with
  | io_fatal | invalid_data => ((res, false), (w, o, conn, v, mk (sender s) r))
  | _ =>
      let '(res, (w, o, conn, snd)) := SendUniStream.send w o conn (sender s) in
      (res, (w, o, conn, v, mk snd r))
  end.

Definition recv {V} (sv : FragmentSaver V) (a : AnyFrame) (conn : option ConnFlowControl.t) (v : V) (s : t)
    : option Error * (option ConnFlowControl.t * V * t) :=
  let '(ok, snd) := SendUniStream.recv a (sender s) in
  if ok then (None, (conn, v, mk snd (receiver s)))
  else
    let '(err, (conn, v, r)) := RecvUniStream.recv sv a conn v (receiver s) in
    (err, (conn, v, mk snd r)).

Definition apply_peer_initial_limits (conn : option ConnFlowControl.t) (s : t) : t :=
  mk (SendUniStream.apply_peer_initial_limits conn (sender s)) (receiver s).
Definition apply_local_initial_limits (conn : option ConnFlowControl.t) (s : t) : t :=
  mk (sender s) (RecvUniStream.apply_local_initial_limits conn (receiver s)).
Definition is_closed (expired : bool) (s : t) : bool :=
  SendUniStream.is_closed expired (sender s) && RecvUniStream.is_closed expired (receiver s).
Definition is_removable (expired : bool) (s : t) : bool :=
  SendUniStream.is_removable expired (sender s) && RecvUniStream.is_removable expired (receiver s).
End BidiStream.

(** * Lemmas *)

(** What a fragment holds: its bytes by offset, and the end of the stream as
    an item of its own. *)
Definition items (offset : Z) (bs : list Z) (fin : bool) : list (Z * option Z) :=
  imap (fun i b => (offset + Z.of_nat i, Some b)) bs ++ (if fin then [(offset + size bs, None)] else []).
Definition frag_items (f : StreamFragment) : list (Z * option Z) := items (sf_offset f) (sf_data f) (sf_fin f).

Lemma items_split offset a b fin :
  items offset (a ++ b) fin = items offset a false ++ items (offset + size a) b fin.
Proof.
  unfold items. rewrite imap_app, size_app, app_nil_r, <- app_assoc. f_equal. f_equal.
  - apply imap_ext. intros i x _. simpl. f_equal. unfold size. lia.
  - by rewrite Z.add_assoc.
Qed.

(** A fragment that was sent. *)
Definition was_sent (d : WriteData.t) (f : StreamFragment) : Prop :=
  0 <= sf_offset f /\ sf_offset f + size (sf_data f) <= WriteData.written_offset d /\
  (sf_fin f = true -> WriteData.fin_written d = true /\
                      sf_offset f + size (sf_data f) = WriteData.written_offset d).

Definition writer_ok (w : fwriter) : Prop := wr_ok (fw_w w) /\ wr_room (fw_w w) < 2 ^ 62.

Lemma writer_put w bs st pt :
  writer_ok w -> size bs <= wr_room (fw_w w) -> writer_ok (mk_fwriter (wr_put (fw_w w) bs) st pt).
Proof.
  intros [H1 H2] Hs. split; cbn [fw_w]; [by apply wr_put_ok |]. rewrite wr_put_room by done.
  pose proof (size_nonneg bs). lia.
Qed.

(** Resending a fragment loses nothing of it. *)
Lemma resend_lossless u :
  0 <= SendUniStreamBase.id u < 2 ^ 62 -> WriteData.written_offset (SendUniStreamBase.data u) < 2 ^ 62 ->
  SendState.can_retransmit (SendUniStreamBase.state u) = true ->
  lossless frag_items (was_sent (SendUniStreamBase.data u)) writer_ok (SendUniStream.resend_fragment u).
Proof.
  intros Hid Hwr Hcan f w (Ho & Hle & Hfin) [Hw Hroom]. unfold SendUniStream.resend_fragment.
  pose proof (size_nonneg (sf_data f)).
  pose proof (retransmit_partitions SendUniStream.save_retransmit (sf_offset f) (sf_data f) (sf_fin f) u w
    ([], f, false) Hw Hroom Hid Ho Hwr ltac:(lia)) as H1.
  destruct (SendUniStreamBase.send_retransmit_stream _ _ _ _ _ _ _) as [[res w'] [[news f'] rm]].
  rewrite Hcan, ltb_false in H1 by lia. cbn [negb orb] in H1.
  replace (sf_fin f && _) with false in H1 by
    (destruct (sf_fin f); [destruct (Hfin eq_refl) as [-> ->]; by rewrite Z.eqb_refl | done]).
  destruct H1 as [(-> & -> & [= -> -> ->]) | (g & sent & remain & Hwf & Hw' & Hg & _ & _ & Hso & Hcat & Hro & Hsf & Hrf & H1)].
  { by split_and!. }
  assert (Hw2 : writer_ok w') by (destruct w'; simpl in Hw'; subst; by apply writer_put).
  assert (Hsz : size (sf_data f) = size (fragment sent) + size (fragment remain)) by (rewrite <- Hcat; apply size_app).
  pose proof (size_nonneg (fragment sent)). pose proof (size_nonneg (fragment remain)).
  unfold SendUniStream.save_retransmit in H1. destruct (Z.eqb_spec (size (fragment remain)) 0) as [E | E];
    cbn [negb] in H1; destruct H1 as [-> [= -> -> ->]]; simpl.
  - assert (fragment remain = []) as Er by (destruct (fragment remain); [done |]; rewrite size_cons in E; pose proof (size_nonneg l); lia).
    rewrite Er, app_nil_r in Hcat. rewrite andb_true_r in Hsf.
    assert (mk_sfrag (frag_offset sent) (fragment sent) (frag_fin sent) = f) as -> by (destruct f; simpl in *; congruence).
    assert (was_sent (SendUniStreamBase.data u) f) by done.
    split_and!; auto. by rewrite !app_nil_r.
  - rewrite andb_false_r in Hsf. rewrite Hsf, andb_true_r in Hrf. rewrite Hso, Hro, Hsf, Hrf, app_nil_r.
    split_and!; auto; [| repeat constructor; simpl; try lia; done |].
    + split_and!; simpl; try lia. intros Hf. destruct (Hfin Hf). split; [done | lia].
    + unfold frag_items. cbn [sf_offset sf_data sf_fin]. by rewrite <- Hcat, items_split.
Qed.

(** What holds of a sending stream between the operations. *)
Definition stream_ok (s : SendUniStream.t) : Prop :=
  let d := SendUniStream.data s in
  0 <= SendUniStreamBase.id (SendUniStream.uni s) < 2 ^ 62 /\ SendFacts.inv (SendUniStream.state s) /\ data_ok d /\
  WriteData.written_offset d = SendState.sent_bytes (SendUniStream.state s) /\
  (WriteData.fin_written d = true -> SendState.can_send (SendUniStream.state s) = false) /\
  frags_ok (was_sent d) (SendUniStream.frags s).

Lemma maybe_send_done_ok s : stream_ok s ->
  let s' := SendUniStream.maybe_send_done s in
  stream_ok s' /\ SendUniStream.data s' = SendUniStream.data s /\ SendUniStream.frags s' = SendUniStream.frags s /\
  SendUniStreamBase.id (SendUniStream.uni s') = SendUniStreamBase.id (SendUniStream.uni s).
Proof.
  intros (Hid & Hi & Hd & Hso & Hfw & Hf). cbv zeta. unfold SendUniStream.maybe_send_done.
  destruct (SendState.is_data_sent _ && _) eqn:E; [| done]. apply andb_true_iff in E as [E _].
  destruct s as [[id [lim ec [] fl] d] src rw fr]; simpl in *; try discriminate.
  unfold SendUniStreamBase.all_send_done, SendState.sent_ack. simpl. split; [| done]. unfold stream_ok. simpl.
  split_and!; auto; (done || lia).
Qed.

(** Retransmission keeps what is not acknowledged. *)
Lemma send_retransmit_keeps w o s :
  stream_ok s -> writer_ok w -> unmarked o ->
  let '(res, w', o', s') := SendUniStream.send_retransmit w o s in
  (res = io_ok \/ res = not_in_io_state) /\ stream_ok s' /\ writer_ok w' /\ unmarked o' /\ extends (snd o) (snd o') /\
  SendUniStream.data s' = SendUniStream.data s /\ SendUniStream.src s' = SendUniStream.src s /\
  SendUniStreamBase.id (SendUniStream.uni s') = SendUniStreamBase.id (SendUniStream.uni s) /\
  (SendState.can_send (SendUniStream.state s') = true -> SendUniStream.state s' = SendUniStream.state s) /\
  pending frag_items (snd o') (SendUniStream.frags s') ≡ₚ pending frag_items (snd o) (SendUniStream.frags s).
Proof.
  intros Hok Hw Hu. unfold SendUniStream.send_retransmit.
  destruct (SendState.can_retransmit (SendUniStream.state s)) eqn:Ec; cbn [negb].
  2: { split_and!; auto using extends_refl. }
  pose proof Hok as (Hid & Hi & Hd & Hso & Hfw & Hf). pose proof Hd as [Hd1 Hd2].
  pose proof (retransmit_keeps frag_items _ _ _ (SendUniStream.frags s) o w
    (resend_lossless (SendUniStream.uni s) Hid ltac:(unfold SendUniStream.data in *; lia) Ec) Hu Hf Hw) as H.
  destruct (Retransmiter.retransmit _ _ _ _) as [[[res fr] o'] w'].
  destruct H as (-> & Hw' & Hf' & Hu' & He & Hp). rewrite bool_decide_eq_true_2 by done.
  assert (Hok' : stream_ok (SendUniStream.set_frags fr s)) by exact (conj Hid (conj Hi (conj Hd (conj Hso (conj Hfw Hf'))))).
  destruct (maybe_send_done_ok _ Hok') as (Hok2 & Hd' & Hfr & Hid'). rewrite Hd', Hfr, Hid'.
  split_and!; auto.
  - unfold SendUniStream.maybe_send_done. by destruct (_ && _).
  - unfold SendUniStream.maybe_send_done. destruct (SendState.is_data_sent _ && _) eqn:E; [| done].
    apply andb_true_iff in E as [E _]. destruct s as [[id [lim ec [] fl] d] src rw fr0]; simpl in *; try discriminate.
Qed.

(** The stream after [n] more bytes. *)
Lemma sent_stream_ok id src rw fr (o o' : observer) w conn st d f n is_fin frg fr' :
  let e := mk_env w conn st d (fr, o) in
  stream_ok (SendUniStream.mk (SendUniStreamBase.mk id st d) src rw fr) ->
  send_pre id e -> stream_frame_now id SendBuffer.fairness_limit e f n ->
  SendState.can_send st = true -> unmarked o ->
  is_fin = WriteData.should_fin d && (n =? send_window SendBuffer.fairness_limit e) ->
  frg = mk_fragment (WriteData.written_offset d) (take (Z.to_nat n) (unsent d)) is_fin ->
  SendUniStream.save_sent frg (fr, o) = (true, (fr', o')) ->
  let e' := sent_env f n is_fin e (fr', o') in
  stream_ok (SendUniStream.mk (SendUniStreamBase.mk id (e_state e') (e_data e')) src rw fr') /\
  unmarked o' /\ extends (snd o) (snd o') /\
  unsent d = take (Z.to_nat n) (unsent d) ++ unsent (e_data e') /\ size (take (Z.to_nat n) (unsent d)) = n /\
  pending frag_items (snd o') fr' =
    pending frag_items (snd o) fr ++ items (WriteData.written_offset d) (take (Z.to_nat n) (unsent d)) is_fin.
Proof.
  cbv zeta. intros (Hid & Hi & Hd & Hso & Hfw & Hf) Hp Hnow Hcan Hu Hfin -> Hsave.
  assert (Hfl : 0 <= SendBuffer.fairness_limit) by (unfold SendBuffer.fairness_limit, u64_max; lia).
  pose proof (window_bounds _ _ _ Hp Hfl) as (Hm & _ & _). cbn [e_data] in Hm.
  pose proof (sent_env_pre _ _ _ f n is_fin (fr', o') Hp Hfl Hnow Hcan) as (_ & _ & _ & _ & Hi' & Hd' & Hso').
  destruct Hnow as (_ & Hn & _). assert (Hnn : 0 <= n <= size (unsent d)) by lia.
  pose proof (save_new_spec frag_items (mk_sfrag (WriteData.written_offset d) (take (Z.to_nat n) (unsent d)) is_fin)
    fr o Hu) as Hs.
  assert (Hsv : Retransmiter.save_new_frag
    (mk_sfrag (WriteData.written_offset d) (take (Z.to_nat n) (unsent d)) is_fin) (fr, o) = (fr', o'))
    by (revert Hsave; unfold SendUniStream.save_sent, Retransmiter.sent; cbn [frag_offset fragment frag_fin]; congruence).
  rewrite Hsv in Hs. destruct Hs as (Hu' & He & Hpd).
  change (WriteData.fin_written d = true -> SendState.can_send st = false) in Hfw.
  change (frags_ok (was_sent d) fr) in Hf. change (data_ok d) in Hd.
  assert (Hnf : WriteData.fin_written d = false) by (destruct (WriteData.fin_written d); naive_solver congruence).
  pose proof (size_take_to n (unsent d) Hnn) as Hsz. destruct Hd as [Hd1 Hd2]. simpl in Hd1, Hd2.
  split; [| split_and!; auto].
  - refine (conj Hid (conj Hi' (conj Hd' (conj Hso' (conj _ _))))).
    + simpl. destruct is_fin; [done |]. simpl. by rewrite Hnf.
    + unfold Retransmiter.save_new_frag in Hsv.
      destruct (ACKHandler.wait o) as [wt o1]. injection Hsv as <- <-. apply Forall_app. split.
      * eapply Forall_impl; [exact Hf |]. intros [g wg] (H1 & H2 & H3). simpl in *. split_and!; simpl; [done | lia |].
        intros Hg. destruct (H3 Hg) as [H4 _]. congruence.
      * apply Forall_singleton. cbn [Retransmiter.frag e_data sent_env]. split_and!; cbn; [lia | lia |].
        intros ->. split; [done | lia].
  - rewrite <- (take_drop (Z.to_nat n) (unsent d)) at 1. f_equal. unfold unsent. simpl. rewrite drop_drop. f_equal. lia.
Qed.

(** New data on a stream that is in order. *)
Definition accounts (o : observer) (c : ConnFlowControl.t) (s : SendUniStream.t)
    (r : IOResult * fwriter * observer * option ConnFlowControl.t * SendUniStream.t) : Prop :=
  let '(res, w', o', conn', s') := r in
  let d := SendUniStream.data s in let d' := SendUniStream.data s' in
  stream_ok s' /\ unmarked o' /\ extends (snd o) (snd o') /\
  exists new fin c', conn' = Some c' /\
    conn_avail (ConnFlowControl.base c') = conn_avail (ConnFlowControl.base c) - size new /\
    unsent d = new ++ unsent d' /\
    pending frag_items (snd o') (SendUniStream.frags s') ≡ₚ
      pending frag_items (snd o) (SendUniStream.frags s) ++ items (WriteData.written_offset d) new fin.

Lemma send_new_data_accounts w o c s :
  stream_ok s -> writer_ok w -> unmarked o -> limiter_ok (flow_send (conn_flow (ConnFlowControl.base c))) ->
  accounts o c s (SendUniStream.send_new_data w o c s).
Proof.
  intros Hok [Hw Hroom] Hu Hc. unfold SendUniStream.send_new_data. destruct s as [[id st d] src rw fr].
  pose proof Hok as (Hid & Hi & Hd & Hso & _).
  assert (Hpre : send_pre id (mk_env w (ConnFlowControl.base c) st d (fr, o)))
    by exact (conj Hw (conj Hroom (conj Hid (conj Hc (conj Hi (conj Hd Hso)))))).
  assert (Hfl : 0 <= SendBuffer.fairness_limit) by (unfold SendBuffer.fairness_limit, u64_max; lia).
  pose proof (send_impl_spec SendUniStream.save_sent _ _ _ Hpre Hfl) as Hs.
  unfold SendUniStream.state, SendUniStream.data in *.
  cbn [SendUniStream.uni SendUniStreamBase.id SendUniStreamBase.state SendUniStreamBase.data
       SendUniStream.frags SendUniStream.src SendUniStream.reset_wait] in *.
  destruct (send_impl _ _ _ _) as [[res blocked] e'].
  destruct Hs as [(Hn1 & Hn2 & ->) | (f & n & Hnow & Hcan & Hs)].
  - cbn [e_saved e_state e_data e_conn e_w].
    assert (Hsame : forall r w', accounts o c (SendUniStream.mk (SendUniStreamBase.mk id st d) src rw fr)
      (r, w', o, Some (ConnFlowControl.set_base (ConnFlowControl.base c) c),
       SendUniStream.mk (SendUniStreamBase.mk id st d) src rw fr)).
    { intros r w'. split_and!; try done. exists [], false, c. split; [by destruct c |]. rewrite size_nil.
      split_and!; [lia | done | by rewrite app_nil_r]. }
    destruct res; try done;
      [destruct (send_stream_blocked _ _ _) | destruct (send_conn_blocked _ _)]; apply Hsame.
  - cbv zeta in Hs. set (is_fin := _ && _) in Hs.
    destruct (SendUniStream.save_sent _ _) as [ok [fr' o']] eqn:Esv in Hs. destruct Hs as [-> ->].
    assert (ok = true) as -> by (revert Esv; unfold SendUniStream.save_sent; congruence).
    destruct (sent_stream_ok id src rw fr o o' w (ConnFlowControl.base c) st d f n is_fin _ fr' Hok Hpre Hnow Hcan Hu
      eq_refl eq_refl Esv) as (H1 & H2 & H3 & H4 & H5 & H6).
    cbn [e_saved sent_env]. split_and!; [apply H1 | done | done |].
    exists (take (Z.to_nat n) (unsent d)), is_fin. eexists. split; [done |].
    split_and!; [| done | by cbn [SendUniStream.frags]; rewrite H6].
    rewrite H5. unfold conn_avail. cbn. lia.
Qed.

(** What the application writes is queued behind what it wrote before, with
    or without discarding the bytes already sent. *)
Theorem stream_write_appends fin discard input s :
  stream_ok s -> SendUniStream.src s = WriteData.src (SendUniStream.data s) ->
  WriteData.fin (SendUniStream.data s) = false ->
  WriteData.discarded_offset (SendUniStream.data s) + size (SendUniStream.src s) + size (concat input) < 2 ^ 62 ->
  let '(res, _, s') := SendUniStream.write_ex fin discard input s in
  wb_result res = io_ok /\ stream_ok s' /\ SendUniStream.src s' = WriteData.src (SendUniStream.data s') /\
  unsent (SendUniStream.data s') = unsent (SendUniStream.data s) ++ concat input /\
  WriteData.written_offset (SendUniStream.data s') = WriteData.written_offset (SendUniStream.data s) /\
  WriteData.fin (SendUniStream.data s') = fin /\
  (discard = true -> SendUniStream.src s' = unsent (SendUniStream.data s')).
Proof.
  destruct s as [[id st d] src rw fr]. unfold SendUniStream.write_ex, SendUniStream.discard_written_data_impl,
    SendUniStreamBase.update_data, SendUniStream.data, SendUniStream.state, SendBuffer.append, SendBuffer.shift_front.
  cbn [SendUniStream.uni SendUniStream.src SendUniStreamBase.data SendUniStreamBase.id SendUniStreamBase.state
       SendUniStream.reset_wait SendUniStream.frags].
  intros Hok -> Hfin Hsz. rewrite Hfin. pose proof Hok as (Hid & Hi & Hd & Hso & Hfw & Hf).
  change (data_ok d) in Hd. pose proof Hd as [Hd1 Hd2]. pose proof (size_nonneg (concat input)).
  assert (Hkeep : forall d', WriteData.written_offset d' = WriteData.written_offset d ->
    WriteData.fin_written d' = WriteData.fin_written d -> data_ok d' ->
    stream_ok (SendUniStream.mk (SendUniStreamBase.mk id st d') (WriteData.src d') rw fr)).
  { intros d' E1 E2 H'. refine (conj Hid (conj Hi (conj H' (conj _ (conj _ _))))).
    - unfold SendUniStream.data. cbn. rewrite E1. exact Hso.
    - unfold SendUniStream.data. cbn. rewrite E2. exact Hfw.
    - eapply Forall_impl; [exact Hf |]. intros g. unfold was_sent, SendUniStream.data. cbn. by rewrite E1, E2. }
  assert (Hw : unsent d = drop (Z.to_nat (WriteData.written_offset d - WriteData.discarded_offset d)) (WriteData.src d)) by done.
  assert (Hul : size (unsent d) = size (WriteData.src d) - (WriteData.written_offset d - WriteData.discarded_offset d))
    by (rewrite Hw; unfold size in *; rewrite length_drop; lia).
  destruct discard; cbn [wb_result]; rewrite bool_decide_eq_false_2 by done; unfold WriteData.update.
  - assert (Hcut : (if negb (u64 (WriteData.written_offset d - WriteData.discarded_offset d) =? 0)
      then drop (Z.to_nat (u64 (WriteData.written_offset d - WriteData.discarded_offset d))) (WriteData.src d)
      else WriteData.src d) = unsent d).
    { rewrite Hw, !u64_small by (unfold is_u64; lia).
      destruct (Z.eqb_spec (WriteData.written_offset d - WriteData.discarded_offset d) 0) as [-> |]; done. }
    unfold SendBuffer.t. rewrite Hcut.
    rewrite Hfin, size_app, !u64_small by (unfold is_u64; lia). rewrite ltb_false, Z.ltb_irrefl by lia. cbn [orb].
    assert (Hz : forall l a f g, unsent (WriteData.mk l a a f g) = l) by (intros; unfold unsent; cbn; by rewrite Z.sub_diag).
    split; [done |]. cbn. split; [| by rewrite Hz].
    apply (Hkeep (WriteData.mk _ _ _ _ _)); try done. split; cbn; rewrite ?size_app; lia.
  - rewrite Hfin, size_app, !u64_small by (unfold is_u64; lia). rewrite !ltb_false by lia. cbn [orb].
    split; [done |]. cbn. split; [| split_and!; try done; unfold unsent at 1; cbn; by rewrite drop_app_le by (unfold size in *; lia)].
    apply (Hkeep (WriteData.mk _ _ _ _ _)); try done. split; cbn; rewrite ?size_app; lia.
Qed.

(** * Properties *)

(** C14. Sending on a stream, retransmission included, accounts for every
    byte. Whatever packets were acknowledged or lost before, a call of
    [send_stream] (with a connection that still exists) takes the next bytes
    of the stream (possibly none) and spends exactly that much connection
    credit; afterwards the bytes waiting for an acknowledgement are, as a
    multiset of (offset, byte) with the end of the stream as an item of its
    own, the ones that waited before and the new ones: resending lost
    fragments, whole or in pieces, neither drops nor duplicates one. The
    invariants of the stream hold again. *)
Theorem stream_send_accounts w o c s :
  stream_ok s -> writer_ok w -> unmarked o -> limiter_ok (flow_send (conn_flow (ConnFlowControl.base c))) ->
  let '(res, w', o', conn', s') := SendUniStream.send_stream_unlocked w o (Some c) s in
  let d := SendUniStream.data s in let d' := SendUniStream.data s' in
  stream_ok s' /\ unmarked o' /\ extends (snd o) (snd o') /\
  exists new fin c', conn' = Some c' /\
    conn_avail (ConnFlowControl.base c') = conn_avail (ConnFlowControl.base c) - size new /\
    unsent d = new ++ unsent d' /\
    pending frag_items (snd o') (SendUniStream.frags s') ≡ₚ
      pending frag_items (snd o) (SendUniStream.frags s) ++ items (WriteData.written_offset d) new fin.
Proof.
  intros Hok Hw Hu Hc. unfold SendUniStream.send_stream_unlocked.
  pose proof (send_retransmit_keeps w o s Hok Hw Hu) as H.
  destruct (SendUniStream.send_retransmit w o s) as [[[res1 w1] o1] s1].
  destruct H as (Hres & Hok1 & Hw1 & Hu1 & He1 & Hd1 & Hsrc & Hid1 & Hst & Hp1). rewrite <- Hd1.
  pose proof (send_new_data_accounts w1 o1 c s1 Hok1 Hw1 Hu1 Hc) as H.
  destruct Hres as [-> | ->]; destruct (SendUniStream.send_new_data w1 o1 c s1) as [[[[res w'] o'] conn'] s'];
    destruct H as (A & B & C & new & fin & c' & H1 & H2 & H3 & H4); cbv zeta;
    (split_and!; [done | done | by eapply extends_trans |]); exists new, fin, c'; rewrite <- Hp1; by split_and!.
Qed.

Definition lossy_observer : observer := (None, <[1%positive := rec_lost]> ∅).

Definition lossy_stream : SendUniStream.t :=
  SendUniStream.mk
    (SendUniStreamBase.mk 0 (SendState.mk (Limiter.mk 100 4) 0 SendState.send_st 0)
       (WriteData.mk [1; 2; 3; 4; 5; 6] 0 4 false false))
    [1; 2; 3; 4; 5; 6] None [Retransmiter.mk_resend (mk_sfrag 0 [1; 2; 3; 4] false) (Some 1%positive)].

Definition lossy_conn : ConnFlowControl.t :=
  ConnFlowControl.mk (set_conn_flow (mk_flow (Limiter.mk 100 4) Limiter.zero false) new_streams) None None None.

Definition blank_writer (n : nat) : fwriter := mk_fwriter (new_writer (replicate n 0)) 0 0.

(** Four lost bytes are resent and two new ones are sent. *)
Lemma stream_send_accounts_witness :
  let '(res, w', o', conn', s') := SendUniStream.send_stream_unlocked (blank_writer 40) lossy_observer (Some lossy_conn) lossy_stream in
  res = io_ok /\ wr_written (fw_w w') = [0x0A; 0; 4; 1; 2; 3; 4; 0x0E; 0; 4; 2; 5; 6] /\ stream_ok s'.
Proof.
  assert (H1 : stream_ok lossy_stream).
  { unfold stream_ok, SendFacts.inv, limiter_ok, data_ok, frags_ok, was_sent. vm_compute.
    repeat split; try congruence; try (intros; discriminate). repeat constructor; simpl; try congruence; intros; discriminate. }
  assert (H2 : writer_ok (blank_writer 40)) by (vm_compute; repeat split; congruence || lia).
  pose proof (stream_send_accounts (blank_writer 40) lossy_observer lossy_conn lossy_stream H1 H2 I
    ltac:(vm_compute; repeat split; congruence)) as H.
  destruct (SendUniStream.send_stream_unlocked _ _ _ _) as [[[[res w'] o'] conn'] s'] eqn:E.
  vm_compute in E. injection E as <- <- <- <- <-. split; [reflexivity | split; [reflexivity |]]. exact (proj1 H).
Defined.

(** Without room for a frame, nothing is written and the fragment is kept. *)
Lemma resend_no_room u f w :
  data_ok (SendUniStreamBase.data u) -> was_sent (SendUniStreamBase.data u) f ->
  SendState.can_retransmit (SendUniStreamBase.state u) = true ->
  snd (make_fit_size_Stream (size (fw_remain w)) (SendUniStreamBase.id u)
         (sf_offset f) (sf_data f) (sf_fin f) (sf_fin f)) = false ->
  SendUniStream.resend_fragment u f w = (not_in_io_state, f, [], w).
Proof.
  intros [Hd1 Hd2] (Ho & Hle & Hfin) Hcan Hfit. pose proof (size_nonneg (sf_data f)).
  unfold SendUniStream.resend_fragment, SendUniStreamBase.send_retransmit_stream. rewrite Hcan. cbn [negb].
  rewrite u64_small by (unfold is_u64; lia). rewrite ltb_false by lia.
  assert (sf_fin f && negb (WriteData.fin_written (SendUniStreamBase.data u)) = false /\
    sf_fin f && negb (sf_offset f + size (sf_data f) =? WriteData.written_offset (SendUniStreamBase.data u)) = false) as [-> ->]
    by (destruct (sf_fin f); [destruct (Hfin eq_refl) as [-> ->]; by rewrite Z.eqb_refl | done]).
  destruct (make_fit_size_Stream _ _ _ _ _ _) as [g ok]. cbn [snd] in Hfit. by subst ok.
Qed.

(** A lost fragment that does not fit into a packet is then
    acknowledged with that packet. When the room left in the packet is too
    small for the fragment, nothing is written, but the fragment is made to
    wait for this packet; the acknowledgement of the packet removes it, and a
    stream whose last data this was counts as completely delivered although
    the peer never got it. *)
Theorem unsent_fragment_acked w o s f l0 :
  SendUniStream.frags s = [Retransmiter.mk_resend f (Some l0)] -> snd o !! l0 = Some rec_lost ->
  SendState.state (SendUniStream.state s) = SendState.data_sent -> SendUniStream.reset_wait s = None ->
  stream_ok s -> unmarked o ->
  snd (make_fit_size_Stream (size (fw_remain w)) (SendUniStreamBase.id (SendUniStream.uni s))
         (sf_offset f) (sf_data f) (sf_fin f) (sf_fin f)) = false ->
  let '(res, w', o', s') := SendUniStream.send_retransmit w o s in
  res = io_ok /\ w' = w /\ exists l, fst o' = Some l /\
  let '(r, s2) := SendUniStream.detect_ack_lost (mark_as_ack (Some l) (snd o')) s' in
  r = not_in_io_state /\ SendState.state (SendUniStream.state s2) = SendState.data_recved /\
  SendUniStream.frags s2 = [].
Proof.
  intros Hfr Hl0 Hst Hrw Hok Hu Hfit. unfold SendUniStream.send_retransmit.
  assert (SendState.can_retransmit (SendUniStream.state s) = true) as Hcan by (unfold SendState.can_retransmit; by rewrite Hst).
  rewrite Hcan, Hfr. cbn [negb]. unfold Retransmiter.retransmit. cbn [Retransmiter.retransmit_loop Retransmiter.wait Retransmiter.frag].
  assert (ACKHandler.is_ack (Some l0) (snd o) = false /\ ACKHandler.is_lost (Some l0) (snd o) = true) as [-> ->]
    by (split; unfold ACKHandler.is_ack, ACKHandler.is_lost, ACKLostRecord.is_ack, ACKLostRecord.is_lost; by rewrite Hl0).
  pose proof Hok as (Hid & _ & Hd & _ & _ & Hf). rewrite Hfr in Hf.
  apply (proj1 (Forall_singleton _ _)) in Hf. cbn [Retransmiter.frag] in Hf.
  rewrite (resend_no_room (SendUniStream.uni s) f w Hd Hf Hcan Hfit). cbn [foldl].
  unfold ACKHandler.wait. pose proof (record_spec o Hu) as Hr. destruct (ACKRecorder.record o) as [l o'].
  destruct Hr as (Ho' & Hu' & He & Hl). cbn [Retransmiter.retransmit_loop app bool_decide decide].
  rewrite bool_decide_eq_true_2 by done.
  unfold SendUniStream.maybe_send_done, Retransmiter.remain. cbn [SendUniStream.frags SendUniStream.set_frags size].
  rewrite (eqb_false (size _)) by (unfold size; simpl; lia). rewrite andb_false_r.
  split; [done |]. split; [done |]. exists l. split; [done |].
  unfold SendUniStream.detect_ack_lost. cbn [SendUniStream.reset_wait SendUniStream.set_frags SendUniStream.frags].
  rewrite Hrw. cbn [ACKHandler.not_confirmed Retransmiter.detect_ack_and_lost Retransmiter.wait].
  assert (ACKHandler.is_ack (Some l) (mark_as_ack (Some l) (snd o')) = true) as ->.
  { unfold mark_as_ack, lock. rewrite decide_True by eauto. unfold ACKHandler.is_ack, ACKLostRecord.is_ack, ACKLostRecord.ack.
    apply bool_decide_eq_true_2. rewrite lookup_insert. by rewrite decide_True. }
  unfold SendUniStream.maybe_send_done, Retransmiter.remain, SendUniStream.state in *.
  destruct s as [[id [lim ec x fl] d] src rw fr]. cbn in Hst. subst x. done.
Qed.

Definition full_stream : SendUniStream.t :=
  SendUniStream.mk
    (SendUniStreamBase.mk 0 (SendState.mk (Limiter.mk 100 4) 0 SendState.data_sent 0)
       (WriteData.mk [1; 2; 3; 4] 0 4 true true))
    [1; 2; 3; 4] None [Retransmiter.mk_resend (mk_sfrag 0 [1; 2; 3; 4] true) (Some 1%positive)].

Lemma unsent_fragment_acked_witness :
  let '(res, w', o', s') := SendUniStream.send_retransmit (blank_writer 1) lossy_observer full_stream in
  res = io_ok /\ wr_written (fw_w w') = [] /\ exists l, fst o' = Some l.
Proof.
  assert (H1 : stream_ok full_stream).
  { unfold stream_ok, SendFacts.inv, limiter_ok, data_ok, frags_ok, was_sent. vm_compute.
    repeat split; try congruence. repeat constructor; simpl; congruence. }
  pose proof (unsent_fragment_acked (blank_writer 1) lossy_observer full_stream
    (mk_sfrag 0 [1; 2; 3; 4] true) 1%positive eq_refl eq_refl eq_refl eq_refl H1 I ltac:(vm_compute; reflexivity)) as H.
  destruct (SendUniStream.send_retransmit _ _ _) as [[[res w'] o'] s'].
  destruct H as (-> & -> & l & -> & _). split; [reflexivity | split; [reflexivity | by exists l]].
Defined.
