(* ===== verification/Keys.v ===== *)
(** * Keys: the keys of packet protection

    Models [fnet/quic/crypto/keys.h], [tls_suite.h], [secret.h] and
    [lib/fnet/quic/crypto/enc_keys.cpp]: cipher suites, the labels and salts,
    key derivation, and a secret with the keys derived from it. OpenSSL and
    BoringSSL are code outside this library: the class [CryptoLib] names the
    calls made to them. *)

From stdpp Require Import base numbers list strings.
From Stdlib Require Import ZArith Lia Ascii.
From S2P Require Import Prelude Bytes PacketNumber Types.

#[local] Open Scope string_scope.
#[local] Open Scope Z_scope.
#[local] Open Scope list_scope.

(** ** The cryptographic library *)

(** [struct TLSCipher]: a pointer to the library's object, 0 when null. *)
Definition TLSCipher := Z.
Definition no_cipher : TLSCipher := 0.

(** The parameters of [EVP_KDF_derive]. *)
Record kdf_params := mk_kdf {
  kdf_mode : string; kdf_key : list Z; kdf_digest : string; kdf_salt : option (list Z); kdf_info : option (list Z) }.

(** The functions the source calls. A function looked up at run time that may
    be missing is an [option]. A failing call gives [None] and is taken to
    leave the output span as it was. *)
Class CryptoLib := {
  EVP : Type;
  CIPHER_CTX : Type;
  AEAD_CTX : Type;
  SSL_CIPHER_standard_name : TLSCipher -> string;
  SSL_CIPHER_get_cipher_nid : TLSCipher -> Z;
  (* key derivation: parameters, length of the output *)
  EVP_KDF_derive : option (kdf_params -> Z -> option (list Z));
  (* secret, salt, length of the output; the digest is SHA-256 *)
  HKDF_extract : option (list Z -> list Z -> Z -> option (list Z));
  (* secret, info, length of the output; the digest is SHA-256 *)
  HKDF_expand : option (list Z -> list Z -> Z -> option (list Z));
  (* one block of AES in ECB mode: 256-bit key?, key, block *)
  EVP_aes_ecb : bool -> list Z -> list Z -> option (list Z);
  (* input, key, nonce, counter *)
  CRYPTO_chacha_20 : option (list Z -> list Z -> list Z -> Z -> list Z);
  (* key, counter and nonce, input *)
  EVP_chacha20 : list Z -> list Z -> list Z -> option (list Z);
  EVP_aes_128_gcm : EVP;
  EVP_get_cipherbynid : Z -> option EVP;
  EVP_CIPHER_CTX_new : CIPHER_CTX;
  (* set the cipher; encrypt? *)
  EVP_CipherInit_meth : EVP -> bool -> CIPHER_CTX -> option CIPHER_CTX;
  EVP_set_ivlen : Z -> CIPHER_CTX -> option CIPHER_CTX;
  (* set key and iv; encrypt? *)
  EVP_CipherInit_key : list Z -> list Z -> bool -> CIPHER_CTX -> option CIPHER_CTX;
  EVP_CipherUpdate_aad : list Z -> CIPHER_CTX -> option CIPHER_CTX;
  EVP_CipherUpdate : list Z -> CIPHER_CTX -> option (list Z * CIPHER_CTX);
  EVP_set_tag : list Z -> CIPHER_CTX -> option CIPHER_CTX;
  EVP_CipherFinal : CIPHER_CTX -> option CIPHER_CTX;
  EVP_get_tag : Z -> CIPHER_CTX -> option (list Z);
  (* ChaCha20-Poly1305 of BoringSSL: the key; the context can be refused *)
  EVP_aead_chacha20_poly1305 : option (list Z -> option AEAD_CTX);
  (* nonce, aad, text: cipher text and tag *)
  EVP_AEAD_CTX_seal : AEAD_CTX -> list Z -> list Z -> list Z -> option (list Z * list Z);
  (* nonce, aad, cipher text, tag *)
  EVP_AEAD_CTX_open : AEAD_CTX -> list Z -> list Z -> list Z -> list Z -> option (list Z)
}.

(** ** Cipher suites ([tls_suite.h]) *)

Inductive QUICCipherSuite :=
  | AES_128_GCM_SHA256 | AES_256_GCM_SHA384 | CHACHA20_POLY1305_SHA256 | AES_128_CCM_SHA256 | Unsupported.

#[global] Instance QUICCipherSuite_eq_dec : EqDecision QUICCipherSuite.
Proof. solve_decision. Defined.

Definition suite_hash_len (suite : QUICCipherSuite) : Z :=
  match suite with
  | AES_128_CCM_SHA256 | AES_128_GCM_SHA256 | CHACHA20_POLY1305_SHA256 => 16
  | AES_256_GCM_SHA384 => 32
  | Unsupported => 0
  end.

Definition to_suite (rfcname : string) : QUICCipherSuite :=
  if String.eqb rfcname "TLS_AES_128_GCM_SHA256" then AES_128_GCM_SHA256
  else if String.eqb rfcname "TLS_AES_256_GCM_SHA384" then AES_256_GCM_SHA384
  else if String.eqb rfcname "TLS_CHACHA20_POLY1305_SHA256" then CHACHA20_POLY1305_SHA256
  else if String.eqb rfcname "TLS_AES_128_CCM_SHA256" then AES_128_CCM_SHA256
  else Unsupported.

Definition is_AES_based (suite : QUICCipherSuite) : bool :=
  match suite with AES_128_CCM_SHA256 | AES_128_GCM_SHA256 | AES_256_GCM_SHA384 => true | _ => false end.

Definition is_CHACHA20_based (suite : QUICCipherSuite) : bool :=
  match suite with CHACHA20_POLY1305_SHA256 => true | _ => false end.

(** [TLSCipher::rfcname] *)
Definition rfcname `{CryptoLib} (cipher : TLSCipher) : string :=
  if cipher =? no_cipher then "(NONE)" else SSL_CIPHER_standard_name cipher.

Definition judge_cipher `{CryptoLib} (cipher : TLSCipher) : QUICCipherSuite :=
  if cipher =? no_cipher then AES_128_GCM_SHA256 else to_suite (rfcname cipher).

(** ** Labels and salts ([keys.h]) *)

(** [make_key_material]: the characters without the final zero. *)
Definition make_key_material (data : string) : list Z :=
  map (fun c => Z.of_nat (nat_of_ascii c)) (String.list_ascii_of_string data).

(** The lambda [hex_to_bin]; [None] where it is undefined. *)
Definition hex_to_bin (c : ascii) : option Z :=
  let n := Z.of_nat (nat_of_ascii c) in
  if (48 <=? n) && (n <=? 57) then Some (n - 48)
  else if (97 <=? n) && (n <=? 102) then Some (n - 97 + 0xa)
  else if (65 <=? n) && (n <=? 70) then Some (n - 65 + 0xa)
  else None.

Fixpoint material_of_digits (l : list ascii) : option (list Z) :=
  match l with
  | [] => Some []
  | [_] => None
  | a :: b :: l =>
      match hex_to_bin a, hex_to_bin b, material_of_digits l with
      | Some x, Some y, Some m => Some (Z.lor (Z.shiftl x 4) y :: m)
      | _, _, _ => None
      end
  end.

(** [make_material_from_bintext]: evaluated when the source is compiled, so
    a text it is undefined for does not compile. *)
Definition make_material_from_bintext (data : string) : list Z :=
  default [] (material_of_digits (String.list_ascii_of_string data)).

Definition quic_key := make_key_material "quic key".
Definition quic_iv := make_key_material "quic iv".
Definition quic_hp := make_key_material "quic hp".
Definition server_in := make_key_material "server in".
Definition client_in := make_key_material "client in".
Definition quic_ku := make_key_material "quic ku".
Definition quic_v1_initial_salt := make_material_from_bintext "38762cf7f55934b34d179ae6a4c80cadccbb7f0a".
Definition quic_v1_retry_integrity_tag_key := make_material_from_bintext "be0c690b9f66575a1d766b54e368c84e".
Definition quic_v1_retry_integrity_tag_nonce := make_material_from_bintext "461599d35d632bf2239825bb".

(** Bytes written through a span into part of an array. *)
Definition splice (l : list Z) (pos : nat) (bs : list Z) : list Z :=
  take pos l ++ bs ++ drop (pos + length bs) l.

Module KeyIV.
Record t := mk { resource : list Z; hash_len : Z }.
Definition key (k : t) : list Z := rsubstr (resource k) 0 (hash_len k).
Definition iv (k : t) : list Z := rsubstr (resource k) (hash_len k) 12.
Definition set_key bs (k : t) : t := mk (splice (resource k) 0 bs) (hash_len k).
Definition set_iv bs (k : t) : t := mk (splice (resource k) (Z.to_nat (hash_len k)) bs) (hash_len k).
Definition set_hash_len n (k : t) : t := mk (resource k) n.
Definition clear : t := mk (replicate 44 0) 0.
End KeyIV.

Module HP.
Record t := mk { resource : list Z; hash_len : Z }.
Definition hp (k : t) : list Z := rsubstr (resource k) 0 (hash_len k).
Definition set_hp bs (k : t) : t := mk (splice (resource k) 0 bs) (hash_len k).
Definition set_hash_len n (k : t) : t := mk (resource k) n.
Definition clear : t := mk (replicate 32 0) 0.
End HP.

(** ** Key derivation ([enc_keys.cpp]) *)

Section derive.
Context `{CryptoLib}.

Definition digest_SHA256 : string := "SHA256".

(** [salt] is never null in the calls of this library. *)
Definition HKDF_Extract_openssl (len : Z) (secret salt : list Z) : option (list Z) :=
  match EVP_KDF_derive with
  | None => None
  | Some derive => derive (mk_kdf "EXTRACT_ONLY" secret digest_SHA256 (Some salt) None) len
  end.

Definition HKDF_Extract (len : Z) (secret salt : list Z) : option (list Z) :=
  match HKDF_extract with
  | None => HKDF_Extract_openssl len secret salt
  | Some extract => extract secret salt len
  end.

Definition HKDF_Expand_openssl (len : Z) (secret label : list Z) : option (list Z) :=
  match EVP_KDF_derive with
  | None => None
  | Some derive => derive (mk_kdf "EXPAND_ONLY" secret digest_SHA256 None (Some label)) len
  end.

(** The label, in the order it is written to [tmp]. *)
Definition write_label (len : Z) (quic_label : list Z) : writer -> bool * writer :=
  write_num 2 len ;& wr_fill (u8 (6 + size quic_label)) 1 ;& wr_write (make_key_material "tls13 ") ;&
  wr_write quic_label ;& wr_fill 0 1.

(** [len]: the size of the span [output]. *)
Definition HKDF_Expand_label (tmp : list Z) (len : Z) (secret quic_label : list Z) : option (list Z) :=
  if 0xff <? u64 (6 + size quic_label) then None
  else if 0xffff <? len then None
  else
    let '(ok, w) := write_label len quic_label (new_writer tmp) in
    if negb ok then None
    else
      let label := wr_written w in
      match HKDF_expand with
      | None => HKDF_Expand_openssl len secret label
      | Some expand => expand secret label len
      end.

(** [byte tmp[100]], not initialised: what it holds is not read. *)
Definition tmp100 : list Z := replicate 100 0.

Definition make_initial_secret (secret_len version : Z) (clientConnID : list Z) (enc_client : bool) : option (list Z) :=
  if negb (secret_len =? 32) then None
  else if negb (version =? version_1) then None
  else
    match HKDF_Extract 32 clientConnID quic_v1_initial_salt with
    | None => None
    | Some extract => HKDF_Expand_label tmp100 secret_len extract (if enc_client then client_in else server_in)
    end.

Definition err_cipher_suite := LibError "cipher spec is not AES based or CHACHA20 based".
Definition err_hash_length := LibError "key: invalid hash length. expect 16 or 32.".
Definition err_generate := LibError "key: failed to generate encryption key".
Definition err_version := LibError "key: unknown QUIC version".

(** The checks [make_key_and_iv] and [make_hp] share. *)
Definition key_length (cipher : TLSCipher) : Z + Error :=
  let suite := judge_cipher cipher in
  if bool_decide (suite = Unsupported) then inr err_cipher_suite
  else
    let hash_len := suite_hash_len suite in
    if negb (hash_len =? 16) && negb (hash_len =? 32) then inr err_hash_length else inl hash_len.

(** The length is set before anything is derived. *)
Definition make_key_and_iv (keys : KeyIV.t) (cipher : TLSCipher) (version : Z) (secret : list Z)
    : option Error * KeyIV.t :=
  match key_length cipher with
  | inr e => (Some e, keys)
  | inl hash_len =>
      let keys := KeyIV.set_hash_len hash_len keys in
      if version =? version_1 then
        match HKDF_Expand_label tmp100 (size (KeyIV.key keys)) secret quic_key with
        | None => (Some err_generate, keys)
        | Some k =>
            let keys := KeyIV.set_key k keys in
            match HKDF_Expand_label tmp100 (size (KeyIV.iv keys)) secret quic_iv with
            | None => (Some err_generate, keys)
            | Some v => (None, KeyIV.set_iv v keys)
            end
        end
      else (Some err_version, keys)
  end.

Definition make_hp (hp : HP.t) (cipher : TLSCipher) (version : Z) (secret : list Z) : option Error * HP.t :=
  match key_length cipher with
  | inr e => (Some e, hp)
  | inl hash_len =>
      let hp := HP.set_hash_len hash_len hp in
      if version =? version_1 then
        match HKDF_Expand_label tmp100 (size (HP.hp hp)) secret quic_hp with
        | None => (Some err_generate, hp)
        | Some k => (None, HP.set_hp k hp)
        end
      else (Some err_version, hp)
  end.

Definition make_updated_key (new_len : Z) (secret : list Z) (version : Z) : list Z + Error :=
  if negb (new_len =? size secret) then
    inr (LibError "new_secret size is not same as old secret size")
  else if version =? version_1 then
    match HKDF_Expand_label tmp100 new_len secret quic_ku with
    | None => inr err_generate
    | Some k => inl k
    end
  else inr err_version.
End derive.

(** ** [struct Secret] ([secret.h]) *)

Definition err_not_installed := LibError "secret is not installed".

Module Secret.
(** [secret_]: [None] is the null storage. *)
Record t := mk { secret_ : option (list Z); cipher : TLSCipher; keyiv_ : KeyIV.t }.

Definition discard : t := mk None no_cipher KeyIV.clear.
(** The allocation is taken to succeed. *)
Definition install (new_secret : list Z) (cipher : TLSCipher) : t := mk (Some new_secret) cipher KeyIV.clear.
Definition is_installed (s : t) : bool := match secret_ s with Some _ => true | None => false end.
Definition is_used (s : t) : bool := negb (KeyIV.hash_len (keyiv_ s) =? 0).

(** [to = std::move(from)]: the target and what is left of the source. *)
Definition move (from : t) : t * t := (from, mk None no_cipher KeyIV.clear).

Section ops.
Context `{CryptoLib}.

(** The pointer returned is to the [keyiv_] of the result. *)
Definition keyiv (version : Z) (s : t) : option Error * t :=
  match secret_ s with
  | None => (Some err_not_installed, s)
  | Some sec =>
      if KeyIV.hash_len (keyiv_ s) =? 0 then
        let '(err, k) := make_key_and_iv (keyiv_ s) (cipher s) version sec in
        (err, mk (secret_ s) (cipher s) k)
      else (None, s)
  end.

Definition hp (hp_ : HP.t) (version : Z) (s : t) : option Error * HP.t :=
  match secret_ s with
  | None => (Some err_not_installed, hp_)
  | Some sec => make_hp hp_ (cipher s) version sec
  end.

Definition hp_if_zero (hp_ : HP.t) (version : Z) (s : t) : option Error * HP.t :=
  if HP.hash_len hp_ =? 0 then hp hp_ version s else (None, hp_).

(** [update(out, version)]: [out_len] is the size of the span [out]. *)
Definition update (out_len version : Z) (s : t) : list Z + Error :=
  match secret_ s with
  | None => inr err_not_installed
  | Some sec => make_updated_key (Z.min out_len (size sec)) sec version
  end.
End ops.
End Secret.
