(* ===== verification/PacketProtect.v ===== *)
(** * PacketProtect: header protection and payload encryption

    Models [lib/fnet/quic/crypto/enc_packet.cpp], [masks.cpp] and
    [cipher_payload.cpp]. The spans of a packet alias its bytes: a function
    that writes through them gives the packet with its new bytes, also when
    it fails. *)

From stdpp Require Import base numbers list strings.
From Stdlib Require Import ZArith Lia.
From S2P Require Import Prelude Bytes PacketNumber Types ShortPacket Keys.

#[local] Open Scope string_scope.
#[local] Open Scope Z_scope.
#[local] Open Scope list_scope.

Definition authentication_tag_length : Z := 16.
Definition sample_skip_size : Z := 4.
Definition sample_len : Z := 16.

Definition err_packet_format := LibError "CryptoPacket: QUIC packet format is not valid".
Definition err_cipher_spec := LibError "cipher spec is not AES based or ChaCha20 based".
Definition err_aes_mask := LibError "failed to generate header mask AES-based".
Definition err_cha_cha_mask := LibError "failed to generate header mask ChaCha20-based".
Definition err_too_short_payload := LibError "not enough payload length. least 20 byte required".
Definition err_unknown := LibError "unknown packet parser error. library bug!".
Definition err_decode_pn := LibError "failed to decode packet number".
Definition err_header_not_decrypted :=
  LibError "header is not decrypted. call decrypt_header() before call decrypt_payload()".

Section protect.
Context `{CryptoLib}.

(** ** Masks ([masks.cpp]) *)

(** The first five bytes of one encrypted block; [masks] before the call are
    zeros, as in both callers. *)
Definition generate_masks_aes_based (hp_key sample : list Z) (is_aes256 : bool) : option (list Z) :=
  match EVP_aes_ecb is_aes256 hp_key (take 16 sample) with
  | None => None
  | Some block => Some (take 5 (block ++ replicate 64 0))
  end.

(** With BoringSSL the key stream goes to [data]; [zeros] is copied. *)
Definition generate_masks_chacha20_based (hp_key sample : list Z) : option (list Z) :=
  let zeros := replicate 5 0 in
  match CRYPTO_chacha_20 with
  | Some chacha =>
      let counter := read_le (take 4 sample) in
      let data := chacha zeros hp_key (drop 4 sample) counter in
      Some zeros
  | None =>
      match EVP_chacha20 hp_key sample zeros with
      | None => None
      | Some data => Some (take 5 data)
      end
  end.

Definition gen_masks (hp_key : list Z) (cipher : TLSCipher) (sample : list Z) : list Z + Error :=
  let suite := judge_cipher cipher in
  if bool_decide (suite = Unsupported) then inr err_cipher_spec
  else if is_AES_based suite then
    match generate_masks_aes_based hp_key sample (suite_hash_len suite =? 32) with
    | None => inr err_aes_mask
    | Some m => inl m
    end
  else
    match generate_masks_chacha20_based hp_key sample with
    | None => inr err_cha_cha_mask
    | Some m => inl m
    end.

(** ** Nonce and header protection *)

Definition xor_bytes (a b : list Z) : list Z := zip_with Z.lxor a b.

(** The packet number at the end of a zeroed buffer, masked with the iv. *)
Definition make_nonce (iv : list Z) (packet_number : Z) : list Z :=
  xor_bytes (replicate (length iv - 8) 0 ++ write_be 8 packet_number) iv.

Definition apply_hp_pn_mask (mask pn_wire : list Z) : list Z := xor_bytes pn_wire mask.

Definition apply_hp_first_byte_mask (mask first_byte : Z) : Z := PacketFlags.protect first_byte mask.

Definition set_src (bs : list Z) (p : CryptoPacket.t) : CryptoPacket.t :=
  CryptoPacket.mk bs (CryptoPacket.head_len p) (CryptoPacket.packet_number p).

Definition protect_header (pnlen : Z) (hp_key : list Z) (cipher : TLSCipher) (packet : CryptoPacket.t)
    : option Error * CryptoPacket.t :=
  match CryptoPacket.parse packet sample_len authentication_tag_length with
  | None => (Some err_unknown, packet)
  | Some encrypted =>
      match gen_masks hp_key cipher (cp_sample encrypted) with
      | inr e => (Some e, packet)
      | inl masks =>
          let pn_wire := rsubstr (cp_protected_payload encrypted) 0 pnlen in
          if negb (size pn_wire =? pnlen) then (Some err_unknown, packet)
          else
            let src := splice (CryptoPacket.src packet) 0
              [apply_hp_first_byte_mask (nth 0 masks 0) (nth 0 (cp_head encrypted) 0)] in
            let src := splice src (Z.to_nat (CryptoPacket.head_len packet))
              (apply_hp_pn_mask (drop 1 masks) pn_wire) in
            (None, set_src src packet)
      end
  end.

(** The first byte is unmasked before the rest is checked. *)
Definition unprotect_header (hp_key : list Z) (cipher : TLSCipher) (packet : CryptoPacket.t)
    : (packetnum.WireVal + Error) * CryptoPacket.t :=
  match CryptoPacket.parse packet sample_len authentication_tag_length with
  | None => (inr err_packet_format, packet)
  | Some encrypted =>
      match gen_masks hp_key cipher (cp_sample encrypted) with
      | inr e => (inr e, packet)
      | inl masks =>
          let first := apply_hp_first_byte_mask (nth 0 masks 0) (nth 0 (cp_head encrypted) 0) in
          let src := splice (CryptoPacket.src packet) 0 [first] in
          let pnlen := PacketFlags.packet_number_length first in
          let pn_wire := rsubstr (cp_protected_payload encrypted) 0 pnlen in
          if negb (size pn_wire =? pnlen) then (inr err_packet_format, set_src src packet)
          else
            let pn_wire := apply_hp_pn_mask (drop 1 masks) pn_wire in
            let src := splice src (Z.to_nat (CryptoPacket.head_len packet)) pn_wire in
            match packetnum.read (new_reader pn_wire) pnlen with
            | (None, _) => (inr err_decode_pn, set_src src packet)
            | (Some wireval, _) => (inl wireval, set_src src packet)
            end
      end
  end.

(** ** Payload encryption ([cipher_payload.cpp]) *)

Definition set_payload v (i : CryptoPacketPnKnown) := mk_CryptoPacketPnKnown (pk_head i) v (pk_auth_tag i).
Definition set_auth_tag v (i : CryptoPacketPnKnown) := mk_CryptoPacketPnKnown (pk_head i) (pk_protected_payload i) v.

Definition op_error (enc : bool) (e d : string) : option Error := Some (LibError (if enc then e else d)).

(** The output replaces the input before the tag is verified. *)
Definition cipher_payload_impl (meth : EVP) (info : CryptoPacketPnKnown) (key iv_nonce : list Z) (enc : bool)
    : option Error * CryptoPacketPnKnown :=
  match EVP_CipherInit_meth meth enc EVP_CIPHER_CTX_new with
  | None => (Some (LibError "failed to initialize cipher context"), info)
  | Some ctx =>
  match EVP_set_ivlen (size iv_nonce) ctx with
  | None => (Some (LibError "failed to set iv len"), info)
  | Some ctx =>
  match EVP_CipherInit_key key iv_nonce enc ctx with
  | None => (Some (LibError "failed to set key and iv len"), info)
  | Some ctx =>
  match EVP_CipherUpdate_aad (pk_head info) ctx with
  | None => (Some (LibError "failed to set QUIC packet header as AAD"), info)
  | Some ctx =>
  match EVP_CipherUpdate (pk_protected_payload info) ctx with
  | None => (op_error enc "failed to encrypt QUIC packet" "failed to decrypt QUIC packet", info)
  | Some (output, ctx) =>
      let info := set_payload output info in
      match (if enc then Some ctx else EVP_set_tag (pk_auth_tag info) ctx) with
      | None => (Some (LibError "failed to set MAC tag"), info)
      | Some ctx =>
          match EVP_CipherFinal ctx with
          | None => (op_error enc "failed to verify encryption" "failed to verify decryption", info)
          | Some ctx =>
              if enc then
                match EVP_get_tag (size (pk_auth_tag info)) ctx with
                | None => (Some (LibError "failed to get MAC tag"), info)
                | Some tag => (None, set_auth_tag tag info)
                end
              else (None, info)
          end
      end
  end end end end end.

Definition boringssl_chacha20_poly1305_cipher (ctx_new : list Z -> option AEAD_CTX) (info : CryptoPacketPnKnown)
    (key iv_nonce : list Z) (enc : bool) : option Error * CryptoPacketPnKnown :=
  match ctx_new key with
  | None => (Some (LibError "unable to get cipher context of chacha20_poly1305"), info)
  | Some ctx =>
      if enc then
        match EVP_AEAD_CTX_seal ctx iv_nonce (pk_head info) (pk_protected_payload info) with
        | None => (Some (LibError "encrypt payload with chacha20_poly1305 failed"), info)
        | Some (text, tag) => (None, set_auth_tag tag (set_payload text info))
        end
      else
        match EVP_AEAD_CTX_open ctx iv_nonce (pk_head info) (pk_protected_payload info) (pk_auth_tag info) with
        | None => (Some (LibError "decrypt payload with chacha20_poly1305 failed"), info)
        | Some text => (None, set_payload text info)
        end
  end.

Definition cipher_payload (cipher : TLSCipher) (info : CryptoPacketPnKnown) (key iv_nonce : list Z) (enc : bool)
    : option Error * CryptoPacketPnKnown :=
  if cipher =? no_cipher then cipher_payload_impl EVP_aes_128_gcm info key iv_nonce enc
  else
    match EVP_get_cipherbynid (SSL_CIPHER_get_cipher_nid cipher) with
    | Some meth => cipher_payload_impl meth info key iv_nonce enc
    | None =>
        let unknown := (Some (LibError ("unknown cipher suite: " +:+ rfcname cipher)), info) in
        if is_CHACHA20_based (judge_cipher cipher) then
          match EVP_aead_chacha20_poly1305 with
          | Some ctx_new => boringssl_chacha20_poly1305_cipher ctx_new info key iv_nonce enc
          | None => unknown
          end
        else unknown
    end.

(** The three spans of [info] are consecutive in the bytes of the packet. *)
Definition put_info (info : CryptoPacketPnKnown) (packet : CryptoPacket.t) : CryptoPacket.t :=
  set_src (pk_head info ++ pk_protected_payload info ++ pk_auth_tag info) packet.

(** ** The entry points ([crypto.h]) *)

(** The checks the three functions start with. *)
Definition bad_packet (packet : CryptoPacket.t) : option Error :=
  if (CryptoPacket.head_len packet <? 1) || (size (CryptoPacket.src packet) <? 1) then Some err_packet_format
  else if CryptoPacket.payload_len packet <? 20 then Some err_too_short_payload
  else None.

Definition encrypt_packet (keyiv : KeyIV.t) (hp : HP.t) (cipher : TLSCipher) (packet : CryptoPacket.t)
    : option Error * CryptoPacket.t :=
  match bad_packet packet with
  | Some e => (Some e, packet)
  | None =>
      let pnlen := PacketFlags.packet_number_length (nth 0 (CryptoPacket.src packet) 0) in
      match CryptoPacket.parse_pnknown packet pnlen authentication_tag_length with
      | None => (Some err_packet_format, packet)
      | Some parsed =>
          let nonce := make_nonce (KeyIV.iv keyiv) (CryptoPacket.packet_number packet) in
          let '(err, parsed) := cipher_payload cipher parsed (KeyIV.key keyiv) nonce true in
          let packet := put_info parsed packet in
          match err with
          | Some e => (Some e, packet)
          | None => protect_header pnlen (HP.hp hp) cipher packet
          end
      end
  end.

(** [None]: the decoding of the packet number is undefined. *)
Definition decrypt_header (hp : HP.t) (cipher : TLSCipher) (packet : CryptoPacket.t) (largest_pn : Z)
    : option (option Error * CryptoPacket.t) :=
  match bad_packet packet with
  | Some e => Some (Some e, packet)
  | None =>
      match unprotect_header (HP.hp hp) cipher packet with
      | (inr e, packet) => Some (Some e, packet)
      | (inl pn_wire, packet) =>
          match packetnum.decode (packetnum.wvalue pn_wire) (packetnum.wlen pn_wire) largest_pn with
          | packetnum.DecOk pn =>
              Some (None, CryptoPacket.mk (CryptoPacket.src packet) (CryptoPacket.head_len packet) pn)
          | packetnum.DecError => Some (Some err_decode_pn, packet)
          | packetnum.DecUndefined => None
          end
      end
  end.

Definition decrypt_payload (keyiv : KeyIV.t) (cipher : TLSCipher) (packet : CryptoPacket.t)
    : option Error * CryptoPacket.t :=
  match bad_packet packet with
  | Some e => (Some e, packet)
  | None =>
      if CryptoPacket.packet_number packet =? packetnum.infinity then (Some err_header_not_decrypted, packet)
      else
        let pnlen := PacketFlags.packet_number_length (nth 0 (CryptoPacket.src packet) 0) in
        match CryptoPacket.parse_pnknown packet pnlen authentication_tag_length with
        | None => (Some err_unknown, packet)
        | Some pnknown =>
            let nonce := make_nonce (KeyIV.iv keyiv) (CryptoPacket.packet_number packet) in
            let '(err, pnknown) := cipher_payload cipher pnknown (KeyIV.key keyiv) nonce false in
            (err, put_info pnknown packet)
        end
  end.

(** [tag]: what the span held before. *)
Definition generate_retry_integrity_tag (tag pseudo_packet : list Z) (version : Z) : option Error * list Z :=
  if version =? version_1 then
    let info := mk_CryptoPacketPnKnown pseudo_packet [] tag in
    let '(err, info) := cipher_payload no_cipher info quic_v1_retry_integrity_tag_key
                          quic_v1_retry_integrity_tag_nonce true in
    (err, pk_auth_tag info)
  else (Some (LibError "unknown QUIC version"), tag).
End protect.
