(* ===== verification/ProtectProps.v ===== *)
(** * ProtectProps: what packet protection keeps

    The theorems on Keys and PacketProtect. [CryptoLibLaws] states what the
    documentation of the cryptographic library promises of authenticated
    encryption and of the key stream. *)

From stdpp Require Import base numbers list strings.
From Stdlib Require Import ZArith Lia.
From S2P Require Import Prelude Bytes PacketNumber Types ShortPacket Keys PacketProtect.

#[local] Open Scope string_scope.
#[local] Open Scope Z_scope.
#[local] Open Scope list_scope.

(** What is sealed opens with the same key, nonce and associated data; the
    cipher text is as long as the text; a key stream is as long as its
    input. *)
Class CryptoLibLaws (L : CryptoLib) := {
  evp_roundtrip : forall meth n key iv aad text c1 c2 c3 c4 ct c5 c6 tag,
    EVP_CipherInit_meth meth true EVP_CIPHER_CTX_new = Some c1 -> EVP_set_ivlen n c1 = Some c2 ->
    EVP_CipherInit_key key iv true c2 = Some c3 -> EVP_CipherUpdate_aad aad c3 = Some c4 ->
    EVP_CipherUpdate text c4 = Some (ct, c5) -> EVP_CipherFinal c5 = Some c6 ->
    EVP_get_tag authentication_tag_length c6 = Some tag ->
    length ct = length text /\ size tag = authentication_tag_length /\
    exists d1 d2 d3 d4 d5 d6 d7,
      EVP_CipherInit_meth meth false EVP_CIPHER_CTX_new = Some d1 /\ EVP_set_ivlen n d1 = Some d2 /\
      EVP_CipherInit_key key iv false d2 = Some d3 /\ EVP_CipherUpdate_aad aad d3 = Some d4 /\
      EVP_CipherUpdate ct d4 = Some (text, d5) /\ EVP_set_tag tag d5 = Some d6 /\ EVP_CipherFinal d6 = Some d7;
  aead_roundtrip : forall ctx nonce aad text ct tag,
    EVP_AEAD_CTX_seal ctx nonce aad text = Some (ct, tag) ->
    length ct = length text /\ size tag = authentication_tag_length /\
    EVP_AEAD_CTX_open ctx nonce aad ct tag = Some text;
  chacha_length : forall key iv input out, EVP_chacha20 key iv input = Some out -> length out = length input
}.

(** ** Bytes *)

Lemma splice_0 b b' l : splice (b :: l) 0 [b'] = b' :: l.
Proof. done. Qed.

Lemma splice_app a b b' l : length b = length b' -> splice (a ++ b ++ l) (length a) b' = a ++ b' ++ l.
Proof.
  intros E. unfold splice. rewrite take_app_length. f_equal. f_equal.
  rewrite drop_app_add, <- E. apply drop_app_length.
Qed.

Lemma xor_length a m : (length a <= length m)%nat -> length (xor_bytes a m) = length a.
Proof. intros. unfold xor_bytes. rewrite length_zip_with. lia. Qed.

Lemma xor_twice a m : (length a <= length m)%nat -> xor_bytes (xor_bytes a m) m = a.
Proof.
  revert m. induction a as [| x a IH]; intros [| y m] E; simpl in *; try done; try lia.
  f_equal; [| apply IH; lia]. by rewrite Z.lxor_assoc, Z.lxor_nilpotent, Z.lxor_0_r.
Qed.

Lemma pnlen_range b : 1 <= PacketFlags.packet_number_length b <= 4.
Proof.
  unfold PacketFlags.packet_number_length. change 0x3 with (2 ^ 2 - 1). rewrite land_ones_mod by lia.
  pose proof (Z.mod_pos_bound b (2 ^ 2)). lia.
Qed.

Lemma key_length_16_32 `{L : CryptoLib} c n : key_length c = inl n -> n = 16 \/ n = 32.
Proof.
  unfold key_length. case_bool_decide; [done |]. destruct (judge_cipher c); cbn; intros [= <-]; lia.
Qed.

(** ** Packets as the parts packet protection works on *)

Section roundtrip.
Context `{L : CryptoLib} `{!CryptoLibLaws L}.

Lemma masks_length key cipher sample masks : gen_masks key cipher sample = inl masks -> length masks = 5%nat.
Proof.
  unfold gen_masks, generate_masks_aes_based, generate_masks_chacha20_based.
  case_bool_decide; [done |]. destruct (is_AES_based _).
  - destruct (EVP_aes_ecb _ _ _); [| done]. intros [= <-]. rewrite length_take, length_app. apply Nat.min_l. simpl length. lia.
  - destruct CRYPTO_chacha_20; [by intros [= <-] |].
    destruct (EVP_chacha20 _ _ _) eqn:E; [| done]. intros [= <-].
    apply chacha_length in E. rewrite length_take, E. done.
Qed.

(** A packet of a header, a packet number, a payload and room for a tag. *)
Definition pkt (h pnw body tag : list Z) (pn : Z) : CryptoPacket.t :=
  CryptoPacket.mk (h ++ pnw ++ body ++ tag) (size h) pn.

Definition pkt_ok (h pnw body tag : list Z) : Prop :=
  size (h ++ pnw ++ body ++ tag) < 2 ^ 63 /\ 1 <= size h /\ 20 <= size pnw + size body + size tag /\
  size tag = authentication_tag_length /\ 1 <= size pnw <= 4.

Lemma pkt_bad h pnw body tag pn : pkt_ok h pnw body tag -> bad_packet (pkt h pnw body tag pn) = None.
Proof.
  intros (H1 & H2 & H3 & H4 & H5). unfold bad_packet, pkt, CryptoPacket.payload_len. cbn [CryptoPacket.src CryptoPacket.head_len].
  rewrite !size_app in *. unfold authentication_tag_length in *. pose proof (size_nonneg body).
  rewrite !ltb_false by (rewrite ?ltb_false; lia). done.
Qed.

Lemma pkt_pnknown h pnw body tag pn :
  pkt_ok h pnw body tag ->
  CryptoPacket.parse_pnknown (pkt h pnw body tag pn) (size pnw) authentication_tag_length =
    Some (mk_CryptoPacketPnKnown (h ++ pnw) body tag).
Proof.
  intros (H1 & H2 & H3 & H4 & H5). rewrite !size_app in H1. pose proof (size_nonneg body).
  rewrite crypto_pnknown_some; unfold pkt; cbn [CryptoPacket.src CryptoPacket.head_len];
    rewrite ?size_app, ?H4; unfold authentication_tag_length in *; try lia.
  f_equal. unfold size in *. rewrite !app_assoc, <- (app_assoc (h ++ pnw)).
  replace (Z.to_nat (Z.of_nat (length h) + Z.of_nat (length pnw))) with (length (h ++ pnw)) by (rewrite length_app; lia).
  replace (Z.to_nat (_ - _)) with (length body) by lia.
  rewrite take_app_length, drop_app_length, take_app_length, drop_app_add, drop_app_length, take_ge by lia. done.
Qed.

Lemma pkt_parse h pnw body tag pn :
  pkt_ok h pnw body tag ->
  CryptoPacket.parse (pkt h pnw body tag pn) sample_len authentication_tag_length =
    Some (mk_CryptoPacketParsed h (take 16 (drop 4 (pnw ++ body ++ tag))) (pnw ++ body) tag).
Proof.
  intros (H1 & H2 & H3 & H4 & H5). rewrite !size_app in H1. pose proof (size_nonneg body).
  rewrite crypto_parse_some; unfold pkt; cbn [CryptoPacket.src CryptoPacket.head_len];
    rewrite ?size_app, ?H4; unfold authentication_tag_length, sample_len in *; try lia.
  f_equal. unfold size in *. rewrite Nat2Z.id, take_app_length, drop_app_add, drop_app_length.
  replace (Z.to_nat (_ - _ - _)) with (length (pnw ++ body)) by (rewrite length_app; lia).
  rewrite drop_app_add, !(app_assoc pnw), take_app_length, drop_app_length, (take_ge tag) by lia. done.
Qed.

(** The sample is the same before and after the packet number is masked. *)
Lemma sample_stable (pnw pnw' rest : list Z) :
  length pnw = length pnw' -> (length pnw <= 4)%nat ->
  take 16 (drop 4 (pnw ++ rest)) = take 16 (drop 4 (pnw' ++ rest)).
Proof. intros E Hl. by rewrite !drop_app_ge, E by lia. Qed.

Lemma first_of_app (b : Z) (h l : list Z) : nth 0 ((b :: h) ++ l) 0 = b.
Proof. done. Qed.

Lemma rsubstr_front a b : rsubstr (a ++ b) 0 (size a) = a.
Proof.
  unfold size. rewrite rsubstr_take by (rewrite length_app; lia). apply take_app_length.
Qed.

Lemma protect_spec b h pnw body tag pn key cipher masks :
  pkt_ok (b :: h) pnw body tag ->
  gen_masks key cipher (take 16 (drop 4 (pnw ++ body ++ tag))) = inl masks ->
  protect_header (size pnw) key cipher (pkt (b :: h) pnw body tag pn) =
    (None, pkt (PacketFlags.protect b (nth 0 masks 0) :: h) (xor_bytes pnw (drop 1 masks)) body tag pn).
Proof.
  intros Hok Hm. unfold protect_header. rewrite pkt_parse by done.
  cbn [cp_sample cp_protected_payload cp_head nth]. rewrite Hm, rsubstr_front, Z.eqb_refl. cbn [negb].
  unfold set_src, pkt. cbn [CryptoPacket.src CryptoPacket.head_len CryptoPacket.packet_number].
  pose proof (masks_length _ _ _ _ Hm) as Hl. destruct Hok as (_ & _ & _ & _ & Hp). unfold size in Hp.
  rewrite <- app_comm_cons, splice_0, app_comm_cons. unfold size at 1. rewrite Nat2Z.id.
  unfold apply_hp_first_byte_mask, apply_hp_pn_mask.
  change (length (b :: h)) with (length (PacketFlags.protect b (nth 0 masks 0) :: h)).
  rewrite splice_app; [done |]. rewrite xor_length; [done |]. rewrite length_drop. lia.
Qed.

Lemma unprotect_spec b h pnw body tag pn key cipher masks wv pn0 :
  let pnw' := xor_bytes pnw (drop 1 masks) in
  pkt_ok (b :: h) pnw body tag -> size pnw = PacketFlags.packet_number_length b ->
  gen_masks key cipher (take 16 (drop 4 (pnw ++ body ++ tag))) = inl masks ->
  packetnum.read (new_reader pnw) (size pnw) = (Some wv, pn0) ->
  unprotect_header key cipher (pkt (PacketFlags.protect b (nth 0 masks 0) :: h) pnw' body tag pn) =
    (inl wv, pkt (b :: h) pnw body tag pn).
Proof.
  intros pnw' Hok Hpn Hm Hr. pose proof (masks_length _ _ _ _ Hm) as Hl.
  pose proof Hok as (Hs & Hh & H20 & Ht & Hp).
  assert (Hx : length pnw' = length pnw).
  { apply xor_length. rewrite length_drop. unfold size in Hp. lia. }
  assert (Hsx : size pnw' = size pnw) by (unfold size; lia).
  assert (Hok' : pkt_ok (PacketFlags.protect b (nth 0 masks 0) :: h) pnw' body tag).
  { unfold pkt_ok. rewrite !size_app, !size_cons, Hsx in *. auto. }
  unfold unprotect_header. rewrite pkt_parse by done.
  cbn [cp_sample cp_protected_payload cp_head nth]. rewrite (sample_stable pnw' pnw) by (unfold size in *; lia).
  rewrite Hm. unfold apply_hp_first_byte_mask. rewrite protect_involutive, <- Hpn, <- Hsx, rsubstr_front, Z.eqb_refl.
  cbn [negb]. unfold apply_hp_pn_mask, pnw'.
  rewrite xor_twice by (rewrite length_drop; unfold size in Hp; lia). fold pnw'. rewrite Hsx, Hr.
  unfold set_src, pkt. cbn [CryptoPacket.src CryptoPacket.head_len CryptoPacket.packet_number].
  rewrite <- app_comm_cons, splice_0, app_comm_cons. unfold size at 1. rewrite Nat2Z.id.
  change (length (PacketFlags.protect b (nth 0 masks 0) :: h)) with (length (b :: h)).
  rewrite splice_app by done. done.
Qed.

(** Sealing and opening a payload. *)
Lemma cipher_payload_roundtrip cipher head body tag key nonce info :
  size tag = authentication_tag_length ->
  cipher_payload cipher (mk_CryptoPacketPnKnown head body tag) key nonce true = (None, info) ->
  exists ct tag', info = mk_CryptoPacketPnKnown head ct tag' /\ length ct = length body /\
    size tag' = authentication_tag_length /\
    cipher_payload cipher (mk_CryptoPacketPnKnown head ct tag') key nonce false =
      (None, mk_CryptoPacketPnKnown head body tag').
Proof.
  intros Ht. assert (Himpl : forall meth,
    cipher_payload_impl meth (mk_CryptoPacketPnKnown head body tag) key nonce true = (None, info) ->
    exists ct tag', info = mk_CryptoPacketPnKnown head ct tag' /\ length ct = length body /\
      size tag' = authentication_tag_length /\
      cipher_payload_impl meth (mk_CryptoPacketPnKnown head ct tag') key nonce false =
        (None, mk_CryptoPacketPnKnown head body tag')).
  { intros meth E. unfold cipher_payload_impl in E.
    cbn [pk_head pk_protected_payload pk_auth_tag set_payload set_auth_tag] in E. rewrite Ht in E.
    repeat match type of E with context [match ?x with _ => _ end] => destruct x eqn:?; try discriminate end.
    simplify_eq.
    edestruct evp_roundtrip as (E1 & E2 & d1 & d2 & d3 & d4 & d5 & d6 & d7 & G1 & G2 & G3 & G4 & G5 & G6 & G7);
      [eassumption .. |].
    do 2 eexists. split_and!; [reflexivity | done | done |].
    unfold cipher_payload_impl. rewrite G1, G2, G3. cbn. rewrite G4, G5. cbn. rewrite G6, G7. done. }
  unfold cipher_payload. destruct (cipher =? no_cipher); [apply Himpl |].
  destruct (EVP_get_cipherbynid _); [apply Himpl |].
  destruct (is_CHACHA20_based _); [| done]. destruct EVP_aead_chacha20_poly1305 as [ctx_new |]; [| done].
  unfold boringssl_chacha20_poly1305_cipher. destruct (ctx_new key) as [ctx |]; [| done].
  cbn [pk_head pk_protected_payload pk_auth_tag].
  destruct (EVP_AEAD_CTX_seal _ _ _ _) as [[ct tag'] |] eqn:E; [| done]. intros [= <-].
  apply aead_roundtrip in E as (E1 & E2 & E3).
  exists ct, tag'. unfold set_auth_tag, set_payload. cbn. rewrite E3. done.
Qed.

(** Every packet the checks accept has the parts. *)
Lemma pkt_split p :
  bad_packet p = None -> size (CryptoPacket.src p) < 2 ^ 63 ->
  exists b h pnw body tag, p = pkt (b :: h) pnw body tag (CryptoPacket.packet_number p) /\
    pkt_ok (b :: h) pnw body tag /\ size pnw = PacketFlags.packet_number_length b.
Proof.
  destruct p as [src hl pn]. unfold bad_packet, CryptoPacket.payload_len. cbn [CryptoPacket.src CryptoPacket.head_len].
  intros Hb Hs. destruct (Z.ltb_spec hl 1); [done |]. destruct (Z.ltb_spec (size src) 1); [done |].
  cbn [orb] in Hb. destruct (Z.ltb_spec (size src) hl); [done |].
  destruct (Z.ltb_spec (size src - hl) 20); [done |]. clear Hb.
  destruct src as [| b l]; [done |]. rewrite size_cons in *.
  pose proof (pnlen_range b) as Hp. set (k := PacketFlags.packet_number_length b) in *.
  set (n := Z.to_nat (hl - 1)). set (m := (length l - n - Z.to_nat k - 16)%nat).
  exists b, (take n l), (take (Z.to_nat k) (drop n l)), (take m (drop (n + Z.to_nat k) l)),
    (drop (n + Z.to_nat k + m) l). unfold size in *.
  assert (Hl : b :: l = (b :: take n l) ++ take (Z.to_nat k) (drop n l) ++
    take m (drop (n + Z.to_nat k) l) ++ drop (n + Z.to_nat k + m) l).
  { rewrite <- app_comm_cons. f_equal. rewrite <- !drop_drop. by rewrite !take_drop. }
  assert (Hlen : (n <= length l /\ n + Z.to_nat k + m + 16 = length l)%nat) by lia.
  split_and!.
  - unfold pkt. rewrite <- Hl. unfold size. simpl length. rewrite length_take. f_equal. lia.
  - unfold pkt_ok. rewrite <- Hl. unfold size, authentication_tag_length. simpl length.
    rewrite !length_take, !length_drop. lia.
  - rewrite length_take, length_drop. lia.
Qed.

Lemma encrypt_spec keyiv hp cipher b h pnw body tag pn p' :
  pkt_ok (b :: h) pnw body tag -> size pnw = PacketFlags.packet_number_length b ->
  encrypt_packet keyiv hp cipher (pkt (b :: h) pnw body tag pn) = (None, p') ->
  exists ct tag' masks,
    pkt_ok (b :: h) pnw ct tag' /\
    gen_masks (HP.hp hp) cipher (take 16 (drop 4 (pnw ++ ct ++ tag'))) = inl masks /\
    p' = pkt (PacketFlags.protect b (nth 0 masks 0) :: h) (xor_bytes pnw (drop 1 masks)) ct tag' pn /\
    cipher_payload cipher (mk_CryptoPacketPnKnown ((b :: h) ++ pnw) ct tag') (KeyIV.key keyiv)
      (make_nonce (KeyIV.iv keyiv) pn) false = (None, mk_CryptoPacketPnKnown ((b :: h) ++ pnw) body tag').
Proof.
  intros Hok Hpl. unfold encrypt_packet. rewrite pkt_bad by done.
  cbn [CryptoPacket.src CryptoPacket.packet_number pkt]. rewrite first_of_app, <- Hpl.
  rewrite pkt_pnknown by done.
  destruct (cipher_payload _ _ _ _ true) as [[e |] info] eqn:Ec; [done |].
  pose proof Hok as (_ & _ & _ & Ht & _).
  apply cipher_payload_roundtrip in Ec as (ct & tag' & -> & Hct & Htag & Hopen); [| done].
  unfold put_info, set_src. cbn [pk_head pk_protected_payload pk_auth_tag CryptoPacket.head_len pkt].
  rewrite <- app_assoc. change (CryptoPacket.mk _ _ _) with (pkt (b :: h) pnw ct tag' pn).
  assert (Hok' : pkt_ok (b :: h) pnw ct tag').
  { unfold pkt_ok in *. unfold authentication_tag_length, size in *. rewrite !length_app in *. lia. }
  destruct (gen_masks (HP.hp hp) cipher (take 16 (drop 4 (pnw ++ ct ++ tag')))) as [masks | e] eqn:Em.
  - erewrite protect_spec by done. intros [= <-]. exists ct, tag', masks. done.
  - unfold protect_header. rewrite pkt_parse by done. cbn [cp_sample]. rewrite Em. done.
Qed.

Lemma masked_ok b h pnw ct tag masks f :
  length masks = 5%nat -> pkt_ok (b :: h) pnw ct tag -> pkt_ok (f :: h) (xor_bytes pnw (drop 1 masks)) ct tag.
Proof.
  intros Hm Hok. unfold pkt_ok in *.
  assert (Hx : size (xor_bytes pnw (drop 1 masks)) = size pnw).
  { unfold size in *. rewrite xor_length; [done |]. rewrite length_drop. lia. }
  rewrite !size_app, !size_cons, Hx in *. done.
Qed.

Lemma decrypt_header_spec hp cipher b h pnw ct tag pn masks largest :
  pkt_ok (b :: h) pnw ct tag -> size pnw = PacketFlags.packet_number_length b -> size pnw <= 3 ->
  gen_masks (HP.hp hp) cipher (take 16 (drop 4 (pnw ++ ct ++ tag))) = inl masks ->
  0 <= pn < 2 ^ 62 -> 0 <= largest < 2 ^ 62 -> Z.abs (pn - (largest + 1)) * 2 < 2 ^ (8 * size pnw) ->
  pnw = write_be (Z.to_nat (size pnw)) pn ->
  decrypt_header hp cipher
    (pkt (PacketFlags.protect b (nth 0 masks 0) :: h) (xor_bytes pnw (drop 1 masks)) ct tag packetnum.infinity)
    largest = Some (None, pkt (b :: h) pnw ct tag pn).
Proof.
  intros Hok Hpl Hk Hm Hpn Hlg Hwin Hw. pose proof Hok as (H1 & _ & _ & _ & H5).
  assert (Hrd : rd_ok (new_reader pnw)).
  { split; simpl; [lia |]. unfold u64_max, size in *. rewrite !length_app in H1. lia. }
  assert (Hr : packetnum.read (new_reader pnw) (size pnw) =
    (Some (packetnum.mk_WireVal (pn mod 2 ^ (8 * size pnw)) (size pnw)),
     rd_advance (new_reader pnw) (Z.to_nat (size pnw)))).
  { apply (packetnum.read_pn _ _ _ []); [lia | done |]. rewrite app_nil_r. by rewrite rd_remain_eq. }
  unfold decrypt_header. rewrite pkt_bad by (eapply masked_ok; eauto using masks_length).
  erewrite unprotect_spec by done. cbn [packetnum.wvalue packetnum.wlen].
  by rewrite packetnum.decode_window by lia.
Qed.

(** Encryption is in place: the packet keeps its length. *)
Lemma splice_length l pos bs : (pos + length bs <= length l)%nat -> length (splice l pos bs) = length l.
Proof. intros E. unfold splice. rewrite !length_app, length_take, length_drop. lia. Qed.

Lemma pnknown_length p k info :
  bad_packet p = None -> CryptoPacket.parse_pnknown p k authentication_tag_length = Some info ->
  size (pk_auth_tag info) = authentication_tag_length /\
  size (pk_head info) + size (pk_protected_payload info) + authentication_tag_length = size (CryptoPacket.src p).
Proof.
  destruct p as [src hl pn]. unfold bad_packet, CryptoPacket.payload_len, CryptoPacket.parse_pnknown, packetnum.is_wire_len.
  cbn [CryptoPacket.src CryptoPacket.head_len]. unfold authentication_tag_length. intros Hb Hp.
  destruct ((hl <? 1) || (size src <? 1)) eqn:E1; [done |]. destruct (_ <? 20) eqn:E2 in Hb; [done |]. clear Hb.
  destruct (negb ((1 <=? k) && (k <=? 4))) eqn:E3; [done |]. cbv zeta in Hp.
  destruct (negb _ || negb _ || negb _) eqn:E4 in Hp; [done |]. destruct (negb _) eqn:E5 in Hp; [done |]. injection Hp as <-.
  cbn [pk_auth_tag pk_head pk_protected_payload]. apply negb_false_iff, Z.eqb_eq in E5.
  pose proof (u64_range (hl + k + u64 (size src - u64 (hl + k + 16)) + 16)) as Hr. rewrite <- E5 in Hr. unfold is_u64 in Hr.
  assert (1 <= hl /\ 1 <= k <= 4 /\ hl + 20 <= size src) as (H1 & H2 & H3) by (destruct (Z.ltb_spec (size src) hl); lia).
  rewrite (u64_small (hl + k + 16)), (u64_small (hl + k)) in * by (unfold is_u64; lia).
  rewrite (u64_small (size src - _)) in * by (unfold is_u64; lia). lia.
Qed.

Lemma encrypt_length keyiv hp cipher p p' :
  encrypt_packet keyiv hp cipher p = (None, p') -> length (CryptoPacket.src p') = length (CryptoPacket.src p).
Proof.
  intros E. unfold encrypt_packet in E. destruct (bad_packet p) eqn:Hb; [done |]. cbv zeta in E.
  destruct (CryptoPacket.parse_pnknown _ _ _) as [[head body tag] |] eqn:Ep; [| done].
  destruct (pnknown_length _ _ _ Hb Ep) as [Ht Hl]. cbn [pk_head pk_protected_payload pk_auth_tag] in Ht, Hl.
  destruct (cipher_payload _ _ _ _ true) as [[e |] info] eqn:Ec; [done |].
  apply cipher_payload_roundtrip in Ec as (ct & tag' & -> & Hct & Ht' & _); [| done].
  assert (Hs : length (CryptoPacket.src (put_info (mk_CryptoPacketPnKnown head ct tag') p)) = length (CryptoPacket.src p)).
  { unfold put_info, set_src. cbn. rewrite !length_app. unfold size in *. lia. }
  rewrite <- Hs. unfold protect_header in E. destruct (CryptoPacket.parse _ _ _) as [parsed |]; [| done].
  destruct (gen_masks _ _ _) as [masks |]; [| done]. cbv zeta in E. destruct (negb _) eqn:Ew in E; [done |].
  injection E as <-. unfold set_src at 1. cbn [CryptoPacket.src]. apply negb_false_iff, Z.eqb_eq in Ew.
  assert (Hh : 1 <= CryptoPacket.head_len p /\ CryptoPacket.head_len p + 20 <= size (CryptoPacket.src p)).
  { unfold bad_packet, CryptoPacket.payload_len in Hb. repeat case_match; try done; lia. }
  pose proof (pnlen_range (nth 0 (CryptoPacket.src p) 0)) as Hk.
  change (CryptoPacket.head_len (put_info _ p)) with (CryptoPacket.head_len p).
  assert (Hx : (length (apply_hp_pn_mask (drop 1 masks) (rsubstr (cp_protected_payload parsed) 0%Z
    (PacketFlags.packet_number_length (nth 0 (CryptoPacket.src p) 0%Z)))) <= 4)%nat).
  { unfold apply_hp_pn_mask, xor_bytes. rewrite length_zip_with. unfold size in Ew. lia. }
  unfold size in Hh. change (CryptoPacket.src (put_info _ p)) with (head ++ ct ++ tag') in Hs |- *. rewrite <- Hs in Hh. rewrite splice_length; rewrite splice_length; cbn [length]; lia.
Qed.

(** A packet and its packet number as [create_packet] writes it: up to three
    bytes, within half a window of the number the peer expects. *)
Definition pn_recoverable (p : CryptoPacket.t) (largest : Z) : Prop :=
  let k := PacketFlags.packet_number_length (nth 0 (CryptoPacket.src p) 0) in
  let pn := CryptoPacket.packet_number p in
  size (CryptoPacket.src p) < 2 ^ 63 /\ k <= 3 /\ 0 <= pn < 2 ^ 62 /\ 0 <= largest < 2 ^ 62 /\
  Z.abs (pn - (largest + 1)) * 2 < 2 ^ (8 * k) /\
  take (Z.to_nat k) (drop (Z.to_nat (CryptoPacket.head_len p)) (CryptoPacket.src p)) = write_be (Z.to_nat k) pn.

(** What is left of the packet once decrypted: all but the tag. *)
Definition same_packet (p p2 : CryptoPacket.t) : Prop :=
  CryptoPacket.head_len p2 = CryptoPacket.head_len p /\
  CryptoPacket.packet_number p2 = CryptoPacket.packet_number p /\
  length (CryptoPacket.src p2) = length (CryptoPacket.src p) /\
  take (length (CryptoPacket.src p) - 16) (CryptoPacket.src p2) =
    take (length (CryptoPacket.src p) - 16) (CryptoPacket.src p).

(** The packet as it arrives: the number is not known yet. *)
Definition arriving (p : CryptoPacket.t) : CryptoPacket.t :=
  CryptoPacket.mk (CryptoPacket.src p) (CryptoPacket.head_len p) packetnum.infinity.

Lemma same_packet_pkt h pnw body tag tag' pn :
  size tag = 16 -> size tag' = 16 -> same_packet (pkt h pnw body tag pn) (pkt h pnw body tag' pn).
Proof.
  intros H1 H2. unfold size in H1, H2.
  assert (Htk : forall t n, length t = 16%nat -> n = length (h ++ pnw ++ body) ->
    take n (h ++ pnw ++ body ++ t) = h ++ pnw ++ body).
  { intros t n Ht ->. rewrite (app_assoc pnw body t), (app_assoc h (pnw ++ body) t). apply take_app_length. }
  unfold same_packet, pkt. cbn [CryptoPacket.src CryptoPacket.head_len CryptoPacket.packet_number].
  split_and!; try done; [rewrite !length_app; lia |]. rewrite !Htk; [done | rewrite ?length_app; lia ..].
Qed.

Lemma roundtrip_core keyiv hp cipher p p' largest :
  pn_recoverable p largest -> encrypt_packet keyiv hp cipher p = (None, p') ->
  exists p1 p2, decrypt_header hp cipher (arriving p') largest = Some (None, p1) /\
    decrypt_payload keyiv cipher p1 = (None, p2) /\ same_packet p p2 /\
    nth 0 (CryptoPacket.src p1) 0 = nth 0 (CryptoPacket.src p) 0 /\
    CryptoPacket.packet_number p1 = CryptoPacket.packet_number p.
Proof.
  intros (Hs & Hk & Hpn & Hlg & Hwin & Hwire) Henc. destruct p as [src hl pn].
  cbn [CryptoPacket.src CryptoPacket.head_len CryptoPacket.packet_number] in *.
  destruct (bad_packet (CryptoPacket.mk src hl pn)) eqn:Hb.
  { unfold encrypt_packet in Henc. rewrite Hb in Henc. done. }
  destruct (pkt_split _ Hb Hs) as (b & h & pnw & body & tag & E & Hok & Hpl).
  cbn [CryptoPacket.packet_number] in E. rewrite E in *. injection E as -> ->.
  cbn [nth] in Hk, Hwire, Hwin. rewrite <- Hpl in Hk, Hwire, Hwin. rewrite !app_comm_cons in *.
  assert (Hw : pnw = write_be (Z.to_nat (size pnw)) pn).
  { rewrite <- Hwire. unfold size. rewrite !Nat2Z.id, drop_app_length, take_app_length. done. }
  apply encrypt_spec in Henc as (ct & tag' & masks & Hok' & Hm & -> & Hopen); [| done | done].
  exists (pkt (b :: h) pnw ct tag' pn), (pkt (b :: h) pnw body tag' pn).
  destruct Hok as (_ & _ & _ & H4 & _). pose proof Hok' as (_ & _ & _ & H4' & _).
  split_and!; try done.
  - apply decrypt_header_spec; done.
  - unfold decrypt_payload. rewrite pkt_bad by done. cbn [CryptoPacket.packet_number pkt CryptoPacket.src].
    rewrite eqb_false by (unfold packetnum.infinity, u64_max; lia). rewrite first_of_app, <- Hpl.
    rewrite pkt_pnknown by done. rewrite Hopen. unfold put_info, set_src.
    cbn [pk_head pk_protected_payload pk_auth_tag]. by rewrite <- app_assoc.
  - by apply same_packet_pkt.
Qed.
End roundtrip.

(** ** A library with the laws *)

(** A cipher context of the instance below: encrypt?, associated data, text. *)
Record demo_ctx := mk_demo { dc_enc : bool; dc_key : list Z; dc_aad : list Z; dc_text : list Z; dc_tag : list Z }.

(** A tag that depends on key, associated data and text. *)
Definition demo_tag (key aad text : list Z) : list Z :=
  write_be 16 (foldr Z.add 0 key + 3 * foldr Z.add 0 aad + 5 * foldr Z.add 0 text).

Definition demo_stream (key text : list Z) : list Z := map (Z.lxor (foldr Z.add 0x5a key mod 256)) text.

(** An instance of [CryptoLib] for examples: a cipher that masks the text
    with a byte made of the key, and sums in place of hashes. [bssl] says
    whether it offers the functions of BoringSSL, [name] is the cipher that
    was negotiated. *)
Definition demo_lib (bssl : bool) (name : string) : CryptoLib := {|
  EVP := unit; CIPHER_CTX := demo_ctx; AEAD_CTX := list Z;
  SSL_CIPHER_standard_name := fun _ => name;
  SSL_CIPHER_get_cipher_nid := fun c => c;
  EVP_KDF_derive := Some (fun p len =>
    Some (replicate (Z.to_nat len)
      ((foldr Z.add 7 (kdf_key p) + foldr Z.add 0 (default [] (kdf_salt p)) + 3 * foldr Z.add 0 (default [] (kdf_info p)))
         mod 256)));
  HKDF_extract := None;
  HKDF_expand := None;
  EVP_aes_ecb := fun _ key block => Some (demo_stream key block);
  CRYPTO_chacha_20 := if bssl then Some (fun input key nonce counter => demo_stream key input) else None;
  EVP_chacha20 := fun key iv input => Some (demo_stream key input);
  EVP_aes_128_gcm := tt;
  EVP_get_cipherbynid := fun _ => if bssl then None else Some tt;
  EVP_CIPHER_CTX_new := mk_demo true [] [] [] [];
  EVP_CipherInit_meth := fun _ enc ctx => Some (mk_demo enc [] [] [] []);
  EVP_set_ivlen := fun _ ctx => Some ctx;
  EVP_CipherInit_key := fun key iv enc ctx => Some (mk_demo (dc_enc ctx) (key ++ iv) [] [] []);
  EVP_CipherUpdate_aad := fun aad ctx => Some (mk_demo (dc_enc ctx) (dc_key ctx) aad [] []);
  EVP_CipherUpdate := fun text ctx =>
    let out := demo_stream (dc_key ctx) text in
    Some (out, mk_demo (dc_enc ctx) (dc_key ctx) (dc_aad ctx) (if dc_enc ctx then text else out) []);
  EVP_set_tag := fun tag ctx => Some (mk_demo (dc_enc ctx) (dc_key ctx) (dc_aad ctx) (dc_text ctx) tag);
  EVP_CipherFinal := fun ctx =>
    if dc_enc ctx || bool_decide (dc_tag ctx = demo_tag (dc_key ctx) (dc_aad ctx) (dc_text ctx)) then Some ctx else None;
  EVP_get_tag := fun len ctx => Some (demo_tag (dc_key ctx) (dc_aad ctx) (dc_text ctx));
  EVP_aead_chacha20_poly1305 := if bssl then Some (fun key => if length key =? 32 then Some key else None)%nat else None;
  EVP_AEAD_CTX_seal := fun key nonce aad text => Some (demo_stream key text, demo_tag key aad text);
  EVP_AEAD_CTX_open := fun key nonce aad ct tag =>
    let text := demo_stream key ct in if bool_decide (tag = demo_tag key aad text) then Some text else None
|}.

Lemma demo_stream_twice key text : demo_stream key (demo_stream key text) = text.
Proof.
  unfold demo_stream. rewrite map_map. rewrite <- (map_id text) at 2. apply map_ext. intros x.
  by rewrite <- Z.lxor_assoc, Z.lxor_nilpotent.
Qed.

Lemma demo_stream_length key text : length (demo_stream key text) = length text.
Proof. apply length_map. Qed.

Lemma demo_tag_size key aad text : size (demo_tag key aad text) = authentication_tag_length.
Proof. unfold size, demo_tag. by rewrite length_write_be. Qed.

#[global] Instance demo_laws bssl name : CryptoLibLaws (demo_lib bssl name).
Proof.
  split.
  - intros meth n key iv aad text c1 c2 c3 c4 ct c5 c6 tag [= <-] [= <-] [= <-] [= <-] [= <- <-] [= <-] [= <-].
    cbn [EVP_CipherUpdate EVP_CipherFinal EVP_get_tag demo_lib].
    split_and!; [apply demo_stream_length | apply demo_tag_size |].
    do 7 eexists. split_and!; try reflexivity; cbn.
    + by rewrite demo_stream_twice.
    + by rewrite ?demo_stream_twice, bool_decide_true.
  - intros ctx nonce aad text ct tag [= <- <-]. cbn.
    split_and!; [apply demo_stream_length | apply demo_tag_size |].
    by rewrite demo_stream_twice, bool_decide_true.
  - intros key iv input out [= <-]. apply demo_stream_length.
Qed.

(** ** Where the code falls short *)

(** The length of the keys is stored before they are derived, and a stored
    length means that they were. When the first derivation fails (here for
    an unknown version), every later call, for any version, succeeds, with a
    key and an iv of zeros. *)
Theorem failed_derivation_zero_key `{L : CryptoLib} secret cipher n version :
  key_length cipher = inl n -> version <> version_1 ->
  exists s, Secret.keyiv version (Secret.install secret cipher) = (Some err_version, s) /\
    (forall v, Secret.keyiv v s = (None, s)) /\
    KeyIV.key (Secret.keyiv_ s) = replicate (Z.to_nat n) 0 /\ KeyIV.iv (Secret.keyiv_ s) = replicate 12 0.
Proof.
  intros Hn Hv. pose proof (key_length_16_32 _ _ Hn) as H.
  exists (Secret.mk (Some secret) cipher (KeyIV.set_hash_len n KeyIV.clear)).
  split_and!; try (destruct H as [-> | ->]; reflexivity).
  unfold Secret.keyiv, make_key_and_iv. cbn [Secret.secret_ Secret.keyiv_ Secret.cipher Secret.install].
  change (KeyIV.hash_len KeyIV.clear =? 0) with true. cbv match. rewrite Hn.
  rewrite (eqb_false version version_1) by done. done.
Qed.

Lemma failed_derivation_zero_key_witness :
  let L := demo_lib false "TLS_AES_128_GCM_SHA256" in
  key_length no_cipher = inl 16 /\ 2 <> version_1 /\
  exists s, Secret.keyiv 2 (Secret.install [1; 2; 3] no_cipher) = (Some err_version, s) /\
    (forall v, Secret.keyiv v s = (None, s)) /\
    KeyIV.key (Secret.keyiv_ s) = replicate (Z.to_nat 16) 0 /\ KeyIV.iv (Secret.keyiv_ s) = replicate 12 0.
Proof.
  intros L. split_and!; [done | done |]. apply (failed_derivation_zero_key (L := L) [1; 2; 3] no_cipher 16 2); done.
Defined.

(** With the ChaCha20 of BoringSSL, the mask is copied from the input of the
    cipher and not from its output, so it is zero: header protection leaves
    the first byte and the packet number as they are. *)
Theorem chacha_header_in_clear `{L : CryptoLib} `{!CryptoLibLaws L} chacha key cipher b h pnw body tag pn :
  CRYPTO_chacha_20 = Some chacha -> judge_cipher cipher = CHACHA20_POLY1305_SHA256 ->
  pkt_ok (b :: h) pnw body tag ->
  protect_header (size pnw) key cipher (pkt (b :: h) pnw body tag pn) = (None, pkt (b :: h) pnw body tag pn).
Proof.
  intros Hcha Hci Hok. rewrite (protect_spec _ _ _ _ _ _ _ _ (replicate 5 0)); [| done |].
  - unfold PacketFlags.protect. cbn [nth replicate]. rewrite Z.land_0_l, Z.lxor_0_r.
    destruct Hok as (_ & _ & _ & _ & Hp). replace (xor_bytes pnw _) with pnw; [done |].
    unfold size in Hp. destruct pnw as [| x1 [| x2 [| x3 [| x4 [| x5 pnw]]]]]; simpl in Hp; try lia;
      cbn; by rewrite !Z.lxor_0_r.
  - unfold gen_masks, generate_masks_chacha20_based. rewrite Hci, Hcha. done.
Qed.

Lemma chacha_header_in_clear_witness :
  let L := demo_lib true "TLS_CHACHA20_POLY1305_SHA256" in
  let p := pkt [0x43] [1; 2] [10; 11; 12] (replicate 16 0) 258 in
  judge_cipher 1 = CHACHA20_POLY1305_SHA256 /\ protect_header 2 [9; 9] 1 p = (None, p).
Proof.
  intros L p. split; [done |].
  apply (chacha_header_in_clear (L := L) (fun input key nonce counter => demo_stream key input) [9; 9] 1
    0x43 [] [1; 2] [10; 11; 12] (replicate 16 0) 258); [done | done |].
  unfold pkt_ok. split_and!; vm_compute; done.
Defined.

(** ChaCha20 keys have 32 bytes; the code derives 16. BoringSSL, which checks
    the length, refuses every packet. *)
Theorem chacha_key_refused `{L : CryptoLib} ctx_new hp cipher p secret keys :
  EVP_aead_chacha20_poly1305 = Some ctx_new ->
  (forall key ctx, ctx_new key = Some ctx -> length key = 32%nat) ->
  EVP_get_cipherbynid (SSL_CIPHER_get_cipher_nid cipher) = None ->
  cipher <> no_cipher -> judge_cipher cipher = CHACHA20_POLY1305_SHA256 ->
  make_key_and_iv KeyIV.clear cipher version_1 secret = (None, keys) ->
  exists e, fst (encrypt_packet keys hp cipher p) = Some e.
Proof.
  intros Hb Hlen Hnid Hci Hj Hk.
  assert (Hkl : KeyIV.hash_len keys = 16).
  { unfold make_key_and_iv, key_length in Hk. rewrite Hj in Hk. cbn in Hk.
    repeat case_match; simplify_eq. done. }
  assert (Hshort : (length (KeyIV.key keys) <= 16)%nat).
  { unfold KeyIV.key. rewrite Hkl. pose proof (rsubstr_size (KeyIV.resource keys) 0 16 ltac:(lia) ltac:(lia)) as E.
    unfold size in E. destruct (_ <? 0) in E; lia. }
  unfold encrypt_packet. destruct (bad_packet p); [eauto |].
  destruct (CryptoPacket.parse_pnknown _ _ _) as [i |]; [| eauto].
  unfold cipher_payload. rewrite (eqb_false cipher) by done. rewrite Hnid, Hj. cbn [is_CHACHA20_based].
  rewrite Hb. unfold boringssl_chacha20_poly1305_cipher.
  destruct (ctx_new (KeyIV.key keys)) as [ctx |] eqn:E; [apply Hlen in E; lia | cbn; eauto].
Qed.

Lemma chacha_key_refused_witness :
  let L := demo_lib true "TLS_CHACHA20_POLY1305_SHA256" in
  exists e, fst (encrypt_packet (snd (make_key_and_iv KeyIV.clear 1 version_1 [5; 6])) HP.clear 1
    (pkt [0x43] [1; 2] [10; 11; 12] (replicate 16 0) 258)) = Some e.
Proof.
  intros L.
  apply (chacha_key_refused (L := L) (fun key => if (length key =? 32)%nat then Some key else None) HP.clear 1
    (pkt [0x43] [1; 2] [10; 11; 12] (replicate 16 0) 258) [5; 6]); try done.
  intros key ctx. destruct (Nat.eqb_spec (length key) 32); done.
Defined.
