(* ===== verification/CryptoStream.v ===== *)
(** * CryptoStream: the CRYPTO frames of the handshake

    Models [fnet/quic/crypto/handshaker.h] and [crypto/enc_level.h]: sending
    handshake data in CRYPTO frames with retransmission, putting received
    CRYPTO frames in order for the TLS stack, and the HANDSHAKE_DONE frame.
    The TLS stack is code outside this library: the class [TLS] names the
    calls made to it. [std::sort] leaves equal elements in any order: the
    function that sorts is an argument. *)

From stdpp Require Import base numbers list gmap strings sorting.
From Stdlib Require Import ZArith Lia.
From S2P Require Import Prelude Bytes Varint Types FrameBase CalcData FrameStream FrameAck FrameParse QTime AckRecord Keys.

#[local] Open Scope string_scope.
#[local] Open Scope Z_scope.
#[local] Open Scope list_scope.

Inductive EncryptionLevel := lvl_initial | lvl_early_data | lvl_handshake | lvl_application.

(** [None]: the source leaves the value undefined. *)
Definition type_to_level (type : PacketType) : option EncryptionLevel :=
  match type with
  | Initial => Some lvl_initial
  | Handshake => Some lvl_handshake
  | OneRTT => Some lvl_application
  | ZeroRTT => Some lvl_early_data
  | _ => None
  end.

(** What the TLS stack calls back ([qtls_callback]) while it runs: handshake
    data to send, an alert, secrets to install (reading, writing or both). *)
Inductive tls_event :=
  | ev_flush
  | ev_handshake_data (level : EncryptionLevel) (d : list Z)
  | ev_alert (code : Z)
  | ev_secret (level : EncryptionLevel) (read_secret write_secret : list Z) (cipher : TLSCipher)
  | ev_wsecret (level : EncryptionLevel) (secret : list Z) (cipher : TLSCipher)
  | ev_rsecret (level : EncryptionLevel) (secret : list Z) (cipher : TLSCipher).

(** The calls to the TLS stack, over its state: [None] is success. *)
Class TLS (T : Type) := {
  provide_quic_data : EncryptionLevel -> list Z -> T -> option Error * list tls_event * T;
  progress_quic : T -> option Error * list tls_event * T;
  tls_accept : T -> option Error * list tls_event * T;
  tls_connect : T -> option Error * list tls_event * T;
  isTLSBlock : Error -> bool
}.

(** A call, with the callbacks made so far. The callbacks change the data to
    send, and the code that makes the calls here only what was received, so
    they are collected and applied when it is done. *)
Definition tls_call {T} (f : T -> option Error * list tls_event * T) (x : T * list tls_event)
    : option Error * (T * list tls_event) :=
  let '(err, evs, t) := f (fst x) in (err, (t, snd x ++ evs)).

Record CryptoFragment := mk_cfrag { cf_offset : Z; cf_data : list Z }.
Record CryptoRecvFragment := mk_crecv { cr_fragment : list Z; cr_offset : Z }.

(** ** [struct CryptoHandshaker] *)

Module CryptoHandshaker.
Record t := mk {
  recv_data : list CryptoRecvFragment;
  read_offset : Z;
  write_data : list Z;
  write_offset : Z;
  frags : Retransmiter.t CryptoFragment
}.
Definition reset : t := mk [] 0 [] 0 Retransmiter.reset.

Definition set_frags f c := mk (recv_data c) (read_offset c) (write_data c) (write_offset c) f.

(** The callback of [frags.retransmit]. The size of the fragment is compared
    with itself, so the branch that keeps the rest is never taken. *)
Definition resend_crypto : Retransmiter.sender CryptoFragment fwriter :=
  fun fr w =>
    let '(frame, ok) := make_fit_size_Crypto (size (fw_remain w)) (cf_offset fr) (cf_data fr) in
    if negb ok then (not_in_io_state, fr, [], w)
    else
      let '(ok, w) := fw_write frame w in
      if negb ok then (io_fatal, fr, [], w)
      else
        let news := [mk_cfrag (varint.value (CryptoFrame.offset frame)) (CryptoFrame.crypto_data frame)] in
        if negb (size (cf_data fr) =? size (cf_data fr)) then
          let new_offset := u64 (varint.value (CryptoFrame.offset frame) + varint.value (CryptoFrame.length frame)) in
          (not_in_io_state, mk_cfrag new_offset (rsubstr (cf_data fr) new_offset u64_max), news, w)
        else (io_ok, fr, news, w).

Definition send_retransmit (w : fwriter) (o : observer) (c : t) : IOResult * fwriter * observer * t :=
  let '(res, fr, o, w) := Retransmiter.retransmit resend_crypto o (frags c) w in
  (res, w, o, set_frags fr c).

Definition send_crypto (w : fwriter) (o : observer) (c : t) : IOResult * fwriter * observer * t :=
  let remain_data := rsubstr (write_data c) (write_offset c) u64_max in
  let '(frame, ok) := make_fit_size_Crypto (size (fw_remain w)) (write_offset c) remain_data in
  if negb ok then (no_capacity, w, o, c)
  else
    let '(ok, w) := fw_write frame w in
    if negb ok then (io_fatal, w, o, c)
    else
      let '(fr, o) := Retransmiter.sent
        (mk_cfrag (varint.value (CryptoFrame.offset frame)) (CryptoFrame.crypto_data frame)) (frags c, o) in
      (io_ok, w, o, mk (recv_data c) (read_offset c) (write_data c)
                       (u64 (write_offset c + size (CryptoFrame.crypto_data frame))) fr).

Definition add_send_data (d : list Z) (c : t) : t :=
  mk (recv_data c) (read_offset c) (write_data c ++ d) (write_offset c) (frags c).

Definition send (w : fwriter) (o : observer) (c : t) : IOResult * fwriter * observer * t :=
  let '(res, w, o, c) := send_retransmit w o c in
  if bool_decide (res = io_fatal) then (res, w, o, c)
  else if u64 (size (write_data c) - write_offset c) =? 0 then (no_data, w, o, c)
  else send_crypto w o c.

Section recv.
Context {T : Type} `{TLS T} (sort_desc : list CryptoRecvFragment -> list CryptoRecvFragment).

(** The [while] loop; the list is read from its back. *)
Fixpoint provide_buffered (level : EncryptionLevel) (l : list CryptoRecvFragment) (offset : Z) (tls : T * list tls_event)
    : option Error * list CryptoRecvFragment * Z * (T * list tls_event) :=
  match l with
  | src :: l' =>
      if offset =? cr_offset src then
        let '(err, tls) := tls_call (provide_quic_data level (cr_fragment src)) tls in
        match err with
        | Some e => (Some e, l, offset, tls)
        | None => provide_buffered level l' (u64 (offset + size (cr_fragment src))) tls
        end
      else (None, l, offset, tls)
  | [] => (None, [], offset, tls)
  end.

(** What follows once the data was provided: (error, handshake_complete). *)
Definition drive_tls (is_server handshake_complete : bool) (tls : T * list tls_event) : option Error * bool * (T * list tls_event) :=
  if handshake_complete then let '(err, tls) := tls_call progress_quic tls in (err, handshake_complete, tls)
  else
    let '(err, tls) := tls_call (if is_server then tls_accept else tls_connect) tls in
    match err with
    | Some e => if isTLSBlock e then (None, handshake_complete, tls) else (Some e, handshake_complete, tls)
    | None => (None, true, tls)
    end.

Definition recv_crypto (level : EncryptionLevel) (is_server handshake_complete : bool) (frame : CryptoFrame.t)
    (tls : T * list tls_event) (c : t) : option Error * bool * (T * list tls_event) * t :=
  let offset := varint.value (CryptoFrame.offset frame) in
  let set_recv l off := mk l off (write_data c) (write_offset c) (frags c) in
  if offset <? read_offset c then (None, handshake_complete, tls, c)
  else if read_offset c =? offset then
    let stdata := CryptoFrame.crypto_data frame in
    let '(err, tls) := tls_call (provide_quic_data level stdata) tls in
    match err with
    | Some e => (Some e, handshake_complete, tls, c)
    | None =>
        let l := if 1 <? size (recv_data c) then sort_desc (recv_data c) else recv_data c in
        let '(err, back, off, tls) := provide_buffered level (rev l) (u64 (read_offset c + size stdata)) tls in
        let c := set_recv (rev back) off in
        match err with
        | Some e => (Some e, handshake_complete, tls, c)
        | None =>
            let '(err, handshake_complete, tls) := drive_tls is_server handshake_complete tls in
            (err, handshake_complete, tls, c)
        end
    end
  else (None, handshake_complete, tls, set_recv (recv_data c ++ [mk_crecv (CryptoFrame.crypto_data frame) offset]) (read_offset c)).
End recv.
End CryptoHandshaker.

(** ** [struct CryptoHandshakers] *)

Module CryptoHandshakers.
Definition flag_server : Z := 0x1.
Definition flag_handshake_complete : Z := 0x2.
Definition flag_handshake_done : Z := 0x4.
Definition flag_alert : Z := 0x8.

Record t (T : Type) := mk {
  flags : Z;
  tls : T;
  hs_initial : option CryptoHandshaker.t;
  hs_handshake : option CryptoHandshaker.t;
  one_rtt : CryptoHandshaker.t;
  wait_for_done : ACKHandler.t;
  alert_code : Z
}.
Arguments mk {T}. Arguments flags {T}. Arguments tls {T}. Arguments hs_initial {T}. Arguments hs_handshake {T}.
Arguments one_rtt {T}. Arguments wait_for_done {T}. Arguments alert_code {T}.

Section ops.
Context {T : Type} `{TLS T} (sort_desc : list CryptoRecvFragment -> list CryptoRecvFragment).

Definition set_flags f (c : t T) := mk f (tls c) (hs_initial c) (hs_handshake c) (one_rtt c) (wait_for_done c) (alert_code c).
Definition add_flag f (c : t T) := set_flags (Z.lor (flags c) f) c.
Definition has f (c : t T) : bool := negb (Z.land (flags c) f =? 0).
Definition set_wait w (c : t T) := mk (flags c) (tls c) (hs_initial c) (hs_handshake c) (one_rtt c) w (alert_code c).
Definition set_initial h (c : t T) := mk (flags c) (tls c) h (hs_handshake c) (one_rtt c) (wait_for_done c) (alert_code c).
Definition set_handshake h (c : t T) := mk (flags c) (tls c) (hs_initial c) h (one_rtt c) (wait_for_done c) (alert_code c).
Definition set_one_rtt h (c : t T) := mk (flags c) (tls c) (hs_initial c) (hs_handshake c) h (wait_for_done c) (alert_code c).
Definition set_tls (x : T) (c : t T) := mk (flags c) x (hs_initial c) (hs_handshake c) (one_rtt c) (wait_for_done c) (alert_code c).

Definition set_alert (code : Z) (c : t T) : t T :=
  add_flag flag_alert (mk (flags c) (tls c) (hs_initial c) (hs_handshake c) (one_rtt c) (wait_for_done c) code).
Definition get_alert (c : t T) : option Z := if has flag_alert c then Some (alert_code c) else None.

Definition reset (new_tls : T) (is_server : bool) : t T :=
  mk (if is_server then flag_server else 0) new_tls (Some CryptoHandshaker.reset) (Some CryptoHandshaker.reset)
     CryptoHandshaker.reset ACKHandler.reset 0.

Definition is_server (c : t T) : bool := has flag_server c.
Definition handshake_complete (c : t T) : bool := has flag_handshake_complete c.
Definition handshake_done (c : t T) : bool := has flag_handshake_done c.
Definition handshake_confirmed (c : t T) : bool :=
  if is_server c then handshake_complete c else handshake_done c.

Definition add_handshake_data (level : EncryptionLevel) (d : list Z) (c : t T) : bool * t T :=
  match level with
  | lvl_initial =>
      match hs_initial c with
      | None => (false, c)
      | Some h => (true, set_initial (Some (CryptoHandshaker.add_send_data d h)) c)
      end
  | lvl_handshake =>
      match hs_handshake c with
      | None => (false, c)
      | Some h => (true, set_handshake (Some (CryptoHandshaker.add_send_data d h)) c)
      end
  | lvl_application => (true, set_one_rtt (CryptoHandshaker.add_send_data d (one_rtt c)) c)
  | lvl_early_data => (false, c)
  end.

(** The HANDSHAKE_DONE part of [send]: [Some] result when it returns. *)
Definition send_handshake_done (w : fwriter) (o : observer) (c : t T) : option IOResult * fwriter * observer * t T :=
  if negb (ACKHandler.not_confirmed (wait_for_done c)) || ACKHandler.is_lost (wait_for_done c) (snd o) then
    if size (fw_remain w) =? 0 then (Some no_capacity, w, o, c)
    else
      let '(ok, w) := fw_write (TypeOnly.mk (ty := FrameType.HANDSHAKE_DONE) 0) w in
      if negb ok then (Some io_fatal, w, o, c)
      else let '(r, o) := ACKHandler.wait o in (None, w, o, set_wait r c)
  else if ACKHandler.is_ack (wait_for_done c) (snd o)
  then (None, w, o, add_flag flag_handshake_done (set_wait ACKHandler.confirm c))
  else (None, w, o, c).

Definition send (type : PacketType) (w : fwriter) (o : observer) (c : t T) : IOResult * fwriter * observer * t T :=
  let '(early, w, o, c) :=
    if is_server c && handshake_complete c && negb (handshake_done c) && bool_decide (type = OneRTT)
    then send_handshake_done w o c else (None, w, o, c) in
  match early with
  | Some res => (res, w, o, c)
  | None =>
      match type with
      | Initial =>
          match hs_initial c with
          | None => (no_data, w, o, c)
          | Some h => let '(res, w, o, h) := CryptoHandshaker.send w o h in (res, w, o, set_initial (Some h) c)
          end
      | Handshake =>
          match hs_handshake c with
          | None => (no_data, w, o, c)
          | Some h => let '(res, w, o, h) := CryptoHandshaker.send w o h in (res, w, o, set_handshake (Some h) c)
          end
      | OneRTT => let '(res, w, o, h) := CryptoHandshaker.send w o (one_rtt c) in (res, w, o, set_one_rtt h c)
      | _ => (invalid_data, w, o, c)
      end
  end.

Definition recv_handshake_done (c : t T) : option Error * t T :=
  if is_server c
  then (Some (QUICError "recv HANDSHAKE_DONE on server" PROTOCOL_VIOLATION FrameType.HANDSHAKE_DONE), c)
  else (None, add_flag flag_handshake_done c).

(** [qtls_callback], as far as it changes this state; it also installs
    secrets, see [CryptoSuite.apply_event]. *)
Definition apply_event (c : t T) (e : tls_event) : t T :=
  match e with
  | ev_handshake_data level d => snd (add_handshake_data level d c)
  | ev_alert code => set_alert code c
  | _ => c
  end.

(** The flag is set when the function returns, whatever it returns. The
    callbacks that were made are returned too. *)
Definition recv_crypto (type : PacketType) (frame : CryptoFrame.t) (c : t T) : option Error * list tls_event * t T :=
  let run level h := CryptoHandshaker.recv_crypto sort_desc level (is_server c) (handshake_complete c) frame (tls c, []) h in
  let finish (r : option Error * bool * (T * list tls_event) * CryptoHandshaker.t) (put : CryptoHandshaker.t -> t T -> t T) :=
    let '(err, complete, (x, evs), h) := r in
    let c := foldl apply_event (put h (set_tls x c)) evs in
    let c := if complete : bool then add_flag flag_handshake_complete c else c in
    (match err with
     | Some e => if has flag_alert c
                 then Some (QUICError "error occurred while cryptographic handshake"
                              (CRYPTO_ERROR (alert_code c)) FrameType.CRYPTO)
                 else Some e
     | None => None
     end, evs, c) in
  match type with
  | Initial =>
      match hs_initial c with
      | None => (None, [], c)
      | Some h => finish (run lvl_initial h) (fun h => set_initial (Some h))
      end
  | Handshake =>
      match hs_handshake c with
      | None => (None, [], c)
      | Some h => finish (run lvl_handshake h) (fun h => set_handshake (Some h))
      end
  | OneRTT => finish (run lvl_application (one_rtt c)) set_one_rtt
  | _ => (Some (LibError "invalid packet type for crypto frame"), [], c)
  end.

Definition recv (type : PacketType) (a : AnyFrame) (c : t T) : option Error * list tls_event * t T :=
  match a with
  | Crypto f => recv_crypto type f c
  | HandshakeDone _ =>
      if negb (bool_decide (type = OneRTT))
      then (Some (QUICError "HANDHSHAKE_DONE on non OneRTT packet" PROTOCOL_VIOLATION FrameType.HANDSHAKE_DONE), [], c)
      else let '(err, c) := recv_handshake_done c in (err, [], c)
  | _ => (None, [], c)
  end.

Definition on_packet_number_space_discarded (space : PacketNumberSpace) (c : t T) : t T :=
  match space with
  | initial => set_initial None c
  | handshake => set_handshake None c
  | _ => c
  end.
End ops.
End CryptoHandshakers.

(** * Lemmas *)

(** A sort that [std::sort] may be: a permutation in descending order of the
    offsets. *)
Definition sorts_desc (sort : list CryptoRecvFragment -> list CryptoRecvFragment) : Prop :=
  forall l, sort l ≡ₚ l /\ StronglySorted (fun a b => cr_offset b <= cr_offset a) (sort l).

Lemma rev_ascending l :
  StronglySorted (fun a b => cr_offset b <= cr_offset a) l ->
  StronglySorted (fun a b => cr_offset a <= cr_offset b) (rev l).
Proof.
  induction 1 as [| x l H IH Hx]; [constructor |]. simpl.
  assert (Hr : Forall (fun b => cr_offset b <= cr_offset x) (rev l))
    by (by apply List.Forall_rev).
  clear H Hx. induction IH as [| y k H IH Hy]; simpl; [repeat constructor |].
  apply Forall_cons in Hr as [Hxy Hr]. constructor; [by apply IH |].
  apply Forall_app. split; [done | by repeat constructor].
Qed.

(** ** Putting the pieces in order *)

Section Reassembly.
Context {T : Type} `{TLS T} (log : T -> list Z).
Context (provide_ok : forall level d t,
  fst (fst (provide_quic_data level d t)) = None /\ log (snd (provide_quic_data level d t)) = log t ++ d).
Context (progress_log : forall t, log (snd (progress_quic t)) = log t).
Context (accept_log : forall t, log (snd (tls_accept t)) = log t).
Context (connect_log : forall t, log (snd (tls_connect t)) = log t).
Context (sort_desc : list CryptoRecvFragment -> list CryptoRecvFragment) (sort_ok : sorts_desc sort_desc).

(** A stream cut into non-empty pieces. *)
Context (cs : list (list Z)) (cs_pos : Forall (fun c => c <> []) cs) (cs_size : size (concat cs) < 2 ^ 62).

Definition off (i : nat) : Z := size (concat (take i cs)).
Definition piece (i : nat) : list Z := default [] (cs !! i).
Definition chunk (i : nat) : CryptoRecvFragment := mk_crecv (piece i) (off i).

Lemma take_piece i : (i < length cs)%nat -> take (S i) cs = take i cs ++ [piece i].
Proof.
  intros Hi. destruct (lookup_lt_is_Some_2 cs i Hi) as [x Hx]. unfold piece. rewrite Hx. by apply take_S_r.
Qed.

Lemma off_S i : (i < length cs)%nat -> off (S i) = off i + size (piece i).
Proof. intros Hi. unfold off. rewrite take_piece by done. by rewrite concat_app, size_app; simpl; rewrite app_nil_r. Qed.

Lemma piece_pos i : (i < length cs)%nat -> 0 < size (piece i).
Proof.
  intros Hi. destruct (lookup_lt_is_Some_2 cs i Hi) as [x Hx]. unfold piece. rewrite Hx. simpl.
  pose proof (proj1 (Forall_lookup _ _) cs_pos i x Hx). destruct x; [done |]. rewrite size_cons. pose proof (size_nonneg x). lia.
Qed.

Lemma off_range i : 0 <= off i <= size (concat cs).
Proof.
  unfold off. rewrite <- (take_drop i cs) at 3. rewrite concat_app, size_app.
  pose proof (size_nonneg (concat (take i cs))). pose proof (size_nonneg (concat (drop i cs))). lia.
Qed.

Lemma off_lt i j : (i < j <= length cs)%nat -> off i < off j.
Proof.
  intros [Hij Hj]. induction j as [| j IH]; [lia |]. rewrite off_S by lia. pose proof (piece_pos j ltac:(lia)).
  destruct (decide (i = j)) as [-> |]; [lia |]. specialize (IH ltac:(lia) ltac:(lia)). lia.
Qed.

Lemma off_le_inv i j : (i < length cs)%nat -> (j < length cs)%nat -> off i <= off j -> (i <= j)%nat.
Proof. intros Hi Hj Ho. destruct (decide (j < i)%nat); [| lia]. pose proof (off_lt j i ltac:(lia)). lia. Qed.

Lemma off_inj i j : (i < length cs)%nat -> (j < length cs)%nat -> off i = off j -> i = j.
Proof. intros Hi Hj Ho. pose proof (off_le_inv i j). pose proof (off_le_inv j i). lia. Qed.

Lemma tls_call_log f (x : T * list tls_event) d :
  (forall t, log (snd (f t)) = log t ++ d) ->
  log (fst (snd (tls_call f x))) = log (fst x) ++ d.
Proof. intros Hf. unfold tls_call. specialize (Hf (fst x)). by destruct (f (fst x)) as [[e ev] t]. Qed.

Lemma provide_call level d x :
  let r := tls_call (provide_quic_data level d) x in
  fst r = None /\ log (fst (snd r)) = log (fst x) ++ d.
Proof.
  cbv zeta. unfold tls_call. destruct (provide_ok level d (fst x)) as [H1 H2].
  by destruct (provide_quic_data level d (fst x)) as [[e ev] t].
Qed.

(** The loop takes the pieces that follow without a gap, and stops at the
    first gap. *)
Lemma provide_buffered_run level L : StronglySorted lt L ->
  forall m x, (m <= length cs)%nat -> Forall (fun i => m <= i < length cs)%nat L ->
  exists m' L' x',
    CryptoHandshaker.provide_buffered level (map chunk L) (off m) x = (None, map chunk L', off m', x') /\
    (m <= m' <= length cs)%nat /\ L = seq m (m' - m) ++ L' /\ Forall (fun i => m' < i)%nat L' /\
    log (fst x') = log (fst x) ++ concat (take (m' - m) (drop m cs)).
Proof.
  induction 1 as [| a L HL IH Ha]; intros m x Hm Hb.
  { exists m, [], x. rewrite Nat.sub_diag. split_and!; auto. by rewrite app_nil_r. }
  apply Forall_cons in Hb as [[Hma Hac] Hb]. cbn [map CryptoHandshaker.provide_buffered chunk cr_offset cr_fragment].
  destruct (Z.eqb_spec (off m) (off a)) as [E | E].
  - apply off_inj in E; [| lia | lia]. subst a.
    destruct (provide_call level (piece m) x) as [H1 H2]. destruct (tls_call _ x) as [err x1]. simpl in H1, H2. subst err.
    pose proof (off_range (S m)). rewrite u64_small, <- off_S by (try rewrite <- off_S by lia; unfold is_u64; lia).
    destruct (IH (S m) x1) as (m' & L' & x' & E1 & Hm' & -> & HL' & Hlog); [lia | |].
    { eapply Forall_impl; [exact (proj2 (Forall_and _ _) (conj Ha Hb)) |]. simpl. lia. }
    exists m', L', x'. split_and!; [done | lia | lia | | done |].
    + replace (m' - m)%nat with (S (m' - S m)) by lia. done.
    + rewrite Hlog, H2, <- app_assoc. f_equal. replace (m' - m)%nat with (S (m' - S m)) by lia.
      destruct (lookup_lt_is_Some_2 cs m Hac) as [p Hp]. rewrite (drop_S cs p m Hp). unfold piece. by rewrite Hp.
  - exists m, (a :: L), x. rewrite Nat.sub_diag. split_and!; auto; [| by rewrite app_nil_r].
    assert (m < a)%nat by (destruct (decide (m = a)); [congruence | lia]).
    constructor; [done |]. eapply Forall_impl; [exact Ha |]. simpl. lia.
Qed.

(** Sorted or not, the buffer read from its back is ascending. *)
Lemma buffer_ascending (l : list CryptoRecvFragment) :
  let k := rev (if 1 <? size l then sort_desc l else l) in
  k ≡ₚ l /\ StronglySorted (fun a b => cr_offset a <= cr_offset b) k.
Proof.
  cbv zeta. destruct (Z.ltb_spec 1 (size l)) as [Hl | Hl].
  - destruct (sort_ok l) as [Hp Hs]. split; [| by apply rev_ascending].
    rewrite <- Hp at 2. symmetry. apply Permutation_rev.
  - split; [symmetry; apply Permutation_rev |].
    destruct l as [| a [| b l]]; [constructor | repeat constructor |]. rewrite !size_cons in Hl. pose proof (size_nonneg l). lia.
Qed.

Lemma chunks_ascending L :
  NoDup L -> Forall (fun i => i < length cs)%nat L ->
  StronglySorted (fun a b => cr_offset a <= cr_offset b) (map chunk L) -> StronglySorted lt L.
Proof.
  induction L as [| a L IH]; intros Hn Hb Hs; [constructor |]. apply NoDup_cons in Hn as [Ha Hn].
  apply Forall_cons in Hb as [Hab Hb]. cbn [map] in Hs.
  apply StronglySorted_inv in Hs as [Hs Hf]. constructor; [by apply IH |].
  apply Forall_forall. intros i Hi. rewrite List.Forall_map, Forall_forall in Hf. specialize (Hf i Hi). simpl in Hf.
  assert (i < length cs)%nat by (by eapply (proj1 (Forall_forall _ _) Hb)).
  pose proof (off_le_inv a i ltac:(lia) ltac:(lia) Hf). destruct (decide (a = i)); [subst; done | lia].
Qed.

(** The state after the pieces [R] arrived: everything before the first
    missing piece [k] was provided, the others are buffered. *)
Definition arrived (log0 : list Z) (R : list nat) (x : T * list tls_event) (c : CryptoHandshaker.t) : Prop :=
  exists k, (k <= length cs)%nat /\ (forall i, (i < k)%nat -> i ∈ R) /\ k ∉ R /\
    CryptoHandshaker.read_offset c = off k /\
    CryptoHandshaker.recv_data c ≡ₚ map chunk (filter (fun i => (k < i)%nat) R) /\
    log (fst x) = log0 ++ concat (take k cs).

Definition crypto_frame (i : nat) : CryptoFrame.t :=
  CryptoFrame.mk 0 (varint.of_uint (off i)) (varint.of_uint (size (piece i))) (piece i).

Lemma drive_log srv hc x :
  log (fst (snd (CryptoHandshaker.drive_tls srv hc x))) = log (fst x).
Proof.
  unfold CryptoHandshaker.drive_tls, tls_call. pose proof (progress_log (fst x)).
  pose proof (accept_log (fst x)). pose proof (connect_log (fst x)). destruct hc, srv.
  all: try (destruct (progress_quic (fst x)) as [[? ?] ?]; done).
  all: try (destruct (tls_accept (fst x)) as [[[e |] ?] ?]; [destruct (isTLSBlock e) |]; done).
  all: destruct (tls_connect (fst x)) as [[[e |] ?] ?]; [destruct (isTLSBlock e) |]; done.
Qed.

(** The pieces left in the buffer are the ones beyond the new gap. *)
Lemma rest_filter k m L L' R :
  L = seq (S k) (m - S k) ++ L' -> (k < m)%nat -> Forall (fun i => m < i)%nat L' ->
  filter (fun i => (k < i)%nat) R ≡ₚ L -> L' ≡ₚ filter (fun i => (m < i)%nat) (k :: R).
Proof.
  intros -> Hkm HL' Hp. rewrite filter_cons, decide_False by lia.
  rewrite <- (list_filter_filter_l (fun i => (m < i)%nat) (fun i => (k < i)%nat)) by (intros; lia).
  rewrite Hp, filter_app, (filter_none _ (seq _ _)), filter_all; [done | done |].
  apply Forall_forall. intros i Hi%elem_of_seq. lia.
Qed.

Lemma arrival level srv hc log0 R x c j :
  NoDup R -> Forall (fun i => i < length cs)%nat R -> (j < length cs)%nat -> j ∉ R -> arrived log0 R x c ->
  let '(_, _, x', c') := CryptoHandshaker.recv_crypto sort_desc level srv hc (crypto_frame j) x c in
  arrived log0 (j :: R) x' c'.
Proof.
  intros Hn HR Hj HjR (k & Hk & Hlow & HkR & Hro & Hrd & Hlog). unfold CryptoHandshaker.recv_crypto.
  cbn [crypto_frame CryptoFrame.offset CryptoFrame.crypto_data varint.value varint.of_uint]. rewrite Hro.
  assert (Hkj : (k <= j)%nat) by (destruct (decide (j < k)%nat) as [Hl |]; [by specialize (Hlow j Hl) | lia]).
  destruct (decide (k = j)) as [<- | Hne]; cycle 1.
  { pose proof (off_lt k j ltac:(lia)). rewrite ltb_false, eqb_false by lia. exists k.
    cbn [CryptoHandshaker.recv_data CryptoHandshaker.read_offset].
    split_and!; auto; [set_solver | set_solver |]. rewrite filter_cons, decide_True by lia. simpl. rewrite Hrd.
    by rewrite Permutation_app_comm. }
  rewrite Z.ltb_irrefl, Z.eqb_refl. destruct (provide_call level (piece k) x) as [H1 H2].
  destruct (tls_call _ x) as [err x1]. simpl in H1, H2. subst err.
  destruct (buffer_ascending (CryptoHandshaker.recv_data c)) as [Hp Hs]. set (buf := rev _) in *.
  rewrite Hrd in Hp. apply Permutation_map_inv in Hp as (L & EL & HL). rewrite EL in *. clear EL.
  assert (HRk : Forall (fun i => S k <= i < length cs)%nat L).
  { rewrite <- HL. apply Forall_forall. intros i [Hi1 Hi2]%list_elem_of_filter.
    pose proof (proj1 (Forall_forall _ _) HR i Hi2). simpl in *. lia. }
  assert (HLs : StronglySorted lt L).
  { apply chunks_ascending; [| eapply Forall_impl; [exact HRk |]; simpl; lia | done]. rewrite <- HL. by apply NoDup_filter. }
  pose proof (off_range (S k)). rewrite u64_small, <- off_S by (try rewrite <- off_S by lia; unfold is_u64; lia).
  destruct (provide_buffered_run level L HLs (S k) x1 ltac:(lia) HRk) as (m & L' & x2 & -> & Hm & EL & HL' & Hlog2).
  pose proof (drive_log srv hc x2) as Hd. destruct (CryptoHandshaker.drive_tls srv hc x2) as [[err2 hc2] x3]. simpl in Hd.
  assert (HinL : forall i, i ∈ L <-> (k < i)%nat /\ i ∈ R) by (intros i; rewrite <- HL; by rewrite list_elem_of_filter).
  exists m. cbn [CryptoHandshaker.recv_data CryptoHandshaker.read_offset]. split_and!; auto; try lia.
  - intros i Hi. destruct (decide (i < k)%nat); [by right; auto |]. destruct (decide (i = k)) as [-> |]; [by left |].
    right. apply HinL. rewrite EL. apply elem_of_app. left. apply elem_of_seq. lia.
  - intros [-> | Hin]%elem_of_cons; [lia |]. assert (m ∈ L) as HmL by (apply HinL; split; [lia | done]).
    rewrite EL in HmL. apply elem_of_app in HmL as [Hq%elem_of_seq | Hq]; [lia |].
    pose proof (proj1 (Forall_forall _ _) HL' m Hq). simpl in *. lia.
  - rewrite <- Permutation_rev. apply Permutation_map. eapply rest_filter; [exact EL | lia | done | done].
  - rewrite Hd, Hlog2, H2, Hlog, <- !app_assoc. f_equal. rewrite app_assoc.
    replace (concat (take k cs) ++ piece k) with (concat (take (S k) cs))
      by (rewrite take_piece, concat_app by lia; simpl; by rewrite app_nil_r).
    rewrite <- concat_app. f_equal. rewrite <- (take_drop (S k) (take m cs)), take_take, Nat.min_l by lia.
    by rewrite skipn_firstn_comm.
Qed.

Definition feed (level : EncryptionLevel) (srv : bool) (s : bool * (T * list tls_event) * CryptoHandshaker.t)
    (frame : CryptoFrame.t) : bool * (T * list tls_event) * CryptoHandshaker.t :=
  let '(hc, x, c) := s in
  let '(_, hc, x, c) := CryptoHandshaker.recv_crypto sort_desc level srv hc frame x c in (hc, x, c).

Lemma feed_arrived level srv log0 js : forall R hc x c,
  NoDup (js ++ R) -> Forall (fun i => i < length cs)%nat (js ++ R) -> arrived log0 R x c ->
  let '(_, x', c') := foldl (feed level srv) (hc, x, c) (map crypto_frame js) in
  arrived log0 (rev js ++ R) x' c'.
Proof.
  induction js as [| j js IH]; intros R hc x c Hn Hb Ha; [done |]. cbn [map foldl].
  apply NoDup_cons in Hn as [Hj Hn]. apply Forall_cons in Hb as [Hjb Hb].
  apply NoDup_app in Hn as (Hn1 & Hd & Hn2). apply Forall_app in Hb as [Hb1 Hb2].
  pose proof (arrival level srv hc log0 R x c j Hn2 Hb2 Hjb ltac:(set_solver) Ha) as H1. unfold feed at 2.
  destruct (CryptoHandshaker.recv_crypto _ _ _ _ _ _ _) as [[[err hc'] x'] c'].
  simpl. rewrite <- app_assoc. apply IH; [| apply Forall_app; split; [done | by constructor] | done].
  apply NoDup_app. split_and!; [done | set_solver | constructor; [set_solver | done]].
Qed.

(** * Properties *)

(** C13. Whatever the order in which the pieces of a handshake stream
    arrive, the TLS stack is given the stream in order and without gaps:
    after any of them it has been given the pieces up to the first one
    missing, and after all of them the whole stream, with nothing left in the
    buffer. (The pieces are not empty and do not overlap, the TLS stack
    accepts what it is given, [std::sort] orders equal offsets in any way.) *)
Theorem crypto_in_order level srv hc x js rest :
  js ++ rest ≡ₚ seq 0 (length cs) ->
  let '(_, x', c') := foldl (feed level srv) (hc, x, CryptoHandshaker.reset) (map crypto_frame js) in
  exists k, log (fst x') = log (fst x) ++ concat (take k cs) /\
    (forall i, (i < k)%nat -> i ∈ js) /\ k ∉ js /\ CryptoHandshaker.read_offset c' = off k /\
    (rest = [] -> k = length cs /\ CryptoHandshaker.recv_data c' = []).
Proof.
  intros Hp. pose proof (NoDup_seq 0 (length cs)) as Hn. rewrite <- Hp in Hn.
  assert (Hb : Forall (fun i => i < length cs)%nat (js ++ rest)).
  { rewrite Hp. apply Forall_forall. intros i Hi%elem_of_seq. lia. }
  apply NoDup_app in Hn as (Hn & _ & _). apply Forall_app in Hb as [Hb _].
  pose proof (feed_arrived level srv (log (fst x)) js [] hc x CryptoHandshaker.reset) as H1.
  rewrite !app_nil_r in H1. destruct (foldl _ _ _) as [[hc' x'] c'].
  destruct H1 as (k & Hk & Hlow & HkR & Hro & Hrd & Hlog); [done | done | |].
  { exists 0%nat. simpl. rewrite app_nil_r. split_and!; try done; [lia | lia | set_solver]. }
  assert (Hin : forall i, i ∈ rev js <-> i ∈ js) by (intros i; by rewrite <- Permutation_rev).
  exists k. split_and!; [done | intros; by apply Hin, Hlow | by rewrite <- Hin | done |].
  intros ->. rewrite app_nil_r in Hp.
  assert (k = length cs) as ->.
  { destruct (decide (k < length cs)%nat) as [Hlt |]; [| lia]. exfalso. apply HkR, Hin. rewrite Hp. apply elem_of_seq. lia. }
  split; [done |]. rewrite filter_none in Hrd; [by apply Permutation_nil_r in Hrd |].
  apply Forall_forall. intros i Hi%Hin. pose proof (proj1 (Forall_forall _ _) Hb i Hi). simpl in *. lia.
Qed.
End Reassembly.

(** A TLS stack that only records what it is given. *)
#[global] Instance recording_tls : TLS (list Z) := {
  provide_quic_data _ d t := (None, [], t ++ d);
  progress_quic t := (None, [], t);
  tls_accept t := (Some (LibError "block"), [], t);
  tls_connect t := (Some (LibError "block"), [], t);
  isTLSBlock _ := true
}.

#[global] Instance offset_desc_dec (a b : CryptoRecvFragment) : Decision (cr_offset b <= cr_offset a) :=
  Z_le_dec (cr_offset b) (cr_offset a).

Definition by_offset : list CryptoRecvFragment -> list CryptoRecvFragment :=
  merge_sort (fun a b => cr_offset b <= cr_offset a).

Lemma by_offset_sorts : sorts_desc by_offset.
Proof.
  intros l. split; [apply merge_sort_Permutation |]. apply StronglySorted_merge_sort; [intros a b c; simpl; lia |].
  intros a b. simpl. lia.
Qed.

Lemma crypto_in_order_witness :
  let cs := [[1]; [2; 3]; [4]] in
  let '(_, x', c') := foldl (feed by_offset lvl_initial true) (false, ([], []), CryptoHandshaker.reset)
                        (map (crypto_frame cs) [2; 0; 1]%nat) in
  fst x' = [1; 2; 3; 4] /\ CryptoHandshaker.recv_data c' = [].
Proof.
  cbv zeta.
  pose proof (crypto_in_order (fun l : list Z => l) (fun _ _ _ => conj eq_refl eq_refl) (fun _ => eq_refl)
    (fun _ => eq_refl) (fun _ => eq_refl) by_offset by_offset_sorts [[1]; [2; 3]; [4]]
    ltac:(repeat constructor; done) ltac:(vm_compute; reflexivity) lvl_initial true false ([], []) [2; 0; 1]%nat []
    ltac:(by apply (bool_decide_unpack _))) as H.
  destruct (foldl _ _ _) as [[hc' x'] c']. destruct H as (k & H1 & _ & _ & _ & H2).
  destruct (H2 eq_refl) as [-> ->]. split; [by rewrite H1 | done].
Defined.

(** Part of a lost CRYPTO fragment is forgotten when it has to be cut.
    If the room left in a packet holds only a prefix of the fragment, the
    prefix is sent, and it is all that is remembered: the remaining bytes are
    in no fragment any more, so they are never sent again. *)
Theorem crypto_remainder_lost w o c f l0 frame :
  CryptoHandshaker.frags c = [Retransmiter.mk_resend f (Some l0)] -> snd o !! l0 = Some rec_lost -> unmarked o ->
  wr_ok (fw_w w) -> wr_room (fw_w w) < 2 ^ 62 -> 0 <= cf_offset f < 2 ^ 62 -> size (cf_data f) < 2 ^ 62 ->
  make_fit_size_Crypto (size (fw_remain w)) (cf_offset f) (cf_data f) = (frame, true) ->
  let n := size (CryptoFrame.crypto_data frame) in
  n < size (cf_data f) ->
  let '(res, w', o', c') := CryptoHandshaker.send_retransmit w o c in
  res = io_ok /\ wr_written (fw_w w') = wr_written (fw_w w) ++ wire frame /\
  exists l, CryptoHandshaker.frags c' =
    [Retransmiter.mk_resend (mk_cfrag (cf_offset f) (take (Z.to_nat n) (cf_data f))) (Some l)].
Proof.
  intros Hfr Hl0 Hu Hw Hroom Hoff Hsz Hfit. cbv zeta. intros Hn.
  assert (Hr0 : 0 <= wr_room (fw_w w)) by (destruct Hw; unfold wr_room, size; lia).
  destruct (make_fit_crypto_datagram (wr_room (fw_w w)) (cf_offset f) (cf_data f) Hoff Hsz ltac:(lia)) as (Hm & _).
  unfold fw_remain in Hfit. rewrite wr_remain_size in Hfit by done.
  destruct (Hm frame Hfit) as (Hwf & Hfl & Eo & k & Hk & Ed).
  assert (Hkn : size (CryptoFrame.crypto_data frame) = k) by (rewrite Ed; apply size_take_to; lia).
  unfold CryptoHandshaker.send_retransmit, Retransmiter.retransmit. rewrite Hfr.
  cbn [Retransmiter.retransmit_loop Retransmiter.wait Retransmiter.frag].
  assert (ACKHandler.is_ack (Some l0) (snd o) = false /\ ACKHandler.is_lost (Some l0) (snd o) = true) as [-> ->]
    by (split; unfold ACKHandler.is_ack, ACKHandler.is_lost, ACKLostRecord.is_ack, ACKLostRecord.is_lost; by rewrite Hl0).
  unfold CryptoHandshaker.resend_crypto, fw_remain. rewrite wr_remain_size, Hfit by done. cbn [negb].
  unfold fw_write. destruct (render_emits frame Hwf (fw_w w) Hw) as [He _].
  rewrite He by (rewrite wire_size by done; lia). cbn [negb]. rewrite Z.eqb_refl. cbn [negb foldl].
  unfold Retransmiter.save_new_frag, ACKHandler.wait. destruct (ACKRecorder.record o) as [l o'].
  cbn [Retransmiter.retransmit_loop app]. split; [done |].
  split; [apply wr_put_written; [done | by rewrite wire_size] |].
  exists l. cbn. rewrite Eo, Ed, size_take_to by lia. done.
Qed.

Lemma crypto_remainder_lost_witness :
  let c := CryptoHandshaker.mk [] 0 [1; 2; 3; 4; 5] 5 [Retransmiter.mk_resend (mk_cfrag 0 [1; 2; 3; 4; 5]) (Some 1%positive)] in
  let '(res, w', o', c') := CryptoHandshaker.send_retransmit (mk_fwriter (new_writer (replicate 6 0)) 0 0)
    (None, <[1%positive := rec_lost]> ∅) c in
  res = io_ok /\ map (fun it => cf_data (Retransmiter.frag it)) (CryptoHandshaker.frags c') = [[1; 2; 3]].
Proof.
  cbv zeta.
  pose proof (crypto_remainder_lost (mk_fwriter (new_writer (replicate 6 0)) 0 0) (None, <[1%positive := rec_lost]> ∅)
    (CryptoHandshaker.mk [] 0 [1; 2; 3; 4; 5] 5 [Retransmiter.mk_resend (mk_cfrag 0 [1; 2; 3; 4; 5]) (Some 1%positive)])
    (mk_cfrag 0 [1; 2; 3; 4; 5]) 1%positive (CryptoFrame.mk 0 (varint.of_uint 0) (varint.of_uint 3) [1; 2; 3])
    eq_refl eq_refl I) as H.
  destruct (CryptoHandshaker.send_retransmit _ _ _) as [[[res w'] o'] c'].
  destruct H as (-> & _ & l & ->); [vm_compute; split; (congruence || lia) | vm_compute; congruence |
    simpl; lia | vm_compute; congruence | reflexivity | vm_compute; reflexivity |]. split; reflexivity.
Defined.

(** A stale fragment blocks the receive buffer. When the buffer holds a
    fragment that lies before the read offset (a CRYPTO frame that was
    received twice while data before it was missing leaves one), in-order
    data is still provided, but nothing that is buffered is provided or
    removed any more. *)
Theorem stale_fragment_blocks {T} `{TLS T} sort_desc level srv hc frame x c stale x1 :
  sorts_desc sort_desc -> stale ∈ CryptoHandshaker.recv_data c ->
  cr_offset stale < CryptoHandshaker.read_offset c ->
  varint.value (CryptoFrame.offset frame) = CryptoHandshaker.read_offset c ->
  CryptoHandshaker.read_offset c + size (CryptoFrame.crypto_data frame) < 2 ^ 64 -> 0 <= CryptoHandshaker.read_offset c ->
  tls_call (provide_quic_data level (CryptoFrame.crypto_data frame)) x = (None, x1) ->
  let '(err, hc', x', c') := CryptoHandshaker.recv_crypto sort_desc level srv hc frame x c in
  (err, hc', x') = CryptoHandshaker.drive_tls srv hc x1 /\
  CryptoHandshaker.recv_data c' ≡ₚ CryptoHandshaker.recv_data c /\
  CryptoHandshaker.read_offset c' = CryptoHandshaker.read_offset c + size (CryptoFrame.crypto_data frame).
Proof.
  intros Hs Hin Hlt Ho Hsz Hr0 Hp. unfold CryptoHandshaker.recv_crypto. rewrite Ho, Z.ltb_irrefl, Z.eqb_refl, Hp.
  pose proof (size_nonneg (CryptoFrame.crypto_data frame)). rewrite u64_small by (unfold is_u64; lia).
  destruct (buffer_ascending sort_desc Hs (CryptoHandshaker.recv_data c)) as [Hperm Hasc]. set (buf := rev _) in *.
  assert (Hstop : CryptoHandshaker.provide_buffered level buf
    (CryptoHandshaker.read_offset c + size (CryptoFrame.crypto_data frame)) x1 =
    (None, buf, CryptoHandshaker.read_offset c + size (CryptoFrame.crypto_data frame), x1)).
  { rewrite <- Hperm in Hin. destruct buf as [| a l]; [set_solver |]. simpl.
    rewrite eqb_false; [done |]. apply StronglySorted_inv in Hasc as [_ Hasc].
    apply elem_of_cons in Hin as [-> | Hin]; [lia |]. pose proof (proj1 (Forall_forall _ _) Hasc stale Hin). simpl in *. lia. }
  rewrite Hstop. destruct (CryptoHandshaker.drive_tls srv hc x1) as [[err hc'] x']. split; [done |]. cbn.
  split; [| done]. by rewrite <- Permutation_rev.
Qed.

Definition stale_state : CryptoHandshaker.t :=
  snd (foldl (feed by_offset lvl_initial true) (false, ([], []), CryptoHandshaker.reset)
         (map (fun '(o, d) => CryptoFrame.mk 0 (varint.of_uint o) (varint.of_uint (size d)) d)
            [(1, [2]); (1, [2]); (3, [4]); (0, [1])])).

(** The piece at offset 1 came twice: after the bytes up to offset 2 are
    provided, the byte at 3 stays in the buffer when offset 2 arrives. *)
Lemma stale_fragment_blocks_witness :
  CryptoHandshaker.recv_data stale_state = [mk_crecv [4] 3; mk_crecv [2] 1] /\
  let '(err, hc', x', c') := CryptoHandshaker.recv_crypto by_offset lvl_initial true false
    (CryptoFrame.mk 0 (varint.of_uint 2) (varint.of_uint 1) [3]) ([1; 2], []) stale_state in
  CryptoHandshaker.recv_data c' ≡ₚ [mk_crecv [4] 3; mk_crecv [2] 1].
Proof.
  assert (E : stale_state = CryptoHandshaker.mk [mk_crecv [4] 3; mk_crecv [2] 1] 2 [] 0 []) by (vm_compute; reflexivity).
  rewrite E. split; [reflexivity |].
  pose proof (stale_fragment_blocks by_offset lvl_initial true false
    (CryptoFrame.mk 0 (varint.of_uint 2) (varint.of_uint 1) [3]) ([1; 2], [])
    (CryptoHandshaker.mk [mk_crecv [4] 3; mk_crecv [2] 1] 2 [] 0 []) (mk_crecv [2] 1) ([1; 2; 3], [])
    by_offset_sorts ltac:(set_solver) ltac:(simpl; lia) eq_refl ltac:(vm_compute; reflexivity) ltac:(simpl; lia) eq_refl) as H.
  destruct (CryptoHandshaker.recv_crypto _ _ _ _ _ _ _) as [[[err hc'] x'] c']. exact (proj1 (proj2 H)).
Defined.
