(* ===== verification/KeyUpdate.v ===== *)
(** * KeyUpdate: the keys of a connection

    Models [fnet/quic/crypto/encdec_suite.h], [update.h], [secret_manager.h],
    [suite.h] and [callback.h]: the keys of each packet type, the key update
    of 1-RTT packets, decryption of a received packet, and which keys are
    dropped when. The pointers of an [EncDecSuite] are to keys that do not
    change while the suite is used; a suite holds the keys themselves. *)

From stdpp Require Import base numbers list strings.
From Stdlib Require Import ZArith Lia.
From S2P Require Import Prelude Bytes PacketNumber Types ShortPacket FrameParse QTime AckRecord Keys PacketProtect CryptoStream.

#[local] Open Scope string_scope.
#[local] Open Scope Z_scope.
#[local] Open Scope list_scope.

Inductive KeyPhase := phase_none | phase_one | phase_zero.

#[global] Instance KeyPhase_eq_dec : EqDecision KeyPhase.
Proof. solve_decision. Defined.

Module EncDecSuite.
Record t := mk { hp : HP.t; keyiv : KeyIV.t; cipher : TLSCipher; phase : KeyPhase }.
End EncDecSuite.

Inductive KeyMode := key_prev | key_current | key_next.

#[global] Instance KeyMode_eq_dec : EqDecision KeyMode.
Proof. solve_decision. Defined.

Definition key_bit (key_phase : Z) : bool := key_phase mod 2 =? 1.

(** ** [struct KeyUpdater] *)

Module KeyUpdater.
Record t := mk {
  whp : HP.t; rhp : HP.t;
  prev_rsecret : Secret.t; cur_rsecret : Secret.t; next_rsecret : Secret.t;
  cur_wsecret : Secret.t; next_wsecret : Secret.t;
  key_phase : Z;
  first_sent : Z; num_sent : Z; first_recv : Z; num_recv : Z; highest_recv : Z
}.

Definition reset : t :=
  mk HP.clear HP.clear Secret.discard Secret.discard Secret.discard Secret.discard Secret.discard
     0 packetnum.infinity 0 packetnum.infinity 0 packetnum.infinity.

Definition set_whp v k := mk v (rhp k) (prev_rsecret k) (cur_rsecret k) (next_rsecret k) (cur_wsecret k) (next_wsecret k)
  (key_phase k) (first_sent k) (num_sent k) (first_recv k) (num_recv k) (highest_recv k).
Definition set_rhp v k := mk (whp k) v (prev_rsecret k) (cur_rsecret k) (next_rsecret k) (cur_wsecret k) (next_wsecret k)
  (key_phase k) (first_sent k) (num_sent k) (first_recv k) (num_recv k) (highest_recv k).
Definition set_prev_r v k := mk (whp k) (rhp k) v (cur_rsecret k) (next_rsecret k) (cur_wsecret k) (next_wsecret k)
  (key_phase k) (first_sent k) (num_sent k) (first_recv k) (num_recv k) (highest_recv k).
Definition set_cur_r v k := mk (whp k) (rhp k) (prev_rsecret k) v (next_rsecret k) (cur_wsecret k) (next_wsecret k)
  (key_phase k) (first_sent k) (num_sent k) (first_recv k) (num_recv k) (highest_recv k).
Definition set_next_r v k := mk (whp k) (rhp k) (prev_rsecret k) (cur_rsecret k) v (cur_wsecret k) (next_wsecret k)
  (key_phase k) (first_sent k) (num_sent k) (first_recv k) (num_recv k) (highest_recv k).
Definition set_cur_w v k := mk (whp k) (rhp k) (prev_rsecret k) (cur_rsecret k) (next_rsecret k) v (next_wsecret k)
  (key_phase k) (first_sent k) (num_sent k) (first_recv k) (num_recv k) (highest_recv k).
Definition set_next_w v k := mk (whp k) (rhp k) (prev_rsecret k) (cur_rsecret k) (next_rsecret k) (cur_wsecret k) v
  (key_phase k) (first_sent k) (num_sent k) (first_recv k) (num_recv k) (highest_recv k).

Definition install_onertt_rsecret (secret : list Z) (cipher : TLSCipher) (k : t) : bool * t :=
  if negb (key_phase k =? 0) || Secret.is_installed (cur_rsecret k) then (false, k)
  else (true, set_cur_r (Secret.install secret cipher) k).

Definition install_onertt_wsecret (secret : list Z) (cipher : TLSCipher) (k : t) : bool * t :=
  if negb (key_phase k =? 0) || Secret.is_installed (cur_wsecret k) then (false, k)
  else (true, set_cur_w (Secret.install secret cipher) k).

Definition is_installed (w : bool) (k : t) : bool :=
  if w then Secret.is_installed (cur_wsecret k) else Secret.is_installed (cur_rsecret k).

Definition maybe_use_prev_secret (pn : Z) (k : t) : bool :=
  ((0 <? key_phase k) && (first_recv k =? packetnum.infinity)) || (pn <? first_recv k).

Definition key_update_allowed (k : t) : bool :=
  (key_phase k =? 0) || negb (first_sent k =? packetnum.infinity).

Definition on_packet_sent (pn : Z) (k : t) : t :=
  mk (whp k) (rhp k) (prev_rsecret k) (cur_rsecret k) (next_rsecret k) (cur_wsecret k) (next_wsecret k) (key_phase k)
     (if first_sent k =? packetnum.infinity then pn else first_sent k) (u64 (num_sent k + 1))
     (first_recv k) (num_recv k) (highest_recv k).

Definition on_packet_received (pn : Z) (k : t) : t :=
  mk (whp k) (rhp k) (prev_rsecret k) (cur_rsecret k) (next_rsecret k) (cur_wsecret k) (next_wsecret k) (key_phase k)
     (first_sent k) (num_sent k)
     (if first_recv k =? packetnum.infinity then pn else first_recv k) (u64 (num_recv k + 1))
     (if highest_recv k <? pn then pn else highest_recv k).

Section ops.
Context `{CryptoLib}.

(** [byte tmp[32]]: the size of the buffer the next secrets are made in. *)
Definition prepare_next_keys (version : Z) (k : t) : option Error * t :=
  if Secret.is_installed (next_wsecret k) && Secret.is_installed (next_rsecret k) then (None, k)
  else
    match Secret.update 32 version (cur_wsecret k) with
    | inr werr => (Some werr, k)
    | inl wupdated =>
        let k := set_next_w (Secret.install wupdated (Secret.cipher (cur_wsecret k))) k in
        match Secret.update 32 version (cur_rsecret k) with
        | inr rerr => (Some rerr, k)
        | inl rupdated => (None, set_next_r (Secret.install rupdated (Secret.cipher (cur_rsecret k))) k)
        end
    end.

Definition on_key_update (version : Z) (k : t) : option Error * t :=
  match prepare_next_keys version k with
  | (Some err, k) => (Some err, k)
  | (None, k) =>
      let '(prev_r, _) := Secret.move (cur_rsecret k) in
      let '(cur_r, next_r) := Secret.move (next_rsecret k) in
      let '(cur_w, next_w) := Secret.move (next_wsecret k) in
      (None, mk (whp k) (rhp k) prev_r cur_r next_r cur_w next_w (u64 (key_phase k + 1))
                packetnum.infinity 0 packetnum.infinity 0 (highest_recv k))
  end.

Definition phase_of (phase : Z) : KeyPhase := if key_bit phase then phase_one else phase_zero.

(** What follows the choice of the secret in [enc_suite]. *)
Definition finish_enc (version phase : Z) (kiv : KeyIV.t) (k : t) : (EncDecSuite.t + Error) * t :=
  let '(err, h) := if key_phase k =? 0 then Secret.hp_if_zero (whp k) version (cur_wsecret k) else (None, whp k) in
  let k := set_whp h k in
  match err with
  | Some e => (inr e, k)
  | None => (inl (EncDecSuite.mk h kiv (Secret.cipher (cur_wsecret k)) (phase_of phase)), k)
  end.

Definition enc_suite (version : Z) (mode : KeyMode) (k : t) : (EncDecSuite.t + Error) * t :=
  match mode with
  | key_current =>
      let '(err, s) := Secret.keyiv version (cur_wsecret k) in
      let k := set_cur_w s k in
      match err with
      | Some e => (inr e, k)
      | None => finish_enc version (key_phase k) (Secret.keyiv_ s) k
      end
  | key_next =>
      match prepare_next_keys version k with
      | (Some e, k) => (inr e, k)
      | (None, k) =>
          let '(err, s) := Secret.keyiv version (next_wsecret k) in
          let k := set_next_w s k in
          match err with
          | Some e => (inr e, k)
          | None => finish_enc version (u64 (key_phase k + 1)) (Secret.keyiv_ s) k
          end
      end
  | key_prev => (inr (LibError "invalid key mode for encryption suite"), k)
  end.

(** What follows the choice of the secret in [dec_suite]. *)
Definition finish_dec (version phase : Z) (kiv : KeyIV.t) (k : t) : (EncDecSuite.t + Error) * t :=
  let '(err, h) := if key_phase k =? 0 then Secret.hp_if_zero (rhp k) version (cur_rsecret k) else (None, rhp k) in
  let k := set_rhp h k in
  match err with
  | Some e => (inr e, k)
  | None => (inl (EncDecSuite.mk h kiv (Secret.cipher (cur_rsecret k)) (phase_of phase)), k)
  end.

Definition dec_suite (version : Z) (mode : KeyMode) (k : t) : (EncDecSuite.t + Error) * t :=
  match mode with
  | key_prev =>
      let '(err, s) := Secret.keyiv version (prev_rsecret k) in
      let k := set_prev_r s k in
      match err with
      | Some e => (inr e, k)
      | None => finish_dec version (u64 (key_phase k - 1)) (Secret.keyiv_ s) k
      end
  | key_current =>
      let '(err, s) := Secret.keyiv version (cur_rsecret k) in
      let k := set_cur_r s k in
      match err with
      | Some e => (inr e, k)
      | None => finish_dec version (key_phase k) (Secret.keyiv_ s) k
      end
  | key_next =>
      match prepare_next_keys version k with
      | (Some e, k) => (inr e, k)
      | (None, k) =>
          let '(err, s) := Secret.keyiv version (next_rsecret k) in
          let k := set_next_r s k in
          match err with
          | Some e => (inr e, k)
          | None => finish_dec version (u64 (key_phase k + 1)) (Secret.keyiv_ s) k
          end
      end
  end.
End ops.
End KeyUpdater.

(** ** [struct HandshakeSecrets] *)

Module HandshakeSecrets.
Record t := mk { rsecret : Secret.t; rhp : HP.t; wsecret : Secret.t; whp : HP.t }.
Definition reset : t := mk Secret.discard HP.clear Secret.discard HP.clear.
Definition drop : t := reset.
Definition install_wsecret (secret : list Z) (cipher : TLSCipher) (h : t) : t :=
  mk (rsecret h) (rhp h) (Secret.install secret cipher) HP.clear.
Definition install_rsecret (secret : list Z) (cipher : TLSCipher) (h : t) : t :=
  mk (Secret.install secret cipher) HP.clear (wsecret h) (whp h).
Definition is_installed (w : bool) (h : t) : bool :=
  if w then Secret.is_installed (wsecret h) else Secret.is_installed (rsecret h).

Section ops.
Context `{CryptoLib}.

(** The body [enc_suite] and [dec_suite] share: the suite, the secret and
    the header protection key. *)
Definition suite_of (version : Z) (s : Secret.t) (h : HP.t) : (EncDecSuite.t + Error) * Secret.t * HP.t :=
  match Secret.keyiv version s with
  | (Some e, s) => (inr e, s, h)
  | (None, s) =>
      match Secret.hp_if_zero h version s with
      | (Some e, h) => (inr e, s, h)
      | (None, h) => (inl (EncDecSuite.mk h (Secret.keyiv_ s) (Secret.cipher s) phase_none), s, h)
      end
  end.

Definition enc_suite (version : Z) (x : t) : (EncDecSuite.t + Error) * t :=
  let '(r, s, h) := suite_of version (wsecret x) (whp x) in (r, mk (rsecret x) (rhp x) s h).

Definition dec_suite (version : Z) (x : t) : (EncDecSuite.t + Error) * t :=
  let '(r, s, h) := suite_of version (rsecret x) (rhp x) in (r, mk s h (wsecret x) (whp x)).
End ops.
End HandshakeSecrets.

(** ** [struct SecretManager] *)

Module SecretManager.
Record t := mk {
  initial : HandshakeSecrets.t; handshake : HandshakeSecrets.t; zerortt : HandshakeSecrets.t; onertt : KeyUpdater.t }.
Definition reset : t := mk HandshakeSecrets.reset HandshakeSecrets.reset HandshakeSecrets.reset KeyUpdater.reset.
Definition set_initial v s := mk v (handshake s) (zerortt s) (onertt s).
Definition set_handshake v s := mk (initial s) v (zerortt s) (onertt s).
Definition set_zerortt v s := mk (initial s) (handshake s) v (onertt s).
Definition set_onertt v s := mk (initial s) (handshake s) (zerortt s) v.

Definition install_rsecret (level : EncryptionLevel) (secret : list Z) (cipher : TLSCipher) (s : t) : bool * t :=
  match level with
  | lvl_handshake => (true, set_handshake (HandshakeSecrets.install_rsecret secret cipher (handshake s)) s)
  | lvl_early_data => (true, set_zerortt (HandshakeSecrets.install_rsecret secret cipher (zerortt s)) s)
  | lvl_application =>
      let '(ok, k) := KeyUpdater.install_onertt_rsecret secret cipher (onertt s) in (ok, set_onertt k s)
  | lvl_initial => (false, s)
  end.

Definition install_wsecret (level : EncryptionLevel) (secret : list Z) (cipher : TLSCipher) (s : t) : bool * t :=
  match level with
  | lvl_handshake => (true, set_handshake (HandshakeSecrets.install_wsecret secret cipher (handshake s)) s)
  | lvl_early_data => (true, set_zerortt (HandshakeSecrets.install_wsecret secret cipher (zerortt s)) s)
  | lvl_application =>
      let '(ok, k) := KeyUpdater.install_onertt_wsecret secret cipher (onertt s) in (ok, set_onertt k s)
  | lvl_initial => (false, s)
  end.

Definition drop_initial (s : t) : t := set_initial HandshakeSecrets.drop s.
Definition drop_handshake (s : t) : t := set_handshake HandshakeSecrets.drop s.
Definition drop_0rtt (s : t) : t := set_zerortt HandshakeSecrets.drop s.

Definition is_installed (type : PacketType) (w : bool) (s : t) : bool :=
  match type with
  | Initial => HandshakeSecrets.is_installed w (initial s)
  | ZeroRTT => HandshakeSecrets.is_installed w (zerortt s)
  | Handshake => HandshakeSecrets.is_installed w (handshake s)
  | OneRTT => KeyUpdater.is_installed w (onertt s)
  | _ => false
  end.

Definition maybe_use_prev_secret (pn : Z) (s : t) : bool := KeyUpdater.maybe_use_prev_secret pn (onertt s).
Definition key_update_allowed (s : t) : bool := KeyUpdater.key_update_allowed (onertt s).
Definition on_onertt_packet_received (pn : Z) (s : t) : t := set_onertt (KeyUpdater.on_packet_received pn (onertt s)) s.
Definition on_onertt_packet_sent (pn : Z) (s : t) : t := set_onertt (KeyUpdater.on_packet_sent pn (onertt s)) s.

Section ops.
Context `{CryptoLib}.

Definition install_initial_secrets (version : Z) (is_server : bool) (clientDstID : list Z) (s : t) : bool * t :=
  match make_initial_secret 32 version clientDstID true with
  | None => (false, s)
  | Some client_secret =>
      match make_initial_secret 32 version clientDstID false with
      | None => (false, s)
      | Some server_secret =>
          let '(w, r) := if is_server then (server_secret, client_secret) else (client_secret, server_secret) in
          (true, set_initial (HandshakeSecrets.install_rsecret r no_cipher
                               (HandshakeSecrets.install_wsecret w no_cipher (initial s))) s)
      end
  end.

Definition on_key_update (version : Z) (s : t) : option Error * t :=
  let '(err, k) := KeyUpdater.on_key_update version (onertt s) in (err, set_onertt k s).

Definition enc_suite (version : Z) (type : PacketType) (mode : KeyMode) (s : t) : (EncDecSuite.t + Error) * t :=
  match type with
  | Initial => let '(r, h) := HandshakeSecrets.enc_suite version (initial s) in (r, set_initial h s)
  | ZeroRTT => let '(r, h) := HandshakeSecrets.enc_suite version (zerortt s) in (r, set_zerortt h s)
  | Handshake => let '(r, h) := HandshakeSecrets.enc_suite version (handshake s) in (r, set_handshake h s)
  | OneRTT => let '(r, k) := KeyUpdater.enc_suite version mode (onertt s) in (r, set_onertt k s)
  | _ => (inr (LibError "invalid packet type"), s)
  end.

Definition dec_suite (type : PacketType) (version : Z) (mode : KeyMode) (s : t) : (EncDecSuite.t + Error) * t :=
  match type with
  | Initial => let '(r, h) := HandshakeSecrets.dec_suite version (initial s) in (r, set_initial h s)
  | ZeroRTT => let '(r, h) := HandshakeSecrets.dec_suite version (zerortt s) in (r, set_zerortt h s)
  | Handshake => let '(r, h) := HandshakeSecrets.dec_suite version (handshake s) in (r, set_handshake h s)
  | OneRTT => let '(r, k) := KeyUpdater.dec_suite version mode (onertt s) in (r, set_onertt k s)
  | _ => (inr (LibError "unexpect packet type for hp"), s)
  end.
End ops.
End SecretManager.

(** ** [struct CryptoSuite] *)

Module CryptoSuite.
Record t (T : Type) := mk { handshaker : CryptoHandshakers.t T; secrets : SecretManager.t }.
Arguments mk {T}. Arguments handshaker {T}. Arguments secrets {T}.

Section ops.
Context `{CryptoLib} {T : Type} `{TLS T} (sort_desc : list CryptoRecvFragment -> list CryptoRecvFragment).

Definition set_secrets s (c : t T) : t T := mk (handshaker c) s.
Definition set_handshaker h (c : t T) : t T := mk h (secrets c).

Definition reset (new_tls : T) (is_server : bool) : t T :=
  mk (CryptoHandshakers.reset new_tls is_server) SecretManager.reset.

Definition is_server (c : t T) : bool := CryptoHandshakers.is_server (handshaker c).

Definition send (type : PacketType) (w : fwriter) (o : observer) (c : t T) : IOResult * fwriter * observer * t T :=
  let '(res, w, o, h) := CryptoHandshakers.send type w o (handshaker c) in (res, w, o, set_handshaker h c).

(** [qtls_callback], as far as it installs secrets. *)
Definition apply_event (s : SecretManager.t) (e : tls_event) : SecretManager.t :=
  match e with
  | ev_secret level r w cipher =>
      match SecretManager.install_rsecret level r cipher s with
      | (true, s) => snd (SecretManager.install_wsecret level w cipher s)
      | (false, s) => s
      end
  | ev_wsecret level w cipher => snd (SecretManager.install_wsecret level w cipher s)
  | ev_rsecret level r cipher => snd (SecretManager.install_rsecret level r cipher s)
  | _ => s
  end.

Definition recv (type : PacketType) (frame : AnyFrame) (c : t T) : option Error * t T :=
  let '(err, evs, h) := CryptoHandshakers.recv sort_desc type frame (handshaker c) in
  (err, mk h (foldl apply_event (secrets c) evs)).

Definition decrypt_onertt (version : Z) (dec : EncDecSuite.t) (packet : CryptoPacket.t) (s : SecretManager.t)
    : option Error * CryptoPacket.t * SecretManager.t :=
  let phase := if PacketFlags.key_phase (nth 0 (CryptoPacket.src packet) 0) then phase_one else phase_zero in
  let '(choice, mode, s) :=
    if negb (bool_decide (EncDecSuite.phase dec = phase)) then
      if SecretManager.maybe_use_prev_secret (CryptoPacket.packet_number packet) s
      then let '(r, s) := SecretManager.dec_suite OneRTT version key_prev s in (r, key_prev, s)
      else let '(r, s) := SecretManager.dec_suite OneRTT version key_next s in (r, key_next, s)
    else (inl dec, key_current, s) in
  match choice with
  | inr e => (Some e, packet, s)
  | inl dec =>
      let '(err, packet) := decrypt_payload (EncDecSuite.keyiv dec) (EncDecSuite.cipher dec) packet in
      match err with
      | Some e => (Some e, packet, s)
      | None =>
          match mode with
          | key_next =>
              if negb (SecretManager.key_update_allowed s)
              then (Some (QUICError "key update not allowed" KEY_UPDATE_ERROR FrameType.PADDING), packet, s)
              else let '(err, s) := SecretManager.on_key_update version s in (err, packet, s)
          | key_current => (None, packet, SecretManager.on_onertt_packet_received (CryptoPacket.packet_number packet) s)
          | key_prev => (None, packet, s)
          end
      end
  end.

(** The callback [decrypt_callback] returns; [dstID] is that of the packet.
    [None]: the decoding of the packet number is undefined. *)
Definition decrypt_callback (version : Z) (get_largest_pn : PacketType -> Z)
    (type : PacketType) (dstID : list Z) (packet : CryptoPacket.t) (c : t T)
    : option (option Error * CryptoPacket.t * t T) :=
  let '(ok, s) :=
    if is_server c && bool_decide (type = Initial) && negb (SecretManager.is_installed Initial false (secrets c))
    then SecretManager.install_initial_secrets version true dstID (secrets c) else (true, secrets c) in
  if negb ok then Some (Some (LibError "failed to generate initial secret"), packet, c)
  else
    match SecretManager.dec_suite type version key_current s with
    | (inr e, s) => Some (Some e, packet, set_secrets s c)
    | (inl dec, s) =>
        match decrypt_header (EncDecSuite.hp dec) (EncDecSuite.cipher dec) packet (get_largest_pn type) with
        | None => None
        | Some (Some e, packet) => Some (Some e, packet, set_secrets s c)
        | Some (None, packet) =>
            let '(err, packet, s) :=
              match type with
              | OneRTT => decrypt_onertt version dec packet s
              | _ =>
                  let '(err, packet) := decrypt_payload (EncDecSuite.keyiv dec) (EncDecSuite.cipher dec) packet in
                  (err, packet, s)
              end in
            Some (err, packet, set_secrets s c)
        end
    end.

Definition enc_suite (version : Z) (type : PacketType) (mode : KeyMode) (c : t T) : (EncDecSuite.t + Error) * t T :=
  let '(r, s) := SecretManager.enc_suite version type mode (secrets c) in (r, set_secrets s c).

Definition install_initial_secret (version : Z) (clientDstID : list Z) (c : t T) : bool * t T :=
  let '(ok, s) := SecretManager.install_initial_secrets version (is_server c) clientDstID (secrets c) in
  (ok, set_secrets s c).

Definition write_installed (type : PacketType) (c : t T) : bool := SecretManager.is_installed type true (secrets c).
Definition read_installed (type : PacketType) (c : t T) : bool := SecretManager.is_installed type false (secrets c).

Definition maybe_drop_initial (c : t T) : bool * t T :=
  if read_installed Handshake c && write_installed Handshake c && read_installed Initial c
  then (true, set_secrets (SecretManager.drop_initial (secrets c)) c) else (false, c).

Definition handshake_confirmed (c : t T) : bool := CryptoHandshakers.handshake_confirmed (handshaker c).
Definition handshake_complete (c : t T) : bool := CryptoHandshakers.handshake_complete (handshaker c).

Definition maybe_drop_handshake (c : t T) : bool * t T :=
  if handshake_confirmed c && (write_installed Handshake c || read_installed Handshake c)
  then (true, set_secrets (SecretManager.drop_handshake (secrets c)) c) else (false, c).

Definition maybe_drop_0rtt (c : t T) : bool * t T :=
  if (if is_server c then read_installed OneRTT c else write_installed OneRTT c) &&
     (write_installed ZeroRTT c || read_installed ZeroRTT c)
  then (true, set_secrets (SecretManager.drop_0rtt (secrets c)) c) else (false, c).

Definition on_packet_sent (type : PacketType) (pn : Z) (c : t T) : t T :=
  if bool_decide (type = OneRTT) then set_secrets (SecretManager.on_onertt_packet_sent pn (secrets c)) c else c.

Definition on_packet_number_space_discarded (space : PacketNumberSpace) (c : t T) : t T :=
  set_handshaker (CryptoHandshakers.on_packet_number_space_discarded space (handshaker c)) c.
End ops.
End CryptoSuite.
