(* ===== verification/KeyUpdateProps.v ===== *)
(** * KeyUpdateProps: the key schedule

    The theorems on KeyUpdate. [KdfLaws] states what RFC 5869 promises of
    HKDF-Expand. The specification of a [KeyUpdater] is a generation number
    for the secrets of both directions: the secret of generation [n] is the
    first one, updated [n] times. *)

From stdpp Require Import base numbers list strings.
From Stdlib Require Import ZArith Lia.
From S2P Require Import Prelude Bytes PacketNumber Types PacketBase ShortPacket FrameParse QTime AckRecord Keys PacketProtect ProtectProps CryptoStream KeyUpdate.

#[local] Open Scope string_scope.
#[local] Open Scope Z_scope.
#[local] Open Scope list_scope.

(** The expansion the source chooses at run time. *)
Definition expand_raw `{CryptoLib} (secret info : list Z) (len : Z) : option (list Z) :=
  match HKDF_expand with
  | None => HKDF_Expand_openssl len secret info
  | Some expand => expand secret info len
  end.

(** HKDF-Expand gives any length up to 255 blocks of the hash, HKDF-Extract
    one block. *)
Class KdfLaws (L : CryptoLib) := {
  expand_total : forall secret info len, 0 <= len <= 255 * 32 ->
    exists out, expand_raw secret info len = Some out /\ size out = len;
  extract_total : forall secret salt, exists out, HKDF_Extract 32 secret salt = Some out
}.

(** ** Derivation *)

(** The bytes of the label: those of [HkdfLabel] in RFC 8446, section 7.1. *)
Definition label_bytes (len : Z) (label : list Z) : list Z :=
  write_be 2 len ++ [6 + size label] ++ make_key_material "tls13 " ++ label ++ [0].

Lemma emits_label len label :
  size label <= 20 -> emits (write_label len label) (label_bytes len label).
Proof.
  intros Hl. unfold write_label, label_bytes.
  apply emits_andM; [apply emits_num |]. pose proof (size_nonneg label).
  rewrite u8_small by (unfold is_byte; lia).
  repeat (apply emits_andM; [apply emits_byte || apply emits_write |]). apply emits_byte.
Qed.

Section schedule.
Context `{L : CryptoLib} `{!KdfLaws L}.

Lemma expand_label_eq len secret label :
  0 <= len <= 255 * 32 -> size label <= 20 ->
  HKDF_Expand_label tmp100 len secret label = expand_raw secret (label_bytes len label) len.
Proof.
  intros Hn Hl. unfold HKDF_Expand_label. pose proof (size_nonneg label).
  rewrite u64_small by (unfold is_u64; lia). rewrite !ltb_false by lia.
  assert (Hw : wr_ok (new_writer tmp100)) by (split; vm_compute; [lia | done]).
  destruct (emits_label len label Hl (new_writer tmp100) Hw) as [He _].
  assert (Hs : size (label_bytes len label) <= wr_room (new_writer tmp100)).
  { unfold label_bytes. rewrite !size_app. change (size (make_key_material "tls13 ")) with 6.
    change (wr_room (new_writer tmp100)) with 100. unfold size at 1. rewrite length_write_be.
    rewrite !size_cons, size_nil. lia. }
  rewrite He by done. cbn [negb]. rewrite wr_put_written by done. done.
Qed.

(** The secret after an update. *)
Definition ku (s : list Z) : list Z := default [] (expand_raw s (label_bytes (size s) quic_ku) (size s)).

Definition gen (n : nat) (s : list Z) : list Z := Nat.iter n ku s.

(** The keys derived from a secret. *)
Definition derive (c : TLSCipher) (s : list Z) : KeyIV.t := snd (make_key_and_iv KeyIV.clear c version_1 s).
Definition derive_hp (c : TLSCipher) (s : list Z) : HP.t := snd (make_hp HP.clear c version_1 s).

Lemma expand_label_some len secret label :
  0 <= len <= 255 * 32 -> size label <= 20 ->
  exists out, HKDF_Expand_label tmp100 len secret label = Some out /\ size out = len.
Proof. intros Hn Hl. rewrite expand_label_eq by done. by apply expand_total. Qed.

Lemma ku_size s : size s <= 255 * 32 -> size (ku s) = size s.
Proof.
  intros Hs. unfold ku. pose proof (size_nonneg s).
  destruct (expand_total s (label_bytes (size s) quic_ku) (size s)) as (out & -> & E); [lia |]. done.
Qed.

Lemma gen_size n s : size s <= 255 * 32 -> size (gen n s) = size s.
Proof. intros Hs. induction n as [| n IH]; [done |]. change (gen (S n) s) with (ku (gen n s)).
  rewrite ku_size; lia. Qed.

Lemma updated_key s : size s <= 255 * 32 -> make_updated_key (size s) s version_1 = inl (ku s).
Proof.
  intros Hs. pose proof (size_nonneg s). unfold make_updated_key. rewrite Z.eqb_refl. cbn [negb].
  rewrite Z.eqb_refl, expand_label_eq by (lia || (vm_compute; discriminate)). unfold ku.
  destruct (expand_total s (label_bytes (size s) quic_ku) (size s)) as (out & -> & E); [lia |]. done.
Qed.

Lemma derive_ok c s n :
  key_length c = inl n ->
  make_key_and_iv KeyIV.clear c version_1 s = (None, derive c s) /\ KeyIV.hash_len (derive c s) = n.
Proof.
  intros Hn. unfold derive, make_key_and_iv. rewrite Hn, Z.eqb_refl.
  destruct (expand_label_some (size (KeyIV.key (KeyIV.set_hash_len n KeyIV.clear))) s quic_key) as (k & -> & Hk);
    [destruct (key_length_16_32 c n Hn); subst; vm_compute; split; discriminate | vm_compute; discriminate |].
  destruct (expand_label_some (size (KeyIV.iv (KeyIV.set_key k (KeyIV.set_hash_len n KeyIV.clear)))) s quic_iv)
    as (v & -> & Hv); [| vm_compute; discriminate | done].
  destruct (key_length_16_32 c n Hn); subst; unfold KeyIV.iv; cbn [KeyIV.hash_len KeyIV.set_key KeyIV.set_hash_len];
    (split; [apply size_nonneg |]); rewrite rsubstr_size by lia; zcases.
Qed.

Lemma derive_hp_ok c s n :
  key_length c = inl n ->
  make_hp HP.clear c version_1 s = (None, derive_hp c s) /\ HP.hash_len (derive_hp c s) = n.
Proof.
  intros Hn. unfold derive_hp, make_hp. rewrite Hn, Z.eqb_refl.
  destruct (expand_label_some (size (HP.hp (HP.set_hash_len n HP.clear))) s quic_hp) as (k & -> & Hk);
    [destruct (key_length_16_32 c n Hn); subst; vm_compute; split; discriminate | vm_compute; discriminate | done].
Qed.

(** ** The invariant of a key updater *)

Variables (c : TLSCipher) (klen : Z) (r0 w0 : list Z).
Hypothesis Hc : key_length c = inl klen.
Hypothesis Hr0 : size r0 = 32.
Hypothesis Hw0 : size w0 = 32.

(** An installed secret, with its keys derived or not yet. *)
Definition holds (s : Secret.t) (sec : list Z) : Prop :=
  Secret.secret_ s = Some sec /\ Secret.cipher s = c /\
  (Secret.keyiv_ s = KeyIV.clear \/ Secret.keyiv_ s = derive c sec).

Definition hp_holds (h : HP.t) (sec : list Z) : Prop := h = HP.clear \/ h = derive_hp c sec.

Definition maybe_holds (s : Secret.t) (sec : list Z) : Prop := Secret.is_installed s = false \/ holds s sec.

Definition keys_inv (n : nat) (k : KeyUpdater.t) : Prop :=
  KeyUpdater.key_phase k = Z.of_nat n /\
  holds (KeyUpdater.cur_rsecret k) (gen n r0) /\ holds (KeyUpdater.cur_wsecret k) (gen n w0) /\
  maybe_holds (KeyUpdater.next_rsecret k) (gen (S n) r0) /\ maybe_holds (KeyUpdater.next_wsecret k) (gen (S n) w0) /\
  match n with
  | O => Secret.is_installed (KeyUpdater.prev_rsecret k) = false
  | S m => holds (KeyUpdater.prev_rsecret k) (gen m r0)
  end /\
  hp_holds (KeyUpdater.rhp k) r0 /\ hp_holds (KeyUpdater.whp k) w0.

Lemma klen_pos : klen <> 0.
Proof. destruct (key_length_16_32 c klen Hc); lia. Qed.

Lemma install_holds sec : holds (Secret.install sec c) sec.
Proof. repeat split. by left. Qed.

Lemma holds_keyiv s sec :
  holds s sec ->
  Secret.keyiv version_1 s = (None, Secret.mk (Some sec) c (derive c sec)) /\
  holds (Secret.mk (Some sec) c (derive c sec)) sec.
Proof.
  destruct s as [o ci k]. intros (E1 & E2 & E3). cbn in E1, E2, E3. subst o ci.
  split; [| repeat split; by right]. unfold Secret.keyiv. cbn [Secret.secret_ Secret.keyiv_ Secret.cipher].
  destruct (derive_ok c sec klen Hc) as [Hd Hh]. pose proof klen_pos. destruct E3 as [-> | ->].
  - change (KeyIV.hash_len KeyIV.clear =? 0) with true. cbv match. rewrite Hd. done.
  - rewrite eqb_false by congruence. done.
Qed.

Lemma hp_step s sec0 h :
  holds s sec0 -> hp_holds h sec0 -> Secret.hp_if_zero h version_1 s = (None, derive_hp c sec0).
Proof.
  destruct s as [o ci k]. intros (E1 & E2 & _) Hh. cbn in E1, E2. subst o ci.
  destruct (derive_hp_ok c sec0 klen Hc) as [E Eh]. unfold Secret.hp_if_zero, Secret.hp. destruct Hh as [-> | ->].
  - cbn. by rewrite E.
  - rewrite eqb_false by (rewrite Eh; apply klen_pos). done.
Qed.

Lemma holds_update s sec :
  holds s sec -> size sec = 32 -> Secret.update 32 version_1 s = inl (ku sec).
Proof.
  destruct s as [o ci k]. intros (E1 & E2 & _) Hs. cbn in E1, E2. subst o ci.
  unfold Secret.update. cbn [Secret.secret_]. rewrite Hs, <- Hs, Z.min_id. apply updated_key. lia.
Qed.

Lemma gen_r n : size (gen n r0) = 32.
Proof. rewrite gen_size; lia. Qed.
Lemma gen_w n : size (gen n w0) = 32.
Proof. rewrite gen_size; lia. Qed.

(** Preparing the next keys succeeds and installs the next generation. *)
Lemma prepare_spec n k :
  keys_inv n k ->
  exists k', KeyUpdater.prepare_next_keys version_1 k = (None, k') /\ keys_inv n k' /\
    holds (KeyUpdater.next_rsecret k') (gen (S n) r0) /\ holds (KeyUpdater.next_wsecret k') (gen (S n) w0) /\
    KeyUpdater.cur_rsecret k' = KeyUpdater.cur_rsecret k /\ KeyUpdater.cur_wsecret k' = KeyUpdater.cur_wsecret k.
Proof.
  intros HI. pose proof HI as (Hp & Hr & Hw & Hnr & Hnw & Hpr & Hhr & Hhw).
  unfold KeyUpdater.prepare_next_keys.
  destruct (Secret.is_installed (KeyUpdater.next_wsecret k)) eqn:E1.
  1: destruct (Secret.is_installed (KeyUpdater.next_rsecret k)) eqn:E2.
  1: { exists k. destruct Hnr as [? | Hnr]; [congruence |]. destruct Hnw as [? | Hnw]; [congruence |]. done. }
  all: cbn [andb]; rewrite (holds_update _ _ Hw (gen_w n)); cbn [KeyUpdater.cur_rsecret KeyUpdater.set_next_w];
    rewrite (holds_update _ _ Hr (gen_r n)); eexists; (split; [reflexivity |]);
    destruct Hr as (? & Ec & ?), Hw as (? & Ec' & ?); rewrite Ec, Ec';
    (split; [| split_and!; try apply install_holds; done]);
    unfold keys_inv; cbn; split_and!; try done; try (right; apply install_holds).
Qed.

Lemma update_inv n k :
  keys_inv n k -> Z.of_nat (S n) < 2 ^ 64 ->
  exists k', KeyUpdater.on_key_update version_1 k = (None, k') /\ keys_inv (S n) k'.
Proof.
  intros HI Hn. destruct (prepare_spec n k HI) as (k1 & E & (Hp & Hr & Hw & _ & _ & _ & Hhr & Hhw) & Hnr & Hnw & _ & _).
  unfold KeyUpdater.on_key_update. rewrite E. eexists. split; [reflexivity |].
  unfold keys_inv. cbn. split_and!; try done; try (by left).
  rewrite Hp, u64_small by (unfold is_u64; lia). lia.
Qed.

(** ** The suites handed out *)

(** The header protection key a suite has: that of the first secret, but
    none when no suite was asked for before the first update. *)
Definition suite_hp (n : nat) (h : HP.t) (sec : list Z) : HP.t := if decide (n = O) then derive_hp c sec else h.

Definition suite_at (h : HP.t) (sec : list Z) (n : nat) : EncDecSuite.t :=
  EncDecSuite.mk h (derive c sec) c (KeyUpdater.phase_of (Z.of_nat n)).

Lemma finish_enc_spec n k kiv ph :
  keys_inv n k ->
  exists k', KeyUpdater.finish_enc version_1 ph kiv k =
      (inl (EncDecSuite.mk (suite_hp n (KeyUpdater.whp k) w0) kiv c (KeyUpdater.phase_of ph)), k') /\ keys_inv n k'.
Proof.
  intros (Hp & Hr & Hw & Hnr & Hnw & Hpr & Hhr & Hhw). unfold KeyUpdater.finish_enc, suite_hp. rewrite Hp.
  case_decide as En.
  - subst n. change (Z.of_nat 0 =? 0) with true. cbv match. rewrite (hp_step _ _ _ Hw Hhw). cbn.
    pose proof Hw as (_ & -> & _). eexists. split; [reflexivity |]. unfold keys_inv. cbn. split_and!; try done. by right.
  - rewrite eqb_false by lia. cbn. pose proof Hw as (_ & -> & _). eexists. split; [reflexivity |]. done.
Qed.

Lemma finish_dec_spec n k kiv ph :
  keys_inv n k ->
  exists k', KeyUpdater.finish_dec version_1 ph kiv k =
      (inl (EncDecSuite.mk (suite_hp n (KeyUpdater.rhp k) r0) kiv c (KeyUpdater.phase_of ph)), k') /\ keys_inv n k'.
Proof.
  intros (Hp & Hr & Hw & Hnr & Hnw & Hpr & Hhr & Hhw). unfold KeyUpdater.finish_dec, suite_hp. rewrite Hp.
  case_decide as En.
  - subst n. change (Z.of_nat 0 =? 0) with true. cbv match. rewrite (hp_step _ _ _ Hr Hhr). cbn.
    pose proof Hr as (_ & -> & _). eexists. split; [reflexivity |]. unfold keys_inv. cbn. split_and!; try done. by right.
  - rewrite eqb_false by lia. cbn. pose proof Hr as (_ & -> & _). eexists. split; [reflexivity |]. done.
Qed.

(** Storing the derived keys of a secret keeps the invariant. *)
Lemma keep_cur_w n k s : keys_inv n k -> holds s (gen n w0) -> keys_inv n (KeyUpdater.set_cur_w s k).
Proof. intros (Hp & Hr & Hw & Hnr & Hnw & Hpr & Hhr & Hhw) Hs. unfold keys_inv. cbn. split_and!; done. Qed.
Lemma keep_next_w n k s : keys_inv n k -> holds s (gen (S n) w0) -> keys_inv n (KeyUpdater.set_next_w s k).
Proof. intros (Hp & Hr & Hw & Hnr & Hnw & Hpr & Hhr & Hhw) Hs. unfold keys_inv. cbn. split_and!; try done. by right. Qed.
Lemma keep_cur_r n k s : keys_inv n k -> holds s (gen n r0) -> keys_inv n (KeyUpdater.set_cur_r s k).
Proof. intros (Hp & Hr & Hw & Hnr & Hnw & Hpr & Hhr & Hhw) Hs. unfold keys_inv. cbn. split_and!; done. Qed.
Lemma keep_next_r n k s : keys_inv n k -> holds s (gen (S n) r0) -> keys_inv n (KeyUpdater.set_next_r s k).
Proof. intros (Hp & Hr & Hw & Hnr & Hnw & Hpr & Hhr & Hhw) Hs. unfold keys_inv. cbn. split_and!; try done. by right. Qed.
Lemma keep_prev_r n k s :
  keys_inv (S n) k -> holds s (gen n r0) -> keys_inv (S n) (KeyUpdater.set_prev_r s k).
Proof. intros (Hp & Hr & Hw & Hnr & Hnw & Hpr & Hhr & Hhw) Hs. unfold keys_inv. cbn. split_and!; done. Qed.

Lemma enc_current n k :
  keys_inv n k ->
  exists k', KeyUpdater.enc_suite version_1 key_current k =
      (inl (suite_at (suite_hp n (KeyUpdater.whp k) w0) (gen n w0) n), k') /\ keys_inv n k'.
Proof.
  intros HI. pose proof HI as (Hp & _ & Hw & _). cbn. destruct (holds_keyiv _ _ Hw) as [-> Hw'].
  cbn [KeyUpdater.key_phase KeyUpdater.set_cur_w Secret.keyiv_]. rewrite Hp. 
  exact (finish_enc_spec n (KeyUpdater.set_cur_w _ k) _ _ (keep_cur_w _ _ _ HI Hw')).
Qed.

Lemma enc_next n k :
  keys_inv n k -> Z.of_nat (S n) < 2 ^ 64 ->
  exists h k', KeyUpdater.enc_suite version_1 key_next k = (inl (suite_at h (gen (S n) w0) (S n)), k') /\ keys_inv n k'.
Proof.
  intros HI Hn. cbn. destruct (prepare_spec n k HI) as (k1 & -> & HI1 & _ & Hw & _).
  destruct (holds_keyiv _ _ Hw) as [-> Hw']. cbn [KeyUpdater.key_phase KeyUpdater.set_next_w Secret.keyiv_].
  pose proof HI1 as (Hp & _). rewrite Hp. rewrite u64_small by (unfold is_u64; lia).
  destruct (finish_enc_spec n (KeyUpdater.set_next_w (Secret.mk (Some (gen (S n) w0)) c (derive c (gen (S n) w0))) k1)
    (derive c (gen (S n) w0)) (Z.of_nat n + 1)) as (k' & E & HI'); [by apply keep_next_w |].
  rewrite E. replace (Z.of_nat n + 1) with (Z.of_nat (S n)) by lia. do 2 eexists. split; [reflexivity | done].
Qed.

Lemma dec_current n k :
  keys_inv n k ->
  exists k', KeyUpdater.dec_suite version_1 key_current k =
      (inl (suite_at (suite_hp n (KeyUpdater.rhp k) r0) (gen n r0) n), k') /\ keys_inv n k'.
Proof.
  intros HI. pose proof HI as (Hp & Hr & _). cbn. destruct (holds_keyiv _ _ Hr) as [-> Hr'].
  cbn [KeyUpdater.key_phase KeyUpdater.set_cur_r Secret.keyiv_]. rewrite Hp. 
  exact (finish_dec_spec n (KeyUpdater.set_cur_r _ k) _ _ (keep_cur_r _ _ _ HI Hr')).
Qed.

Lemma dec_next n k :
  keys_inv n k -> Z.of_nat (S n) < 2 ^ 64 ->
  exists h k', KeyUpdater.dec_suite version_1 key_next k = (inl (suite_at h (gen (S n) r0) (S n)), k') /\ keys_inv n k'.
Proof.
  intros HI Hn. cbn. destruct (prepare_spec n k HI) as (k1 & -> & HI1 & Hr & _).
  destruct (holds_keyiv _ _ Hr) as [-> Hr']. cbn [KeyUpdater.key_phase KeyUpdater.set_next_r Secret.keyiv_].
  pose proof HI1 as (Hp & _). rewrite Hp. rewrite u64_small by (unfold is_u64; lia).
  destruct (finish_dec_spec n (KeyUpdater.set_next_r (Secret.mk (Some (gen (S n) r0)) c (derive c (gen (S n) r0))) k1)
    (derive c (gen (S n) r0)) (Z.of_nat n + 1)) as (k' & E & HI'); [by apply keep_next_r |].
  rewrite E. replace (Z.of_nat n + 1) with (Z.of_nat (S n)) by lia. do 2 eexists. split; [reflexivity | done].
Qed.

Lemma dec_prev n k :
  keys_inv (S n) k -> Z.of_nat (S n) < 2 ^ 64 ->
  exists h k', KeyUpdater.dec_suite version_1 key_prev k = (inl (suite_at h (gen n r0) n), k') /\ keys_inv (S n) k'.
Proof.
  intros HI Hn. pose proof HI as (Hp & _ & _ & _ & _ & Hpr & _). cbn. destruct (holds_keyiv _ _ Hpr) as [-> Hr'].
  cbn [KeyUpdater.key_phase KeyUpdater.set_prev_r Secret.keyiv_]. rewrite Hp. rewrite u64_small by (unfold is_u64; lia).
  destruct (finish_dec_spec (S n) (KeyUpdater.set_prev_r (Secret.mk (Some (gen n r0)) c (derive c (gen n r0))) k)
    (derive c (gen n r0)) (Z.of_nat (S n) - 1)) as (k' & E & HI'); [by apply keep_prev_r |].
  rewrite E. replace (Z.of_nat (S n) - 1) with (Z.of_nat n) by lia. do 2 eexists. split; [reflexivity | done].
Qed.

Lemma dec_prev_none k :
  keys_inv 0 k -> KeyUpdater.dec_suite version_1 key_prev k = (inr err_not_installed, k).
Proof.
  intros (_ & _ & _ & _ & _ & Hpr & _). cbn. unfold Secret.is_installed in Hpr. unfold Secret.keyiv.
  destruct (Secret.secret_ _); [done |]. by destruct k.
Qed.

(** ** Any sequence of operations *)

Inductive key_op :=
  | kop_enc (mode : KeyMode) | kop_dec (mode : KeyMode) | kop_update | kop_sent (pn : Z) | kop_received (pn : Z).

Definition apply_kop (k : KeyUpdater.t) (op : key_op) : KeyUpdater.t :=
  match op with
  | kop_enc mode => snd (KeyUpdater.enc_suite version_1 mode k)
  | kop_dec mode => snd (KeyUpdater.dec_suite version_1 mode k)
  | kop_update => snd (KeyUpdater.on_key_update version_1 k)
  | kop_sent pn => KeyUpdater.on_packet_sent pn k
  | kop_received pn => KeyUpdater.on_packet_received pn k
  end.

Fixpoint updates (ops : list key_op) : nat :=
  match ops with [] => O | kop_update :: ops => S (updates ops) | _ :: ops => updates ops end.

(** Both 1-RTT secrets as TLS installs them. *)
Definition start (ci : TLSCipher) (r w : list Z) : KeyUpdater.t :=
  snd (KeyUpdater.install_onertt_wsecret w ci (snd (KeyUpdater.install_onertt_rsecret r ci KeyUpdater.reset))).

Lemma start_inv : keys_inv 0 (start c r0 w0).
Proof.
  unfold keys_inv. cbn. split_and!; try done; try apply install_holds; by left.
Qed.

Lemma inv_kop n k op :
  keys_inv n k -> Z.of_nat (S n) < 2 ^ 64 ->
  keys_inv (match op with kop_update => S n | _ => n end) (apply_kop k op).
Proof.
  intros HI Hn. destruct op as [[] | [] | | pn | pn]; cbn [apply_kop].
  - exact HI.
  - destruct (enc_current n k HI) as (k' & -> & ?). done.
  - destruct (enc_next n k HI Hn) as (h & k' & -> & ?). done.
  - destruct n as [| n]; [by rewrite dec_prev_none |].
    destruct (dec_prev n k HI) as (h & k' & -> & ?); [lia | done].
  - destruct (dec_current n k HI) as (k' & -> & ?). done.
  - destruct (dec_next n k HI Hn) as (h & k' & -> & ?). done.
  - destruct (update_inv n k HI Hn) as (k' & -> & ?). done.
  - exact HI.
  - exact HI.
Qed.

Lemma inv_kops ops n k :
  keys_inv n k -> Z.of_nat (n + updates ops) + 1 < 2 ^ 64 -> keys_inv (n + updates ops) (foldl apply_kop k ops).
Proof.
  revert n k. induction ops as [| op ops IH]; intros n k HI Hn; cbn [foldl updates] in *.
  - by rewrite Nat.add_0_r.
  - pose proof (inv_kop n k op HI) as Hop. destruct op; cbn [updates] in *; try (apply IH; [apply Hop; lia | lia]).
    replace (n + S (updates ops))%nat with (S n + updates ops)%nat in * by lia. apply IH; [apply Hop; lia | lia].
Qed.

(** The state after any operations. *)
Lemma run_inv ops :
  Z.of_nat (updates ops) + 1 < 2 ^ 64 -> keys_inv (updates ops) (foldl apply_kop (start c r0 w0) ops).
Proof. intros Hn. apply (inv_kops ops 0); [apply start_inv | lia]. Qed.
End schedule.

(** C10. The key schedule of a suite with secrets of 32 bytes (SHA-256),
    against its specification by generations. Whatever is done with a
    [KeyUpdater] (suites of any mode asked for, packets sent and received,
    fewer than 2^64 key updates), the suite for sending has the keys of the
    generation that counts the updates, and the key phase bit is its parity;
    the suites for receiving in mode prev, current and next have the keys of
    the generation before, of it, and after, each with its own parity; before
    the first update there are no previous keys. No operation fails, when
    HKDF does not. Secrets of 48 bytes (SHA-384) have no next generation at
    all: [sha384_never_updates]. *)
Theorem key_schedule `{L : CryptoLib} `{!KdfLaws L} c klen r0 w0 ops :
  key_length c = inl klen -> size r0 = 32 -> size w0 = 32 -> Z.of_nat (updates ops) + 1 < 2 ^ 64 ->
  let k := foldl apply_kop (start c r0 w0) ops in
  let n := updates ops in
  (exists h k', KeyUpdater.enc_suite version_1 key_current k = (inl (suite_at c h (gen n w0) n), k')) /\
  (exists h k', KeyUpdater.enc_suite version_1 key_next k = (inl (suite_at c h (gen (S n) w0) (S n)), k')) /\
  (exists h k', KeyUpdater.dec_suite version_1 key_current k = (inl (suite_at c h (gen n r0) n), k')) /\
  (exists h k', KeyUpdater.dec_suite version_1 key_next k = (inl (suite_at c h (gen (S n) r0) (S n)), k')) /\
  match n with
  | O => KeyUpdater.dec_suite version_1 key_prev k = (inr err_not_installed, k)
  | S m => exists h k', KeyUpdater.dec_suite version_1 key_prev k = (inl (suite_at c h (gen m r0) m), k')
  end /\
  (exists k', KeyUpdater.on_key_update version_1 k = (None, k')).
Proof.
  intros Hc Hr Hw Hn k n. pose proof (run_inv c klen r0 w0 Hc Hr Hw ops Hn) as HI. fold k n in HI.
  assert (HS : Z.of_nat (S n) < 2 ^ 64) by lia.
  destruct (enc_current c klen r0 w0 Hc n k HI) as (k1 & E1 & _).
  destruct (enc_next c klen r0 w0 Hc Hr Hw n k HI HS) as (h2 & k2 & E2 & _).
  destruct (dec_current c klen r0 w0 Hc n k HI) as (k3 & E3 & _).
  destruct (dec_next c klen r0 w0 Hc Hr Hw n k HI HS) as (h4 & k4 & E4 & _).
  destruct (update_inv c r0 w0 Hr Hw n k HI HS) as (k5 & E5 & _).
  split_and!; eauto. clearbody n. destruct n as [| m]; [eapply dec_prev_none; eauto |].
  destruct (dec_prev c klen r0 w0 Hc m k HI) as (h6 & k6 & E6 & _); [lia | eauto].
Qed.

(** ** From one end to the other *)

Section endtoend.
Context `{L : CryptoLib} `{!KdfLaws L} `{!CryptoLibLaws L}.

(** Asking for a suite does not change what key updates depend on. *)
Lemma dec_suite_keeps version mode k :
  let k' := snd (KeyUpdater.dec_suite version mode k) in
  KeyUpdater.first_recv k' = KeyUpdater.first_recv k /\ KeyUpdater.first_sent k' = KeyUpdater.first_sent k /\
  KeyUpdater.key_phase k' = KeyUpdater.key_phase k.
Proof.
  cbv zeta. unfold KeyUpdater.dec_suite, KeyUpdater.prepare_next_keys, KeyUpdater.finish_dec.
  repeat (case_match; simplify_eq; cbn in *); done.
Qed.

Lemma key_bit_parity n : key_bit (Z.of_nat n) = Nat.odd n.
Proof.
  unfold key_bit. rewrite <- Nat.negb_even. change 2 with (Z.of_nat 2). rewrite <- Nat2Z.inj_mod.
  destruct (Nat.even n) eqn:E.
  - apply Nat.even_spec in E as [m ->]. rewrite Nat.mul_comm, Nat.Div0.mod_mul. done.
  - assert (Nat.odd n = true) as Ho by (rewrite <- Nat.negb_even, E; done).
    apply Nat.odd_spec in Ho as [m ->].
    replace ((2 * m + 1) mod 2)%nat with 1%nat; [done |]. rewrite Nat.add_comm, Nat.mul_comm. by rewrite Nat.Div0.mod_add.
Qed.

Lemma phase_same n : negb (bool_decide (KeyUpdater.phase_of (Z.of_nat n) = KeyUpdater.phase_of (Z.of_nat n))) = false.
Proof. by rewrite bool_decide_true. Qed.

Lemma phase_differs n :
  negb (bool_decide (KeyUpdater.phase_of (Z.of_nat n) = KeyUpdater.phase_of (Z.of_nat (S n)))) = true /\
  negb (bool_decide (KeyUpdater.phase_of (Z.of_nat (S n)) = KeyUpdater.phase_of (Z.of_nat n))) = true.
Proof.
  unfold KeyUpdater.phase_of. rewrite !key_bit_parity, Nat.odd_succ, <- Nat.negb_odd. by destruct (Nat.odd n).
Qed.

(** The generations of sender and receiver between which a packet passes. *)
Definition passes (na nb : nat) (pn : Z) (kb : KeyUpdater.t) : Prop :=
  na = nb \/
  (na = S nb /\ KeyUpdater.maybe_use_prev_secret pn kb = false /\ KeyUpdater.key_update_allowed kb = true) \/
  (S na = nb /\ KeyUpdater.maybe_use_prev_secret pn kb = true).

Lemma decrypt_onertt_spec c klen s0 wb na nb h p1 p2 s :
  key_length c = inl klen -> size s0 = 32 -> size wb = 32 -> Z.of_nat (S nb) < 2 ^ 64 ->
  keys_inv c s0 wb nb (SecretManager.onertt s) ->
  passes na nb (CryptoPacket.packet_number p1) (SecretManager.onertt s) ->
  PacketFlags.key_phase (nth 0 (CryptoPacket.src p1) 0) = key_bit (Z.of_nat na) ->
  decrypt_payload (derive c (gen na s0)) c p1 = (None, p2) ->
  exists s', CryptoSuite.decrypt_onertt version_1 (suite_at c h (gen nb s0) nb) p1 s = (None, p2, s') /\
    keys_inv c s0 wb (Nat.max na nb) (SecretManager.onertt s').
Proof.
  intros Hc Hs Hw Hn HI Hpass Hbit Hdec. unfold CryptoSuite.decrypt_onertt. rewrite Hbit.
  change (if key_bit (Z.of_nat na) then phase_one else phase_zero) with (KeyUpdater.phase_of (Z.of_nat na)).
  cbn [EncDecSuite.phase suite_at]. destruct Hpass as [<- | [(-> & Hprev & Hall) | (<- & Hprev)]].
  - rewrite phase_same. cbn [EncDecSuite.keyiv EncDecSuite.cipher suite_at]. rewrite Hdec, Nat.max_id. eauto.
  - rewrite (proj1 (phase_differs nb)). unfold SecretManager.maybe_use_prev_secret. rewrite Hprev.
    cbn [SecretManager.dec_suite]. destruct (dec_next c klen s0 wb Hc Hs Hw nb _ HI Hn) as (h' & k' & E & HI').
    pose proof (dec_suite_keeps version_1 key_next (SecretManager.onertt s)) as (_ & K2 & K3).
    rewrite E in K2, K3 |- *. cbn [EncDecSuite.keyiv EncDecSuite.cipher suite_at snd] in *. rewrite Hdec.
    unfold SecretManager.key_update_allowed, KeyUpdater.key_update_allowed, SecretManager.on_key_update.
    cbn [SecretManager.onertt SecretManager.set_onertt]. rewrite K2, K3.
    unfold KeyUpdater.key_update_allowed in Hall. rewrite Hall. cbn [negb].
    destruct (update_inv c s0 wb Hs Hw nb k' HI' Hn) as (k'' & -> & HI'').
    rewrite Nat.max_l by lia. eexists. split; [reflexivity | exact HI''].
  - rewrite (proj2 (phase_differs na)). unfold SecretManager.maybe_use_prev_secret. rewrite Hprev.
    cbn [SecretManager.dec_suite]. destruct (dec_prev c klen s0 wb Hc na _ HI) as (h' & k' & E & HI'); [lia |].
    rewrite E. cbn [EncDecSuite.keyiv EncDecSuite.cipher suite_at]. rewrite Hdec.
    rewrite Nat.max_r by lia. eexists. split; [reflexivity | exact HI'].
Qed.

(** The header protection key is the first one once it was derived. *)
Lemma suite_hp_first c n h sec :
  hp_holds c h sec -> n = O \/ HP.hash_len h <> 0 -> suite_hp c n h sec = derive_hp c sec.
Proof.
  intros Hh Hn. unfold suite_hp. case_decide; [done |]. destruct Hn as [? | Hn]; [done |].
  destruct Hh as [-> | ->]; [by destruct Hn | done].
Qed.
End endtoend.

(** C4. A 1-RTT packet from one end to the other, across key updates, for the
    suites with secrets of 32 bytes (SHA-256). The sender, after any
    operations with [na] key updates, takes its current suite, marks the
    packet with the key phase of the suite and encrypts it. The receiver,
    whose reading secret is the writing secret of the sender, after any
    operations with [nb] key updates, decrypts it to the same packet when it
    is in the same generation, when the sender is one ahead and the update may
    happen, or when the sender is one behind and the packet may be of the
    previous generation ([passes]: what [maybe_use_prev_secret] and
    [key_update_allowed] answer for its number); and it is then in the later
    of the two generations. Each end that has updated its keys must have made
    its header protection key before, in the first generation, and the number
    must be in the window of the receiver. The conditions are needed: see
    [sha384_never_updates], [hp_key_never_derived] and
    [early_update_refused]. *)
Theorem onertt_across_updates `{L : CryptoLib} `{!KdfLaws L} `{!CryptoLibLaws L} {T} `{TLS T}
    c klen s0 ra wb opsA opsB suite ka' p p' (cb : CryptoSuite.t T) largest dstID :
  let na := updates opsA in let nb := updates opsB in
  let ka := foldl apply_kop (start c ra s0) opsA in
  let kb := foldl apply_kop (start c s0 wb) opsB in
  key_length c = inl klen -> size s0 = 32 -> size ra = 32 -> size wb = 32 ->
  Z.of_nat na + 1 < 2 ^ 64 -> Z.of_nat nb + 1 < 2 ^ 64 ->
  (na = O \/ HP.hash_len (KeyUpdater.whp ka) <> 0) -> (nb = O \/ HP.hash_len (KeyUpdater.rhp kb) <> 0) ->
  SecretManager.onertt (CryptoSuite.secrets cb) = kb ->
  passes na nb (CryptoPacket.packet_number p) kb ->
  pn_recoverable p (largest OneRTT) ->
  KeyUpdater.enc_suite version_1 key_current ka = (inl suite, ka') ->
  PacketFlags.key_phase (nth 0 (CryptoPacket.src p) 0) = bool_decide (EncDecSuite.phase suite = phase_one) ->
  encrypt_packet (EncDecSuite.keyiv suite) (EncDecSuite.hp suite) (EncDecSuite.cipher suite) p = (None, p') ->
  exists p2 cb', CryptoSuite.decrypt_callback version_1 largest OneRTT dstID (arriving p') cb = Some (None, p2, cb') /\
    same_packet p p2 /\ CryptoSuite.handshaker cb' = CryptoSuite.handshaker cb /\
    KeyUpdater.key_phase (SecretManager.onertt (CryptoSuite.secrets cb')) = Z.of_nat (Nat.max na nb).
Proof.
  intros na nb ka kb Hc Hs Hra Hwb Hna Hnb Hwhp Hrhp Hcb Hpass Hpn Hsuite Hbit Henc.
  pose proof (run_inv c klen ra s0 Hc Hra Hs opsA Hna) as HA.
  pose proof (run_inv c klen s0 wb Hc Hs Hwb opsB Hnb) as HB. fold na ka in HA. fold nb kb in HB.
  destruct (enc_current c klen ra s0 Hc na ka HA) as (k1 & E1 & _). rewrite Hsuite in E1. injection E1 as -> _.
  cbn [EncDecSuite.keyiv EncDecSuite.hp EncDecSuite.cipher EncDecSuite.phase suite_at] in *.
  pose proof HA as (_ & _ & _ & _ & _ & _ & _ & HhA). pose proof HB as (_ & _ & _ & _ & _ & _ & HhB & _).
  rewrite suite_hp_first in Henc by done.
  destruct (roundtrip_core _ _ _ p p' (largest OneRTT) Hpn Henc) as (p1 & p2 & D1 & D2 & D3 & D4 & D5).
  destruct (dec_current c klen s0 wb Hc nb kb HB) as (kb1 & E2 & HB1).
  pose proof (dec_suite_keeps version_1 key_current kb) as (K1 & K2 & K3). rewrite E2 in K1, K2, K3. cbn [snd] in K1, K2, K3.
  rewrite suite_hp_first in E2 by done.
  destruct (decrypt_onertt_spec c klen s0 wb na nb (derive_hp c s0) p1 p2
    (SecretManager.set_onertt kb1 (CryptoSuite.secrets cb))) as (s' & E3 & HB'); try done; [lia | | |].
  - rewrite D5. unfold passes, KeyUpdater.maybe_use_prev_secret, KeyUpdater.key_update_allowed in *.
    cbn [SecretManager.onertt SecretManager.set_onertt]. by rewrite K1, K2, K3.
  - rewrite D4, Hbit. unfold KeyUpdater.phase_of. by destruct (key_bit _).
  - exists p2, (CryptoSuite.set_secrets s' cb). split_and!; try done; [| apply HB'].
    unfold CryptoSuite.decrypt_callback. rewrite (bool_decide_false (OneRTT = Initial)) by done.
    rewrite andb_false_r. cbn [negb andb SecretManager.dec_suite]. rewrite Hcb, E2.
    cbn [EncDecSuite.hp EncDecSuite.cipher suite_at]. rewrite D1. cbv match. rewrite E3. done.
Qed.

(** ** Initial packets *)

Section initial.
Context `{L : CryptoLib} `{!KdfLaws L} `{!CryptoLibLaws L} {T : Type} `{TLS T}.

Lemma initial_secret_some dcid client :
  exists s, make_initial_secret 32 version_1 dcid client = Some s.
Proof.
  unfold make_initial_secret. cbn [negb]. change (negb (32 =? 32)) with false. cbv match.
  change (negb (version_1 =? version_1)) with false. cbv match.
  destruct (extract_total dcid quic_v1_initial_salt) as [e ->].
  destruct (expand_label_some 32 e (if client then client_in else server_in)) as (out & E & _);
    [lia | destruct client; vm_compute; discriminate | eauto].
Qed.

Lemma suite_of_fresh sec :
  HandshakeSecrets.suite_of version_1 (Secret.install sec no_cipher) HP.clear =
    (inl (EncDecSuite.mk (derive_hp no_cipher sec) (derive no_cipher sec) no_cipher phase_none),
     Secret.mk (Some sec) no_cipher (derive no_cipher sec), derive_hp no_cipher sec).
Proof.
  unfold HandshakeSecrets.suite_of.
  destruct (holds_keyiv no_cipher 16 eq_refl _ _ (install_holds no_cipher sec)) as [-> Hh].
  rewrite (hp_step no_cipher 16 eq_refl _ sec HP.clear Hh) by (by left). done.
Qed.

(** The secrets of one end, whose reading is the writing of the other. *)
Definition initial_secrets (r w : list Z) : HandshakeSecrets.t :=
  HandshakeSecrets.mk (Secret.install r no_cipher) HP.clear (Secret.install w no_cipher) HP.clear.

Lemma decrypt_initial sec w p p' largest dstID (c : CryptoSuite.t T) :
  SecretManager.initial (CryptoSuite.secrets c) = initial_secrets sec w ->
  pn_recoverable p (largest Initial) ->
  encrypt_packet (derive no_cipher sec) (derive_hp no_cipher sec) no_cipher p = (None, p') ->
  exists p2 c', CryptoSuite.decrypt_callback version_1 largest Initial dstID (arriving p') c = Some (None, p2, c') /\
    same_packet p p2 /\ CryptoSuite.handshaker c' = CryptoSuite.handshaker c.
Proof.
  intros Hc Hpn Henc. destruct (roundtrip_core _ _ _ _ _ _ Hpn Henc) as (p1 & p2 & D1 & D2 & D3 & _).
  unfold CryptoSuite.decrypt_callback. cbn [SecretManager.is_installed]. rewrite Hc.
  change (HandshakeSecrets.is_installed false (initial_secrets sec w)) with true.
  rewrite andb_false_r. cbn [negb SecretManager.dec_suite]. rewrite Hc.
  unfold HandshakeSecrets.dec_suite, initial_secrets. cbn [HandshakeSecrets.rsecret HandshakeSecrets.rhp].
  rewrite suite_of_fresh. cbn [EncDecSuite.hp EncDecSuite.cipher EncDecSuite.keyiv]. rewrite D1. cbv match. rewrite D2.
  eauto.
Qed.
End initial.


(** ** Where the code falls short *)

(** A secret of 48 bytes, as the suite with SHA-384 has, is never updated:
    the buffer for the new secret has 32 bytes, and a secret of another size
    is refused. After any operations, a key update (also one the peer made)
    fails. *)
Theorem sha384_never_updates `{L : CryptoLib} c r0 w0 ops :
  32 < size w0 ->
  let k := foldl apply_kop (start c r0 w0) ops in
  KeyUpdater.on_key_update version_1 k = (Some (LibError "new_secret size is not same as old secret size"), k) /\
  KeyUpdater.dec_suite version_1 key_next k = (inr (LibError "new_secret size is not same as old secret size"), k).
Proof.
  intros Hw k.
  assert (Hprep : forall k, Secret.secret_ (KeyUpdater.cur_wsecret k) = Some w0 ->
    Secret.is_installed (KeyUpdater.next_wsecret k) = false ->
    KeyUpdater.prepare_next_keys version_1 k = (Some (LibError "new_secret size is not same as old secret size"), k)).
  { intros k0 E1 E2. unfold KeyUpdater.prepare_next_keys. rewrite E2. cbn [andb].
    unfold Secret.update. rewrite E1. unfold make_updated_key. rewrite Z.min_l by lia.
    rewrite eqb_false by lia. done. }
  assert (Hk : Secret.secret_ (KeyUpdater.cur_wsecret k) = Some w0 /\
    Secret.is_installed (KeyUpdater.next_wsecret k) = false).
  { subst k. generalize (conj (eq_refl : Secret.secret_ (KeyUpdater.cur_wsecret (start c r0 w0)) = Some w0)
      (eq_refl : Secret.is_installed (KeyUpdater.next_wsecret (start c r0 w0)) = false)).
    generalize (start c r0 w0). induction ops as [| op ops IH]; intros k [E1 E2]; [done |].
    cbn [foldl]. apply IH. pose proof (Hprep k E1 E2) as Hp.
    destruct op as [[] | [] | | pn | pn]; cbn [apply_kop]; try done;
      unfold KeyUpdater.enc_suite, KeyUpdater.dec_suite, KeyUpdater.finish_enc, KeyUpdater.finish_dec,
        KeyUpdater.on_key_update, Secret.keyiv; rewrite ?Hp, ?E1; repeat case_match; simplify_eq; cbn; done. }
  destruct Hk as [E1 E2]. pose proof (Hprep k E1 E2) as Hp.
  unfold KeyUpdater.on_key_update. cbn [KeyUpdater.dec_suite]. by rewrite Hp.
Qed.

(** The header protection key is derived only in the first generation. An
    endpoint that has sent nothing before the first update sends every later
    packet with an empty header protection key. *)
Theorem hp_key_never_derived `{L : CryptoLib} `{!KdfLaws L} c klen r0 w0 :
  key_length c = inl klen -> size r0 = 32 -> size w0 = 32 ->
  exists k suite k', KeyUpdater.on_key_update version_1 (start c r0 w0) = (None, k) /\
    KeyUpdater.enc_suite version_1 key_current k = (inl suite, k') /\ HP.hp (EncDecSuite.hp suite) = [].
Proof.
  intros Hc Hr Hw. pose proof (start_inv c r0 w0) as HI.
  destruct (prepare_spec c r0 w0 Hr Hw 0 _ HI) as (k1 & E & HI1 & _).
  destruct (update_inv c r0 w0 Hr Hw 0 _ HI) as (k & Eu & HIk); [lia |].
  destruct (enc_current c klen r0 w0 Hc 1 k HIk) as (k' & Ee & _).
  exists k. do 2 eexists. split_and!; [exact Eu | exact Ee |].
  cbn [EncDecSuite.hp suite_at]. unfold suite_hp. rewrite decide_False by done.
  unfold KeyUpdater.on_key_update, KeyUpdater.prepare_next_keys in Eu. cbn in Eu.
  repeat case_match; simplify_eq. done.
Qed.

(** Before a packet was received in the first generation, a packet of the
    next one is taken for one of the previous, which has no keys: it is
    refused. *)
Theorem early_update_refused `{L : CryptoLib} `{!KdfLaws L} c klen r0 w0 h p s :
  key_length c = inl klen -> keys_inv c r0 w0 0 (SecretManager.onertt s) ->
  KeyUpdater.first_recv (SecretManager.onertt s) = packetnum.infinity ->
  CryptoPacket.packet_number p < packetnum.infinity ->
  PacketFlags.key_phase (nth 0 (CryptoPacket.src p) 0) = true ->
  CryptoSuite.decrypt_onertt version_1 (suite_at c h (gen 0 r0) 0) p s = (Some err_not_installed, p, s).
Proof.
  intros Hc HI Hf Hp Hb. unfold CryptoSuite.decrypt_onertt. rewrite Hb.
  change (negb (bool_decide (EncDecSuite.phase (suite_at c h (gen 0 r0) 0) = phase_one))) with true. cbv match.
  unfold SecretManager.maybe_use_prev_secret, KeyUpdater.maybe_use_prev_secret. rewrite Hf, (ltb_true _ packetnum.infinity) by done.
  rewrite orb_true_r. cbn [SecretManager.dec_suite]. rewrite (dec_prev_none c r0 w0) by done. by destruct s.
Qed.

(** ** Examples *)

#[global] Instance demo_kdf bssl name : KdfLaws (demo_lib bssl name).
Proof.
  split.
  - intros secret info len Hl. eexists. split; [reflexivity |]. unfold size. rewrite length_replicate. lia.
  - intros secret salt. eexists. reflexivity.
Qed.

(** A TLS stack that never has anything to do. *)
#[global] Instance demo_tls : TLS unit := {|
  provide_quic_data := fun _ _ t => (None, [], t);
  progress_quic := fun t => (None, [], t);
  tls_accept := fun t => (None, [], t);
  tls_connect := fun t => (None, [], t);
  isTLSBlock := fun _ => false
|}.

Definition demo_secret : list Z := replicate 32 7.

Lemma key_schedule_witness :
  let L := demo_lib false "TLS_AES_128_GCM_SHA256" in
  let ops := [kop_enc key_current; kop_update; kop_dec key_next; kop_sent 3] in
  exists h k', KeyUpdater.enc_suite version_1 key_current (foldl apply_kop (start 1 demo_secret demo_secret) ops) =
    (inl (suite_at 1 h (gen 1 demo_secret) 1), k').
Proof.
  intros L ops. destruct (key_schedule (L := L) 1 16 demo_secret demo_secret ops) as [E _]; [done .. | exact E].
Defined.

(** A packet of the second generation, with packet number 6. *)
Definition demo_packet : CryptoPacket.t := pkt [0x45] [0; 6] [1; 2; 3; 4] (replicate 16 0) 6.

Lemma onertt_across_updates_witness :
  let L := demo_lib false "TLS_AES_128_GCM_SHA256" in
  let opsA := [kop_enc key_current; kop_update] in
  let opsB := [kop_dec key_current; kop_received 5] in
  let ka := foldl apply_kop (start 1 demo_secret demo_secret) opsA in
  let cb := CryptoSuite.mk (CryptoHandshakers.reset tt false) (SecretManager.set_onertt
    (foldl apply_kop (start 1 demo_secret demo_secret) opsB) SecretManager.reset) in
  let suite := suite_at 1 (derive_hp 1 demo_secret) (gen 1 demo_secret) 1 in
  let p' := snd (encrypt_packet (EncDecSuite.keyiv suite) (EncDecSuite.hp suite) (EncDecSuite.cipher suite) demo_packet) in
  exists p2 cb', CryptoSuite.decrypt_callback version_1 (fun _ => 5) OneRTT [] (arriving p') cb = Some (None, p2, cb') /\
    same_packet demo_packet p2 /\
    KeyUpdater.key_phase (SecretManager.onertt (CryptoSuite.secrets cb')) = 1.
Proof.
  intros L opsA opsB ka cb suite p'.
  edestruct (onertt_across_updates (L := L) 1 16 demo_secret demo_secret demo_secret opsA opsB suite
    (snd (KeyUpdater.enc_suite version_1 key_current ka)) demo_packet p' cb (fun _ => 5) [])
    as (p2 & cb' & E1 & E2 & _ & E3); try (vm_compute; reflexivity).
  - right. vm_compute. discriminate.
  - by left.
  - right. left. split_and!; reflexivity.
  - unfold pn_recoverable. split_and!; vm_compute; done.
  - exists p2, cb'. split_and!; [exact E1 | exact E2 | exact E3].
Defined.

Lemma sha384_never_updates_witness :
  let L := demo_lib false "TLS_AES_256_GCM_SHA384" in
  let k := foldl apply_kop (start 1 (replicate 48 1) (replicate 48 2)) [kop_enc key_current] in
  KeyUpdater.on_key_update version_1 k = (Some (LibError "new_secret size is not same as old secret size"), k).
Proof.
  intros L k.
  destruct (sha384_never_updates (L := L) 1 (replicate 48 1) (replicate 48 2) [kop_enc key_current]) as [E _]; [done | exact E].
Defined.

Lemma hp_key_never_derived_witness :
  let L := demo_lib false "TLS_AES_128_GCM_SHA256" in
  exists k suite k', KeyUpdater.on_key_update version_1 (start 1 demo_secret demo_secret) = (None, k) /\
    KeyUpdater.enc_suite version_1 key_current k = (inl suite, k') /\ HP.hp (EncDecSuite.hp suite) = [].
Proof. intros L. apply (hp_key_never_derived (L := L) 1 16 demo_secret demo_secret); done. Defined.

Lemma early_update_refused_witness :
  let L := demo_lib false "TLS_AES_128_GCM_SHA256" in
  let s := SecretManager.set_onertt (start 1 demo_secret demo_secret) SecretManager.reset in
  CryptoSuite.decrypt_onertt version_1 (suite_at 1 HP.clear (gen 0 demo_secret) 0) demo_packet s =
    (Some err_not_installed, demo_packet, s).
Proof.
  intros L s. apply (early_update_refused (L := L) 1 16 demo_secret demo_secret HP.clear demo_packet s); try done.
  apply start_inv.
Defined.

