(* ===== verification/Datagram.v ===== *)
(** * Datagram: unreliable datagrams (RFC 9221)

    Models [fnet/quic/dgram/datagram.h] and [dgram/config.h]: the queues of
    datagrams to send and received, and the two ways to learn about dropped
    datagrams, which are instances of the class [DropDetector]. The callbacks
    that only notify the application (data added) are not modelled. *)

From stdpp Require Import base numbers list gmap strings.
From Stdlib Require Import ZArith Lia.
From S2P Require Import Prelude Bytes Varint PacketNumber Types FrameBase CalcData FrameStream FrameAck FrameParse AckRecord.

#[local] Open Scope string_scope.
#[local] Open Scope Z_scope.
#[local] Open Scope list_scope.

Record SendDatagram := mk_send_dgram { sd_data : list Z; sd_pending : Z; sd_pn : Z }.
Record RecvDatagram := mk_recv_dgram { rd_data : list Z; rd_packet_number : Z }.
Record DgramConfig := mk_dgram_config { pending_limit : Z; recv_buf_limit : Z }.

(** The interface of a drop detector over the store of records. [sent] is
    handed the datagram as an rvalue and returns what it leaves of it. *)
Class DropDetector (D : Type) := {
  dd_drop : list Z -> Z -> D -> D;
  dd_detect : records -> D -> D;
  dd_sent : observer -> SendDatagram -> D -> SendDatagram * D * observer
}.

(** [struct DatagramDropNull] *)
Inductive DatagramDropNull := drop_null.
#[global] Instance DropNull_detector : DropDetector DatagramDropNull := {
  dd_drop _ _ d := d;
  dd_detect _ d := d;
  dd_sent o sd d := (sd, d, o)
}.

(** [struct DatagramDropRetransmit]; [notified] is what [notify_drop_cb], if
    there is one, was told. *)
Module DatagramDropRetransmit.
Record t := mk { retransmit : Retransmiter.t SendDatagram; has_cb : bool; notified : list (list Z * Z) }.

Definition drop (s : list Z) (pn : Z) (d : t) : t :=
  if has_cb d then mk (retransmit d) (has_cb d) (notified d ++ [(s, pn)]) else d.

(** The recorder is a local one: nothing is saved, so it is not asked for a
    record. *)
Definition detect (h : records) (d : t) : t :=
  let '(_, fr, _, d') :=
    Retransmiter.retransmit (fun sd d => (io_ok, sd, [], drop (sd_data sd) (sd_pn sd) d)) (ACKRecorder.new, h) (retransmit d) d in
  mk fr (has_cb d') (notified d').

Definition sent (o : observer) (sd : SendDatagram) (d : t) : SendDatagram * t * observer :=
  let '(fr, o) := Retransmiter.sent sd (retransmit d, o) in
  (mk_send_dgram [] (sd_pending sd) (sd_pn sd), mk fr (has_cb d) (notified d), o).
End DatagramDropRetransmit.

#[global] Instance DropRetransmit_detector : DropDetector DatagramDropRetransmit.t := {
  dd_drop := DatagramDropRetransmit.drop;
  dd_detect := DatagramDropRetransmit.detect;
  dd_sent := DatagramDropRetransmit.sent
}.

(** ** [struct DatagramManager] *)

Module DatagramManager.
Record t (D : Type) := mk {
  send_que : list SendDatagram;
  recv_que : list RecvDatagram;
  peer_param_size : Z;
  local_param_size : Z;
  config : DgramConfig;
  drop : D
}.
Arguments mk {D}. Arguments send_que {D}. Arguments recv_que {D}. Arguments peer_param_size {D}.
Arguments local_param_size {D}. Arguments config {D}. Arguments drop {D}.

Section ops.
Context {D : Type} `{DropDetector D}.

Definition set_queues s r (m : t D) := mk s r (peer_param_size m) (local_param_size m) (config m) (drop m).

Definition reset (local_size : Z) (conf : DgramConfig) (detect : D) : t D := mk [] [] 0 local_size conf detect.
Definition set_drop_detector (detect : D) (m : t D) : t D :=
  mk (send_que m) (recv_que m) (peer_param_size m) (local_param_size m) (config m) detect.
Definition on_transport_parameter (max_dgram_frame : Z) (m : t D) : t D :=
  mk (send_que m) (recv_que m) max_dgram_frame (local_param_size m) (config m) (drop m).

Definition recv (pn : Z) (dgram : DatagramFrame.t) (m : t D) : option Error * t D :=
  let ty := FrameFlags.type_detail (DatagramFrame.type dgram) in
  if local_param_size m =? 0
  then (Some (QUICError "received DatagramFrame when max_datagram_frame_size is 0" PROTOCOL_VIOLATION ty), m)
  else if local_param_size m <? size (DatagramFrame.datagram_data dgram)
  then (Some (QUICError "DatagramFrame data size is over max_datagram_frame_size" PROTOCOL_VIOLATION ty), m)
  else
    let q := recv_que m ++ [mk_recv_dgram (DatagramFrame.datagram_data dgram) pn] in
    let q := if recv_buf_limit (config m) <? size q then List.tl q else q in
    (None, set_queues (send_que m) q m).

(** The loop of [send]: [false] when a write fails. *)
Fixpoint send_loop (conf : DgramConfig) (q : list SendDatagram) (w : fwriter) (o : observer) (d : D)
    : bool * list SendDatagram * fwriter * observer * D :=
  match q with
  | [] => (true, [], w, o, d)
  | it :: q' =>
      let '(dgram, ok) := make_fit_size_Datagram (size (fw_remain w)) (sd_data it) in
      if negb ok then
        let pending := u64 (sd_pending it + 1) in
        if pending_limit conf <=? pending
        then send_loop conf q' w o (dd_drop (sd_data it) packetnum.infinity d)
        else
          let '(b, q', w, o, d) := send_loop conf q' w o d in
          (b, mk_send_dgram (sd_data it) pending (sd_pn it) :: q', w, o, d)
      else
        let '(ok, w) := fw_write dgram w in
        if negb ok then (false, it :: q', w, o, d)
        else
          let '(it, d, o) := dd_sent o it d in
          let '(b, q', w, o, d) := send_loop conf q' w o d in (b, it :: q', w, o, d)
  end.

Definition send (pn : Z) (w : fwriter) (o : observer) (m : t D) : IOResult * fwriter * observer * t D :=
  match send_que m with
  | [] => (no_data, w, o, m)
  | _ =>
      let d := dd_detect (snd o) (drop m) in
      let '(b, q, w, o, d) := send_loop (config m) (send_que m) w o d in
      (if b then io_ok else io_fatal, w, o, mk q (recv_que m) (peer_param_size m) (local_param_size m) (config m) d)
  end.

Definition get_datagram (m : t D) : list RecvDatagram * t D := (recv_que m, set_queues (send_que m) [] m).

(** [garbage] is the value the source leaves in the member [pending] of a
    new datagram, which it does not initialise. *)
Definition write (garbage : Z) (d : list Z) (m : t D) : bool * t D :=
  if (peer_param_size m =? 0) || (peer_param_size m <? size d) then (false, m)
  else (true, set_queues (send_que m ++ [mk_send_dgram d garbage 0]) (recv_que m) m).
End ops.
End DatagramManager.

(** * Lemmas *)

Import DatagramManager.

(** The receive queue keeps to its limit. *)
Lemma recv_que_bounded {D} pn dgram (m : t D) :
  size (recv_que m) <= recv_buf_limit (config m) ->
  size (recv_que (snd (recv pn dgram m))) <= recv_buf_limit (config m).
Proof.
  intros Hl. unfold recv. destruct (_ =? 0); [done |]. destruct (_ <? _); [done |]. cbn.
  destruct (Z.ltb_spec (recv_buf_limit (config m)) (size (recv_que m ++ [mk_recv_dgram (DatagramFrame.datagram_data dgram) pn]))); [| done].
  rewrite size_app in *. destruct (recv_que m); cbn; rewrite ?size_app, ?size_cons, ?size_nil in *; lia.
Qed.

(** The frame for a datagram that fits is written. *)
Lemma fitting_written data w f :
  wr_ok (fw_w w) -> wr_room (fw_w w) < 2 ^ 62 -> size data < 2 ^ 62 ->
  make_fit_size_Datagram (size (fw_remain w)) data = (f, true) ->
  wf f /\ DatagramFrame.datagram_data f = data /\ size (wire f) <= wr_room (fw_w w) /\
  fst (fw_write f w) = true /\ fw_w (snd (fw_write f w)) = wr_put (fw_w w) (wire f).
Proof.
  intros Hw Hroom Hsz. unfold fw_remain. rewrite wr_remain_size by done. intros Hfit.
  assert (Hr0 : 0 <= wr_room (fw_w w)) by (destruct Hw; unfold wr_room, size; lia).
  destruct (make_fit_crypto_datagram (wr_room (fw_w w)) 0 data ltac:(lia) Hsz ltac:(lia)) as (_ & Hm & _).
  destruct (Hm f Hfit) as (Hwf & Hfl & Hd & _). unfold fw_write.
  destruct (render_emits f Hwf (fw_w w) Hw) as [He _].
  rewrite He by (rewrite wire_size by done; lia). rewrite wire_size by done. done.
Qed.

(** * Properties *)

(** A datagram that was sent stays in the queue. With the default drop
    detector, a queue of one datagram that fits is left as it was by [send]:
    whenever the connection sends another packet with room, the same datagram
    is sent again. *)
Theorem datagram_sent_again pns ws o (m : t DatagramDropNull) sd :
  send_que m = [sd] -> size (sd_data sd) < 2 ^ 62 -> length pns = length ws ->
  Forall (fun w => wr_ok (fw_w w) /\ wr_room (fw_w w) < 2 ^ 62 /\
                   snd (make_fit_size_Datagram (size (fw_remain w)) (sd_data sd)) = true) ws ->
  Forall (fun '(pn, w) =>
    let '(res, w', o', m') := send pn w o m in
    res = io_ok /\ m' = m /\
    exists f, wf f /\ DatagramFrame.datagram_data f = sd_data sd /\
      wr_written (fw_w w') = wr_written (fw_w w) ++ wire f) (zip pns ws).
Proof.
  intros Hq Hsz Hlen Hws. rewrite Forall_forall in Hws. apply Forall_forall. intros [pn w] Hin.
  apply elem_of_zip_r in Hin. destruct (Hws w Hin) as (Hw & Hroom & Hfit). unfold send. rewrite Hq. cbn [send_loop].
  destruct (make_fit_size_Datagram _ _) as [f ok] eqn:Ef. cbn [snd] in Hfit. subst ok. cbn [negb].
  destruct (fitting_written (sd_data sd) w f Hw Hroom Hsz Ef) as (Hwf & Hd & Hfl & H1 & H2).
  destruct (fw_write f w) as [ok w']. cbn [fst snd] in H1, H2. subst ok. cbn [negb dd_sent DropNull_detector].
  split; [done |]. split; [destruct m; simpl in *; by subst |]. exists f. split_and!; [done | done |].
  rewrite H2. by apply wr_put_written.
Qed.

Lemma datagram_sent_again_witness :
  let m := mk [mk_send_dgram [7; 8] 0 0] [] 100 100 (mk_dgram_config 3 10) drop_null in
  let w := mk_fwriter (new_writer (replicate 20 0)) 0 0 in
  Forall (fun '(pn, w) => fst (fst (fst (send pn w (None, ∅) m))) = io_ok /\ snd (send pn w (None, ∅) m) = m)
    [(1, w); (2, w)].
Proof.
  cbv zeta.
  assert (Hw : forall w, w = mk_fwriter (new_writer (replicate 20 0)) 0 0 ->
    wr_ok (fw_w w) /\ wr_room (fw_w w) < 2 ^ 62 /\ snd (make_fit_size_Datagram (size (fw_remain w)) [7; 8]) = true)
    by (intros w ->; vm_compute; repeat split; (congruence || lia)).
  pose proof (datagram_sent_again [1; 2]
    [mk_fwriter (new_writer (replicate 20 0)) 0 0; mk_fwriter (new_writer (replicate 20 0)) 0 0] (None, ∅)
    (mk [mk_send_dgram [7; 8] 0 0] [] 100 100 (mk_dgram_config 3 10) drop_null) (mk_send_dgram [7; 8] 0 0)
    eq_refl ltac:(vm_compute; reflexivity) eq_refl ltac:(repeat constructor; by apply Hw)) as H.
  eapply Forall_impl; [exact H |]. intros [pn w]. destruct (send pn w (None, ∅) _) as [[[res w'] o'] m'].
  intros (-> & -> & _). split; reflexivity.
Defined.
