(* ===== verification/Pacer.v ===== *)
(** * Pacer: spreading packets over the round-trip time

    Models [fnet/quic/status/pacer.h] and [status/ack_range.h]. The next send
    time is computed in [double]: the arithmetic is that of binary64 in the
    Standard Library's [SpecFloat]. *)

From stdpp Require Import base numbers list.
From Stdlib Require Import ZArith Lia SpecFloat.
From S2P Require Import Prelude Types QTime Rtt Congestion.

(** ** [double] *)

Module double.
Definition t := spec_float.
Definition of_int (z : Z) : t := binary_normalize 53 1024 z 0 false.
Definition mul : t -> t -> t := SFmul 53 1024.
Definition div : t -> t -> t := SFdiv 53 1024.
Definition add : t -> t -> t := SFadd 53 1024.
(** The literals [1e9] and [0.9]. *)
Definition e9 : t := of_int 1000000000.
Definition d0_9 : t := S754_finite false 8106479329266893 (-53).
(** Conversion to [std::uint64_t] truncates; a value out of range has no
    defined result. *)
Definition to_u64 (f : t) : option Z :=
  match f with
  | S754_zero _ => Some 0
  | S754_finite s m e =>
      let v := (if s then Z.neg m else Zpos m) in
      let z := if 0 <=? e then v * 2 ^ e else Z.quot v (2 ^ (- e)) in
      if (0 <=? z) && (z <? 2 ^ 64) then Some z else None
  | S754_infinity _ | S754_nan => None
  end.
End double.

(** ** [status/ack_range.h] *)

(** [1 << exponent] is an [int]; exponents of 32 and more are excluded by the
    transport parameters. *)
Definition decode_ack_delay (base exponent : Z) : Z := u64 (base * u64 (s32 (Z.shiftl 1 exponent))).

Record ECNCounts := mk_ecn { ect0 : Z; ect1 : Z; ecn_ce : Z }.

(** ** [struct TokenBudgetPacer] *)

Module Pacer.
Record t := mk { last_sent_time : Z; timer : time.Timer; budget_at_last_sent : Z }.
Definition reset : t := mk time.invalid time.cancel 0.

Definition can_send (now : Z) (p : t) : bool := time.not_working (timer p) || time.timeout (timer p) now.
Definition get_deadline (p : t) : Z := time.get_deadline (timer p).

Section ops.
Context {A : Type}.

Definition adjusted_bandwidth (config : Config) (cong : Congestion.t A) (rtt : RTT.t) : Z :=
  if den (pacer_N config) =? 0 then u64_max
  else u64 (num (pacer_N config) * Congestion.bandwidth rtt cong) / u64 (den (pacer_N config)).

Definition max_burst_size (config : Config) (payload_size : PayloadSize.t) (cong : Congestion.t A) (rtt : RTT.t) : Z :=
  let a := u64 (time.to_clock_granularity (clock config) 2 * adjusted_bandwidth config cong rtt) /
           u64 (time.to_clock_granularity (clock config) 1000) in
  max_ a (u64 (window_initial_factor config * PayloadSize.current_max_payload_size payload_size)).

Definition budget (config : Config) (payload_size : PayloadSize.t) (cong : Congestion.t A) (rtt : RTT.t) (now : Z)
    (p : t) : Z :=
  if negb (time.valid (last_sent_time p)) then max_burst_size config payload_size cong rtt
  else
    let next := u64 (budget_at_last_sent p +
      u64 (adjusted_bandwidth config cong rtt * s64 (now - last_sent_time p)) /
      u64 (time.to_clock_granularity (clock config) 1000)) in
    min_ (max_burst_size config payload_size cong rtt) next.

Definition on_packet_sent (config : Config) (payload_size : PayloadSize.t) (cong : Congestion.t A) (rtt : RTT.t)
    (time_sent size : Z) (p : t) : t :=
  let now_budget := budget config payload_size cong rtt time_sent p in
  mk time_sent (timer p) (if now_budget <? size then 0 else now_budget - size).

(** [None]: the conversion to an integer is undefined. *)
Definition set_next_send_time (config : Config) (cong : Congestion.t A) (payload_size : PayloadSize.t) (rtt : RTT.t)
    (p : t) : option t :=
  let current := PayloadSize.current_max_payload_size payload_size in
  if current <=? budget_at_last_sent p then Some (mk (last_sent_time p) time.cancel (budget_at_last_sent p))
  else
    let deltaf := double.div (double.mul (double.of_int (current - budget_at_last_sent p)) double.e9)
                    (double.of_int (adjusted_bandwidth config cong rtt)) in
    let unit_ := time.to_nanosec (clock config) (time.to_clock_granularity (clock config) 1) in
    match double.to_u64 (double.add (double.div deltaf (double.of_int unit_)) double.d0_9) with
    | None => None
    | Some delta => Some (mk (last_sent_time p) (time.set_deadline (s64 (last_sent_time p + delta))) (budget_at_last_sent p))
    end.

Definition maybe_update_timer (config : Config) (cong : Congestion.t A) (hs : HandshakeStatus.t)
    (payload_size : PayloadSize.t) (rtt : RTT.t) (p : t) : option t :=
  if Congestion.should_send_any cong && HandshakeStatus.handshake_complete hs
  then set_next_send_time config cong payload_size rtt p else Some p.
End ops.
End Pacer.

(** * Lemmas *)

Module PacerFacts.
Import Pacer.

(** 1200 bytes at the 45 bytes per millisecond that [bandwidth] gives for
    this window and round-trip time would take 27 ms; the pacer takes the
    bandwidth to be per second and waits for 26.7 s. *)
Example next_send_time :
  adjusted_bandwidth default_config (Congestion.mk 12000 0 0 true null_alg) (RTT.mk 333 333 333 166 0 1) = 45 /\
  set_next_send_time default_config (Congestion.mk 12000 0 0 true null_alg) 1200 (RTT.mk 333 333 333 166 0 1)
    (mk 1000 time.cancel 0) = Some (mk 1000 27667 0).
Proof. vm_compute. done. Qed.

(** The literal 0.9 is the binary64 number nearest to it. *)
Example literal_0_9 : double.div (double.of_int 9) (double.of_int 10) = double.d0_9.
Proof. vm_compute. reflexivity. Qed.

(** The budget never exceeds a burst. *)
Lemma budget_bounded {A} config psize (cong : Congestion.t A) rtt now p :
  budget config psize cong rtt now p <= max_burst_size config psize cong rtt.
Proof. unfold budget. destruct (negb _); [lia |]. rewrite min_spec. lia. Qed.

(** With no bandwidth left (a window smaller than the round-trip time in
    clock units), the division by zero makes the next send time undefined. *)
Lemma no_bandwidth_undefined {A} config (cong : Congestion.t A) psize rtt p :
  budget_at_last_sent p < PayloadSize.current_max_payload_size psize ->
  adjusted_bandwidth config cong rtt = 0 -> set_next_send_time config cong psize rtt p = None.
Proof.
  intros H1 H2. unfold set_next_send_time. rewrite leb_false, H2 by lia.
  assert (Hd : forall x, double.div x (double.of_int 0) = S754_nan \/ exists s, double.div x (double.of_int 0) = S754_infinity s)
    by (intros [s | s | | s m e]; vm_compute; eauto).
  assert (Hf : forall x y, x = S754_nan \/ (exists s, x = S754_infinity s) ->
    double.to_u64 (double.add (double.div x y) double.d0_9) = None)
    by (intros x y [-> | [s ->]]; destruct y; done).
  by rewrite Hf.
Qed.
End PacerFacts.
