(* ===== verification/Status.v ===== *)
(** * Status: the transport state of a connection

    Models [fnet/quic/status/status.h]: [Status<Alg>] owns the estimators,
    timers and counters of the other files of this directory and calls them
    in the order of the RFC's events: packet sent, acknowledgement received,
    loss timer expired, packet number space discarded, Retry received.

    The callers hand in callbacks that know the packets in flight; here they
    are functions over a state [W] of their own and over the variables the
    lambdas of the source capture ([LostScan], [AckScan]). A clock reading is
    an argument; [rd i] is the reading at the [i]-th place of an operation
    that reads the clock. An array indexed with [no_space] would be read out
    of range; that value, which no packet with a number has, changes nothing
    here. *)

From stdpp Require Import base numbers list.
From Stdlib Require Import ZArith Lia.
From S2P Require Import Prelude PacketNumber Types FrameAck QTime Rtt PnManage LossTimer Congestion Pacer.

Module Status.

Record t (A : Type) := mk {
  config : Config;
  hs : HandshakeStatus.t;
  payload_size : PayloadSize.t;
  peer_ack_delay_exponent : Z;
  creation_time : Z;
  rtt : RTT.t;
  cong : Congestion.t A;
  idle : IdleTimer.t;
  loss : LossTimer.t;
  pto : PTOStatus.t;
  pacer : Pacer.t;
  close_timer : time.Timer;
  ping_timer : time.Timer;
  pn_issuers : Spaces PacketNumberIssuer.t;
  pn_acceptors : Spaces PacketNumberAcceptor.t;
  sent_ack_tracker : SentAckTracker.t
}.
Arguments mk {A}. Arguments config {A}. Arguments hs {A}. Arguments payload_size {A}.
Arguments peer_ack_delay_exponent {A}. Arguments creation_time {A}. Arguments rtt {A}. Arguments cong {A}.
Arguments idle {A}. Arguments loss {A}. Arguments pto {A}. Arguments pacer {A}. Arguments close_timer {A}.
Arguments ping_timer {A}. Arguments pn_issuers {A}. Arguments pn_acceptors {A}. Arguments sent_ack_tracker {A}.

Section ops.
Context {A : Type} `{Algorithm A}.

Definition set_hs x (s : t A) := mk (config s) x (payload_size s) (peer_ack_delay_exponent s) (creation_time s) (rtt s) (cong s) (idle s) (loss s) (pto s) (pacer s) (close_timer s) (ping_timer s) (pn_issuers s) (pn_acceptors s) (sent_ack_tracker s).
Definition set_rtt x (s : t A) := mk (config s) (hs s) (payload_size s) (peer_ack_delay_exponent s) (creation_time s) x (cong s) (idle s) (loss s) (pto s) (pacer s) (close_timer s) (ping_timer s) (pn_issuers s) (pn_acceptors s) (sent_ack_tracker s).
Definition set_cong (x : Congestion.t A) (s : t A) := mk (config s) (hs s) (payload_size s) (peer_ack_delay_exponent s) (creation_time s) (rtt s) x (idle s) (loss s) (pto s) (pacer s) (close_timer s) (ping_timer s) (pn_issuers s) (pn_acceptors s) (sent_ack_tracker s).
Definition set_idle x (s : t A) := mk (config s) (hs s) (payload_size s) (peer_ack_delay_exponent s) (creation_time s) (rtt s) (cong s) x (loss s) (pto s) (pacer s) (close_timer s) (ping_timer s) (pn_issuers s) (pn_acceptors s) (sent_ack_tracker s).
Definition set_loss x (s : t A) := mk (config s) (hs s) (payload_size s) (peer_ack_delay_exponent s) (creation_time s) (rtt s) (cong s) (idle s) x (pto s) (pacer s) (close_timer s) (ping_timer s) (pn_issuers s) (pn_acceptors s) (sent_ack_tracker s).
Definition set_pto x (s : t A) := mk (config s) (hs s) (payload_size s) (peer_ack_delay_exponent s) (creation_time s) (rtt s) (cong s) (idle s) (loss s) x (pacer s) (close_timer s) (ping_timer s) (pn_issuers s) (pn_acceptors s) (sent_ack_tracker s).
Definition set_pacer x (s : t A) := mk (config s) (hs s) (payload_size s) (peer_ack_delay_exponent s) (creation_time s) (rtt s) (cong s) (idle s) (loss s) (pto s) x (close_timer s) (ping_timer s) (pn_issuers s) (pn_acceptors s) (sent_ack_tracker s).
Definition set_timers c p (s : t A) := mk (config s) (hs s) (payload_size s) (peer_ack_delay_exponent s) (creation_time s) (rtt s) (cong s) (idle s) (loss s) (pto s) (pacer s) c p (pn_issuers s) (pn_acceptors s) (sent_ack_tracker s).
Definition set_issuers x (s : t A) := mk (config s) (hs s) (payload_size s) (peer_ack_delay_exponent s) (creation_time s) (rtt s) (cong s) (idle s) (loss s) (pto s) (pacer s) (close_timer s) (ping_timer s) x (pn_acceptors s) (sent_ack_tracker s).
Definition set_acceptors x (s : t A) := mk (config s) (hs s) (payload_size s) (peer_ack_delay_exponent s) (creation_time s) (rtt s) (cong s) (idle s) (loss s) (pto s) (pacer s) (close_timer s) (ping_timer s) (pn_issuers s) x (sent_ack_tracker s).
Definition set_tracker x (s : t A) := mk (config s) (hs s) (payload_size s) (peer_ack_delay_exponent s) (creation_time s) (rtt s) (cong s) (idle s) (loss s) (pto s) (pacer s) (close_timer s) (ping_timer s) (pn_issuers s) (pn_acceptors s) x.

(** Changing the issuer of a space through the reference to it. *)
Definition update_issuer (space : PacketNumberSpace) (f : PacketNumberIssuer.t -> PacketNumberIssuer.t) (s : t A) : t A :=
  match sget (pn_issuers s) space with
  | Some i => set_issuers (sset space (f i) (pn_issuers s)) s
  | None => s
  end.

(** ** Private operations *)

Definition on_pto_timeout (s : t A) : t A :=
  if no_ack_eliciting_in_flight (pn_issuers s) && negb (HandshakeStatus.peer_completed_address_validation (hs s))
  then
    if HandshakeStatus.handshake_packet_is_sent (hs s)
    then set_pto (PTOStatus.on_pto_no_flight handshake (pto s)) s
    else set_pto (PTOStatus.on_pto_no_flight initial (pto s)) s
  else set_pto (PTOStatus.on_pto_timeout (LossTimer.timer_space (loss s)) (pto s)) s.

Definition loss_delay (s : t A) : Z :=
  let th := time_threshold (config s) in
  if den th =? 0 then time.invalid
  else
    let k := s64 (num th * min_ (RTT.smoothed_rtt (rtt s)) (RTT.latest_rtt (rtt s))) in
    let candidate := if den th =? 8 then Z.shiftr k 3 else Z.quot k (den th) in
    if candidate <? 0 then time.invalid
    else max_ candidate (time.to_clock_granularity (clock (config s)) 1).

Definition set_loss_detection_timer (now1 now2 : Z) (s : t A) : t A :=
  let '(l, p) := LossTimer.set_loss_detection_timer (config s) (pto s) (rtt s) (hs s) (pn_issuers s) now1 now2
                   (loss s, ping_timer s) in
  set_timers (close_timer s) p (set_loss l s).

(** The variables the lambdas of [detect_and_remove_lost_packet] capture. *)
Record LostScan := mk_scan {
  sc_status : t A;
  sent_time_of_last_loss : Z;
  call_lost_once : bool;
  call_cong_cb_once : bool
}.

Definition is_lost (loss_space : PacketNumberSpace) (delay time_before_is_lost largest_ack : Z)
    (pn sent_bytes time_sent status : Z) (sc : LostScan) : LostReason * LostScan :=
  if call_cong_cb_once sc then (lost_invalid, sc)
  else if largest_ack <? pn then (not_lost, sc)
  else
    let s := sc_status sc in
    let time_threshold := time_sent <=? time_before_is_lost in
    let order_threshold := u64 (pn + packet_order_threshold (config s)) <=? largest_ack in
    if time_threshold || order_threshold then
      let s := update_issuer loss_space (PacketNumberIssuer.on_packet_lost status) s in
      let '(last, c) := Congestion.on_packet_lost sent_bytes time_sent status (sent_time_of_last_loss sc, cong s) in
      (if time_threshold then lost_time_threshold else lost_packet_order_threshold,
       mk_scan (set_cong c s) last true (call_cong_cb_once sc))
    else
      (not_lost,
       mk_scan (set_loss (LossTimer.update_loss_time loss_space (s64 (time_sent + delay)) (loss s)) s)
         (sent_time_of_last_loss sc) (call_lost_once sc) (call_cong_cb_once sc)).

Definition persistent_cb := (Z -> Z -> Congestion.t A -> bool * Congestion.t A) -> Congestion.t A -> Congestion.t A.

Definition congestion_callback (now : Z) (cb : persistent_cb) (sc : LostScan) : LostScan :=
  if call_cong_cb_once sc then sc
  else if negb (call_lost_once sc) then sc
  else
    let s := sc_status sc in
    mk_scan (set_cong (Congestion.on_packets_lost (sent_time_of_last_loss sc) (config s) (payload_size s) (rtt s) (pto s) now cb
                         (cong s)) s)
      (sent_time_of_last_loss sc) (call_lost_once sc) true.

(** [remove_lost_packets(space, is_lost, congestion_callback)] *)
Definition remove_lost_t (W : Type) :=
  PacketNumberSpace -> (Z -> Z -> Z -> Z -> LostScan -> LostReason * LostScan) ->
  (persistent_cb -> LostScan -> LostScan) -> W * LostScan -> bool * (W * LostScan).

(** [now1] is read for the threshold, [now2] for persistent congestion. *)
Definition detect_and_remove_lost_packet {W} (remove_lost_packets : remove_lost_t W) (loss_space : PacketNumberSpace)
    (must_lost : bool) (now1 now2 : Z) (x : W * t A) : bool * (W * t A) :=
  let '(w, s) := x in
  let delay := loss_delay s in
  match sget (pn_issuers s) loss_space with
  | None => (false, (w, s))
  | Some issuer =>
      if negb (time.valid delay) then (false, (w, s))
      else
        let time_before_is_lost := s64 (now1 - delay) in
        let largest_ack := PacketNumberIssuer.largest_acked_packet issuer in
        let s := set_loss (LossTimer.reset_loss_time loss_space (loss s)) s in
        let '(ok, (w, sc)) :=
          remove_lost_packets loss_space (is_lost loss_space delay time_before_is_lost largest_ack)
            (congestion_callback now2) (w, mk_scan s 0 false false) in
        if negb ok then (false, (w, sc_status sc))
        else
          let sc := congestion_callback now2 (fun _ c => c) sc in
          (negb must_lost || call_lost_once sc, (w, sc_status sc))
  end.

Definition process_ecn (space : PacketNumberSpace) (ecn : ECNCounts) (time_sent : Z) (s : t A) : t A :=
  match sget (pn_issuers s) space with
  | None => s
  | Some issuer =>
      let '(upd, issuer) := PacketNumberIssuer.is_ecn_ce_updated (ecn_ce ecn) issuer in
      let s := set_issuers (sset space issuer (pn_issuers s)) s in
      if upd then set_cong (Congestion.on_congestion_event (config s) (payload_size s) time_sent (cong s)) s else s
  end.

(** ** Events *)

Definition default_ack_delay_exponent : Z := 3.

Definition reset (conf : Config) (alg : A) (is_server : bool) (max_udp_payload now : Z) : t A :=
  let psize := PayloadSize.reset max_udp_payload in
  mk conf (HandshakeStatus.reset is_server) psize default_ack_delay_exponent now (RTT.reset conf)
     (Congestion.reset conf psize alg) IdleTimer.reset LossTimer.reset PTOStatus.reset Pacer.reset time.cancel time.cancel
     (mk_spaces PacketNumberIssuer.reset PacketNumberIssuer.reset PacketNumberIssuer.reset)
     (mk_spaces PacketNumberAcceptor.reset PacketNumberAcceptor.reset PacketNumberAcceptor.reset) SentAckTracker.reset.

Definition on_transport_parameter_received (idle_timeout max_ack_delay ack_delay_exponent : Z) (s : t A) : t A :=
  let s := set_rtt (RTT.apply_max_ack_delay (u64 (time.to_clock_granularity (clock (config s)) (s64 max_ack_delay))) (rtt s)) s in
  let s := mk (config s) (hs s) (payload_size s) ack_delay_exponent (creation_time s) (rtt s) (cong s) (idle s) (loss s) (pto s) (pacer s) (close_timer s) (ping_timer s) (pn_issuers s) (pn_acceptors s) (sent_ack_tracker s) in
  set_idle (IdleTimer.apply_idle_timeout (config s) idle_timeout (idle s)) s.

Definition on_0RTT_transport_parameter (idle_timeout : Z) (s : t A) : t A :=
  set_idle (IdleTimer.apply_idle_timeout (config s) idle_timeout (idle s)) s.

Definition on_payload_size_update (new_payload_size : Z) (s : t A) : t A :=
  let old_size := PayloadSize.current_max_payload_size (payload_size s) in
  let '(upd, psize) := PayloadSize.update_payload_size new_payload_size (payload_size s) in
  let s := mk (config s) (hs s) psize (peer_ack_delay_exponent s) (creation_time s) (rtt s) (cong s) (idle s) (loss s) (pto s) (pacer s) (close_timer s) (ping_timer s) (pn_issuers s) (pn_acceptors s) (sent_ack_tracker s) in
  if upd then set_cong (Congestion.on_update_max_udp_payload_size (config s) old_size new_payload_size (cong s)) s else s.

Definition on_handshake_confirmed (s : t A) : t A := set_hs (HandshakeStatus.on_handshake_confirmed (hs s)) s.
Definition on_handshake_complete (s : t A) : t A :=
  let s := set_hs (HandshakeStatus.on_handshake_complete (hs s)) s in
  if HandshakeStatus.is_server (hs s) then on_handshake_confirmed s else s.

(** The outer [None]: the pacer computes an undefined time. The inner [None]
    is the error of [PacketNumberIssuer::on_packet_sent]. [rd 0] is read by
    the issuer, [rd 1] and [rd 2] by the loss timer. *)
Definition on_packet_sent (space : PacketNumberSpace) (pn sent_bytes time_sent status : Z) (rd : nat -> Z) (s : t A)
    : option (option (Z * Z) * t A) :=
  match sget (pn_issuers s) space with
  | None => Some (None, s)
  | Some issuer =>
      let '(res, issuer) := PacketNumberIssuer.on_packet_sent (rd 0%nat) pn status issuer in
      let s := set_issuers (sset space issuer (pn_issuers s)) s in
      match res with
      | None => Some (None, s)
      | Some range =>
          let s := set_hs (HandshakeStatus.on_packet_sent space sent_bytes (hs s)) s in
          let s := set_idle (IdleTimer.on_packet_sent time_sent (PacketStatus.is_ack_eliciting status) (idle s)) s in
          let s := set_pto (PTOStatus.on_packet_sent (PacketStatus.is_ack_eliciting status) (pto s)) s in
          let s :=
            if PacketStatus.is_byte_counted status then
              let s := set_cong (Congestion.on_packet_sent sent_bytes time_sent (cong s)) s in
              let s := set_pacer (Pacer.on_packet_sent (config s) (payload_size s) (cong s) (rtt s) time_sent sent_bytes (pacer s)) s in
              set_loss_detection_timer (rd 1%nat) (rd 2%nat) s
            else s in
          match Pacer.maybe_update_timer (config s) (cong s) (hs s) (payload_size s) (rtt s) (pacer s) with
          | None => None
          | Some p => Some (Some range, set_pacer p s)
          end
      end
  end.

Definition on_datagram_received (recv_bytes : Z) (rd : nat -> Z) (s : t A) : t A :=
  let was_limit := HandshakeStatus.is_at_anti_amplification_limit (hs s) in
  let s := set_hs (HandshakeStatus.on_datagram_received recv_bytes (hs s)) s in
  if was_limit && HandshakeStatus.is_at_anti_amplification_limit (hs s)
  then set_loss_detection_timer (rd 0%nat) (rd 1%nat) s else s.

Definition on_packet_decrypted (space : PacketNumberSpace) (now : Z) (s : t A) : t A :=
  let s := set_hs (HandshakeStatus.on_packet_decrypted space (hs s)) s in
  set_idle (IdleTimer.on_packet_decrypted now (idle s)) s.

Definition on_packet_processed (space : PacketNumberSpace) (pn : Z) (s : t A) : t A :=
  match sget (pn_acceptors s) space with
  | Some a => set_acceptors (sset space (PacketNumberAcceptor.on_packet_processed pn a) (pn_acceptors s)) s
  | None => s
  end.

(** [rd 0] and [rd 1] are read by the loss detection, [rd 2] and [rd 3] by
    the loss timer. *)
Definition on_loss_detection_timeout {W} (remove_lost_packets : remove_lost_t W) (rd : nat -> Z) (x : W * t A)
    : bool * (W * t A) :=
  let '(w, s) := x in
  match LossTimer.state (loss s) with
  | wait_for_loss =>
      let '(ok, (w, s)) :=
        detect_and_remove_lost_packet remove_lost_packets (LossTimer.timer_space (loss s)) true (rd 0%nat) (rd 1%nat) (w, s) in
      if negb ok then (false, (w, s)) else (true, (w, set_loss_detection_timer (rd 2%nat) (rd 3%nat) s))
  | wait_for_pto => (true, (w, set_loss_detection_timer (rd 2%nat) (rd 3%nat) (on_pto_timeout s)))
  | _ => (false, (w, s))
  end.

(** The variables the lambdas of [on_ack_received] capture. *)
Record AckScan := mk_ack_scan {
  ac_status : t A;
  has_ack_eliciting : bool;
  largest_removed : Z;
  largest_removed_sent_time : Z;
  ack_count : Z;
  after_ack_count : Z;
  after_call_once : Z;
  after_call_res : bool
}.

Definition set_ac_status s (a : AckScan) : AckScan :=
  mk_ack_scan s (has_ack_eliciting a) (largest_removed a) (largest_removed_sent_time a) (ack_count a) (after_ack_count a)
    (after_call_once a) (after_call_res a).

(** The test of [is_ack]: the ranges are searched from the last, lowest one;
    the first range bounds the number from above, so one is found. *)
Definition in_ack_ranges (pn : Z) (ranges : list ACKRange) (largest_ack smallest_ack : Z) : bool :=
  if (pn <? smallest_ack) || (largest_ack <? pn) then false
  else if 1 <? size ranges then
    match List.find (fun r => pn <=? largest r) (rev ranges) with
    | Some r => negb (pn <? smallest r)
    | None => false
    end
  else true.

Definition is_ack (space : PacketNumberSpace) (ranges : list ACKRange) (largest_ack smallest_ack : Z)
    (pn sent_bytes time_sent status largest_sent_ack : Z) (a : AckScan) : bool * AckScan :=
  if negb (in_ack_ranges pn ranges largest_ack smallest_ack) then (false, a)
  else
    let s := update_issuer space (PacketNumberIssuer.on_packet_ack status) (ac_status a) in
    let s := set_tracker (SentAckTracker.on_packet_acked space largest_sent_ack (sent_ack_tracker s)) s in
    let upd := (largest_removed a =? packetnum.infinity) || (largest_removed a <? pn) in
    (true, mk_ack_scan s (has_ack_eliciting a || PacketStatus.is_ack_eliciting status)
             (if upd then pn else largest_removed a)
             (if upd then time_sent else largest_removed_sent_time a)
             (u64 (ack_count a + 1)) (after_ack_count a) (after_call_once a) (after_call_res a)).

(** The [congestion_callback] of [on_ack_received]; [limited] is what
    [is_flow_control_limited()] returns. *)
Definition apply_ack (limited : bool) (sent_bytes time_sent status : Z) (a : AckScan) : AckScan :=
  let s := ac_status a in
  let s := set_cong (Congestion.on_packet_ack (config s) (payload_size s) sent_bytes time_sent status limited (cong s)) s in
  mk_ack_scan s (has_ack_eliciting a) (largest_removed a) (largest_removed_sent_time a) (ack_count a)
    (u64 (after_ack_count a + 1)) (after_call_once a) (after_call_res a).

(** [then(congestion_callback)] *)
Definition then_t (W : Type) := (Z -> Z -> Z -> AckScan -> AckScan) -> W * AckScan -> W * AckScan.

(** The round-trip sample, when the largest acknowledged packet was removed
    now and something ack-eliciting with it. *)
Definition ack_sample (ack_delay_wire largest_ack : Z) (rd : nat -> Z) (a : AckScan) : bool * AckScan :=
  if (largest_removed a =? largest_ack) && has_ack_eliciting a then
    let s := ac_status a in
    let delay := u64 (time.to_clock_granularity (clock (config s))
                        (s64 (decode_ack_delay ack_delay_wire (peer_ack_delay_exponent s)))) in
    let '(ok, r) := RTT.sample_rtt (rd 0%nat) (rd 1%nat) (largest_removed_sent_time a) delay (rtt s) in
    (ok, set_ac_status (set_rtt r s) a)
  else (true, a).

(** [after_remove_acked_packets]: [rd 0], [rd 1] for the sample, [rd 2],
    [rd 3] for the loss detection, [rd 4], [rd 5] for the timer. *)
Definition after_remove_acked_packets {W} (space : PacketNumberSpace) (ack_delay_wire : Z) (ecn : option ECNCounts)
    (largest_ack : Z) (remove_lost_packets : remove_lost_t W) (limited : bool) (rd : nat -> Z)
    (then_ : then_t W) (x : W * AckScan) : bool * (W * AckScan) :=
  let '(w, a) := x in
  let once n a := mk_ack_scan (ac_status a) (has_ack_eliciting a) (largest_removed a) (largest_removed_sent_time a)
                    (ack_count a) (after_ack_count a) n (after_call_res a) in
  if 1 <=? after_call_once a then (false, (w, once 2 a))
  else
    let a := once 1 a in
    let '(ok, a) := ack_sample ack_delay_wire largest_ack rd a in
    if negb ok then (false, (w, a))
    else
      let a := match ecn with
               | Some e => set_ac_status (process_ecn space e (largest_removed_sent_time a) (ac_status a)) a
               | None => a
               end in
      let '(ok, (w, s)) := detect_and_remove_lost_packet remove_lost_packets space false (rd 2%nat) (rd 3%nat) (w, ac_status a) in
      let a := set_ac_status s a in
      if negb ok then (false, (w, a))
      else
        let '(w, a) := then_ (apply_ack limited) (w, a) in
        let s := ac_status a in
        let s := set_pto (PTOStatus.on_ack_received (hs s) (pto s)) s in
        let s := set_loss_detection_timer (rd 4%nat) (rd 5%nat) s in
        (true, (w, mk_ack_scan s (has_ack_eliciting a) (largest_removed a) (largest_removed_sent_time a) (ack_count a)
                     (after_ack_count a) (after_call_once a) true)).

(** [remove_acked_packets(space, is_ack, after)] *)
Definition remove_acked_t (W : Type) :=
  PacketNumberSpace -> (Z -> Z -> Z -> Z -> Z -> AckScan -> bool * AckScan) ->
  (then_t W -> W * AckScan -> bool * (W * AckScan)) -> W * AckScan -> bool * (W * AckScan).

Definition on_ack_received {W} (space : PacketNumberSpace) (ack_delay_wire : Z) (ecn : option ECNCounts)
    (ack_ranges : list ACKRange) (remove_lost_packets : remove_lost_t W) (limited : bool)
    (remove_acked_packets : remove_acked_t W) (rd : nat -> Z) (x : W * t A) : bool * (W * t A) :=
  let '(w, s) := x in
  let s := set_hs (HandshakeStatus.on_ack_received space (hs s)) s in
  match ack_ranges, last ack_ranges with
  | r0 :: _, Some rn =>
      let largest_ack := largest r0 in
      let smallest_ack := smallest rn in
      let s := update_issuer space (PacketNumberIssuer.on_ack_received largest_ack) s in
      let '(ok, (w, a)) :=
        remove_acked_packets space (is_ack space ack_ranges largest_ack smallest_ack)
          (after_remove_acked_packets space ack_delay_wire ecn largest_ack remove_lost_packets limited rd)
          (w, mk_ack_scan s false packetnum.infinity 0 0 0 0 false) in
      if negb ok then (false, (w, ac_status a))
      else if negb (ack_count a =? after_ack_count a) || negb (after_call_once a =? 1) then (false, (w, ac_status a))
      else (after_call_res a, (w, ac_status a))
  | _, _ => (false, (w, s))
  end.

(** [remove_packets(apply_remove)] *)
Definition on_packet_number_space_discard {W} (space : PacketNumberSpace)
    (remove_packets : (Z -> Z -> t A -> t A) -> W * t A -> W * t A) (rd : nat -> Z) (x : W * t A) : W * t A :=
  match space with
  | initial | handshake =>
      let apply_remove sent_size status s :=
        set_cong (Congestion.on_packet_number_space_discard sent_size status (cong s)) s in
      let '(w, s) := remove_packets apply_remove x in
      let s := update_issuer space PacketNumberIssuer.on_packet_number_space_discard s in
      let s := set_loss (LossTimer.on_packet_number_space_discard space (loss s)) s in
      let s := set_pto (PTOStatus.on_packet_number_space_discard (pto s)) s in
      (w, set_loss_detection_timer (rd 0%nat) (rd 1%nat) s)
  | _ => x
  end.

(** [lost_sent_packet(apply_remove)]: the variable is [first_sent_time]. *)
Definition on_retry_received {W} (lost_sent_packet : (Z -> Z -> Z) -> W * Z -> W * Z) (rd : nat -> Z) (x : W * t A)
    : W * t A :=
  let '(w, s) := x in
  let s := set_hs (HandshakeStatus.on_retry_received (hs s)) s in
  let '(w, first_sent_time) :=
    lost_sent_packet (fun time_sent first => if negb (time.valid first) then time_sent else first) (w, time.invalid) in
  let '(p, r) := PTOStatus.on_retry_received (rd 0%nat) (rd 1%nat) first_sent_time (pto s, rtt s) in
  let s := set_rtt r (set_pto p s) in
  let s := set_loss (LossTimer.on_retry_received (loss s)) s in
  let s := update_issuer initial PacketNumberIssuer.on_retry_received s in
  (w, update_issuer application PacketNumberIssuer.on_retry_received s).

(** ** Packet numbers *)

Definition next_and_largest_acked_packet_number (space : PacketNumberSpace) (s : t A) : option (Z * Z) :=
  match sget (pn_issuers s) space with
  | Some i => Some (PacketNumberIssuer.next_packet_number i, PacketNumberIssuer.largest_acked_packet i)
  | None => None
  end.

Definition consume_packet_number (space : PacketNumberSpace) (s : t A) : t A :=
  update_issuer space PacketNumberIssuer.consume_packet_number s.

Definition largest_received_packet_number (space : PacketNumberSpace) (s : t A) : option Z :=
  match sget (pn_acceptors s) space with
  | Some a => Some (PacketNumberAcceptor.largest_received_packet_number a)
  | None => None
  end.

Definition get_onertt_largest_acked_sent_ack (s : t A) : Z :=
  SentAckTracker.get_onertt_largest_acked_sent_ack (sent_ack_tracker s).

(** ** Timeouts and permissions *)

Definition is_handshake_timeout (now : Z) (s : t A) : bool :=
  if negb (time.valid (creation_time s)) || (handshake_timeout (config s) =? 0) then false
  else time.to_clock_granularity (clock (config s)) (s64 (handshake_timeout (config s))) <=? s64 (now - creation_time s).

Definition is_loss_timeout (now : Z) (s : t A) : bool := LossTimer.timeout now (loss s).
Definition is_idle_timeout (now : Z) (s : t A) : bool := IdleTimer.timeout (config s) (hs s) now (idle s).

Definition should_send_any_packet (s : t A) : bool := Congestion.should_send_any (cong s).
Definition is_pto_probe_required (space : PacketNumberSpace) (s : t A) : bool := PTOStatus.is_probe_required space (pto s).

Definition can_send (space : PacketNumberSpace) (now : Z) (s : t A) : bool :=
  Pacer.can_send now (pacer s) || is_pto_probe_required space s || should_send_any_packet s.

Definition is_on_congestion_limited (s : t A) : bool := Congestion.is_on_congestion_limited (cong s).

(** The deadline is a duration, not a point in time. *)
Definition set_close_timer (s : t A) : t A :=
  set_timers (time.set_deadline (PTOStatus.probe_timeout_duration (config s) (rtt s) (pto s))) (ping_timer s) s.
Definition close_timeout (now : Z) (s : t A) : bool := time.timeout (close_timer s) now.
Definition get_close_deadline (s : t A) : Z := time.get_deadline (close_timer s).

Definition should_send_ping (now : Z) (s : t A) : bool :=
  match LossTimer.state (loss s) with no_timer => time.timeout (ping_timer s) now | _ => false end.

Definition on_handshake_start (s : t A) : t A := set_hs (HandshakeStatus.on_handshake_start (hs s)) s.
Definition on_transport_parameter_read (s : t A) : t A := set_hs (HandshakeStatus.on_transport_parameter_read (hs s)) s.
Definition set_retry_sent (s : t A) : t A := set_hs (HandshakeStatus.on_retry_sent (hs s)) s.

(** [max_] of a signed and an unsigned operand is unsigned. *)
Definition path_validation_deadline (now : Z) (s : t A) : Z :=
  let timeout_candidate :=
    u64 (path_validation_timeout_factor (config s) *
         PTOStatus.probe_timeout_duration_with_max_ack_delay (config s) (rtt s) (pto s)) in
  let initial_rtt := RTT.reset (config s) in
  let initial_candidate :=
    calc_probe_timeout_duration (RTT.smoothed_rtt initial_rtt) (RTT.rttvar initial_rtt) (clock (config s))
      (PTOStatus.pto_exponent (pto s)) in
  s64 (now + max_ (u64 initial_candidate) timeout_candidate).

Definition earlier (t earliest : Z) : Z :=
  if time.valid t && (negb (time.valid earliest) || (t <? earliest)) then t else earliest.

Definition get_earliest_deadline (ack_delay : Z) (s : t A) : Z :=
  earlier (IdleTimer.get_deadline (config s) (hs s) (idle s))
    (earlier (Pacer.get_deadline (pacer s))
      (earlier (time.get_deadline (close_timer s))
        (earlier (time.get_deadline (ping_timer s))
          (earlier (LossTimer.get_deadline (loss s)) ack_delay)))).
End ops.
Arguments LostScan : clear implicits. Arguments AckScan : clear implicits.
Arguments remove_lost_t : clear implicits. Arguments remove_acked_t : clear implicits. Arguments then_t : clear implicits.
End Status.
