(* ===== verification/SentHistory.v ===== *)
(** * SentHistory: the packets in flight

    Models [fnet/quic/ack/sent_packet.h] and [ack/sent_history.h] (with its
    forwarding interface sent_history_interface.h): a table of sent packets
    per packet number space, and the callbacks through which [Status] removes
    the acknowledged and the lost ones. The tables are hash maps; the order
    in which one is traversed is not specified, so it is an argument,
    [order], any function that lists the entries of a map. *)

From stdpp Require Import base numbers list gmap fin_maps strings.
From Stdlib Require Import ZArith Lia.
From S2P Require Import Prelude Varint PacketNumber Types FrameAck QTime Rtt PnManage LossTimer Congestion Pacer Status AckRecord.

#[local] Open Scope string_scope.
#[local] Open Scope Z_scope.
#[local] Open Scope list_scope.

Record SentPacket := mk_sent {
  sp_type : PacketType;
  sp_status : Z;
  packet_number : Z;
  waiter : option positive;
  sent_bytes : Z;
  time_sent : Z;
  largest_ack : Z
}.

Notation table := (gmap Z SentPacket) (only parsing).

(** What [SentPacket{.status = skip, .time_sent = t}] holds. *)
Definition skipped_packet (time : Z) : SentPacket :=
  mk_sent Types.Unknown (PacketStatus.set_skipped 0) 0 None 0 time packetnum.infinity.

Definition set_time_sent (time : Z) (p : SentPacket) : SentPacket :=
  mk_sent (sp_type p) (sp_status p) (packet_number p) (waiter p) (sent_bytes p) time (largest_ack p).

Definition bad_order : Error :=
  LibError "packet number is not valid in order. use status.next_packet_number() to get next packet number".

Module SentPacketHistory.

Definition t := Spaces (gmap Z SentPacket).
Definition reset : t := mk_spaces ∅ ∅ ∅.

(** What the callbacks change besides the status: the tables, the store of
    records, the error of the call and the two lists of the caller (the
    second one may be absent). *)
Record World := mk_world {
  tables : t;
  recs : gmap positive ACKLostState;
  err : option Error;
  acked : list SentPacket;
  lost : option (list SentPacket)
}.
Definition set_table (space : PacketNumberSpace) (p : table) (w : World) : World :=
  mk_world (sset space p (tables w)) (recs w) (err w) (acked w) (lost w).
Definition set_err (e : Error) (w : World) : World := mk_world (tables w) (recs w) (Some e) (acked w) (lost w).

Definition try_emplace (k : Z) (x : SentPacket) (p : table) : bool * table :=
  match p !! k with Some _ => (false, p) | None => (true, <[k := x]> p) end.

Fixpoint emplace_skipped (pns : list Z) (x : SentPacket) (p : table) : bool * table :=
  match pns with
  | [] => (true, p)
  | i :: pns' =>
      let '(ok, p) := try_emplace (u64 i) x p in
      if negb ok then (false, p) else emplace_skipped pns' x p
  end.

Section ops.
Context {A : Type} `{Algorithm A} (order : gmap Z SentPacket -> list (Z * SentPacket)).

(** [rd 0] is [status.now()], the others are read by [Status]. The result is
    [None] when the pacer computes an undefined time. *)
Definition on_packet_sent (space : PacketNumberSpace) (sent : SentPacket) (rd : nat -> Z) (x : t * Status.t A)
    : option (option Error * (t * Status.t A)) :=
  let '(h, s) := x in
  let sent := set_time_sent (rd 0%nat) sent in
  match Status.on_packet_sent space (packet_number sent) (sent_bytes sent) (time_sent sent) (sp_status sent)
          (fun i => rd (S i)) s with
  | None => None
  | Some (None, s) => Some (Some bad_order, (h, s))
  | Some (Some (first, second), s) =>
      match sget h space with
      | None => Some (Some bad_order, (h, s))
      | Some p =>
          let '(ok, p) := emplace_skipped (seqZ first (second - first)) (skipped_packet (time_sent sent)) p in
          if negb ok
          then Some (Some (quic_error "failed to register skipped packet number. already registered?"), (sset space p h, s))
          else
            let '(ok, p) := try_emplace (packet_number sent) sent p in
            Some (if ok then None else Some (quic_error "failed to register sent packet number. already registered?"),
                  (sset space p h, s))
      end
  end.

(** The loop of [remove_lost_callback]. *)
Fixpoint lost_loop (is_lost : Z -> Z -> Z -> Z -> Status.LostScan A -> LostReason * Status.LostScan A)
    (l : list (Z * SentPacket)) (p : table) (h : records) (rem : option (list SentPacket)) (sc : Status.LostScan A)
    : bool * table * records * option (list SentPacket) * Status.LostScan A :=
  match l with
  | [] => (true, p, h, rem, sc)
  | (k, sent) :: l' =>
      let '(res, sc) := is_lost (packet_number sent) (sent_bytes sent) (time_sent sent) (sp_status sent) sc in
      match res with
      | not_lost => lost_loop is_lost l' p h rem sc
      | lost_invalid => (false, p, h, rem, sc)
      | _ => lost_loop is_lost l' (delete k p) (mark_as_lost (waiter sent) h) (option_map (fun r => r ++ [sent]) rem) sc
      end
  end.

Definition remove_lost_callback : Status.remove_lost_t A World :=
  fun space is_lost _ '(w, sc) =>
    match sget (tables w) space with
    | None => (false, (w, sc))
    | Some p =>
        let '(ok, p, h, rem, sc) := lost_loop is_lost (order p) p (recs w) (lost w) sc in
        let w := mk_world (sset space p (tables w)) h (err w) (acked w) rem in
        (ok, (if ok then w else set_err (quic_error "internal state error (loss detection). library bug!!") w, sc))
    end.

(** The loop of [remove_acked]: [false] when a skipped number was hit. *)
Fixpoint acked_loop (is_ack : Z -> Z -> Z -> Z -> Z -> Status.AckScan A -> bool * Status.AckScan A)
    (l : list (Z * SentPacket)) (p : table) (acked : list SentPacket) (a : Status.AckScan A)
    : bool * table * list SentPacket * Status.AckScan A :=
  match l with
  | [] => (true, p, acked, a)
  | (k, sent) :: l' =>
      let '(res, a) := is_ack (packet_number sent) (sent_bytes sent) (time_sent sent) (sp_status sent) (largest_ack sent) a in
      if res : bool then
        if PacketStatus.is_skipped (sp_status sent) then (false, p, acked, a)
        else acked_loop is_ack l' (delete k p) (acked ++ [sent]) a
      else acked_loop is_ack l' p acked a
  end.

(** The callback handed to [then]. *)
Definition confirm_acked : Status.then_t A World :=
  fun apply_ack '(w, a) =>
    foldl (fun '(w, a) r =>
             (mk_world (tables w) (mark_as_ack (waiter r) (recs w)) (err w) (acked w) (lost w),
              apply_ack (sent_bytes r) (time_sent r) (sp_status r) a)) (w, a) (acked w).

Definition remove_acked (frame_type : Z) : Status.remove_acked_t A World :=
  fun space is_ack then_ '(w, a) =>
    match sget (tables w) space with
    | None => (false, (w, a))
    | Some p =>
        let '(ok, p, acked, a) := acked_loop is_ack (order p) p (acked w) a in
        let w := mk_world (sset space p (tables w)) (recs w) (err w) acked (lost w) in
        if negb ok
        then (false, (set_err (QUICError "skipped packet number is acknoledged" PROTOCOL_VIOLATION frame_type) w, a))
        else then_ confirm_acked (w, a)
    end.

(** [acked_] and [lost_] are the lists of the caller. *)
Definition on_ack_received (space : PacketNumberSpace) (acked_ : list SentPacket) (lost_ : option (list SentPacket))
    (ack : ACKFrame.t) (limited : bool) (rd : nat -> Z) (x : t * records * Status.t A)
    : option Error * (World * Status.t A) :=
  let '(h, r, s) := x in
  let w := mk_world h r None acked_ lost_ in
  let ty := FrameFlags.type_detail (ACKFrame.type ack) in
  let '(ranges, ok) := convert_from_ACKFrame ack in
  if negb ok then (Some (QUICError "ACK range validation failed" FRAME_ENCODING_ERROR ty), (w, s))
  else
    let ecn := if ty =? FrameType.ACK_ECN
               then Some (mk_ecn (varint.value (FrameAck.ect0 (ACKFrame.ecn_counts ack)))
                                 (varint.value (FrameAck.ect1 (ACKFrame.ecn_counts ack)))
                                 (varint.value (FrameAck.ecn_ce (ACKFrame.ecn_counts ack))))
               else None in
    let '(res, (w, s)) :=
      Status.on_ack_received space (varint.value (ACKFrame.ack_delay ack)) ecn ranges remove_lost_callback limited
        (remove_acked ty) rd (w, s) in
    (if res then None
     else match err w with Some e => Some e | None => Some (quic_error "internal state error. library bug!!") end,
     (w, s)).

(** [rd 0] is read by [is_loss_timeout]. *)
Definition maybe_loss_detection_timeout (lost_ : option (list SentPacket)) (rd : nat -> Z) (x : t * records * Status.t A)
    : option Error * (World * Status.t A) :=
  let '(h, r, s) := x in
  let w := mk_world h r None [] lost_ in
  if negb (Status.is_loss_timeout (rd 0%nat) s) then (None, (w, s))
  else
    let '(res, (w, s)) := Status.on_loss_detection_timeout remove_lost_callback (fun i => rd (S i)) (w, s) in
    (if res then None
     else match err w with Some e => Some e | None => Some (quic_error "internal state error. library bug!!") end,
     (w, s)).

Definition on_packet_number_space_discarded (space : PacketNumberSpace) (rd : nat -> Z) (x : (t * records) * Status.t A)
    : (t * records) * Status.t A :=
  Status.on_packet_number_space_discard space
    (fun apply_remove '((h, r), s) =>
       match sget h space with
       | None => ((h, r), s)
       | Some p =>
           let '(r, s) := foldl (fun '(r, s) '(_, sent) =>
                            (mark_as_lost (waiter sent) r, apply_remove (sent_bytes sent) (sp_status sent) s))
                          (r, s) (order p) in
           ((sset space ∅ h, r), s)
       end) rd x.

Definition on_retry_received (rd : nat -> Z) (x : (t * records) * Status.t A) : (t * records) * Status.t A :=
  Status.on_retry_received
    (fun apply_remove '((h, r), first) =>
       let '(r, first) := foldl (fun '(r, first) '(_, sent) =>
                            if PacketStatus.is_skipped (sp_status sent) then (r, first)
                            else (mark_as_lost (waiter sent) r, apply_remove (time_sent sent) first))
                          (r, first) (order (s_initial h)) in
       let r := foldl (fun r '(_, sent) => mark_as_lost (waiter sent) r) r (order (s_app h)) in
       ((mk_spaces ∅ (s_handshake h) ∅, r), first)) rd x.
End ops.
End SentPacketHistory.

(** * Lemmas *)

Module FlightFacts.
Import SentPacketHistory.

(** ** Sums over a table *)

Definition total (f : SentPacket -> Z) (l : list (Z * SentPacket)) : Z := foldr (fun kx acc => f (snd kx) + acc) 0 l.

Lemma total_perm f l l' : l ≡ₚ l' -> total f l = total f l'.
Proof. induction 1; simpl; lia. Qed.

(** Packets in flight that have to be acknowledged, and bytes in flight. *)
Definition eliciting (x : SentPacket) : Z := if PacketNumberIssuer.counts_in_flight (sp_status x) then 1 else 0.
Definition counted (x : SentPacket) : Z := if PacketStatus.is_byte_counted (sp_status x) then sent_bytes x else 0.
Definition elic (p : table) : Z := total eliciting (map_to_list p).
Definition flight (p : table) : Z := total counted (map_to_list p).
Definition flights (h : t) : Z := flight (s_initial h) + flight (s_handshake h) + flight (s_app h).

Lemma total_delete f (p : table) k x :
  p !! k = Some x -> total f (map_to_list p) = f x + total f (map_to_list (delete k p)).
Proof. intros Hk. by rewrite <- (total_perm f _ _ (map_to_list_delete p k x Hk)). Qed.

Lemma total_insert f (p : table) k x :
  p !! k = None -> total f (map_to_list (<[k := x]> p)) = f x + total f (map_to_list p).
Proof. intros Hk. by rewrite (total_perm f _ _ (map_to_list_insert p k x Hk)). Qed.

Lemma total_empty f : total f (map_to_list (∅ : table)) = 0.
Proof. by rewrite map_to_list_empty. Qed.

(** ** Arithmetic modulo 2^64 *)

Lemma u64_sub_l a b : u64 (u64 a - b) = u64 (a - b).
Proof. unfold u64. apply Zminus_mod_idemp_l. Qed.
Lemma u64_add_l a b : u64 (u64 a + b) = u64 (a + b).
Proof. unfold u64. apply Zplus_mod_idemp_l. Qed.

(** ** Spaces *)

Lemma sget_sset {B} sp (x : B) s sp' :
  sp <> no_space -> sget (sset sp x s) sp' = if decide (sp = sp') then Some x else sget s sp'.
Proof. by destruct sp, sp'. Qed.

Lemma sset_sset {B} sp (x y : B) s : sset sp x (sset sp y s) = sset sp x s.
Proof. by destruct sp. Qed.

Lemma sset_same {B} sp (x : B) s : sget s sp = Some x -> sset sp x s = s.
Proof. destruct sp, s; simpl; congruence. Qed.

Lemma sget_some {B} (s : Spaces B) sp : sp <> no_space -> is_Some (sget s sp).
Proof. destruct sp; simpl; eauto. done. Qed.

(** ** What the accounting looks at *)

(** What is added for a packet when it is sent goes by [is_byte_counted],
    what is subtracted when it is lost by [is_ack_eliciting]: the difference
    stays in flight. *)
Definition leaked (x : SentPacket) : Z :=
  counted x - (if PacketStatus.is_ack_eliciting (sp_status x) then sent_bytes x else 0).
Definition gap (p : table) : Z := total leaked (map_to_list p).
Definition gaps (h : t) : Z := gap (s_initial h) + gap (s_handshake h) + gap (s_app h).

Lemma gaps_sset h sp p p' : sget h sp = Some p -> gaps (sset sp p' h) = gaps h - gap p + gap p'.
Proof. unfold gaps. destruct sp; simpl; intros [= <-]; lia. Qed.
Lemma gaps_delete h sp p k x : sget h sp = Some p -> p !! k = Some x -> gaps (sset sp (delete k p) h) = gaps h - leaked x.
Proof. intros Hp Hk. rewrite (gaps_sset h sp p) by done. unfold gap. rewrite (total_delete leaked p k x Hk). lia. Qed.

Definition space_ok (i : PacketNumberIssuer.t) (p : table) : Prop :=
  PacketNumberIssuer.ack_eliciting_in_flight i = u64 (elic p) /\
  -1 <= PacketNumberIssuer.highest_sent i < 2 ^ 62 /\
  map_Forall (fun k _ => 0 <= k <= PacketNumberIssuer.highest_sent i) p.

Section Accounting.
Context {A : Type} `{Algorithm A}.

Definition issuers_ok (h : t) (iss : Spaces PacketNumberIssuer.t) : Prop :=
  space_ok (s_initial iss) (s_initial h) /\ space_ok (s_handshake iss) (s_handshake h) /\
  space_ok (s_app iss) (s_app h).

(** [X] bytes are in flight besides those of the packets tracked. *)
Definition flight_ok (X : Z) (h : t) (s : Status.t A) : Prop :=
  issuers_ok h (Status.pn_issuers s) /\
  Congestion.bytes_in_flight (Status.cong s) = u64 (X + flights h).

Lemma issuers_get h iss sp p i :
  issuers_ok h iss -> sget h sp = Some p -> sget iss sp = Some i -> space_ok i p.
Proof. intros (H1 & H2 & H3). destruct sp; simpl; naive_solver. Qed.

Lemma issuers_set h iss sp p i :
  issuers_ok h iss -> space_ok i p -> issuers_ok (sset sp p h) (sset sp i iss).
Proof. intros (H1 & H2 & H3) Hp. unfold issuers_ok. destruct sp; simpl; naive_solver. Qed.

Lemma flights_sset h sp p p' : sget h sp = Some p -> flights (sset sp p' h) = flights h - flight p + flight p'.
Proof. unfold flights. destruct sp; simpl; intros [= <-]; lia. Qed.

Lemma flight_ok_ext X X' h s s' :
  flight_ok X h s -> Status.pn_issuers s' = Status.pn_issuers s ->
  Congestion.bytes_in_flight (Status.cong s') = u64 (Congestion.bytes_in_flight (Status.cong s) + (X' - X)) ->
  flight_ok X' h s'.
Proof.
  intros [H1 H2] E1 E2. split; [by rewrite E1 |]. rewrite E2, H2, u64_add_l. f_equal. lia.
Qed.

Lemma flight_ok_same X h s s' :
  flight_ok X h s -> Status.pn_issuers s' = Status.pn_issuers s ->
  Congestion.bytes_in_flight (Status.cong s') = Congestion.bytes_in_flight (Status.cong s) -> flight_ok X h s'.
Proof. intros [H1 H2] E1 E2. split; [by rewrite E1 | by rewrite E2]. Qed.

Lemma set_timer_same n1 n2 (s : Status.t A) :
  Status.pn_issuers (Status.set_loss_detection_timer n1 n2 s) = Status.pn_issuers s /\
  Status.cong (Status.set_loss_detection_timer n1 n2 s) = Status.cong s.
Proof. unfold Status.set_loss_detection_timer. by destruct (LossTimer.set_loss_detection_timer _ _ _ _ _ _ _ _). Qed.

(** ** One packet leaves the table *)

Lemma decrement_ok i p k x :
  space_ok i p -> p !! k = Some x ->
  space_ok (PacketNumberIssuer.decrement_ack_eliciting_in_flight (sp_status x) i) (delete k p).
Proof.
  intros (H1 & H2 & H3) Hk. unfold elic in H1. rewrite (total_delete _ _ _ _ Hk) in H1. unfold eliciting in H1 at 1.
  unfold space_ok, PacketNumberIssuer.decrement_ack_eliciting_in_flight.
  destruct (PacketNumberIssuer.counts_in_flight (sp_status x)); cbn.
  - split_and!; [rewrite H1, u64_sub_l; f_equal; unfold elic; lia | lia | lia |].
    by apply map_Forall_delete.
  - split_and!; [done | lia | lia | by apply map_Forall_delete].
Qed.

(** The packet leaves the table of its space and the counter of the issuer;
    its bytes go from [h] to [X]. *)
Lemma remove_one X h sp p k x (s : Status.t A) :
  flight_ok X h s -> sget h sp = Some p -> p !! k = Some x ->
  flight_ok (X + counted x) (sset sp (delete k p) h)
    (Status.update_issuer sp (PacketNumberIssuer.decrement_ack_eliciting_in_flight (sp_status x)) s).
Proof.
  intros [H1 H2] Hp Hk. unfold Status.update_issuer.
  assert (Hi : is_Some (sget (Status.pn_issuers s) sp)) by (destruct sp; simpl in *; naive_solver).
  destruct Hi as [i Hi]. rewrite Hi. split.
  - cbn. apply issuers_set; [done |]. apply decrement_ok; [by eapply issuers_get | done].
  - cbn. rewrite H2, (flights_sset h sp p) by done. f_equal. unfold flight. rewrite (total_delete _ p k x Hk). lia.
Qed.

(** A lost packet takes its bytes along, but for what it leaks. *)
Lemma is_lost_flight K h sp p k x delay before la (sc : Status.LostScan A) :
  flight_ok (K - gaps h) h (Status.sc_status sc) -> sget h sp = Some p -> p !! k = Some x ->
  let '(res, sc') := Status.is_lost sp delay before la (packet_number x) (sent_bytes x) (time_sent x) (sp_status x) sc in
  let h' := match res with not_lost | lost_invalid => h | _ => sset sp (delete k p) h end in
  flight_ok (K - gaps h') h' (Status.sc_status sc').
Proof.
  intros Hf Hp Hk. unfold Status.is_lost. destruct (Status.call_cong_cb_once sc); [done |].
  destruct (_ <? _); [done |]. destruct (_ || _) eqn:E.
  - pose proof (remove_one _ h sp p k x _ Hf Hp Hk) as H1.
    set (s1 := Status.update_issuer _ _ _) in *. unfold PacketNumberIssuer.on_packet_lost. fold s1.
    unfold Congestion.on_packet_lost. pose proof (gaps_delete h sp p k x Hp Hk) as Hg. unfold leaked in Hg.
    destruct (PacketStatus.is_ack_eliciting (sp_status x)); cbn [negb].
    + assert (forall c, Congestion.bytes_in_flight c = u64 (Congestion.bytes_in_flight (Status.cong s1) - sent_bytes x) ->
        flight_ok (K - gaps (sset sp (delete k p) h)) (sset sp (delete k p) h) (Status.set_cong c s1)) as Hgo.
      { intros c Hc. eapply (flight_ok_ext _ _ _ _ _ H1); [done |]. cbn [Status.cong Status.set_cong]. rewrite Hc, Hg. f_equal. lia. }
      destruct (PacketStatus.is_mtu_probe _), (_ <=? _); by apply Hgo.
    + assert (Ek : K - gaps h + counted x = K - gaps (sset sp (delete k p) h)) by lia. rewrite Ek in H1.
      destruct (_ <=? _); by apply (flight_ok_same _ _ _ _ H1).
  - by apply (flight_ok_same _ _ _ _ Hf).
Qed.

(** The entries still to be visited are in the table. *)
Definition listed (l : list (Z * SentPacket)) (p : table) : Prop :=
  NoDup (l.*1) /\ Forall (fun kx => p !! kx.1 = Some kx.2) l.

Lemma listed_cons k x l p : listed ((k, x) :: l) p -> p !! k = Some x /\ listed l p /\ listed l (delete k p).
Proof.
  intros [Hn Hf]. apply Forall_cons in Hf as [Hk Hf]. apply NoDup_cons in Hn as [Hkl Hn]. simpl in *.
  split_and!; [done | by split | split; [done |]].
  apply Forall_forall. intros [k' x'] Hin. pose proof (proj1 (Forall_forall _ _) Hf _ Hin) as H1.
  simpl in *. rewrite lookup_delete_ne; [done |]. intros ->. apply Hkl, list_elem_of_fmap. by exists (k', x').
Qed.

Lemma order_listed (order : gmap Z SentPacket -> list (Z * SentPacket)) p : order p ≡ₚ map_to_list p -> listed (order p) p.
Proof.
  intros Ho. split.
  - rewrite Ho. apply NoDup_fst_map_to_list.
  - rewrite Ho. apply Forall_forall. by intros [k x] Hin%elem_of_map_to_list.
Qed.

Section Order.
Context (order : gmap Z SentPacket -> list (Z * SentPacket)) (order_ok : forall p, order p ≡ₚ map_to_list p).

(** ** Loss detection *)

Lemma lost_loop_flight K h sp delay before la l : forall p r rem (sc : Status.LostScan A),
  sp <> no_space -> flight_ok (K - gaps (sset sp p h)) (sset sp p h) (Status.sc_status sc) -> listed l p ->
  let '(_, p', _, _, sc') := lost_loop (Status.is_lost sp delay before la) l p r rem sc in
  flight_ok (K - gaps (sset sp p' h)) (sset sp p' h) (Status.sc_status sc').
Proof.
  induction l as [| [k x] l IH]; intros p r rem sc Hsp Hf Hl; [done |]. cbn [lost_loop].
  apply listed_cons in Hl as (Hk & Hl & Hld).
  pose proof (is_lost_flight K (sset sp p h) sp p k x delay before la sc Hf
    ltac:(rewrite sget_sset by done; by rewrite decide_True) Hk) as H1.
  destruct (Status.is_lost _ _ _ _ _ _ _ _ sc) as [res sc']. rewrite sset_sset in H1.
  destruct res; [by apply IH | by apply IH | by apply IH | done].
Qed.

Lemma tables_ok X h sp (s : Status.t A) :
  sp <> no_space -> flight_ok X h s -> exists p i, sget h sp = Some p /\ sget (Status.pn_issuers s) sp = Some i /\ space_ok i p.
Proof.
  intros Hsp [Hi _]. destruct (sget_some h sp Hsp) as [p Hp]. destruct (sget_some (Status.pn_issuers s) sp Hsp) as [i Hi'].
  exists p, i. split_and!; [done | done |]. by eapply issuers_get.
Qed.

Lemma remove_lost_flight K sp delay before la cb w (sc : Status.LostScan A) :
  sp <> no_space -> flight_ok (K - gaps (tables w)) (tables w) (Status.sc_status sc) ->
  let '(_, (w', sc')) := remove_lost_callback order sp (Status.is_lost sp delay before la) cb (w, sc) in
  flight_ok (K - gaps (tables w')) (tables w') (Status.sc_status sc') /\ acked w' = acked w.
Proof.
  intros Hsp Hf. unfold remove_lost_callback. destruct (tables_ok _ _ sp _ Hsp Hf) as (p & i & Hp & _ & _). rewrite Hp.
  pose proof (lost_loop_flight K (tables w) sp delay before la (order p) p (recs w) (lost w) sc Hsp) as H1.
  rewrite sset_same in H1 by done. specialize (H1 Hf (order_listed order p (order_ok p))).
  destruct (lost_loop _ _ _ _ _ _) as [[[[ok p'] r'] rem'] sc']. destruct ok; done.
Qed.

Lemma packets_lost_bytes last config psize rtt pto now (c : Congestion.t A) :
  Congestion.bytes_in_flight (Congestion.on_packets_lost last config psize rtt pto now (fun _ c => c) c) =
  Congestion.bytes_in_flight c.
Proof.
  unfold Congestion.on_packets_lost. assert (Hev : Congestion.bytes_in_flight
    (if 0 <? last then Congestion.on_congestion_event config psize last c else c) = Congestion.bytes_in_flight c).
  { destruct (0 <? last); [| done]. unfold Congestion.on_congestion_event. destruct (Congestion.in_congestion_recovery _ _); [done |].
    by destruct (alg_on_congestion_event _ _). }
  destruct (negb _); [done |]. by destruct (negb _).
Qed.

Lemma detect_flight K sp must n1 n2 w (s : Status.t A) :
  flight_ok (K - gaps (tables w)) (tables w) s ->
  let '(_, (w', s')) := Status.detect_and_remove_lost_packet (remove_lost_callback order) sp must n1 n2 (w, s) in
  flight_ok (K - gaps (tables w')) (tables w') s' /\ acked w' = acked w.
Proof.
  intros Hf. unfold Status.detect_and_remove_lost_packet.
  destruct (sget (Status.pn_issuers s) sp) as [i |] eqn:Hi; [| done]. assert (Hsp : sp <> no_space) by (by intros ->). destruct (negb (time.valid _)); [done |].
  set (s1 := Status.set_loss _ s). assert (Hf1 : flight_ok (K - gaps (tables w)) (tables w) s1) by (by apply (flight_ok_same _ _ _ _ Hf)).
  pose proof (remove_lost_flight K sp (Status.loss_delay s) (s64 (n1 - Status.loss_delay s))
    (PacketNumberIssuer.largest_acked_packet i) (Status.congestion_callback n2) w (Status.mk_scan s1 0 false false) Hsp Hf1) as H1.
  destruct (remove_lost_callback _ _ _ _ _) as [ok [w' sc']]. destruct H1 as [H1 H2]. destruct ok; cbn [negb]; [| done].
  split; [| done]. unfold Status.congestion_callback. destruct (Status.call_cong_cb_once sc'); [done |].
  destruct (negb _); [done |]. apply (flight_ok_same _ _ _ _ H1); [done |]. cbn. apply packets_lost_bytes.
Qed.

(** ** Acknowledgements *)

Definition counted_sum (l : list SentPacket) : Z := foldr (fun x n => counted x + n) 0 l.

Lemma counted_sum_snoc l x : counted_sum (l ++ [x]) = counted_sum l + counted x.
Proof. unfold counted_sum. induction l as [| y l IH]; simpl; lia. Qed.

Definition leaked_sum (l : list SentPacket) : Z := foldr (fun x n => leaked x + n) 0 l.
Lemma leaked_sum_snoc l x : leaked_sum (l ++ [x]) = leaked_sum l + leaked x.
Proof. unfold leaked_sum. induction l as [| y l IH]; simpl; lia. Qed.

(** What the packets leak that left the tables of [h] without an
    acknowledgement. *)
Definition loss_leak (h : t) (w : World) : Z := gaps h - leaked_sum (acked w) - gaps (tables w).

Lemma acked_loop_flight X h sp ranges lg sm l : forall p acked (a : Status.AckScan A),
  sp <> no_space -> flight_ok (X + counted_sum acked) (sset sp p h) (Status.ac_status a) -> listed l p ->
  let '(ok, p', acked', a') := acked_loop (Status.is_ack sp ranges lg sm) l p acked a in
  ok = true -> flight_ok (X + counted_sum acked') (sset sp p' h) (Status.ac_status a') /\
    gaps (sset sp p' h) + leaked_sum acked' = gaps (sset sp p h) + leaked_sum acked.
Proof.
  induction l as [| [k x] l IH]; intros p acked a Hsp Hf Hl; [by intros _ |]. cbn [acked_loop].
  apply listed_cons in Hl as (Hk & Hl & Hld). unfold Status.is_ack at 1.
  destruct (negb (Status.in_ack_ranges _ _ _ _)); [by apply IH |].
  destruct (PacketStatus.is_skipped (sp_status x)); [done |].
  assert (Hg : sget (sset sp p h) sp = Some p) by (rewrite sget_sset by done; by rewrite decide_True).
  pose proof (remove_one _ _ sp p k x _ Hf Hg Hk) as H1. pose proof (gaps_delete _ sp p k x Hg Hk) as H2.
  rewrite sset_sset in H1, H2. rewrite <- Z.add_assoc, <- counted_sum_snoc in H1.
  match goal with |- context [acked_loop _ l ?p1 ?acked1 ?a1] => specialize (IH p1 acked1 a1 Hsp) end.
  destruct (acked_loop _ l _ _ _) as [[[ok p'] acked'] a']. intros Eok.
  destruct IH as [IH1 IH2]; [by apply (flight_ok_same _ _ _ _ H1) | done | done |]. split; [done |].
  rewrite leaked_sum_snoc in IH2. lia.
Qed.

Lemma packet_ack_bytes config psize bytes time st limited (c : Congestion.t A) :
  Congestion.bytes_in_flight (Congestion.on_packet_ack config psize bytes time st limited c) =
  if PacketStatus.is_byte_counted st then u64 (Congestion.bytes_in_flight c - bytes) else Congestion.bytes_in_flight c.
Proof.
  unfold Congestion.on_packet_ack. destruct (PacketStatus.is_byte_counted st); cbn [negb]; [| done].
  destruct limited; [done |]. destruct (Congestion.in_congestion_recovery _ _); [done |].
  by destruct (alg_on_packet_ack _ _ _).
Qed.

Lemma confirm_flight X limited l : forall w (a : Status.AckScan A),
  flight_ok (X + counted_sum l) (tables w) (Status.ac_status a) ->
  let '(w', a') := foldl (fun '(w, a) r =>
      (mk_world (tables w) (mark_as_ack (waiter r) (recs w)) (err w) (acked w) (lost w),
       Status.apply_ack limited (sent_bytes r) (time_sent r) (sp_status r) a)) (w, a) l in
  flight_ok X (tables w') (Status.ac_status a') /\ tables w' = tables w /\ acked w' = acked w.
Proof.
  induction l as [| x l IH]; intros w a Hf; cbn [foldl].
  { by rewrite Z.add_0_r in Hf. }
  change (counted_sum (x :: l)) with (counted x + counted_sum l) in Hf.
  apply (IH (mk_world _ _ _ _ _)). cbn [tables]. apply (flight_ok_ext _ _ _ _ _ Hf); [done |]. cbn. rewrite packet_ack_bytes. unfold counted in *.
  destruct (PacketStatus.is_byte_counted (sp_status x)); [f_equal; lia |].
  destruct Hf as [_ Hb]. rewrite Hb, u64_add_l. f_equal. lia.
Qed.

(** A change of an issuer that the accounting does not look at. *)
Lemma issuer_flight X h sp i i' (s : Status.t A) :
  flight_ok X h s -> sget (Status.pn_issuers s) sp = Some i ->
  PacketNumberIssuer.ack_eliciting_in_flight i' = PacketNumberIssuer.ack_eliciting_in_flight i ->
  PacketNumberIssuer.highest_sent i' = PacketNumberIssuer.highest_sent i ->
  flight_ok X h (Status.set_issuers (sset sp i' (Status.pn_issuers s)) s).
Proof.
  intros [Hi1 Hb] Hi E1 E2. split; [| done]. cbn.
  destruct (sget h sp) as [p |] eqn:Hp; [| destruct sp; done]. rewrite <- (sset_same sp p h Hp).
  apply issuers_set; [done |]. pose proof (issuers_get _ _ _ _ _ Hi1 Hp Hi) as Hs. unfold space_ok in *. by rewrite E1, E2.
Qed.

Lemma ecn_flight X h sp e time (s : Status.t A) :
  flight_ok X h s -> flight_ok X h (Status.process_ecn sp e time s).
Proof.
  intros Hf. unfold Status.process_ecn. destruct (sget (Status.pn_issuers s) sp) as [i |] eqn:Hi; [| done].
  unfold PacketNumberIssuer.is_ecn_ce_updated. destruct (_ <? _); [| by apply (issuer_flight _ _ _ i)].
  set (i' := PacketNumberIssuer.mk _ _ _ _ _ _).
  apply (flight_ok_same _ _ _ _ (issuer_flight X h sp i i' s Hf Hi eq_refl eq_refl)); [done |]. cbn.
  unfold Congestion.on_congestion_event. destruct (Congestion.in_congestion_recovery _ _); [done |].
  by destruct (alg_on_congestion_event _ _).
Qed.

Lemma sample_flight X h delay lg rd (a : Status.AckScan A) :
  flight_ok X h (Status.ac_status a) -> flight_ok X h (Status.ac_status (snd (Status.ack_sample delay lg rd a))).
Proof.
  intros Hf. unfold Status.ack_sample. destruct (_ && _); [| done]. destruct (RTT.sample_rtt _ _ _ _ _).
  by apply (flight_ok_same _ _ _ _ Hf).
Qed.

Lemma after_flight X sp delay ecn lg limited rd w (a : Status.AckScan A) :
  sp <> no_space -> flight_ok (X + counted_sum (acked w)) (tables w) (Status.ac_status a) ->
  let '(ok, (w', a')) := Status.after_remove_acked_packets sp delay ecn lg (remove_lost_callback order) limited rd
                           confirm_acked (w, a) in
  ok = true -> flight_ok (X + gaps (tables w) - gaps (tables w')) (tables w') (Status.ac_status a') /\ acked w' = acked w.
Proof.
  intros Hsp Hf. unfold Status.after_remove_acked_packets. destruct (1 <=? _); [done |]. set (a1 := Status.mk_ack_scan _ _ _ _ _ _ _ _).
  pose proof (sample_flight _ _ delay lg rd a1 Hf) as Hs. destruct (Status.ack_sample delay lg rd a1) as [ok1 a2]. cbn [snd] in Hs.
  destruct ok1; cbn [negb]; [| done].
  set (a3 := match ecn with Some _ => _ | None => _ end).
  assert (Hf3 : flight_ok (X + counted_sum (acked w)) (tables w) (Status.ac_status a3))
    by (subst a3; destruct ecn; [by apply ecn_flight | done]).
  pose proof (detect_flight (X + counted_sum (acked w) + gaps (tables w)) sp false (rd 2%nat) (rd 3%nat) w (Status.ac_status a3)) as Hd.
  rewrite Z.add_simpl_r in Hd. specialize (Hd Hf3).
  destruct (Status.detect_and_remove_lost_packet _ _ _ _ _ _) as [ok2 [w2 s2]]. destruct Hd as [Hd Hw2].
  destruct ok2; cbn [negb]; [| done]. unfold confirm_acked. rewrite <- Hw2 in Hd.
  pose proof (confirm_flight (X + gaps (tables w) - gaps (tables w2)) limited (acked w2) w2 (Status.set_ac_status s2 a3)) as Hc.
  replace (X + gaps (tables w) - gaps (tables w2) + counted_sum (acked w2))
    with (X + counted_sum (acked w2) + gaps (tables w) - gaps (tables w2)) in Hc by lia. specialize (Hc Hd).
  destruct (foldl _ _ _) as [w4 a4]. destruct Hc as (Hc & Et & Ea). intros _. cbn [Status.ac_status]. split; [| congruence].
  set (s5 := Status.set_pto _ _). destruct (set_timer_same (rd 4%nat) (rd 5%nat) s5) as [E1 E2]. rewrite Et in Hc |- *.
  apply (flight_ok_same _ _ _ _ Hc); [by rewrite E1 | by rewrite E2].
Qed.

Lemma update_issuer_flight X h sp f (s : Status.t A) :
  flight_ok X h s ->
  (forall i, PacketNumberIssuer.ack_eliciting_in_flight (f i) = PacketNumberIssuer.ack_eliciting_in_flight i /\
             PacketNumberIssuer.highest_sent (f i) = PacketNumberIssuer.highest_sent i) ->
  flight_ok X h (Status.update_issuer sp f s).
Proof.
  intros Hf Hk. unfold Status.update_issuer. destruct (sget (Status.pn_issuers s) sp) as [i |] eqn:Hi; [| done].
  destruct (Hk i). by apply (issuer_flight _ _ _ i).
Qed.

Lemma remove_acked_flight X ty sp ranges lg sm delay ecn limited rd w (a : Status.AckScan A) :
  sp <> no_space -> flight_ok (X + counted_sum (acked w)) (tables w) (Status.ac_status a) ->
  let '(ok, (w', a')) := remove_acked order ty sp (Status.is_ack sp ranges lg sm)
    (Status.after_remove_acked_packets sp delay ecn lg (remove_lost_callback order) limited rd) (w, a) in
  ok = true -> flight_ok (X + loss_leak (tables w) w' + leaked_sum (acked w)) (tables w') (Status.ac_status a').
Proof.
  intros Hsp Hf. unfold remove_acked. destruct (tables_ok _ _ sp _ Hsp Hf) as (p & i & Hp & _ & _). rewrite Hp.
  pose proof (acked_loop_flight X (tables w) sp ranges lg sm (order p) p (acked w) a Hsp) as H1.
  rewrite sset_same in H1 by done. specialize (H1 Hf (order_listed order p (order_ok p))).
  destruct (acked_loop _ _ _ _ _) as [[[ok p'] acked'] a']. destruct ok; cbn [negb]; [| done].
  specialize (H1 eq_refl) as [H1 Hg].
  pose proof (after_flight X sp delay ecn lg limited rd (mk_world (sset sp p' (tables w)) (recs w) (err w) acked' (lost w)) a' Hsp H1) as H2.
  destruct (Status.after_remove_acked_packets _ _ _ _ _ _ _ _ _) as [ok [w' a'']]. intros E. destruct (H2 E) as [H3 H4].
  cbn [tables acked] in H3, H4. unfold loss_leak. rewrite H4.
  replace (X + _ + _) with (X + gaps (sset sp p' (tables w)) - gaps (tables w')) by lia. done.
Qed.

Lemma ack_flight X sp lost_ ack limited rd h r (s : Status.t A) :
  sp <> no_space -> flight_ok X h s ->
  let '(e, (w', s')) := on_ack_received order sp [] lost_ ack limited rd (h, r, s) in
  e = None -> flight_ok (X + loss_leak h w') (tables w') s'.
Proof.
  intros Hsp Hf. unfold on_ack_received. destruct (convert_from_ACKFrame ack) as [ranges ok]. destruct ok; cbn [negb]; [| done].
  set (ecn := if FrameFlags.type_detail (ACKFrame.type ack) =? FrameType.ACK_ECN then _ else None). unfold Status.on_ack_received.
  destruct ranges as [| r0 rs]; [done |]. destruct (last (r0 :: rs)) as [rn |]; [| done].
  set (s1 := Status.update_issuer _ _ _).
  assert (Hf1 : flight_ok (X + counted_sum []) h s1).
  { cbn. rewrite Z.add_0_r. apply update_issuer_flight; [by apply (flight_ok_same _ _ _ _ Hf) |].
    intros i. unfold PacketNumberIssuer.on_ack_received. by destruct (_ || _). }
  pose proof (remove_acked_flight X (FrameFlags.type_detail (ACKFrame.type ack)) sp (r0 :: rs) (largest r0) (smallest rn)
    (varint.value (ACKFrame.ack_delay ack)) ecn limited rd (mk_world h r None [] lost_)
    (Status.mk_ack_scan s1 false packetnum.infinity 0 0 0 0 false) Hsp Hf1) as H1.
  destruct (remove_acked _ _ _ _ _ _) as [ok [w' a']]. destruct ok; cbn [negb]; [specialize (H1 eq_refl); cbn [acked tables leaked_sum foldr] in H1; rewrite Z.add_0_r in H1 | by destruct (err w')].
  destruct (_ || _); [by destruct (err w') |]. destruct (Status.after_call_res a'); [done | by destruct (err w')].
Qed.

(** ** The loss timer *)

Lemma timeout_flight X lost_ rd h r (s : Status.t A) :
  flight_ok X h s ->
  let '(_, (w', s')) := maybe_loss_detection_timeout order lost_ rd (h, r, s) in flight_ok (X + loss_leak h w') (tables w') s'.
Proof.
  intros Hf. assert (Hno : forall w s', tables w = h -> acked w = [] -> flight_ok X h s' -> flight_ok (X + loss_leak h w) (tables w) s').
  { intros w s' Et Ea Hs. unfold loss_leak. rewrite Et, Ea. cbn. replace (X + _) with X by lia. done. }
  unfold maybe_loss_detection_timeout. destruct (negb _); [by apply Hno |]. unfold Status.on_loss_detection_timeout.
  assert (Hset : forall Y w n1 n2 s', flight_ok Y (tables w) s' -> flight_ok Y (tables w) (Status.set_loss_detection_timer n1 n2 s')).
  { intros Y w n1 n2 s' Hs. destruct (set_timer_same n1 n2 s') as [E1 E2].
    apply (flight_ok_same _ _ _ _ Hs); [by rewrite E1 | by rewrite E2]. }
  destruct (LossTimer.state (Status.loss s)); try (by apply Hno).
  - pose proof (detect_flight (X + gaps h) (LossTimer.timer_space (Status.loss s)) true (rd 1%nat) (rd 2%nat) (mk_world h r None [] lost_) s) as Hd.
    cbn [tables acked] in Hd. rewrite Z.add_simpl_r in Hd. specialize (Hd Hf).
    destruct (Status.detect_and_remove_lost_packet _ _ _ _ _ _) as [ok [w' s']]. destruct Hd as [Hd Ha].
    assert (Hd' : flight_ok (X + loss_leak h w') (tables w') s').
    { unfold loss_leak. rewrite Ha. cbn. replace (X + _) with (X + gaps h - gaps (tables w')) by lia. done. }
    destruct ok; cbn [negb]; [by apply Hset | done].
  - apply Hset, Hno; [done | done |]. unfold Status.on_pto_timeout.
    destruct (_ && _); [destruct (HandshakeStatus.handshake_packet_is_sent _) |]; by apply (flight_ok_same _ _ _ _ Hf).
Qed.

(** ** Sending *)

Lemma emplace_skipped_spec x pns : forall (p : table),
  NoDup pns -> Forall (fun i => 0 <= i < 2 ^ 62 /\ p !! i = None) pns -> eliciting x = 0 -> counted x = 0 ->
  exists p', emplace_skipped pns x p = (true, p') /\ elic p' = elic p /\ flight p' = flight p /\
    forall k, p' !! k = if bool_decide (k ∈ pns) then Some x else p !! k.
Proof.
  induction pns as [| i pns IH]; intros p Hn Hf He Hc.
  { exists p. split_and!; [done.. |]. intros k. by rewrite bool_decide_eq_false_2 by set_solver. }
  apply NoDup_cons in Hn as [Hi Hn]. apply Forall_cons in Hf as [[Hir Hip] Hf].
  cbn [emplace_skipped]. rewrite u64_small by (unfold is_u64; lia). unfold try_emplace. rewrite Hip. cbn [negb].
  destruct (IH (<[i := x]> p) Hn) as (p' & -> & H1 & H2 & H3); [| done | done |].
  { apply Forall_forall. intros j Hj. destruct (proj1 (Forall_forall _ _) Hf j Hj) as [Hj1 Hj2].
    split; [done |]. rewrite lookup_insert_ne; [done |]. intros ->. done. }
  unfold elic, flight in *. rewrite total_insert in H1, H2 by done. exists p'. split_and!; [done | lia | lia |].
  intros k. rewrite H3. destruct (decide (k = i)) as [-> |].
  - rewrite bool_decide_eq_false_2 by done. rewrite bool_decide_eq_true_2 by set_solver. rewrite lookup_insert. by case_decide.
  - rewrite lookup_insert_ne by done. assert (k ∈ i :: pns <-> k ∈ pns) as Hk by set_solver.
    by rewrite (bool_decide_ext _ _ Hk).
Qed.

(** Registering the skipped numbers and the packet. *)
Lemma register_ok i p pn (x : SentPacket) time :
  space_ok i p -> PacketNumberIssuer.highest_sent i < pn < 2 ^ 62 ->
  let first := PacketNumberIssuer.highest_sent i + 1 in
  exists p1 p2, emplace_skipped (seqZ first (pn - first)) (skipped_packet time) p = (true, p1) /\
    try_emplace pn x p1 = (true, p2) /\ elic p2 = elic p + eliciting x /\ flight p2 = flight p + counted x /\
    map_Forall (fun k _ => 0 <= k <= pn) p2.
Proof.
  intros (H1 & H2 & H3) Hpn. cbv zeta. set (hi := PacketNumberIssuer.highest_sent i) in *.
  assert (Hfresh : forall k, hi < k -> p !! k = None).
  { intros k Hk. destruct (p !! k) as [y |] eqn:E; [| done]. pose proof (H3 k y E). cbn in *. lia. }
  destruct (emplace_skipped_spec (skipped_packet time) (seqZ (hi + 1) (pn - (hi + 1))) p) as (p1 & E1 & Hel & Hfl & Hlk);
    [apply NoDup_seqZ | | done | done |].
  { apply Forall_forall. intros k Hk%elem_of_seqZ. split; [lia |]. apply Hfresh. lia. }
  exists p1, (<[pn := x]> p1). assert (Hp1 : p1 !! pn = None).
  { rewrite Hlk, bool_decide_eq_false_2 by (rewrite elem_of_seqZ; lia). apply Hfresh. lia. }
  unfold try_emplace. rewrite Hp1. unfold elic, flight in *. rewrite !total_insert by done.
  split_and!; [done | done | lia | lia |].
  intros k y. destruct (decide (k = pn)) as [-> |].
  - rewrite lookup_insert. case_decide; [| done]. intros [= <-]. lia.
  - rewrite lookup_insert_ne, Hlk by done. case_bool_decide as Hin.
    + apply elem_of_seqZ in Hin. intros [= <-]. lia.
    + intros Hy. pose proof (H3 k y Hy). cbn in *. lia.
Qed.

Lemma sent_issuer_ok now pn st i range i' p x p2 :
  0 <= pn < 2 ^ 62 -> PacketNumberIssuer.on_packet_sent now pn st i = (Some range, i') -> space_ok i p -> sp_status x = st ->
  elic p2 = elic p + eliciting x -> map_Forall (fun k _ => 0 <= k <= pn) p2 -> space_ok i' p2.
Proof.
  intros Hpn E (H1 & H2 & H3) <- Hel Hp2. unfold PacketNumberIssuer.on_packet_sent in E.
  destruct (_ || _); [done |]. injection E as <- <-. rewrite s64_small in * by (unfold is_s64; lia).
  unfold space_ok. cbn. split_and!; [| lia | lia | done]. rewrite Hel. unfold eliciting.
  destruct (PacketNumberIssuer.counts_in_flight (sp_status x)); [by rewrite H1, u64_add_l | by rewrite H1, Z.add_0_r].
Qed.

Lemma sent_bytes_in_flight sent time (c : Congestion.t A) :
  Congestion.bytes_in_flight (if PacketStatus.is_byte_counted (sp_status sent)
     then Congestion.on_packet_sent (sent_bytes sent) time c else c) =
  if PacketStatus.is_byte_counted (sp_status sent) then u64 (Congestion.bytes_in_flight c + sent_bytes sent)
  else Congestion.bytes_in_flight c.
Proof. by destruct (PacketStatus.is_byte_counted _). Qed.

Lemma sent_flight X h sp sent rd (s : Status.t A) :
  flight_ok X h s -> 0 <= packet_number sent < 2 ^ 62 ->
  match on_packet_sent sp sent rd (h, s) with
  | None => True
  | Some (e, (h', s')) => flight_ok X h' s' /\ (e = None \/ e = Some bad_order)
  end.
Proof.
  intros Hf Hpn. unfold on_packet_sent, Status.on_packet_sent. destruct (decide (sp = no_space)) as [-> | Hsp]; [by split; [| right] |].
  destruct (tables_ok _ _ sp _ Hsp Hf) as (p & i & Hp & Hi & Hok). rewrite Hi, Hp. set (x := set_time_sent (rd 0%nat) sent).
  destruct (PacketNumberIssuer.on_packet_sent _ _ _ _) as [[[a b] |] i'] eqn:E; cycle 1.
  { unfold PacketNumberIssuer.on_packet_sent in E. destruct (_ || _); [| done]. injection E as <-. cbn.
    split; [| by right]. apply (flight_ok_same _ _ _ _ Hf); [cbn; by apply sset_same | done]. }
  destruct (register_ok i p (packet_number x) x (time_sent x) Hok) as (p1 & p2 & E1 & E2 & Hel & Hfl & Hp2).
  { unfold PacketNumberIssuer.on_packet_sent in E. destruct (_ || _) eqn:Ec in E; [done |]. apply orb_false_iff in Ec as [Ec _].
    rewrite s64_small in Ec by (unfold is_s64; subst x; cbn in *; lia). apply Z.leb_gt in Ec. subst x; cbn in *. lia. }
  pose proof (sent_issuer_ok _ _ _ _ _ _ p x p2 Hpn E Hok eq_refl Hel Hp2) as Hok'.
  assert (a = PacketNumberIssuer.highest_sent i + 1 /\ b = packet_number x) as [-> ->].
  { unfold PacketNumberIssuer.on_packet_sent in E. destruct (_ || _); [done |]. injection E as <- <- _.
    destruct Hok as (_ & Hh & _). rewrite !s64_small by (unfold is_s64; lia). done. }
  cbn zeta. set (s1 := if PacketStatus.is_byte_counted (sp_status x) then _ else _).
  assert (Hs1 : Status.pn_issuers s1 = sset sp i' (Status.pn_issuers s) /\
    Congestion.bytes_in_flight (Status.cong s1) = u64 (Congestion.bytes_in_flight (Status.cong s) + counted x)).
  { subst s1. unfold counted. destruct (PacketStatus.is_byte_counted (sp_status x)).
    - match goal with |- context [Status.set_loss_detection_timer ?n1 ?n2 ?s0] => destruct (set_timer_same n1 n2 s0) as [-> ->] end. done.
    - split; [done |]. destruct Hf as [_ Hb]. cbn. by rewrite Hb, u64_add_l, Z.add_0_r. }
  destruct (Pacer.maybe_update_timer _ _ _ _ _ _) as [pc |]; [| done].
  rewrite E1. cbn [negb]. rewrite E2. split; [| by left]. destruct Hs1 as [Hi1 Hb1]. destruct Hf as [Hiss Hb]. split.
  - cbn. rewrite Hi1. by apply issuers_set.
  - cbn. rewrite Hb1, Hb, u64_add_l, (flights_sset h sp p) by done. f_equal. lia.
Qed.

(** ** Discarded spaces and Retry *)

Lemma discard_bytes (f : option positive -> records -> records) l : forall r (s : Status.t A),
  let '(_, s') := foldl (fun '(r, s) '((_, sent) : Z * SentPacket) =>
      (f (waiter sent) r, Status.set_cong (Congestion.on_packet_number_space_discard (sent_bytes sent) (sp_status sent) (Status.cong s)) s))
    (r, s) l in
  Status.pn_issuers s' = Status.pn_issuers s /\
  forall n, Congestion.bytes_in_flight (Status.cong s) = u64 (n + total counted l) ->
            Congestion.bytes_in_flight (Status.cong s') = u64 n.
Proof.
  induction l as [| [k x] l IH]; intros r s; cbn [foldl].
  { split; [done |]. intros n ->. by rewrite Z.add_0_r. }
  specialize (IH (f (waiter x) r) (Status.set_cong (Congestion.on_packet_number_space_discard (sent_bytes x) (sp_status x) (Status.cong s)) s)).
  destruct (foldl _ _ l) as [r' s']. destruct IH as [-> IH]. split; [done |]. intros n Hn. apply IH. cbn.
  change (total counted ((k, x) :: l)) with (counted x + total counted l) in Hn. unfold counted at 1 in Hn.
  unfold Congestion.on_packet_number_space_discard. destruct (PacketStatus.is_byte_counted (sp_status x)); cbn; rewrite Hn; [| done].
  rewrite u64_sub_l. f_equal. lia.
Qed.

(** The space starts over with an empty table. *)
Lemma empty_ok i i' p :
  space_ok i p -> PacketNumberIssuer.ack_eliciting_in_flight i' = 0 ->
  PacketNumberIssuer.highest_sent i' = PacketNumberIssuer.highest_sent i \/ PacketNumberIssuer.highest_sent i' = -1 ->
  space_ok i' ∅.
Proof.
  intros (_ & H2 & _) E Eh. split_and!; [by rewrite E; unfold elic; rewrite total_empty | lia | lia | apply map_Forall_empty].
Qed.

Lemma update_get sp f (s : Status.t A) i :
  sget (Status.pn_issuers s) sp = Some i -> Status.pn_issuers (Status.update_issuer sp f s) = sset sp (f i) (Status.pn_issuers s).
Proof. intros Hi. unfold Status.update_issuer. by rewrite Hi. Qed.

(** Emptying a table whose bytes were subtracted from those in flight. *)
Lemma clear_flight X h sp p f (s s' : Status.t A) :
  sp <> no_space -> flight_ok X h s -> sget h sp = Some p -> Status.pn_issuers s' = Status.pn_issuers s ->
  Congestion.bytes_in_flight (Status.cong s') = u64 (X + flights h - flight p) ->
  (forall i, PacketNumberIssuer.ack_eliciting_in_flight (f i) = 0 /\
     (PacketNumberIssuer.highest_sent (f i) = PacketNumberIssuer.highest_sent i \/ PacketNumberIssuer.highest_sent (f i) = -1)) ->
  flight_ok X (sset sp ∅ h) (Status.update_issuer sp f s').
Proof.
  intros Hsp Hf Hp Hi Hb Hk. destruct (tables_ok _ _ sp _ Hsp Hf) as (p' & i & Hp' & Hi' & Hok). destruct Hf as [Hs _].
  assert (Hg : sget (Status.pn_issuers s') sp = Some i) by (by rewrite Hi). destruct (Hk i) as [Hk1 Hk2]. split.
  - rewrite (update_get _ _ _ i Hg), Hi. apply issuers_set; [done |]. by apply (empty_ok i _ p').
  - unfold Status.update_issuer. rewrite Hg. cbn. rewrite Hb, (flights_sset h sp p) by done.
    f_equal. unfold flight. rewrite total_empty. lia.
Qed.

Lemma timers_flight X h n1 n2 (s s' : Status.t A) :
  flight_ok X h s -> Status.pn_issuers s' = Status.pn_issuers s -> Status.cong s' = Status.cong s ->
  flight_ok X h (Status.set_loss_detection_timer n1 n2 s').
Proof.
  intros Hf E1 E2. destruct (set_timer_same n1 n2 s') as [E3 E4].
  apply (flight_ok_same _ _ _ _ Hf); [by rewrite E3 | by rewrite E4, E2].
Qed.

Lemma discard_flight X sp rd h r (s : Status.t A) :
  flight_ok X h s ->
  let '((h', _), s') := on_packet_number_space_discarded order sp rd ((h, r), s) in flight_ok X h' s'.
Proof.
  intros Hf. unfold on_packet_number_space_discarded, Status.on_packet_number_space_discard.
  assert (Hd : sp <> no_space -> forall p, sget h sp = Some p ->
    let '(_, s1) := foldl (fun '(r, s) '((_, sent) : Z * SentPacket) => (mark_as_lost (waiter sent) r,
        Status.set_cong (Congestion.on_packet_number_space_discard (sent_bytes sent) (sp_status sent) (Status.cong s)) s))
      (r, s) (order p) in
    flight_ok X (sset sp ∅ h) (Status.update_issuer sp PacketNumberIssuer.on_packet_number_space_discard s1)).
  { intros Hsp p Hp. pose proof (discard_bytes mark_as_lost (order p) r s) as Hb. destruct (foldl _ _ _) as [r' s1].
    destruct Hb as [Hiss Hb]. apply (clear_flight _ _ _ p _ s); [done | done | done | done | | by auto].
    apply Hb. rewrite (total_perm counted _ _ (order_ok p)). destruct Hf as [_ ->]. f_equal. unfold flight. lia. }
  destruct sp; [| | done | done]; cbn [sget]; specialize (Hd ltac:(done) _ eq_refl); cbn [sget] in Hd; destruct (foldl _ _ _);
    (eapply timers_flight; [exact Hd | done | done]).
Qed.

(** The bytes of the packets a Retry drops stay in flight. *)
Definition retry_leak (h : t) : Z := flight (s_initial h) + flight (s_app h).

Lemma retry_flight X rd h r (s : Status.t A) :
  flight_ok X h s ->
  let '((h', _), s') := on_retry_received order rd ((h, r), s) in flight_ok (X + retry_leak h) h' s'.
Proof.
  intros [(H1 & H2 & H3) Hb]. unfold on_retry_received, Status.on_retry_received.
  destruct (foldl _ _ (order (s_initial h))) as [r1 first].
  destruct (PTOStatus.on_retry_received _ _ _ _) as [pt rt]. split.
  - cbn. split_and!; [by apply (empty_ok (s_initial (Status.pn_issuers s)) _ (s_initial h)); auto | exact H2 |
      by apply (empty_ok (s_app (Status.pn_issuers s)) _ (s_app h)); auto].
  - cbn. rewrite Hb. f_equal. unfold flights, retry_leak, flight. cbn. rewrite !total_empty. lia.
Qed.
End Order.
End Accounting.
End FlightFacts.

(** * The transport as a transition system *)

Module Transport.
Import SentPacketHistory FlightFacts.

Section Steps.
Context {A : Type} `{Algorithm A} (order : gmap Z SentPacket -> list (Z * SentPacket)).

(** The events of a status that no table takes part in. *)
Inductive quiet : Status.t A -> Status.t A -> Prop :=
  | quiet_parameters a b c s : quiet s (Status.on_transport_parameter_received a b c s)
  | quiet_0rtt a s : quiet s (Status.on_0RTT_transport_parameter a s)
  | quiet_payload n s : quiet s (Status.on_payload_size_update n s)
  | quiet_start s : quiet s (Status.on_handshake_start s)
  | quiet_confirmed s : quiet s (Status.on_handshake_confirmed s)
  | quiet_complete s : quiet s (Status.on_handshake_complete s)
  | quiet_datagram n rd s : quiet s (Status.on_datagram_received n rd s)
  | quiet_decrypted sp now s : quiet s (Status.on_packet_decrypted sp now s)
  | quiet_processed sp pn s : quiet s (Status.on_packet_processed sp pn s)
  | quiet_consume sp s : quiet s (Status.consume_packet_number sp s)
  | quiet_close s : quiet s (Status.set_close_timer s)
  | quiet_read s : quiet s (Status.on_transport_parameter_read s)
  | quiet_retry_sent s : quiet s (Status.set_retry_sent s).

(** One event; the label is the number of bytes that stop being tracked and
    are not subtracted from those in flight. An acknowledgement is one that
    was taken in without an error (an error closes the connection). The
    records belong to the senders of the frames, which change them as they
    like. *)
Inductive step : Z -> t * records * Status.t A -> t * records * Status.t A -> Prop :=
  | step_sent sp sent rd h r s e h' s' :
      0 <= packet_number sent < 2 ^ 62 ->
      on_packet_sent sp sent rd (h, s) = Some (e, (h', s')) -> step 0 (h, r, s) (h', r, s')
  | step_ack sp lost_ ack limited rd h r s w s' :
      sp <> no_space -> on_ack_received order sp [] lost_ ack limited rd (h, r, s) = (None, (w, s')) ->
      step (loss_leak h w) (h, r, s) (tables w, recs w, s')
  | step_timeout lost_ rd h r s e w s' :
      maybe_loss_detection_timeout order lost_ rd (h, r, s) = (e, (w, s')) ->
      step (loss_leak h w) (h, r, s) (tables w, recs w, s')
  | step_discard sp rd h r s h' r' s' :
      on_packet_number_space_discarded order sp rd ((h, r), s) = ((h', r'), s') -> step 0 (h, r, s) (h', r', s')
  | step_retry rd h r s h' r' s' :
      on_retry_received order rd ((h, r), s) = ((h', r'), s') -> step (retry_leak h) (h, r, s) (h', r', s')
  | step_quiet h r s s' : quiet s s' -> step 0 (h, r, s) (h, r, s')
  | step_records h r r' s : step 0 (h, r, s) (h, r', s).

Inductive reach (s0 : Status.t A) : Z -> t * records * Status.t A -> Prop :=
  | reach_start r : reach s0 0 (reset, r, s0)
  | reach_step X Y x y : reach s0 X x -> step Y x y -> reach s0 (X + Y) y.

Lemma quiet_flight X h s s' : quiet s s' -> flight_ok X h s -> flight_ok X h s'.
Proof.
  intros Hq Hf. destruct Hq; try (by apply (flight_ok_same _ _ _ _ Hf)).
  - unfold Status.on_payload_size_update. destruct (PayloadSize.update_payload_size _ _) as [u ps].
    destruct u; apply (flight_ok_same _ _ _ _ Hf); try done. cbn. unfold Congestion.on_update_max_udp_payload_size. by destruct (_ =? _).
  - unfold Status.on_handshake_complete. destruct (HandshakeStatus.is_server _); by apply (flight_ok_same _ _ _ _ Hf).
  - unfold Status.on_datagram_received. destruct (_ && _); [by eapply timers_flight | by apply (flight_ok_same _ _ _ _ Hf)].
  - unfold Status.on_packet_processed. destruct (sget _ _); by apply (flight_ok_same _ _ _ _ Hf).
  - by apply update_issuer_flight.
Qed.

Context (order_ok : forall p, order p ≡ₚ map_to_list p).

Lemma step_flight X Y x y :
  step Y x y -> flight_ok X x.1.1 x.2 -> flight_ok (X + Y) y.1.1 y.2.
Proof.
  intros Hs Hf. destruct Hs as [sp sent rd h r s e h' s' Hpn E | sp lost_ ack limited rd h r s w s' Hsp E |
    lost_ rd h r s e w s' E | sp rd h r s h' r' s' E | rd h r s h' r' s' E | h r s s' Hq | h r r' s]; cbn [fst snd] in Hf |- *; rewrite ?Z.add_0_r.
  - pose proof (sent_flight order order_ok X h sp sent rd s Hf Hpn) as H1. rewrite E in H1. by destruct H1.
  - pose proof (ack_flight order order_ok X sp lost_ ack limited rd h r s Hsp Hf) as H1. rewrite E in H1. by apply H1.
  - pose proof (timeout_flight order order_ok X lost_ rd h r s Hf) as H1. by rewrite E in H1.
  - pose proof (discard_flight order order_ok X sp rd h r s Hf) as H1. by rewrite E in H1.
  - pose proof (retry_flight order X rd h r s Hf) as H1. by rewrite E in H1.
  - by eapply quiet_flight.
  - done.
Qed.

Lemma reach_flight conf alg server udp now X x :
  reach (Status.reset conf alg server udp now) X x -> flight_ok X x.1.1 x.2.
Proof.
  induction 1 as [r | X Y x y _ IH Hs]; [| by eapply step_flight].
  assert (He : space_ok PacketNumberIssuer.reset ∅) by (split_and!; [done | done | done | apply map_Forall_empty]).
  split; [exact (conj He (conj He He)) |]. cbn. by unfold flights, flight; rewrite total_empty.
Qed.
End Steps.
End Transport.

(** C3. Whatever packets are sent, acknowledged, declared lost, discarded or
    given up for a Retry, in any order and interleaved with any other event
    (an ACK frame that is refused ends the run), the congestion controller's
    bytes in flight are those of the byte-counted packets in the three tables
    plus [X], the bytes the events of the run dropped without subtracting
    them: those of the packets a Retry gives up, and for each packet declared
    lost what was counted for it when it was sent less what its loss
    subtracts ([leaked]: the size of a byte-counted packet that is not
    ack-eliciting, nothing when the two agree). Each space's counter of
    ack-eliciting packets in flight is the number of such packets in its
    table, whose numbers are at most the highest one sent. Packet numbers are
    below 2^62; the sums are modulo 2^64; the order in which the hash tables
    are traversed does not matter. *)
Theorem in_flight_accounting {A : Type} `{Algorithm A} (order : gmap Z SentPacket -> list (Z * SentPacket))
    (order_ok : forall p, order p ≡ₚ map_to_list p) conf (alg : A) server udp now X h r s :
  Transport.reach order (Status.reset conf alg server udp now) X (h, r, s) ->
  Congestion.bytes_in_flight (Status.cong s) = u64 (X + FlightFacts.flights h) /\
  forall sp i p, sget (Status.pn_issuers s) sp = Some i -> sget h sp = Some p ->
    PacketNumberIssuer.ack_eliciting_in_flight i = u64 (FlightFacts.elic p) /\
    forall k, is_Some (p !! k) -> 0 <= k <= PacketNumberIssuer.highest_sent i.
Proof.
  intros [Hi Hb]%(Transport.reach_flight order order_ok). split; [done |]. intros sp i p Ei Ep.
  destruct (FlightFacts.issuers_get _ _ _ _ _ Hi Ep Ei) as (H1 & _ & H3). split; [done |].
  intros k [x Hx]. by destruct (H3 k x Hx).
Qed.

Module AccountingExample.
Import SentPacketHistory FlightFacts.

Definition start : Status.t NewReno.t := Status.reset default_config NewReno.new false 1200 1000.
Definition first_packet : SentPacket := mk_sent Types.Initial 7 0 None 1200 0 packetnum.infinity.
Definition clock_at (now : Z) : nat -> Z := fun _ => now.
(** The state after one Initial packet of 1200 bytes. *)
Definition sent_one : t * Status.t NewReno.t :=
  match on_packet_sent initial first_packet (clock_at 1000) (reset, start) with
  | Some (_, x) => x
  | None => (reset, start)
  end.
Definition retried : t * records * Status.t NewReno.t :=
  on_retry_received map_to_list (clock_at 1100) ((sent_one.1, ∅), sent_one.2).
End AccountingExample.

(** One Initial packet of 1200 bytes, then a Retry: the table is empty and
    1200 bytes stay in flight. *)
Theorem in_flight_accounting_witness :
  Congestion.bytes_in_flight (Status.cong AccountingExample.retried.2) = 1200 /\
  FlightFacts.flights AccountingExample.retried.1.1 = 0.
Proof.
  assert (Hr : Transport.reach map_to_list AccountingExample.start 1200
    (AccountingExample.retried.1.1, AccountingExample.retried.1.2, AccountingExample.retried.2)).
  { apply (Transport.reach_step _ _ 0 1200 (AccountingExample.sent_one.1, ∅, AccountingExample.sent_one.2)).
    - apply (Transport.reach_step _ _ 0 0 (SentPacketHistory.reset, ∅, AccountingExample.start)); [constructor |].
      apply (Transport.step_sent _ initial AccountingExample.first_packet (AccountingExample.clock_at 1000) _ _ _ None);
        [cbn; lia | vm_compute; reflexivity].
    - assert (El : FlightFacts.retry_leak AccountingExample.sent_one.1 = 1200) by (vm_compute; reflexivity).
      rewrite <- El. apply (Transport.step_retry _ (AccountingExample.clock_at 1100)). vm_compute. reflexivity. }
  destruct (in_flight_accounting map_to_list (fun p => reflexivity _) default_config NewReno.new false 1200 1000 1200
    _ _ _ Hr) as [Hb _].
  assert (Hfl : FlightFacts.flights AccountingExample.retried.1.1 = 0) by (vm_compute; reflexivity).
  split; [| exact Hfl]. rewrite Hb, Hfl. reflexivity.
Defined.
