(* ===== verification/LossDetection.v ===== *)
(** * LossDetection: what acknowledgements and loss detection remove

    Theorems about [Status::on_ack_received], [Status::is_lost] and the
    callbacks of [ack/sent_history.h] together: which packets leave a table,
    what the loss time of a space is afterwards, and that an expired loss
    timer makes progress. *)

From stdpp Require Import base numbers list gmap fin_maps strings.
From Stdlib Require Import ZArith Lia Sorted.
From S2P Require Import Prelude Varint PacketNumber Types FrameAck QTime Rtt PnManage LossTimer Congestion Pacer Status AckRecord SentHistory.

#[local] Open Scope string_scope.
#[local] Open Scope Z_scope.
#[local] Open Scope list_scope.

Module AckFacts.
Import SentPacketHistory FlightFacts.

(** ** The ranges of an acknowledgement *)

Definition contains (pn : Z) (r : ACKRange) : bool := (smallest r <=? pn) && (pn <=? largest r).

Definition below (a b : ACKRange) : Prop := smallest b < smallest a /\ largest b < largest a.

Lemma sorted_below l : forall prev,
  sorted_after prev l = true -> Forall (below prev) l /\ StronglySorted below l.
Proof.
  induction l as [| r l IH]; intros prev Hs; [by split; constructor |]. cbn [sorted_after] in Hs.
  destruct (_ <? _); [done |]. destruct (_ || _) eqn:E; [done |]. apply orb_false_iff in E as [E1%Z.leb_gt E2%Z.leb_gt].
  destruct (IH _ Hs) as [H1 H2]. split; [| by constructor]. constructor; [done |].
  eapply Forall_impl; [exact H1 |]. unfold below. intros x. lia.
Qed.

Lemma sorted_ranges r0 rs : is_sorted_ack_ranges (r0 :: rs) = true -> StronglySorted below (r0 :: rs).
Proof.
  cbn [is_sorted_ack_ranges]. destruct (_ <? _); [done |]. intros [H1 H2]%sorted_below. by constructor.
Qed.

Lemma find_app {B} (f : B -> bool) l l' :
  List.find f (l ++ l') = match List.find f l with Some x => Some x | None => List.find f l' end.
Proof. induction l as [| x l IH]; simpl; [done |]. by destruct (f x). Qed.

(** The search finds the lowest range that reaches up to [pn]. *)
Lemma find_lowest pn l :
  StronglySorted below l -> existsb (fun r => pn <=? largest r) l = true ->
  match List.find (fun r => pn <=? largest r) (rev l) with
  | Some r => negb (pn <? smallest r)
  | None => false
  end = existsb (contains pn) l.
Proof.
  induction 1 as [| r l Hs IH Hf]; [done |]. cbn [existsb rev]. intros Hex. rewrite find_app.
  destruct (existsb (fun r => pn <=? largest r) l) eqn:El.
  - specialize (IH eq_refl). destruct (List.find _ (rev l)) as [x |] eqn:Ef.
    + rewrite IH. unfold contains at 2. destruct ((smallest r <=? pn) && _) eqn:Er; [| done].
      apply andb_true_iff in Er as [Er1%Z.leb_le _]. rewrite <- IH. apply List.find_some in Ef as [Hin _].
      apply List.in_rev, list_elem_of_In in Hin. destruct (proj1 (Forall_forall _ _) Hf x Hin) as [? _].
      rewrite ltb_false by lia. done.
    + exfalso. apply existsb_exists in El as (x & Hx & Hxl). apply List.in_rev in Hx. pose proof (List.find_none _ _ Ef x Hx). congruence.
  - rewrite orb_false_r in Hex. assert (En : List.find (fun r => pn <=? largest r) (rev l) = None).
    { destruct (List.find _ (rev l)) as [x |] eqn:Ef; [| done]. apply List.find_some in Ef as [Hin Hx].
      apply List.in_rev in Hin. assert (existsb (fun r => pn <=? largest r) l = true) by (apply existsb_exists; eauto). congruence. }
    rewrite En. cbn [List.find]. rewrite Hex. assert (Hn : existsb (contains pn) l = false).
    { apply not_true_iff_false. intros (x & Hx & Hc)%existsb_exists. apply andb_true_iff in Hc as [_ Hc].
      assert (existsb (fun r => pn <=? largest r) l = true) by (apply existsb_exists; eauto). congruence. }
    rewrite Hn, orb_false_r. unfold contains. rewrite Hex, andb_true_r. unfold Z.leb, Z.ltb. rewrite Z.compare_antisym.
    by destruct (smallest r ?= pn).
Qed.

Lemma last_lowest l : forall rn, StronglySorted below l -> last l = Some rn -> Forall (fun r => smallest rn <= smallest r) l.
Proof.
  induction l as [| r l IH]; intros rn Hs Hl; [done |]. inversion_clear Hs as [| ? ? Hs' Hf]. destruct l as [| r' l].
  { injection Hl as <-. by repeat constructor. }
  specialize (IH rn Hs' Hl). constructor; [| done]. apply Forall_cons in IH as [H1 _]. apply Forall_cons in Hf as [[H2 _] _]. lia.
Qed.

(** The test of [is_ack] is membership in one of the ranges. *)
Lemma in_ack_ranges_exact pn r0 rs rn :
  is_sorted_ack_ranges (r0 :: rs) = true -> last (r0 :: rs) = Some rn ->
  Status.in_ack_ranges pn (r0 :: rs) (largest r0) (smallest rn) = existsb (contains pn) (r0 :: rs).
Proof.
  intros Hs%sorted_ranges Hl. pose proof (last_lowest _ _ Hs Hl) as Hlow. unfold Status.in_ack_ranges.
  destruct ((pn <? smallest rn) || (largest r0 <? pn)) eqn:E.
  - symmetry. apply not_true_iff_false. intros (x & Hx%list_elem_of_In & Hc)%existsb_exists.
    apply andb_true_iff in Hc as [H1%Z.leb_le H2%Z.leb_le]. pose proof (proj1 (Forall_forall _ _) Hlow x Hx). simpl in *.
    apply orb_true_iff in E as [E%Z.ltb_lt | E%Z.ltb_lt]; [lia |]. inversion_clear Hs as [| ? ? _ Hf].
    apply elem_of_cons in Hx as [-> | Hx]; [lia |]. destruct (proj1 (Forall_forall _ _) Hf x Hx). lia.
  - apply orb_false_iff in E as [E1%Z.ltb_ge E2%Z.ltb_ge]. destruct (1 <? size (r0 :: rs)) eqn:En.
    + apply find_lowest; [done |]. cbn [existsb]. by rewrite leb_true.
    + destruct rs as [| r1 rs]; [| unfold size in En; cbn [length] in En; apply Z.ltb_ge in En; lia].
      injection Hl as <-. cbn [existsb]. unfold contains. by rewrite !leb_true.
Qed.
End AckFacts.

(** ** The scan for lost packets *)

Module DetectFacts.
Import SentPacketHistory FlightFacts.

(** RFC 9002, 6.1: a packet sent before an acknowledged one is lost when it
    is [thr] numbers older, or was sent at [before] or earlier. *)
Definition lostb (thr la before : Z) (x : SentPacket) : bool :=
  negb (la <? packet_number x) && ((time_sent x <=? before) || (u64 (packet_number x + thr) <=? la)).

(** An older packet that may still be acknowledged: it is lost later. *)
Definition waits (thr la before : Z) (x : SentPacket) : bool :=
  negb (la <? packet_number x) && negb (lostb thr la before x).

Definition next_loss (thr la before delay L : Z) (x : SentPacket) : Z :=
  if waits thr la before x
  then let t := s64 (time_sent x + delay) in if (L =? 0) || (t <? L) then t else L
  else L.

Section Scan.
Context {A : Type} `{Algorithm A}.

Definition scan_frame (sp : PacketNumberSpace) (s s' : Status.t A) : Prop :=
  Status.config s' = Status.config s /\ Status.rtt s' = Status.rtt s /\
  (forall sp', sp' <> sp -> sget (LossTimer.loss_time (Status.loss s')) sp' = sget (LossTimer.loss_time (Status.loss s)) sp').

Lemma update_issuer_keeps sp f (s : Status.t A) :
  Status.config (Status.update_issuer sp f s) = Status.config s /\ Status.rtt (Status.update_issuer sp f s) = Status.rtt s /\
  Status.loss (Status.update_issuer sp f s) = Status.loss s.
Proof. unfold Status.update_issuer. by destruct (sget _ _). Qed.

Lemma update_loss_time_spec sp t l L :
  sget (LossTimer.loss_time l) sp = Some L ->
  sget (LossTimer.loss_time (LossTimer.update_loss_time sp t l)) sp = Some (if (L =? 0) || (t <? L) then t else L) /\
  forall sp', sp' <> sp -> sget (LossTimer.loss_time (LossTimer.update_loss_time sp t l)) sp' = sget (LossTimer.loss_time l) sp'.
Proof.
  intros HL. unfold LossTimer.update_loss_time. rewrite HL. destruct (_ || _); [| done].
  assert (sp <> no_space) by (by intros ->). cbn. split; [| intros sp' Hne]; rewrite sget_sset by done.
  - by rewrite decide_True.
  - by rewrite decide_False.
Qed.

Lemma is_lost_spec sp delay before la x L (sc : Status.LostScan A) :
  Status.call_cong_cb_once sc = false -> sget (LossTimer.loss_time (Status.loss (Status.sc_status sc))) sp = Some L ->
  let thr := packet_order_threshold (Status.config (Status.sc_status sc)) in
  let '(res, sc') := Status.is_lost sp delay before la (packet_number x) (sent_bytes x) (time_sent x) (sp_status x) sc in
  (if lostb thr la before x then res = lost_time_threshold \/ res = lost_packet_order_threshold else res = not_lost) /\
  scan_frame sp (Status.sc_status sc) (Status.sc_status sc') /\ Status.call_cong_cb_once sc' = false /\
  Status.call_lost_once sc' = Status.call_lost_once sc || lostb thr la before x /\
  sget (LossTimer.loss_time (Status.loss (Status.sc_status sc'))) sp = Some (next_loss thr la before delay L x).
Proof.
  intros Hc HL thr. unfold Status.is_lost, next_loss, waits, lostb. rewrite Hc. fold thr.
  destruct (la <? packet_number x); cbn [negb andb]; [by rewrite orb_false_r |].
  destruct ((time_sent x <=? before) || (u64 (packet_number x + thr) <=? la)) eqn:E; cbn [negb].
  - destruct (update_issuer_keeps sp (PacketNumberIssuer.on_packet_lost (sp_status x)) (Status.sc_status sc)) as (E1 & E2 & E3).
    destruct (Congestion.on_packet_lost _ _ _ _) as [last c]. unfold scan_frame. cbn.
    rewrite E1, E2, E3, orb_true_r. destruct (time_sent x <=? before); auto.
  - destruct (update_loss_time_spec sp (s64 (time_sent x + delay)) _ L HL) as [H1 H2].
    rewrite orb_false_r. unfold scan_frame. cbn. by rewrite H1.
Qed.

Lemma scan_frame_trans sp (s1 s2 s3 : Status.t A) : scan_frame sp s1 s2 -> scan_frame sp s2 s3 -> scan_frame sp s1 s3.
Proof.
  intros (A1 & A2 & A3) (B1 & B2 & B3). split_and!; [congruence | congruence |]. intros sp' Hne. by rewrite B3, A3.
Qed.

Lemma lost_loop_spec sp delay before la l : forall p r rem L (sc : Status.LostScan A),
  NoDup l.*1 -> Status.call_cong_cb_once sc = false ->
  sget (LossTimer.loss_time (Status.loss (Status.sc_status sc))) sp = Some L ->
  let thr := packet_order_threshold (Status.config (Status.sc_status sc)) in
  let '(ok, p', _, rem', sc') := lost_loop (Status.is_lost sp delay before la) l p r rem sc in
  ok = true /\ scan_frame sp (Status.sc_status sc) (Status.sc_status sc') /\
  Status.call_lost_once sc' = Status.call_lost_once sc || existsb (fun kx => lostb thr la before kx.2) l /\
  (forall k, p' !! k = if existsb (fun kx => (kx.1 =? k) && lostb thr la before kx.2) l then None else p !! k) /\
  rem' = option_map (fun r => r ++ List.filter (lostb thr la before) l.*2) rem /\
  sget (LossTimer.loss_time (Status.loss (Status.sc_status sc'))) sp = Some (foldl (next_loss thr la before delay) L l.*2) /\
  Status.call_cong_cb_once sc' = false.
Proof.
  induction l as [| [k x] l IH]; intros p r rem L sc Hn Hc HL thr.
  { cbn. rewrite orb_false_r. split_and!; try done. destruct rem; [| done]. cbn. by rewrite app_nil_r. }
  rewrite fmap_cons in Hn. apply NoDup_cons in Hn as [Hk Hn]. rewrite !fmap_cons. cbn [lost_loop existsb fst snd List.filter foldl].
  pose proof (is_lost_spec sp delay before la x L sc Hc HL) as H1. cbv zeta in H1. fold thr in H1.
  destruct (Status.is_lost _ _ _ _ _ _ _ _ sc) as [res sc1]. destruct H1 as (Hres & Hfr & Hc1 & Hl1 & HL1).
  assert (Ht : packet_order_threshold (Status.config (Status.sc_status sc1)) = thr) by (destruct Hfr as [-> _]; done).
  destruct (lostb thr la before x) eqn:El.
  - pose proof (IH (delete k p) (mark_as_lost (waiter x) r) (option_map (fun r => r ++ [x]) rem) _ sc1 Hn Hc1 HL1) as H2.
    cbv zeta in H2. rewrite Ht in H2.
    replace (match res with not_lost => _ | lost_invalid => _ | _ => _ end)
      with (lost_loop (Status.is_lost sp delay before la) l (delete k p) (mark_as_lost (waiter x) r) (option_map (fun r => r ++ [x]) rem) sc1)
      by (by destruct Hres as [-> | ->]).
    destruct (lost_loop _ _ _ _ _ sc1) as [[[[ok p'] r'] rem'] sc']. destruct H2 as (-> & Hfr' & Hl' & Hp' & Hrem & HL' & Hc').
    split_and!; [done | by eapply scan_frame_trans | | | | done | done].
    + rewrite Hl', Hl1. by destruct (Status.call_lost_once sc).
    + intros k'. rewrite Hp'. rewrite andb_true_r. destruct (Z.eqb_spec k k') as [-> | Hne]; cbn [orb].
      * case_match; [done |]. by simplify_map_eq.
      * case_match; [done |]. by rewrite lookup_delete_ne.
    + rewrite Hrem. destruct rem; [| done]. cbn. by rewrite <- app_assoc.
  - subst res. pose proof (IH p r rem _ sc1 Hn Hc1 HL1) as H2. cbv zeta in H2. rewrite Ht in H2.
    destruct (lost_loop _ _ _ _ _ sc1) as [[[[ok p'] r'] rem'] sc']. destruct H2 as (-> & Hfr' & Hl' & Hp' & Hrem & HL' & Hc').
    split_and!; [done | by eapply scan_frame_trans | | | done | done | done].
    + by rewrite Hl', Hl1, orb_false_r.
    + intros k'. rewrite Hp'. by rewrite andb_false_r.
Qed.

(** ** Detection *)

Lemma existsb_perm {B} (f : B -> bool) l l' : l ≡ₚ l' -> existsb f l = existsb f l'.
Proof.
  induction 1 as [| x l l' _ IH | x y l | l1 l2 l3 _ IH1 _ IH2]; simpl; [done | by rewrite IH | | congruence].
  by destruct (f x), (f y).
Qed.

Context (order : gmap Z SentPacket -> list (Z * SentPacket)) (order_ok : forall p, order p ≡ₚ map_to_list p).

(** Deleting the listed entries that satisfy [f] is filtering the map. *)
Lemma delete_filter (f : SentPacket -> bool) (p p' : gmap Z SentPacket) :
  (forall k, p' !! k = if existsb (fun kx => (kx.1 =? k) && f kx.2) (order p) then None else p !! k) ->
  p' = filter (fun kx => f kx.2 = false) p.
Proof.
  intros Hp'. apply map_eq. intros k. rewrite Hp', (existsb_perm _ _ _ (order_ok p)), map_lookup_filter.
  destruct (p !! k) as [x |] eqn:Ek; cbn; [| by destruct (existsb _ _)].
  destruct (f x) eqn:Ef.
  - replace (existsb _ _) with true; [by rewrite option_guard_False by (cbn; congruence) |]. symmetry. apply existsb_exists. exists (k, x).
    split; [by apply list_elem_of_In, elem_of_map_to_list | cbn; by rewrite Z.eqb_refl, Ef].
  - replace (existsb _ _) with false; [by rewrite option_guard_True by done |]. symmetry. apply not_true_iff_false.
    intros ([k' x'] & Hin%list_elem_of_In%elem_of_map_to_list & Hc)%existsb_exists. cbn in Hc.
    apply andb_true_iff in Hc as [Hk%Z.eqb_eq Hf]. subst k'. congruence.
Qed.

Lemma order_nodup p : NoDup (order p).*1.
Proof. rewrite (order_ok p). apply NoDup_fst_map_to_list. Qed.

Lemma cong_cb_keeps now (sc : Status.LostScan A) :
  let sc' := Status.congestion_callback now (fun _ c => c) sc in
  Status.config (Status.sc_status sc') = Status.config (Status.sc_status sc) /\
  Status.rtt (Status.sc_status sc') = Status.rtt (Status.sc_status sc) /\
  Status.loss (Status.sc_status sc') = Status.loss (Status.sc_status sc) /\
  Status.call_lost_once sc' = Status.call_lost_once sc.
Proof. unfold Status.congestion_callback. destruct (Status.call_cong_cb_once sc); [done |]. by destruct (negb _). Qed.

Lemma detect_spec sp must n1 n2 w (s : Status.t A) p i :
  sget (tables w) sp = Some p -> sget (Status.pn_issuers s) sp = Some i -> time.valid (Status.loss_delay s) = true ->
  let lost := lostb (packet_order_threshold (Status.config s)) (PacketNumberIssuer.largest_acked_packet i)
                (s64 (n1 - Status.loss_delay s)) in
  let '(ok, (w', s')) := Status.detect_and_remove_lost_packet (remove_lost_callback order) sp must n1 n2 (w, s) in
  ok = negb must || existsb (fun kx => lost kx.2) (order p) /\
  tables w' = sset sp (filter (fun kx => lost kx.2 = false) p) (tables w) /\
  err w' = err w /\ acked w' = acked w /\
  SentPacketHistory.lost w' = option_map (fun r => r ++ List.filter lost (order p).*2) (SentPacketHistory.lost w) /\
  scan_frame sp s s' /\
  sget (LossTimer.loss_time (Status.loss s')) sp =
    Some (foldl (next_loss (packet_order_threshold (Status.config s)) (PacketNumberIssuer.largest_acked_packet i)
                   (s64 (n1 - Status.loss_delay s)) (Status.loss_delay s)) 0 (order p).*2).
Proof.
  intros Hp Hi Hd lost. unfold Status.detect_and_remove_lost_packet. rewrite Hi, Hd. cbn [negb].
  unfold remove_lost_callback. rewrite Hp. assert (Hsp : sp <> no_space) by (by intros ->).
  set (s1 := Status.set_loss _ s). set (before := s64 _) in *. set (la := PacketNumberIssuer.largest_acked_packet i) in *.
  assert (HL : sget (LossTimer.loss_time (Status.loss s1)) sp = Some 0)
    by (cbn; rewrite sget_sset by done; by rewrite decide_True).
  assert (Hs1 : scan_frame sp s s1).
  { split_and!; [done | done |]. intros sp' Hne. cbn. rewrite sget_sset by done. by rewrite decide_False. }
  pose proof (lost_loop_spec sp (Status.loss_delay s) before la (order p) p (recs w) (SentPacketHistory.lost w) 0
    (Status.mk_scan s1 0 false false) (order_nodup p) eq_refl HL) as H1. cbv zeta in H1.
  change (packet_order_threshold (Status.config (Status.sc_status (Status.mk_scan s1 0 false false))))
    with (packet_order_threshold (Status.config s)) in H1. fold lost in H1.
  destruct (lost_loop _ _ _ _ _ _) as [[[[ok p'] r'] rem'] sc']. destruct H1 as (-> & Hfr & Hl & Hp' & Hrem & HL' & _). cbn [negb].
  destruct (cong_cb_keeps n2 sc') as (E1 & E2 & E3 & E4).
  set (sc2 := Status.congestion_callback n2 _ sc') in *. split_and!; try done.
  - rewrite E4, Hl. done.
  - cbn. by rewrite (delete_filter lost p p' Hp').
  - destruct (scan_frame_trans _ _ _ _ Hs1 Hfr) as (F1 & F2 & F3). by unfold scan_frame; rewrite E1, E2, E3.
  - by rewrite E3, HL'.
Qed.

(** The loss time is the earliest time at which a waiting packet is lost. *)
Lemma fold_loss thr la before delay l : forall L0,
  0 <= L0 -> 0 < delay < 2 ^ 62 -> Forall (fun x => 0 <= time_sent x < 2 ^ 62) l ->
  let L := foldl (next_loss thr la before delay) L0 l in
  0 <= L /\ (0 < L0 -> 0 < L <= L0) /\
  (L = L0 \/ Exists (fun x => waits thr la before x = true /\ L = time_sent x + delay) l) /\
  Forall (fun x => waits thr la before x = true -> 0 < L <= time_sent x + delay) l.
Proof.
  induction l as [| x l IH]; intros L0 H0 Hd Hf; cbn [foldl].
  { cbv zeta. split_and!; [done | lia | by left | constructor]. }
  apply Forall_cons in Hf as [Hx Hf].
  assert (Hn : 0 <= next_loss thr la before delay L0 x /\ (0 < L0 -> 0 < next_loss thr la before delay L0 x <= L0) /\
    (next_loss thr la before delay L0 x = L0 \/ waits thr la before x = true /\ next_loss thr la before delay L0 x = time_sent x + delay) /\
    (waits thr la before x = true -> 0 < next_loss thr la before delay L0 x <= time_sent x + delay)).
  { unfold next_loss. destruct (waits thr la before x); [| by split_and!; auto; lia].
    rewrite s64_small by (unfold is_s64; lia). cbv zeta. destruct (Z.eqb_spec L0 0), (Z.ltb_spec (time_sent x + delay) L0);
      cbn [orb]; split_and!; auto; lia. }
  destruct Hn as (N1 & N2 & N3 & N4). destruct (IH _ N1 Hd Hf) as (I1 & I2 & I3 & I4). cbv zeta in *.
  split_and!; [done | intros; lia | |].
  - destruct I3 as [-> | I3]; [| by right; right]. destruct N3 as [-> | [? ?]]; [by left | right; by left].
  - constructor; [intros Hw; specialize (N4 Hw); lia | done].
Qed.
End Scan.
End DetectFacts.

(** * Properties *)

(** C12. Loss detection in a space, by the two thresholds of RFC 9002 (6.1)
    but with the loss delay of the code, removes exactly the packets that are
    older than the largest acknowledged one and either
    [packet_order_threshold] numbers older or sent [loss_delay] ago: the time
    threshold times the smaller of the smoothed and the latest RTT, at least
    the granularity of the clock (6.1.2 takes the larger one). It reports
    success unless a packet had to be lost and none was, and leaves as the
    loss time of the space the earliest time at which one of the remaining
    older packets will be lost, or 0 when there is none. Times and the loss
    delay are below 2^62, the loss delay is positive. The order in which the
    table is traversed does not matter. *)
Theorem loss_detection_exact {A : Type} `{Algorithm A} (order : gmap Z SentPacket -> list (Z * SentPacket))
    (order_ok : forall p, order p ≡ₚ map_to_list p) sp must n1 n2 w (s : Status.t A) p i :
  sget (SentPacketHistory.tables w) sp = Some p -> sget (Status.pn_issuers s) sp = Some i ->
  0 < Status.loss_delay s < 2 ^ 62 -> map_Forall (fun _ x => 0 <= time_sent x < 2 ^ 62) p ->
  let thr := packet_order_threshold (Status.config s) in
  let la := PacketNumberIssuer.largest_acked_packet i in
  let before := s64 (n1 - Status.loss_delay s) in
  let '(ok, (w', s')) :=
    Status.detect_and_remove_lost_packet (SentPacketHistory.remove_lost_callback order) sp must n1 n2 (w, s) in
  ok = negb must || existsb (fun kx => DetectFacts.lostb thr la before kx.2) (map_to_list p) /\
  SentPacketHistory.tables w' =
    sset sp (filter (fun kx => DetectFacts.lostb thr la before kx.2 = false) p) (SentPacketHistory.tables w) /\
  exists L, sget (LossTimer.loss_time (Status.loss s')) sp = Some L /\
    (L = 0 \/ exists k x, p !! k = Some x /\ DetectFacts.waits thr la before x = true /\ L = time_sent x + Status.loss_delay s) /\
    map_Forall (fun _ x => DetectFacts.waits thr la before x = true -> 0 < L <= time_sent x + Status.loss_delay s) p.
Proof.
  intros Hp Hi Hd Ht thr la before.
  assert (Hv : time.valid (Status.loss_delay s) = true) by (apply Z.leb_le; lia).
  pose proof (DetectFacts.detect_spec order order_ok sp must n1 n2 w s p i Hp Hi Hv) as H1. cbv zeta in H1.
  fold thr la before in H1. destruct (Status.detect_and_remove_lost_packet _ _ _ _ _ _) as [ok [w' s']].
  destruct H1 as (H1 & H2 & _ & _ & _ & _ & HL). rewrite (DetectFacts.existsb_perm _ _ _ (order_ok p)) in H1.
  split; [done | split; [done |]]. eexists. split; [exact HL |].
  assert (Hin : forall x, x ∈ (order p).*2 <-> exists k, p !! k = Some x).
  { intros x. rewrite (order_ok p), list_elem_of_fmap. split.
    - intros ([k y] & -> & Hk%elem_of_map_to_list). by exists k.
    - intros [k Hk%elem_of_map_to_list]. by exists (k, x). }
  destruct (DetectFacts.fold_loss thr la before (Status.loss_delay s) (order p).*2 0) as (_ & _ & F3 & F4); [lia | done | |].
  { apply Forall_forall. intros x [k Hk]%Hin. by apply (Ht k). }
  split.
  - destruct F3 as [F3 | (x & [k Hk]%Hin & Hw & E)%Exists_exists]; [by left | right]. by exists k, x.
  - intros k x Hk. apply (proj1 (Forall_forall _ _) F4 x). apply Hin. by exists k.
Qed.

Module ProgressFacts.
Import SentPacketHistory DetectFacts.

Lemma waits_later thr la before before' x :
  waits thr la before x = true -> time_sent x <= before' -> lostb thr la before x = false /\ lostb thr la before' x = true.
Proof.
  unfold waits. intros [H1 H2%negb_true_iff]%andb_true_iff Ht. split; [done |]. unfold lostb. rewrite H1. cbn [andb].
  by rewrite leb_true.
Qed.

Section Progress.
Context {A : Type} `{Algorithm A} (order : gmap Z SentPacket -> list (Z * SentPacket)).
Context (order_ok : forall p, order p ≡ₚ map_to_list p).

(** A detection that has to lose a packet, with a packet to lose. *)
Lemma detect_progress sp n1 n2 w (s : Status.t A) p i k x :
  sget (tables w) sp = Some p -> sget (Status.pn_issuers s) sp = Some i -> time.valid (Status.loss_delay s) = true ->
  p !! k = Some x ->
  lostb (packet_order_threshold (Status.config s)) (PacketNumberIssuer.largest_acked_packet i)
    (s64 (n1 - Status.loss_delay s)) x = true ->
  let '(ok, (w', _)) := Status.detect_and_remove_lost_packet (remove_lost_callback order) sp true n1 n2 (w, s) in
  ok = true /\ exists p', sget (tables w') sp = Some p' /\ p' ⊂ p.
Proof.
  intros Hp Hi Hv Hk Hx. pose proof (detect_spec order order_ok sp true n1 n2 w s p i Hp Hi Hv) as H1. cbv zeta in H1.
  set (lost := lostb _ _ _) in *. destruct (Status.detect_and_remove_lost_packet _ _ _ _ _ _) as [ok [w' s']].
  destruct H1 as (-> & -> & _). split.
  - apply existsb_exists. exists (k, x). split; [| done]. apply list_elem_of_In. rewrite (order_ok p). by apply elem_of_map_to_list.
  - exists (filter (fun kx => lost kx.2 = false) p). assert (sp <> no_space) by (by intros ->).
    split; [rewrite FlightFacts.sget_sset by done; by rewrite decide_True |]. split; [apply map_filter_subseteq |].
    intros Hsub. pose proof (lookup_weaken _ _ _ _ Hk Hsub) as Hf. apply map_lookup_filter_Some in Hf as [_ Hf]. cbn in Hf. congruence.
Qed.

(** A loss time is that of a packet that stays in the table. *)
Lemma waiting_packet sp must n1 n2 w (s : Status.t A) p i w1 s1 L :
  sget (tables w) sp = Some p -> sget (Status.pn_issuers s) sp = Some i ->
  0 < Status.loss_delay s < 2 ^ 62 -> map_Forall (fun _ x => 0 <= time_sent x < 2 ^ 62) p ->
  Status.detect_and_remove_lost_packet (remove_lost_callback order) sp must n1 n2 (w, s) = (true, (w1, s1)) ->
  sget (LossTimer.loss_time (Status.loss s1)) sp = Some L -> L <> 0 ->
  Status.config s1 = Status.config s /\ Status.loss_delay s1 = Status.loss_delay s /\ 0 <= L /\
  exists p1 k x, sget (tables w1) sp = Some p1 /\ p1 !! k = Some x /\ L = time_sent x + Status.loss_delay s /\
    forall before, time_sent x <= before ->
      lostb (packet_order_threshold (Status.config s)) (PacketNumberIssuer.largest_acked_packet i) before x = true.
Proof.
  intros Hp Hi Hd Ht Hdet HL Hnz. assert (Hv : time.valid (Status.loss_delay s) = true) by (apply Z.leb_le; lia).
  pose proof (detect_spec order order_ok sp must n1 n2 w s p i Hp Hi Hv) as H1. cbv zeta in H1. rewrite Hdet in H1.
  set (thr := packet_order_threshold _) in *. set (la := PacketNumberIssuer.largest_acked_packet i) in *. set (before := s64 _) in *.
  destruct H1 as (_ & Htab & _ & _ & _ & (Hc1 & Hr1 & _) & HL1). rewrite HL in HL1. injection HL1 as HL1.
  destruct (fold_loss thr la before (Status.loss_delay s) (order p).*2 0 ltac:(lia) Hd) as (F1 & _ & F3 & _).
  { apply Forall_forall. intros x Hx. rewrite (order_ok p) in Hx. apply list_elem_of_fmap in Hx as ([k y] & -> & Hk%elem_of_map_to_list).
    by apply (Ht k). }
  cbv zeta in F1, F3. rewrite <- HL1 in F1, F3. destruct F3 as [| (x & Hx & Hw & HLx)%Exists_exists]; [done |].
  rewrite (order_ok p) in Hx. apply list_elem_of_fmap in Hx as ([k y] & -> & Hk%elem_of_map_to_list). cbn in Hw, HLx.
  split_and!; [done | unfold Status.loss_delay; by rewrite Hc1, Hr1 | done |].
  eexists _, k, y. assert (Hs : sp <> no_space) by (by intros ->).
  split; [rewrite Htab, FlightFacts.sget_sset by done; by rewrite decide_True | split_and!; [| done |]].
  - apply map_lookup_filter_Some. split; [done |]. by apply (waits_later thr la before (time_sent y) y).
  - intros b Hb. by apply (waits_later thr la before b y).
Qed.
End Progress.
End ProgressFacts.

(** C28. An expired loss timer makes progress: when a detection left the loss
    time [L] for a space and the timer armed for it expires later, with the
    table, the largest acknowledged number, the round-trip estimate and the
    configuration as the detection left them, the timeout does not end in the
    internal error of [on_loss_detection_timeout] and at least one packet
    leaves the table. *)
Theorem loss_timer_progress {A : Type} `{Algorithm A} (order : gmap Z SentPacket -> list (Z * SentPacket))
    (order_ok : forall p, order p ≡ₚ map_to_list p) sp must n1 n2 w (s : Status.t A) p i w1 s1 L h2 r2 s2 i2 lost_ rd :
  sget (SentPacketHistory.tables w) sp = Some p -> sget (Status.pn_issuers s) sp = Some i ->
  0 < Status.loss_delay s < 2 ^ 62 -> map_Forall (fun _ x => 0 <= time_sent x < 2 ^ 62) p ->
  Status.detect_and_remove_lost_packet (SentPacketHistory.remove_lost_callback order) sp must n1 n2 (w, s) = (true, (w1, s1)) ->
  sget (LossTimer.loss_time (Status.loss s1)) sp = Some L -> L <> 0 ->
  sget h2 sp = sget (SentPacketHistory.tables w1) sp -> Status.config s2 = Status.config s1 -> Status.rtt s2 = Status.rtt s1 ->
  sget (Status.pn_issuers s2) sp = Some i2 ->
  PacketNumberIssuer.largest_acked_packet i2 = PacketNumberIssuer.largest_acked_packet i ->
  LossTimer.state (Status.loss s2) = wait_for_loss -> LossTimer.timer_space (Status.loss s2) = sp ->
  LossTimer.timer (Status.loss s2) = time.set_deadline L -> L < rd 0%nat -> L < rd 1%nat < 2 ^ 62 ->
  let '(e, (w3, _)) := SentPacketHistory.maybe_loss_detection_timeout order lost_ rd (h2, r2, s2) in
  e = None /\ exists p2 p3, sget h2 sp = Some p2 /\ sget (SentPacketHistory.tables w3) sp = Some p3 /\ p3 ⊂ p2.
Proof.
  intros Hp Hi Hd Ht Hdet HL Hnz Hh2 Hc2 Hr2 Hi2 Hla Hst Hsp Htm Hrd0 Hrd1.
  destruct (ProgressFacts.waiting_packet order order_ok sp must n1 n2 w s p i w1 s1 L Hp Hi Hd Ht Hdet HL Hnz)
    as (Hc1 & Hd1 & HL0 & p1 & k & x & Hp1 & Hk & HLx & Hlost).
  assert (Hdelay : Status.loss_delay s2 = Status.loss_delay s) by (rewrite <- Hd1; unfold Status.loss_delay; by rewrite Hc2, Hr2).
  unfold SentPacketHistory.maybe_loss_detection_timeout, Status.is_loss_timeout, LossTimer.timeout. rewrite Htm.
  unfold time.set_deadline. rewrite (proj2 (Z.leb_le 0 L) HL0 : time.valid L = true). cbn [negb]. unfold time.timeout, time.invalid.
  rewrite eqb_false, ltb_true by lia. cbn [andb negb]. unfold Status.on_loss_detection_timeout. rewrite Hst, Hsp. cbv beta.
  rewrite <- Hh2 in Hp1. pose proof (ProgressFacts.detect_progress order order_ok sp (rd 1%nat) (rd 2%nat)
    (SentPacketHistory.mk_world h2 r2 None [] lost_) s2 p1 i2 k x Hp1 Hi2) as H2.
  rewrite Hdelay, Hc2, Hc1, Hla, s64_small in H2 by (unfold is_s64; lia).
  specialize (H2 ltac:(apply Z.leb_le; lia) Hk (Hlost (rd 1%nat - Status.loss_delay s) ltac:(lia))).
  clear Hdet. destruct (Status.detect_and_remove_lost_packet _ _ _ _ _ _) as [ok [w3 s3]]. destruct H2 as (-> & p3 & Hp3 & Hsub). cbn [negb].
  split; [done |]. by exists p1, p3.
Qed.

Module ProgressExample.
Import SentPacketHistory.

Definition packet : SentPacket := mk_sent Types.OneRTT 7 0 None 1200 1000 packetnum.infinity.
Definition world : World := mk_world (mk_spaces ∅ ∅ {[0 := packet]}) ∅ None [] (Some []).
Definition issuer : PacketNumberIssuer.t := PacketNumberIssuer.mk 2 1 1 1000 1 0.
(** Packet 1 was acknowledged after 100 ms, packet 0 was not. *)
Definition state : Status.t NewReno.t :=
  Status.set_issuers (mk_spaces PacketNumberIssuer.reset PacketNumberIssuer.reset issuer)
    (Status.set_rtt (RTT.mk 100 100 100 50 0 1100) (Status.reset default_config NewReno.new false 1200 900)).
Definition detected : bool * (World * Status.t NewReno.t) :=
  Status.detect_and_remove_lost_packet (remove_lost_callback map_to_list) application false 1050 1050 (world, state).
Definition armed : Status.t NewReno.t := Status.set_loss_detection_timer 1050 1050 detected.2.2.
Definition expired : option Error * (World * Status.t NewReno.t) :=
  maybe_loss_detection_timeout map_to_list (Some []) (fun _ => 1113) (tables detected.2.1, ∅, armed).
End ProgressExample.

Theorem loss_detection_exact_witness :
  SentPacketHistory.tables ProgressExample.detected.2.1 = SentPacketHistory.tables ProgressExample.world /\
  sget (LossTimer.loss_time (Status.loss ProgressExample.detected.2.2)) application = Some 1112.
Proof.
  split; [| vm_compute; reflexivity].
  pose proof (loss_detection_exact map_to_list (fun p => reflexivity _) application false 1050 1050 ProgressExample.world
    ProgressExample.state _ _ eq_refl eq_refl ltac:(vm_compute; split; reflexivity)
    ltac:(apply map_Forall_singleton; vm_compute; split; [discriminate | reflexivity])) as H1.
  cbv zeta in H1. unfold ProgressExample.detected. destruct (Status.detect_and_remove_lost_packet _ _ _ _ _ _) as [ok [w' s']].
  cbn [fst snd]. destruct H1 as (_ & -> & _). vm_compute. reflexivity.
Defined.

Theorem loss_timer_progress_witness :
  fst ProgressExample.expired = None /\
  exists p2 p3, sget (SentPacketHistory.tables ProgressExample.detected.2.1) application = Some p2 /\
    sget (SentPacketHistory.tables ProgressExample.expired.2.1) application = Some p3 /\ p3 ⊂ p2.
Proof.
  pose proof (loss_timer_progress map_to_list (fun p => reflexivity _) application false 1050 1050 ProgressExample.world
    ProgressExample.state _ _ ProgressExample.detected.2.1 ProgressExample.detected.2.2 1112
    (SentPacketHistory.tables ProgressExample.detected.2.1) ∅ ProgressExample.armed ProgressExample.issuer (Some []) (fun _ => 1113)
    eq_refl eq_refl ltac:(vm_compute; split; reflexivity)
    ltac:(apply map_Forall_singleton; vm_compute; split; [discriminate | reflexivity])
    ltac:(vm_compute; reflexivity) ltac:(vm_compute; reflexivity) ltac:(discriminate) eq_refl
    ltac:(vm_compute; reflexivity) ltac:(vm_compute; reflexivity) ltac:(vm_compute; reflexivity) ltac:(vm_compute; reflexivity)
    ltac:(vm_compute; reflexivity) ltac:(vm_compute; reflexivity) ltac:(vm_compute; reflexivity) ltac:(lia) ltac:(lia)) as H1.
  unfold ProgressExample.expired. destruct (SentPacketHistory.maybe_loss_detection_timeout _ _ _ _) as [e [w3 s3]].
  exact H1.
Defined.

(** ** Acknowledged packets *)

Module AckScanFacts.
Import SentPacketHistory DetectFacts.

Section Ack.
Context {A : Type} `{Algorithm A}.

Definition largest_of (s : Status.t A) (sp : PacketNumberSpace) : option Z :=
  option_map PacketNumberIssuer.largest_acked_packet (sget (Status.pn_issuers s) sp).

Definition ack_frame (s s' : Status.t A) : Prop :=
  Status.config s' = Status.config s /\ Status.rtt s' = Status.rtt s /\ forall sp, largest_of s' sp = largest_of s sp.

Lemma filter_perm {B} (f : B -> bool) l l' : l ≡ₚ l' -> List.filter f l ≡ₚ List.filter f l'.
Proof.
  induction 1 as [| x l l' _ IH | x y l | l1 l2 l3 _ IH1 _ IH2]; simpl; [done | by destruct (f x); rewrite IH | | by rewrite IH1].
  destruct (f x), (f y); done || constructor.
Qed.

Lemma largest_set sp sp' i i' (s : Status.t A) :
  sget (Status.pn_issuers s) sp = Some i ->
  PacketNumberIssuer.largest_acked_packet i' = PacketNumberIssuer.largest_acked_packet i ->
  largest_of (Status.set_issuers (sset sp i' (Status.pn_issuers s)) s) sp' = largest_of s sp'.
Proof.
  intros Hi E. unfold largest_of. assert (sp <> no_space) by (by intros ->). cbn. rewrite FlightFacts.sget_sset by done.
  destruct (decide (sp = sp')) as [<- |]; [| done]. rewrite Hi. cbn. by rewrite E.
Qed.

Lemma update_frame sp f (s : Status.t A) :
  (forall i, PacketNumberIssuer.largest_acked_packet (f i) = PacketNumberIssuer.largest_acked_packet i) ->
  ack_frame s (Status.update_issuer sp f s).
Proof.
  intros Hf. unfold Status.update_issuer. destruct (sget _ _) as [i |] eqn:Hi; [| done].
  split_and!; [done | done |]. intros sp'. by apply (largest_set _ _ i).
Qed.

Lemma decrement_largest st i :
  PacketNumberIssuer.largest_acked_packet (PacketNumberIssuer.decrement_ack_eliciting_in_flight st i) =
  PacketNumberIssuer.largest_acked_packet i.
Proof. unfold PacketNumberIssuer.decrement_ack_eliciting_in_flight. by destruct (PacketNumberIssuer.counts_in_flight st). Qed.

Lemma ecn_frame sp e time (s : Status.t A) :
  ack_frame s (Status.process_ecn sp e time s).
Proof.
  unfold Status.process_ecn. destruct (sget _ _) as [i |] eqn:Hi; [| done]. unfold PacketNumberIssuer.is_ecn_ce_updated.
  destruct (_ <? _); (split_and!; [done | done |]; intros sp'; by apply (largest_set _ _ i)).
Qed.

Lemma ack_frame_trans (s1 s2 s3 : Status.t A) : ack_frame s1 s2 -> ack_frame s2 s3 -> ack_frame s1 s3.
Proof. intros (A1 & A2 & A3) (B1 & B2 & B3). split_and!; [congruence | congruence |]. intros sp. by rewrite B3. Qed.

Lemma acked_loop_spec sp ranges lg sm l : forall p acked (a : Status.AckScan A),
  NoDup l.*1 ->
  let ack x := Status.in_ack_ranges (packet_number x) ranges lg sm in
  let '(ok, p', acked', a') := acked_loop (Status.is_ack sp ranges lg sm) l p acked a in
  ok = negb (existsb (fun kx => ack kx.2 && PacketStatus.is_skipped (sp_status kx.2)) l) /\
  (ok = true ->
    (forall k, p' !! k = if existsb (fun kx => (kx.1 =? k) && ack kx.2) l then None else p !! k) /\
    acked' = acked ++ List.filter ack l.*2 /\ ack_frame (Status.ac_status a) (Status.ac_status a')).
Proof.
  induction l as [| [k x] l IH]; intros p acked a Hn ack.
  { cbn. split; [done |]. intros _. by rewrite app_nil_r. }
  rewrite fmap_cons in Hn. apply NoDup_cons in Hn as [Hk Hn]. rewrite !fmap_cons.
  cbn [acked_loop existsb fst snd List.filter]. unfold Status.is_ack at 1. fold (ack x). destruct (ack x) eqn:Ea; cbn [negb andb].
  - destruct (PacketStatus.is_skipped (sp_status x)) eqn:Es; [done |]. cbn [orb].
    set (a1 := Status.mk_ack_scan _ _ _ _ _ _ _ _). specialize (IH (delete k p) (acked ++ [x]) a1 Hn). cbv zeta in IH. fold ack in IH.
    destruct (acked_loop _ _ _ _ a1) as [[[ok p'] acked'] a']. destruct IH as [-> IH]. split; [done |]. intros Hok.
    destruct (IH Hok) as (Hp & -> & Hf). split_and!; [| by rewrite <- app_assoc |].
    + intros k'. rewrite Hp, andb_true_r. destruct (Z.eqb_spec k k') as [-> | Hne]; cbn [orb].
      * case_match; [done |]. by simplify_map_eq.
      * case_match; [done |]. by rewrite lookup_delete_ne.
    + apply (ack_frame_trans _ (Status.ac_status a1)); [| done].
      exact (update_frame sp _ (Status.ac_status a) (decrement_largest (sp_status x))).
  - specialize (IH p acked a Hn). cbv zeta in IH. fold ack in IH. destruct (acked_loop _ _ _ _ a) as [[[ok p'] acked'] a'].
    destruct IH as [-> IH]. split; [done |]. intros Hok. destruct (IH Hok) as (Hp & Hac & Hf). split_and!; [| done | done].
    intros k'. by rewrite Hp, andb_false_r.
Qed.

Lemma confirm_keeps limited l : forall w (a : Status.AckScan A),
  let '(w', a') := foldl (fun '(w, a) r =>
      (mk_world (tables w) (mark_as_ack (waiter r) (recs w)) (err w) (acked w) (lost w),
       Status.apply_ack limited (sent_bytes r) (time_sent r) (sp_status r) a)) (w, a) l in
  tables w' = tables w /\ acked w' = acked w /\ lost w' = lost w /\ err w' = err w /\
  Status.config (Status.ac_status a') = Status.config (Status.ac_status a) /\
  Status.rtt (Status.ac_status a') = Status.rtt (Status.ac_status a).
Proof.
  induction l as [| x l IH]; intros w a; cbn [foldl]; [done |].
  specialize (IH (mk_world (tables w) (mark_as_ack (waiter x) (recs w)) (err w) (acked w) (lost w))
    (Status.apply_ack limited (sent_bytes x) (time_sent x) (sp_status x) a)).
  by destruct (foldl _ _ l).
Qed.

Lemma set_timer_keeps n1 n2 (s : Status.t A) :
  Status.config (Status.set_loss_detection_timer n1 n2 s) = Status.config s /\
  Status.rtt (Status.set_loss_detection_timer n1 n2 s) = Status.rtt s.
Proof. unfold Status.set_loss_detection_timer. by destruct (LossTimer.set_loss_detection_timer _ _ _ _ _ _ _ _). Qed.

Lemma loss_delay_ext (s s' : Status.t A) :
  Status.config s' = Status.config s -> Status.rtt s' = Status.rtt s -> Status.loss_delay s' = Status.loss_delay s.
Proof. intros E1 E2. unfold Status.loss_delay. by rewrite E1, E2. Qed.

Context (order : gmap Z SentPacket -> list (Z * SentPacket)) (order_ok : forall p, order p ≡ₚ map_to_list p).

(** What follows the removal of the acknowledged packets. *)
Lemma after_spec sp delay ecn lg limited rd w (a : Status.AckScan A) p la :
  sget (tables w) sp = Some p -> largest_of (Status.ac_status a) sp = Some la ->
  let '(ok, (w', a')) := Status.after_remove_acked_packets sp delay ecn lg (remove_lost_callback order) limited rd
                           confirm_acked (w, a) in
  ok = true ->
  let lost := lostb (packet_order_threshold (Status.config (Status.ac_status a))) la
                (s64 (rd 2%nat - Status.loss_delay (Status.ac_status a'))) in
  tables w' = sset sp (filter (fun kx => lost kx.2 = false) p) (tables w) /\ acked w' = acked w /\
  SentPacketHistory.lost w' = option_map (fun r => r ++ List.filter lost (order p).*2) (SentPacketHistory.lost w).
Proof.
  intros Hp Hla. unfold Status.after_remove_acked_packets. destruct (1 <=? _); [done |].
  set (a1 := Status.mk_ack_scan _ _ _ _ _ _ _ _).
  assert (Hs : let '(_, a2) := Status.ack_sample delay lg rd a1 in
    Status.config (Status.ac_status a2) = Status.config (Status.ac_status a) /\ largest_of (Status.ac_status a2) sp = Some la).
  { unfold Status.ack_sample. destruct (_ && _); [| done]. by destruct (RTT.sample_rtt _ _ _ _ _). }
  destruct (Status.ack_sample delay lg rd a1) as [ok1 a2]. destruct Hs as [Hc2 Hl2]. destruct ok1; cbn [negb]; [| done].
  set (a3 := match ecn with Some _ => _ | None => _ end).
  assert (Hf3 : ack_frame (Status.ac_status a2) (Status.ac_status a3)) by (subst a3; destruct ecn; [apply ecn_frame | done]).
  destruct Hf3 as (Hc3 & Hr3 & Hl3). specialize (Hl3 sp). rewrite Hl2 in Hl3. unfold largest_of in Hl3.
  destruct (sget (Status.pn_issuers (Status.ac_status a3)) sp) as [i |] eqn:Hi; [| done]. injection Hl3 as Hl3.
  destruct (time.valid (Status.loss_delay (Status.ac_status a3))) eqn:Hv; cycle 1.
  { unfold Status.detect_and_remove_lost_packet. by rewrite Hi, Hv. }
  pose proof (detect_spec order order_ok sp false (rd 2%nat) (rd 3%nat) w (Status.ac_status a3) p i Hp Hi Hv) as Hd. cbv zeta in Hd.
  rewrite Hl3, Hc3, Hc2 in Hd. destruct (Status.detect_and_remove_lost_packet _ _ _ _ _ _) as [ok2 [w2 s2]].
  destruct Hd as (-> & Ht & _ & Ha & Hlo & (Hc4 & Hr4 & _) & _). cbn [negb orb]. unfold confirm_acked.
  pose proof (confirm_keeps limited (acked w2) w2 (Status.set_ac_status s2 a3)) as Hk.
  destruct (foldl _ _ _) as [w4 a4]. destruct Hk as (K1 & K2 & K3 & _ & K4 & K5). intros _. cbn [Status.ac_status]. cbv zeta.
  match goal with |- context [Status.set_loss_detection_timer ?n1 ?n2 ?s0] => destruct (set_timer_keeps n1 n2 s0) as [E1 E2] end.
  rewrite (loss_delay_ext (Status.ac_status a3)); [| by rewrite E1; cbn; rewrite K4; cbn; rewrite Hc4
    | by rewrite E2; cbn; rewrite K5; cbn; rewrite Hr4].
  by rewrite K1, K2, K3.
Qed.

(** A processed acknowledgement sets no error of its own. *)
Lemma after_err sp delay ecn lg limited rd w (a : Status.AckScan A) p :
  sget (tables w) sp = Some p ->
  err (snd (Status.after_remove_acked_packets sp delay ecn lg (remove_lost_callback order) limited rd confirm_acked (w, a))).1 = err w.
Proof.
  intros Hp. unfold Status.after_remove_acked_packets. destruct (1 <=? _); [done |].
  destruct (Status.ack_sample delay lg rd _) as [ok1 a2]. destruct ok1; cbn [negb]; [| done].
  set (s3 := Status.ac_status _).
  assert (He : err (snd (Status.detect_and_remove_lost_packet (remove_lost_callback order) sp false (rd 2%nat) (rd 3%nat) (w, s3))).1 = err w).
  { destruct (sget (Status.pn_issuers s3) sp) as [i |] eqn:Hi; [| unfold Status.detect_and_remove_lost_packet; by rewrite Hi].
    destruct (time.valid (Status.loss_delay s3)) eqn:Hv; [| unfold Status.detect_and_remove_lost_packet; by rewrite Hi, Hv].
    pose proof (detect_spec order order_ok sp false (rd 2%nat) (rd 3%nat) w s3 p i Hp Hi Hv) as Hd. cbv zeta in Hd.
    destruct (Status.detect_and_remove_lost_packet _ _ _ _ _ _) as [ok2 [w2 s2]]. by destruct Hd as (_ & _ & He & _). }
  destruct (Status.detect_and_remove_lost_packet _ _ _ _ _ _) as [ok2 [w2 s2]]. cbn in He. destruct ok2; cbn [negb]; [| done].
  unfold confirm_acked. set (a3 := Status.set_ac_status s2 _). pose proof (confirm_keeps limited (acked w2) w2 a3) as Hk.
  destruct (foldl _ _ _) as [w4 a4]. destruct Hk as (_ & _ & _ & K & _). cbn. by rewrite K.
Qed.
End Ack.
End AckScanFacts.

(** C11. A successful [on_ack_received] removes from the table of its space
    exactly the packets that a range of the ACK frame contains or that the
    thresholds of RFC 9002 (6.1), with the loss delay of the code, declare lost
    given the new largest acknowledged number and the new round-trip estimate;
    it reports the former as acknowledged and those of the
    latter that are not acknowledged as lost. The other tables stay as they
    are. *)
Theorem ack_removes_exactly {A : Type} `{Algorithm A} (order : gmap Z SentPacket -> list (Z * SentPacket))
    (order_ok : forall p, order p ≡ₚ map_to_list p) sp lost_ ack limited rd h r (s : Status.t A) p i w s' :
  sget h sp = Some p -> sget (Status.pn_issuers s) sp = Some i ->
  SentPacketHistory.on_ack_received order sp [] lost_ ack limited rd (h, r, s) = (None, (w, s')) ->
  let ranges := fst (convert_from_ACKFrame ack) in
  let acked x := existsb (AckFacts.contains (packet_number x)) ranges in
  let la := PacketNumberIssuer.largest_acked_packet
              (PacketNumberIssuer.on_ack_received (varint.value (ACKFrame.largest_ack ack)) i) in
  let lost := DetectFacts.lostb (packet_order_threshold (Status.config s)) la (s64 (rd 2%nat - Status.loss_delay s')) in
  let kept := filter (fun kx => acked kx.2 = false) p in
  SentPacketHistory.tables w = sset sp (filter (fun kx => lost kx.2 = false) kept) h /\
  SentPacketHistory.acked w ≡ₚ List.filter acked (map_to_list p).*2 /\
  SentPacketHistory.lost w = option_map (fun l => l ++ List.filter lost (order kept).*2) lost_.
Proof.
  intros Hp Hi. unfold SentPacketHistory.on_ack_received. unfold convert_from_ACKFrame. set (r0 := mk_range _ _). set (rs := unwire_ranges _ _).
  destruct (is_sorted_ack_ranges (r0 :: rs)) eqn:Hsort; [| done]. cbn [negb fst].
  set (ecn := if FrameFlags.type_detail (ACKFrame.type ack) =? FrameType.ACK_ECN then _ else None). unfold Status.on_ack_received.
  destruct (last (r0 :: rs)) as [rn |] eqn:Hl; [| done]. set (s1 := Status.update_issuer _ _ _).
  assert (Hsp : sp <> no_space) by (by intros ->).
  assert (Hs1 : Status.config s1 = Status.config s /\ AckScanFacts.largest_of s1 sp = Some (PacketNumberIssuer.largest_acked_packet
      (PacketNumberIssuer.on_ack_received (varint.value (ACKFrame.largest_ack ack)) i))).
  { subst s1. unfold Status.update_issuer, AckScanFacts.largest_of. cbn [Status.pn_issuers Status.set_hs]. rewrite Hi. split; [done |].
    cbn. rewrite FlightFacts.sget_sset by done. by rewrite decide_True. }
  destruct Hs1 as [Hc1 Hla]. unfold SentPacketHistory.remove_acked. cbn [SentPacketHistory.tables]. rewrite Hp.
  set (a0 := Status.mk_ack_scan _ _ _ _ _ _ _ _).
  pose proof (AckScanFacts.acked_loop_spec sp (r0 :: rs) (largest r0) (smallest rn) (order p) p [] a0
    (DetectFacts.order_nodup order order_ok p)) as H1. cbv zeta in H1.
  cbn [SentPacketHistory.acked].
  destruct (SentPacketHistory.acked_loop _ _ _ _ a0) as [[[ok p'] acked'] a1]. destruct H1 as [_ H1].
  destruct ok; cbn [negb]; [| by destruct (SentPacketHistory.err _)]. destruct (H1 eq_refl) as (Hp' & -> & Hc & _ & Hlf).
  apply (DetectFacts.delete_filter order order_ok
    (fun x => Status.in_ack_ranges (packet_number x) (r0 :: rs) (largest r0) (smallest rn))) in Hp'.
  pose proof (fun x : SentPacket => AckFacts.in_ack_ranges_exact (packet_number x) r0 rs rn Hsort Hl) as Hex.
  assert (Hkept : p' = filter (fun kx => existsb (AckFacts.contains (packet_number kx.2)) (r0 :: rs) = false) p).
  { rewrite Hp'. apply map_filter_ext. intros k x _. cbn [snd]. by rewrite Hex. }
  clear Hp'. rename Hkept into Hp'.
  rewrite (List.filter_ext _ _ Hex). set (acked := fun x => existsb _ (r0 :: rs)) in *. clear Hex H1.
  set (w0 := SentPacketHistory.mk_world _ _ _ _ _).
  pose proof (AckScanFacts.after_spec order order_ok sp (varint.value (ACKFrame.ack_delay ack)) ecn (largest r0) limited rd w0 a1 p' _
    ltac:(cbn; rewrite FlightFacts.sget_sset by done; by rewrite decide_True) ltac:(rewrite Hlf; exact Hla)) as H2. cbv zeta in H2.
  destruct (Status.after_remove_acked_packets _ _ _ _ _ _ _ _ _) as [ok [w2 a2]].
  destruct ok; cbn [negb]; [| by destruct (SentPacketHistory.err w2)]. specialize (H2 eq_refl). destruct H2 as (T & Ac & Lo).
  destruct (_ || _); [by destruct (SentPacketHistory.err w2) |].
  destruct (Status.after_call_res a2); [| by destruct (SentPacketHistory.err w2)]. intros [= <- <-]. cbv zeta.
  change (Status.ac_status a0) with s1 in Hc. rewrite Hc, Hc1 in T, Lo. split_and!.
  - rewrite T, Hp'. cbn. by rewrite FlightFacts.sset_sset.
  - rewrite Ac. cbn. apply AckScanFacts.filter_perm, fmap_Permutation, order_ok.
  - by rewrite Lo, Hp'.
Qed.

(** The entries registered for skipped packet numbers all carry packet
    number 0, so an acknowledgement is refused with PROTOCOL_VIOLATION exactly
    when some number was skipped and packet 0 is among the acknowledged ones:
    an honest peer that acknowledges packet 0 is accused, and one that
    acknowledges a number that was never sent is not. *)
Theorem skipped_number_confused {A : Type} `{Algorithm A} (order : gmap Z SentPacket -> list (Z * SentPacket))
    (order_ok : forall p, order p ≡ₚ map_to_list p) sp lost_ ack limited rd h r (s : Status.t A) p :
  sget h sp = Some p ->
  map_Forall (fun _ x => PacketStatus.is_skipped (sp_status x) = true -> exists t, x = skipped_packet t) p ->
  snd (convert_from_ACKFrame ack) = true ->
  let violation := QUICError "skipped packet number is acknoledged" PROTOCOL_VIOLATION (FrameFlags.type_detail (ACKFrame.type ack)) in
  fst (SentPacketHistory.on_ack_received order sp [] lost_ ack limited rd (h, r, s)) = Some violation <->
  (exists k t, p !! k = Some (skipped_packet t)) /\ existsb (AckFacts.contains 0) (fst (convert_from_ACKFrame ack)) = true.
Proof.
  intros Hp Hsk. unfold SentPacketHistory.on_ack_received. unfold convert_from_ACKFrame. set (r0 := mk_range _ _). set (rs := unwire_ranges _ _).
  cbn [fst snd]. intros Hsort. rewrite Hsort. cbn [negb]. cbv zeta. unfold Status.on_ack_received.
  destruct (last (r0 :: rs)) as [rn |] eqn:Hl; [| by destruct rs as [| r1 rs] using rev_ind; [| rewrite app_comm_cons, last_snoc in Hl]].
  set (s1 := Status.update_issuer _ _ _). unfold SentPacketHistory.remove_acked. cbn [SentPacketHistory.tables SentPacketHistory.acked].
  rewrite Hp. set (a0 := Status.mk_ack_scan _ _ _ _ _ _ _ _).
  pose proof (AckScanFacts.acked_loop_spec sp (r0 :: rs) (largest r0) (smallest rn) (order p) p [] a0
    (DetectFacts.order_nodup order order_ok p)) as H1. cbv zeta in H1.
  destruct (SentPacketHistory.acked_loop _ _ _ _ a0) as [[[ok p'] acked'] a1]. destruct H1 as [Hok _].
  assert (Hiff : ok = false <->
    (exists k t, p !! k = Some (skipped_packet t)) /\ existsb (AckFacts.contains 0) (r0 :: rs) = true).
  { rewrite Hok, negb_false_iff, existsb_exists, <- (AckFacts.in_ack_ranges_exact 0 r0 rs rn Hsort Hl). split.
    - intros ([k x] & Hin & [Ha Hx]%andb_true_iff). rewrite <- list_elem_of_In, (order_ok p) in Hin.
      apply elem_of_map_to_list in Hin. cbn in *. destruct (Hsk k x Hin Hx) as [t ->]. split; [by exists k, t | done].
    - intros [(k & t & Hk) Ha]. exists (k, skipped_packet t). rewrite <- list_elem_of_In, (order_ok p).
      split; [by apply elem_of_map_to_list |]. cbn [snd packet_number skipped_packet]. by rewrite Ha. }
  rewrite <- Hiff. clear Hiff Hok. destruct ok; cbn [negb]; [| done]. split; [| done].
  set (w0 := SentPacketHistory.mk_world _ _ _ _ _). assert (sp <> no_space) by (by intros ->).
  match goal with |- context [Status.after_remove_acked_packets _ ?d ?e ?lg _ _ _ _ _] =>
    pose proof (AckScanFacts.after_err order order_ok sp d e lg limited rd w0 a1 p'
      ltac:(cbn; rewrite FlightFacts.sget_sset by done; by rewrite decide_True)) as He end.
  destruct (Status.after_remove_acked_packets _ _ _ _ _ _ _ _ _) as [ok [w2 a2]]. cbn [fst snd] in He.
  destruct ok; cbn [negb]; [destruct (_ || _); [| destruct (Status.after_call_res a2)] |]; cbn [fst]; rewrite ?He; done.
Qed.

Module HistoryExample.
Import SentPacketHistory.

Notation state := (t * records * Status.t NewReno.t)%type (only parsing).

Definition send (sp : PacketNumberSpace) (pn now : Z) (x : state) : state :=
  let '(h, r, s) := x in
  match on_packet_sent sp (mk_sent Types.OneRTT 7 pn None 1200 0 packetnum.infinity) (fun _ => now)
          (h, Status.consume_packet_number sp s) with
  | Some (_, (h, s)) => (h, r, s)
  | None => x
  end.
Definition skip (sp : PacketNumberSpace) (x : state) : state := (x.1, Status.consume_packet_number sp x.2).
Definition ack_of (lg : Z) : ACKFrame.t :=
  let v := varint.of_uint in ACKFrame.mk FrameType.ACK (v lg) (v 0) (v 0) (v 0) [] ACKFrame.zero_ecn.
Definition acknowledge (sp : PacketNumberSpace) (lg now : Z) (x : state) : option Error * (World * Status.t NewReno.t) :=
  on_ack_received map_to_list sp [] (Some []) (ack_of lg) false (fun _ => now) x.
Definition continue (x : option Error * (World * Status.t NewReno.t)) : state := (tables x.2.1, recs x.2.1, x.2.2).

Definition start : state := (reset, ∅, Status.reset default_config NewReno.new false 1200 900).
Definition two_sent : state := send application 1 1000 (send application 0 1000 start).
(** Number 1 is skipped. *)
Definition skipped_one : state := send application 2 1000 (skip application (send application 0 1000 start)).
(** Packet 1 acknowledged after 100 ms, then a Handshake packet after 211. *)
Definition first_ack : state := continue (acknowledge application 1 1100 (send handshake 0 900 two_sent)).
Definition second_ack : state := continue (acknowledge handshake 0 1111 first_ack).
Definition alarm (x : state) : option Error := fst (maybe_loss_detection_timeout map_to_list (Some []) (fun _ => 1113) x).
End HistoryExample.

Theorem ack_removes_exactly_witness :
  let x := HistoryExample.acknowledge application 1 1100 HistoryExample.two_sent in
  fst x = None /\ SentPacketHistory.tables x.2.1 = sset application
    {[ 0 := mk_sent Types.OneRTT 7 0 None 1200 1000 packetnum.infinity ]} SentPacketHistory.reset.
Proof.
  intros x. split; [vm_compute; reflexivity |]. set (h := HistoryExample.two_sent.1.1). set (s := HistoryExample.two_sent.2).
  assert (E : SentPacketHistory.on_ack_received map_to_list application [] (Some []) (HistoryExample.ack_of 1) false
    (fun _ => 1100) (h, HistoryExample.two_sent.1.2, s) = (None, (x.2.1, x.2.2))) by (vm_compute; reflexivity).
  destruct (ack_removes_exactly map_to_list (fun p => reflexivity _) application (Some []) (HistoryExample.ack_of 1) false
    (fun _ => 1100) h HistoryExample.two_sent.1.2 s (s_app h) (s_app (Status.pn_issuers s)) x.2.1 x.2.2 eq_refl eq_refl E) as (Ht & _).
  rewrite Ht. vm_compute. reflexivity.
Defined.

(** Packets 0 and 2 were sent; the peer acknowledges packet 0. *)
Theorem skipped_number_confused_witness :
  fst (HistoryExample.acknowledge application 0 1100 HistoryExample.skipped_one) =
  Some (QUICError "skipped packet number is acknoledged" PROTOCOL_VIOLATION FrameType.ACK).
Proof.
  set (h := HistoryExample.skipped_one.1.1). set (r := HistoryExample.skipped_one.1.2). set (s := HistoryExample.skipped_one.2).
  transitivity (fst (SentPacketHistory.on_ack_received map_to_list application [] (Some []) (HistoryExample.ack_of 0) false
    (fun _ => 1100) (h, r, s))); [vm_compute; reflexivity |].
  set (p := <[2 := mk_sent Types.OneRTT 7 2 None 1200 1000 packetnum.infinity]> (<[1 := skipped_packet 1000]>
      {[0 := mk_sent Types.OneRTT 7 0 None 1200 1000 packetnum.infinity]}) : gmap Z SentPacket).
  assert (Hp : sget h application = Some p) by (vm_compute; reflexivity).
  apply (proj2 (skipped_number_confused map_to_list (fun p => reflexivity _) application (Some []) (HistoryExample.ack_of 0) false
    (fun _ => 1100) h r s p Hp ltac:(apply map_Forall_insert_2; [cbn; discriminate |]; apply map_Forall_insert_2; [by exists 1000 |];
      apply map_Forall_singleton; cbn; discriminate) ltac:(vm_compute; reflexivity))).
  split; [exists 1, 1000; reflexivity | vm_compute; reflexivity].
Defined.

(** The loss timer of one space can be outdated by an acknowledgement in
    another: two 1-RTT packets and a Handshake packet are sent, the second
    1-RTT packet is acknowledged after 100 ms, so the first would be lost at
    1112; the Handshake packet, acknowledged after 211 ms at 1111, raises the
    round-trip estimate and with it the loss delay, but not the loss time of
    the application space. The timeout then finds nothing to lose and the
    connection ends with an internal error. Without the second acknowledgement
    the same timeout succeeds. *)
Theorem stale_loss_timer_fatal :
  LossTimer.get_deadline (Status.loss HistoryExample.first_ack.2) = 1112 /\
  HistoryExample.alarm HistoryExample.first_ack = None /\
  LossTimer.get_deadline (Status.loss HistoryExample.second_ack.2) = 1112 /\
  HistoryExample.alarm HistoryExample.second_ack = Some (quic_error "internal state error. library bug!!").
Proof. vm_compute. split_and!; reflexivity. Qed.
