(* ===== verification/TransportParam.v ===== *)
(** * TransportParam: transport parameters

    Models [fnet/quic/transport_parameter]: defined_id.h, transport_param.h,
    preferred_address.h, defined_param.h and suite.h. The members of
    [DefinedTransportParams] are visited in one fixed order, which is a list
    here; the macros [VLINT], [RDATA], [WDATA] and [BOOL] are the kinds of a
    member. [to_transport_param], whose callback returns nothing on most
    paths, and the names of the ids are left out. *)

From stdpp Require Import base list strings.
From Stdlib Require Import ZArith Lia.
From S2P Require Import Prelude Bytes Varint Types FrameBase StreamId.

#[local] Open Scope string_scope.
#[local] Open Scope Z_scope.
#[local] Open Scope list_scope.

(** ** [enum class DefinedID] *)

Inductive DefinedID :=
  | original_dst_connection_id
  | max_idle_timeout
  | stateless_reset_token
  | max_udp_payload_size
  | initial_max_data
  | initial_max_stream_data_bidi_local
  | initial_max_stream_data_bidi_remote
  | initial_max_stream_data_uni
  | initial_max_streams_bidi
  | initial_max_streams_uni
  | ack_delay_exponent
  | max_ack_delay
  | disable_active_migration
  | preferred_address
  | active_connection_id_limit
  | initial_src_connection_id
  | retry_src_connection_id
  | max_datagram_frame_size
  | grease_quic_bit.

#[global] Instance DefinedID_eq_dec : EqDecision DefinedID.
Proof. solve_decision. Defined.

Definition id_code (d : DefinedID) : Z :=
  match d with
  | original_dst_connection_id => 0x0
  | max_idle_timeout => 0x1
  | stateless_reset_token => 0x2
  | max_udp_payload_size => 0x3
  | initial_max_data => 0x4
  | initial_max_stream_data_bidi_local => 0x5
  | initial_max_stream_data_bidi_remote => 0x6
  | initial_max_stream_data_uni => 0x7
  | initial_max_streams_bidi => 0x8
  | initial_max_streams_uni => 0x9
  | ack_delay_exponent => 0xa
  | max_ack_delay => 0xb
  | disable_active_migration => 0xc
  | preferred_address => 0xd
  | active_connection_id_limit => 0xe
  | initial_src_connection_id => 0xf
  | retry_src_connection_id => 0x10
  | max_datagram_frame_size => 0x20
  | grease_quic_bit => 0x2ab2
  end.

(** The order in which the members are visited; a position is the [index] of
    the source. *)
Definition defined_ids : list DefinedID :=
  [original_dst_connection_id; max_idle_timeout; stateless_reset_token; max_udp_payload_size; initial_max_data; initial_max_stream_data_bidi_local; initial_max_stream_data_bidi_remote; initial_max_stream_data_uni; initial_max_streams_bidi; initial_max_streams_uni; ack_delay_exponent; max_ack_delay; disable_active_migration; preferred_address; active_connection_id_limit; initial_src_connection_id; retry_src_connection_id; max_datagram_frame_size; grease_quic_bit].

Definition implemented_defined : nat := 19.

(** [DefinedID(id_raw)]: an [int] enumeration. *)
Definition is_id (raw : Z) (d : DefinedID) : bool := s32 raw =? id_code d.

Definition both_set : list DefinedID :=
  [max_idle_timeout; max_udp_payload_size; initial_max_data; initial_max_stream_data_bidi_local;
   initial_max_stream_data_bidi_remote; initial_max_stream_data_uni; initial_max_streams_bidi; initial_max_streams_uni;
   ack_delay_exponent; max_ack_delay; disable_active_migration; active_connection_id_limit; initial_src_connection_id;
   max_datagram_frame_size; grease_quic_bit].
Definition is_defined_both_set_allowed (raw : Z) : bool := existsb (is_id raw) both_set.
Definition is_defined_server_set_allowed (raw : Z) : bool :=
  is_defined_both_set_allowed raw ||
  existsb (is_id raw) [original_dst_connection_id; preferred_address; stateless_reset_token; retry_src_connection_id].
Definition is_defined (raw : Z) : bool := is_defined_server_set_allowed raw.

(** ** [struct TransportParamValue] and [struct TransportParameter] *)

Module TransportParamValue.
Inductive t := byts (b : list Z) | qvint (v : varint.Value).

(** [parse] assigns the bytes of the union; it is called on a fresh value. *)
Definition parse (len : Z) (r : reader) : bool * t * reader :=
  let '(data, ok, r) := read_internal r len in (ok, byts data, r).
Definition len (v : t) : Z := match v with qvint x => varint.len x | byts b => size b end.
Definition render (v : t) : writer -> bool * writer :=
  match v with qvint x => varint.write x | byts b => wr_write b end.
Definition as_qvarint (v : t) : bool * t :=
  match v with
  | qvint _ => (true, v)
  | byts b =>
      let '(x, ok, r) := varint.read (new_reader b) in
      if ok && rd_empty r then (true, qvint x) else (false, v)
  end.
Definition as_bytes (v : t) : bool := match v with qvint _ => false | byts _ => true end.
Definition qvarint (v : t) : varint.Value := match v with qvint x => x | byts _ => varint.of_uint u64_max end.
Definition bytes (v : t) : list Z := match v with qvint _ => [] | byts b => b end.
End TransportParamValue.

Module TransportParameter.
Record t := mk { id : varint.Value; length : varint.Value; data : TransportParamValue.t }.
Definition new : t := mk (varint.of_uint 0) (varint.of_uint 0) (TransportParamValue.byts []).

Definition parse : t * reader -> bool * (t * reader) :=
  varint.read_to (fun v p => mk v (length p) (data p)) ;&
  varint.read_to (fun v p => mk (id p) v (data p)) ;&
  (fun '(p, r) =>
     let '(ok, d, r) := TransportParamValue.parse (varint.value (length p)) r in (ok, (mk (id p) (length p) d, r))).
Definition len (use_length_field : bool) (p : t) : Z :=
  varint.len (id p) +
  (if use_length_field then varint.len (length p) else varint.len (varint.of_uint (TransportParamValue.len (data p)))) +
  TransportParamValue.len (data p).
Definition render (p : t) : writer -> bool * writer :=
  varint.write (id p) ;& varint.write (varint.of_uint (TransportParamValue.len (data p))) ;&
  TransportParamValue.render (data p).
End TransportParameter.

(** [make_transport_param] on bytes and on a number. *)
Definition make_bytes (d : DefinedID) (b : list Z) : TransportParameter.t :=
  TransportParameter.mk (varint.of_uint (id_code d)) (varint.of_uint 0) (TransportParamValue.byts b).
Definition make_num (d : DefinedID) (n : Z) : TransportParameter.t :=
  TransportParameter.mk (varint.of_uint (id_code d)) (varint.of_uint 0) (TransportParamValue.qvint (varint.of_uint n)).

(** ** [struct PreferredAddress] *)

Module PreferredAddress.
Record t := mk {
  ipv4_address : list Z;
  ipv4_port : Z;
  ipv6_address : list Z;
  ipv6_port : Z;
  connectionID_length : Z;
  connectionID : list Z;
  token : list Z;                (* stateless_reset_token *)
  enable : bool
}.
(** The token is not initialised; what it holds is not read before it is
    parsed. *)
Definition new : t := mk (replicate 4 0) 0 (replicate 16 0) 0 0 [] (replicate 16 0) false.

(** [read_flex] into the connection id; the length is one byte, below
    [max_size()]. *)
Definition read_id : t * reader -> bool * (t * reader) :=
  fun '(a, r) =>
    if size (rd_remain r) <? connectionID_length a then (false, (a, r))
    else rd_field connectionID_length
      (fun d a => mk (ipv4_address a) (ipv4_port a) (ipv6_address a) (ipv6_port a) (connectionID_length a) d (token a) (enable a))
      (a, r).

Definition parse : t * reader -> bool * (t * reader) :=
  rd_array_field ipv4_address
    (fun d a => mk d (ipv4_port a) (ipv6_address a) (ipv6_port a) (connectionID_length a) (connectionID a) (token a) (enable a)) ;&
  rd_num_field 2 ipv4_port
    (fun v a => mk (ipv4_address a) v (ipv6_address a) (ipv6_port a) (connectionID_length a) (connectionID a) (token a) (enable a)) ;&
  rd_array_field ipv6_address
    (fun d a => mk (ipv4_address a) (ipv4_port a) d (ipv6_port a) (connectionID_length a) (connectionID a) (token a) (enable a)) ;&
  rd_num_field 2 ipv6_port
    (fun v a => mk (ipv4_address a) (ipv4_port a) (ipv6_address a) v (connectionID_length a) (connectionID a) (token a) (enable a)) ;&
  rd_array_field (fun a => [connectionID_length a])
    (fun d a => mk (ipv4_address a) (ipv4_port a) (ipv6_address a) (ipv6_port a) (default 0 (d !! 0%nat)) (connectionID a) (token a) (enable a)) ;&
  read_id ;&
  rd_array_field token
    (fun d a => mk (ipv4_address a) (ipv4_port a) (ipv6_address a) (ipv6_port a) (connectionID_length a) (connectionID a) d (enable a)) ;&
  setM (fun a => mk (ipv4_address a) (ipv4_port a) (ipv6_address a) (ipv6_port a) (connectionID_length a) (connectionID a) (token a) true).

Definition len (a : t) : Z := 4 + 2 + 16 + 2 + 1 + size (connectionID a) + 16.

Definition render (a : t) : writer -> bool * writer :=
  if (size (connectionID a) =? 0) || (0xff <? size (connectionID a)) then fun w => (false, w)
  else
    wr_write (ipv4_address a) ;& write_num 2 (ipv4_port a) ;& wr_write (ipv6_address a) ;& write_num 2 (ipv6_port a) ;&
    wr_fill (u8 (size (connectionID a))) 1 ;& wr_write (connectionID a) ;& wr_write (token a).
End PreferredAddress.

Definition enough_to_store_preferred_address : nat := 4 + 2 + 16 + 2 + 1 + 20 + 16.

(** ** [struct DefinedTransportParams] *)

Record DuplicateSetChecker := mk_checker { check : list bool; detect : bool }.
Definition new_checker : DuplicateSetChecker := mk_checker (replicate implemented_defined false) false.

(** [param.data.qvarint() == n] reads all ones when the data is not a
    number. *)
Definition is_default_value (p : TransportParameter.t) : bool :=
  let raw := varint.value (TransportParameter.id p) in
  let val := varint.value (TransportParamValue.qvarint (TransportParameter.data p)) in
  if is_id raw max_udp_payload_size then val =? 65527
  else if is_id raw ack_delay_exponent then val =? 3
  else if is_id raw max_ack_delay then val =? 25
  else if is_id raw active_connection_id_limit then val =? 2
  else if existsb (is_id raw) [max_idle_timeout; initial_max_data; initial_max_stream_data_bidi_local;
      initial_max_stream_data_bidi_remote; initial_max_stream_data_uni; initial_max_streams_bidi;
      initial_max_streams_uni; max_datagram_frame_size]
  then val =? 0
  else false.

Definition must_greater_or_equal_if_0RTT (d : DefinedID) : bool :=
  bool_decide (d ∈ [active_connection_id_limit; initial_max_data; initial_max_stream_data_bidi_local;
    initial_max_stream_data_bidi_remote; initial_max_stream_data_uni; initial_max_streams_bidi; initial_max_streams_uni;
    max_datagram_frame_size]).

Inductive member_kind := VLINT | RDATA | WDATA | BOOL | ADDR.
Definition kind_of (d : DefinedID) : member_kind :=
  match d with
  | original_dst_connection_id | initial_src_connection_id | retry_src_connection_id => RDATA
  | stateless_reset_token => WDATA
  | disable_active_migration | grease_quic_bit => BOOL
  | preferred_address => ADDR
  | _ => VLINT
  end.

Module DefinedTransportParams.

Record t := mk {
  p_original_dst_connection_id : list Z;
  p_max_idle_timeout : Z;
  p_stateless_reset_token : list Z;
  p_max_udp_payload_size : Z;
  p_initial_max_data : Z;
  p_initial_max_stream_data_bidi_local : Z;
  p_initial_max_stream_data_bidi_remote : Z;
  p_initial_max_stream_data_uni : Z;
  p_initial_max_streams_bidi : Z;
  p_initial_max_streams_uni : Z;
  p_ack_delay_exponent : Z;
  p_max_ack_delay : Z;
  p_disable_active_migration : bool;
  p_preferred_address : PreferredAddress.t;
  p_active_connection_id_limit : Z;
  p_initial_src_connection_id : list Z;
  p_retry_src_connection_id : list Z;
  p_max_datagram_frame_size : Z;
  p_grease_quic_bit : bool
}.

Definition new : t :=
  mk [] 0 (replicate 16 0) 65527 0 0 0 0 0 0 3 25 false PreferredAddress.new 2 [] [] 0 false.

(** The members that hold a number, the places of [VLINT]. *)
Definition get_num (d : DefinedID) (p : t) : Z :=
  match d with
  | max_idle_timeout => p_max_idle_timeout p
  | max_udp_payload_size => p_max_udp_payload_size p
  | initial_max_data => p_initial_max_data p
  | initial_max_stream_data_bidi_local => p_initial_max_stream_data_bidi_local p
  | initial_max_stream_data_bidi_remote => p_initial_max_stream_data_bidi_remote p
  | initial_max_stream_data_uni => p_initial_max_stream_data_uni p
  | initial_max_streams_bidi => p_initial_max_streams_bidi p
  | initial_max_streams_uni => p_initial_max_streams_uni p
  | ack_delay_exponent => p_ack_delay_exponent p
  | max_ack_delay => p_max_ack_delay p
  | active_connection_id_limit => p_active_connection_id_limit p
  | max_datagram_frame_size => p_max_datagram_frame_size p
  | _ => 0
  end.
Definition set_num (d : DefinedID) (v : Z) (p : t) : t :=
  let 'mk a b c e f g h i j k l m n o q r s u w := p in
  match d with
  | max_idle_timeout => mk a v c e f g h i j k l m n o q r s u w
  | max_udp_payload_size => mk a b c v f g h i j k l m n o q r s u w
  | initial_max_data => mk a b c e v g h i j k l m n o q r s u w
  | initial_max_stream_data_bidi_local => mk a b c e f v h i j k l m n o q r s u w
  | initial_max_stream_data_bidi_remote => mk a b c e f g v i j k l m n o q r s u w
  | initial_max_stream_data_uni => mk a b c e f g h v j k l m n o q r s u w
  | initial_max_streams_bidi => mk a b c e f g h i v k l m n o q r s u w
  | initial_max_streams_uni => mk a b c e f g h i j v l m n o q r s u w
  | ack_delay_exponent => mk a b c e f g h i j k v m n o q r s u w
  | max_ack_delay => mk a b c e f g h i j k l v n o q r s u w
  | active_connection_id_limit => mk a b c e f g h i j k l m n o v r s u w
  | max_datagram_frame_size => mk a b c e f g h i j k l m n o q r s v w
  | _ => p
  end.

(** The connection ids, the places of [RDATA]. *)
Definition get_data (d : DefinedID) (p : t) : list Z :=
  match d with
  | original_dst_connection_id => p_original_dst_connection_id p
  | initial_src_connection_id => p_initial_src_connection_id p
  | retry_src_connection_id => p_retry_src_connection_id p
  | _ => []
  end.
Definition set_data (d : DefinedID) (v : list Z) (p : t) : t :=
  let 'mk a b c e f g h i j k l m n o q r s u w := p in
  match d with
  | original_dst_connection_id => mk v b c e f g h i j k l m n o q r s u w
  | initial_src_connection_id => mk a b c e f g h i j k l m n o q v s u w
  | retry_src_connection_id => mk a b c e f g h i j k l m n o q r v u w
  | _ => p
  end.

(** The flags, the places of [BOOL]. *)
Definition get_flag (d : DefinedID) (p : t) : bool :=
  match d with
  | disable_active_migration => p_disable_active_migration p
  | grease_quic_bit => p_grease_quic_bit p
  | _ => false
  end.
Definition set_flag (d : DefinedID) (v : bool) (p : t) : t :=
  let 'mk a b c e f g h i j k l m n o q r s u w := p in
  match d with
  | disable_active_migration => mk a b c e f g h i j k l m v o q r s u w
  | grease_quic_bit => mk a b c e f g h i j k l m n o q r s u v
  | _ => p
  end.

Definition set_token (v : list Z) (p : t) : t :=
  let 'mk a b c e f g h i j k l m n o q r s u w := p in mk a b v e f g h i j k l m n o q r s u w.
Definition set_address (v : PreferredAddress.t) (p : t) : t :=
  let 'mk a b c e f g h i j k l m n o q r s u w := p in mk a b c e f g h i j k l m n v q r s u w.
(** The callback of a member: [vlint], [rdata], [wdata], [bool_] or [addr]. *)
Definition store (d : DefinedID) (data : TransportParamValue.t) (accept_zero_rtt : bool) (p : t) : bool * t :=
  match kind_of d with
  | VLINT =>
      let '(ok, data) := TransportParamValue.as_qvarint data in
      if negb ok then (false, p)
      else
        let val := varint.value (TransportParamValue.qvarint data) in
        if accept_zero_rtt && must_greater_or_equal_if_0RTT d && (val <? get_num d p) then (false, p)
        else (true, set_num d val p)
  | RDATA =>
      if negb (TransportParamValue.as_bytes data) then (false, p)
      else (true, set_data d (TransportParamValue.bytes data) p)
  | WDATA =>
      if negb (TransportParamValue.as_bytes data) then (false, p)
      else
        let b := TransportParamValue.bytes data in
        (copy_result (p_stateless_reset_token p) b =? 0, set_token (copy_bytes (p_stateless_reset_token p) b) p)
  | BOOL =>
      if negb (TransportParamValue.len data =? 0) then (false, p) else (true, set_flag d true p)
  | ADDR =>
      let '(ok, (a, r)) := PreferredAddress.parse (p_preferred_address p, new_reader (TransportParamValue.bytes data)) in
      (ok && rd_empty r, set_address a p)
  end.

(** [make_]: the test for a duplicate around a callback. *)
Definition checked (index : nat) (cb : t -> bool * t) (checker : option DuplicateSetChecker) (p : t)
    : bool * option DuplicateSetChecker * t :=
  match checker with
  | Some c =>
      if default false (check c !! index) then (false, Some (mk_checker (check c) true), p)
      else
        let '(ok, p) := cb p in
        (ok, Some (if ok then mk_checker (<[index := true]> (check c)) (detect c) else c), p)
  | None => let '(ok, p) := cb p in (ok, None, p)
  end.

(** The sequence of [visit] calls. *)
Fixpoint visit_ids (ids : list DefinedID) (index : nat) (raw : Z) : option (nat * DefinedID) :=
  match ids with
  | [] => None
  | d :: ids => if is_id raw d then Some (index, d) else visit_ids ids (S index) raw
  end.

(** ((ok, changed), checker, members) *)
Definition from_transport_param (param : TransportParameter.t) (checker : option DuplicateSetChecker)
    (accept_zero_rtt : bool) (p : t) : (bool * bool) * option DuplicateSetChecker * t :=
  match visit_ids defined_ids 0 (varint.value (TransportParameter.id param)) with
  | Some (index, d) =>
      let '(suc, checker, p) := checked index (store d (TransportParameter.data param) accept_zero_rtt) checker p in
      ((suc, suc), checker, p)
  | None => ((true, false), checker, p)
  end.

(** What [visit_each_param] hands to its callback for a member; the temporary
    buffer of the preferred address holds what fitted even when rendering it
    failed. *)
Definition param_of (d : DefinedID) (p : t) : TransportParameter.t * bool :=
  match kind_of d with
  | VLINT => (make_num d (get_num d p), true)
  | RDATA => (make_bytes d (get_data d p), true)
  | WDATA => (make_bytes d (p_stateless_reset_token p), true)
  | BOOL => (make_bytes d [], get_flag d p)
  | ADDR =>
      let tmpw := snd (PreferredAddress.render (p_preferred_address p)
                         (new_writer (replicate enough_to_store_preferred_address 0))) in
      (make_bytes d (wr_written tmpw), PreferredAddress.enable (p_preferred_address p))
  end.

Fixpoint visit_each {S} (visit : nat -> TransportParameter.t -> bool -> S -> bool * S) (ids : list DefinedID) (index : nat)
    (p : t) (st : S) : bool * S :=
  match ids with
  | [] => (true, st)
  | d :: ids =>
      let '(param, exists_) := param_of d p in
      let '(ok, st) := visit index param exists_ st in
      if negb ok then (false, st) else visit_each visit ids (Datatypes.S index) p st
  end.
Definition visit_each_param {S} (visit : nat -> TransportParameter.t -> bool -> S -> bool * S) (p : t) (st : S) : bool * S :=
  visit_each visit defined_ids 0 p st.

Definition render (should_render : TransportParameter.t -> bool) (p : t) (w : writer) : bool * writer :=
  visit_each_param (fun _ param exists_ w =>
    if exists_ && should_render param then TransportParameter.render param w else (true, w)) p w.
End DefinedTransportParams.

(** ** Validation *)

Inductive TransportParamError :=
  | tp_none | invalid_encoding | less_than_2_connection_id | less_than_1200_udp_payload | over_20_ack_delay_exponent
  | over_2pow14_max_ack_delay | zero_length_connid | too_large_max_streams_bidi | too_large_max_streams_uni.

(** [to_string]: one of the errors has no text. *)
Definition error_text (e : TransportParamError) : option string :=
  match e with
  | invalid_encoding => Some "invalid transport parameter encoding"
  | less_than_2_connection_id => Some "active_connection_id_limit is less than 2"
  | less_than_1200_udp_payload => Some "max_udp_payload_size is less than 1200"
  | over_20_ack_delay_exponent => Some "ack_delay_exponent is over 20"
  | zero_length_connid => Some "preferred_address.connectionID.len is 0"
  | too_large_max_streams_bidi => Some "max_bidi_streams greater than 2^60"
  | too_large_max_streams_uni => Some "max_uni_streams greater than 2^60"
  | _ => None
  end.

Definition validate_transport_param (p : DefinedTransportParams.t) : TransportParamError :=
  if 20 <? DefinedTransportParams.p_ack_delay_exponent p then over_20_ack_delay_exponent
  else if DefinedTransportParams.p_active_connection_id_limit p <? 2 then less_than_2_connection_id
  else if DefinedTransportParams.p_max_udp_payload_size p <? 1200 then less_than_1200_udp_payload
  else if Z.shiftl 1 14 <? DefinedTransportParams.p_max_ack_delay p then over_2pow14_max_ack_delay
  else if PreferredAddress.enable (DefinedTransportParams.p_preferred_address p) &&
          (size (PreferredAddress.connectionID (DefinedTransportParams.p_preferred_address p)) =? 0) then zero_length_connid
  else if Z.shiftl 1 60 <=? DefinedTransportParams.p_initial_max_streams_bidi p then too_large_max_streams_bidi
  else if Z.shiftl 1 60 <=? DefinedTransportParams.p_initial_max_streams_uni p then too_large_max_streams_uni
  else tp_none.

(** ** Session tickets and 0-RTT *)

Definition ticket_ids : list DefinedID :=
  [initial_max_stream_data_bidi_local; initial_max_stream_data_bidi_remote; initial_max_stream_data_uni;
   initial_max_data; initial_max_streams_bidi; initial_max_streams_uni; active_connection_id_limit].

Fixpoint write_ticket (ids : list DefinedID) (p : DefinedTransportParams.t) : writer -> bool * writer :=
  match ids with
  | [] => retM true
  | d :: ids => TransportParameter.render (make_num d (DefinedTransportParams.get_num d p)) ;& write_ticket ids p
  end.
Definition write_session_ticket_format (p : DefinedTransportParams.t) : writer -> bool * writer := write_ticket ticket_ids p.

Definition read_ticket_param (d : DefinedID) : DefinedTransportParams.t * reader -> bool * (DefinedTransportParams.t * reader) :=
  fun '(p, r) =>
    let '(ok, (param, r)) := TransportParameter.parse (TransportParameter.new, r) in
    if negb ok then (false, (p, r))
    else if negb (is_id (varint.value (TransportParameter.id param)) d) then (false, (p, r))
    else
      let '(ok, data) := TransportParamValue.as_qvarint (TransportParameter.data param) in
      if negb ok then (false, (p, r))
      else (true, (DefinedTransportParams.set_num d (varint.value (TransportParamValue.qvarint data)) p, r)).
Fixpoint read_ticket (ids : list DefinedID) : DefinedTransportParams.t * reader -> bool * (DefinedTransportParams.t * reader) :=
  match ids with
  | [] => retM true
  | d :: ids => read_ticket_param d ;& read_ticket ids
  end.
Definition read_session_ticket_format : DefinedTransportParams.t * reader -> bool * (DefinedTransportParams.t * reader) :=
  read_ticket ticket_ids.

Record ZeroRTTTransportParams := mk_zero_rtt {
  z_max_idle_timeout : Z; z_max_udp_payload_size : Z; z_initial_max_data : Z;
  z_initial_max_stream_data_bidi_local : Z; z_initial_max_stream_data_bidi_remote : Z; z_initial_max_stream_data_uni : Z;
  z_initial_max_streams_bidi : Z; z_initial_max_streams_uni : Z; z_disable_active_migration : bool;
  z_active_connection_id_limit : Z; z_max_datagram_frame_size : Z
}.

Definition to_0RTT (p : DefinedTransportParams.t) : ZeroRTTTransportParams :=
  let g d := DefinedTransportParams.get_num d p in
  mk_zero_rtt (g max_idle_timeout) (g max_udp_payload_size) (g initial_max_data) (g initial_max_stream_data_bidi_local)
    (g initial_max_stream_data_bidi_remote) (g initial_max_stream_data_uni) (g initial_max_streams_bidi)
    (g initial_max_streams_uni) (DefinedTransportParams.p_disable_active_migration p) (g active_connection_id_limit)
    (g max_datagram_frame_size).

Definition from_0RTT (z : ZeroRTTTransportParams) : DefinedTransportParams.t :=
  let s := DefinedTransportParams.set_num in
  s active_connection_id_limit (z_active_connection_id_limit z)
    (DefinedTransportParams.set_flag disable_active_migration (z_disable_active_migration z)
      (s initial_max_data (z_initial_max_data z)
        (s initial_max_stream_data_bidi_local (z_initial_max_stream_data_bidi_local z)
          (s initial_max_stream_data_bidi_remote (z_initial_max_stream_data_bidi_remote z)
            (s initial_max_stream_data_uni (z_initial_max_stream_data_uni z)
              (s initial_max_streams_bidi (z_initial_max_streams_bidi z)
                (s initial_max_streams_uni (z_initial_max_streams_uni z)
                  (s max_datagram_frame_size (z_max_datagram_frame_size z)
                    (s max_idle_timeout (z_max_idle_timeout z)
                      (s max_udp_payload_size (z_max_udp_payload_size z) DefinedTransportParams.new)))))))))).

(** ** [struct TransportParameters] *)

Module TransportParameters.
Record t := mk { local : DefinedTransportParams.t; peer : DefinedTransportParams.t; peer_checker : DuplicateSetChecker }.
Definition new : t := mk DefinedTransportParams.new DefinedTransportParams.new new_checker.

Definition param_error (msg : string) : Error := QUICError msg TRANSPORT_PARAMETER_ERROR FrameType.PADDING.

Definition check_recv (raw : Z) (is_server : bool) : option Error :=
  if is_server && is_defined raw && negb (is_defined_both_set_allowed raw)
  then Some (param_error "client sent not allowed transport_parameter") else None.

(** [accept_zero_rtt] is not handed on. *)
Definition set_ (param : TransportParameter.t) (is_server accept_zero_rtt : bool) (checker : option DuplicateSetChecker)
    (p : DefinedTransportParams.t) : option Error * option DuplicateSetChecker * DefinedTransportParams.t :=
  match check_recv (varint.value (TransportParameter.id param)) is_server with
  | Some e => (Some e, checker, p)
  | None =>
      let '((ok, changed), checker, p) := DefinedTransportParams.from_transport_param param checker false p in
      if negb ok then
        (Some (param_error (if match checker with Some c => detect c | None => false end
                            then "duplicate set of transport_parameter detected"
                            else "invalid transport parameter format")), checker, p)
      else if changed : bool then
        match error_text (validate_transport_param p) with
        | Some _ => (Some (param_error "TransportParameter contract is not satisfied"), checker, p)
        | None => (None, checker, p)
        end
      else (None, checker, p)
  end.

Definition set_local (param : TransportParameter.t) (s : t) : option Error * t :=
  let '(e, _, p) := set_ param false false None (local s) in (e, mk p (peer s) (peer_checker s)).

Definition set_peer (param : TransportParameter.t) (is_server accept_zero_rtt : bool) (s : t) : option Error * t :=
  let '(e, c, p) := set_ param is_server accept_zero_rtt (Some (peer_checker s)) (peer s) in
  (e, mk (local s) p (default (peer_checker s) c)).

(** One round of the loop consumes a byte; the fuel is the number of bytes.
    [None]: out of fuel. *)
Fixpoint parse_loop (fuel : nat) (is_server accept_zero_rtt : bool) (r : reader) (s : t) : option (option Error * reader * t) :=
  if rd_empty r then Some (None, r, s)
  else
    match fuel with
    | O => None
    | S fuel =>
        let '(ok, (param, r)) := TransportParameter.parse (TransportParameter.new, r) in
        if negb ok then Some (Some (param_error "failed to parse transport parameter"), r, s)
        else
          match set_peer param is_server accept_zero_rtt s with
          | (Some e, s) => Some (Some e, r, s)
          | (None, s) => parse_loop fuel is_server accept_zero_rtt r s
          end
    end.
Definition parse_peer (is_server accept_zero_rtt : bool) (r : reader) (s : t) : option (option Error * reader * t) :=
  parse_loop (length (rd_remain r)) is_server accept_zero_rtt r s.

Definition should_render (is_server has_retry : bool) (param : TransportParameter.t) : bool :=
  let raw := varint.value (TransportParameter.id param) in
  if negb is_server && negb (is_defined_both_set_allowed raw) then false
  else if negb has_retry && is_id raw retry_src_connection_id then false
  else negb (is_default_value param).

Definition render_local (is_server has_retry : bool) (s : t) (w : writer) : bool * writer :=
  DefinedTransportParams.render (should_render is_server has_retry) (local s) w.
End TransportParameters.

Definition to_initial_limits (p : DefinedTransportParams.t) : InitialLimits :=
  let g d := DefinedTransportParams.get_num d p in
  mk_limits (g initial_max_data) (g initial_max_streams_bidi) (g initial_max_streams_uni)
    (g initial_max_stream_data_bidi_local) (g initial_max_stream_data_bidi_remote) (g initial_max_stream_data_uni).

(** * Lemmas *)

Module ParamFacts.
Import DefinedTransportParams.

(** ** One parameter on the wire *)

Definition data_wire (v : TransportParamValue.t) : list Z :=
  match v with TransportParamValue.qvint x => varint.enc x | TransportParamValue.byts b => b end.
Definition data_ok (v : TransportParamValue.t) : Prop :=
  match v with TransportParamValue.qvint x => varint.writable x | TransportParamValue.byts b => size b < 2 ^ 62 end.

Definition param_ok (p : TransportParameter.t) : Prop :=
  varint.writable (TransportParameter.id p) /\ data_ok (TransportParameter.data p).

Definition param_wire (p : TransportParameter.t) : list Z :=
  varint.enc (TransportParameter.id p) ++
  varint.enc (varint.of_uint (TransportParamValue.len (TransportParameter.data p))) ++ data_wire (TransportParameter.data p).

(** What the receiver has after [parse]. *)
Definition recv_param (p : TransportParameter.t) : TransportParameter.t :=
  TransportParameter.mk (varint.norm (TransportParameter.id p))
    (varint.norm (varint.of_uint (TransportParamValue.len (TransportParameter.data p))))
    (TransportParamValue.byts (data_wire (TransportParameter.data p))).

Lemma len_wire v : data_ok v -> size (data_wire v) = TransportParamValue.len v /\ 0 <= TransportParamValue.len v < 2 ^ 62.
Proof.
  destruct v as [b | x]; cbn; intros Hok.
  - pose proof (size_nonneg b). split; [done | lia].
  - rewrite varint.enc_size by done. split; [done |]. destruct (varint.writable_len x Hok) as [[-> | [-> | [-> | ->]]] _]; lia.
Qed.

Lemma emits_param p : param_ok p -> emits (TransportParameter.render p) (param_wire p).
Proof.
  intros [Hi Hd]. unfold TransportParameter.render, param_wire. apply emits_andM; [by apply varint.emits_varint |].
  destruct (len_wire _ Hd) as [_ Hl]. apply emits_andM; [apply varint.emits_varint; by apply writable_uint |].
  destruct (TransportParameter.data p); [apply emits_write | by apply varint.emits_varint].
Qed.

Lemma reads_param p rest :
  param_ok p -> reads_at TransportParameter.parse TransportParameter.new (param_wire p) rest (recv_param p).
Proof.
  intros [Hi Hd]. destruct (len_wire _ Hd) as [Hs Hl]. unfold TransportParameter.parse, param_wire.
  eapply reads_andM; [by eapply varint.reads_varint |].
  eapply reads_andM; [by eapply varint.reads_varint; [apply writable_uint |] |].
  intros r Hr Hrem. cbn [TransportParameter.length TransportParameter.id]. unfold TransportParamValue.parse.
  change (varint.value (varint.norm ?v)) with (varint.value v). cbn [varint.value varint.of_uint].
  by rewrite (read_internal_ok r _ rest _ Hr Hrem Hs).
Qed.

Lemma param_wire_nonempty p : param_ok p -> (0 < length (param_wire p))%nat.
Proof.
  intros [Hi _]. pose proof (varint.enc_size _ Hi) as Hs. destruct (varint.writable_len _ Hi) as [Hl _].
  unfold param_wire. rewrite length_app. unfold size in Hs. destruct Hl as [E | [E | [E | E]]]; rewrite E in Hs; lia.
Qed.

Lemma as_qvarint_enc v :
  varint.writable v -> TransportParamValue.as_qvarint (TransportParamValue.byts (varint.enc v)) =
    (true, TransportParamValue.qvint (varint.norm v)).
Proof.
  intros Hv. unfold TransportParamValue.as_qvarint.
  assert (Hs : size (varint.enc v) <= u64_max).
  { rewrite varint.enc_size by done. destruct (varint.writable_len _ Hv) as [[-> | [-> | [-> | ->]]] _]; done. }
  assert (Hr : rd_ok (new_reader (varint.enc v))) by (split; [simpl; lia | done]).
  rewrite (varint.read_enc v _ []); [| done | done | rewrite rd_remain_eq, app_nil_r by done; done].
  unfold rd_empty, size. cbn. by rewrite Z.eqb_refl.
Qed.

(** ** The preferred address *)

Definition address_ok (a : PreferredAddress.t) : Prop :=
  length (PreferredAddress.ipv4_address a) = 4%nat /\ length (PreferredAddress.ipv6_address a) = 16%nat /\
  length (PreferredAddress.token a) = 16%nat /\ 0 <= PreferredAddress.ipv4_port a < 2 ^ 16 /\
  0 <= PreferredAddress.ipv6_port a < 2 ^ 16.

Definition address_wire (a : PreferredAddress.t) : list Z :=
  PreferredAddress.ipv4_address a ++ write_be 2 (PreferredAddress.ipv4_port a) ++ PreferredAddress.ipv6_address a ++
  write_be 2 (PreferredAddress.ipv6_port a) ++ [size (PreferredAddress.connectionID a)] ++
  PreferredAddress.connectionID a ++ PreferredAddress.token a.

(** The address as the peer gets it. *)
Definition recv_address (a : PreferredAddress.t) : PreferredAddress.t :=
  PreferredAddress.mk (PreferredAddress.ipv4_address a) (PreferredAddress.ipv4_port a) (PreferredAddress.ipv6_address a)
    (PreferredAddress.ipv6_port a) (size (PreferredAddress.connectionID a)) (PreferredAddress.connectionID a)
    (PreferredAddress.token a) true.

Lemma emits_fill1 x : emits (wr_fill x 1) [x].
Proof.
  intros w Hw. split; intros Hs.
  - apply (wr_fill_put x 1); [done | unfold size in Hs; cbn in Hs; lia | done].
  - unfold wr_fill. cbn [fst]. unfold size in Hs. cbn in Hs. pose proof Hw as [Hi _]. unfold wr_room, size in Hs.
    unfold rsubstr, size. rewrite ltb_false by lia. rewrite ltb_true by lia.
    rewrite length_take, length_drop. apply eqb_false. lia.
Qed.

Lemma emits_address a :
  0 < size (PreferredAddress.connectionID a) <= 255 -> emits (PreferredAddress.render a) (address_wire a).
Proof.
  intros Hid. unfold PreferredAddress.render. rewrite eqb_false, ltb_false by lia. cbn [orb].
  unfold address_wire. rewrite u8_small by (unfold is_byte; lia).
  repeat (apply emits_andM; [auto using emits_write, emits_num, emits_fill1 |]). apply emits_write.
Qed.

Lemma read_be2 v : 0 <= v < 2 ^ 16 -> read_be (write_be 2 v) = v.
Proof. intros Hv. rewrite read_write_be. by apply Z.mod_small. Qed.

Lemma reads_id a rest :
  0 <= PreferredAddress.connectionID_length a -> forall b, size b = PreferredAddress.connectionID_length a ->
  reads_at PreferredAddress.read_id a b rest
    (PreferredAddress.mk (PreferredAddress.ipv4_address a) (PreferredAddress.ipv4_port a) (PreferredAddress.ipv6_address a)
      (PreferredAddress.ipv6_port a) (PreferredAddress.connectionID_length a) b (PreferredAddress.token a) (PreferredAddress.enable a)).
Proof.
  intros H0 b Hb r Hr Hrem. unfold PreferredAddress.read_id. rewrite ltb_false.
  - by apply (reads_field _ _ a b rest).
  - rewrite Hrem, size_app. pose proof (size_nonneg rest). lia.
Qed.

Lemma reads_address a0 a rest :
  length (PreferredAddress.ipv4_address a0) = 4%nat -> length (PreferredAddress.ipv6_address a0) = 16%nat ->
  length (PreferredAddress.token a0) = 16%nat -> address_ok a -> size (PreferredAddress.connectionID a) <= 255 ->
  reads_at PreferredAddress.parse a0 (address_wire a) rest (recv_address a).
Proof.
  intros L4 L6 Lt (H4 & H6 & Ht & P4 & P6) Hid. pose proof (size_nonneg (PreferredAddress.connectionID a)) as Hn.
  unfold PreferredAddress.parse, address_wire, recv_address.
  eapply reads_andM; [by eapply reads_array; [cbn; lia |] |].
  eapply reads_andM; [by eapply reads_num; [apply length_write_be | rewrite read_be2] |].
  eapply reads_andM; [by eapply reads_array; [cbn; lia |] |].
  eapply reads_andM; [by eapply reads_num; [apply length_write_be | rewrite read_be2] |].
  eapply reads_andM; [by eapply reads_array |].
  eapply reads_andM; [by apply reads_id |].
  rewrite <- (app_nil_r (PreferredAddress.token a)). eapply reads_andM; [by eapply reads_array; [cbn; lia |] |].
  apply reads_set. cbn. by rewrite app_nil_r.
Qed.
End ParamFacts.
