(* ===== verification/ParamTransfer.v ===== *)
(** * ParamTransfer: what the peer makes of the transport parameters

    Theorems on [TransportParameters] of suite.h. The parameters one end
    renders are the members the other end has after [parse_peer]; whatever
    bytes arrive, [parse_peer] returns, and the members it leaves are within
    the bounds of their types. *)

From stdpp Require Import base list strings.
From Stdlib Require Import ZArith Lia.
From S2P Require Import Prelude Bytes Varint Types FrameBase StreamId TransportParam.

#[local] Open Scope Z_scope.
#[local] Open Scope list_scope.

Import TransportParam.DefinedTransportParams.

(** ** Specification *)

(** Members a sender can put on the wire. *)
Definition sendable (p : t) : Prop :=
  (forall d, 0 <= get_num d p < 2 ^ 62) /\ (forall d, size (get_data d p) < 2 ^ 62) /\
  length (p_stateless_reset_token p) = 16%nat /\
  (PreferredAddress.enable (p_preferred_address p) = true ->
     ParamFacts.address_ok (p_preferred_address p) /\ 0 < size (PreferredAddress.connectionID (p_preferred_address p)) <= 20).

(** The limits of [validate_transport_param]. *)
Definition within_limits (p : t) : Prop :=
  p_ack_delay_exponent p <= 20 /\ 2 <= p_active_connection_id_limit p /\ 1200 <= p_max_udp_payload_size p /\
  p_max_ack_delay p <= 2 ^ 14 /\
  (PreferredAddress.enable (p_preferred_address p) = true -> size (PreferredAddress.connectionID (p_preferred_address p)) <> 0) /\
  p_initial_max_streams_bidi p < 2 ^ 60 /\ p_initial_max_streams_uni p < 2 ^ 60.

(** The members the other end should have: a client does not tell the four
    parameters of a server, and the id of a Retry is told only after one. *)
Definition handed_over (is_server has_retry : bool) (p : t) : t :=
  mk (if is_server then p_original_dst_connection_id p else [])
     (p_max_idle_timeout p)
     (if is_server then p_stateless_reset_token p else replicate 16 0)
     (p_max_udp_payload_size p) (p_initial_max_data p) (p_initial_max_stream_data_bidi_local p)
     (p_initial_max_stream_data_bidi_remote p) (p_initial_max_stream_data_uni p) (p_initial_max_streams_bidi p)
     (p_initial_max_streams_uni p) (p_ack_delay_exponent p) (p_max_ack_delay p) (p_disable_active_migration p)
     (if is_server && PreferredAddress.enable (p_preferred_address p)
      then ParamFacts.recv_address (p_preferred_address p) else PreferredAddress.new)
     (p_active_connection_id_limit p) (p_initial_src_connection_id p)
     (if is_server && has_retry then p_retry_src_connection_id p else [])
     (p_max_datagram_frame_size p) (p_grease_quic_bit p).

(** * Lemmas *)

Module TransferFacts.
Import ParamFacts.

(** ** One member *)

Definition told (is_server has_retry : bool) (d : DefinedID) : bool :=
  match d with
  | original_dst_connection_id | stateless_reset_token | preferred_address => is_server
  | retry_src_connection_id => is_server && has_retry
  | _ => true
  end.

Definition at_default (d : DefinedID) (p : t) : bool :=
  match kind_of d with VLINT => get_num d p =? get_num d new | _ => false end.

Definition copy_member (p : t) (d : DefinedID) (q : t) : t :=
  match kind_of d with
  | VLINT => set_num d (get_num d p) q
  | RDATA => set_data d (get_data d p) q
  | WDATA => set_token (p_stateless_reset_token p) q
  | BOOL => set_flag d true q
  | ADDR => set_address (recv_address (p_preferred_address p)) q
  end.

(** The fixed-size arrays of the receiver. *)
Definition shaped (q : t) : Prop :=
  length (p_stateless_reset_token q) = 16%nat /\ length (PreferredAddress.ipv4_address (p_preferred_address q)) = 4%nat /\
  length (PreferredAddress.ipv6_address (p_preferred_address q)) = 16%nat /\
  length (PreferredAddress.token (p_preferred_address q)) = 16%nat.

Lemma id_code_range d : 0 <= id_code d < 2 ^ 62.
Proof. destruct d; split; done. Qed.

Lemma s32_code d : s32 (id_code d) = id_code d.
Proof. by destruct d. Qed.

Lemma is_id_code d e : is_id (id_code d) e = bool_decide (d = e).
Proof. unfold is_id. rewrite s32_code. by destruct d, e. Qed.

Lemma visit_code i d : defined_ids !! i = Some d -> visit_ids defined_ids 0 (id_code d) = Some (i, d).
Proof. intros H. do 19 (destruct i as [| i]; [by injection H as <- |]). done. Qed.

Lemma id_param_of d p : varint.value (TransportParameter.id (fst (param_of d p))) = id_code d.
Proof. by destruct d. Qed.

Lemma should_render_told is_server has_retry d p :
  TransportParameters.should_render is_server has_retry (fst (param_of d p)) =
    told is_server has_retry d && negb (at_default d p).
Proof. destruct is_server, has_retry, d; reflexivity. Qed.

Lemma check_recv_told is_server has_retry d :
  told is_server has_retry d = true -> TransportParameters.check_recv (id_code d) (negb is_server) = None.
Proof. by destruct is_server, has_retry, d. Qed.

Lemma validate_limits p : within_limits p -> validate_transport_param p = tp_none.
Proof.
  intros (H1 & H2 & H3 & H4 & H5 & H6 & H7). unfold validate_transport_param.
  change (Z.shiftl 1 14) with (2 ^ 14). change (Z.shiftl 1 60) with (2 ^ 60).
  rewrite !ltb_false, !leb_false by lia.
  destruct (PreferredAddress.enable _); [| done]. by rewrite eqb_false by auto.
Qed.

Lemma address_size a : address_ok a -> size (address_wire a) = 41 + size (PreferredAddress.connectionID a).
Proof.
  intros (H4 & H6 & Ht & _). unfold address_wire. rewrite !size_app. unfold size.
  rewrite H4, H6, Ht, !length_write_be. cbn [length]. lia.
Qed.

Lemma address_written a :
  address_ok a -> 0 < size (PreferredAddress.connectionID a) <= 20 ->
  wr_written (snd (PreferredAddress.render a (new_writer (replicate enough_to_store_preferred_address 0)))) = address_wire a.
Proof.
  intros Hok Hid. set (w := new_writer _).
  assert (Hw : wr_ok w) by (split; [cbn; lia | done]).
  assert (Hs : size (address_wire a) <= wr_room w).
  { rewrite address_size by done. change (wr_room w) with 61. lia. }
  destruct (emits_address a ltac:(lia) w Hw) as [He _]. rewrite He by done. cbn [snd].
  rewrite wr_put_written by done. by rewrite wr_written_eq.
Qed.

Lemma param_of_ok d p : sendable p -> snd (param_of d p) = true -> param_ok (fst (param_of d p)).
Proof.
  intros (Hn & Hd & Ht & Ha) He. split; [destruct d; apply writable_uint; split; done |].
  unfold param_of in *. destruct (kind_of d) eqn:K; cbn.
  - apply writable_uint. apply Hn.
  - apply Hd.
  - unfold size. rewrite Ht. lia.
  - unfold size. cbn. lia.
  - destruct (Ha He) as [Hok Hid]. rewrite address_written, address_size by done. lia.
Qed.

Lemma store_address a q :
  shaped q -> address_ok a -> 0 < size (PreferredAddress.connectionID a) <= 20 ->
  PreferredAddress.parse (p_preferred_address q, new_reader (address_wire a)) =
    (true, (recv_address a, rd_advance (new_reader (address_wire a)) (length (address_wire a)))).
Proof.
  intros (Hq1 & Hq2 & Hq3 & Hq4) Hok Hid.
  assert (Hr : rd_ok (new_reader (address_wire a))).
  { split; cbn [rd_buf rd_index new_reader]; [lia | rewrite address_size by done; unfold u64_max; lia]. }
  apply (reads_address _ a []); auto; [lia |]. by rewrite app_nil_r, rd_remain_eq.
Qed.

Lemma store_received d p q z :
  sendable p -> shaped q -> snd (param_of d p) = true -> z = false ->
  store d (TransportParameter.data (recv_param (fst (param_of d p)))) z q = (true, copy_member p d q).
Proof.
  intros Hs Hq He ->. pose proof Hs as (Hn & Hd & Ht & Ha). unfold store, copy_member, recv_param, param_of in *.
  destruct (kind_of d) eqn:K; cbn [fst snd TransportParameter.data make_num make_bytes data_wire] in *.
  - rewrite as_qvarint_enc by (apply writable_uint; apply Hn). done.
  - done.
  - cbn [TransportParamValue.as_bytes TransportParamValue.bytes negb]. destruct Hq as [Hq _].
    unfold copy_result, copy_bytes, size. rewrite Ht, Hq. rewrite take_ge, drop_ge, app_nil_r by lia. done.
  - done.
  - destruct (Ha He) as [Hok Hid]. cbn [TransportParamValue.bytes]. rewrite address_written by done.
    rewrite store_address by done. unfold rd_empty, size. cbn. by rewrite Z.eqb_refl.
Qed.

(** ** The whole list *)

Definition rendered (is_server has_retry : bool) (p : t) (d : DefinedID) : bool :=
  snd (param_of d p) && TransportParameters.should_render is_server has_retry (fst (param_of d p)).

Fixpoint wire_of (is_server has_retry : bool) (p : t) (ids : list DefinedID) : list Z :=
  match ids with
  | [] => []
  | d :: ids =>
      (if rendered is_server has_retry p d then param_wire (fst (param_of d p)) else []) ++ wire_of is_server has_retry p ids
  end.

Fixpoint receive_all (is_server has_retry : bool) (p : t) (ids : list DefinedID) (q : t) : t :=
  match ids with
  | [] => q
  | d :: ids =>
      receive_all is_server has_retry p ids (if rendered is_server has_retry p d then copy_member p d q else q)
  end.

Lemma emits_each is_server has_retry p ids i :
  sendable p ->
  emits (fun w => visit_each (fun _ param exists_ w =>
    if exists_ && TransportParameters.should_render is_server has_retry param
    then TransportParameter.render param w else (true, w)) ids i p w) (wire_of is_server has_retry p ids).
Proof.
  intros Hp. revert i. induction ids as [| d ids IH]; intros i; [apply emits_ret_true |]. cbn [wire_of].
  eapply emits_ext; [| apply emits_andM; [| apply (IH (S i))]].
  - intros w. cbn [visit_each]. destruct (param_of d p) as [param e] eqn:E.
    instantiate (1 := fun w => if rendered is_server has_retry p d then TransportParameter.render (fst (param_of d p)) w else (true, w)).
    unfold andM, rendered. rewrite E. cbn [fst snd]. by destruct (if e && _ then _ else _) as [[] ?].
  - destruct (rendered is_server has_retry p d) eqn:R; [| apply emits_ret_true].
    apply emits_param. apply param_of_ok; [done |]. by apply andb_prop in R as [? _].
Qed.

Lemma rendered_told is_server has_retry p d : rendered is_server has_retry p d = true -> told is_server has_retry d = true.
Proof.
  intros R. apply andb_prop in R as [_ R]. rewrite should_render_told in R. by apply andb_prop in R as [? _].
Qed.

Lemma copy_limits p d q : within_limits p -> within_limits q -> snd (param_of d p) = true -> within_limits (copy_member p d q).
Proof.
  intros Hp Hq He. destruct q, d; cbn in *; try exact Hq; unfold within_limits in *; cbn in *; tauto.
Qed.

Lemma copy_shaped p d q : sendable p -> shaped q -> snd (param_of d p) = true -> shaped (copy_member p d q).
Proof.
  intros (_ & _ & Ht & Ha) Hq He. destruct q, d; cbn in *; try exact Hq; unfold shaped in *; cbn in *; try tauto.
  destruct (Ha He) as [(H4 & H6 & Hk & _) _]. tauto.
Qed.

Lemma set_peer_received is_server has_retry p d i z l q c :
  sendable p -> within_limits p -> shaped q -> within_limits q -> defined_ids !! i = Some d ->
  check c !! i = Some false -> rendered is_server has_retry p d = true ->
  TransportParameters.set_peer (recv_param (fst (param_of d p))) (negb is_server) z (TransportParameters.mk l q c) =
    (None, TransportParameters.mk l (copy_member p d q) (mk_checker (<[i := true]> (check c)) (detect c))).
Proof.
  intros Hp Lp Hq Lq Hi Hc R. pose proof (rendered_told _ _ _ _ R) as Ht. apply andb_prop in R as [He _].
  unfold TransportParameters.set_peer, TransportParameters.set_. cbn [TransportParameters.peer TransportParameters.peer_checker TransportParameters.local].
  change (varint.value (TransportParameter.id (recv_param (fst (param_of d p)))))
    with (varint.value (TransportParameter.id (fst (param_of d p)))).
  rewrite id_param_of, (check_recv_told is_server has_retry d Ht). unfold from_transport_param.
  change (varint.value (TransportParameter.id (recv_param (fst (param_of d p)))))
    with (varint.value (TransportParameter.id (fst (param_of d p)))).
  rewrite id_param_of, (visit_code i d Hi). unfold checked. rewrite Hc. cbn [from_option id].
  rewrite (store_received d p q false) by done. cbn [negb].
  rewrite validate_limits by (by apply copy_limits). done.
Qed.

Lemma parse_told is_server has_retry z l p ids :
  sendable p -> within_limits p -> forall i fuel r q c,
  drop i defined_ids = ids -> shaped q -> within_limits q ->
  (forall j, (i <= j < 19)%nat -> check c !! j = Some false) ->
  rd_ok r -> rd_remain r = wire_of is_server has_retry p ids -> (length (wire_of is_server has_retry p ids) <= fuel)%nat ->
  exists r' c', rd_empty r' = true /\
    TransportParameters.parse_loop fuel (negb is_server) z r (TransportParameters.mk l q c) =
      Some (None, r', TransportParameters.mk l (receive_all is_server has_retry p ids q) c').
Proof.
  intros Hp Lp. induction ids as [| d ids IH]; intros i fuel r q c Hd Hq Lq Hc Hr Hrem Hf; cbn [wire_of receive_all] in *.
  { pose proof (rd_empty_true r Hr Hrem) as E. exists r, c. split; [done |]. destruct fuel; cbn; by rewrite E. }
  assert (Hi : defined_ids !! i = Some d) by (by rewrite <- (Nat.add_0_r i), <- lookup_drop, Hd).
  assert (Hd' : drop (S i) defined_ids = ids) by (by rewrite <- Nat.add_1_r, <- drop_drop, Hd).
  assert (Hlt : (i < 19)%nat) by (by apply lookup_lt_Some in Hi).
  destruct (rendered is_server has_retry p d) eqn:R.
  - pose proof R as He. apply andb_prop in He as [He _]. pose proof (param_of_ok d p Hp He) as Hok.
    pose proof (param_wire_nonempty _ Hok) as Hne. rewrite length_app in Hf.
    destruct fuel as [| fuel]; [lia |]. cbn [TransportParameters.parse_loop].
    rewrite rd_not_drained by (done || rewrite Hrem, length_app; lia).
    rewrite (reads_param _ _ Hok r Hr Hrem). cbn [negb].
    rewrite (set_peer_received is_server has_retry p d i) by (done || apply Hc; lia).
    apply (IH (S i)); [done | by apply copy_shaped | by apply copy_limits | | | | lia].
    + intros j Hj. cbn [check]. rewrite list_lookup_insert_ne by lia. apply Hc. lia.
    + apply rd_advance_ok; [done |]. rewrite Hrem, length_app. lia.
    + by apply rd_advance_remain.
  - apply (IH (S i)); auto. intros j Hj. apply Hc. lia.
Qed.

(** ** The members received one by one are the members handed over *)

Lemma set_num_same d v q : get_num d q = v -> set_num d v q = q.
Proof. destruct q, d; cbn; by intros <-. Qed.

Lemma receive_num is_server has_retry p d ids q :
  kind_of d = VLINT -> get_num d q = get_num d new ->
  receive_all is_server has_retry p (d :: ids) q = receive_all is_server has_retry p ids (set_num d (get_num d p) q).
Proof.
  intros K Hq. cbn [receive_all]. f_equal.
  unfold rendered, copy_member. rewrite should_render_told. unfold at_default, param_of. rewrite K. cbn [snd andb].
  assert (told is_server has_retry d = true) as -> by by destruct d. cbn [andb].
  destruct (Z.eqb_spec (get_num d p) (get_num d new)) as [E |]; [| done]. symmetry. apply set_num_same. by rewrite E.
Qed.

Definition present (d : DefinedID) (p : t) : bool :=
  match d with
  | disable_active_migration => p_disable_active_migration p
  | grease_quic_bit => p_grease_quic_bit p
  | preferred_address => PreferredAddress.enable (p_preferred_address p)
  | _ => true
  end.

Lemma receive_other is_server has_retry p d ids q :
  kind_of d <> VLINT ->
  receive_all is_server has_retry p (d :: ids) q =
    receive_all is_server has_retry p ids (if present d p && told is_server has_retry d then copy_member p d q else q).
Proof.
  intros K. cbn [receive_all]. unfold rendered. rewrite should_render_told. unfold at_default.
  replace (snd (param_of d p)) with (present d p) by (by destruct d).
  destruct (kind_of d); by rewrite ?andb_true_r.
Qed.

Lemma receive_all_new is_server has_retry p :
  receive_all is_server has_retry p defined_ids new = handed_over is_server has_retry p.
Proof.
  unfold defined_ids. unfold new at 1, handed_over.
  destruct (p_disable_active_migration p) eqn:E1, (p_grease_quic_bit p) eqn:E2,
    (PreferredAddress.enable (p_preferred_address p)) eqn:E3, is_server, has_retry;
  repeat (first [rewrite receive_num by done | rewrite receive_other by done; cbn [present told]; rewrite ?E1, ?E2, ?E3; cbn [andb]];
          cbn [copy_member kind_of set_num set_data set_flag set_token set_address get_num get_data]);
  reflexivity.
Qed.

(** ** Session tickets *)

Fixpoint ticket_wire (ids : list DefinedID) (p : t) : list Z :=
  match ids with [] => [] | d :: ids => param_wire (make_num d (get_num d p)) ++ ticket_wire ids p end.

Fixpoint take_over (ids : list DefinedID) (p q : t) : t :=
  match ids with [] => q | d :: ids => take_over ids p (set_num d (get_num d p) q) end.

Lemma num_param_ok d n : 0 <= n < 2 ^ 62 -> param_ok (make_num d n).
Proof. intros Hn. split; [destruct d; apply writable_uint; split; done | by apply writable_uint]. Qed.

Lemma emits_ticket ids p : (forall d, 0 <= get_num d p < 2 ^ 62) -> emits (write_ticket ids p) (ticket_wire ids p).
Proof.
  intros Hp. induction ids as [| d ids IH]; [apply emits_ret_true |].
  apply emits_andM; [apply emits_param, num_param_ok, Hp | done].
Qed.

Lemma reads_ticket_param d n q rest :
  0 <= n < 2 ^ 62 -> reads_at (read_ticket_param d) q (param_wire (make_num d n)) rest (set_num d n q).
Proof.
  intros Hn r Hr Hrem. unfold read_ticket_param.
  rewrite (reads_param _ rest (num_param_ok d n Hn) r Hr Hrem). cbn [negb].
  change (varint.value (TransportParameter.id (recv_param (make_num d n)))) with (id_code d).
  rewrite is_id_code, bool_decide_eq_true_2 by done. cbn [negb recv_param TransportParameter.data make_num data_wire].
  by rewrite as_qvarint_enc by by apply writable_uint.
Qed.

Lemma reads_ticket ids p q rest :
  (forall d, 0 <= get_num d p < 2 ^ 62) -> reads_at (read_ticket ids) q (ticket_wire ids p) rest (take_over ids p q).
Proof.
  intros Hp. revert q. induction ids as [| d ids IH]; intros q; [apply reads_ret |].
  eapply reads_andM; [apply reads_ticket_param, Hp | apply IH].
Qed.
End TransferFacts.

(** * Properties *)

(** C20. The transport parameters of one end reach the other. For members that
    can be sent and are within the limits, [render_local] writes a fixed list
    of bytes, and [parse_peer] at the other end reads exactly these bytes
    without an error and holds every member that was to be told, and the
    defaults for the others; the bytes are the same whatever the writer. *)
Theorem transport_parameters_handover is_server has_retry accept_zero_rtt s l :
  sendable (TransportParameters.local s) -> within_limits (TransportParameters.local s) ->
  exists bs, emits (TransportParameters.render_local is_server has_retry s) bs /\
    forall r, rd_ok r -> rd_remain r = bs ->
    exists r' c, rd_empty r' = true /\
      TransportParameters.parse_peer (negb is_server) accept_zero_rtt r (TransportParameters.mk l new new_checker) =
        Some (None, r', TransportParameters.mk l (handed_over is_server has_retry (TransportParameters.local s)) c).
Proof.
  intros Hs Hl. exists (TransferFacts.wire_of is_server has_retry (TransportParameters.local s) defined_ids). split.
  - by apply TransferFacts.emits_each.
  - intros r Hr Hrem. rewrite <- TransferFacts.receive_all_new. unfold TransportParameters.parse_peer.
    apply (TransferFacts.parse_told is_server has_retry accept_zero_rtt l _ defined_ids Hs Hl 0); try done.
    + intros j Hj. apply lookup_replicate. split; [done | unfold implemented_defined; lia].
    + by rewrite Hrem.
Qed.

(** A session ticket keeps the limits a 0-RTT connection starts from:
    what [write_session_ticket_format] writes, [read_session_ticket_format]
    reads back into any other set of members, of which only the seven limits
    of the ticket change. *)
Theorem session_ticket_roundtrip p q rest :
  (forall d, 0 <= get_num d p < 2 ^ 62) ->
  exists bs q', emits (write_session_ticket_format p) bs /\ reads_at read_session_ticket_format q bs rest q' /\
    (forall d, get_num d q' = if bool_decide (d ∈ ticket_ids) then get_num d p else get_num d q) /\
    (forall d, get_data d q' = get_data d q) /\ p_preferred_address q' = p_preferred_address q /\
    p_stateless_reset_token q' = p_stateless_reset_token q.
Proof.
  intros Hp. eexists _, _. split; [by apply TransferFacts.emits_ticket |].
  split; [by apply TransferFacts.reads_ticket |]. destruct q. split_and!; [by intros [] | by intros [] | done | done].
Qed.

(** A server with a preferred address after a Retry. *)
Definition sample_local : t :=
  set_flag grease_quic_bit true
    (set_address (PreferredAddress.mk [10; 0; 0; 1] 443 (replicate 16 1) 8443 0 [7; 7; 7; 7] (replicate 16 9) true)
      (set_data retry_src_connection_id [3; 4] (set_data initial_src_connection_id [1; 2]
        (set_num initial_max_streams_bidi 100 (set_num initial_max_data 1048576
          (set_num max_idle_timeout 30000 new)))))).
Definition sample_suite : TransportParameters.t := TransportParameters.mk sample_local new new_checker.

Lemma sample_sendable : sendable sample_local.
Proof.
  split_and!; [by intros [] | by intros [] | done |]. intros _. split; [| by split].
  unfold ParamFacts.address_ok. split_and!; by vm_compute.
Qed.

Lemma transport_parameters_handover_witness :
  exists bs, emits (TransportParameters.render_local true true sample_suite) bs /\
    forall r, rd_ok r -> rd_remain r = bs ->
    exists r' c, rd_empty r' = true /\
      TransportParameters.parse_peer false true r TransportParameters.new =
        Some (None, r', TransportParameters.mk new (handed_over true true sample_local) c).
Proof.
  apply (transport_parameters_handover true true true sample_suite new); [exact sample_sendable |].
  repeat split; try done; vm_compute; by intros.
Defined.

Lemma session_ticket_roundtrip_witness :
  exists bs q', emits (write_session_ticket_format sample_local) bs /\
    reads_at read_session_ticket_format new bs [0] q' /\
    (forall d, get_num d q' = if bool_decide (d ∈ ticket_ids) then get_num d sample_local else get_num d new) /\
    (forall d, get_data d q' = get_data d new) /\ p_preferred_address q' = p_preferred_address new /\
    p_stateless_reset_token q' = p_stateless_reset_token new.
Proof. apply (session_ticket_roundtrip sample_local new [0]). by intros []. Defined.
