(* ===== verification/ParamTyped.v ===== *)
(** * ParamTyped: the members hold values of their types

    Theorems on [TransportParameters] of suite.h about arbitrary input: for
    whatever bytes a peer sends, [parse_peer] returns, and the members stay
    within the bounds of the C++ types and of the variable-length integers
    they come from; without an error they satisfy the limits that are really
    enforced. *)

From stdpp Require Import base list strings.
From Stdlib Require Import ZArith Lia.
From S2P Require Import Prelude Bytes Varint Types FrameBase StreamId TransportParam.

#[local] Open Scope Z_scope.
#[local] Open Scope list_scope.

Import TransportParam.DefinedTransportParams.

(** ** Specification *)

Definition address_typed (a : PreferredAddress.t) : Prop :=
  (length (PreferredAddress.ipv4_address a) = 4%nat /\ Forall is_byte (PreferredAddress.ipv4_address a)) /\
  (length (PreferredAddress.ipv6_address a) = 16%nat /\ Forall is_byte (PreferredAddress.ipv6_address a)) /\
  (length (PreferredAddress.token a) = 16%nat /\ Forall is_byte (PreferredAddress.token a)) /\
  0 <= PreferredAddress.ipv4_port a < 2 ^ 16 /\ 0 <= PreferredAddress.ipv6_port a < 2 ^ 16 /\
  is_byte (PreferredAddress.connectionID_length a) /\
  size (PreferredAddress.connectionID a) <= 255 /\ Forall is_byte (PreferredAddress.connectionID a).

Definition params_typed (p : t) : Prop :=
  (forall d, 0 <= get_num d p < 2 ^ 62) /\ (forall d, Forall is_byte (get_data d p)) /\
  (length (p_stateless_reset_token p) = 16%nat /\ Forall is_byte (p_stateless_reset_token p)) /\
  address_typed (p_preferred_address p).

(** What an accepted set of members satisfies: a [max_ack_delay] over 2^14
    is let through, and then nothing further is looked at. *)
Definition accepted (p : t) : Prop :=
  p_ack_delay_exponent p <= 20 /\ 2 <= p_active_connection_id_limit p /\ 1200 <= p_max_udp_payload_size p /\
  (2 ^ 14 < p_max_ack_delay p \/
   (PreferredAddress.enable (p_preferred_address p) = true -> PreferredAddress.connectionID (p_preferred_address p) <> []) /\
   p_initial_max_streams_bidi p < 2 ^ 60 /\ p_initial_max_streams_uni p < 2 ^ 60).

(** * Lemmas *)

Module TypedFacts.

(** ** Parse actions that keep a predicate of the object *)

Definition keeps {F} (P : F -> Prop) (p : F * reader -> bool * (F * reader)) : Prop :=
  forall f r b f' r', rd_ok r -> Forall is_byte (rd_buf r) -> P f -> p (f, r) = (b, (f', r')) -> P f'.

Lemma keeps_andM {F} (P : F -> Prop) p q : advances p -> keeps P p -> keeps P q -> keeps P (p ;& q).
Proof.
  intros Ha Hp Hq f r b f' r' Hr Hb Hf. unfold andM. destruct (p (f, r)) as [[] [f1 r1]] eqn:E.
  - destruct (Ha _ _ _ _ _ Hr E) as (Hbuf & _ & Hr1). intros E2. eapply Hq; [| | | exact E2]; [done | by rewrite Hbuf |].
    exact (Hp _ _ _ _ _ Hr Hb Hf E).
  - intros [= <- <- <-]. exact (Hp _ _ _ _ _ Hr Hb Hf E).
Qed.

Lemma remain_bytes r : rd_ok r -> Forall is_byte (rd_buf r) -> Forall is_byte (rd_remain r).
Proof. intros Hr Hb. rewrite rd_remain_eq by done. by apply Forall_drop. Qed.

Lemma remain_size r : rd_ok r -> size (rd_remain r) <= size (rd_buf r).
Proof. intros Hr. unfold size. rewrite rd_remain_length by done. lia. Qed.

Lemma read_internal_fits r n data r' :
  rd_ok r -> read_internal r n = (data, true, r') -> exists b, rd_remain r = data ++ b.
Proof.
  intros Hr E. destruct (Z.lt_ge_cases n 0) as [Hn | Hn]; [by rewrite read_internal_neg in E by done |].
  destruct (read_internal_cases r n Hr Hn) as [(a & b & Ha & Hs & E') | [_ E']]; rewrite E' in E; [| discriminate].
  injection E as <- <-. eauto.
Qed.

Lemma read_internal_bytes r n data r' :
  rd_ok r -> Forall is_byte (rd_buf r) -> read_internal r n = (data, true, r') -> Forall is_byte data /\ size data = n.
Proof.
  intros Hr Hb E. destruct (read_internal_fits _ _ _ _ Hr E) as [b Hd]. pose proof (remain_bytes r Hr Hb) as H.
  rewrite Hd in H. apply Forall_app in H as [H _]. split; [done |]. unfold read_internal in E.
  destruct (read_best_internal r n) as [d r1]. destruct (Z.eqb_spec (size d) n); [by injection E as <- _ | discriminate].
Qed.

Lemma keeps_array {F} (P : F -> Prop) get set :
  (forall f d, P f -> length d = length (get f) -> Forall is_byte d -> P (set d f)) ->
  (forall f, P f -> Forall is_byte (get f)) -> keeps P (rd_array_field get set).
Proof.
  intros Hset Hget f r b f' r' Hr Hb Hf. unfold rd_array_field, rd_read_into.
  destruct (read_internal r (size (get f))) as [[data ok] r1] eqn:E. destruct ok.
  - destruct (read_internal_bytes _ _ _ _ Hr Hb E) as [Hd Hs]. unfold size in Hs. intros [= _ <- _]. unfold copy_bytes.
    rewrite take_ge, drop_ge, app_nil_r by lia. apply Hset; [done | lia | done].
  - intros [= _ <- _]. apply Hset; auto.
Qed.

Lemma keeps_num {F} (P : F -> Prop) n get set :
  (forall f v, P f -> v = get f \/ 0 <= v < 2 ^ (8 * Z.of_nat n) -> P (set v f)) -> keeps P (rd_num_field n get set).
Proof.
  intros Hset f r b f' r' Hr Hb Hf. unfold rd_num_field, read_num.
  destruct (read_internal r (Z.of_nat n)) as [[data ok] r1] eqn:E. destruct ok; intros [= _ <- _]; apply Hset; auto.
  destruct (read_internal_bytes _ _ _ _ Hr Hb E) as [Hd Hs]. right. rewrite <- Hs. by apply read_be_bound.
Qed.

Lemma advances_read_id : advances PreferredAddress.read_id.
Proof.
  intros a r b a' r' Hr. unfold PreferredAddress.read_id. destruct (_ <? _); [intros [= <- <- <-]; auto |].
  by apply advances_field.
Qed.

Lemma keeps_read_id : keeps address_typed PreferredAddress.read_id.
Proof.
  intros a r b a' r' Hr Hb Ha. unfold PreferredAddress.read_id. destruct (Z.ltb_spec (size (rd_remain r)) (PreferredAddress.connectionID_length a)) as [| Hle].
  { by intros [= _ <- _]. }
  unfold rd_field. pose proof Ha as (H4 & H6 & Ht & P4 & P6 & Hl & _). unfold is_byte in Hl.
  destruct (read_internal_cases r (PreferredAddress.connectionID_length a) Hr ltac:(lia)) as [(x & y & Hx & Hs & E) | [Hlt _]]; [| lia].
  pose proof (remain_bytes r Hr Hb) as H. rewrite Hx in H. apply Forall_app in H as [H _].
  assert (size x <= 255) by lia. rewrite E. intros [= _ <- _]. unfold address_typed, is_byte in *; cbn. tauto.
Qed.

Lemma keeps_set {F} (P : F -> Prop) g : (forall f, P f -> P (g f)) -> keeps P (setM g).
Proof. intros H f r b f' r' _ _ Hf [= _ <- _]. auto. Qed.

Lemma keeps_address : keeps address_typed PreferredAddress.parse.
Proof.
  unfold PreferredAddress.parse.
  repeat (apply keeps_andM; [first [apply advances_array | apply advances_num | apply advances_read_id] | |]);
    first [apply keeps_read_id | apply keeps_array | apply keeps_num | apply keeps_set].
  all: unfold address_typed; cbn; try (intros; intuition congruence).
  - intros a d Ha Hl Hb. assert (is_byte (default 0 (d !! 0%nat))); [| tauto].
    destruct Hb; [by unfold is_byte | done].
  - intros a Ha. constructor; [tauto | done].
Qed.

(** ** One parameter *)

Lemma advances_value : advances (fun '(p, r) =>
     let '(ok, d, r) := TransportParamValue.parse (varint.value (TransportParameter.length p)) r in
     (ok, (TransportParameter.mk (TransportParameter.id p) (TransportParameter.length p) d, r))).
Proof.
  intros p r b p' r' Hr. unfold TransportParamValue.parse.
  destruct (read_internal r _) as [[data ok] r1] eqn:E. intros [= <- <- <-]. eapply read_internal_advances; eauto.
Qed.

Lemma advances_param : advances TransportParameter.parse.
Proof. repeat (apply advances_andM; [apply varint.advances_varint |]). apply advances_value. Qed.

Lemma andM_true {S} (p q : S -> bool * S) s s' : (p ;& q) s = (true, s') -> exists s1, p s = (true, s1) /\ q s1 = (true, s').
Proof. unfold andM. destruct (p s) as [[] s1]; [eauto | discriminate]. Qed.

Lemma read_to_true {F} (set : varint.Value -> F -> F) f r f' r' :
  varint.read_to set (f, r) = (true, (f', r')) -> exists v, varint.read r = (v, true, r') /\ f' = set v f.
Proof. unfold varint.read_to. destruct (varint.read r) as [[v ok] r1] eqn:E. intros [= -> <- <-]. eauto. Qed.

Lemma parse_param_inv r p r' :
  rd_ok r -> Forall is_byte (rd_buf r) -> TransportParameter.parse (TransportParameter.new, r) = (true, (p, r')) ->
  (rd_index r < rd_index r')%nat /\
  exists b, TransportParameter.data p = TransportParamValue.byts b /\ Forall is_byte b /\ size b <= u64_max.
Proof.
  intros Hr Hb E. apply andM_true in E as ([p1 r1] & E1 & E). apply andM_true in E as ([p2 r2] & E2 & E).
  destruct (varint.advances_varint _ _ _ _ _ _ Hr E1) as (B1 & _ & Hr1).
  destruct (varint.advances_varint _ _ _ _ _ _ Hr1 E2) as (B2 & I2 & Hr2).
  destruct (advances_value _ _ _ _ _ Hr2 E) as (_ & I3 & _).
  apply read_to_true in E1 as (v1 & E1 & _). apply varint.read_progress in E1; [| done].
  split; [lia |]. cbn in E. unfold TransportParamValue.parse in E.
  destruct (read_internal r2 _) as [[data ok] r3] eqn:E3. injection E as -> <- _. exists data. split; [done |].
  destruct (read_internal_bytes _ _ _ _ Hr2 ltac:(by rewrite B2, B1) E3) as [Hd Hs]. split; [done |].
  destruct (read_internal_fits _ _ _ _ Hr2 E3) as (x & Hx). pose proof (remain_size r2 Hr2). rewrite Hx, size_app in *.
  pose proof (size_nonneg x). destruct Hr2. lia.
Qed.

(** ** One member *)

Lemma get_set_num d d' v q : get_num d' (set_num d v q) = get_num d' q \/ get_num d' (set_num d v q) = v.
Proof. destruct q, d, d'; auto. Qed.

Lemma get_set_data d d' v q : get_data d' (set_data d v q) = get_data d' q \/ get_data d' (set_data d v q) = v.
Proof. destruct q, d, d'; auto. Qed.

Lemma typed_num d v q : 0 <= v < 2 ^ 62 -> params_typed q -> params_typed (set_num d v q).
Proof.
  intros Hv (Hn & Hd & Ht & Ha). split; [| destruct q, d; done].
  intros d'. destruct (get_set_num d d' v q) as [-> | ->]; auto.
Qed.

Lemma typed_data d v q : Forall is_byte v -> params_typed q -> params_typed (set_data d v q).
Proof.
  intros Hv (Hn & Hd & Ht & Ha). split; [destruct q, d; apply Hn |]. split; [| destruct q, d; done].
  intros d'. destruct (get_set_data d d' v q) as [-> | ->]; auto.
Qed.

Lemma qvarint_range b v :
  Forall is_byte b -> size b <= u64_max -> TransportParamValue.as_qvarint (TransportParamValue.byts b) = (true, v) ->
  0 <= varint.value (TransportParamValue.qvarint v) < 2 ^ 62.
Proof.
  intros Hb Hs. unfold TransportParamValue.as_qvarint. destruct (varint.read (new_reader b)) as [[x ok] r] eqn:E.
  destruct ok; [| discriminate]. destruct (rd_empty r); [| discriminate]. intros [= <-].
  assert (Hr : rd_ok (new_reader b)) by (split; [cbn; lia | done]).
  apply varint.read_inv in E; [| done | by apply remain_bytes]. destruct E as (Hl & Hx & _). cbn.
  assert (varint.border (varint.vlen x) <= 2 ^ 62); [| lia]. by destruct Hl as [-> | [-> | [-> | ->]]].
Qed.

Lemma store_typed d b z q ok q' :
  Forall is_byte b -> size b <= u64_max -> params_typed q -> store d (TransportParamValue.byts b) z q = (ok, q') ->
  params_typed q'.
Proof.
  intros Hb Hs Hq. unfold store. destruct (kind_of d).
  - destruct (TransportParamValue.as_qvarint _) as [ok' data] eqn:E. destruct ok'; cbn [negb]; [| by intros [= _ <-]].
    destruct (_ && _); intros [= _ <-]; [done |]. apply typed_num; [by eapply qvarint_range | done].
  - cbn. intros [= _ <-]. by apply typed_data.
  - cbn [TransportParamValue.as_bytes TransportParamValue.bytes negb]. intros [= _ <-].
    destruct Hq as (Hn & Hd & [Hl Ht] & Ha). split; [destruct q; apply Hn |]. split; [destruct q; apply Hd |].
    split; [| by destruct q]. unfold copy_bytes. destruct q; cbn in *. rewrite length_app, length_take, length_drop. split; [lia |].
    apply Forall_app. split; [by apply Forall_take | by apply Forall_drop].
  - destruct (negb _); intros [= _ <-]; [done |]. destruct q, d; apply Hq.
  - destruct (PreferredAddress.parse _) as [ok' [a r]] eqn:E. intros [= _ <-]. destruct Hq as (Hn & Hd & Ht & Ha).
    apply keeps_address in E; [| split; [cbn; lia | done] | done | done].
    split; [destruct q; apply Hn |]. split; [destruct q; apply Hd |]. split; [by destruct q | by destruct q].
Qed.

Lemma validate_accepted p : error_text (validate_transport_param p) = None -> accepted p.
Proof.
  unfold validate_transport_param, accepted. change (Z.shiftl 1 14) with (2 ^ 14). change (Z.shiftl 1 60) with (2 ^ 60).
  destruct (Z.ltb_spec 20 (p_ack_delay_exponent p)); [done |]. destruct (Z.ltb_spec (p_active_connection_id_limit p) 2); [done |].
  destruct (Z.ltb_spec (p_max_udp_payload_size p) 1200); [done |].
  destruct (Z.ltb_spec (2 ^ 14) (p_max_ack_delay p)); [intros _; split_and!; auto |].
  destruct (PreferredAddress.enable (p_preferred_address p) && _) eqn:E; [done |].
  destruct (Z.leb_spec (2 ^ 60) (p_initial_max_streams_bidi p)); [done |].
  destruct (Z.leb_spec (2 ^ 60) (p_initial_max_streams_uni p)); [done |]. intros _. split_and!; auto. right. split; [| done].
  intros He Hid. by rewrite He, Hid in E.
Qed.

(** ** The suite *)

Lemma from_param_typed param b c z q ok ch c' q' :
  TransportParameter.data param = TransportParamValue.byts b -> Forall is_byte b -> size b <= u64_max -> params_typed q ->
  from_transport_param param c z q = ((ok, ch), c', q') ->
  params_typed q' /\ (ok = true -> ch = false -> q' = q).
Proof.
  intros Hd Hb Hs Hq. unfold from_transport_param. rewrite Hd. destruct (visit_ids _ _ _) as [[i d] |]; [| by intros [= <- <- <- <-]].
  destruct (checked i _ c q) as [[suc c1] q1] eqn:E. intros [= -> <- <- <-]. split; [| congruence].
  unfold checked in E. destruct c as [c |]; [destruct (default false _); [by injection E as _ _ <- |] |];
    destruct (store d _ z q) as [o q2] eqn:E2; injection E as _ _ <-; by eapply store_typed.
Qed.

Lemma set_peer_typed param b is_server z s e s' :
  TransportParameter.data param = TransportParamValue.byts b -> Forall is_byte b -> size b <= u64_max ->
  params_typed (TransportParameters.peer s) -> TransportParameters.set_peer param is_server z s = (e, s') ->
  params_typed (TransportParameters.peer s') /\ TransportParameters.local s' = TransportParameters.local s /\
  (e = None -> accepted (TransportParameters.peer s) -> accepted (TransportParameters.peer s')).
Proof.
  intros Hd Hb Hs Ht. unfold TransportParameters.set_peer, TransportParameters.set_.
  destruct (TransportParameters.check_recv _ _); [by intros [= <- <-] |].
  destruct (from_transport_param param _ false _) as [[[ok ch] c1] q1] eqn:E.
  destruct (from_param_typed _ _ _ _ _ _ _ _ _ Hd Hb Hs Ht E) as [Hq Hch].
  destruct ok; cbn [negb]; [| by intros [= <- <-]].
  destruct ch; [| intros [= <- <-]; cbn; by rewrite Hch].
  destruct (error_text (validate_transport_param q1)) eqn:Ev; intros [= <- <-]; cbn; [done |].
  split_and!; auto. intros _ _. by apply validate_accepted.
Qed.

Lemma parse_loop_typed fuel is_server z r s :
  rd_ok r -> Forall is_byte (rd_buf r) -> params_typed (TransportParameters.peer s) -> (length (rd_remain r) <= fuel)%nat ->
  exists e r' s', TransportParameters.parse_loop fuel is_server z r s = Some (e, r', s') /\
    params_typed (TransportParameters.peer s') /\ TransportParameters.local s' = TransportParameters.local s /\
    (e = None -> accepted (TransportParameters.peer s) -> rd_empty r' = true /\ accepted (TransportParameters.peer s')).
Proof.
  revert r s. induction fuel as [| fuel IH]; intros r s Hr Hb Hs Hf; cbn [TransportParameters.parse_loop];
    destruct (rd_empty r) eqn:He; try (by eexists _, _, _; split_and!).
  { destruct (rd_empty_remain r Hr He) as (x & l & E). rewrite E in Hf. cbn in Hf. lia. }
  destruct (TransportParameter.parse _) as [ok [param r1]] eqn:E.
  destruct (advances_param _ _ _ _ _ Hr E) as (B1 & _ & Hr1).
  destruct ok; cbn [negb]; [| by eexists _, _, _; split_and!].
  destruct (parse_param_inv _ _ _ Hr Hb E) as (Hi & b & Hd & Hbb & Hsz).
  destruct (TransportParameters.set_peer param is_server z s) as [e s1] eqn:Es.
  destruct (set_peer_typed _ _ _ _ _ _ _ Hd Hbb Hsz Hs Es) as (Ht & Hl & Ha).
  destruct e as [e |]; [by eexists _, _, _; split_and! |].
  destruct (IH r1 s1 Hr1 ltac:(by rewrite B1) Ht) as (e & r2 & s2 & -> & Ht2 & Hl2 & Ha2).
  { rewrite rd_remain_length in * by done. rewrite B1. destruct Hr1 as [Hr1 _]. rewrite B1 in Hr1. lia. }
  eexists _, _, _. split_and!; [done | done | congruence | auto].
Qed.
End TypedFacts.

(** * Properties *)

(** C34. For whatever bytes a peer sends, [parse_peer] returns; afterwards
    every member holds a value of its type (numbers below 2^62, one-byte
    lengths, 16-bit ports, arrays of their size) and the local parameters are
    as they were. Without an error all the bytes were read and the limits
    hold: those on [ack_delay_exponent], [active_connection_id_limit] and
    [max_udp_payload_size] always, those on the preferred address and on the
    numbers of streams unless [max_ack_delay] is over 2^14. *)
Theorem peer_parameters_typed is_server accept_zero_rtt r s :
  rd_ok r -> Forall is_byte (rd_buf r) ->
  params_typed (TransportParameters.peer s) -> accepted (TransportParameters.peer s) ->
  exists e r' s', TransportParameters.parse_peer is_server accept_zero_rtt r s = Some (e, r', s') /\
    params_typed (TransportParameters.peer s') /\ TransportParameters.local s' = TransportParameters.local s /\
    (e = None -> rd_empty r' = true /\ accepted (TransportParameters.peer s')).
Proof.
  intros Hr Hb Ht Ha.
  destruct (TypedFacts.parse_loop_typed (length (rd_remain r)) is_server accept_zero_rtt r s Hr Hb Ht ltac:(lia))
    as (e & r' & s' & E & H1 & H2 & H3).
  exists e, r', s'. split_and!; auto.
Qed.

Lemma peer_parameters_typed_witness :
  exists e r' s', TransportParameters.parse_peer true false (new_reader [4; 1; 9; 1; 2; 0x40; 25]) TransportParameters.new = Some (e, r', s') /\
    params_typed (TransportParameters.peer s') /\ TransportParameters.local s' = TransportParameters.local TransportParameters.new /\
    (e = None -> rd_empty r' = true /\ accepted (TransportParameters.peer s')).
Proof.
  apply (peer_parameters_typed true false (new_reader [4; 1; 9; 1; 2; 0x40; 25]) TransportParameters.new).
  - split; [cbn; lia | done].
  - by repeat constructor.
  - split; [by intros [] |]. split; [by intros [] |]. unfold address_typed; cbn. unfold is_byte. split_and!; done || by repeat constructor.
  - repeat split; try done. right. by repeat split.
Defined.

(** A [max_ack_delay] over 2^14 is not refused, and it switches off the
    checks that follow it: whatever the other members are, once the first
    three limits hold such a set is accepted, also with 2^60 streams or more
    and a preferred address without a connection id. A parameter that breaks
    one of these limits is refused only while [max_ack_delay] is at most
    2^14. *)
Theorem large_ack_delay_masks_checks p :
  p_ack_delay_exponent p <= 20 -> 2 <= p_active_connection_id_limit p -> 1200 <= p_max_udp_payload_size p ->
  error_text (validate_transport_param p) = None <->
    (2 ^ 14 < p_max_ack_delay p \/
     (PreferredAddress.enable (p_preferred_address p) = true -> PreferredAddress.connectionID (p_preferred_address p) <> []) /\
     p_initial_max_streams_bidi p < 2 ^ 60 /\ p_initial_max_streams_uni p < 2 ^ 60).
Proof.
  intros H1 H2 H3. split; [intros E; by apply TypedFacts.validate_accepted in E as (_ & _ & _ & ?) |].
  unfold validate_transport_param. change (Z.shiftl 1 14) with (2 ^ 14). change (Z.shiftl 1 60) with (2 ^ 60).
  rewrite !(ltb_false 20), !(ltb_false _ 2), !(ltb_false _ 1200) by lia. intros [H | (Ha & Hb & Hu)].
  - by rewrite ltb_true.
  - destruct (2 ^ 14 <? _); [done |]. rewrite !leb_false by lia.
    destruct (PreferredAddress.enable _); [| done]. destruct (PreferredAddress.connectionID _) eqn:E; [by destruct Ha |].
    rewrite size_cons. pose proof (size_nonneg l). by rewrite eqb_false by lia.
Qed.

Lemma large_ack_delay_masks_checks_witness :
  let p := set_num initial_max_streams_bidi (2 ^ 60) (set_num max_ack_delay 20000 new) in
  error_text (validate_transport_param p) = None <->
    (2 ^ 14 < p_max_ack_delay p \/
     (PreferredAddress.enable (p_preferred_address p) = true -> PreferredAddress.connectionID (p_preferred_address p) <> []) /\
     p_initial_max_streams_bidi p < 2 ^ 60 /\ p_initial_max_streams_uni p < 2 ^ 60).
Proof. apply large_ack_delay_masks_checks; done. Defined.
