(* ===== verification/ConnId.v ===== *)
(** * ConnId: connection ids

    Models [fnet/quic/connid]: common_param.h, external/random.h,
    external/id_exporter.h, id_issuer.h (the ids this end gives out),
    id_acceptor.h (the ids the peer gave), config.h and id_manage.h. The
    callbacks of the application and of the multiplexer act on a state [W] of
    their own, which is threaded through. A sequence number is a 64-bit
    integer that stays below 2^62 + 1, so that it never wraps. The hash maps
    are finite maps; where the source walks one, the order is the one of
    [map_to_list]. Allocations do not fail. *)

From stdpp Require Import base list gmap strings.
From Stdlib Require Import ZArith Lia.
From S2P Require Import Prelude Bytes Varint Types FrameBase FrameStream FrameAck FrameParse ShortPacket PacketParse AckRecord.

#[local] Open Scope string_scope.
#[local] Open Scope Z_scope.
#[local] Open Scope list_scope.

(** ** Sequence numbers and stored ids *)

Definition invalid_seq : Z := -1.
Definition seq_valid (seq : Z) : bool := 0 <=? seq.

Record ConnID := mk_ConnID { cid_seq : Z; cid_id : list Z; cid_token : list Z }.
Definition null_ConnID : ConnID := mk_ConnID invalid_seq [] [].

Record IDStorage := mk_IDStorage { ids_seq : Z; ids_id : list Z; ids_token : list Z }.
Definition to_ConnID (s : IDStorage) : ConnID := mk_ConnID (ids_seq s) (ids_id s) (ids_token s).

Definition null_stateless_reset : list Z := replicate 16 0.

Record CloseID := mk_CloseID { close_id : list Z; close_token : list Z }.

(** [choose] of both sides. *)
Definition choose (ids : gmap Z IDStorage) (sequence_number : Z) : ConnID :=
  match ids !! sequence_number with Some s => to_ConnID s | None => null_ConnID end.

(** ** [struct Random] *)

Inductive RandomUsage :=
  | original_dst_id | retry_id | usage_connection_id | usage_stateless_reset_token | id_change_duration | path_challenge.

Module Random.
Section ops.
Context {W : Type}.

(** The callback fills a span: the new bytes of the buffer. *)
Definition fn : Type := list Z -> RandomUsage -> W -> bool * list Z * W.
Definition t : Type := option fn.

Definition valid (r : t) : bool := match r with Some _ => true | None => false end.
Definition gen_random (r : t) (buf : list Z) (usage : RandomUsage) (w : W) : bool * list Z * W :=
  match r with None => (false, buf, w) | Some f => f buf usage w end.
End ops.
Arguments fn : clear implicits. Arguments t : clear implicits.
End Random.

(** ** [struct ConnIDExporter] *)

Module ConnIDExporter.
Record ExporterFn (W : Type) := mk_fn {
  gen_callback : option (Random.t W -> Z -> Z -> list Z -> list Z -> W -> option Error * list Z * list Z * W);
  add_connID : option (list Z -> list Z -> W -> W);
  retire_connID : option (list Z -> list Z -> W -> W)
}.
Arguments mk_fn {W}. Arguments gen_callback {W}. Arguments add_connID {W}. Arguments retire_connID {W}.

Section ops.
Context {W : Type}.

(** The multiplexer and the object are in [W]. *)
Definition t : Type := option (ExporterFn W).

Definition add (e : t) (id stateless_reset : list Z) (w : W) : W :=
  match e with
  | Some f => match add_connID f with Some cb => cb id stateless_reset w | None => w end
  | None => w
  end.
Definition retire (e : t) (id stateless_reset : list Z) (w : W) : W :=
  match e with
  | Some f => match retire_connID f with Some cb => cb id stateless_reset w | None => w end
  | None => w
  end.
Definition generate (e : t) (rand : Random.t W) (version len : Z) (connID stateless_reset : list Z) (w : W)
    : option Error * list Z * list Z * W :=
  match e with
  | Some f =>
      match gen_callback f with
      | Some cb => cb rand version len connID stateless_reset w
      | None => (Some (LibError "no connID generator"), connID, stateless_reset, w)
      end
  | None => (Some (LibError "no connID generator"), connID, stateless_reset, w)
  end.

Definition default_generator (rand : Random.t W) (version len : Z) (connID stateless_reset : list Z) (w : W)
    : option Error * list Z * list Z * W :=
  if negb (Random.valid rand) then (Some (LibError "invalid random"), connID, stateless_reset, w)
  else
    let '(ok, connID, w) := Random.gen_random rand connID usage_connection_id w in
    if negb ok then (Some (LibError "gen_random failed"), connID, stateless_reset, w)
    else
      let '(ok, stateless_reset, w) := Random.gen_random rand stateless_reset usage_stateless_reset_token w in
      if negb ok then (Some (LibError "gen_random failed"), connID, stateless_reset, w)
      else (None, connID, stateless_reset, w).
Definition default_exporter : ExporterFn W := mk_fn (Some default_generator) None None.
End ops.
Arguments t : clear implicits.
End ConnIDExporter.

Record CommonParam (W : Type) := mk_CommonParam { random : Random.t W; version : Z }.
Arguments mk_CommonParam {W}. Arguments random {W}. Arguments version {W}.

(** ** [struct InitialRetry] *)

Module InitialRetry.
Record t := mk { initial_random : list Z; retry_random : list Z }.
Definition reset : t := mk [] [].

Section ops.
Context {W : Type}.

Definition gen (size_ : Z) (rand : Random.t W) (usage : RandomUsage) (target : list Z) (w : W) : bool * list Z * W :=
  if negb (Random.valid rand) then (false, target, w)
  else
    let size_ := if size_ <? 8 then 8 else size_ in
    Random.gen_random rand (replicate (Z.to_nat size_) 0) usage w.

Definition gen_initial (is_server : bool) (size_ : Z) (rand : Random.t W) (w : W) (i : t) : bool * W * t :=
  if is_server then (false, w, i)
  else
    let '(ok, d, w) := gen size_ rand original_dst_id (initial_random i) w in (ok, w, mk d (retry_random i)).
Definition gen_retry (is_server : bool) (size_ : Z) (rand : Random.t W) (w : W) (i : t) : bool * W * t :=
  if is_server then (false, w, i)
  else
    let '(ok, d, w) := gen size_ rand retry_id (retry_random i) w in (ok, w, mk (initial_random i) d).
End ops.

Definition recv_initial (is_server : bool) (id : list Z) (i : t) : bool * t :=
  if negb is_server then (false, i) else (true, mk id (retry_random i)).
Definition recv_retry (is_server : bool) (id : list Z) (i : t) : bool * t :=
  if is_server then (false, i) else (true, mk (initial_random i) id).
Definition has_retry (i : t) : bool := negb (size (retry_random i) =? 0).
Definition get_initial (i : t) : list Z := initial_random i.
Definition get_retry (i : t) : list Z := retry_random i.
Definition set_initial (id : list Z) (i : t) : t := mk id (retry_random i).
Definition set_retry (id : list Z) (i : t) : t := mk (initial_random i) id.
Definition get_initial_or_retry (i : t) : list Z := if has_retry i then retry_random i else initial_random i.
End InitialRetry.

(** ** [struct IDIssuer] *)

Record IDWait := mk_IDWait { iw_seq : Z; iw_retire_proior_to : Z; iw_wait : ACKHandler.t }.

Definition default_max_active_conn_id : Z := 2.

Module IDIssuer.
Record t (W : Type) := mk {
  issued_seq : Z;
  current_seq : Z;
  srcids : gmap Z IDStorage;
  waitlist : list IDWait;
  max_active_conn_id : Z;
  connID_len : Z;
  concurrent_limit : Z;
  exporter : ConnIDExporter.t W;
  retire_proior_to_id : Z;
  originalRetired : bool
}.
Arguments mk {W}. Arguments issued_seq {W}. Arguments current_seq {W}. Arguments srcids {W}. Arguments waitlist {W}.
Arguments max_active_conn_id {W}. Arguments connID_len {W}. Arguments concurrent_limit {W}. Arguments exporter {W}.
Arguments retire_proior_to_id {W}. Arguments originalRetired {W}.

Section ops.
Context {W : Type}.

Definition new : t W := mk invalid_seq invalid_seq ∅ [] default_max_active_conn_id 0 0 None 0 false.

(** [retire_proior_to_id] is left as it is. *)
Definition reset (exp : ConnIDExporter.t W) (conn_id_len conc_limit : Z) (s : t W) : t W :=
  mk invalid_seq invalid_seq ∅ [] default_max_active_conn_id conn_id_len conc_limit exp (retire_proior_to_id s) false.

Definition set_current (c : Z) (s : t W) : t W :=
  mk (issued_seq s) c (srcids s) (waitlist s) (max_active_conn_id s) (connID_len s) (concurrent_limit s) (exporter s)
     (retire_proior_to_id s) (originalRetired s).
Definition set_srcids (m : gmap Z IDStorage) (s : t W) : t W :=
  mk (issued_seq s) (current_seq s) m (waitlist s) (max_active_conn_id s) (connID_len s) (concurrent_limit s) (exporter s)
     (retire_proior_to_id s) (originalRetired s).
Definition set_waitlist (l : list IDWait) (s : t W) : t W :=
  mk (issued_seq s) (current_seq s) (srcids s) l (max_active_conn_id s) (connID_len s) (concurrent_limit s) (exporter s)
     (retire_proior_to_id s) (originalRetired s).
Definition set_retire_proior_to_id (r : Z) (s : t W) : t W :=
  mk (issued_seq s) (current_seq s) (srcids s) (waitlist s) (max_active_conn_id s) (connID_len s) (concurrent_limit s)
     (exporter s) r (originalRetired s).
Definition set_originalRetired (b : bool) (s : t W) : t W :=
  mk (issued_seq s) (current_seq s) (srcids s) (waitlist s) (max_active_conn_id s) (connID_len s) (concurrent_limit s)
     (exporter s) (retire_proior_to_id s) b.

Definition expose_close_data (s : t W) : list CloseID :=
  map (fun x => mk_CloseID (ids_id (snd x)) (ids_token (snd x))) (map_to_list (srcids s)).

(** [retrySrcID] is [None] for a null view. *)
Definition on_server_handshake_start (originalDstID : list Z) (retrySrcID : option (list Z)) (i : InitialRetry.t) (w : W) (s : t W)
    : InitialRetry.t * W :=
  if size originalDstID =? 0 then (i, w)
  else
    let i := InitialRetry.set_initial originalDstID i in
    match retrySrcID with
    | Some r => (InitialRetry.set_retry r i, ConnIDExporter.add (exporter s) r null_stateless_reset w)
    | None => (i, ConnIDExporter.add (exporter s) originalDstID null_stateless_reset w)
    end.

Definition maybe_retire_original_dst_id (i : InitialRetry.t) (dstID : list Z) (w : W) (s : t W) : W * t W :=
  if originalRetired s || (size dstID =? 0) then (w, s)
  else if negb (bool_decide (InitialRetry.get_initial_or_retry i = dstID)) then
    (ConnIDExporter.retire (exporter s) (InitialRetry.get_initial_or_retry i) null_stateless_reset w, set_originalRetired true s)
  else (w, s).

Definition on_transport_parameter_received (active_conn_id : Z) (s : t W) : t W :=
  mk (issued_seq s) (current_seq s) (srcids s) (waitlist s) active_conn_id (connID_len s) (concurrent_limit s) (exporter s)
     (retire_proior_to_id s) (originalRetired s).

Definition is_using_zero_length (s : t W) : bool := connID_len s =? 0.
Definition get_connID_len (s : t W) : Z := connID_len s.

Definition id_count (s : t W) : Z := Z.of_nat (base.size (srcids s)).

(** The new id entered in the table and, if asked for, in the list of ids to
    be sent. *)
Definition store_issued (st : IDStorage) (retire_proior_to : Z) (enque_wait : bool) (s : t W) : t W :=
  mk (ids_seq st) (if ids_seq st =? 0 then 0 else current_seq s) (<[ids_seq st := st]> (srcids s))
     (if enque_wait then waitlist s ++ [mk_IDWait (ids_seq st) retire_proior_to ACKHandler.reset] else waitlist s)
     (max_active_conn_id s) (connID_len s) (concurrent_limit s) (exporter s) (retire_proior_to_id s) (originalRetired s).

(** The test of the limit on active ids: [None] refuses; otherwise the
    number the peer is told, and the object. *)
Definition check_limit (s : t W) : option (Z * t W) :=
  if max_active_conn_id s <=? id_count s then
    if negb (retire_proior_to_id s =? current_seq s) then None
    else Some (current_seq s, set_retire_proior_to_id (current_seq s + 1) s)
  else Some (0, s).

Definition issue (cparam : CommonParam W) (enque_wait : bool) (w : W) (s : t W) : ConnID * option Error * W * t W :=
  if connID_len s =? 0 then (null_ConnID, Some (LibError "using zero length"), w, s)
  else if negb (Random.valid (random cparam)) then (null_ConnID, Some (LibError "invalid random"), w, s)
  else
    match check_limit s with
    | None => (null_ConnID, Some (LibError "id generation limit"), w, s)
    | Some (retire_proior_to, s) =>
        let '(err, id, token, w) :=
          ConnIDExporter.generate (exporter s) (random cparam) (version cparam) (connID_len s)
            (replicate (Z.to_nat (connID_len s)) 0) (replicate 16 0) w in
        match err with
        | Some e => (null_ConnID, Some e, w, s)
        | None =>
            let seq := issued_seq s + 1 in
            if seq_valid (cid_seq (choose (srcids s) seq))
            then (null_ConnID, Some (LibError "invalid sequence id for new connection id. libary bug!!"), w, s)
            else
              let st := mk_IDStorage seq id token in
              (to_ConnID st, None, ConnIDExporter.add (exporter s) id token w, store_issued st retire_proior_to enque_wait s)
        end
    end.

(** The lambda [do_send] of [send]. *)
Definition do_send (it : IDWait) (id : ConnID) (fw : fwriter) (o : observer) : bool * IDWait * fwriter * observer :=
  let new_conn := NewConnectionIDFrame.mk FrameType.NEW_CONNECTION_ID (varint.of_uint (cid_seq id))
                    (varint.of_uint (iw_retire_proior_to it)) 0 (cid_id id)
                    (copy_bytes (replicate 16 0) (cid_token id)) in
  if size (fw_remain fw) <? NewConnectionIDFrame.len new_conn false then (true, it, fw, o)
  else
    let '(ok, fw) := fw_write new_conn fw in
    if negb ok then (false, it, fw, o)
    else let '(wait, o) := ACKHandler.wait o in (true, mk_IDWait (iw_seq it) (iw_retire_proior_to it) wait, fw, o).

Fixpoint send_loop (ids : gmap Z IDStorage) (l : list IDWait) (fw : fwriter) (o : observer)
    : bool * list IDWait * fwriter * observer :=
  match l with
  | [] => (true, [], fw, o)
  | it :: l' =>
      let skip :=
        let '(b, l', fw, o) := send_loop ids l' fw o in (b, it :: l', fw, o) in
      let resend :=
        let id := choose ids (iw_seq it) in
        if negb (seq_valid (cid_seq id)) then send_loop ids l' fw o
        else
          let '(ok, it, fw, o) := do_send it id fw o in
          if negb ok then (false, it :: l', fw, o)
          else let '(b, l', fw, o) := send_loop ids l' fw o in (b, it :: l', fw, o) in
      if ACKHandler.not_confirmed (iw_wait it) then
        if ACKHandler.is_ack (iw_wait it) (snd o) then send_loop ids l' fw o
        else if ACKHandler.is_lost (iw_wait it) (snd o) then resend
        else skip
      else resend
  end.

Definition send (fw : fwriter) (o : observer) (s : t W) : bool * fwriter * observer * t W :=
  let '(b, l, fw, o) := send_loop (srcids s) (waitlist s) fw o in (b, fw, o, set_waitlist l s).

Definition update_current_id (s : t W) : option Error * t W :=
  let cur := foldl (fun cur x => if negb (seq_valid cur) || (ids_seq (snd x) <? cur) then ids_seq (snd x) else cur)
               invalid_seq (map_to_list (srcids s)) in
  (if negb (seq_valid cur)
   then Some (QUICError "retire connection ID without new connection ID. libary bug!" PROTOCOL_VIOLATION FrameType.RETIRE_CONNECTION_ID)
   else None, set_current cur s).

(** [retire.sequence_number > issued_seq] compares unsigned numbers. *)
Definition retire (cparam : CommonParam W) (recv_dest_id : list Z) (f : RetireConnectionIDFrame.t) (w : W) (s : t W)
    : option Error * W * t W :=
  let seq := varint.value (RetireConnectionIDFrame.sequence_number f) in
  if is_using_zero_length s then
    (Some (QUICError "Received RetireConnectionID frame while using zero-length connection ID" CONNECTION_ID_LIMIT_ERROR FrameType.RETIRE_CONNECTION_ID), w, s)
  else if u64 (issued_seq s) <? seq then
    (Some (QUICError "Retiring connection ID with a sequence number that was not issued" PROTOCOL_VIOLATION FrameType.RETIRE_CONNECTION_ID), w, s)
  else
    let to_retire := choose (srcids s) seq in
    if negb (seq_valid (cid_seq to_retire)) then (None, w, s)
    else if bool_decide (cid_id to_retire = recv_dest_id) then
      (Some (QUICError "Retiring connection ID that was used for sending the RetireConnectionID frame" PROTOCOL_VIOLATION FrameType.RETIRE_CONNECTION_ID), w, s)
    else
      let w := ConnIDExporter.retire (exporter s) (cid_id to_retire) (cid_token to_retire) w in
      let s := set_srcids (delete seq (srcids s)) s in
      let '(err, w, s) :=
        if negb (cid_seq to_retire =? 0) then let '(_, err, w, s) := issue cparam true w s in (err, w, s) else (None, w, s) in
      match err with
      | Some e => (Some e, w, s)
      | None => if current_seq s =? seq then let '(err, s) := update_current_id s in (err, w, s) else (None, w, s)
      end.

Definition has_id (cmp : list Z) (s : t W) : bool :=
  existsb (fun x => bool_decide (ids_id (snd x) = cmp)) (map_to_list (srcids s)).

Definition pick_up_id (s : t W) : list Z :=
  if negb (seq_valid (current_seq s)) then [] else cid_id (choose (srcids s) (current_seq s)).

(** [get_onertt_dstID_len_callback]: the length of the id at the front. *)
Definition onertt_dstID_len (r : reader) (s : t W) : option Z :=
  if is_using_zero_length s then Some 0
  else
    option_map (fun x => size (ids_id (snd x)))
      (find (fun x => bool_decide (rsubstr (rd_remain r) 0 (size (ids_id (snd x))) = ids_id (snd x))) (map_to_list (srcids s))).

Fixpoint issue_n (n : nat) (cparam : CommonParam W) (w : W) (s : t W) : option Error * W * t W :=
  match n with
  | O => (None, w, s)
  | S n =>
      let '(_, err, w, s) := issue cparam true w s in
      match err with Some e => (Some e, w, s) | None => issue_n n cparam w s end
  end.
Definition issue_ids_to_max_connid_limit (cparam : CommonParam W) (w : W) (s : t W) : option Error * W * t W :=
  let to_issue := if max_active_conn_id s <? concurrent_limit s then max_active_conn_id s else concurrent_limit s in
  issue_n (Z.to_nat (to_issue - id_count s)) cparam w s.
End ops.
End IDIssuer.

(** ** [struct IDAcceptor] *)

Inductive ConnIDChangeMode := change_none | change_constant | change_random.

#[global] Instance ConnIDChangeMode_eq_dec : EqDecision ConnIDChangeMode.
Proof. solve_decision. Defined.

Record RetireWait := mk_RetireWait { rw_seq : Z; rw_wait : ACKHandler.t }.

Module IDAcceptor.
Record t := mk {
  change_mode : ConnIDChangeMode;
  use_zero_length : bool;
  max_packet_per_id : Z;
  dstids : gmap Z IDStorage;
  waitlist : list RetireWait;
  highest_accepted : Z;
  highest_retired : Z;
  active_connid : Z;
  packet_count_since_id_changed : Z;
  packet_per_id : Z
}.
Definition new : t := mk change_none false 0 ∅ [] invalid_seq invalid_seq invalid_seq 0 0.

(** The mode that is tested is the one before the call. *)
Definition reset (p_per_id max_p_per_id : Z) (mode : ConnIDChangeMode) (s : t) : t :=
  mk mode false
    (if bool_decide (change_mode s = change_random) && (max_p_per_id =? 0) then 10000 else max_p_per_id)
    ∅ [] invalid_seq invalid_seq invalid_seq 0 p_per_id.

Definition set_tables (m : gmap Z IDStorage) (l : list RetireWait) (hr : Z) (s : t) : t :=
  mk (change_mode s) (use_zero_length s) (max_packet_per_id s) m l (highest_accepted s) hr (active_connid s)
     (packet_count_since_id_changed s) (packet_per_id s).
Definition set_dstids (m : gmap Z IDStorage) (s : t) : t := set_tables m (waitlist s) (highest_retired s) s.
Definition set_waitlist (l : list RetireWait) (s : t) : t := set_tables (dstids s) l (highest_retired s) s.
Definition set_highest_retired (h : Z) (s : t) : t := set_tables (dstids s) (waitlist s) h s.
Definition set_highest_accepted (h : Z) (s : t) : t :=
  mk (change_mode s) (use_zero_length s) (max_packet_per_id s) (dstids s) (waitlist s) h (highest_retired s) (active_connid s)
     (packet_count_since_id_changed s) (packet_per_id s).
Definition set_active (a per_id : Z) (s : t) : t :=
  mk (change_mode s) (use_zero_length s) (max_packet_per_id s) (dstids s) (waitlist s) (highest_accepted s)
     (highest_retired s) a 0 per_id.
Definition on_zero_length_acception (s : t) : t :=
  mk (change_mode s) true (max_packet_per_id s) (dstids s) (waitlist s) (highest_accepted s)
     (highest_retired s) (active_connid s) (packet_count_since_id_changed s) (packet_per_id s).
Definition on_packet_sent (s : t) : t :=
  mk (change_mode s) (use_zero_length s) (max_packet_per_id s) (dstids s) (waitlist s) (highest_accepted s)
     (highest_retired s) (active_connid s) (u32 (packet_count_since_id_changed s + 1)) (packet_per_id s).

Definition id_count (s : t) : Z := Z.of_nat (base.size (dstids s)).

Definition retire (sequence_number : Z) (s : t) : bool * t :=
  match dstids s !! sequence_number with
  | None => (false, s)
  | Some _ =>
      (true, set_tables (delete sequence_number (dstids s)) (waitlist s ++ [mk_RetireWait sequence_number ACKHandler.reset])
               (if highest_retired s <? sequence_number then sequence_number else highest_retired s) s)
  end.

Fixpoint retire_range (n : nat) (i : Z) (s : t) : t :=
  match n with O => s | S n => retire_range n (i + 1) (snd (retire i s)) end.
Definition retire_under (border : Z) (s : t) : t :=
  if border <=? highest_retired s then s
  else
    set_highest_retired (border - 1)
      (retire_range (Z.to_nat (border - (highest_retired s + 1))) (highest_retired s + 1) s).

(** The loop of [update_active]. *)
Fixpoint find_next (ids : gmap Z IDStorage) (n : nat) (i : Z) : option Z :=
  match n with
  | O => None
  | S n => if cid_seq (choose ids i) =? i then Some i else find_next ids n (i + 1)
  end.

Section ops.
Context {W : Type}.

(** [None]: the division by a [max_packet_per_id] of zero. *)
Definition select (cparam : CommonParam W) (i : Z) (w : W) (s : t) : option (W * t) :=
  if bool_decide (change_mode s = change_random) then
    let '(_, d, w) := Random.gen_random (random cparam) (replicate 4 0) id_change_duration w in
    if max_packet_per_id s =? 0 then None
    else Some (w, set_active i (read_be (take 4 d) mod max_packet_per_id s) s)
  else Some (w, set_active i (packet_per_id s) s).

Definition update_active (cparam : CommonParam W) (w : W) (s : t) : option (option Error * W * t) :=
  if (id_count s <? 2) && seq_valid (active_connid s) then Some (None, w, s)
  else
    let '(retired, s1) := if seq_valid (active_connid s) then retire (active_connid s) s else (true, s) in
    if negb retired then Some (Some (quic_error "failed to retire active connection id. unexpected error."), w, s1)
    else
      match find_next (dstids s1) (Z.to_nat (highest_accepted s1 - active_connid s1)) (active_connid s1 + 1) with
      | Some i => match select cparam i w s1 with Some (w, s2) => Some (None, w, s2) | None => None end
      | None => Some (Some (quic_error "no connection id available"), w, s1)
      end.

(** [dstids[sequence_number]]: what is stored under the number, or that it
    differs. *)
Definition enter (sequence_number : Z) (connectionID token : list Z) (s : t) : option Error * t :=
  match dstids s !! sequence_number with
  | Some id =>
      if negb (ids_seq id =? -1) then
        if negb (bool_decide (ids_id id = connectionID))
        then (Some (QUICError "different connection ID on same sequence number" PROTOCOL_VIOLATION FrameType.NEW_CONNECTION_ID), s)
        else if negb (bool_decide (ids_token id = token))
        then (Some (QUICError "different stateless reset token on same sequence number" PROTOCOL_VIOLATION FrameType.NEW_CONNECTION_ID), s)
        else (None, s)
      else (None, set_dstids (<[sequence_number := mk_IDStorage sequence_number connectionID token]> (dstids s)) s)
  | None => (None, set_dstids (<[sequence_number := mk_IDStorage sequence_number connectionID token]> (dstids s)) s)
  end.

Definition accept (cparam : CommonParam W) (sequence_number retire_proior_to : Z) (connectionID token : list Z) (w : W) (s : t)
    : option (option Error * W * t) :=
  if use_zero_length s then
    Some (Some (QUICError "recv NewConnectionID frame when using zero length connection ID" CONNECTION_ID_LIMIT_ERROR FrameType.RETIRE_CONNECTION_ID), w, s)
  else if (sequence_number <? active_connid s) || (sequence_number <? highest_retired s) then
    Some (None, w, snd (retire sequence_number s))
  else if (version cparam =? version_1) && ((size connectionID <? 1) || (20 <? size connectionID)) then
    Some (Some (QUICError "invalid connection ID length for QUIC version 1" FRAME_ENCODING_ERROR FrameType.NEW_CONNECTION_ID), w, s)
  else if sequence_number <? retire_proior_to then
    Some (Some (QUICError "retire_proior_to is higher than sequence_number" PROTOCOL_VIOLATION FrameType.NEW_CONNECTION_ID), w, s)
  else
    let s := retire_under retire_proior_to s in
    let '(err, s) := enter sequence_number connectionID token s in
    match err with
    | Some e => Some (Some e, w, s)
    | None =>
        let seq := cid_seq (choose (dstids s) sequence_number) in
        let s := if highest_accepted s <? seq then set_highest_accepted seq s else s in
        if active_connid s <? retire_proior_to then update_active cparam w s else Some (None, w, s)
    end.

Definition recv (cparam : CommonParam W) (f : NewConnectionIDFrame.t) (w : W) (s : t) : option (option Error * W * t) :=
  accept cparam (varint.value (NewConnectionIDFrame.sequence_number f)) (varint.value (NewConnectionIDFrame.retire_proior_to f))
    (NewConnectionIDFrame.connectionID f) (NewConnectionIDFrame.stateless_reset_token f) w s.

Definition maybe_update_id (cparam : CommonParam W) (handshake_complete : bool) (local_max_active_conn : Z) (w : W) (s : t)
    : option (option Error * W * t) :=
  if negb handshake_complete then Some (None, w, s)
  else if (negb (id_count s =? 0) && (active_connid s =? 0)) ||
          (negb (bool_decide (change_mode s = change_none)) && (local_max_active_conn <=? u64 (Z.shiftl (id_count s) 1)) &&
           (packet_per_id s <=? packet_count_since_id_changed s))
  then update_active cparam w s
  else Some (None, w, s).

Definition on_preferred_address_received (cparam : CommonParam W) (connectionID token : list Z) (w : W) (s : t)
    : option (option Error * W * t) :=
  accept cparam 1 (-1) connectionID token w s.
End ops.

Definition on_initial_stateless_reset_token_received (token : list Z) (s : t) : t :=
  match dstids s !! 0 with
  | Some id => set_dstids (<[0 := mk_IDStorage (ids_seq id) (ids_id id) (copy_bytes (ids_token id) token)]> (dstids s)) s
  | None => s
  end.

Definition initial_conn_id_accepted (s : t) : bool := use_zero_length s || seq_valid (active_connid s).

Definition pick_up_id (iniret : option InitialRetry.t) (s : t) : list Z :=
  if use_zero_length s then []
  else if negb (seq_valid (active_connid s)) then
    match iniret with Some i => InitialRetry.get_initial_or_retry i | None => [] end
  else cid_id (choose (dstids s) (active_connid s)).

Definition has_id (cmp : list Z) (s : t) : bool :=
  if use_zero_length s then size cmp =? 0
  else existsb (fun x => bool_decide (ids_id (snd x) = cmp)) (map_to_list (dstids s)).

(** The lambda [do_send] of [send]. *)
Definition do_send (it : RetireWait) (fw : fwriter) (o : observer) : bool * RetireWait * fwriter * observer :=
  let f := RetireConnectionIDFrame.mk FrameType.RETIRE_CONNECTION_ID (varint.of_uint (rw_seq it)) in
  if size (fw_remain fw) <? RetireConnectionIDFrame.len f false then (true, it, fw, o)
  else
    let '(ok, fw) := fw_write f fw in
    if negb ok then (false, it, fw, o)
    else let '(wait, o) := ACKHandler.wait o in (true, mk_RetireWait (rw_seq it) wait, fw, o).

Fixpoint send_loop (l : list RetireWait) (fw : fwriter) (o : observer) : bool * list RetireWait * fwriter * observer :=
  match l with
  | [] => (true, [], fw, o)
  | it :: l' =>
      let skip := let '(b, l', fw, o) := send_loop l' fw o in (b, it :: l', fw, o) in
      let resend :=
        let '(ok, it, fw, o) := do_send it fw o in
        if negb ok then (false, it :: l', fw, o)
        else let '(b, l', fw, o) := send_loop l' fw o in (b, it :: l', fw, o) in
      if ACKHandler.not_confirmed (rw_wait it) then
        if ACKHandler.is_ack (rw_wait it) (snd o) then send_loop l' fw o
        else if ACKHandler.is_lost (rw_wait it) (snd o) then resend
        else skip
      else resend
  end.

Definition send (fw : fwriter) (o : observer) (s : t) : bool * fwriter * observer * t :=
  let '(b, l, fw, o) := send_loop (waitlist s) fw o in (b, fw, o, set_waitlist l s).

Definition stateless_reset_callback (token : list Z) (s : t) : bool :=
  if active_connid s <? 0 then false
  else
    let cur := choose (dstids s) (active_connid s) in
    if bool_decide (cid_token cur = null_stateless_reset) then false else bool_decide (token = cid_token cur).

Definition is_using_zero_length (s : t) : bool := use_zero_length s.
End IDAcceptor.

(** ** [struct IDManager] *)

Record ConnIDConfig (W : Type) := mk_connid_config {
  cf_change_mode : ConnIDChangeMode; cf_packet_per_id : Z; cf_max_packet_per_id : Z; cf_exporter : ConnIDExporter.t W;
  cf_random : Random.t W; cf_connid_len : Z; cf_concurrent_limit : Z
}.
Arguments mk_connid_config {W}. Arguments cf_change_mode {W}. Arguments cf_packet_per_id {W}.
Arguments cf_max_packet_per_id {W}. Arguments cf_exporter {W}. Arguments cf_random {W}. Arguments cf_connid_len {W}.
Arguments cf_concurrent_limit {W}.
Definition default_connid_config {W} : ConnIDConfig W :=
  mk_connid_config change_random 1000 10000 (Some ConnIDExporter.default_exporter) None 4 4.

Module IDManager.
Record t (W : Type) := mk {
  cparam : CommonParam W; acceptor : IDAcceptor.t; issuer : IDIssuer.t W; iniret : InitialRetry.t
}.
Arguments mk {W}. Arguments cparam {W}. Arguments acceptor {W}. Arguments issuer {W}. Arguments iniret {W}.

Section ops.
Context {W : Type}.

Definition new : t W := mk (mk_CommonParam None 0) IDAcceptor.new IDIssuer.new InitialRetry.reset.

Definition set_acceptor (a : IDAcceptor.t) (m : t W) : t W := mk (cparam m) a (issuer m) (iniret m).
Definition set_issuer (i : IDIssuer.t W) (m : t W) : t W := mk (cparam m) (acceptor m) i (iniret m).
Definition set_iniret (i : InitialRetry.t) (m : t W) : t W := mk (cparam m) (acceptor m) (issuer m) i.

Definition reset (version : Z) (config : ConnIDConfig W) (m : t W) : t W :=
  mk (mk_CommonParam (cf_random config) version)
     (IDAcceptor.reset (cf_packet_per_id config) (cf_max_packet_per_id config) (cf_change_mode config) (acceptor m))
     (IDIssuer.reset (cf_exporter config) (cf_connid_len config) (cf_concurrent_limit config) (issuer m))
     InitialRetry.reset.

Definition set_original_dst_id (origDstID : list Z) (retrySrc : option (list Z)) (w : W) (m : t W) : W * t W :=
  let '(i, w) := IDIssuer.on_server_handshake_start origDstID retrySrc (iniret m) w (issuer m) in (w, set_iniret i m).
Definition maybe_retire_original_dst_id (dstID : list Z) (w : W) (m : t W) : W * t W :=
  let '(w, i) := IDIssuer.maybe_retire_original_dst_id (iniret m) dstID w (issuer m) in (w, set_issuer i m).
Definition expose_close_data (m : t W) : list CloseID := IDIssuer.expose_close_data (issuer m).
Definition get_original_dst_id (m : t W) : list Z := InitialRetry.get_initial (iniret m).
Definition get_retry (m : t W) : list Z := InitialRetry.get_retry (iniret m).

(** What an operation of the acceptor gives back, put in the object. *)
Definition accepted (r : option (option Error * W * IDAcceptor.t)) (m : t W) : option (option Error * W * t W) :=
  match r with Some (e, w, a) => Some (e, w, set_acceptor a m) | None => None end.

Definition pick_up_dstID (is_server handshake_complete : bool) (local_max_conn_id : Z) (w : W) (m : t W)
    : option (list Z * option Error * W * t W) :=
  match accepted (IDAcceptor.maybe_update_id (cparam m) handshake_complete local_max_conn_id w (acceptor m)) m with
  | None => None
  | Some (Some e, w, m) => Some ([], Some e, w, m)
  | Some (None, w, m) => Some (IDAcceptor.pick_up_id (if is_server then None else Some (iniret m)) (acceptor m), None, w, m)
  end.
Definition pick_up_srcID (m : t W) : list Z := IDIssuer.pick_up_id (issuer m).
Definition choose_dstID (seq : Z) (m : t W) : ConnID := choose (IDAcceptor.dstids (acceptor m)) seq.
Definition choose_srcID (seq : Z) (m : t W) : ConnID := choose (IDIssuer.srcids (issuer m)) seq.
Definition local_using_zero_length (m : t W) : bool := IDIssuer.is_using_zero_length (issuer m).
Definition remote_using_zero_length (m : t W) : bool := IDAcceptor.is_using_zero_length (acceptor m).
Definition initial_conn_id_accepted (m : t W) : bool := IDAcceptor.initial_conn_id_accepted (acceptor m).

Definition gen_original_dst_id (w : W) (m : t W) : bool * W * t W :=
  let '(ok, w, i) := InitialRetry.gen_initial false (IDIssuer.get_connID_len (issuer m)) (random (cparam m)) w (iniret m) in
  (ok, w, set_iniret i m).
Definition issue (enque_wait : bool) (w : W) (m : t W) : ConnID * option Error * W * t W :=
  let '(c, e, w, i) := IDIssuer.issue (cparam m) enque_wait w (issuer m) in (c, e, w, set_issuer i m).
Definition issue_to_max (w : W) (m : t W) : option Error * W * t W :=
  let '(e, w, i) := IDIssuer.issue_ids_to_max_connid_limit (cparam m) w (issuer m) in (e, w, set_issuer i m).

Definition recv_new_connection_id (f : NewConnectionIDFrame.t) (w : W) (m : t W) : option (option Error * W * t W) :=
  accepted (IDAcceptor.recv (cparam m) f w (acceptor m)) m.
Definition recv_retire_connection_id (recv_dest_id : list Z) (f : RetireConnectionIDFrame.t) (w : W) (m : t W)
    : option Error * W * t W :=
  let '(e, w, i) := IDIssuer.retire (cparam m) recv_dest_id f w (issuer m) in (e, w, set_issuer i m).
Definition recv (summary : PacketSummary) (a : AnyFrame) (w : W) (m : t W) : option (option Error * W * t W) :=
  match a with
  | NewConnectionID f => recv_new_connection_id f w m
  | RetireConnectionID f => Some (recv_retire_connection_id (ps_dstID summary) f w m)
  | _ => Some (None, w, m)
  end.

Definition send (fw : fwriter) (o : observer) (allow_retire : bool) (m : t W) : IOResult * fwriter * observer * t W :=
  let '(ok, fw, o, m) :=
    if allow_retire then let '(ok, fw, o, a) := IDAcceptor.send fw o (acceptor m) in (ok, fw, o, set_acceptor a m)
    else (true, fw, o, m) in
  if negb ok then (io_fatal, fw, o, m)
  else
    let '(ok, fw, o, i) := IDIssuer.send fw o (issuer m) in (if ok then io_ok else io_fatal, fw, o, set_issuer i m).

Definition on_initial_packet_received (id : list Z) (w : W) (m : t W) : option (option Error * W * t W) :=
  if size id =? 0 then Some (None, w, set_acceptor (IDAcceptor.on_zero_length_acception (acceptor m)) m)
  else accepted (IDAcceptor.accept (cparam m) 0 0 id null_stateless_reset w (acceptor m)) m.
Definition on_initial_stateless_reset_token_received (token : list Z) (m : t W) : t W :=
  set_acceptor (IDAcceptor.on_initial_stateless_reset_token_received token (acceptor m)) m.
Definition on_preferred_address_received (id token : list Z) (w : W) (m : t W) : option (option Error * W * t W) :=
  accepted (IDAcceptor.on_preferred_address_received (cparam m) id token w (acceptor m)) m.
Definition on_transport_parameter_received (active_conn : Z) (m : t W) : t W :=
  set_issuer (IDIssuer.on_transport_parameter_received active_conn (issuer m)) m.
Definition on_retry_received (id : list Z) (m : t W) : bool * t W :=
  let '(ok, i) := InitialRetry.recv_retry false id (iniret m) in (ok, set_iniret i m).
Definition on_packet_sent (m : t W) : t W := set_acceptor (IDAcceptor.on_packet_sent (acceptor m)) m.
Definition has_dstID (id : list Z) (m : t W) : bool := IDAcceptor.has_id id (acceptor m).
Definition has_srcID (id : list Z) (m : t W) : bool := IDIssuer.has_id id (issuer m).
End ops.
End IDManager.
