(* ===== verification/ConnIdIssue.v ===== *)
(** * ConnIdIssue: the connection ids this end gives out

    Theorems on [IDIssuer] of id_issuer.h: what is active, which sequence
    numbers are used, what a RETIRE_CONNECTION_ID frame does on every branch,
    and how far the limit of the peer is kept. *)

From stdpp Require Import base list gmap strings.
From Stdlib Require Import ZArith Lia.
From S2P Require Import Prelude Bytes Varint Types FrameBase FrameParse AckRecord ConnId.

#[local] Open Scope Z_scope.
#[local] Open Scope list_scope.

(** ** Specification *)

(** What the issuer asks of the generator: it fills the spans it is given.
    [gen_works] says in addition that it does not fail. *)
Class Generator {W} (e : ConnIDExporter.t W) (rand : Random.t W) : Prop := {
  gen_sized : forall version len id tok w err id' tok' w',
    ConnIDExporter.generate e rand version len id tok w = (err, id', tok', w') ->
    length id' = length id /\ length tok' = length tok
}.

(** A source of random bytes fills the span it is given. *)
Definition rand_sized {W} (rand : Random.t W) : Prop :=
  forall buf usage w ok buf' w', Random.gen_random rand buf usage w = (ok, buf', w') -> length buf' = length buf.

Definition gen_works {W} (e : ConnIDExporter.t W) (cparam : CommonParam W) (len : Z) : Prop :=
  Random.valid (random cparam) = true /\
  forall w, exists id tok w', ConnIDExporter.generate e (random cparam) (version cparam) len
      (replicate (Z.to_nat len) 0) (replicate 16 0) w = (None, id, tok, w').

Section Spec.
Context {W : Type}.

(** An entry of the table. *)
Definition id_ok (s : IDIssuer.t W) (k : Z) (st : IDStorage) : Prop :=
  ids_seq st = k /\ 0 <= k <= IDIssuer.issued_seq s /\ size (ids_id st) = IDIssuer.connID_len s /\ length (ids_token st) = 16%nat.

Definition least_key (m : gmap Z IDStorage) (k : Z) : Prop := is_Some (m !! k) /\ forall j, is_Some (m !! j) -> k <= j.

Definition table_ok (s : IDIssuer.t W) : Prop :=
  -1 <= IDIssuer.issued_seq s /\ 0 <= IDIssuer.connID_len s <= 255 /\ map_Forall (id_ok s) (IDIssuer.srcids s).

(** The invariant: every active id is stored under its number, which was
    issued, and has the agreed length; the current id is the active one with
    the least number, unless none was issued yet. *)
Definition issuer_inv (s : IDIssuer.t W) : Prop :=
  table_ok s /\
  ((IDIssuer.issued_seq s = -1 /\ IDIssuer.current_seq s = -1) \/ least_key (IDIssuer.srcids s) (IDIssuer.current_seq s)).

(** The operations; a [retire] that fails closes the connection. *)
Inductive step (cparam : CommonParam W) : W * IDIssuer.t W -> W * IDIssuer.t W -> Prop :=
  | step_issue enque w s c e w' s' : IDIssuer.issue cparam enque w s = (c, e, w', s') -> step cparam (w, s) (w', s')
  | step_to_max w s e w' s' : IDIssuer.issue_ids_to_max_connid_limit cparam w s = (e, w', s') -> step cparam (w, s) (w', s')
  | step_retire dst f w s w' s' : 0 <= varint.value (RetireConnectionIDFrame.sequence_number f) ->
      IDIssuer.retire cparam dst f w s = (None, w', s') -> step cparam (w, s) (w', s')
  | step_param n w s : step cparam (w, s) (w, IDIssuer.on_transport_parameter_received n s)
  | step_send fw o b fw' o' w s s' : IDIssuer.send fw o s = (b, fw', o', s') -> step cparam (w, s) (w, s').
End Spec.

(** * Lemmas *)

Module IssueFacts.
Section Facts.
Context {W : Type}.
Implicit Types (s : IDIssuer.t W) (w : W).

Lemma choose_some m k st : m !! k = Some st -> choose m k = to_ConnID st.
Proof. unfold choose. by intros ->. Qed.

Lemma choose_none m k : m !! k = None -> choose m k = null_ConnID.
Proof. unfold choose. by intros ->. Qed.

Lemma check_limit_frame s r s1 :
  IDIssuer.check_limit s = Some (r, s1) -> exists x, s1 = IDIssuer.set_retire_proior_to_id x s.
Proof.
  unfold IDIssuer.check_limit. repeat case_match; intros [= <- <-]; [eauto |].
  exists (IDIssuer.retire_proior_to_id s). by destruct s.
Qed.

Lemma fresh_seq s : table_ok s -> IDIssuer.srcids s !! (IDIssuer.issued_seq s + 1) = None.
Proof.
  intros (_ & _ & Hm). destruct (_ !! _) eqn:E; [| done]. apply Hm in E. unfold id_ok in E. lia.
Qed.

(** The three outcomes of [issue]. *)
Lemma issue_cases cparam enque w s c e w' s' :
  table_ok s -> IDIssuer.issue cparam enque w s = (c, e, w', s') ->
  (is_Some e /\ c = null_ConnID /\ exists x, s' = IDIssuer.set_retire_proior_to_id x s) \/
  (e = None /\ exists r x id tok w1, let s1 := IDIssuer.set_retire_proior_to_id x s in
     IDIssuer.check_limit s = Some (r, s1) /\
     ConnIDExporter.generate (IDIssuer.exporter s) (random cparam) (version cparam) (IDIssuer.connID_len s)
       (replicate (Z.to_nat (IDIssuer.connID_len s)) 0) (replicate 16 0) w = (None, id, tok, w1) /\
     let st := mk_IDStorage (IDIssuer.issued_seq s + 1) id tok in
     c = to_ConnID st /\ w' = ConnIDExporter.add (IDIssuer.exporter s) id tok w1 /\
     s' = IDIssuer.store_issued st r enque s1).
Proof.
  intros Hi. assert (Hs : exists x, s = IDIssuer.set_retire_proior_to_id x s)
    by (exists (IDIssuer.retire_proior_to_id s); by destruct s).
  unfold IDIssuer.issue. destruct (_ =? 0); [intros [= <- <- <- <-]; left; eauto |].
  destruct (Random.valid _); cbn [negb]; [| intros [= <- <- <- <-]; left; eauto].
  destruct (IDIssuer.check_limit s) as [[r s1] |] eqn:El; [| intros [= <- <- <- <-]; left; eauto].
  destruct (check_limit_frame _ _ _ El) as [x ->]. cbn [IDIssuer.set_retire_proior_to_id IDIssuer.exporter IDIssuer.connID_len
    IDIssuer.issued_seq IDIssuer.srcids].
  destruct (ConnIDExporter.generate _ _ _ _ _ _ w) as [[[err id] tok] w1] eqn:Eg.
  destruct err as [e1 |]; [intros [= <- <- <- <-]; left; eauto |].
  rewrite choose_none by (by apply fresh_seq). cbn [seq_valid cid_seq null_ConnID]. change (seq_valid invalid_seq) with false.
  intros [= <- <- <- <-]. right. split; [done |]. by exists r, x, id, tok, w1.
Qed.

Lemma store_table s st r enque :
  table_ok s -> ids_seq st = IDIssuer.issued_seq s + 1 -> size (ids_id st) = IDIssuer.connID_len s ->
  length (ids_token st) = 16%nat -> table_ok (IDIssuer.store_issued st r enque s).
Proof.
  intros (Hr & Hl & Hm) E H1 H2. unfold table_ok, IDIssuer.store_issued; cbn. split_and!; try lia.
  apply map_Forall_insert_2; [unfold id_ok; cbn; split_and!; lia |].
  intros k st' Hk. apply Hm in Hk. unfold id_ok in *. cbn. intuition lia.
Qed.

Lemma least_insert m c k st : least_key m c -> c < k -> least_key (<[k := st]> m) c.
Proof.
  intros [Hc1 Hc2] Hk. split; [rewrite lookup_insert_ne by lia; done |].
  intros j Hj. destruct (decide (k = j)) as [<- |]; [lia |]. rewrite lookup_insert_ne in Hj by done. auto.
Qed.

Lemma key_range s k : table_ok s -> is_Some (IDIssuer.srcids s !! k) -> 0 <= k <= IDIssuer.issued_seq s.
Proof. intros (_ & _ & Hm) [st Hk]. apply Hm in Hk. unfold id_ok in Hk. lia. Qed.

Lemma store_inv s st r enque :
  issuer_inv s -> ids_seq st = IDIssuer.issued_seq s + 1 -> size (ids_id st) = IDIssuer.connID_len s ->
  length (ids_token st) = 16%nat -> issuer_inv (IDIssuer.store_issued st r enque s).
Proof.
  intros [Ht Hc] E H1 H2. split; [by apply store_table |]. right. cbn. destruct Hc as [[E1 E2] | Hc].
  - assert (ids_seq st = 0) as -> by lia. cbn. split; [by rewrite lookup_insert_eq |].
    intros j Hj. destruct (decide (j = 0)) as [-> |]; [lia |]. rewrite lookup_insert_ne in Hj by done.
    apply key_range in Hj; [lia | done].
  - pose proof (key_range s _ Ht (proj1 Hc)). rewrite eqb_false by lia. apply least_insert; [done | lia].
Qed.

(** ** [issue] keeps the invariant *)

Lemma issue_inv cparam enque w s c e w' s' :
  Generator (IDIssuer.exporter s) (random cparam) -> issuer_inv s -> IDIssuer.issue cparam enque w s = (c, e, w', s') ->
  issuer_inv s' /\ IDIssuer.exporter s' = IDIssuer.exporter s.
Proof.
  intros G Hi E. destruct (issue_cases _ _ _ _ _ _ _ _ (proj1 Hi) E) as [(_ & _ & x & ->) | (_ & r & x & id & tok & w1 & H)]; [done |].
  destruct H as (_ & Eg & _ & _ & ->). split; [| done]. destruct (gen_sized _ _ _ _ _ _ _ _ _ Eg) as [L1 L2].
  rewrite !length_replicate in *. destruct Hi as [Ht Hc]. pose proof Ht as (_ & Hl & _).
  apply store_inv; cbn; [done | done | unfold size; lia | done].
Qed.

Lemma issue_n_inv n cparam w s e w' s' :
  Generator (IDIssuer.exporter s) (random cparam) -> issuer_inv s -> IDIssuer.issue_n n cparam w s = (e, w', s') ->
  issuer_inv s' /\ IDIssuer.exporter s' = IDIssuer.exporter s.
Proof.
  revert w s. induction n as [| n IH]; intros w s G Hi; cbn [IDIssuer.issue_n]; [by intros [= _ _ <-] |].
  destruct (IDIssuer.issue cparam true w s) as [[[c e1] w1] s1] eqn:E. destruct (issue_inv _ _ _ _ _ _ _ _ G Hi E) as [Hi1 Ee].
  destruct e1; [by intros [= _ _ <-] |]. rewrite <- Ee in G. rewrite <- Ee. eauto.
Qed.

(** ** The least active id *)

Lemma least_fold (l : list (Z * IDStorage)) cur :
  Forall (fun x => 0 <= ids_seq (snd x)) l -> 0 <= cur ->
  let r := foldl (fun cur x => if negb (seq_valid cur) || (ids_seq (snd x) <? cur) then ids_seq (snd x) else cur) cur l in
  0 <= r <= cur /\ (forall x, x ∈ l -> r <= ids_seq (snd x)) /\ (r = cur \/ exists x, x ∈ l /\ r = ids_seq (snd x)).
Proof.
  intros Hl. cbv zeta. revert cur. induction Hl as [| x l Hx Hl IH]; intros cur Hc; cbn [foldl].
  { split_and!; try lia. intros x Hx. by apply elem_of_nil in Hx. }
  assert (seq_valid cur = true) as Ev by (apply leb_true; lia). rewrite Ev. cbn [negb orb].
  set (c := if _ <? _ then _ else _). assert (Hc' : 0 <= c <= cur /\ c <= ids_seq (snd x) /\ (c = cur \/ c = ids_seq (snd x))).
  { subst c. destruct (Z.ltb_spec (ids_seq (snd x)) cur); lia. }
  clearbody c. destruct (IH c ltac:(lia)) as (H1 & H2 & H3). split; [lia | split].
  - intros y Hy. apply elem_of_cons in Hy as [-> | Hy]; [lia | auto].
  - destruct H3 as [-> | (y & Hy & ->)].
    + destruct Hc' as (_ & _ & [-> | ->]); [by left | right; exists x; split; [by left | done]].
    + right. exists y. split; [by right | done].
Qed.

Lemma update_current_spec s :
  table_ok s ->
  let '(e, s') := IDIssuer.update_current_id s in
  s' = IDIssuer.set_current (IDIssuer.current_seq s') s /\
  (e = None <-> IDIssuer.srcids s <> ∅) /\
  (IDIssuer.srcids s <> ∅ -> least_key (IDIssuer.srcids s) (IDIssuer.current_seq s')).
Proof.
  intros Ht. unfold IDIssuer.update_current_id. set (cur := foldl _ _ _).
  assert (Hcur : if decide (IDIssuer.srcids s = ∅) then cur = -1 else least_key (IDIssuer.srcids s) cur /\ 0 <= cur).
  { case_decide as Em; subst cur; [by rewrite Em, map_to_list_empty |].
    destruct (map_to_list (IDIssuer.srcids s)) as [| [k st] l] eqn:El.
    { by apply map_to_list_empty_iff in El. }
    assert (Hk : forall k st, (k, st) ∈ map_to_list (IDIssuer.srcids s) -> ids_seq st = k /\ 0 <= k).
    { intros k' st' Hx. apply elem_of_map_to_list in Hx. apply Ht in Hx. unfold id_ok in Hx. lia. }
    rewrite El in Hk. cbn [foldl]. change (seq_valid invalid_seq) with false. cbn [negb orb].
    destruct (Hk k st ltac:(by left)) as [E0 H0]. cbn [snd].
    pose proof (least_fold l (ids_seq st)) as Hf. cbv zeta in Hf.
    set (r := foldl _ _ _) in *. destruct Hf as (H1 & H2 & H3); [| lia |].
    { apply Forall_forall. intros [k' st'] Hx. cbn. destruct (Hk k' st' ltac:(by right)). lia. }
    assert (Hin : exists x, x ∈ (k, st) :: l /\ r = ids_seq (snd x)).
    { destruct H3 as [-> | (x & Hx & ->)]; [exists (k, st); split; [by left | done] | exists x; split; [by right | done]]. }
    split; [| lia]. destruct Hin as ([k' st'] & Hx & ->). cbn [snd] in *. destruct (Hk k' st' Hx) as [Ex _]. split.
    - rewrite Ex. rewrite <- El in Hx. apply elem_of_map_to_list in Hx. eauto.
    - intros j [stj Hj]. apply elem_of_map_to_list in Hj. rewrite El in Hj. destruct (Hk j stj Hj) as [Ej _].
      apply elem_of_cons in Hj as [[= -> ->] | Hj]; [lia |]. specialize (H2 _ Hj). cbn in H2. lia. }
  split; [done |]. cbn. case_decide as Em.
  - subst cur. rewrite Hcur. cbn. split; [split; [done |] | done]. intros H. by destruct H.
  - destruct Hcur as [Hl H0]. unfold seq_valid. rewrite leb_true by lia. by cbn.
Qed.

(** ** Retirement *)

Lemma delete_table s k : table_ok s -> table_ok (IDIssuer.set_srcids (delete k (IDIssuer.srcids s)) s).
Proof. intros (H1 & H2 & H3). split_and!; try apply H2; [done |]. cbn. by apply map_Forall_delete. Qed.

Lemma least_delete m c k : least_key m c -> c <> k -> least_key (delete k m) c.
Proof.
  intros [H1 H2] Hk. split; [by rewrite lookup_delete_ne by done |].
  intros j Hj. apply H2. destruct (decide (k = j)) as [-> |]; [rewrite lookup_delete_eq in Hj; by destruct Hj |].
  by rewrite lookup_delete_ne in Hj.
Qed.

(** After the replacement of a deleted id. *)
Definition replaced (s s2 : IDIssuer.t W) (k : Z) : Prop :=
  table_ok s2 /\ IDIssuer.exporter s2 = IDIssuer.exporter s /\ IDIssuer.current_seq s2 = IDIssuer.current_seq s /\
  forall c, least_key (IDIssuer.srcids s) c -> c <> k -> least_key (IDIssuer.srcids s2) c.

Lemma replace_spec cparam w s k c e w' s' :
  Generator (IDIssuer.exporter s) (random cparam) -> table_ok s -> is_Some (IDIssuer.srcids s !! k) ->
  IDIssuer.issue cparam true w (IDIssuer.set_srcids (delete k (IDIssuer.srcids s)) s) = (c, e, w', s') -> replaced s s' k.
Proof.
  intros G Ht Hk E. pose proof (key_range s k Ht Hk) as Hr. pose proof (delete_table s k Ht) as Ht1.
  assert (Hd : forall c, least_key (IDIssuer.srcids s) c -> c <> k -> least_key (delete k (IDIssuer.srcids s)) c)
    by (intros; by apply least_delete).
  destruct (issue_cases _ _ _ _ _ _ _ _ Ht1 E) as [(_ & _ & x & ->) | (_ & r & x & id & tok & w1 & H)]; [done |].
  destruct H as (_ & Eg & _ & _ & ->). destruct (gen_sized _ _ _ _ _ _ _ _ _ Eg) as [L1 L2]. rewrite !length_replicate in *.
  pose proof Ht as (_ & Hl & _). cbn in L1.
  split; [apply store_table; cbn; [done | done | unfold size; lia | done] |]. cbn. rewrite eqb_false by lia.
  split_and!; [done | done |]. intros c' Hc Hck. pose proof (key_range s c' Ht (proj1 Hc)). apply least_insert; [auto | lia].
Qed.

Lemma retire_inv cparam dst f w s w' s' :
  Generator (IDIssuer.exporter s) (random cparam) -> issuer_inv s -> IDIssuer.retire cparam dst f w s = (None, w', s') ->
  issuer_inv s' /\ IDIssuer.exporter s' = IDIssuer.exporter s.
Proof.
  intros G Hi. pose proof Hi as [Ht Hc]. unfold IDIssuer.retire. set (k := varint.value _).
  destruct (IDIssuer.is_using_zero_length s); [done |]. destruct (_ <? k); [done |].
  destruct (IDIssuer.srcids s !! k) as [st |] eqn:Ek; [| rewrite choose_none by done; by intros [= _ <-]].
  rewrite (choose_some _ _ _ Ek). destruct (seq_valid _); cbn [negb]; [| by intros [= _ <-]].
  destruct (bool_decide _); [done |]. set (w0 := ConnIDExporter.retire _ _ _ _).
  set (r := if negb (cid_seq _ =? 0) then _ else _).
  assert (Hr : let '(e, w2, s2) := r in replaced s s2 k).
  { subst r. destruct (negb _).
    - destruct (IDIssuer.issue _ _ _ _) as [[[c e] w2] s2] eqn:E. by apply (replace_spec _ _ _ _ _ _ _ _ G Ht ltac:(eauto) E).
    - split; [by apply delete_table |]. split_and!; [done | done |]. intros. by apply least_delete. }
  destruct r as [[e w2] s2]. destruct Hr as (Ht2 & Ee & Ec & Hl). destruct e; [done |].
  destruct (Z.eqb_spec (IDIssuer.current_seq s2) k) as [E |].
  - pose proof (update_current_spec s2 Ht2) as Hu. destruct (IDIssuer.update_current_id s2) as [e s3].
    destruct Hu as (Es & He & Hn). intros [= -> <- <-]. rewrite Es. split; [| done]. split; [done |]. right. cbn. by apply Hn, He.
  - intros [= <- <-]. split; [| done]. split; [done |]. right. rewrite Ec in *. apply Hl; [| done].
    destruct Hc as [[E1 _] | Hc]; [| done]. pose proof (key_range s k Ht ltac:(eauto)). lia.
Qed.

Lemma issuer_step_inv cparam (ws ws' : W * IDIssuer.t W) :
  step cparam ws ws' -> Generator (IDIssuer.exporter (snd ws)) (random cparam) -> issuer_inv (snd ws) ->
  issuer_inv (snd ws') /\ IDIssuer.exporter (snd ws') = IDIssuer.exporter (snd ws).
Proof.
  intros [enque w s c e w' s' E | w s e w' s' E | dst f w s w' s' _ E | n w s | fw o b fw' o' w s s' E] G Hi; cbn [snd] in *.
  - by eapply issue_inv.
  - by eapply issue_n_inv.
  - by eapply retire_inv.
  - done.
  - unfold IDIssuer.send in E. destruct (IDIssuer.send_loop _ _ _ _) as [[[b1 l] fw1] o1]. by injection E as _ _ _ <-.
Qed.

Lemma reach_inv cparam exp (ws ws' : W * IDIssuer.t W) :
  Generator exp (random cparam) -> rtc (step cparam) ws ws' -> issuer_inv (snd ws) -> IDIssuer.exporter (snd ws) = exp ->
  issuer_inv (snd ws') /\ IDIssuer.exporter (snd ws') = exp.
Proof.
  intros G. induction 1 as [| x y z Hs Hr IH]; intros Hi He; [done |].
  destruct (issuer_step_inv _ _ _ Hs) as [Hi' He']; [by rewrite He | done |]. apply IH; [done | congruence].
Qed.

(** ** When the generator works *)

Lemma count_insert s st r enque :
  table_ok s -> ids_seq st = IDIssuer.issued_seq s + 1 ->
  IDIssuer.id_count (IDIssuer.store_issued st r enque s) = IDIssuer.id_count s + 1.
Proof.
  intros Ht E. unfold IDIssuer.id_count. cbn. rewrite map_size_insert_None; [lia |]. rewrite E. by apply fresh_seq.
Qed.

Lemma issue_ok cparam enque w s r x :
  table_ok s -> IDIssuer.connID_len s <> 0 -> Generator (IDIssuer.exporter s) (random cparam) ->
  gen_works (IDIssuer.exporter s) cparam (IDIssuer.connID_len s) ->
  IDIssuer.check_limit s = Some (r, IDIssuer.set_retire_proior_to_id x s) ->
  exists st w', IDIssuer.issue cparam enque w s =
      (to_ConnID st, None, w', IDIssuer.store_issued st r enque (IDIssuer.set_retire_proior_to_id x s)) /\
    ids_seq st = IDIssuer.issued_seq s + 1 /\ size (ids_id st) = IDIssuer.connID_len s /\ length (ids_token st) = 16%nat.
Proof.
  intros Ht Hl G [Hv Hg] Hc. destruct (Hg w) as (id & tok & w1 & Eg). unfold IDIssuer.issue.
  rewrite eqb_false by done. rewrite Hv. cbn [negb]. rewrite Hc.
  cbn [IDIssuer.set_retire_proior_to_id IDIssuer.exporter IDIssuer.connID_len IDIssuer.issued_seq IDIssuer.srcids]. rewrite Eg.
  rewrite choose_none by (by apply fresh_seq). change (seq_valid (cid_seq null_ConnID)) with false.
  exists (mk_IDStorage (IDIssuer.issued_seq s + 1) id tok). eexists. split; [done |]. cbn.
  destruct (gen_sized _ _ _ _ _ _ _ _ _ Eg) as [L1 L2]. rewrite !length_replicate in *. pose proof Ht as (_ & Hr & _).
  split_and!; [done | unfold size; lia | done].
Qed.

Lemma check_limit_below s :
  IDIssuer.id_count s < IDIssuer.max_active_conn_id s ->
  IDIssuer.check_limit s = Some (0, IDIssuer.set_retire_proior_to_id (IDIssuer.retire_proior_to_id s) s).
Proof. intros H. unfold IDIssuer.check_limit. rewrite leb_false by lia. by destruct s. Qed.

(** The entries queued for the ids [a], ..., [a + n - 1]. *)
Fixpoint queued (n : nat) (a : Z) : list IDWait :=
  match n with O => [] | S n => mk_IDWait a 0 ACKHandler.reset :: queued n (a + 1) end.

Lemma issue_n_ok n cparam w s :
  table_ok s -> IDIssuer.connID_len s <> 0 -> Generator (IDIssuer.exporter s) (random cparam) ->
  gen_works (IDIssuer.exporter s) cparam (IDIssuer.connID_len s) ->
  IDIssuer.id_count s + Z.of_nat n <= IDIssuer.max_active_conn_id s ->
  exists w' s', IDIssuer.issue_n n cparam w s = (None, w', s') /\ table_ok s' /\
    IDIssuer.id_count s' = IDIssuer.id_count s + Z.of_nat n /\ IDIssuer.issued_seq s' = IDIssuer.issued_seq s + Z.of_nat n /\
    IDIssuer.waitlist s' = IDIssuer.waitlist s ++ queued n (IDIssuer.issued_seq s + 1) /\
    IDIssuer.srcids s ⊆ IDIssuer.srcids s'.
Proof.
  revert w s. induction n as [| n IH]; intros w s Ht Hl G Hg Hc; cbn [IDIssuer.issue_n].
  { exists w, s. rewrite app_nil_r. split_and!; auto; lia. }
  destruct (issue_ok cparam true w s 0 _ Ht Hl G Hg (check_limit_below s ltac:(lia))) as (st & w1 & E & E1 & E2 & E3). rewrite E.
  assert (Hs : IDIssuer.set_retire_proior_to_id (IDIssuer.retire_proior_to_id s) s = s) by by destruct s. rewrite Hs.
  pose proof (count_insert s st 0 true Ht E1) as Hn.
  destruct (IH w1 (IDIssuer.store_issued st 0 true s)) as (w2 & s2 & E4 & Ht2 & Hc2 & Hi2 & Hw2 & Hsub);
    [by apply store_table | done | done | done | cbn; lia |].
  exists w2, s2. rewrite E4, Hc2, Hi2, Hw2. cbn [IDIssuer.store_issued IDIssuer.issued_seq IDIssuer.waitlist queued].
  rewrite E1, <- app_assoc. cbn [app]. split_and!; [done | done | lia | lia | done |].
  etrans; [| exact Hsub]. cbn. apply insert_subseteq. rewrite E1. by apply fresh_seq.
Qed.

(** An active id retired by the peer. *)
Lemma retire_replace cparam dst f w s st new w1 (k := varint.value (RetireConnectionIDFrame.sequence_number f))
    (s1 := IDIssuer.set_srcids (delete k (IDIssuer.srcids s)) s) :
  table_ok s -> IDIssuer.connID_len s <> 0 -> IDIssuer.issued_seq s < 2 ^ 63 ->
  IDIssuer.srcids s !! k = Some st -> ids_id st <> dst -> k <> 0 ->
  IDIssuer.issue cparam true (ConnIDExporter.retire (IDIssuer.exporter s) (ids_id st) (ids_token st) w) s1 =
    (to_ConnID new, None, w1, IDIssuer.store_issued new 0 true s1) -> table_ok (IDIssuer.store_issued new 0 true s1) ->
  exists c, IDIssuer.retire cparam dst f w s = (None, w1, IDIssuer.set_current c (IDIssuer.store_issued new 0 true s1)).
Proof.
  intros Ht Hl Hb Hk Hd H0 E Ht2. pose proof (key_range s k Ht ltac:(eauto)) as Hr.
  pose proof (proj2 (proj2 Ht) _ _ Hk) as (Ek & _).
  unfold IDIssuer.retire. fold k. unfold IDIssuer.is_using_zero_length. rewrite eqb_false by done.
  rewrite ltb_false by (rewrite u64_small by (unfold is_u64; lia); lia). rewrite (choose_some _ _ _ Hk).
  cbn [cid_seq to_ConnID cid_id cid_token]. rewrite Ek. unfold seq_valid at 1. rewrite leb_true by lia. cbn [negb].
  rewrite bool_decide_eq_false_2 by done. rewrite eqb_false by done. cbn [negb]. fold s1. rewrite E.
  destruct (_ =? k); [| by eexists].
  pose proof (update_current_spec _ Ht2) as Hu. destruct (IDIssuer.update_current_id _) as [e s3].
  destruct Hu as (Es & He & _). rewrite Es, (proj2 He) by (cbn; apply insert_non_empty). by eexists.
Qed.

Lemma retire_active cparam dst f w s st :
  issuer_inv s -> IDIssuer.connID_len s <> 0 -> Generator (IDIssuer.exporter s) (random cparam) ->
  gen_works (IDIssuer.exporter s) cparam (IDIssuer.connID_len s) -> IDIssuer.issued_seq s < 2 ^ 63 ->
  IDIssuer.id_count s <= IDIssuer.max_active_conn_id s ->
  let k := varint.value (RetireConnectionIDFrame.sequence_number f) in
  IDIssuer.srcids s !! k = Some st -> ids_id st <> dst -> k <> 0 ->
  exists new w' s', IDIssuer.retire cparam dst f w s = (None, w', s') /\ ids_seq new = IDIssuer.issued_seq s + 1 /\
    IDIssuer.srcids s' = <[IDIssuer.issued_seq s + 1 := new]> (delete k (IDIssuer.srcids s)) /\
    IDIssuer.waitlist s' = IDIssuer.waitlist s ++ [mk_IDWait (IDIssuer.issued_seq s + 1) 0 ACKHandler.reset] /\
    IDIssuer.id_count s' = IDIssuer.id_count s /\ issuer_inv s'.
Proof.
  intros Hi Hl G Hg Hb Hc k Hk Hd H0. pose proof Hi as [Ht _]. pose proof (delete_table s k Ht) as Ht1.
  set (s1 := IDIssuer.set_srcids (delete k (IDIssuer.srcids s)) s) in *.
  assert (Hn : IDIssuer.id_count s1 = IDIssuer.id_count s - 1).
  { unfold s1, IDIssuer.id_count. cbn. rewrite map_size_delete_Some by eauto.
    pose proof (map_size_ne_0_lookup_2 (IDIssuer.srcids s) k ltac:(eauto)). lia. }
  assert (Hlt : IDIssuer.id_count s1 < IDIssuer.max_active_conn_id s1).
  { rewrite Hn. change (IDIssuer.max_active_conn_id s1) with (IDIssuer.max_active_conn_id s). lia. }
  destruct (issue_ok cparam true (ConnIDExporter.retire (IDIssuer.exporter s) (ids_id st) (ids_token st) w) s1 0 _
    Ht1 Hl G Hg (check_limit_below s1 Hlt)) as (new & w1 & E & E1 & E2 & E3).
  assert (Hs : IDIssuer.set_retire_proior_to_id (IDIssuer.retire_proior_to_id s1) s1 = s1) by done. rewrite Hs in E.
  destruct (retire_replace cparam dst f w s st new w1) as [c Er]; auto; [by apply store_table |].
  eexists new, w1, _. split; [exact Er |]. destruct (retire_inv _ _ _ _ _ _ _ G Hi Er) as [Hi' _].
  split_and!; [done | cbn; by rewrite E1 | cbn; by rewrite E1 | | done].
  pose proof (count_insert s1 new 0 true Ht1 E1) as Hn2.
  transitivity (IDIssuer.id_count (IDIssuer.store_issued new 0 true s1)); [done |]. rewrite Hn2, Hn. lia.
Qed.
End Facts.
End IssueFacts.

(** The default generator is one. *)
#[global] Instance default_exporter_generator {W} (rand : Random.t W) :
  rand_sized rand -> Generator (Some ConnIDExporter.default_exporter) rand.
Proof.
  intros Hr. split. intros version len id tok w err id' tok' w'. cbn. unfold ConnIDExporter.default_generator.
  destruct (negb _); [by intros [= _ <- <- _] |].
  destruct (Random.gen_random rand id _ w) as [[ok id1] w1] eqn:E1. apply Hr in E1. destruct (negb ok); [by intros [= _ <- <- _] |].
  destruct (Random.gen_random rand tok _ w1) as [[ok2 tok1] w2] eqn:E2. apply Hr in E2. by destruct (negb ok2); intros [= _ <- <- _].
Qed.

(** * Properties *)

(** C33. At any time of a connection on which no RETIRE_CONNECTION_ID frame was
    refused, whatever ids are issued, retired and sent in whatever order:
    every active id is stored under its own sequence number, which was
    issued, and has the configured length and a token; the id used as source
    is the active one with the least number; and the number of the next id is
    not in use. *)
Theorem issued_ids_invariant {W} (cparam : CommonParam W) exp len conc w0 s0 w s :
  Generator exp (random cparam) -> 0 <= len <= 255 ->
  rtc (step cparam) (w0, IDIssuer.reset exp len conc s0) (w, s) ->
  issuer_inv s /\ IDIssuer.srcids s !! (IDIssuer.issued_seq s + 1) = None /\
  (0 <= IDIssuer.issued_seq s ->
     exists st, IDIssuer.srcids s !! IDIssuer.current_seq s = Some st /\ IDIssuer.pick_up_id s = ids_id st).
Proof.
  intros G Hl Hr.
  destruct (IssueFacts.reach_inv _ exp _ _ G Hr) as [Hi _]; [| done |].
  { split; [| by left]. split_and!; cbn; [done | lia | lia | apply map_Forall_empty]. }
  cbn [snd] in Hi. split_and!; [done | by apply IssueFacts.fresh_seq, Hi |]. intros H0.
  destruct Hi as [Ht [[E _] | [[st Hst] _]]]; [lia |]. exists st. split; [done |].
  unfold IDIssuer.pick_up_id. pose proof (IssueFacts.key_range s _ Ht ltac:(eauto)). unfold seq_valid. rewrite leb_true by lia.
  cbn [negb]. by rewrite (IssueFacts.choose_some _ _ _ Hst).
Qed.

(** What a RETIRE_CONNECTION_ID frame does, on every branch, at an end
    that uses connection ids and stays within the limit of its peer: a number
    that was not issued, and the id the frame itself was sent to, are
    protocol violations and change nothing; a number retired before changes
    nothing; any other id is removed and replaced by a new one with the next
    number, which is queued to be sent, so that the number of active ids
    stays the same. *)
Theorem retire_connection_id_outcomes {W} (cparam : CommonParam W) dst f w s :
  issuer_inv s -> IDIssuer.connID_len s <> 0 -> 0 <= IDIssuer.issued_seq s < 2 ^ 63 ->
  IDIssuer.id_count s <= IDIssuer.max_active_conn_id s ->
  Generator (IDIssuer.exporter s) (random cparam) -> gen_works (IDIssuer.exporter s) cparam (IDIssuer.connID_len s) ->
  let k := varint.value (RetireConnectionIDFrame.sequence_number f) in
  if decide (IDIssuer.issued_seq s < k) then
    exists msg, IDIssuer.retire cparam dst f w s = (Some (QUICError msg PROTOCOL_VIOLATION FrameType.RETIRE_CONNECTION_ID), w, s)
  else
    match IDIssuer.srcids s !! k with
    | None => IDIssuer.retire cparam dst f w s = (None, w, s)
    | Some st =>
        if decide (ids_id st = dst) then
          exists msg, IDIssuer.retire cparam dst f w s = (Some (QUICError msg PROTOCOL_VIOLATION FrameType.RETIRE_CONNECTION_ID), w, s)
        else k <> 0 ->
          exists new w' s', IDIssuer.retire cparam dst f w s = (None, w', s') /\ ids_seq new = IDIssuer.issued_seq s + 1 /\
            IDIssuer.srcids s' = <[IDIssuer.issued_seq s + 1 := new]> (delete k (IDIssuer.srcids s)) /\
            IDIssuer.waitlist s' = IDIssuer.waitlist s ++ [mk_IDWait (IDIssuer.issued_seq s + 1) 0 ACKHandler.reset] /\
            IDIssuer.id_count s' = IDIssuer.id_count s /\ issuer_inv s'
    end.
Proof.
  intros Hi Hl Hb Hc G Hg k.
  assert (Hz : IDIssuer.is_using_zero_length s = false) by by apply eqb_false.
  assert (Hu : u64 (IDIssuer.issued_seq s) = IDIssuer.issued_seq s) by (apply u64_small; unfold is_u64; lia).
  case_decide as Hk.
  { unfold IDIssuer.retire. rewrite Hz, Hu. fold k. rewrite ltb_true by done. by eexists. }
  destruct (IDIssuer.srcids s !! k) as [st |] eqn:E; [case_decide as Hd |].
  - unfold IDIssuer.retire. rewrite Hz, Hu. fold k. rewrite ltb_false by lia. rewrite (IssueFacts.choose_some _ _ _ E).
    pose proof (proj2 (proj2 (proj1 Hi)) _ _ E) as (Es & Hr & _). cbn [cid_seq cid_id to_ConnID]. rewrite Es.
    unfold seq_valid. rewrite leb_true by lia. cbn [negb]. rewrite bool_decide_eq_true_2 by done. by eexists.
  - intros H0. apply (IssueFacts.retire_active cparam dst f w s st); auto. lia.
  - unfold IDIssuer.retire. rewrite Hz, Hu. fold k. rewrite ltb_false by lia. by rewrite IssueFacts.choose_none.
Qed.

(** [issue_ids_to_max_connid_limit] fills up to the limit and not beyond:
    with a generator that works it returns without an error, the number of
    active ids is then the smaller of the peer's limit and the configured
    one (or what it was, if that is more), the ids there were are still
    there, and the new ones are queued in the order of their numbers, which
    follow the last one issued. *)
Theorem issue_to_max_fills {W} (cparam : CommonParam W) w s :
  issuer_inv s -> IDIssuer.connID_len s <> 0 ->
  Generator (IDIssuer.exporter s) (random cparam) -> gen_works (IDIssuer.exporter s) cparam (IDIssuer.connID_len s) ->
  let limit := IDIssuer.max_active_conn_id s `min` IDIssuer.concurrent_limit s in
  let n := Z.to_nat (limit - IDIssuer.id_count s) in
  exists w' s', IDIssuer.issue_ids_to_max_connid_limit cparam w s = (None, w', s') /\
    IDIssuer.id_count s' = IDIssuer.id_count s `max` limit /\ IDIssuer.srcids s ⊆ IDIssuer.srcids s' /\
    IDIssuer.issued_seq s' = IDIssuer.issued_seq s + Z.of_nat n /\
    IDIssuer.waitlist s' = IDIssuer.waitlist s ++ IssueFacts.queued n (IDIssuer.issued_seq s + 1).
Proof.
  intros [Ht _] Hl G Hg limit n. unfold IDIssuer.issue_ids_to_max_connid_limit.
  replace (if _ <? _ then _ else _) with limit by (subst limit; destruct (Z.ltb_spec (IDIssuer.max_active_conn_id s) (IDIssuer.concurrent_limit s)); lia).
  fold n. destruct (Z.le_gt_cases limit (IDIssuer.id_count s)) as [Hle | Hgt].
  - assert (n = 0%nat) as -> by lia. exists w, s. cbn. rewrite app_nil_r. split_and!; auto; lia.
  - destruct (IssueFacts.issue_n_ok n cparam w s Ht Hl G Hg) as (w' & s' & E & _ & H1 & H2 & H3 & H4); [lia |].
    exists w', s'. split_and!; auto; lia.
Qed.

(** At the limit of the peer one more id is issued: when
    [retire_proior_to_id] is the current number, [issue] succeeds and leaves
    more active ids than the peer allowed, and the frame queued for the new
    id asks the peer to retire the ids below the least active one, of which
    there is none. *)
Theorem issue_exceeds_limit {W} (cparam : CommonParam W) w s :
  issuer_inv s -> IDIssuer.connID_len s <> 0 -> 0 <= IDIssuer.issued_seq s ->
  Generator (IDIssuer.exporter s) (random cparam) -> gen_works (IDIssuer.exporter s) cparam (IDIssuer.connID_len s) ->
  IDIssuer.max_active_conn_id s <= IDIssuer.id_count s -> IDIssuer.retire_proior_to_id s = IDIssuer.current_seq s ->
  exists c w' s' seq border, IDIssuer.issue cparam true w s = (c, None, w', s') /\
    IDIssuer.max_active_conn_id s' < IDIssuer.id_count s' /\
    IDIssuer.waitlist s' = IDIssuer.waitlist s ++ [mk_IDWait seq border ACKHandler.reset] /\
    forall k, is_Some (IDIssuer.srcids s' !! k) -> border <= k.
Proof.
  intros Hi Hl H0 G Hg Hc Hr. pose proof Hi as [Ht Hcur].
  destruct (IssueFacts.issue_ok cparam true w s (IDIssuer.current_seq s) (IDIssuer.current_seq s + 1) Ht Hl G Hg)
    as (st & w' & E & E1 & E2 & E3).
  { unfold IDIssuer.check_limit. rewrite leb_true by done. by rewrite Hr, Z.eqb_refl. }
  eexists _, w', _, _, _. split; [exact E |]. split; [| split; [reflexivity |]].
  - rewrite IssueFacts.count_insert; [| done | done]. change (IDIssuer.id_count (IDIssuer.set_retire_proior_to_id ?x ?y)) with (IDIssuer.id_count y).
    cbn. lia.
  - intros k Hk. cbn in Hk. destruct Hcur as [[] | Hcur]; [lia |]. pose proof (IssueFacts.key_range s _ Ht (proj1 Hcur)).
    apply (IssueFacts.least_insert _ _ (ids_seq st) st) in Hcur; [| lia]. by apply Hcur.
Qed.

(** A counter as a source of random bytes. *)
Definition counting : Random.t Z := Some (fun buf _ n => (true, replicate (length buf) n, n + 1)).
Definition sample_cparam : CommonParam Z := mk_CommonParam counting version_1.
Definition sample_issuer : IDIssuer.t Z := IDIssuer.reset (Some ConnIDExporter.default_exporter) 4 4 IDIssuer.new.

Lemma counting_sized : rand_sized counting.
Proof. intros buf u w ok buf' w' [= _ <- _]. apply length_replicate. Qed.

(** Four ids are issued after the peer allowed four, and number 2 is retired. *)
Definition sample_first : IDIssuer.t Z := snd (IDIssuer.issue sample_cparam false 0 sample_issuer).
Definition sample_four : IDIssuer.t Z :=
  snd (IDIssuer.issue_ids_to_max_connid_limit sample_cparam 2 (IDIssuer.on_transport_parameter_received 4 sample_first)).

Lemma issued_ids_invariant_witness :
  issuer_inv sample_four /\ IDIssuer.srcids sample_four !! 4 = None /\
  exists st, IDIssuer.srcids sample_four !! 0 = Some st /\ IDIssuer.pick_up_id sample_four = ids_id st.
Proof.
  destruct (issued_ids_invariant sample_cparam (Some ConnIDExporter.default_exporter) 4 4 0 IDIssuer.new 8 sample_four)
    as (H1 & H2 & H3).
  - apply default_exporter_generator, counting_sized.
  - lia.
  - eapply rtc_l; [eapply (step_issue _ false); vm_compute; reflexivity |].
    eapply rtc_l; [apply (step_param _ 4) |].
    eapply rtc_l; [eapply step_to_max; vm_compute; reflexivity |]. apply rtc_refl.
  - split; [done |]. split; [exact H2 |]. by apply H3.
Defined.

Lemma sample_four_inv : issuer_inv sample_four.
Proof.
  refine (proj1 (IssueFacts.issue_n_inv 3 sample_cparam 2 (IDIssuer.on_transport_parameter_received 4 sample_first) None 8 sample_four _ _ eq_refl)).
  - apply (default_exporter_generator (random sample_cparam) counting_sized).
  - refine (proj1 (IssueFacts.issue_inv sample_cparam false 0 sample_issuer _ None 2 sample_first _ _ eq_refl)).
    + apply (default_exporter_generator (random sample_cparam) counting_sized).
    + split; [| by left]. split_and!; cbn; [done | lia | lia | apply map_Forall_empty].
Qed.

Lemma counting_works : gen_works (Some ConnIDExporter.default_exporter) sample_cparam 4.
Proof. split; [done |]. intros w. by eexists _, _, _. Qed.

Definition retire_two : RetireConnectionIDFrame.t := RetireConnectionIDFrame.mk FrameType.RETIRE_CONNECTION_ID (varint.of_uint 2).

Lemma retire_connection_id_outcomes_witness :
  exists new w' s', IDIssuer.retire sample_cparam [9; 9; 9; 9] retire_two 8 sample_four = (None, w', s') /\ ids_seq new = 4 /\
    IDIssuer.srcids s' = <[4 := new]> (delete 2 (IDIssuer.srcids sample_four)) /\
    IDIssuer.waitlist s' = IDIssuer.waitlist sample_four ++ [mk_IDWait 4 0 ACKHandler.reset] /\
    IDIssuer.id_count s' = IDIssuer.id_count sample_four /\ issuer_inv s'.
Proof.
  pose proof (retire_connection_id_outcomes sample_cparam [9; 9; 9; 9] retire_two 8 sample_four sample_four_inv
    ltac:(by vm_compute) ltac:(by vm_compute) ltac:(by vm_compute)
    (default_exporter_generator (random sample_cparam) counting_sized) counting_works) as H.
  cbn [retire_two varint.value RetireConnectionIDFrame.sequence_number varint.of_uint] in H.
  assert (Ei : IDIssuer.issued_seq sample_four = 3) by (by vm_compute). rewrite Ei in H.
  rewrite decide_False in H by lia.
  assert (Ek : IDIssuer.srcids sample_four !! 2 = Some (mk_IDStorage 2 (replicate 4 4) (replicate 16 5))) by (by vm_compute).
  rewrite Ek in H. rewrite decide_False in H by done. by apply H.
Defined.

Lemma issue_to_max_fills_witness :
  exists w' s', IDIssuer.issue_ids_to_max_connid_limit sample_cparam 2 (IDIssuer.on_transport_parameter_received 4 sample_first) = (None, w', s') /\
    IDIssuer.id_count s' = 4 /\ IDIssuer.issued_seq s' = 3.
Proof.
  destruct (issue_to_max_fills sample_cparam 2 (IDIssuer.on_transport_parameter_received 4 sample_first)) as (w' & s' & E & H1 & _ & H2 & _).
  - refine (proj1 (IssueFacts.issue_inv sample_cparam false 0 sample_issuer _ None 2 sample_first _ _ eq_refl)).
    + apply (default_exporter_generator (random sample_cparam) counting_sized).
    + split; [| by left]. split_and!; cbn; [done | lia | lia | apply map_Forall_empty].
  - by vm_compute.
  - apply (default_exporter_generator (random sample_cparam) counting_sized).
  - exact counting_works.
  - exists w', s'. split; [exact E |]. rewrite H1, H2. by vm_compute.
Defined.

Lemma issue_exceeds_limit_witness :
  exists c w' s' seq border, IDIssuer.issue sample_cparam true 8 sample_four = (c, None, w', s') /\
    IDIssuer.max_active_conn_id s' < IDIssuer.id_count s' /\
    IDIssuer.waitlist s' = IDIssuer.waitlist sample_four ++ [mk_IDWait seq border ACKHandler.reset] /\
    forall k, is_Some (IDIssuer.srcids s' !! k) -> border <= k.
Proof.
  apply (issue_exceeds_limit sample_cparam 8 sample_four sample_four_inv); [by vm_compute | by vm_compute | | exact counting_works | by vm_compute | by vm_compute].
  apply (default_exporter_generator (random sample_cparam) counting_sized).
Defined.
