(* ===== verification/ConnIdAccept.v ===== *)
(** * ConnIdAccept: the connection ids of the peer

    Theorems on [IDAcceptor] of id_acceptor.h: which id of the peer is used,
    how it is changed, and what the field Retire Prior To of a
    NEW_CONNECTION_ID frame does; and on the way of an id from the issuer of
    one end to the acceptor of the other. *)

From stdpp Require Import base list gmap strings.
From Stdlib Require Import ZArith Lia.
From S2P Require Import Prelude Bytes Varint Types FrameBase FrameParse AckRecord ConnId ConnIdIssue.

#[local] Open Scope Z_scope.
#[local] Open Scope list_scope.

(** ** Specification *)

(** The invariant once the first id was accepted: the ids that are held have
    the numbers from the active one to the highest accepted, the active one
    is among them, and every number in the list of retired ids is below it
    and in the list once. *)
Definition acceptor_inv (s : IDAcceptor.t) : Prop :=
  IDAcceptor.use_zero_length s = false /\
  (IDAcceptor.change_mode s = change_random -> IDAcceptor.max_packet_per_id s <> 0) /\
  0 <= IDAcceptor.active_connid s /\ IDAcceptor.highest_retired s < IDAcceptor.active_connid s /\
  is_Some (IDAcceptor.dstids s !! IDAcceptor.active_connid s) /\
  map_Forall (fun k st => ids_seq st = k /\ IDAcceptor.active_connid s <= k <= IDAcceptor.highest_accepted s) (IDAcceptor.dstids s) /\
  Forall (fun r => rw_seq r < IDAcceptor.active_connid s) (IDAcceptor.waitlist s) /\
  NoDup (rw_seq <$> IDAcceptor.waitlist s).

Section Spec.
Context {W : Type}.

(** What happens to an acceptor between frames that retire the active id. *)
Inductive astep (cparam : CommonParam W) : W * IDAcceptor.t -> W * IDAcceptor.t -> Prop :=
  | astep_recv f w s w' s' :
      0 <= varint.value (NewConnectionIDFrame.sequence_number f) ->
      varint.value (NewConnectionIDFrame.retire_proior_to f) <= IDAcceptor.active_connid s ->
      IDAcceptor.recv cparam f w s = Some (None, w', s') -> astep cparam (w, s) (w', s')
  | astep_update done_ n w s e w' s' :
      IDAcceptor.maybe_update_id cparam done_ n w s = Some (e, w', s') -> astep cparam (w, s) (w', s')
  | astep_preferred id token w s w' s' :
      IDAcceptor.on_preferred_address_received cparam id token w s = Some (None, w', s') -> astep cparam (w, s) (w', s')
  | astep_token token w s : astep cparam (w, s) (w, IDAcceptor.on_initial_stateless_reset_token_received token s)
  | astep_packet w s : astep cparam (w, s) (w, IDAcceptor.on_packet_sent s)
  | astep_send fw o b fw' o' w s s' : IDAcceptor.send fw o s = (b, fw', o', s') -> astep cparam (w, s) (w, s').
End Spec.

(** * Lemmas *)

Module AcceptFacts.
Section Facts.
Context {W : Type}.
Implicit Types (s : IDAcceptor.t) (w : W).

Lemma retire_some s k st :
  IDAcceptor.dstids s !! k = Some st -> IDAcceptor.highest_retired s < k ->
  IDAcceptor.retire k s =
    (true, IDAcceptor.set_tables (delete k (IDAcceptor.dstids s))
             (IDAcceptor.waitlist s ++ [mk_RetireWait k ACKHandler.reset]) k s).
Proof. intros E Hk. unfold IDAcceptor.retire. by rewrite E, ltb_true by done. Qed.

Lemma retire_none s k : IDAcceptor.dstids s !! k = None -> IDAcceptor.retire k s = (false, s).
Proof. intros E. unfold IDAcceptor.retire. by rewrite E. Qed.

(** [find_next] gives the least number held in the range. *)
Lemma find_next_spec (m : gmap Z IDStorage) n i :
  map_Forall (fun k st => ids_seq st = k) m -> 0 <= i ->
  match IDAcceptor.find_next m n i with
  | Some j => i <= j < i + Z.of_nat n /\ is_Some (m !! j) /\ forall k, i <= k < j -> m !! k = None
  | None => forall k, i <= k < i + Z.of_nat n -> m !! k = None
  end.
Proof.
  intros Hm. revert i. induction n as [| n IH]; intros i Hi; cbn [IDAcceptor.find_next]; [intros; lia |].
  destruct (m !! i) as [st |] eqn:E.
  - rewrite (IssueFacts.choose_some _ _ _ E). cbn [cid_seq to_ConnID]. rewrite eqb_true by (by apply Hm).
    split_and!; [lia | lia | eauto | intros; lia].
  - rewrite IssueFacts.choose_none by done. cbn [cid_seq null_ConnID]. unfold invalid_seq. rewrite eqb_false by lia.
    specialize (IH (i + 1) ltac:(lia)). destruct (IDAcceptor.find_next m n (i + 1)) as [j |].
    + destruct IH as (H1 & H2 & H3). split_and!; [lia | lia | done |].
      intros k Hk. destruct (decide (k = i)) as [-> |]; [done | apply H3; lia].
    + intros k Hk. destruct (decide (k = i)) as [-> |]; [done | apply IH; lia].
Qed.

Lemma two_ids (m : gmap Z IDStorage) k : is_Some (m !! k) -> 2 <= Z.of_nat (base.size m) -> exists j, j <> k /\ is_Some (m !! j).
Proof.
  intros [st Hk] Hs. destruct (decide (delete k m = ∅)) as [E | E].
  - rewrite <- (insert_delete_id m k st Hk), E in Hs. rewrite map_size_insert_None in Hs by done. rewrite map_size_empty in Hs. lia.
  - apply map_choose in E as (j & x & Hj). exists j. destruct (decide (j = k)) as [-> |]; [by rewrite lookup_delete_eq in Hj |].
    rewrite lookup_delete_ne in Hj by done. eauto.
Qed.

Lemma select_some (cparam : CommonParam W) i w s :
  (IDAcceptor.change_mode s = change_random -> IDAcceptor.max_packet_per_id s <> 0) ->
  exists w' n, IDAcceptor.select cparam i w s = Some (w', IDAcceptor.set_active i n s).
Proof.
  intros Hm. unfold IDAcceptor.select. case_bool_decide as E; [| eauto].
  destruct (Random.gen_random _ _ _ _) as [[ok d] w1]. rewrite eqb_false by auto. eauto.
Qed.

(** The change to the next id. *)
Lemma update_active_spec (cparam : CommonParam W) w s :
  acceptor_inv s -> 2 <= IDAcceptor.id_count s ->
  exists j w' s', IDAcceptor.update_active cparam w s = Some (None, w', s') /\ acceptor_inv s' /\
    IDAcceptor.active_connid s' = j /\ IDAcceptor.active_connid s < j /\
    (forall k, IDAcceptor.active_connid s < k < j -> IDAcceptor.dstids s !! k = None) /\
    IDAcceptor.dstids s' = delete (IDAcceptor.active_connid s) (IDAcceptor.dstids s) /\
    IDAcceptor.waitlist s' = IDAcceptor.waitlist s ++ [mk_RetireWait (IDAcceptor.active_connid s) ACKHandler.reset].
Proof.
  intros (Hz & Hr & H0 & Hh & [st Ha] & Hm & Hw & Hn) Hc. unfold IDAcceptor.update_active.
  rewrite ltb_false by lia. cbn [andb]. unfold seq_valid. rewrite leb_true by lia. rewrite (retire_some s _ st) by done. cbn [negb].
  cbn [IDAcceptor.dstids IDAcceptor.set_tables IDAcceptor.active_connid IDAcceptor.highest_accepted].
  set (m := delete (IDAcceptor.active_connid s) (IDAcceptor.dstids s)).
  assert (Hm1 : map_Forall (fun k st => ids_seq st = k) m) by (intros k x Hk; by apply (map_Forall_delete _ _ _ Hm) in Hk as [? _]).
  destruct (two_ids _ _ ltac:(eauto) Hc) as (j0 & Hj0 & [st0 Hs0]). pose proof (Hm _ _ Hs0) as [_ Hj0r].
  assert (Hs1 : m !! j0 = Some st0) by (unfold m; by rewrite lookup_delete_ne).
  pose proof (find_next_spec m (Z.to_nat (IDAcceptor.highest_accepted s - IDAcceptor.active_connid s))
    (IDAcceptor.active_connid s + 1) Hm1 ltac:(lia)) as Hf.
  destruct (IDAcceptor.find_next _ _ _) as [j |]; cycle 1.
  { rewrite Hf in Hs1; [done | lia]. }
  destruct Hf as (Hj & [stj Hstj] & Hlow).
  destruct (select_some cparam j w (IDAcceptor.set_tables m (IDAcceptor.waitlist s ++ [mk_RetireWait (IDAcceptor.active_connid s) ACKHandler.reset])
    (IDAcceptor.active_connid s) s) Hr) as (w' & n & Es). rewrite Es.
  eexists j, w', _. split; [reflexivity |]. cbn. split; [| split_and!; try done; try lia; intros k Hk; specialize (Hlow k ltac:(lia)); unfold m in Hlow; by rewrite lookup_delete_ne in Hlow by lia].
  unfold acceptor_inv; cbn. split_and!; try done; try lia.
  - intros k x Hk. pose proof (Hm1 _ _ Hk) as Hk1. apply (map_Forall_delete _ _ _ Hm) in Hk as Hk2. split; [done |].
    destruct (decide (k < j)) as [Hlt |]; [| lia]. destruct (decide (k = IDAcceptor.active_connid s)) as [-> |].
    + unfold m in Hk. by rewrite lookup_delete_eq in Hk.
    + rewrite (Hlow k ltac:(lia)) in Hk. done.
  - apply Forall_app. split; [| by repeat constructor; cbn; lia]. eapply Forall_impl; [exact Hw |]. cbn. lia.
  - rewrite fmap_app. apply NoDup_app. split_and!; [done | | apply NoDup_singleton].
    intros x Hx. apply list_elem_of_fmap in Hx as (r & -> & Hr'). rewrite Forall_forall in Hw. specialize (Hw _ Hr'). cbn.
    rewrite list_elem_of_singleton. lia.
Qed.

(** ** Accepting an id *)

Lemma retire_range_none n i s :
  (forall k, i <= k < i + Z.of_nat n -> IDAcceptor.dstids s !! k = None) -> IDAcceptor.retire_range n i s = s.
Proof.
  revert i. induction n as [| n IH]; intros i H; cbn [IDAcceptor.retire_range]; [done |].
  rewrite retire_none by (apply H; lia). apply IH. intros k Hk. apply H. lia.
Qed.

Lemma held_range s k : acceptor_inv s -> is_Some (IDAcceptor.dstids s !! k) -> IDAcceptor.active_connid s <= k <= IDAcceptor.highest_accepted s.
Proof. intros (_ & _ & _ & _ & _ & Hm & _) [st Hk]. apply Hm in Hk. tauto. Qed.

Lemma below_active s k : acceptor_inv s -> k < IDAcceptor.active_connid s -> IDAcceptor.dstids s !! k = None.
Proof.
  intros Hi Hk. destruct (IDAcceptor.dstids s !! k) eqn:E; [| done]. pose proof (held_range s k Hi ltac:(eauto)). lia.
Qed.

Lemma retire_under_low s border :
  acceptor_inv s -> border <= IDAcceptor.active_connid s ->
  exists h, IDAcceptor.retire_under border s = IDAcceptor.set_highest_retired h s /\ h < IDAcceptor.active_connid s.
Proof.
  intros Hi Hb. pose proof Hi as (_ & _ & _ & Hh & _). unfold IDAcceptor.retire_under.
  destruct (Z.leb_spec border (IDAcceptor.highest_retired s)).
  - exists (IDAcceptor.highest_retired s). split; [by destruct s | done].
  - exists (border - 1). split; [| lia]. by rewrite retire_range_none by (intros k Hk; apply below_active; [done | lia]).
Qed.

Lemma enter_inv s k id tok s' :
  acceptor_inv s -> IDAcceptor.active_connid s <= k -> IDAcceptor.enter k id tok s = (None, s') ->
  exists st, IDAcceptor.dstids s' !! k = Some st /\ ids_seq st = k /\ ids_id st = id /\ ids_token st = tok /\
    (s' = s \/ s' = IDAcceptor.set_dstids (<[k := st]> (IDAcceptor.dstids s)) s).
Proof.
  intros (_ & _ & H0 & _ & _ & Hm & _) Hk. unfold IDAcceptor.enter. destruct (IDAcceptor.dstids s !! k) as [st |] eqn:E.
  - pose proof (Hm _ _ E) as [Es _]. rewrite eqb_false by lia. cbn [negb].
    case_bool_decide as E1; [| done]. case_bool_decide as E2; [| done]. cbn [negb]. intros [= <-].
    exists st. by split_and!; [.. | left].
  - intros [= <-]. eexists. cbn. rewrite lookup_insert_eq. by split_and!; [.. | right].
Qed.

(** A number the acceptor takes, with nothing to retire. *)
Lemma acceptor_accept_spec (cparam : CommonParam W) k border id tok w s w' s' :
  acceptor_inv s -> border <= IDAcceptor.active_connid s -> IDAcceptor.accept cparam k border id tok w s = Some (None, w', s') ->
  w' = w /\ acceptor_inv s' /\ IDAcceptor.active_connid s' = IDAcceptor.active_connid s /\
  if decide (k < IDAcceptor.active_connid s) then s' = s
  else exists st, IDAcceptor.dstids s' !! k = Some st /\ ids_seq st = k /\ ids_id st = id /\ ids_token st = tok /\
    IDAcceptor.dstids s' = <[k := st]> (IDAcceptor.dstids s) /\ IDAcceptor.waitlist s' = IDAcceptor.waitlist s.
Proof.
  intros Hi Hb. pose proof Hi as (Hz & Hr & H0 & Hh & Ha & Hm & Hw & Hn). unfold IDAcceptor.accept. rewrite Hz.
  case_decide as Hk.
  { rewrite ltb_true by done. cbn [orb]. rewrite retire_none by (by apply below_active). cbn. by intros [= <- <-]. }
  rewrite !ltb_false by lia. cbn [orb]. destruct (_ && _); [done |].
  destruct (retire_under_low s border Hi Hb) as (h & -> & Hlt). rewrite ltb_false by lia.
  assert (Hi1 : acceptor_inv (IDAcceptor.set_highest_retired h s)) by done.
  destruct (IDAcceptor.enter _ _ _ _) as [[e |] s1] eqn:Ee; [done |].
  apply enter_inv in Ee; [| done | cbn; lia]. destruct Ee as (st & Hst & E1 & E2 & E3 & Hs1).
  rewrite (IssueFacts.choose_some _ _ _ Hst). cbn [cid_seq to_ConnID]. rewrite E1.
  assert (Hd : IDAcceptor.dstids s1 = <[k := st]> (IDAcceptor.dstids s) /\ s1 = IDAcceptor.set_dstids (IDAcceptor.dstids s1) (IDAcceptor.set_highest_retired h s)).
  { destruct Hs1 as [-> | ->]; [| done]. split; [| done]. symmetry. apply insert_id, Hst. }
  destruct Hd as [Hd ->]. rewrite Hd in *. clear Hs1.
  set (s2 := if _ <? k then _ else _).
  assert (Hs2 : s2 = IDAcceptor.set_highest_accepted (IDAcceptor.highest_accepted s `max` k) (IDAcceptor.set_dstids (<[k := st]> (IDAcceptor.dstids s)) (IDAcceptor.set_highest_retired h s))).
  { subst s2. cbn. destruct (Z.ltb_spec (IDAcceptor.highest_accepted s) k); [by rewrite Z.max_r by lia | rewrite Z.max_l by lia; by destruct s]. }
  rewrite Hs2. cbn. rewrite ltb_false by lia. intros [= <- <-]. split; [done |]. split; [| split; [done |]; exists st; by split_and!].
  unfold acceptor_inv; cbn. split_and!; try done.
  - destruct (decide (k = IDAcceptor.active_connid s)) as [-> |]; [by rewrite lookup_insert_eq | by rewrite lookup_insert_ne].
  - apply map_Forall_insert_2; [split; [done | lia] |]. intros j x Hj. apply Hm in Hj. split; [tauto | lia].
Qed.

Lemma accept_new (cparam : CommonParam W) k border id tok w s :
  acceptor_inv s -> border <= IDAcceptor.active_connid s <= k -> 1 <= size id <= 20 -> IDAcceptor.dstids s !! k = None ->
  exists s', IDAcceptor.accept cparam k border id tok w s = Some (None, w, s').
Proof.
  intros Hi Hb Hid Hk. pose proof Hi as (Hz & Hr & H0 & Hh & _). unfold IDAcceptor.accept. rewrite Hz.
  rewrite !ltb_false by lia. cbn [orb]. rewrite andb_false_r.
  destruct (retire_under_low s border Hi) as (h & -> & Hlt); [lia |].
  unfold IDAcceptor.enter. cbn [IDAcceptor.dstids IDAcceptor.set_highest_retired IDAcceptor.set_tables]. rewrite Hk.
  set (s1 := if IDAcceptor.highest_accepted _ <? _ then _ else _).
  assert (E : IDAcceptor.active_connid s1 = IDAcceptor.active_connid s) by (subst s1; by destruct (_ <? _)).
  clearbody s1. rewrite E, ltb_false by lia. eauto.
Qed.

(** ** Sending the retired numbers *)

Lemma do_send_seq it fw o : let '(ok, it', fw', o') := IDAcceptor.do_send it fw o in rw_seq it' = rw_seq it.
Proof.
  unfold IDAcceptor.do_send. destruct (_ <? _); [done |]. destruct (fw_write _ fw) as [ok fw1]. destruct (negb ok); [done |].
  by destruct (ACKHandler.wait o).
Qed.

Lemma send_loop_sublist l fw o :
  let '(b, l', fw', o') := IDAcceptor.send_loop l fw o in (rw_seq <$> l') `sublist_of` (rw_seq <$> l).
Proof.
  revert fw o. induction l as [| it l IH]; intros fw o; cbn [IDAcceptor.send_loop]; [done |].
  assert (Hskip : forall it' fw o, rw_seq it' = rw_seq it ->
    let '(b, l', fw', o') := (let '(b, l', fw, o) := IDAcceptor.send_loop l fw o in (b, it' :: l', fw, o)) in
    (rw_seq <$> l') `sublist_of` (rw_seq <$> it :: l)).
  { intros it' fw1 o1 E. specialize (IH fw1 o1). destruct (IDAcceptor.send_loop l fw1 o1) as [[[b l'] fw'] o'].
    rewrite !fmap_cons, E. by apply sublist_skip. }
  assert (Hdrop : let '(b, l', fw', o') := IDAcceptor.send_loop l fw o in (rw_seq <$> l') `sublist_of` (rw_seq <$> it :: l)).
  { specialize (IH fw o). destruct (IDAcceptor.send_loop l fw o) as [[[b l'] fw'] o']. rewrite fmap_cons. by apply sublist_cons. }
  pose proof (do_send_seq it fw o) as Hd. destruct (IDAcceptor.do_send it fw o) as [[[ok it'] fw1] o1].
  destruct (ACKHandler.not_confirmed (rw_wait it)), (ACKHandler.is_ack (rw_wait it) (snd o)),
    (ACKHandler.is_lost (rw_wait it) (snd o)), ok; cbn [negb];
    first [exact Hdrop | by apply Hskip | by rewrite !fmap_cons, Hd].
Qed.

Lemma astep_inv (cparam : CommonParam W) ws ws' :
  astep cparam ws ws' -> acceptor_inv (snd ws) -> acceptor_inv (snd ws') /\ IDAcceptor.active_connid (snd ws) <= IDAcceptor.active_connid (snd ws').
Proof.
  intros [f w s w' s' _ Hb E | dn n w s e w' s' E | id tok w s w' s' E | tok w s | w s | fw o b fw' o' w s s' E] Hi; cbn [snd] in *.
  - apply acceptor_accept_spec in E as (_ & H & -> & _); auto with lia.
  - pose proof Hi as (_ & _ & H0 & _). unfold IDAcceptor.maybe_update_id in E. destruct (negb dn); [injection E as _ _ <-; auto with lia |].
    destruct (_ || _); [| injection E as _ _ <-; auto with lia].
    destruct (Z.lt_ge_cases (IDAcceptor.id_count s) 2) as [Hc | Hc].
    + unfold IDAcceptor.update_active in E. rewrite ltb_true in E by done. unfold seq_valid in E. rewrite leb_true in E by lia.
      injection E as _ _ <-. auto with lia.
    + destruct (update_active_spec cparam w s Hi ltac:(lia)) as (j & w2 & s2 & E2 & H2 & <- & Hj & _). rewrite E2 in E.
      injection E as _ _ <-. auto with lia.
  - apply acceptor_accept_spec in E as (_ & H & -> & _); auto with lia. pose proof Hi as (_ & _ & H0 & _). lia.
  - unfold IDAcceptor.on_initial_stateless_reset_token_received. destruct (IDAcceptor.dstids s !! 0) as [st |] eqn:E; [| auto with lia].
    split; [| cbn; lia]. destruct Hi as (Hz & Hr & H0 & Hh & Ha & Hm & Hw & Hn). unfold acceptor_inv; cbn. split_and!; try done.
    + destruct (decide (0 = IDAcceptor.active_connid s)) as [<- |]; [by rewrite lookup_insert_eq | by rewrite lookup_insert_ne].
    + apply map_Forall_insert_2; [| done]. cbn. by apply Hm in E.
  - split; [done | cbn; lia].
  - unfold IDAcceptor.send in E. pose proof (send_loop_sublist (IDAcceptor.waitlist s) fw o) as Hs.
    destruct (IDAcceptor.send_loop _ _ _) as [[[b1 l] fw1] o1]. injection E as _ _ _ <-. split; [| cbn; lia].
    destruct Hi as (Hz & Hr & H0 & Hh & Ha & Hm & Hw & Hn). unfold acceptor_inv; cbn. split_and!; try done.
    + apply Forall_forall. intros r Hx. rewrite Forall_forall in Hw.
      assert (Hin : rw_seq r ∈ rw_seq <$> l) by (apply list_elem_of_fmap; eauto). apply (elem_of_sublist _ _ _ Hin) in Hs as Hin'.
      apply list_elem_of_fmap in Hin' as (r' & -> & Hr'). by apply Hw.
    + by eapply sublist_NoDup.
Qed.

Lemma areach_inv (cparam : CommonParam W) ws ws' : rtc (astep cparam) ws ws' -> acceptor_inv (snd ws) -> acceptor_inv (snd ws').
Proof. induction 1 as [| x y z Hs Hr IH]; [done |]. intros Hi. apply IH. by apply (astep_inv _ _ _ Hs). Qed.

(** ** Retire Prior To *)

Definition same_use s s' : Prop :=
  IDAcceptor.active_connid s' = IDAcceptor.active_connid s /\ IDAcceptor.highest_accepted s' = IDAcceptor.highest_accepted s /\
  IDAcceptor.use_zero_length s' = IDAcceptor.use_zero_length s.

Lemma retire_range_none_left n i s k :
  IDAcceptor.dstids s !! k = None -> IDAcceptor.dstids (IDAcceptor.retire_range n i s) !! k = None.
Proof.
  revert i s. induction n as [| n IH]; intros i s H; [done |]. cbn [IDAcceptor.retire_range]. apply IH.
  unfold IDAcceptor.retire. destruct (IDAcceptor.dstids s !! i); cbn; [| done]. apply lookup_delete_None. by right.
Qed.

Lemma retire_range_removes n i s k :
  i <= k < i + Z.of_nat n -> IDAcceptor.dstids (IDAcceptor.retire_range n i s) !! k = None.
Proof.
  revert i s. induction n as [| n IH]; intros i s Hk; [lia |]. cbn [IDAcceptor.retire_range].
  destruct (decide (i = k)) as [-> |]; [| apply IH; lia]. clear IH Hk.
  assert (H : IDAcceptor.dstids (snd (IDAcceptor.retire k s)) !! k = None).
  { unfold IDAcceptor.retire. destruct (IDAcceptor.dstids s !! k) eqn:E; cbn; [apply lookup_delete_eq | done]. }
  by apply retire_range_none_left.
Qed.

Lemma retire_range_use n i s : same_use s (IDAcceptor.retire_range n i s).
Proof.
  revert i s. induction n as [| n IH]; intros i s; [done |]. cbn [IDAcceptor.retire_range].
  destruct (IH (i + 1) (snd (IDAcceptor.retire i s))) as (H1 & H2 & H3). unfold same_use. rewrite H1, H2, H3.
  unfold IDAcceptor.retire. by destruct (IDAcceptor.dstids s !! i).
Qed.

Lemma update_active_gone (cparam : CommonParam W) w s :
  0 <= IDAcceptor.active_connid s -> IDAcceptor.dstids s !! IDAcceptor.active_connid s = None ->
  exists e, IDAcceptor.update_active cparam w s = Some (e, w, s) /\
    (e = None \/ e = Some (quic_error "failed to retire active connection id. unexpected error.")).
Proof.
  intros H0 E. unfold IDAcceptor.update_active. unfold seq_valid. rewrite leb_true by lia. rewrite retire_none by done.
  destruct (_ && _); cbn [negb]; eauto.
Qed.

(** ** The first id *)

Lemma retire_under_first s : IDAcceptor.highest_retired s = -1 -> IDAcceptor.retire_under 0 s = s.
Proof. intros E. unfold IDAcceptor.retire_under. rewrite E. cbn. destruct s; cbn in *. by subst. Qed.

Lemma accept_first (cparam : CommonParam W) id tok w s :
  IDAcceptor.use_zero_length s = false -> IDAcceptor.dstids s = ∅ -> IDAcceptor.highest_accepted s = -1 ->
  IDAcceptor.highest_retired s = -1 -> IDAcceptor.active_connid s = -1 -> 1 <= size id <= 20 ->
  let s1 := IDAcceptor.set_highest_accepted 0 (IDAcceptor.set_dstids (<[0 := mk_IDStorage 0 id tok]> ∅) s) in
  IDAcceptor.accept cparam 0 0 id tok w s =
    match IDAcceptor.select cparam 0 w s1 with Some (w', s2) => Some (None, w', s2) | None => None end.
Proof.
  intros Hz Hd Ha Hr Hc Hid s1. unfold IDAcceptor.accept. rewrite Hz, Hc, Hr. cbn [orb Z.ltb Z.compare].
  rewrite !ltb_false, andb_false_r by lia. rewrite retire_under_first by done.
  unfold IDAcceptor.enter. rewrite Hd, lookup_empty. cbn [IDAcceptor.dstids IDAcceptor.set_dstids IDAcceptor.set_tables IDAcceptor.highest_accepted IDAcceptor.active_connid].
  rewrite (IssueFacts.choose_some _ 0 (mk_IDStorage 0 id tok)) by apply lookup_insert_eq. cbn [cid_seq to_ConnID ids_seq]. rewrite Ha.
  change (-1 <? 0) with true. cbn iota. fold s1. change (IDAcceptor.active_connid s1) with (IDAcceptor.active_connid s).
  rewrite Hc. change (-1 <? 0) with true. cbn iota. unfold IDAcceptor.update_active.
  change (IDAcceptor.active_connid s1) with (IDAcceptor.active_connid s). rewrite Hc. rewrite andb_false_r.
  change (seq_valid (-1)) with false. cbn [negb]. change (IDAcceptor.active_connid s1) with (IDAcceptor.active_connid s). rewrite Hc.
  change (Z.to_nat (IDAcceptor.highest_accepted s1 - -1)) with 1%nat. cbn [IDAcceptor.find_next].
  change (IDAcceptor.dstids s1) with (<[0 := mk_IDStorage 0 id tok]> ∅ : gmap Z IDStorage). change (-1 + 1) with 0.
  by rewrite (IssueFacts.choose_some _ 0 (mk_IDStorage 0 id tok)) by apply lookup_insert_eq.
Qed.

(** ** The size of a NEW_CONNECTION_ID frame *)

Lemma frame_fits (f : NewConnectionIDFrame.t) : wf f -> size (NewConnectionIDFrame.connectionID f) <= 20 -> flen f false <= 54.
Proof.
  intros (H1 & H2 & _) H3. cbv [flen NewConnectionID_frame NewConnectionIDFrame.len].
  change (type_minlen FrameType.NEW_CONNECTION_ID) with 1.
  destruct (varint.writable_len _ H1) as [[-> | [-> | [-> | ->]]] _], (varint.writable_len _ H2) as [[-> | [-> | [-> | ->]]] _]; lia.
Qed.
End Facts.
End AcceptFacts.

(** * Properties *)

(** C18. From the first id on, the acceptor always has an id to send to: the
    first id of the peer is accepted, and after any sequence of
    NEW_CONNECTION_ID frames that do not retire the active id, changes of the
    active id, packets and transmissions, the active id is one the peer gave,
    it is what [pick_up_id] yields, and it is not among the ids this end
    announced as retired. *)
Theorem active_id_usable {W} (cparam : CommonParam W) per_id max_per_id mode s0 id w0 :
  1 <= size id <= 20 -> (mode = change_random -> max_per_id <> 0) ->
  exists w1 s1,
    IDAcceptor.accept cparam 0 0 id null_stateless_reset w0 (IDAcceptor.reset per_id max_per_id mode s0) = Some (None, w1, s1) /\
    IDAcceptor.pick_up_id None s1 = id /\
    forall w s, rtc (astep cparam) (w1, s1) (w, s) ->
      exists st, IDAcceptor.dstids s !! IDAcceptor.active_connid s = Some st /\ ids_seq st = IDAcceptor.active_connid s /\
        IDAcceptor.pick_up_id None s = ids_id st /\
        IDAcceptor.active_connid s ∉ (rw_seq <$> IDAcceptor.waitlist s).
Proof.
  intros Hid Hmax.
  assert (Ea : exists w1 s1, IDAcceptor.accept cparam 0 0 id null_stateless_reset w0 (IDAcceptor.reset per_id max_per_id mode s0) = Some (None, w1, s1) /\
    IDAcceptor.pick_up_id None s1 = id /\ acceptor_inv s1).
  { assert (Hm : IDAcceptor.change_mode (IDAcceptor.reset per_id max_per_id mode s0) = change_random ->
      IDAcceptor.max_packet_per_id (IDAcceptor.reset per_id max_per_id mode s0) <> 0).
    { cbn. intros ->. destruct (_ && _); [done | by apply Hmax]. }
    rewrite AcceptFacts.accept_first by done. set (s1 := IDAcceptor.set_highest_accepted _ _).
    destruct (AcceptFacts.select_some cparam 0 w0 s1 Hm) as (w1 & n & Es). rewrite Es.
    eexists _, _. split; [reflexivity |].
    split; [unfold IDAcceptor.pick_up_id; cbn; by rewrite (IssueFacts.choose_some _ 0 (mk_IDStorage 0 id null_stateless_reset)) by apply lookup_insert_eq |].
    split; [done |]. split; [exact Hm |]. split; [done |]. split; [done |]. split; [eexists; apply lookup_insert_eq |].
    split; [apply map_Forall_insert_2; [split; [done | cbn; lia] | apply map_Forall_empty] |]. split; constructor. }
  destruct Ea as (w1 & s1 & E & Hp & Hi). exists w1, s1. split_and!; [done | done |]. intros w s Hr.
  apply AcceptFacts.areach_inv in Hr; [| done]. cbn [snd] in Hr. destruct Hr as (Hz & _ & H0 & _ & [st Hst] & Hm & Hw & _).
  exists st. split_and!; [done | by apply Hm in Hst as [? _] | |].
  - unfold IDAcceptor.pick_up_id. rewrite Hz. unfold seq_valid. rewrite leb_true by lia. cbn. by rewrite (IssueFacts.choose_some _ _ _ Hst).
  - intros Hin. apply list_elem_of_fmap in Hin as (r & E' & Hx). rewrite Forall_forall in Hw. specialize (Hw _ Hx). lia.
Qed.

(** The first packet after the handshake, and later every
    [packet_per_id] packets when the ids are to change, moves to the next id:
    with two ids or more, when [maybe_update_id] changes the id, the new one
    is the next higher number that is held, the old one is dropped and its
    number is queued for a RETIRE_CONNECTION_ID frame, and nothing else is. *)
Theorem connection_id_changes {W} (cparam : CommonParam W) limit w s :
  acceptor_inv s -> 2 <= IDAcceptor.id_count s ->
  (IDAcceptor.active_connid s = 0 \/
   IDAcceptor.change_mode s <> change_none /\ limit <= u64 (2 * IDAcceptor.id_count s) /\
   IDAcceptor.packet_per_id s <= IDAcceptor.packet_count_since_id_changed s) ->
  exists w' s', IDAcceptor.maybe_update_id cparam true limit w s = Some (None, w', s') /\ acceptor_inv s' /\
    IDAcceptor.active_connid s < IDAcceptor.active_connid s' /\
    (forall k, IDAcceptor.active_connid s < k < IDAcceptor.active_connid s' -> IDAcceptor.dstids s !! k = None) /\
    IDAcceptor.dstids s' = delete (IDAcceptor.active_connid s) (IDAcceptor.dstids s) /\
    IDAcceptor.waitlist s' = IDAcceptor.waitlist s ++ [mk_RetireWait (IDAcceptor.active_connid s) ACKHandler.reset].
Proof.
  intros Hi Hc Hwhen. destruct (AcceptFacts.update_active_spec cparam w s Hi Hc) as (j & w' & s' & E & Hi' & <- & H1 & H2 & H3 & H4).
  exists w', s'. split; [| done]. unfold IDAcceptor.maybe_update_id. cbn [negb].
  assert (Hc2 : Z.shiftl (IDAcceptor.id_count s) 1 = 2 * IDAcceptor.id_count s) by (rewrite Z.shiftl_mul_pow2 by lia; lia).
  destruct Hwhen as [Ha | (Hm & Hl & Hp)].
  - rewrite Ha, (eqb_false (IDAcceptor.id_count s)) by lia. exact E.
  - rewrite Hc2, !leb_true, bool_decide_eq_false_2 by done. cbn [negb andb]. rewrite orb_true_r. exact E.
Qed.

(** A frame whose Retire Prior To reaches the active id leaves the
    acceptor without an id: the active id is dropped before the next one is
    chosen, so the change is either skipped, and packets are then sent with
    an empty id, or refused as an internal error; the number of the active
    id stays that of the dropped one in both cases. *)
Theorem retire_prior_to_breaks_active {W} (cparam : CommonParam W) k border id tok w s :
  acceptor_inv s -> IDAcceptor.active_connid s < border <= k -> 1 <= size id <= 20 ->
  IDAcceptor.dstids s !! k = None ->
  exists e s', IDAcceptor.accept cparam k border id tok w s = Some (e, w, s') /\
    IDAcceptor.active_connid s' = IDAcceptor.active_connid s /\
    IDAcceptor.dstids s' !! IDAcceptor.active_connid s' = None /\ IDAcceptor.pick_up_id None s' = [] /\
    (e = None \/ e = Some (quic_error "failed to retire active connection id. unexpected error.")).
Proof.
  intros Hi Hb Hid Hk. pose proof Hi as (Hz & _ & H0 & Hh & _ & _ & _ & _). unfold IDAcceptor.accept. rewrite Hz.
  rewrite !ltb_false by lia. cbn [orb]. rewrite andb_false_r.
  set (s1 := IDAcceptor.retire_under border s).
  assert (H1 : IDAcceptor.dstids s1 !! IDAcceptor.active_connid s = None /\ IDAcceptor.dstids s1 !! k = None /\ AcceptFacts.same_use s s1).
  { subst s1. unfold IDAcceptor.retire_under. rewrite leb_false by lia. cbn.
    split; [apply AcceptFacts.retire_range_removes; lia |]. split; [by apply AcceptFacts.retire_range_none_left |].
    apply (AcceptFacts.retire_range_use (Z.to_nat (border - (IDAcceptor.highest_retired s + 1))) (IDAcceptor.highest_retired s + 1) s). }
  destruct H1 as (H1 & H2 & U1 & U2 & U3). clearbody s1.
  unfold IDAcceptor.enter. rewrite H2. cbn [IDAcceptor.dstids IDAcceptor.set_dstids IDAcceptor.set_tables].
  unfold choose. rewrite lookup_insert_eq. cbn [cid_seq to_ConnID ids_seq]. set (s2 := if _ <? k then _ else _).
  assert (Hs2 : IDAcceptor.active_connid s2 = IDAcceptor.active_connid s /\ IDAcceptor.use_zero_length s2 = false /\
    IDAcceptor.dstids s2 !! IDAcceptor.active_connid s = None).
  { subst s2. destruct (_ <? k); cbn; rewrite U1, U3, lookup_insert_ne by lia; done. }
  destruct Hs2 as (A1 & A2 & A3). clearbody s2. rewrite ltb_true by lia.
  destruct (AcceptFacts.update_active_gone cparam w s2) as (e & E & He); [lia | by rewrite A1 |].
  exists e, s2. split_and!; [done | done | by rewrite A1 | | done].
  unfold IDAcceptor.pick_up_id. rewrite A2, A1. unfold seq_valid. rewrite leb_true by lia. cbn.
  by rewrite IssueFacts.choose_none.
Qed.

(** A first [reset] with a limit of zero packets and random changes
    leaves a division by zero behind: the guard looks at the mode from before
    the call, so the limit stays zero and the first id of the peer makes the
    acceptor divide by it. *)
Theorem zero_packet_limit_divides {W} (cparam : CommonParam W) per_id s0 id w :
  IDAcceptor.change_mode s0 <> change_random -> 1 <= size id <= 20 ->
  IDAcceptor.accept cparam 0 0 id null_stateless_reset w (IDAcceptor.reset per_id 0 change_random s0) = None.
Proof.
  intros Hm Hid. rewrite AcceptFacts.accept_first by done. unfold IDAcceptor.select.
  rewrite bool_decide_eq_true_2 by done. destruct (Random.gen_random _ _ _ _) as [[? ?] ?]. cbn.
  by rewrite bool_decide_eq_false_2 by done.
Qed.

(** An id reaches the other end: when an entry of the issuer's list is
    sent into a packet with room for it, the bytes written parse to a frame
    with which an acceptor that lacks the number, and is asked to retire
    nothing it uses, stores exactly the id and the token the issuer keeps
    under that number, changing neither the active id nor what it holds. *)
Theorem new_connection_id_transfer {W X} (s : IDIssuer.t W) it st fw o (cparam : CommonParam X) a w rest :
  issuer_inv s -> IDIssuer.srcids s !! iw_seq it = Some st -> iw_seq it < 2 ^ 62 -> 0 <= iw_retire_proior_to it < 2 ^ 62 ->
  1 <= IDIssuer.connID_len s <= 20 -> wr_ok (fw_w fw) -> 54 <= wr_room (fw_w fw) ->
  acceptor_inv a -> iw_retire_proior_to it <= IDAcceptor.active_connid a -> IDAcceptor.active_connid a <= iw_seq it ->
  IDAcceptor.dstids a !! iw_seq it = None ->
  exists bs f a', (let '(ok, it', fw', o') := IDIssuer.do_send it (choose (IDIssuer.srcids s) (iw_seq it)) fw o in
      ok = true /\ fw_w fw' = wr_put (fw_w fw) bs) /\
    reads_at NewConnectionIDFrame.parse f_default bs rest f /\
    IDAcceptor.recv cparam f w a = Some (None, w, a') /\
    IDAcceptor.dstids a' = <[iw_seq it := st]> (IDAcceptor.dstids a) /\
    IDAcceptor.active_connid a' = IDAcceptor.active_connid a.
Proof.
  intros Hi Hst Hseq Hr Hl Hw Hroom Ha Hb Hk Hnew. pose proof (proj2 (proj2 (proj1 Hi)) _ _ Hst) as (Es & Hrange & Hid & Htok).
  set (fr := NewConnectionIDFrame.mk FrameType.NEW_CONNECTION_ID (varint.of_uint (ids_seq st))
               (varint.of_uint (iw_retire_proior_to it)) 0 (ids_id st) (ids_token st)).
  assert (Hcopy : copy_bytes (replicate 16 0) (ids_token st) = ids_token st).
  { unfold copy_bytes. rewrite length_replicate, take_ge, drop_ge, app_nil_r by (rewrite ?length_replicate; lia). done. }
  assert (Hwf : wf fr).
  { split; [apply writable_uint; cbn; lia |]. split; [apply writable_uint; cbn; lia |]. split; [cbn; lia | exact Htok]. }
  destruct (AcceptFacts.accept_new cparam (iw_seq it) (iw_retire_proior_to it) (ids_id st) (ids_token st) w a Ha) as [a' Ea];
    [lia | lia | done |].
  destruct (AcceptFacts.acceptor_accept_spec _ _ _ _ _ _ _ _ _ Ha Hb Ea) as (_ & _ & Hact & Hd). rewrite decide_False in Hd by lia.
  destruct Hd as (st' & _ & E1 & E2 & E3 & Hd & _). assert (st' = st) as -> by (destruct st, st'; cbn in *; congruence).
  exists (wire fr), (canon fr), a'. split; [| split; [exact (parse_reads fr rest Hwf ltac:(done)) | split; [| done]]].
  - unfold IDIssuer.do_send. rewrite (IssueFacts.choose_some _ _ _ Hst). cbn [cid_seq cid_id cid_token to_ConnID]. rewrite Hcopy. fold fr.
    pose proof (wire_size fr Hwf) as Hsz. pose proof (AcceptFacts.frame_fits fr Hwf ltac:(cbn; lia)) as Hfit.
    unfold fw_remain. rewrite wr_remain_size by done. change (NewConnectionIDFrame.len fr false) with (flen fr false).
    rewrite ltb_false by lia. unfold fw_write. destruct (render_emits fr Hwf (fw_w fw) Hw) as [He _]. rewrite He by lia. cbn [negb].
    by destruct (ACKHandler.wait o).
  - unfold IDAcceptor.recv. change (varint.value (NewConnectionIDFrame.sequence_number (canon fr))) with (ids_seq st). rewrite Es. exact Ea.
Qed.

(** A server's acceptor with the ids 0 and 1. *)
Definition sample_acceptor : IDAcceptor.t :=
  match IDAcceptor.accept sample_cparam 0 0 [1; 2; 3; 4] null_stateless_reset 0 (IDAcceptor.reset 1000 10000 change_constant IDAcceptor.new) with
  | Some (_, w, s) => match IDAcceptor.accept sample_cparam 1 0 [5; 6; 7; 8] (replicate 16 7) w s with Some (_, _, s) => s | None => s end
  | None => IDAcceptor.new
  end.

Lemma sample_acceptor_inv : acceptor_inv sample_acceptor.
Proof.
  assert (E : exists s, s = sample_acceptor /\ IDAcceptor.use_zero_length s = false /\ IDAcceptor.change_mode s = change_constant /\
    IDAcceptor.active_connid s = 0 /\ IDAcceptor.highest_retired s = -1 /\ IDAcceptor.highest_accepted s = 1 /\
    IDAcceptor.dstids s = <[1 := mk_IDStorage 1 [5; 6; 7; 8] (replicate 16 7)]> (<[0 := mk_IDStorage 0 [1; 2; 3; 4] null_stateless_reset]> ∅) /\
    IDAcceptor.waitlist s = []).
  { eexists. split; [reflexivity |]. split_and!; vm_compute; reflexivity. }
  destruct E as (s & <- & E1 & E2 & E3 & E4 & E5 & E6 & E7). unfold acceptor_inv. rewrite E1, E2, E3, E4, E5, E6, E7.
  split; [done |]. split; [done |]. split; [done |]. split; [done |]. split; [by eexists |].
  split; [| split; constructor]. apply map_Forall_insert_2; [by cbn |]. apply map_Forall_insert_2; [by cbn | apply map_Forall_empty].
Qed.

Lemma active_id_usable_witness :
  exists w1 s1, IDAcceptor.accept sample_cparam 0 0 [1; 2; 3; 4] null_stateless_reset 0
      (IDAcceptor.reset 1000 10000 change_random IDAcceptor.new) = Some (None, w1, s1) /\
    IDAcceptor.pick_up_id None s1 = [1; 2; 3; 4].
Proof.
  destruct (active_id_usable sample_cparam 1000 10000 change_random IDAcceptor.new [1; 2; 3; 4] 0) as (w1 & s1 & H1 & H2 & _); [done | done |].
  by exists w1, s1.
Defined.

Lemma connection_id_changes_witness :
  exists w' s', IDAcceptor.maybe_update_id sample_cparam true 2 0 sample_acceptor = Some (None, w', s') /\ acceptor_inv s' /\
    0 < IDAcceptor.active_connid s'.
Proof.
  destruct (connection_id_changes sample_cparam 2 0 sample_acceptor sample_acceptor_inv) as (w' & s' & H1 & H2 & H3 & _);
    [by vm_compute | left; by vm_compute |].
  exists w', s'. split; [exact H1 |]. split; [exact H2 |]. exact H3.
Defined.

Lemma retire_prior_to_breaks_active_witness :
  exists e s', IDAcceptor.accept sample_cparam 2 1 [9; 9; 9; 9] (replicate 16 3) 0 sample_acceptor = Some (e, 0, s') /\
    IDAcceptor.pick_up_id None s' = [].
Proof.
  destruct (retire_prior_to_breaks_active sample_cparam 2 1 [9; 9; 9; 9] (replicate 16 3) 0 sample_acceptor sample_acceptor_inv)
    as (e & s' & H1 & _ & _ & H2 & _); [by vm_compute | done | by vm_compute |]. by exists e, s'.
Defined.

Lemma zero_packet_limit_divides_witness :
  IDAcceptor.accept sample_cparam 0 0 [1] null_stateless_reset 0 (IDAcceptor.reset 1000 0 change_random IDAcceptor.new) = None.
Proof. apply (zero_packet_limit_divides sample_cparam 1000 IDAcceptor.new [1] 0); done. Defined.

Lemma new_connection_id_transfer_witness :
  exists bs f a', (let '(ok, it', fw', o') := IDIssuer.do_send (mk_IDWait 3 0 ACKHandler.reset) (choose (IDIssuer.srcids sample_four) 3)
        (mk_fwriter (new_writer (replicate 60 0)) 0 0) (None, ∅) in
      ok = true /\ fw_w fw' = wr_put (new_writer (replicate 60 0)) bs) /\
    reads_at NewConnectionIDFrame.parse f_default bs [] f /\
    IDAcceptor.recv sample_cparam f 0 sample_acceptor = Some (None, 0, a') /\
    IDAcceptor.dstids a' = <[3 := mk_IDStorage 3 (replicate 4 6) (replicate 16 7)]> (IDAcceptor.dstids sample_acceptor) /\
    IDAcceptor.active_connid a' = IDAcceptor.active_connid sample_acceptor.
Proof.
  apply (new_connection_id_transfer sample_four (mk_IDWait 3 0 ACKHandler.reset) (mk_IDStorage 3 (replicate 4 6) (replicate 16 7))
    (mk_fwriter (new_writer (replicate 60 0)) 0 0) (None, ∅) sample_cparam sample_acceptor 0 [] sample_four_inv);
    try exact sample_acceptor_inv; try by vm_compute.
  split; [cbn; lia | by vm_compute].
Defined.
