(* ===== verification/Path.v ===== *)
(** * Path: paths, path validation and the search for the packet size

    Models [fnet/quic/path]: path.h, addrmanage.h, config.h, dlpmtud.h and
    verify.h. A network address is of the types null, IPv4 and IPv6 (of
    fnet/address.h only the members used here). Reading past the end of an
    array and dereferencing the end of a list give [None]. *)

From stdpp Require Import base list gmap strings.
From Stdlib Require Import ZArith Lia.
From S2P Require Import Prelude Bytes Varint Types FrameBase FrameStream FrameAck FrameParse QTime AckRecord ConnId.

#[local] Open Scope string_scope.
#[local] Open Scope Z_scope.
#[local] Open Scope list_scope.

(** ** [struct PathID] *)

Definition original_path : Z := 0.
Definition preferred_path : Z := 1.
Definition is_reserved_path (id : Z) : bool := (original_path =? id) || (preferred_path =? id).
Definition migrate_path_begin : Z := 2.
Definition unknown_path : Z := 0xffffffff.

(** ** Addresses *)

Inductive NetAddrType := addr_null | ipv4 | ipv6.
#[global] Instance NetAddrType_eq_dec : EqDecision NetAddrType.
Proof. solve_decision. Defined.

(** [na_bdata] are the sixteen bytes of the object, whatever the type. *)
Record NetAddrPort := mk_addr { na_type : NetAddrType; na_bdata : list Z; na_port : Z }.
Definition null_addr : NetAddrPort := mk_addr addr_null (replicate 16 0) 0.
Definition addr_size (a : NetAddrPort) : Z := match na_type a with addr_null => 0 | ipv4 => 4 | ipv6 => 16 end.
Definition addr_view (a : NetAddrPort) : list Z := take (Z.to_nat (addr_size a)) (na_bdata a).

Inductive MigrateMode := migrate_none | migrate_address | migrate_port.

(** The ports compared are both those of [a]. *)
Definition compare_address (a b : NetAddrPort) : MigrateMode :=
  if negb (bool_decide (na_type a = na_type b)) then migrate_address
  else if negb (bool_decide (addr_view a = addr_view b)) then migrate_address
  else if negb (na_port a =? na_port a) then migrate_port
  else migrate_none.

(** The loop [for (; i < size; i++) d[at + i] = src[from(i)]]. *)
Fixpoint copy_loop (n : nat) (i size_ at_ : Z) (src : list Z) (from : Z -> Z) (d : list Z) : option (Z * list Z) :=
  if size_ <=? i then Some (i, d)
  else
    match n with
    | O => None
    | S n =>
        match src !! Z.to_nat (from i) with
        | Some x => copy_loop n (i + 1) size_ at_ src from (<[Z.to_nat (at_ + i) := x]> d)
        | None => None
        end
    end.

(** [ip_key]: the second loop reads at the index where the first stopped. *)
Definition ip_key (local peer : NetAddrPort) : option (list Z) :=
  match copy_loop 16 (16 - addr_size local) (addr_size local) 0 (na_bdata local) (fun i => i) (replicate 36 0) with
  | None => None
  | Some (i, d) =>
      let d := take 16 d ++ write_be 2 (na_port local) ++ drop 18 d in
      match copy_loop 16 (16 - addr_size peer) (addr_size peer) 18 (na_bdata peer) (fun _ => i) d with
      | None => None
      | Some (_, d) => Some (take 34 d ++ write_be 2 (na_port peer))
      end
  end.

Record PathAddr := mk_path_addr { pa_id : Z; pa_local : NetAddrPort; pa_peer : NetAddrPort }.

Module PathMapper.
(** An entry of [egress] points to the one of [ingress]: the key of it. *)
Record t := mk { ingress : gmap (list Z) PathAddr; egress : gmap Z (list Z); active_local : NetAddrPort; id : Z }.
Definition new (local : NetAddrPort) : t := mk ∅ ∅ local original_path.

Definition get_path_id (peer : NetAddrPort) (m : t) : option (Z * t) :=
  match ip_key (active_local m) peer with
  | None => None
  | Some key =>
      match ingress m !! key with
      | Some p => Some (pa_id p, m)
      | None =>
          Some (id m, mk (<[key := mk_path_addr (id m) (active_local m) peer]> (ingress m))
                        (match egress m !! id m with Some _ => egress m | None => <[id m := key]> (egress m) end)
                        (active_local m) (u32 (id m + 1)))
      end
  end.

Definition get_peer_address (pid : Z) (m : t) : NetAddrPort :=
  match egress m !! pid ≫= fun key => ingress m !! key with Some p => pa_peer p | None => null_addr end.
End PathMapper.

(** ** [struct BinarySearcher] *)

Module BinarySearcher.
Record t := mk { high : Z; mid : Z; low : Z; accuracy : Z; high_updated : bool }.
Definition reset : t := mk 0 0 0 1 false.

Definition internal_complete (b : t) : bool := u64 (high b - low b) <=? accuracy b.

Definition update_next (b : t) : t :=
  if internal_complete b && negb (high_updated b) then
    if negb (mid b =? high b) then mk (high b) (high b) (low b) (accuracy b) (high_updated b)
    else mk (high b) (mid b) (low b) (accuracy b) true
  else mk (high b) (u64 (low b + Z.shiftr (u64 (high b - low b)) 1)) (low b) (accuracy b) (high_updated b).

Definition set (l h ac : Z) (b : t) : bool * t :=
  if h <? l then (false, b) else (true, update_next (mk h (mid b) l ac false)).
Definition complete (b : t) : bool := internal_complete b && high_updated b.
Definition get_next (b : t) : Z := mid b.
Definition on_ack (b : t) : t := update_next (mk (high b) (mid b) (mid b) (accuracy b) (high_updated b)).
Definition on_lost (b : t) : t := update_next (mk (mid b) (mid b) (low b) (accuracy b) true).
End BinarySearcher.

Definition initial_udp_datagram_size : Z := 1200.
Definition path_rejects_quic (datagram_limit : Z) : bool := datagram_limit <? initial_udp_datagram_size.

(** ** [struct MTU] *)

Record MTUConfig := mk_mtu_config { max_probes : Z; min_plpmtu : Z; max_plpmtu : Z; base_plpmtu : Z }.
Definition default_mtu_config : MTUConfig := mk_mtu_config 3 1200 0xffff 1200.

Inductive MTUState := mtu_disabled | mtu_base | mtu_searching | mtu_error | mtu_search_complete.
#[global] Instance MTUState_eq_dec : EqDecision MTUState.
Proof. solve_decision. Defined.

Module MTU.
Record t := mk {
  config : MTUConfig;
  current_payload_size : Z;
  probe_count : Z;
  bin_search : BinarySearcher.t;
  wait : ACKHandler.t;
  transport_param_value : Z;
  transport_parameter_set : bool;
  state : MTUState
}.

(** The size in use is the configured one, not the corrected one. *)
Definition reset (conf : MTUConfig) : t :=
  let fix_ n := if path_rejects_quic n then initial_udp_datagram_size else n in
  mk (mk_mtu_config (max_probes conf) (fix_ (min_plpmtu conf)) (fix_ (max_plpmtu conf)) (fix_ (base_plpmtu conf)))
     (base_plpmtu conf) 0 BinarySearcher.reset ACKHandler.reset 0 false mtu_disabled.

Definition on_transport_parameter_received (value : Z) (m : t) : bool * t :=
  if path_rejects_quic value then (false, m)
  else (true, mk (config m) (current_payload_size m) (probe_count m) (bin_search m) (wait m) value true (state m)).

Definition max_mtu (m : t) : Z :=
  if transport_param_value m <? max_plpmtu (config m) then transport_param_value m else max_plpmtu (config m).

(** The result of [set] is not looked at. *)
Definition on_searching (m : t) : t :=
  mk (config m) (current_payload_size m) (probe_count m)
     (snd (BinarySearcher.set (base_plpmtu (config m)) (max_mtu m) 1 (bin_search m)))
     (wait m) (transport_param_value m) (transport_parameter_set m) mtu_searching.
Definition on_handshake_confirmed (m : t) : t := on_searching m.
Definition on_path_migrated (m : t) : t := on_searching m.

Definition update (cur count : Z) (b : BinarySearcher.t) (w : ACKHandler.t) (st : MTUState) (m : t) : t :=
  mk (config m) cur count b w (transport_param_value m) (transport_parameter_set m) st.

(** The part of [probe_required] that follows up the last probe: [None] when
    there is nothing to do yet. *)
Definition follow_up (o : observer) (m : t) : option t :=
  if ACKHandler.not_confirmed (wait m) then
    if ACKHandler.is_lost (wait m) (snd o) then
      let count := u64 (probe_count m + 1) in
      if count =? max_probes (config m)
      then Some (update (current_payload_size m) 0 (BinarySearcher.on_lost (bin_search m)) (wait m) (state m) m)
      else Some (update (current_payload_size m) count (bin_search m) (wait m) (state m) m)
    else if ACKHandler.is_ack (wait m) (snd o) then
      Some (update (BinarySearcher.get_next (bin_search m)) (probe_count m) (BinarySearcher.on_ack (bin_search m))
              ACKHandler.confirm (state m) m)
    else None
  else Some m.

Definition probe_required (o : observer) (m : t) : (Z * bool) * observer * t :=
  if negb (bool_decide (state m = mtu_searching)) then ((0, false), o, m)
  else
    match follow_up o m with
    | None => ((0, false), o, m)
    | Some m =>
        if BinarySearcher.complete (bin_search m) then
          ((0, false), o, update (current_payload_size m) (probe_count m) (bin_search m) ACKHandler.confirm mtu_search_complete m)
        else
          let '(w, o) := ACKHandler.wait o in
          ((BinarySearcher.get_next (bin_search m), true), o,
           update (current_payload_size m) (probe_count m) (bin_search m) w (state m) m)
    end.

Definition current_datagram_size (m : t) : Z := current_payload_size m.
End MTU.

(** ** [struct PathVerifier] *)

Record PathProbeInfo := mk_probe { pp_id : Z; pp_timer : time.Timer; pp_data : Z; pp_wait : ACKHandler.t; pp_force : bool }.
Definition new_probe (id : Z) (timer : time.Timer) : PathProbeInfo := mk_probe id timer 0 ACKHandler.reset false.

Module PathVerifier.
Record t := mk {
  recv_data : list Z;
  max_path_challenge : Z;
  probes : list PathProbeInfo;
  num_probe_to_send : Z;
  valid_path : gset Z;
  active_path : Z;
  migrate_path : Z;
  writing_path : option Z        (* [None]: read through the end of the list *)
}.
Definition reset (hs_path max_challenge : Z) : t := mk [] max_challenge [] 0 ∅ hs_path hs_path (Some hs_path).

Definition set_recv (l : list Z) (v : t) : t :=
  mk l (max_path_challenge v) (probes v) (num_probe_to_send v) (valid_path v) (active_path v) (migrate_path v) (writing_path v).
Definition set_probes (l : list PathProbeInfo) (n : Z) (v : t) : t :=
  mk (recv_data v) (max_path_challenge v) l n (valid_path v) (active_path v) (migrate_path v) (writing_path v).
Definition set_paths (vp : gset Z) (a m : Z) (v : t) : t :=
  mk (recv_data v) (max_path_challenge v) (probes v) (num_probe_to_send v) vp a m (writing_path v).
Definition set_writing_path (id : option Z) (v : t) : t :=
  mk (recv_data v) (max_path_challenge v) (probes v) (num_probe_to_send v) (valid_path v) (active_path v) (migrate_path v) id.
Definition set_writing_path_to_active_path (v : t) : t := set_writing_path (Some (active_path v)) v.
Definition get_writing_path (v : t) : option Z := writing_path v.

Definition recv_path_challenge (f : PathBase.t FrameType.PATH_CHALLENGE) (v : t) : bool * t :=
  if max_path_challenge v <? size (recv_data v) then (false, v)
  else (true, set_recv (recv_data v ++ [PathBase.data f]) v).

Definition send_path_response (w : fwriter) (v : t) : IOResult * fwriter * t :=
  match recv_data v with
  | [] => (no_data, w, v)
  | d :: l =>
      if size (fw_remain w) <? 9 then (no_capacity, w, v)
      else
        let '(ok, w) := fw_write (PathBase.mk (ty := FrameType.PATH_RESPONSE) FrameType.PATH_RESPONSE d) w in
        (if ok then io_ok else io_fatal, w, set_recv l v)
  end.

(** [detect_dead_probe]: whether the probe is to be erased, and the probe it
    adds to the end of the list. *)
Definition detect_dead_probe (info : PathProbeInfo) (now : Z) (h : gmap positive ACKLostState) (vp : gset Z)
    : bool * option PathProbeInfo :=
  if time.timeout (pp_timer info) now then
    (negb (negb (ACKHandler.is_ack (pp_wait info) h) && negb (ACKHandler.is_lost (pp_wait info) h)), None)
  else if ACKHandler.is_lost (pp_wait info) h then
    if negb (bool_decide (pp_id info ∈ vp)) then
      if negb (pp_force info) && bool_decide (pp_id info ∈ vp) then (true, None)
      else (false, Some (new_probe (pp_id info) (pp_timer info)))
    else (false, None)
  else (false, None).

(** The loop of [detect_path_probe_timeout] at the position behind [pre]; it
    does not move on from a probe that was not sent. [None]: out of fuel. *)
Fixpoint timeout_loop (fuel : nat) (now : Z) (h : gmap positive ACKLostState) (vp : gset Z) (pre l : list PathProbeInfo) (n : Z)
    : option (list PathProbeInfo * Z) :=
  match l with
  | [] => Some (pre, n)
  | it :: l' =>
      match fuel with
      | O => None
      | S fuel =>
          if ACKHandler.not_confirmed (pp_wait it) then
            let '(dead, added) := detect_dead_probe it now h vp in
            let l' := match added with Some p => l' ++ [p] | None => l' end in
            let n := match added with Some _ => u64 (n + 1) | None => n end in
            if dead then timeout_loop fuel now h vp pre l' n else timeout_loop fuel now h vp (pre ++ [it]) l' n
          else timeout_loop fuel now h vp pre l n
      end
  end.
Definition detect_path_probe_timeout (fuel : nat) (now : Z) (h : gmap positive ACKLostState) (v : t) : option t :=
  match timeout_loop fuel now h (valid_path v) [] (probes v) (num_probe_to_send v) with
  | Some (l, n) => Some (set_probes l n v)
  | None => None
  end.

(** The part "detect tail" of [send_path_challenge]. *)
Fixpoint tail_loop (fuel : nat) (now : Z) (h : gmap positive ACKLostState) (vp : gset Z) (pre l : list PathProbeInfo) (n : Z)
    : option (list PathProbeInfo * Z) :=
  match l with
  | [] => Some (pre, n)
  | it :: l' =>
      match fuel with
      | O => None
      | S fuel =>
          if ACKHandler.not_confirmed (pp_wait it) then
            let '(dead, added) := detect_dead_probe it now h vp in
            let l' := match added with Some p => l' ++ [p] | None => l' end in
            let n := match added with Some _ => u64 (n + 1) | None => n end in
            if dead then tail_loop fuel now h vp pre l' n else tail_loop fuel now h vp (pre ++ [it]) l' n
          else tail_loop fuel now h vp (pre ++ [it]) l' n
      end
  end.

Section ops.
Context {W : Type}.

(** The loop of [send_path_challenge]: result and path, the writer, the
    observer, the state of the callback and the probes. After a challenge the
    path is read through an iterator at the end of the list: [None]. *)
Definition challenge_result : Type := (IOResult * option Z) * fwriter * observer * W * (list PathProbeInfo * Z).

Fixpoint challenge_loop (fuel : nat) (rand : Random.t W) (deadline now : Z) (vp : gset Z) (pre l : list PathProbeInfo) (n : Z)
    (w : fwriter) (o : observer) (x : W) : option challenge_result :=
  match l with
  | [] => Some ((no_data, Some unknown_path), w, o, x, (pre, n))
  | it :: l' =>
      match fuel with
      | O => None
      | S fuel =>
          if ACKHandler.not_confirmed (pp_wait it) then
            let '(dead, added) := detect_dead_probe it now (snd o) vp in
            let l' := match added with Some p => l' ++ [p] | None => l' end in
            let n := match added with Some _ => u64 (n + 1) | None => n end in
            if dead then challenge_loop fuel rand deadline now vp pre l' n w o x
            else challenge_loop fuel rand deadline now vp (pre ++ [it]) l' n w o x
          else if size (fw_remain w) <? 9 then Some ((no_capacity, Some unknown_path), w, o, x, (pre ++ l, n))
          else
            let '(ok, data, x) := Random.gen_random rand (replicate 8 0) path_challenge x in
            if negb ok then Some ((io_fatal, Some unknown_path), w, o, x, (pre ++ l, n))
            else
              let d := read_be (take 8 data) in
              let it1 := mk_probe (pp_id it) (pp_timer it) d (pp_wait it) (pp_force it) in
              let '(ok, w) := fw_write (PathBase.mk (ty := FrameType.PATH_CHALLENGE) FrameType.PATH_CHALLENGE d) w in
              if negb ok then Some ((io_fatal, Some unknown_path), w, o, x, (pre ++ it1 :: l', n))
              else
                let timer := if time.not_working (pp_timer it) then time.set_deadline deadline else pp_timer it in
                let '(wait, o) := ACKHandler.wait o in
                let it2 := mk_probe (pp_id it) timer d wait (pp_force it) in
                match tail_loop fuel now (snd o) vp (pre ++ [it2]) l' (u64 (n - 1)) with
                | Some (l, n) => Some ((io_ok, None), w, o, x, (l, n))
                | None => None
                end
      end
  end.
Definition send_path_challenge (w : fwriter) (o : observer) (rand : Random.t W) (probe_deadline now : Z) (x : W) (v : t)
    : option ((IOResult * option Z) * fwriter * observer * W * t) :=
  match challenge_loop (2 * length (probes v)) rand probe_deadline now (valid_path v) [] (probes v) (num_probe_to_send v) w o x with
  | Some (r, w, o, x, (l, n)) => Some (r, w, o, x, set_probes l n v)
  | None => None
  end.
End ops.
Arguments challenge_result : clear implicits.

Definition request_path_validation (id : Z) (v : t) : t :=
  set_probes (probes v ++ [new_probe id time.new_timer]) (u64 (num_probe_to_send v + 1)) v.

Definition maybe_peer_migrated_path (id : Z) (is_non_probe_packet : bool) (v : t) : t :=
  if negb (id =? active_path v) then
    let v := if is_non_probe_packet then set_paths (valid_path v) (active_path v) id v else v in
    if bool_decide (id ∈ valid_path v) then
      if is_non_probe_packet then set_paths (valid_path v) id (migrate_path v) v else v
    else request_path_validation id v
  else v.

Fixpoint take_probe (d : Z) (l : list PathProbeInfo) : option (PathProbeInfo * list PathProbeInfo) :=
  match l with
  | [] => None
  | it :: l' =>
      if pp_data it =? d then Some (it, l')
      else match take_probe d l' with Some (p, r) => Some (p, it :: r) | None => None end
  end.

Definition recv_path_response (f : PathBase.t FrameType.PATH_RESPONSE) (v : t) : option Error * t :=
  match take_probe (PathBase.data f) (probes v) with
  | Some (it, l) =>
      (None, set_probes l (num_probe_to_send v)
               (set_paths ({[pp_id it]} ∪ valid_path v) (if pp_id it =? migrate_path v then pp_id it else active_path v) (migrate_path v) v))
  | None => (Some (QUICError "PathResponse contains not issued data" PROTOCOL_VIOLATION FrameType.PATH_RESPONSE), v)
  end.

Definition recv (a : AnyFrame) (v : t) : option Error * t :=
  match a with
  | PathChallenge f =>
      let '(ok, v) := recv_path_challenge f v in
      (if ok then None else Some (QUICError "Too many PATH_CHALLENGE" PROTOCOL_VIOLATION FrameType.PATH_CHALLENGE), v)
  | PathResponse f => recv_path_response f v
  | _ => (None, v)
  end.

Definition has_probe_to_send (v : t) : bool := negb (num_probe_to_send v =? 0).
Definition non_probe_is_allowed (v : t) : bool := migrate_path v =? active_path v.
End PathVerifier.
