(* ===== verification/PathProps.v ===== *)
(** * PathProps: theorems on paths

    On [BinarySearcher] and [MTU] of dlpmtud.h: the search finds the size the
    path carries in logarithmically many probes, and the size in use stays
    within the limits. On [PathVerifier] of verify.h: which path is used,
    which loops end. On [PathMapper] of addrmanage.h: which peers it tells
    apart. *)

From stdpp Require Import base list gmap strings.
From Stdlib Require Import ZArith Lia.
From S2P Require Import Prelude Bytes Varint Types FrameBase FrameStream FrameAck FrameParse QTime AckRecord ConnId Path.

#[local] Open Scope Z_scope.
#[local] Open Scope list_scope.

(** ** Specification *)

(** A probe on a path that carries datagrams of up to [m] bytes. *)
Definition probe_path (m : Z) (b : BinarySearcher.t) : BinarySearcher.t :=
  if BinarySearcher.get_next b <=? m then BinarySearcher.on_ack b else BinarySearcher.on_lost b.

(** Probing until the search is complete: the largest size confirmed, or
    [None] when [n] probes are not enough. *)
Fixpoint search (n : nat) (m : Z) (b : BinarySearcher.t) : option Z :=
  if BinarySearcher.complete b then Some (BinarySearcher.low b)
  else match n with O => None | S n => search n m (probe_path m b) end.

(** What holds of a search between [l] and [h]. *)
Definition search_inv (l h : Z) (b : BinarySearcher.t) : Prop :=
  BinarySearcher.accuracy b = 1 /\ l <= BinarySearcher.low b <= BinarySearcher.mid b /\
  BinarySearcher.mid b <= BinarySearcher.high b <= h.

(** * Lemmas *)

Module SearchFacts.

Lemma diff_small b l h : 0 <= l -> h < 2 ^ 63 -> l <= BinarySearcher.low b <= BinarySearcher.high b -> BinarySearcher.high b <= h ->
  u64 (BinarySearcher.high b - BinarySearcher.low b) = BinarySearcher.high b - BinarySearcher.low b.
Proof. intros. apply u64_small. unfold is_u64. lia. Qed.

Lemma shiftr_half x : 0 <= x -> Z.shiftr x 1 = x / 2.
Proof. intros. by rewrite Z.shiftr_div_pow2 by lia. Qed.

(** The three results of [update_next]. *)
Lemma update_next_cases hi mi lo hu l h :
  0 <= l -> h < 2 ^ 63 -> l <= lo <= hi -> hi <= h ->
  BinarySearcher.update_next (BinarySearcher.mk hi mi lo 1 hu) =
    if decide (hi - lo <= 1 /\ hu = false) then
      if decide (mi = hi) then BinarySearcher.mk hi mi lo 1 true else BinarySearcher.mk hi hi lo 1 false
    else BinarySearcher.mk hi (lo + (hi - lo) / 2) lo 1 hu.
Proof.
  intros H0 Hh Hl Hhi. unfold BinarySearcher.update_next, BinarySearcher.internal_complete. cbn.
  rewrite (u64_small (hi - lo)) by (unfold is_u64; lia). rewrite shiftr_half by lia.
  assert (0 <= (hi - lo) / 2 <= hi - lo) by (split; [apply Z.div_pos; lia | apply Z.div_le_upper_bound; lia]).
  rewrite u64_small by (unfold is_u64; lia).
  destruct (Z.leb_spec (hi - lo) 1), hu; cbn; case_decide as E; try (exfalso; destruct E; (done || lia));
    try (exfalso; apply E; done); try done.
  destruct (Z.eqb_spec mi hi); case_decide; done.
Qed.

(** A step keeps the bounds. *)
Lemma probe_inv l h m b :
  0 <= l -> h < 2 ^ 63 -> search_inv l h b -> search_inv l h (probe_path m b).
Proof.
  intros H0 Hh (Ha & Hl & Hm). destruct b as [hi mi lo ac hu]; cbn in *. subst ac.
  unfold probe_path, BinarySearcher.get_next, BinarySearcher.on_ack, BinarySearcher.on_lost; cbn.
  destruct (mi <=? m).
  - rewrite (update_next_cases hi mi mi hu l h) by lia.
    pose proof (Z.div_le_upper_bound (hi - mi) 2 (hi - mi) ltac:(lia) ltac:(lia)). pose proof (Z.div_pos (hi - mi) 2 ltac:(lia) ltac:(lia)).
    repeat case_decide; unfold search_inv; cbn; lia.
  - rewrite (update_next_cases mi mi lo true l h) by lia.
    pose proof (Z.div_le_upper_bound (mi - lo) 2 (mi - lo) ltac:(lia) ltac:(lia)). pose proof (Z.div_pos (mi - lo) 2 ltac:(lia) ltac:(lia)).
    repeat case_decide; unfold search_inv; cbn; lia.
Qed.

(** Where a search on a path of size [m] stands: a bound that is not lost
    yet, a bound that is, or the end. *)
Definition open_high (h m : Z) (b : BinarySearcher.t) : Prop :=
  BinarySearcher.high_updated b = false /\ BinarySearcher.high b = h /\
  BinarySearcher.mid b = (if decide (h - BinarySearcher.low b <= 1) then h else BinarySearcher.low b + (h - BinarySearcher.low b) / 2).
Definition lost_high (h m : Z) (b : BinarySearcher.t) : Prop :=
  BinarySearcher.high_updated b = true /\ m < BinarySearcher.high b /\
  BinarySearcher.mid b = BinarySearcher.low b + (BinarySearcher.high b - BinarySearcher.low b) / 2.
Definition all_confirmed (h m : Z) (b : BinarySearcher.t) : Prop :=
  BinarySearcher.high_updated b = true /\ BinarySearcher.low b = h /\ BinarySearcher.high b = h.

Definition stands (l h m : Z) (b : BinarySearcher.t) : Prop :=
  BinarySearcher.accuracy b = 1 /\ l <= BinarySearcher.low b <= BinarySearcher.high b /\ BinarySearcher.high b <= h /\
  BinarySearcher.low b <= m /\ (open_high h m b \/ lost_high h m b \/ all_confirmed h m b).

(** The width left, in powers of two. *)
Definition width (b : BinarySearcher.t) (n : nat) : Prop := BinarySearcher.high b - BinarySearcher.low b <= 2 ^ Z.of_nat n.

Lemma half_width d n : 0 <= d <= 2 ^ Z.of_nat (S n) -> d / 2 <= 2 ^ Z.of_nat n /\ d - d / 2 <= 2 ^ Z.of_nat n /\ 0 <= d / 2.
Proof.
  intros Hd. rewrite Nat2Z.inj_succ, Z.pow_succ_r in Hd by lia. pose proof (Z.div_mod d 2 ltac:(lia)). pose proof (Z.mod_pos_bound d 2 ltac:(lia)). lia.
Qed.

(** The last probe: one size is left and it was not lost yet. *)
Lemma probe_last l h m lo :
  0 <= l -> h < 2 ^ 63 -> l <= lo <= h -> lo <= m -> h - lo <= 1 ->
  let b' := probe_path m (BinarySearcher.mk h h lo 1 false) in
  stands l h m b' /\ BinarySearcher.complete b' = true /\ BinarySearcher.high b' - BinarySearcher.low b' <= 1.
Proof.
  intros H0 Hh Hl Hm Hd. unfold probe_path, BinarySearcher.get_next, BinarySearcher.on_ack, BinarySearcher.on_lost; cbn.
  destruct (Z.leb_spec h m).
  - rewrite (update_next_cases h h h false l h) by lia. rewrite decide_True by (split; [lia | done]). rewrite decide_True by done.
    unfold stands, all_confirmed, BinarySearcher.complete, BinarySearcher.internal_complete; cbn. rewrite Z.sub_diag. cbn.
    split; [| split; [done | lia]]. split_and!; try lia; by right; right.
  - rewrite (update_next_cases h h lo true l h) by lia. rewrite decide_False by (intros []; done).
    unfold stands, lost_high, BinarySearcher.complete, BinarySearcher.internal_complete; cbn. rewrite u64_small by (unfold is_u64; lia).
    rewrite leb_true by lia. split; [| split; [done | lia]]. split_and!; try lia; right; left; split_and!; done || lia.
Qed.

(** A probe in the middle. *)
Lemma probe_middle l h m hi lo hu n :
  0 <= l -> h < 2 ^ 63 -> l <= lo <= hi -> hi <= h -> lo <= m -> 1 < hi - lo <= 2 ^ Z.of_nat (S n) ->
  (hu = false /\ hi = h) \/ (hu = true /\ m < hi) ->
  let b' := probe_path m (BinarySearcher.mk hi (lo + (hi - lo) / 2) lo 1 hu) in
  stands l h m b' /\ BinarySearcher.high b' - BinarySearcher.low b' <= 2 ^ Z.of_nat n.
Proof.
  intros H0 Hh Hl Hhi Hm Hd Hc. destruct (half_width (hi - lo) n ltac:(lia)) as (D1 & D2 & D3).
  assert (D4 : 0 < (hi - lo) / 2 < hi - lo) by (split; [apply Z.div_str_pos; lia | apply Z.div_lt; lia]).
  set (d := (hi - lo) / 2) in *. clearbody d.
  unfold probe_path, BinarySearcher.get_next, BinarySearcher.on_ack, BinarySearcher.on_lost; cbn.
  destruct (Z.leb_spec (lo + d) m).
  - rewrite (update_next_cases hi (lo + d) (lo + d) hu l h) by lia. case_decide as E.
    + destruct E as [E ->]. rewrite decide_False by lia. unfold stands, open_high; cbn. split; [| lia].
      split_and!; try lia; left; split_and!; [done | lia |]; rewrite decide_True by lia; lia.
    + unfold stands; cbn. split; [| lia]. split_and!; try lia. destruct Hc as [[-> ->] | [-> Hc]].
      * left. split_and!; [done | done |]. cbn. rewrite decide_False; [done |]. intros ?. by apply E.
      * right. left. by split_and!.
  - rewrite (update_next_cases (lo + d) (lo + d) lo true l h) by lia. rewrite decide_False by (intros []; done).
    unfold stands; cbn. split; [| lia]. split_and!; try lia. right. left. split_and!; [done | cbn; lia | done].
Qed.

(** A probe of an incomplete search halves what is left, or ends the search
    when one size is left. *)
Lemma probe_step l h m b n :
  0 <= l -> h < 2 ^ 63 -> stands l h m b -> BinarySearcher.complete b = false -> width b n ->
  let b' := probe_path m b in
  stands l h m b' /\ match n with O => BinarySearcher.complete b' = true | S n' => width b' n' end.
Proof.
  intros H0 Hh (Ha & Hl & Hhi & Hm & Hc) Hinc Hw. destruct b as [hi mi lo ac hu]. unfold width in *.
  unfold BinarySearcher.complete, BinarySearcher.internal_complete in Hinc. cbn in *. subst ac. rewrite u64_small in Hinc by (unfold is_u64; lia).
  destruct (Z.le_gt_cases (hi - lo) 1) as [Hd | Hd].
  - rewrite leb_true in Hinc by lia. destruct hu; [done |]. destruct Hc as [(_ & E1 & E2) | [(? & _) | (? & _)]]; cbn in *; [| done | done].
    subst hi. rewrite decide_True in E2 by lia. subst mi. destruct (probe_last l h m lo) as (S1 & S2 & S3); try lia.
    split; [done |]. destruct n; [done |]. pose proof (Z.pow_pos_nonneg 2 (Z.of_nat n) ltac:(lia) ltac:(lia)). lia.
  - destruct n as [| n]; [cbn in Hw; lia |].
    assert (Hcase : mi = lo + (hi - lo) / 2 /\ ((hu = false /\ hi = h) \/ (hu = true /\ m < hi))).
    { destruct Hc as [(E0 & E1 & E2) | [(E0 & E1 & E2) | (E0 & E1 & E2)]]; cbn in *; [| auto | lia].
      subst hi. rewrite decide_False in E2 by lia. auto. }
    destruct Hcase as [-> Hcase]. apply (probe_middle l h m hi lo hu n); try lia. done.
Qed.

Lemma complete_low l h m b : 0 <= l -> h < 2 ^ 63 -> stands l h m b -> BinarySearcher.complete b = true -> BinarySearcher.low b = m `min` h.
Proof.
  intros H0 Hh (Ha & Hl & Hhi & Hm & Hc) E. unfold BinarySearcher.complete, BinarySearcher.internal_complete in E.
  apply andb_prop in E as [E Eu]. rewrite Ha, u64_small in E by (unfold is_u64; lia). apply Z.leb_le in E.
  destruct Hc as [(? & _) | [(_ & H & _) | (_ & H & _)]]; [congruence | lia | lia].
Qed.

Lemma search_spec l h m n b :
  0 <= l -> h < 2 ^ 63 -> stands l h m b -> width b n -> search (S n) m b = Some (m `min` h).
Proof.
  intros H0 Hh. revert b. induction n as [| n IH]; intros b Hs Hw.
  - cbn [search]. destruct (BinarySearcher.complete b) eqn:E; [f_equal; by eapply complete_low |].
    destruct (probe_step l h m b 0 H0 Hh Hs E Hw) as [Hs' E']. cbn. rewrite E'. f_equal. by eapply complete_low.
  - remember (S n) as k. cbn [search]. destruct (BinarySearcher.complete b) eqn:E; [f_equal; by eapply complete_low |]. subst k.
    destruct (probe_step l h m b (S n) H0 Hh Hs E Hw) as [Hs' Hw']. by apply IH.
Qed.

Lemma set_stands l h m b :
  0 <= l <= h -> h < 2 ^ 63 -> l <= m -> BinarySearcher.mid b <> h \/ 2 <= h - l ->
  exists b', BinarySearcher.set l h 1 b = (true, b') /\ stands l h m b' /\ BinarySearcher.high b' = h /\ BinarySearcher.low b' = l /\
    search_inv l h b'.
Proof.
  intros H0 Hh Hm Hmid. unfold BinarySearcher.set. rewrite ltb_false by lia. eexists. split; [done |].
  rewrite (update_next_cases h (BinarySearcher.mid b) l false l h) by lia.
  pose proof (Z.div_le_upper_bound (h - l) 2 (h - l) ltac:(lia) ltac:(lia)). pose proof (Z.div_pos (h - l) 2 ltac:(lia) ltac:(lia)).
  destruct (decide (h - l <= 1)).
  - rewrite decide_True by done. rewrite decide_False by lia. unfold stands, open_high, search_inv; cbn.
    rewrite decide_True by lia. split; [| split; [done | split; [done | lia]]]. split_and!; try lia; by left.
  - rewrite decide_False by (intros []; lia). unfold stands, open_high, search_inv; cbn. rewrite decide_False by lia.
    split; [| split; [done | split; [done | lia]]]. split_and!; try lia; by left.
Qed.
End SearchFacts.

(** ** [MTU] *)

Module MTUFacts.

(** The size in use is the lower bound of the search. *)
Definition mtu_inv (lo hi : Z) (m : MTU.t) : Prop :=
  search_inv lo hi (MTU.bin_search m) /\ MTU.current_payload_size m = BinarySearcher.low (MTU.bin_search m).

Lemma ack_inv l h b : 0 <= l -> h < 2 ^ 63 -> search_inv l h b ->
  search_inv l h (BinarySearcher.on_ack b) /\ BinarySearcher.low (BinarySearcher.on_ack b) = BinarySearcher.mid b.
Proof.
  intros H0 Hh Hs. split.
  - pose proof (SearchFacts.probe_inv l h (BinarySearcher.get_next b) b H0 Hh Hs) as H. unfold probe_path in H. by rewrite Z.leb_refl in H.
  - unfold BinarySearcher.on_ack, BinarySearcher.update_next. by repeat case_match.
Qed.

Lemma lost_inv l h b : 0 <= l -> h < 2 ^ 63 -> search_inv l h b ->
  search_inv l h (BinarySearcher.on_lost b) /\ BinarySearcher.low (BinarySearcher.on_lost b) = BinarySearcher.low b.
Proof.
  intros H0 Hh Hs. split.
  - pose proof (SearchFacts.probe_inv l h (BinarySearcher.get_next b - 1) b H0 Hh Hs) as H. unfold probe_path in H. by rewrite leb_false in H by lia.
  - unfold BinarySearcher.on_lost, BinarySearcher.update_next. by repeat case_match.
Qed.

Lemma follow_up_inv lo hi o m m' : 0 <= lo -> hi < 2 ^ 63 -> mtu_inv lo hi m -> MTU.follow_up o m = Some m' -> mtu_inv lo hi m'.
Proof.
  intros H0 Hh [Hs Hc]. unfold MTU.follow_up. destruct (ACKHandler.not_confirmed _); [| by intros [= <-]].
  destruct (ACKHandler.is_lost _ _).
  - destruct (_ =? _); intros [= <-]; [| done]. destruct (lost_inv lo hi _ H0 Hh Hs) as [H1 H2]. split; cbn; [done | by rewrite H2].
  - destruct (ACKHandler.is_ack _ _); [| done]. intros [= <-]. destruct (ack_inv lo hi _ H0 Hh Hs) as [H1 H2]. split; cbn; [done |].
    by rewrite H2.
Qed.

Lemma probe_required_inv lo hi o m : 0 <= lo -> hi < 2 ^ 63 -> mtu_inv lo hi m ->
  let '((p, ask), o', m') := MTU.probe_required o m in
  mtu_inv lo hi m' /\ (ask = true -> MTU.current_payload_size m' <= p <= hi).
Proof.
  intros H0 Hh Hi. unfold MTU.probe_required. destruct (negb _); [done |].
  destruct (MTU.follow_up o m) as [m1 |] eqn:E; [| done]. apply (follow_up_inv lo hi) in E as [Hs Hc]; [| done..].
  destruct (BinarySearcher.complete _); [done |]. destruct (ACKHandler.wait o) as [w o']. split; [done |]. intros _. cbn.
  destruct Hs as (_ & H1 & H2). unfold BinarySearcher.get_next. lia.
Qed.
End MTUFacts.

(** ** [PathVerifier] *)

Module VerifierFacts.
Import PathVerifier.

(** Turns a probe takes in a loop: a probe that is waiting may add one. *)
Definition turns (l : list PathProbeInfo) : nat :=
  sum_list_with (fun it => if ACKHandler.not_confirmed (pp_wait it) then 2%nat else 1%nat) l.

Lemma turns_bound l : (turns l <= 2 * length l)%nat.
Proof. unfold turns. induction l as [| it l IH]; [done |]. cbn. destruct (ACKHandler.not_confirmed _); lia. Qed.

Lemma turns_added it now h vp l dead added :
  detect_dead_probe it now h vp = (dead, added) ->
  (turns (match added with Some p => l ++ [p] | None => l end) <= turns l + 1)%nat.
Proof.
  intros E. destruct added as [p |]; [| lia]. unfold turns. rewrite sum_list_with_app. cbn.
  assert (ACKHandler.not_confirmed (pp_wait p) = false) as ->; [| lia].
  unfold detect_dead_probe in E. by repeat case_match; simplify_eq.
Qed.

Lemma tail_loop_returns fuel now h vp pre l n :
  (turns l <= fuel)%nat -> exists r, tail_loop fuel now h vp pre l n = Some r.
Proof.
  revert pre l n. induction fuel as [| fuel IH]; intros pre l n Hf; destruct l as [| it l]; cbn [tail_loop]; try (by eexists).
  { unfold turns in Hf. cbn in Hf. destruct (ACKHandler.not_confirmed _); lia. }
  unfold turns in Hf. cbn in Hf. fold (turns l) in Hf. destruct (ACKHandler.not_confirmed _); [| apply IH; lia].
  destruct (detect_dead_probe it now h vp) as [dead added] eqn:E. pose proof (turns_added _ _ _ _ l _ _ E).
  destruct dead; apply IH; lia.
Qed.

(** What every return of the loop satisfies. *)
Definition challenge_ok {W} (r : challenge_result W) : Prop :=
  let '((res, pid), w, o, x, (l, n)) := r in res = io_ok -> pid = None.

Lemma challenge_loop_returns {W} fuel (rand : Random.t W) deadline now vp pre l n w o x :
  (turns l <= fuel)%nat -> exists r, challenge_loop fuel rand deadline now vp pre l n w o x = Some r /\ challenge_ok r.
Proof.
  revert pre l n. induction fuel as [| fuel IH]; intros pre l n Hf; destruct l as [| it l]; cbn [challenge_loop]; try (by eexists).
  { unfold turns in Hf. cbn in Hf. destruct (ACKHandler.not_confirmed _); lia. }
  unfold turns in Hf. cbn in Hf. fold (turns l) in Hf. destruct (ACKHandler.not_confirmed _).
  { destruct (detect_dead_probe it now (snd o) vp) as [dead added] eqn:E. pose proof (turns_added _ _ _ _ l _ _ E).
    destruct dead; apply IH; lia. }
  destruct (_ <? 9); [by eexists |]. destruct (Random.gen_random _ _ _ _) as [[ok data] x1]. destruct ok; cbn [negb]; [| by eexists].
  destruct (fw_write _ w) as [ok w1]. destruct ok; cbn [negb]; [| by eexists]. destruct (ACKHandler.wait o) as [wt o1].
  set (timer := if time.not_working _ then _ else _).
  destruct (tail_loop_returns fuel now (snd o1) vp (pre ++ [mk_probe (pp_id it) timer (read_be (take 8 data)) wt (pp_force it)]) l (u64 (n - 1)) ltac:(lia))
    as [[l2 n2] ->]. by eexists.
Qed.

(** A probe at which [detect_path_probe_timeout] stops moving: one that was
    not sent, or one that was lost and gets a successor. *)
Definition stuck (now : Z) (h : gmap positive ACKLostState) (vp : gset Z) (it : PathProbeInfo) : Prop :=
  ACKHandler.not_confirmed (pp_wait it) = false \/
  (ACKHandler.is_lost (pp_wait it) h = true /\ time.timeout (pp_timer it) now = false /\ pp_id it ∉ vp).

Lemma stuck_adds now h vp it :
  stuck now h vp it -> ACKHandler.not_confirmed (pp_wait it) = true ->
  detect_dead_probe it now h vp = (false, Some (new_probe (pp_id it) (pp_timer it))).
Proof.
  intros [? | (Hl & Ht & Hv)] Hn; [congruence |]. unfold detect_dead_probe. rewrite Ht, Hl, bool_decide_eq_false_2 by done.
  cbn. by rewrite andb_false_r.
Qed.

Lemma timeout_loop_hangs fuel now h vp pre l n :
  Exists (stuck now h vp) l -> timeout_loop fuel now h vp pre l n = None.
Proof.
  revert pre l n. induction fuel as [| fuel IH]; intros pre l n Hs; destruct l as [| it l]; cbn [timeout_loop];
    try (by apply Exists_nil in Hs); [done |].
  destruct (ACKHandler.not_confirmed (pp_wait it)) eqn:En; [| by apply IH].
  destruct (detect_dead_probe it now h vp) as [dead added] eqn:E. set (l' := match added with Some p => _ | None => _ end).
  assert (Hs' : Exists (stuck now h vp) l'); [| by destruct dead; apply IH].
  apply Exists_cons in Hs as [Hs | Hs].
  - rewrite (stuck_adds _ _ _ _ Hs En) in E. injection E as <- <-. subst l'. apply Exists_app. right. by constructor; left.
  - subst l'. destruct added; [| done]. apply Exists_app. by left.
Qed.

(** The operations of the verifier. *)
Inductive vstep {W} : t -> t -> Prop :=
  | v_recv a v e v' : PathVerifier.recv a v = (e, v') -> vstep v v'
  | v_migrated id b v : vstep v (maybe_peer_migrated_path id b v)
  | v_request id v : vstep v (request_path_validation id v)
  | v_response w v res w' v' : send_path_response w v = (res, w', v') -> vstep v v'
  | v_challenge w o (rand : Random.t W) d now x v r w' o' x' v' :
      send_path_challenge w o rand d now x v = Some (r, w', o', x', v') -> vstep v v'
  | v_timeout fuel now h v v' : detect_path_probe_timeout fuel now h v = Some v' -> vstep v v'
  | v_writing id v : vstep v (set_writing_path id v).

Definition verifier_inv (hs : Z) (v : t) : Prop :=
  (active_path v = hs \/ active_path v ∈ valid_path v) /\ size (recv_data v) <= max_path_challenge v + 1.

Lemma vstep_inv {W} hs v v' : 0 <= max_path_challenge v -> vstep (W := W) v v' -> verifier_inv hs v ->
  verifier_inv hs v' /\ max_path_challenge v' = max_path_challenge v.
Proof.
  intros Hmax [a v0 e v1 E | id b v0 | id v0 | w v0 res w' v1 E | w o rand d now x v0 r w' o' x' v1 E | fuel now h v0 v1 E | id v0] Hi.
  - destruct a; cbn in E; try (injection E as _ <-; done).
    + unfold recv_path_challenge in E. destruct (Z.ltb_spec (max_path_challenge v0) (size (recv_data v0))); injection E as _ <-; [done |].
      split; [| done]. destruct Hi as [Ha Hr]. split; [done |]. cbn. rewrite size_app, size_cons, size_nil. lia.
    + unfold recv_path_response in E. destruct (take_probe _ _) as [[it l] |]; injection E as _ <-; [| done]. split; [| done].
      destruct Hi as [Ha Hr]. split; [| done]. cbn. destruct (Z.eqb_spec (pp_id it) (migrate_path v0)) as [-> |]; set_solver.
  - unfold maybe_peer_migrated_path. destruct (_ =? _); [done |]. cbn [negb].
    destruct b; cbn; case_bool_decide; [| done | done | done]. split; [| done]. destruct Hi as [_ Hr]. split; [by right | done].
  - done.
  - unfold send_path_response in E. destruct (recv_data v0) as [| d l] eqn:Er; [by injection E as _ _ <- |].
    destruct (_ <? 9); [by injection E as _ _ <- |]. destruct (fw_write _ _) as [ok w1]. injection E as _ _ <-. split; [| done].
    destruct Hi as [Ha Hr]. rewrite Er, size_cons in Hr. split; [done |]. cbn. lia.
  - unfold send_path_challenge in E. destruct (challenge_loop _ _ _ _ _ _ _ _ _ _ _) as [[[[[? ?] ?] ?] [? ?]] |]; [| done]. by injection E as _ _ _ _ <-.
  - unfold detect_path_probe_timeout in E. destruct (timeout_loop _ _ _ _ _ _ _) as [[? ?] |]; [| done]. by injection E as <-.
  - done.
Qed.
End VerifierFacts.

(** * Properties *)

(** C19. The search for the packet size ends with the right size: on a path
    that carries datagrams of up to [m] bytes, [m] at least the lower bound,
    [n + 1] probes are enough when the range is at most [2^n] wide, and the
    size found is the largest in the range the path carries. There is one
    exception: [set] does not forget the last size [mid] of an earlier
    search, and when the new range is that size and the one below it, the
    search is complete without a probe, with the lower size. *)
Theorem mtu_search_exact l h m n b :
  0 <= l <= h -> h < 2 ^ 63 -> l <= m -> h - l <= 2 ^ Z.of_nat n ->
  exists b', BinarySearcher.set l h 1 b = (true, b') /\
    search (S n) m b' = Some (if decide (BinarySearcher.mid b = h /\ h = l + 1) then l else m `min` h).
Proof.
  intros Hl Hh Hm Hw. destruct (decide (BinarySearcher.mid b = h /\ h - l <= 1)) as [[Ei Ed] | Hmid].
  - unfold BinarySearcher.set. rewrite ltb_false by lia. eexists. split; [done |].
    rewrite (SearchFacts.update_next_cases h (BinarySearcher.mid b) l false l h) by lia.
    rewrite decide_True by done. rewrite (decide_True (P := BinarySearcher.mid b = h)) by done. cbn [search].
    unfold BinarySearcher.complete, BinarySearcher.internal_complete. cbn. rewrite u64_small by (unfold is_u64; lia).
    rewrite leb_true by lia. cbn. f_equal. case_decide; lia.
  - destruct (SearchFacts.set_stands l h m b Hl Hh Hm) as (b' & E & Hs & E1 & E2 & _); [lia |].
    exists b'. split; [done |]. rewrite decide_False by (intros [? ->]; apply Hmid; lia).
    apply (SearchFacts.search_spec l h); [lia | done | done |]. unfold SearchFacts.width. lia.
Qed.

(** The range of the default configuration, on a path of an Ethernet. *)
Lemma mtu_search_exact_witness :
  exists b', BinarySearcher.set 1200 0xffff 1 BinarySearcher.reset = (true, b') /\ search 17 1472 b' = Some 1472.
Proof. apply (mtu_search_exact 1200 0xffff 1472 16 BinarySearcher.reset); [lia | lia | lia | cbn; lia]. Defined.

(** Any number of calls of [probe_required], whatever became of the probes
    in between. *)
Inductive mtu_run : MTU.t -> MTU.t -> Prop :=
  | mtu_start m : mtu_run m m
  | mtu_probe m m1 o r o' m2 : mtu_run m m1 -> MTU.probe_required o m1 = (r, o', m2) -> mtu_run m m2.

(** A searcher that was never set. *)
Definition unset_inv (size_ : Z) (m : MTU.t) : Prop :=
  BinarySearcher.high (MTU.bin_search m) = 0 /\ BinarySearcher.mid (MTU.bin_search m) = 0 /\ BinarySearcher.low (MTU.bin_search m) = 0 /\
  (MTU.current_payload_size m = size_ \/ MTU.current_payload_size m = 0).

Lemma update_next_unset b : BinarySearcher.high b = 0 -> BinarySearcher.mid b = 0 -> BinarySearcher.low b = 0 ->
  BinarySearcher.high (BinarySearcher.update_next b) = 0 /\ BinarySearcher.mid (BinarySearcher.update_next b) = 0 /\
  BinarySearcher.low (BinarySearcher.update_next b) = 0.
Proof. destruct b as [hi mi lo ac hu]. cbn. intros -> -> ->. unfold BinarySearcher.update_next. cbn. by destruct (_ && _). Qed.

Lemma probe_required_unset size_ o m : unset_inv size_ m ->
  let '((p, ask), o', m') := MTU.probe_required o m in unset_inv size_ m' /\ (ask = true -> p = 0).
Proof.
  intros Hi. unfold MTU.probe_required. destruct (negb _); [done |]. destruct (MTU.follow_up o m) as [m1 |] eqn:E; [| done].
  assert (H1 : unset_inv size_ m1).
  { destruct Hi as (E1 & E2 & E3 & E4). unfold MTU.follow_up in E. destruct (ACKHandler.not_confirmed _); [| by injection E as <-].
    destruct (ACKHandler.is_lost _ _).
    - destruct (_ =? _); injection E as <-; [| done]. unfold unset_inv. cbn. unfold BinarySearcher.on_lost.
      destruct (update_next_unset (BinarySearcher.mk (BinarySearcher.mid (MTU.bin_search m)) (BinarySearcher.mid (MTU.bin_search m))
        (BinarySearcher.low (MTU.bin_search m)) (BinarySearcher.accuracy (MTU.bin_search m)) true)) as (-> & -> & ->); auto.
    - destruct (ACKHandler.is_ack _ _); [| done]. injection E as <-. unfold unset_inv. cbn. unfold BinarySearcher.on_ack, BinarySearcher.get_next.
      destruct (update_next_unset (BinarySearcher.mk (BinarySearcher.high (MTU.bin_search m)) (BinarySearcher.mid (MTU.bin_search m))
        (BinarySearcher.mid (MTU.bin_search m)) (BinarySearcher.accuracy (MTU.bin_search m)) (BinarySearcher.high_updated (MTU.bin_search m)))) as (-> & -> & ->); auto. }
  destruct (BinarySearcher.complete _); [done |]. destruct (ACKHandler.wait o) as [w o']. split; [done |]. intros _. cbn. apply H1.
Qed.

(** What the confirmation of the handshake leaves to the search. *)
Lemma confirmed_searcher conf v : 1200 <= base_plpmtu conf -> base_plpmtu conf <= max_plpmtu conf < 2 ^ 63 -> 0 <= v ->
  let m := MTU.on_handshake_confirmed (snd (MTU.on_transport_parameter_received v (MTU.reset conf))) in
  if base_plpmtu conf <=? v then MTUFacts.mtu_inv (base_plpmtu conf) (v `min` max_plpmtu conf) m else unset_inv (base_plpmtu conf) m.
Proof.
  intros Hb Hm H0. cbv zeta. set (hi := v `min` max_plpmtu conf).
  unfold MTU.on_transport_parameter_received, MTU.on_handshake_confirmed, MTU.on_searching, MTU.max_mtu, MTU.reset, path_rejects_quic, initial_udp_datagram_size.
  cbn. destruct (Z.leb_spec (base_plpmtu conf) v) as [Hv | Hv].
  - rewrite (ltb_false v 1200) by lia. cbn [snd]. cbn. rewrite (ltb_false (base_plpmtu conf) 1200), (ltb_false (max_plpmtu conf) 1200) by lia.
    replace (if _ <? _ then v else _) with hi by (subst hi; destruct (Z.ltb_spec v (max_plpmtu conf)); lia).
    destruct (SearchFacts.set_stands (base_plpmtu conf) hi hi BinarySearcher.reset) as (b' & E & _ & _ & El & Hs); [lia | lia | lia | left; cbn; lia |].
    unfold MTUFacts.mtu_inv. cbn. rewrite E. cbn. by rewrite El.
  - unfold unset_inv. destruct (v <? 1200); cbn [snd]; cbn; rewrite (ltb_false (base_plpmtu conf) 1200), (ltb_false (max_plpmtu conf) 1200) by lia;
      (match goal with |- context [if ?a <? ?b then ?a else ?b] => rewrite (ltb_true a b) by lia end);
      unfold BinarySearcher.set; rewrite ltb_true by lia; cbn; auto.
Qed.

(** C35. The size of the datagrams, from the moment the handshake is confirmed
    and whatever probes are acknowledged or lost, for a configuration whose
    base size is at least 1200 and at most its maximum. If the peer's limit
    [v] is at least the base size, the size in use is at least the base size
    and at most [v] and the maximum, and a probe that is asked for is at
    least as large as the size in use and within the same limits. If [v] is
    below the base size, the limit is not respected: the size in use is the
    base size, or zero, and the probes asked for are of zero bytes. *)
Theorem datagram_size_within_limits conf v m o :
  initial_udp_datagram_size <= base_plpmtu conf -> base_plpmtu conf <= max_plpmtu conf < 2 ^ 63 -> 0 <= v ->
  mtu_run (MTU.on_handshake_confirmed (snd (MTU.on_transport_parameter_received v (MTU.reset conf)))) m ->
  let '((p, ask), o', m') := MTU.probe_required o m in
  if base_plpmtu conf <=? v then
    base_plpmtu conf <= MTU.current_datagram_size m' <= v `min` max_plpmtu conf /\
    (ask = true -> MTU.current_datagram_size m' <= p <= v `min` max_plpmtu conf)
  else
    (MTU.current_datagram_size m' = base_plpmtu conf \/ MTU.current_datagram_size m' = 0) /\ (ask = true -> p = 0).
Proof.
  intros Hb Hm H0 Hrun. unfold initial_udp_datagram_size in Hb.
  pose proof (confirmed_searcher conf v Hb Hm H0) as Hi0.
  remember (MTU.on_handshake_confirmed _) as m0 eqn:E0. clear E0. destruct (Z.leb_spec (base_plpmtu conf) v) as [Hv | Hv].
  - assert (Hi : MTUFacts.mtu_inv (base_plpmtu conf) (v `min` max_plpmtu conf) m).
    { induction Hrun as [| m0 m1 o1 r o1' m2 Hr IH E]; [done |]. specialize (IH Hi0).
      pose proof (MTUFacts.probe_required_inv (base_plpmtu conf) (v `min` max_plpmtu conf) o1 m1 ltac:(lia) ltac:(lia) IH) as H. rewrite E in H. by destruct r, H. }
    pose proof (MTUFacts.probe_required_inv (base_plpmtu conf) (v `min` max_plpmtu conf) o m ltac:(lia) ltac:(lia) Hi) as H.
    destruct (MTU.probe_required o m) as [[[p ask] o'] m']. destruct H as [[(_ & H1 & H2) Hc] Ha]. unfold MTU.current_datagram_size. split; [lia | done].
  - assert (Hi : unset_inv (base_plpmtu conf) m).
    { induction Hrun as [| m0 m1 o1 r o1' m2 Hr IH E]; [done |]. specialize (IH Hi0).
      pose proof (probe_required_unset _ o1 m1 IH) as H. rewrite E in H. by destruct r, H. }
    pose proof (probe_required_unset _ o m Hi) as H. destruct (MTU.probe_required o m) as [[[p ask] o'] m'].
    destruct H as [(_ & _ & _ & H1) Ha]. split; [exact H1 | exact Ha].
Qed.

Lemma datagram_size_within_limits_witness :
  let '((p, ask), o', m') := MTU.probe_required (None, ∅)
      (MTU.on_handshake_confirmed (snd (MTU.on_transport_parameter_received 1500 (MTU.reset default_mtu_config)))) in
  1200 <= MTU.current_datagram_size m' <= 1500 /\ (ask = true -> MTU.current_datagram_size m' <= p <= 1500).
Proof.
  apply (datagram_size_within_limits default_mtu_config 1500 _ (None, ∅)); [done | done | done | apply mtu_start].
Defined.

(** Sending a challenge ends: whatever probes there are, and although lost
    ones add new ones to the list that is walked, [send_path_challenge]
    returns; but the path it reports with a challenge is read through an
    iterator at the end of the list. *)
Theorem path_challenge_returns {W} w o (rand : Random.t W) deadline now x v :
  exists res pid w' o' x' v',
    PathVerifier.send_path_challenge w o rand deadline now x v = Some ((res, pid), w', o', x', v') /\
    (res = io_ok -> pid = None).
Proof.
  unfold PathVerifier.send_path_challenge.
  destruct (VerifierFacts.challenge_loop_returns (2 * length (PathVerifier.probes v)) rand deadline now (PathVerifier.valid_path v) []
    (PathVerifier.probes v) (PathVerifier.num_probe_to_send v) w o x (VerifierFacts.turns_bound _)) as ([[[[[res pid] w'] o'] x'] [l n]] & -> & H).
  by eexists res, pid, w', o', x', _.
Qed.

(** A lost challenge, or one that was never sent, stops the connection:
    while such a probe for a path that is not validated is in the list,
    [detect_path_probe_timeout] does not return, however long it runs. *)
Theorem lost_challenge_hangs fuel now h v :
  Exists (VerifierFacts.stuck now h (PathVerifier.valid_path v)) (PathVerifier.probes v) ->
  PathVerifier.detect_path_probe_timeout fuel now h v = None.
Proof.
  intros Hs. unfold PathVerifier.detect_path_probe_timeout. by rewrite VerifierFacts.timeout_loop_hangs.
Qed.

(** A path is validated without a challenge: a path whose validation was
    requested and not yet started counts as validated, and is used when the
    peer moved to it, as soon as a PATH_RESPONSE with the data zero arrives,
    the value the data of a new probe has. *)
Theorem zero_response_validates_unsent id f v :
  Forall (fun it => pp_data it <> 0) (PathVerifier.probes v) -> PathBase.data f = 0 ->
  let '(e, v') := PathVerifier.recv_path_response f (PathVerifier.request_path_validation id v) in
  e = None /\ id ∈ PathVerifier.valid_path v' /\
  (PathVerifier.migrate_path v = id -> PathVerifier.active_path v' = id /\ PathVerifier.non_probe_is_allowed v' = true) /\
  PathVerifier.probes v' = PathVerifier.probes v.
Proof.
  intros Hl Hf. unfold PathVerifier.recv_path_response, PathVerifier.request_path_validation. rewrite Hf. cbn.
  assert (E : PathVerifier.take_probe 0 (PathVerifier.probes v ++ [new_probe id time.new_timer]) =
    Some (new_probe id time.new_timer, PathVerifier.probes v)).
  { induction Hl as [| it l Hit Hl IH]; [done |]. cbn [app PathVerifier.take_probe]. rewrite eqb_false by done. by rewrite IH. }
  rewrite E. cbn. split_and!; [done | set_solver | | done]. intros ->. rewrite Z.eqb_refl. split; [done |]. apply Z.eqb_refl.
Qed.

(** The path packets are sent on is the one of the handshake or a
    validated one, and no more challenges wait for a response than one above
    the limit, whatever frames arrive, whatever packets arrive on whatever
    path, and whatever is sent. *)
Theorem active_path_validated {W} hs limit v :
  0 <= limit -> rtc (VerifierFacts.vstep (W := W)) (PathVerifier.reset hs limit) v ->
  (PathVerifier.active_path v = hs \/ PathVerifier.active_path v ∈ PathVerifier.valid_path v) /\
  size (PathVerifier.recv_data v) <= limit + 1.
Proof.
  intros Hl Hr.
  assert (H : VerifierFacts.verifier_inv hs v /\ PathVerifier.max_path_challenge v = limit).
  { remember (PathVerifier.reset hs limit) as v0 eqn:E0.
    assert (H0 : VerifierFacts.verifier_inv hs v0 /\ PathVerifier.max_path_challenge v0 = limit).
    { subst. split; [| done]. split; [by left | cbn; rewrite size_nil; lia]. }
    clear E0. induction Hr as [| x y z Hs Hr IH]; [done |]. destruct H0 as [H0 E]. apply IH.
    rewrite <- E. eapply VerifierFacts.vstep_inv; [lia | exact Hs | done]. }
  destruct H as [[H1 H2] <-]. done.
Qed.

(** Peers with IPv4 addresses are told apart by their ports only: the
    addresses are not copied into the key, so that two of them with the same
    port are one path, and packets for the second go to the first. *)
Theorem ipv4_paths_merged local p1 p2 m :
  na_type local = ipv4 -> na_type p1 = ipv4 -> na_type p2 = ipv4 -> na_port p1 = na_port p2 ->
  PathMapper.active_local m = local -> PathMapper.ingress m = ∅ -> PathMapper.egress m = ∅ ->
  exists pid m1, PathMapper.get_path_id p1 m = Some (pid, m1) /\
    PathMapper.get_path_id p2 m1 = Some (pid, m1) /\ PathMapper.get_peer_address pid m1 = p1.
Proof.
  intros Hl H1 H2 Hp Ha Hi He.
  assert (Hkey : forall p, na_type p = ipv4 ->
    ip_key local p = Some (take 34 (take 16 (replicate 36 0) ++ write_be 2 (na_port local) ++ drop 18 (replicate 36 0)) ++ write_be 2 (na_port p))).
  { intros p Ht. unfold ip_key, addr_size. by rewrite Hl, Ht. }
  unfold PathMapper.get_path_id at 1. rewrite Ha, (Hkey p1 H1), Hi, lookup_empty. eexists _, _. split; [reflexivity |].
  unfold PathMapper.get_path_id, PathMapper.get_peer_address. cbn [PathMapper.active_local PathMapper.ingress PathMapper.egress].
  rewrite He, (Hkey p2 H2), <- Hp, lookup_insert_eq, lookup_empty. split; [done |]. rewrite lookup_insert_eq. cbn. by rewrite lookup_insert_eq.
Qed.

Lemma lost_challenge_hangs_witness :
  PathVerifier.detect_path_probe_timeout 1000 5 (<[1%positive := rec_lost]> ∅)
    (PathVerifier.set_probes [mk_probe 2 100 77 (Some 1%positive) false] 0 (PathVerifier.reset 0 256)) = None.
Proof.
  apply (lost_challenge_hangs 1000 5 (<[1%positive := rec_lost]> ∅)
    (PathVerifier.set_probes [mk_probe 2 100 77 (Some 1%positive) false] 0 (PathVerifier.reset 0 256))).
  constructor. right. split_and!; [by vm_compute | by vm_compute | apply not_elem_of_empty].
Defined.

Lemma zero_response_validates_unsent_witness :
  let '(e, v') := PathVerifier.recv_path_response (PathBase.mk FrameType.PATH_RESPONSE 0)
      (PathVerifier.request_path_validation 2 (PathVerifier.reset 0 256)) in
  e = None /\ 2 ∈ PathVerifier.valid_path v' /\
  (0 = 2 -> PathVerifier.active_path v' = 2 /\ PathVerifier.non_probe_is_allowed v' = true) /\
  PathVerifier.probes v' = [].
Proof. apply (zero_response_validates_unsent 2 (PathBase.mk FrameType.PATH_RESPONSE 0) (PathVerifier.reset 0 256)); [constructor | done]. Defined.

Lemma active_path_validated_witness :
  let v := PathVerifier.maybe_peer_migrated_path 2 true (PathVerifier.reset 0 256) in
  (PathVerifier.active_path v = 0 \/ PathVerifier.active_path v ∈ PathVerifier.valid_path v) /\ size (PathVerifier.recv_data v) <= 257.
Proof.
  apply (active_path_validated (W := unit) 0 256 (PathVerifier.maybe_peer_migrated_path 2 true (PathVerifier.reset 0 256))); [lia |].
  eapply rtc_l; [apply (VerifierFacts.v_migrated 2 true) | apply rtc_refl].
Defined.

Lemma ipv4_paths_merged_witness :
  let a x := mk_addr ipv4 (x ++ replicate 12 0) 443 in
  exists pid m1, PathMapper.get_path_id (a [192; 0; 2; 1]) (PathMapper.new (a [10; 0; 0; 1])) = Some (pid, m1) /\
    PathMapper.get_path_id (a [198; 51; 100; 7]) m1 = Some (pid, m1) /\ PathMapper.get_peer_address pid m1 = a [192; 0; 2; 1].
Proof.
  intros a. apply (ipv4_paths_merged (a [10; 0; 0; 1]) (a [192; 0; 2; 1]) (a [198; 51; 100; 7]) (PathMapper.new (a [10; 0; 0; 1]))); done.
Defined.
