(* ===== verification/Close.v ===== *)
(** * Close: closing a connection, and tokens

    Models [fnet/quic/close/close.h] and [token/token.h]. Of an error the
    members that [Closer] reads are kept; the text of an error of another
    kind, and the message of an application error, are given. The text of a
    TLS alert that [recv] attaches is left out. A reason phrase is a C string
    in between: it ends at its first zero. *)

From stdpp Require Import base list gmap strings.
From Stdlib Require Import ZArith Lia.
From S2P Require Import Prelude Bytes Varint Types FrameBase FrameStream FrameAck FrameParse QTime.

#[local] Open Scope Z_scope.
#[local] Open Scope list_scope.

(** ** Errors as [Closer] sees them *)

(** [transport_error] and [frame_type] are [int] enumerations. *)
Inductive conn_error :=
  | err_none (text : list Z)
  | err_quic (msg : list Z) (transport_error frame_type : Z) (is_app by_peer : bool)
  | err_app (error_code : Z) (msg : list Z)
  | err_other (text : list Z).

Definition code_INTERNAL_ERROR : Z := 0x01.
Definition code_APPLICATION_ERROR : Z := 0x0c.

(** A C string: the bytes before the first zero. *)
Fixpoint c_str (l : list Z) : list Z :=
  match l with [] => [] | b :: l => if b =? 0 then [] else b :: c_str l end.

Inductive ErrorType := et_none | et_runtime | et_app | et_remote.
#[global] Instance ErrorType_eq_dec : EqDecision ErrorType.
Proof. solve_decision. Defined.

(** ** [struct CloseFlag] *)

Record CloseFlag := mk_close_flag { sent : bool; received : bool; should_send_again : bool }.
Definition reset_flag : CloseFlag := mk_close_flag false false false.
Definition set_sent (b : bool) (f : CloseFlag) : CloseFlag := mk_close_flag b (received f) (should_send_again f).
Definition set_received (b : bool) (f : CloseFlag) : CloseFlag := mk_close_flag (sent f) b (should_send_again f).
Definition set_should_send_again (b : bool) (f : CloseFlag) : CloseFlag := mk_close_flag (sent f) (received f) b.

(** ** [struct ClosedContext] *)

Module ClosedContext.
Record t := mk { payload : list Z; close_timeout : time.Timer; flag : CloseFlag }.
Definition new : t := mk [] time.new_timer reset_flag.
Definition set_flag (f : CloseFlag) (c : t) : t := mk (payload c) (close_timeout c) f.

(** The bytes to send, and whether the context is still to be kept. *)
Definition create_udp_payload (now : Z) (c : t) : (list Z * bool) * t :=
  if time.not_working (close_timeout c) || time.timeout (close_timeout c) now then (([], false), c)
  else if sent (flag c) && should_send_again (flag c)
  then ((payload c, true), set_flag (set_should_send_again false (flag c)) c)
  else (([], true), c).

Definition parse_udp_payload (c : t) : bool * t :=
  if sent (flag c) then (true, set_flag (set_should_send_again true (flag c)) c) else (false, c).
End ClosedContext.

(** ** [struct Closer] *)

Module Closer.
Record t := mk { err_type : ErrorType; flag : CloseFlag; conn_err : conn_error; close_data : list Z }.

Definition reset (none_text : list Z) : t := mk et_none reset_flag (err_none none_text) [].
Definition on_error (err : conn_error) (reason : ErrorType) (c : t) : t := mk reason (flag c) err (close_data c).
Definition set_flag (f : CloseFlag) (c : t) : t := mk (err_type c) f (conn_err c) (close_data c).

Definition sent_packet (c : t) : list Z := if negb (sent (flag c)) then [] else close_data c.
Definition get_error (c : t) : conn_error := conn_err c.
Definition error_type (c : t) : ErrorType := err_type c.
Definition has_error (c : t) : bool := negb (bool_decide (err_type c = et_none)).

(** The frame [send] builds; [type] is the packet type. *)
Definition close_frame (type : PacketType) (err : conn_error) : ConnectionCloseFrame.t :=
  let base := ConnectionCloseFrame.mk FrameType.CONNECTION_CLOSE in
  let app := ConnectionCloseFrame.mk FrameType.CONNECTION_CLOSE_APP in
  let u := varint.of_uint in
  match err with
  | err_quic msg te ft is_app _ =>
      if bool_decide (type = OneRTT) && is_app then app (u (u64 te)) (u (u64 ft)) (u 0) (c_str msg)
      else if is_app then base (u code_APPLICATION_ERROR) (u (u64 ft)) (u 0) []
      else base (u (u64 te)) (u (u64 ft)) (u 0) (c_str msg)
  | err_app code msg =>
      if bool_decide (type = OneRTT) then app (u code) (u 0) (u 0) msg
      else base (u code_APPLICATION_ERROR) (u 0) (u 0) []
  | err_none text | err_other text => base (u code_INTERNAL_ERROR) (u 0) (u 0) text
  end.

Definition send (fw : fwriter) (type : PacketType) (c : t) : bool * fwriter :=
  if received (flag c) then (false, fw) else fw_write (close_frame type (conn_err c)) fw.

Definition on_close_packet_sent (close_packet : list Z) (c : t) : t :=
  mk (err_type c) (set_sent true (flag c)) (conn_err c) close_packet.
Definition on_close_retransmitted (c : t) : t :=
  if negb (sent (flag c)) then c else set_flag (set_should_send_again false (flag c)) c.
Definition should_retransmit (c : t) : bool := sent (flag c) && should_send_again (flag c).
Definition on_recv_after_close_sent (c : t) : t := set_flag (set_should_send_again true (flag c)) c.

(** The frame is rendered into the object's own buffer and parsed there, so
    that the phrase outlives the packet. *)
Definition recv (cclose : ConnectionCloseFrame.t) (c : t) : bool * t :=
  if received (flag c) || sent (flag c) then (false, c)
  else
    let buf := replicate (Z.to_nat (ConnectionCloseFrame.len cclose false + 1)) 0 in
    let w := snd (ConnectionCloseFrame.render cclose (new_writer buf)) in
    let new_close := fst (snd (ConnectionCloseFrame.parse (f_default, new_reader (wr_written w)))) in
    let is_app := FrameFlags.type_detail (ConnectionCloseFrame.type new_close) =? FrameType.CONNECTION_CLOSE_APP in
    (true, mk et_remote (set_received true (flag c))
       (err_quic (c_str (ConnectionCloseFrame.reason_phrase new_close))
          (s32 (varint.value (ConnectionCloseFrame.error_code new_close)))
          (s32 (varint.value (ConnectionCloseFrame.frame_type new_close))) is_app true)
       (wr_buf w)).

Definition close_by_peer (c : t) : bool := received (flag c).

Definition expose_closed_context (close_deadline : Z) (c : t) : ClosedContext.t :=
  if negb (sent (flag c)) && negb (received (flag c)) then ClosedContext.new
  else ClosedContext.mk (if sent (flag c) then close_data c else []) (time.set_deadline close_deadline) (flag c).
End Closer.

(** ** Tokens *)

Module RetryToken.
Definition t := list Z.
Definition reset : t := [].
Definition on_retry_received (retry_token : list Z) (_ : t) : t := retry_token.
Definition get_token (x : t) : list Z := x.
End RetryToken.

(** [struct ZeroRTTStorage] and [struct ZeroRTTTokenManager]: the storage is
    the application's, a state [S] with two callbacks. A null storage is
    [None]. *)
Module ZeroRTTTokenManager.
Record ZeroRTTStorage (S : Type) := mk_storage {
  find_token : option (list Z -> S -> option (list Z) * S);
  store_token : option (list Z -> list Z -> S -> S)
}.
Arguments mk_storage {S}. Arguments find_token {S}. Arguments store_token {S}.

Record t (S : Type) := mk { importer : ZeroRTTStorage S; key : list Z; found_cache : option (list Z) }.
Arguments mk {S}. Arguments importer {S}. Arguments key {S}. Arguments found_cache {S}.

Section ops.
Context {S : Type}.
(** The key is not reset. *)
Definition reset (i : ZeroRTTStorage S) (m : t S) : t S := mk i (key m) None.
Definition store (token : list Z) (m : t S) (s : S) : S :=
  match store_token (importer m) with Some f => f (key m) token s | None => s end.
Definition find (m : t S) (s : S) : option (list Z) * t S * S :=
  match found_cache m with
  | Some tok => (Some tok, m, s)
  | None =>
      match find_token (importer m) with
      | None => (None, m, s)
      | Some f =>
          match f (key m) s with
          | (None, s) => (None, m, s)
          | (Some tok, s) => (Some tok, mk (importer m) (key m) (Some tok), s)
          end
      end
  end.
End ops.
End ZeroRTTTokenManager.

(** * Lemmas *)

Module CloseFacts.

Lemma c_str_idem l : c_str (c_str l) = c_str l.
Proof. induction l as [| b l IH]; [done |]. cbn. destruct (Z.eqb_spec b 0) as [-> | E]; [done |]. cbn. by rewrite eqb_false, IH. Qed.

Lemma c_str_size l : size (c_str l) <= size l.
Proof.
  induction l as [| b l IH]; [done |]. cbn [c_str]. rewrite size_cons. pose proof (size_nonneg l).
  destruct (b =? 0); [rewrite size_nil; lia | rewrite size_cons; lia].
Qed.

(** The copy [recv] parses is the canonical form of the frame. *)
Lemma recv_parses f :
  wf f -> size (wire f) < 2 ^ 63 ->
  fst (snd (ConnectionCloseFrame.parse (f_default,
    new_reader (wr_written (snd (ConnectionCloseFrame.render f (new_writer (replicate (Z.to_nat (ConnectionCloseFrame.len f false + 1)) 0)))))))) = canon f.
Proof.
  intros Hf Hs. pose proof (wire_size f Hf) as Hl. change (flen f false) with (ConnectionCloseFrame.len f false) in Hl.
  pose proof (size_nonneg (wire f)). set (w := new_writer _).
  assert (Hroom : wr_room w = size (wire f) + 1).
  { rewrite Hl. unfold wr_room, w. cbn. unfold size. rewrite length_replicate. lia. }
  assert (Hw : wr_ok w).
  { split; [cbn; lia |]. unfold w. cbn. unfold size at 1. rewrite length_replicate. unfold u64_max. lia. }
  destruct (render_emits f Hf w Hw) as [He _]. change (render f w) with (ConnectionCloseFrame.render f w) in He.
  rewrite He by lia. cbn [snd]. rewrite wr_put_written by (done || lia). rewrite wr_written_eq by done. change (take (wr_index w) (wr_buf w)) with (@nil Z). cbn [app].
  assert (Hr : rd_ok (new_reader (wire f))) by (split; cbn [rd_index rd_buf new_reader]; [lia | unfold u64_max; lia]).
  pose proof (parse_reads f [] Hf ltac:(done) (new_reader (wire f)) Hr) as E. change (parse (f_default, new_reader (wire f))) with
    (ConnectionCloseFrame.parse (f_default, new_reader (wire f))) in E. rewrite E; [done |].
  by rewrite rd_remain_eq, app_nil_r by done.
Qed.
End CloseFacts.

(** * Properties *)

(** The error the receiver of a close frame holds. *)
Definition peer_error (f : ConnectionCloseFrame.t) : conn_error :=
  err_quic (c_str (ConnectionCloseFrame.reason_phrase f)) (s32 (varint.value (ConnectionCloseFrame.error_code f)))
    (if ConnectionCloseFrame.is_app f then 0 else s32 (varint.value (ConnectionCloseFrame.frame_type f)))
    (ConnectionCloseFrame.is_app f) true.

(** Receiving a close: the first CONNECTION_CLOSE frame of a connection
    that is open is accepted, and the error it leaves is that of the frame:
    its reason up to the first zero, its code and frame type as 32-bit
    numbers, its kind; later ones, and those that arrive after this end has
    closed, are ignored, and nothing is sent any more. *)
Theorem close_received_once f g type fw c :
  wf f -> size (wire f) < 2 ^ 63 -> received (Closer.flag c) = false -> sent (Closer.flag c) = false ->
  let '(ok, c') := Closer.recv f c in
  ok = true /\ Closer.get_error c' = peer_error f /\ Closer.error_type c' = et_remote /\ Closer.close_by_peer c' = true /\
  Closer.recv g c' = (false, c') /\ Closer.send fw type c' = (false, fw) /\ Closer.sent_packet c' = [].
Proof.
  intros Hf Hs Hr Hn. unfold Closer.recv at 1. rewrite Hr, Hn. cbn [orb]. rewrite CloseFacts.recv_parses by done.
  set (w := snd _). clearbody w. cbn -[canon s32].
  assert (Ht : FrameFlags.type_detail (ConnectionCloseFrame.type (canon f)) =? FrameType.CONNECTION_CLOSE_APP = ConnectionCloseFrame.is_app f).
  { cbn. unfold ConnectionCloseFrame.get_type. by destruct (ConnectionCloseFrame.is_app f). }
  rewrite Ht. split_and!; try done.
  - unfold peer_error. f_equal. cbn. by destruct (ConnectionCloseFrame.is_app f).
  - unfold Closer.sent_packet. cbn. by rewrite Hn.
Qed.

(** An application's error is not shown before the handshake is done: in
    a packet other than 1-RTT the frame for it is of the transport kind with
    the code APPLICATION_ERROR and without a reason; in a 1-RTT packet it
    carries the application's own code and reason. *)
Theorem application_error_hidden err type :
  (exists code msg, err = err_app code msg) \/ (exists msg te ft b, err = err_quic msg te ft true b) ->
  let f := Closer.close_frame type err in
  if decide (type = OneRTT) then
    ConnectionCloseFrame.is_app f = true /\
    match err with err_app code msg => varint.value (ConnectionCloseFrame.error_code f) = code /\ ConnectionCloseFrame.reason_phrase f = msg
                 | _ => True end
  else
    ConnectionCloseFrame.is_app f = false /\ varint.value (ConnectionCloseFrame.error_code f) = code_APPLICATION_ERROR /\
    ConnectionCloseFrame.reason_phrase f = [].
Proof.
  intros [(code & msg & ->) | (msg & te & ft & b & ->)]; cbn; case_decide as E.
  - rewrite bool_decide_eq_true_2 by done. by cbn.
  - rewrite bool_decide_eq_false_2 by done. by cbn.
  - rewrite bool_decide_eq_true_2 by done. by cbn.
  - rewrite bool_decide_eq_false_2 by done. by cbn.
Qed.

(** A close packet is repeated at most once for every packet that
    arrives, and only until the deadline: after [create_udp_payload] handed
    the packet out, it hands out nothing until [parse_udp_payload] is called,
    and after the deadline it hands out nothing and gives the context up. *)
Theorem close_packet_repeated_on_demand data deadline now now2 c :
  time.valid deadline = true -> now <= deadline -> now2 <= deadline -> deadline <> -1 ->
  let c0 := Closer.expose_closed_context deadline (Closer.on_close_packet_sent data c) in
  let '(ok, c1) := ClosedContext.parse_udp_payload c0 in
  let '(r1, c2) := ClosedContext.create_udp_payload now c1 in
  ok = true /\ r1 = (data, true) /\ ClosedContext.create_udp_payload now2 c2 = (([], true), c2) /\
  forall late, deadline < late -> fst (ClosedContext.create_udp_payload late c1) = ([], false).
Proof.
  intros Hv H1 H2 Hd. unfold Closer.expose_closed_context. cbn. rewrite timer_set_valid by done.
  unfold ClosedContext.create_udp_payload. cbn. unfold time.not_working, time.timeout. rewrite Hv. cbn.
  unfold time.invalid. rewrite eqb_false by done. rewrite (ltb_false deadline now) by lia. cbn. split_and!; try done.
  - rewrite (ltb_false deadline now2) by lia. cbn. by rewrite Hv, andb_false_r.
  - intros late Hl. rewrite ltb_true by done. cbn. rewrite ?Hv, ?eqb_false by done. done.
Qed.

(** A reason phrase of a server that is shutting down. *)
Definition sample_close : ConnectionCloseFrame.t := Closer.close_frame OneRTT (err_app 7 [98; 121; 101]).

Lemma close_received_once_witness :
  let '(ok, c') := Closer.recv sample_close (Closer.reset []) in
  ok = true /\ Closer.get_error c' = peer_error sample_close /\ Closer.error_type c' = et_remote /\ Closer.close_by_peer c' = true /\
  Closer.recv sample_close c' = (false, c') /\
  Closer.send (mk_fwriter (new_writer []) 0 0) OneRTT c' = (false, mk_fwriter (new_writer []) 0 0) /\ Closer.sent_packet c' = [].
Proof.
  apply (close_received_once sample_close sample_close OneRTT (mk_fwriter (new_writer []) 0 0) (Closer.reset [])); [| by vm_compute | done | done].
  split; [apply writable_uint; cbn; lia |]. split; [done | by vm_compute].
Defined.

Lemma application_error_hidden_witness :
  let f := Closer.close_frame Handshake (err_app 7 [98; 121; 101]) in
  ConnectionCloseFrame.is_app f = false /\ varint.value (ConnectionCloseFrame.error_code f) = 12 /\ ConnectionCloseFrame.reason_phrase f = [].
Proof. apply (application_error_hidden (err_app 7 [98; 121; 101]) Handshake). left. eauto. Defined.

Lemma close_packet_repeated_on_demand_witness :
  let c0 := Closer.expose_closed_context 100 (Closer.on_close_packet_sent [1; 2; 3] (Closer.reset [])) in
  let '(ok, c1) := ClosedContext.parse_udp_payload c0 in
  let '(r1, c2) := ClosedContext.create_udp_payload 5 c1 in
  ok = true /\ r1 = ([1; 2; 3], true) /\ ClosedContext.create_udp_payload 6 c2 = (([], true), c2) /\
  forall late, 100 < late -> fst (ClosedContext.create_udp_payload late c1) = ([], false).
Proof. apply (close_packet_repeated_on_demand [1; 2; 3] 100 5 6 (Closer.reset [])); [done | lia | lia | lia]. Defined.
