(* ===== verification/RecvSorter.v ===== *)
(** * RecvSorter: the reading side of a stream

    Models [fnet/quic/stream/impl/recv_stream.h] and set_receiver.h: the
    buffer that puts the fragments of a stream in order, the four ways of
    reading from it, and the two callbacks that plug it into a
    [RecvUniStream] as its [FragmentSaver]. The callback of the user is a
    function over a state [U]; an expired connection context is [false].
    Each operation runs under the lock; [try_lock] is an argument. A failing
    [assert] is [None]. *)

From stdpp Require Import base list gmap strings.
From Stdlib Require Import ZArith Lia.
From S2P Require Import Prelude Bytes Types PacketBase StreamId StreamState ConnBase StreamBase StreamImpl.

#[local] Open Scope string_scope.
#[local] Open Scope Z_scope.
#[local] Open Scope list_scope.

(** ** [struct RecvSorter] *)

Module RecvSorter.
Record t (U : Type) := mk {
  id : Z;
  on_data_added_cb : option (Z -> U -> U);
  sorted : list StreamFragment;
  done : bool;
  fin : bool;
  rst : bool;
  prev_notified : Z;
  read_pos : Z;
  prev_pos : Z
}.
Arguments mk {U}. Arguments id {U}. Arguments on_data_added_cb {U}. Arguments sorted {U}. Arguments done {U}.
Arguments fin {U}. Arguments rst {U}. Arguments prev_notified {U}. Arguments read_pos {U}. Arguments prev_pos {U}.

Section ops.
Context {U : Type}.
Implicit Types (s : t U) (u : U) (conn_ctx : bool).

Definition new : t U := mk StreamID.invalid_id None [] false false false u64_max 0 0.
Definition set_id i s : t U :=
  mk i (on_data_added_cb s) (sorted s) (done s) (fin s) (rst s) (prev_notified s) (read_pos s) (prev_pos s).
Definition set_sorted l s : t U :=
  mk (id s) (on_data_added_cb s) l (done s) (fin s) (rst s) (prev_notified s) (read_pos s) (prev_pos s).
Definition set_done s : t U :=
  mk (id s) (on_data_added_cb s) (sorted s) true (fin s) (rst s) (prev_notified s) (read_pos s) (prev_pos s).
Definition set_fin b s : t U :=
  mk (id s) (on_data_added_cb s) (sorted s) (done s) b (rst s) (prev_notified s) (read_pos s) (prev_pos s).
Definition set_notified n s : t U :=
  mk (id s) (on_data_added_cb s) (sorted s) (done s) (fin s) (rst s) n (read_pos s) (prev_pos s).
Definition set_read l pos s : t U :=
  mk (id s) (on_data_added_cb s) l (done s) (fin s) (rst s) (prev_notified s) pos (prev_pos s).

Definition set_data_added_cb (cb : option (Z -> U -> U)) s : t U :=
  mk (id s) cb (sorted s) (done s) (fin s) (rst s) (prev_notified s) (read_pos s) (prev_pos s).

(** [it->offset + it->data.size()] *)
Definition fend (it : StreamFragment) : Z := u64 (sf_offset it + size (sf_data it)).

Definition pack_new (frag : Fragment) s : StreamFragment * t U :=
  (mk_sfrag (frag_offset frag) (fragment frag) (frag_fin frag), set_fin (fin s || frag_fin frag) s).

Definition fragment_error (type : Z) : Error :=
  QUICError "received fragment is not same as received before" STREAM_STATE_ERROR type.

(** The loop of [check_done] over the stored fragments. *)
Fixpoint contiguous (prev : Z) (l : list StreamFragment) : bool :=
  match l with
  | [] => true
  | it :: l' => if negb (prev =? sf_offset it) then false else contiguous (fend it) l'
  end.

Definition check_done conn_ctx u s : bool * U * t U :=
  let '(u, s) :=
    match sorted s with
    | front :: _ =>
        if (sf_offset front =? read_pos s) && negb (read_pos s =? prev_notified s) then
          (match on_data_added_cb s with Some cb => if conn_ctx then cb (id s) u else u | None => u end,
           set_notified (read_pos s) s)
        else (u, s)
    | [] => (u, s)
    end in
  if done s then (true, u, s)
  else if negb (fin s) && negb (rst s) then (false, u, s)
  else if contiguous (read_pos s) (sorted s) then (true, u, set_done s)
  else (false, u, s).

(** [handle_single_range]: [it] is the element at the iterator, [pre] and
    [post] what is before and after it. *)
Definition handle_single_range conn_ctx (pre : list StreamFragment) (it : StreamFragment) (post : list StreamFragment)
    (type : Z) (frag : Fragment) u s : (bool * option Error) * U * t U :=
  let curmax := fend it in
  let newmax := u64 (frag_offset frag + size (fragment frag)) in
  if newmax <=? curmax then
    let cmp := rsubstr (sf_data it) (u64 (frag_offset frag - sf_offset it)) (size (fragment frag)) in
    if negb (bool_decide (cmp = fragment frag)) then ((false, Some (fragment_error type)), u, set_sorted (pre ++ it :: post) s)
    else
      let '(d, u, s) := check_done conn_ctx u (set_fin (fin s || frag_fin frag) (set_sorted (pre ++ it :: post) s)) in
      ((d, None), u, s)
  else if frag_offset frag <=? curmax then
    let cmp1 := rsubstr (sf_data it) (u64 (frag_offset frag - sf_offset it)) u64_max in
    let cmp2 := rsubstr (fragment frag) 0 (size cmp1) in
    if negb (bool_decide (cmp1 = cmp2)) then ((false, Some (fragment_error type)), u, set_sorted (pre ++ it :: post) s)
    else
      let add := rsubstr (fragment frag) (size cmp1) u64_max in
      let it := mk_sfrag (sf_offset it) (sf_data it ++ add) (frag_fin frag) in
      let '(d, u, s) := check_done conn_ctx u (set_fin (fin s || frag_fin frag) (set_sorted (pre ++ it :: post) s)) in
      ((d, None), u, s)
  else
    let '(new, s) := pack_new frag s in
    let '(d, u, s) := check_done conn_ctx u (set_sorted (pre ++ it :: new :: post) s) in
    ((d, None), u, s).

(** The loop of [recv] and what follows it. *)
Fixpoint recv_loop conn_ctx (type : Z) (pre l : list StreamFragment) (frag : Fragment) u s
    : (bool * option Error) * U * t U :=
  match l with
  | [] =>
      let '(new, s) := pack_new frag s in
      let l :=
        match pre with
        | front :: _ => if frag_offset frag <? sf_offset front then new :: pre else pre ++ [new]
        | [] => [new]
        end in
      let '(d, u, s) := check_done conn_ctx u (set_sorted l s) in ((d, None), u, s)
  | it :: l' =>
      if sf_offset it <=? frag_offset frag then
        match l' with
        | [] => handle_single_range conn_ctx pre it [] type frag u s
        | cp :: _ =>
            let nextofs := sf_offset cp in
            if nextofs <=? frag_offset frag then recv_loop conn_ctx type (pre ++ [it]) l' frag u s
            else
              let curmax := fend it in
              let newmax := u64 (frag_offset frag + size (fragment frag)) in
              if newmax <=? nextofs then handle_single_range conn_ctx pre it l' type frag u s
              else
                let cmp1 := rsubstr (sf_data it) (u64 (frag_offset frag - sf_offset it)) u64_max in
                let cmp2 := rsubstr (fragment frag) 0 (size cmp1) in
                if negb (bool_decide (cmp1 = cmp2))
                then ((false, Some (fragment_error type)), u, set_sorted (pre ++ l) s)
                else
                  let add := rsubstr (fragment frag) (size cmp1) (u64 (nextofs - curmax)) in
                  let it := mk_sfrag (sf_offset it) (sf_data it ++ add) (sf_fin it) in
                  let remain := rsubstr (fragment frag) (u64 (nextofs - curmax)) u64_max in
                  recv_loop conn_ctx type (pre ++ [it]) l' (mk_fragment nextofs remain (frag_fin frag)) u s
        end
      else recv_loop conn_ctx type (pre ++ [it]) l' frag u s
  end.

(** [recv]: (all data received, error). *)
Definition recv conn_ctx (type : Z) (frag : Fragment) u s : (bool * option Error) * U * t U :=
  if done s then ((true, None), u, s)
  else if frag_offset frag <? read_pos s then
    let '(d, u, s) := check_done conn_ctx u s in ((d, None), u, s)
  else recv_loop conn_ctx type [] (sorted s) frag u s.

Definition reset s : t U :=
  mk (id s) (on_data_added_cb s) (sorted s) (done s) (fin s) true (prev_notified s) (read_pos s) (prev_pos s).

(** The condition of the [assert] in [check_offset]. *)
Definition check_offset (l : list StreamFragment) : bool :=
  match l with a :: b :: _ => sf_offset a <? sf_offset b | _ => true end.

(** The loop of [read_impl]: [room] is what is left of the buffer; the bytes
    put into it, what remains stored, the read position. *)
Fixpoint read_loop (l : list StreamFragment) (pos room : Z) : option (list Z * list StreamFragment * Z) :=
  match l with
  | [] => Some ([], [], pos)
  | tgt :: l' =>
      if room <=? 0 then Some ([], l, pos)
      else if negb (sf_offset tgt =? pos) then if check_offset l then Some ([], l, pos) else None
      else if room <? size (sf_data tgt) then
        let new_size := size (sf_data tgt) - room in
        let '(_, shifted) := shift (sf_data tgt) 0 room new_size in
        let l := mk_sfrag (u64 (sf_offset tgt + room)) (take (Z.to_nat new_size) shifted) (sf_fin tgt) :: l' in
        if check_offset l then Some (take (Z.to_nat room) (sf_data tgt), l, u64 (pos + room)) else None
      else
        match read_loop l' (u64 (pos + size (sf_data tgt))) (room - size (sf_data tgt)) with
        | Some (out, l, pos) => Some (sf_data tgt ++ out, l, pos)
        | None => None
        end
  end.

Definition at_end (l : list StreamFragment) s : bool := (size l =? 0) && done s.

(** [n] is the size of the buffer; the result is what was put into it and
    whether the stream ended. *)
Definition read_impl (n : Z) s : option ((list Z * bool) * t U) :=
  match read_loop (sorted s) (read_pos s) n with
  | Some (out, l, pos) => Some ((out, at_end l s), set_read l pos s)
  | None => None
  end.

Definition read (n : Z) (use_try_lock try_lock : bool) s : option ((list Z * bool) * t U) :=
  if use_try_lock && negb try_lock then Some (([], false), s) else read_impl n s.

(** The loop of [peek]; [read_pos] does not move. *)
Fixpoint peek_loop (l : list StreamFragment) (pos room : Z) : list Z :=
  match l with
  | [] => []
  | tgt :: l' =>
      if negb (sf_offset tgt =? pos) then []
      else if room <? size (sf_data tgt) then take (Z.to_nat room) (sf_data tgt)
      else sf_data tgt ++ peek_loop l' pos (room - size (sf_data tgt))
  end.
Definition peek (n : Z) (use_try_lock try_lock : bool) s : list Z :=
  if use_try_lock && negb try_lock then [] else peek_loop (sorted s) (read_pos s) n.

Definition read_direct_impl s : (list Z * bool) * t U :=
  match sorted s with
  | [] => (([], done s), s)
  | front :: l =>
      if negb (sf_offset front =? read_pos s) then (([], done s), s)
      else ((sf_data front, at_end l s), set_read l (u64 (read_pos s + size (sf_data front))) s)
  end.
Definition read_direct (use_try_lock try_lock : bool) s : (list Z * bool) * t U :=
  if use_try_lock && negb try_lock then (([], false), s) else read_direct_impl s.

(** [read_best]: [cb] is given the stored fragments one by one. *)
Fixpoint best_loop {X} (cb : list Z -> X -> bool * X) (l : list StreamFragment) (pos : Z) (x : X)
    : bool * list StreamFragment * Z * X :=
  match l with
  | [] => (true, [], pos, x)
  | front :: l' =>
      if negb (sf_offset front =? pos) then (true, l, pos, x)
      else
        let pos := u64 (pos + size (sf_data front)) in
        let '(go, x) := cb (sf_data front) x in
        if go : bool then best_loop cb l' pos x else (false, l', pos, x)
  end.
Definition read_best {X} (cb : list Z -> X -> bool * X) (use_try_lock try_lock : bool) (x : X) s : bool * X * t U :=
  if use_try_lock && negb try_lock then (false, x, s)
  else
    let '(ok, l, pos, x) := best_loop cb (sorted s) (read_pos s) x in
    (if ok : bool then at_end l s else false, x, set_read l pos s).

Definition read_amount s : Z := read_pos s.
Definition prev_read s : Z := prev_pos s.
Definition update_prev_read (n : Z) s : t U :=
  mk (id s) (on_data_added_cb s) (sorted s) (done s) (fin s) (rst s) (prev_notified s) (read_pos s) n.
End ops.
End RecvSorter.
Import RecvSorter.

(** ** The callbacks that make it a [FragmentSaver] *)

Section handlers.
Context {U : Type}.

Definition reader_recv_handler (conn_ctx : bool) (id type : Z) (frag : Fragment) (total_recv err_code : Z)
    (v : option (RecvSorter.t U) * U) : (bool * option Error) * (option (RecvSorter.t U) * U) :=
  match v with
  | (None, u) => ((false, Some (LibError "unexpected arg")), (None, u))
  | (Some s, u) =>
      let s := if negb (StreamID.valid (RecvSorter.id s)) then set_id id s else s in
      if negb (RecvSorter.id s =? id)
      then ((false, Some (LibError "unexpected conn id; maybe bug!!")), (Some s, u))
      else if type =? FrameType.RESET_STREAM then ((false, None), (Some (RecvSorter.reset s), u))
      else let '(r, u, s) := RecvSorter.recv conn_ctx type frag u s in (r, (Some s, u))
  end.

Definition reader_auto_updater (lim : Limiter.t) (ini_limit : Z) (query_update : bool)
    (v : option (RecvSorter.t U) * U) : Z * (option (RecvSorter.t U) * U) :=
  match v with
  | (None, u) => (0, (None, u))
  | (Some s, u) =>
      if query_update then (u64 (read_amount s - prev_read s), v)
      else
        let n := read_amount s in
        let increment := u64 (n - prev_read s) in
        (u64 (Limiter.current_limit lim + increment), (Some (update_prev_read n s), u))
  end.

(** [set_stream_reader]: the saver, and the reader the user keeps. *)
Definition set_stream_reader (conn_ctx use_auto_update : bool) (on_data_added : option (Z -> U -> U))
    : FragmentSaver (option (RecvSorter.t U) * U) * RecvSorter.t U :=
  (mk_saver (Some (reader_recv_handler conn_ctx)) (if use_auto_update then Some reader_auto_updater else None),
   set_data_added_cb on_data_added new).
End handlers.

(** ** Fragments of one stream *)

(** [st] gives the byte at every position; [l] holds the bytes from [a] on. *)
Definition matches (st : Z -> Z) (a : Z) (l : list Z) : Prop :=
  forall i b, l !! i = Some b -> b = st (a + Z.of_nat i).

(** Executable: the bytes of [st] from [a] on. *)
Definition slice (st : Z -> Z) (a : Z) (n : nat) : list Z := (fun i => st (a + Z.of_nat i)) <$> seq 0 n.

Lemma matches_slice st a n : matches st a (slice st a n).
Proof. intros i b. unfold slice. rewrite list_lookup_fmap. intros (j & Hj & ->)%fmap_Some. by apply lookup_seq in Hj as [-> _]. Qed.

Lemma matches_nil st a : matches st a [].
Proof. by intros i b H. Qed.

Lemma matches_app st a l k : matches st a (l ++ k) <-> matches st a l /\ matches st (a + size l) k.
Proof.
  split.
  - intros H. split; intros i b Hi.
    + apply H. by apply lookup_app_l_Some.
    + rewrite <-Z.add_assoc. unfold size. rewrite <-Nat2Z.inj_add. apply H. rewrite lookup_app_r by lia.
      by replace (length l + i - length l)%nat with i by lia.
  - intros [H1 H2] i b Hi. apply lookup_app_Some in Hi as [Hi | [Hl Hi]]; [by apply H1 |].
    rewrite (H2 _ _ Hi). f_equal. unfold size. lia.
Qed.

Lemma matches_take st a n l : matches st a l -> matches st a (take n l).
Proof. rewrite <-(take_drop n l) at 1. rewrite matches_app. tauto. Qed.

Lemma matches_drop st a n l : (n <= length l)%nat -> matches st a l -> matches st (a + Z.of_nat n) (drop n l).
Proof.
  intros Hn. rewrite <-(take_drop n l) at 1. rewrite matches_app. unfold size. rewrite length_take, Nat.min_l by done. tauto.
Qed.

Lemma matches_eq st a l k : matches st a l -> matches st a k -> length l = length k -> l = k.
Proof.
  intros Hl Hk He. apply list_eq. intros i.
  destruct (l !! i) as [b |] eqn:E1, (k !! i) as [c |] eqn:E2; try done.
  - by rewrite (Hl _ _ E1), (Hk _ _ E2).
  - apply lookup_lt_Some in E1. apply lookup_ge_None in E2. lia.
  - apply lookup_lt_Some in E2. apply lookup_ge_None in E1. lia.
Qed.

Lemma rsubstr_inside l pos n : 0 <= pos <= size l -> 0 <= n -> rsubstr l pos n = take (Z.to_nat n) (drop (Z.to_nat pos) l).
Proof.
  unfold rsubstr. intros Hp Hn. rewrite ltb_false by lia. zcases. unfold size in *.
  rewrite !take_ge; rewrite ?length_drop; lia || done.
Qed.

(** ** What the buffer holds *)

Module SorterFacts.
Section facts.
Context {U : Type} (st : Z -> Z) (cut : Z -> Prop) (final : Z).
Hypothesis final_range : 0 <= final < 2 ^ 62.
Implicit Types (s : t U) (l : list StreamFragment) (log : list Fragment).

Definition frag_end (f : Fragment) : Z := frag_offset f + size (fragment f).

(** A fragment of the stream: its bytes, its ends are cuts and there is none
    between them; FIN marks the end. *)
Definition piece (f : Fragment) : Prop :=
  0 <= frag_offset f /\ frag_end f <= final /\ matches st (frag_offset f) (fragment f) /\
  cut (frag_offset f) /\ cut (frag_end f) /\ (forall c, cut c -> ~ frag_offset f < c < frag_end f) /\
  (frag_fin f = true -> frag_end f = final).

Definition covered log (b : Z) : Prop := Exists (fun f => frag_offset f <= b < frag_end f) log.

Definition iend (it : StreamFragment) : Z := sf_offset it + size (sf_data it).
Definition stored l (b : Z) : Prop := Exists (fun it => sf_offset it <= b < iend it) l.

(** One stored fragment of the stream, [pos] being the read position. *)
Definition item_ok (pos : Z) (it : StreamFragment) : Prop :=
  matches st (sf_offset it) (sf_data it) /\ iend it <= final /\
  (sf_offset it = pos \/ cut (sf_offset it)) /\ cut (iend it).

Fixpoint ordered (lo : Z) l : Prop :=
  match l with
  | [] => True
  | it :: l' => lo <= sf_offset it /\ ordered (Z.max (sf_offset it + 1) (iend it)) l'
  end.

Definition head_at (pos : Z) l : Prop := exists it k, l = it :: k /\ sf_offset it = pos.

(** What holds of the position read up to and the list, [log] being all that
    arrived and [fi] whether FIN was seen. *)
Record core log (pos : Z) l (fi : bool) : Prop := {
  core_pos : 0 <= pos <= final;
  core_ordered : ordered pos l;
  core_items : Forall (item_ok pos) l;
  core_mid : cut pos \/ head_at pos l;
  core_cover : forall b, covered log b <-> 0 <= b < pos \/ stored l b;
  core_fin : fi = true -> pos = final \/ Exists (fun it => iend it = final) l
}.

Definition sorter_inv log s : Prop :=
  core log (read_pos s) (sorted s) (fin s) /\ rst s = false /\
  done s = fin s && contiguous (read_pos s) (sorted s).

Lemma ordered_weaken lo lo' l : lo' <= lo -> ordered lo l -> ordered lo' l.
Proof. destruct l; simpl; [done |]. intros ? []. split; [lia | done]. Qed.

Lemma ordered_app lo l k : ordered lo (l ++ k) -> ordered lo k.
Proof.
  revert lo. induction l as [| it l IH]; intros lo; [done |]. intros [H1 H2%IH].
  eapply ordered_weaken, H2. pose proof (size_nonneg (sf_data it)). unfold iend. lia.
Qed.

Lemma ordered_lb lo l it : ordered lo l -> it ∈ l -> lo <= sf_offset it.
Proof.
  revert lo. induction l as [| x l IH]; intros lo; [by intros _ ?%not_elem_of_nil |]. intros [H1 H2].
  intros [-> | Hin]%elem_of_cons; [done |]. specialize (IH _ H2 Hin). unfold iend in IH. pose proof (size_nonneg (sf_data x)). lia.
Qed.

Lemma fend_iend pos it : 0 <= pos -> item_ok pos it -> pos <= sf_offset it -> fend it = iend it.
Proof. intros H0 (_ & He & _) Hp. unfold fend, iend in *. pose proof (size_nonneg (sf_data it)). apply u64_small. unfold is_u64. lia. Qed.

Lemma stored_app l k b : stored (l ++ k) b <-> stored l b \/ stored k b.
Proof. apply Exists_app. Qed.
Lemma stored_cons it l b : stored (it :: l) b <-> sf_offset it <= b < iend it \/ stored l b.
Proof. apply Exists_cons. Qed.

(** The least offset allowed after [l]. *)
Fixpoint top (lo : Z) l : Z :=
  match l with [] => lo | it :: l' => top (Z.max (sf_offset it + 1) (iend it)) l' end.

Lemma ordered_app_iff lo l k : ordered lo (l ++ k) <-> ordered lo l /\ ordered (top lo l) k.
Proof. revert lo. induction l as [| it l IH]; intros lo; simpl; [tauto |]. rewrite IH. tauto. Qed.

Lemma covered_snoc log f b : covered (log ++ [f]) b <-> covered log b \/ frag_offset f <= b < frag_end f.
Proof. unfold covered. rewrite Exists_app, Exists_cons, Exists_nil. tauto. Qed.

Lemma core_replace log pos pre old mid post fi f :
  core log pos (pre ++ old ++ post) fi -> ordered (top pos pre) (mid ++ post) -> Forall (item_ok pos) mid ->
  (forall b, stored mid b <-> stored old b \/ frag_offset f <= b < frag_end f) ->
  (Exists (fun it => iend it = final) old -> Exists (fun it => iend it = final) mid) ->
  (frag_fin f = true -> Exists (fun it => iend it = final) mid) ->
  (cut pos \/ head_at pos (pre ++ mid ++ post)) ->
  core (log ++ [f]) pos (pre ++ mid ++ post) (fi || frag_fin f).
Proof.
  intros [Hp Ho Hi Hm Hc Hf] Hord Hmid Hst Hold Hfin Hhead. split; try done.
  - apply ordered_app_iff. apply ordered_app_iff in Ho as [? _]. done.
  - rewrite !Forall_app in *. tauto.
  - intros b. rewrite covered_snoc, Hc, !stored_app, Hst. tauto.
  - rewrite orb_true_iff, !Exists_app. intros [H | H]; [| tauto]. apply Hf in H. rewrite !Exists_app in H. tauto.
Qed.

Lemma check_done_inv log conn_ctx u s d u' s' :
  core log (read_pos s) (sorted s) (fin s) -> rst s = false -> done s = false ->
  check_done conn_ctx u s = (d, u', s') -> sorter_inv log s'.
Proof.
  intros Hc Hr Hd H. unfold check_done in H.
  set (p := match sorted s with [] => (u, s) | _ => _ end) in H.
  assert (Hq : sorted p.2 = sorted s /\ read_pos p.2 = read_pos s /\ fin p.2 = fin s /\ rst p.2 = false /\ done p.2 = false).
  { subst p. destruct (sorted s) eqn:E; [by rewrite ?E |]. destruct (_ && _); simpl; by rewrite ?E. }
  destruct p as [u1 s1]. cbn [snd] in Hq. destruct Hq as (E1 & E2 & E3 & E4 & E5).
  rewrite E5, E3, E4, E1, E2 in H. unfold sorter_inv.
  destruct (fin s) eqn:Ef; simpl in H;
    [destruct (contiguous (read_pos s) (sorted s)) eqn:Ec |]; injection H as <- <- <-;
    simpl; rewrite ?E1, ?E2, ?E3, ?E4, ?E5; by rewrite ?Ec.
Qed.

Lemma contiguous_stored log pos l : core log pos l true -> contiguous pos l = true ->
  forall b, pos <= b < final -> stored l b.
Proof.
  intros [Hp Ho Hi _ _ Hf] Hc b. specialize (Hf eq_refl). clear log.
  assert (Hgen : forall lo, 0 <= lo -> lo <= pos -> Forall (item_ok lo) l -> pos <= b < final -> stored l b);
    [| by apply (Hgen pos); [lia | lia |]].
  intros lo H0 Hlo Hi'. clear Hi. revert pos Hp Ho Hc Hf Hlo.
  induction l as [| it l IH]; intros pos Hp Ho Hc Hf Hlo Hb.
  { destruct Hf as [-> | Hf%Exists_nil]; [lia | done]. }
  simpl in *. destruct (Z.eqb_spec pos (sf_offset it)) as [E |]; [| done]. destruct Ho as [_ Ho].
  apply Forall_cons in Hi' as [Hit Hi']. rewrite (fend_iend lo it) in Hc by (done || lia).
  rewrite stored_cons. destruct (decide (b < iend it)) as [| Hge]; [left; lia | right].
  assert (He : iend it <= final) by apply Hit.
  pose proof (size_nonneg (sf_data it)) as Hsz.
  apply (IH Hi' (iend it)); try done; try (unfold iend in *; lia).
  - eapply ordered_weaken, Ho. lia.
  - destruct Hf as [-> | Hf]; [unfold iend in *; lia |]. apply Exists_cons in Hf as [| Hf]; [by left | by right].
Qed.

Lemma finish log conn_ctx u s pos fi l :
  core log pos l fi -> rst s = false -> done s = false -> read_pos s = pos ->
  let '(d, u', s') := check_done conn_ctx u (set_fin fi (set_sorted l s)) in sorter_inv log s'.
Proof.
  intros Hc Hr Hd <-. destruct (check_done _ _ _) as [[d u'] s'] eqn:E. by eapply check_done_inv, E.
Qed.

Lemma set_sorted_fin l b s : set_sorted l (set_fin b s) = set_fin b (set_sorted l s).
Proof. done. Qed.

(** [it] is the last fragment that does not begin after [f], and [f] does not
    reach the next one. *)
Definition placed log pos pre it post fi f : Prop :=
  core log pos (pre ++ [it] ++ post) fi /\ piece f /\ pos <= sf_offset it <= frag_offset f /\
  ordered (Z.max (frag_offset f + 1) (frag_end f)) post.

Lemma placed_item log pos pre it post fi f : placed log pos pre it post fi f ->
  0 <= pos /\ item_ok pos it /\ top pos pre <= sf_offset it /\ ordered (Z.max (sf_offset it + 1) (iend it)) post /\ fend it = iend it.
Proof.
  intros (Hc & Hf & Hx & _). pose proof (core_pos _ _ _ _ Hc). pose proof (core_ordered _ _ _ _ Hc) as Ho.
  apply ordered_app_iff in Ho as [_ [Ho2 Ho3]]. pose proof (core_items _ _ _ _ Hc) as Hi.
  apply Forall_app in Hi as [_ [Hit _]%Forall_cons].
  split; [lia |]. split; [done |]. split; [done |]. split; [done |]. apply (fend_iend pos); [lia | done | lia].
Qed.

Lemma placed_head log pos pre it post fi f x l : placed log pos pre it post fi f ->
  sf_offset x = sf_offset it -> cut pos \/ head_at pos (pre ++ x :: l).
Proof.
  intros (Hc & _) Ex. destruct (core_mid _ _ _ _ Hc) as [| (y & k & Ey & Hy)]; [by left | right].
  destruct pre as [| z pre]; simplify_eq/=; [exists x, l | exists y, (pre ++ x :: l)]; split; congruence.
Qed.

Lemma placed_inside log pos pre it post fi f : placed log pos pre it post fi f -> frag_end f <= iend it ->
  core (log ++ [f]) pos (pre ++ [it] ++ post) (fi || frag_fin f) /\
  rsubstr (sf_data it) (u64 (frag_offset f - sf_offset it)) (size (fragment f)) = fragment f.
Proof.
  intros Hp Hin. destruct (placed_item _ _ _ _ _ _ _ Hp) as (H0 & Hit & Ht & Ho & _). pose proof Hp as (Hc & Hf & Hx & _).
  destruct Hf as (Hf0 & Hfe & Hfm & _ & _ & _ & Hfin). pose proof (size_nonneg (fragment f)) as Hs. split.
  - apply (core_replace log pos pre [it] [it] post fi f); [done | done | by apply Forall_cons_2 | | done | |].
    + intros b. rewrite stored_cons. split; [tauto |]. intros [? | ?]; [done | left; lia].
    + intros Hff. apply Exists_cons. left. specialize (Hfin Hff). destruct Hit as (_ & ? & _). lia.
    + by eapply placed_head.
  - destruct Hit as (Hmt & Hle & _). unfold frag_end, iend in *.
    rewrite (u64_small (_ - _)), rsubstr_inside by (unfold is_u64; lia).
    eapply (matches_eq st (frag_offset f)); [apply matches_take | done |].
    + replace (frag_offset f) with (sf_offset it + Z.of_nat (Z.to_nat (frag_offset f - sf_offset it))) at 1 by lia.
      apply matches_drop; [unfold size in *; lia | done].
    + rewrite length_take, length_drop. unfold size in *; lia.
Qed.

Lemma placed_extends log pos pre it post fi f : placed log pos pre it post fi f ->
  frag_offset f <= iend it < frag_end f ->
  core (log ++ [f]) pos (pre ++ [mk_sfrag (sf_offset it) (sf_data it ++ fragment f) (frag_fin f)] ++ post) (fi || frag_fin f) /\
  rsubstr (sf_data it) (u64 (frag_offset f - sf_offset it)) u64_max = [].
Proof.
  intros Hp Hin. destruct (placed_item _ _ _ _ _ _ _ Hp) as (H0 & Hit & Ht & Ho & _). pose proof Hp as (Hc & Hf & Hx & Hpost).
  destruct Hf as (Hf0 & Hfe & Hfm & _ & Hc2 & Hcut & Hfin). destruct Hit as (Hmt & Hle & Hoff & Hce).
  pose proof (size_nonneg (sf_data it)) as Hs1.
  assert (Heq : frag_offset f = iend it).
  { destruct (Z.eq_dec (frag_offset f) (iend it)); [done |]. exfalso. apply (Hcut _ Hce). lia. }
  set (it' := mk_sfrag _ _ _).
  assert (Hie : iend it' = frag_end f) by (subst it'; unfold iend, frag_end in *; simpl; rewrite size_app; lia). split.
  - apply (core_replace log pos pre [it] [it'] post fi f); [done | | | | | |].
    + split; [done |]. eapply ordered_weaken, Hpost. rewrite Hie. simpl. lia.
    + apply Forall_cons_2; [| done]. unfold item_ok. rewrite Hie. split; [| by simpl].
      simpl. apply matches_app. split; [done |]. unfold iend in Heq. by rewrite <-Heq.
    + intros b. rewrite !stored_cons, Hie. unfold stored. rewrite Exists_nil. simpl. unfold iend in *. intuition lia.
    + rewrite !Exists_cons, !Exists_nil, Hie. intros [? | []]. left. lia.
    + intros Hff. apply Exists_cons. left. rewrite Hie. auto.
    + by eapply placed_head.
  - unfold iend, u64_max in *. rewrite (u64_small (_ - _)), rsubstr_inside by (unfold is_u64; lia).
    rewrite drop_ge by (unfold size in *; lia). apply take_nil.
Qed.

Lemma placed_inserts log pos pre it post fi f : placed log pos pre it post fi f -> iend it < frag_offset f ->
  core (log ++ [f]) pos (pre ++ [it; mk_sfrag (frag_offset f) (fragment f) (frag_fin f)] ++ post) (fi || frag_fin f).
Proof.
  intros Hp Hgap. destruct (placed_item _ _ _ _ _ _ _ Hp) as (H0 & Hit & Ht & Ho & _). pose proof Hp as (Hc & Hf & Hx & Hpost).
  destruct Hf as (Hf0 & Hfe & Hfm & Hc1 & Hc2 & Hcut & Hfin). pose proof (size_nonneg (sf_data it)) as Hs1.
  set (n := mk_sfrag _ _ _). apply (core_replace log pos pre [it] [it; n] post fi f); [done | | | | | |].
  - split; [done |]. split; [simpl; unfold iend in *; lia | done].
  - repeat apply Forall_cons_2; [done | | done]. split; [done |]. split; [done |]. by split; [right |].
  - intros b. rewrite !stored_cons. change (iend n) with (frag_end f). simpl. unfold stored. rewrite Exists_nil. tauto.
  - rewrite !Exists_cons. tauto.
  - intros Hff. rewrite !Exists_cons. right; left. change (iend n) with (frag_end f). auto.
  - by eapply placed_head.
Qed.

Lemma handle_inv log conn_ctx pre it post type f u s :
  placed log (read_pos s) pre it post (fin s) f -> rst s = false -> done s = false ->
  let '((d, e), u', s') := handle_single_range conn_ctx pre it post type f u s in
  e = None /\ sorter_inv (log ++ [f]) s'.
Proof.
  intros Hp Hr Hd. destruct (placed_item _ _ _ _ _ _ _ Hp) as (H0 & _ & _ & _ & Hend).
  pose proof Hp as (_ & (Hf0 & Hfe & _) & _ & _). pose proof (size_nonneg (fragment f)) as Hs.
  unfold handle_single_range. rewrite Hend, (u64_small (_ + _)) by (unfold is_u64, frag_end in *; lia).
  fold (frag_end f). destruct (Z.leb_spec (frag_end f) (iend it)) as [Hin | Hout].
  - destruct (placed_inside _ _ _ _ _ _ _ Hp Hin) as [Hc ->]. rewrite bool_decide_true by done. cbn [negb].
    pose proof (finish _ conn_ctx u s _ _ _ Hc Hr Hd eq_refl) as H. cbn [app] in H.
    destruct (check_done _ _ _) as [[d u'] s']. by split.
  - destruct (Z.leb_spec (frag_offset f) (iend it)) as [Htouch | Hgap].
    + destruct (placed_extends _ _ _ _ _ _ _ Hp ltac:(lia)) as [Hc ->]. rewrite (@size_nil Z).
      rewrite (rsubstr_inside (fragment f) 0 0) by lia. rewrite (rsubstr_inside (fragment f) 0 u64_max) by (unfold u64_max; lia).
      rewrite take_0, bool_decide_true, drop_0, take_ge by (done || (unfold u64_max, frag_end, size in *; lia)). cbn [negb].
      pose proof (finish _ conn_ctx u s _ _ _ Hc Hr Hd eq_refl) as H. cbn [app] in H.
      destruct (check_done _ _ _) as [[d u'] s']. by split.
    + pose proof (finish _ conn_ctx u s _ _ _ (placed_inserts _ _ _ _ _ _ _ Hp Hgap) Hr Hd eq_refl) as H.
      cbn [pack_new app] in *. rewrite set_sorted_fin. destruct (check_done _ _ _) as [[d u'] s']. by split.
Qed.

Lemma loop_skip conn_ctx type f u s l : forall pre, Forall (fun it => frag_offset f < sf_offset it) l ->
  recv_loop conn_ctx type pre l f u s = recv_loop conn_ctx type (pre ++ l) [] f u s.
Proof.
  induction l as [| it l IH]; intros pre H; [by rewrite app_nil_r |]. apply Forall_cons in H as [H1 H2].
  cbn [recv_loop]. rewrite leb_false by lia. rewrite IH by done. by rewrite <-app_assoc.
Qed.

Lemma loop_find log conn_ctx type f u s l : forall pre it,
  core log (read_pos s) (pre ++ it :: l) (fin s) -> rst s = false -> done s = false ->
  piece f -> read_pos s <= sf_offset it <= frag_offset f ->
  let '((d, e), u', s') := recv_loop conn_ctx type pre (it :: l) f u s in e = None /\ sorter_inv (log ++ [f]) s'.
Proof.
  induction l as [| cp l IH]; intros pre it Hc Hr Hd Hf Hx; cbn [recv_loop]; rewrite leb_true by lia.
  { by apply handle_inv. }
  pose proof (core_ordered _ _ _ _ Hc) as Ho. apply ordered_app_iff in Ho as [_ [_ [Hcp Ho]]].
  assert (Hi : item_ok (read_pos s) cp).
  { pose proof (core_items _ _ _ _ Hc) as Hi. rewrite Forall_app, !Forall_cons in Hi. tauto. }
  pose proof (core_pos _ _ _ _ Hc). pose proof (size_nonneg (fragment f)).
  destruct (Z.leb_spec (sf_offset cp) (frag_offset f)) as [Hle | Hgt].
  { specialize (IH (pre ++ [it]) cp). rewrite <-app_assoc in IH. cbn [recv_loop] in IH.
    rewrite leb_true in IH by lia. apply IH; auto. lia. }
  pose proof Hf as (Hf0 & Hfe & Hfm & Hc1 & Hc2 & Hcut & Hfin).
  assert (Hnext : frag_end f <= sf_offset cp).
  { destruct (Z.le_gt_cases (frag_end f) (sf_offset cp)); [done |]. exfalso.
    destruct Hi as (_ & _ & [Hp | Hp] & _); [lia |]. apply (Hcut _ Hp). lia. }
  rewrite (u64_small (_ + _)) by (unfold is_u64, frag_end in *; lia). fold (frag_end f).
  rewrite leb_true by done. apply handle_inv; [| done | done]. split; [done |]. split; [done |]. split; [lia |]. split; [lia | done].
Qed.

(** A fragment of the stream before everything that is stored. *)
Lemma front_inv log pos l fi f : core log pos l fi -> piece f -> pos <= frag_offset f ->
  Forall (fun it => frag_offset f < sf_offset it) l ->
  core (log ++ [f]) pos (mk_sfrag (frag_offset f) (fragment f) (frag_fin f) :: l) (fi || frag_fin f).
Proof.
  intros Hc (Hf0 & Hfe & Hfm & Hc1 & Hc2 & Hcut & Hfin) Hx Hl. set (n := mk_sfrag _ _ _).
  apply (core_replace log pos [] [] [n] l fi f); [done | | | | by intros ?%Exists_nil | |].
  - split; [done |]. pose proof (core_ordered _ _ _ _ Hc) as Ho. destruct l as [| it l]; [done |]. destruct Ho as [Ho1 Ho2].
    split; [| done]. apply Forall_cons in Hl as [Hl _]. change (iend n) with (frag_end f). simpl.
    pose proof (core_items _ _ _ _ Hc) as Hi. apply Forall_cons in Hi as [(_ & _ & [Hp | Hp] & _) _]; [lia |].
    destruct (Z.le_gt_cases (frag_end f) (sf_offset it)); [lia |]. exfalso. apply (Hcut _ Hp). lia.
  - apply Forall_cons_2; [| done]. split; [done |]. split; [done |]. by split; [right |].
  - intros b. rewrite !stored_cons. change (iend n) with (frag_end f). unfold stored. rewrite Exists_nil. simpl. tauto.
  - intros Hff. apply Exists_cons. left. change (iend n) with (frag_end f). auto.
  - destruct (core_mid _ _ _ _ Hc) as [| (it & k & -> & Hk)]; [by left |].
    apply Forall_cons in Hl as [Hl _]. lia.
Qed.

(** A fragment that begins before the read position brings nothing new. *)
Lemma stale_inv log pos l fi f : core log pos l fi -> piece f -> frag_offset f < pos -> core (log ++ [f]) pos l fi.
Proof.
  intros [Hp Ho Hi Hm Hc Hf] (Hf0 & Hfe & Hfm & Hc1 & Hc2 & Hcut & Hfin) Hx. split; try done.
  intros b. rewrite covered_snoc, Hc. split; [| tauto]. intros [| Hb]; [done |].
  destruct (Z.lt_ge_cases b pos); [left; lia | right]. destruct Hm as [Hm | (it & k & -> & Hk)].
  - exfalso. apply (Hcut _ Hm). lia.
  - apply stored_cons. left. apply Forall_cons in Hi as [(_ & _ & _ & He) _]. destruct Ho as [Ho _].
    destruct (Z.lt_ge_cases b (iend it)); [lia |]. exfalso. pose proof (size_nonneg (sf_data it)).
    apply (Hcut _ He). unfold iend in *. lia.
Qed.

Lemma recv_inv log conn_ctx type f u s : sorter_inv log s -> piece f ->
  let '((d, e), u', s') := recv conn_ctx type f u s in e = None /\ sorter_inv (log ++ [f]) s'.
Proof.
  intros (Hc & Hr & Hd) Hf. unfold recv. destruct (done s) eqn:Ed.
  - split; [done |]. symmetry in Hd. apply andb_true_iff in Hd as [Hfi Hco]. split; [| by rewrite Hfi, Hco, Ed].
    rewrite Hfi in *. pose proof Hc as [Hp Ho Hi Hm Hcov Hfin]. split; try done.
    intros b. rewrite covered_snoc, Hcov. split; [| tauto]. intros [| Hb]; [done |].
    destruct Hf as (Hf0 & Hfe & _). destruct (Z.lt_ge_cases b (read_pos s)); [left; lia | right].
    eapply contiguous_stored; eauto. lia.
  - destruct (Z.ltb_spec (frag_offset f) (read_pos s)) as [Hlt | Hge].
    + destruct (check_done _ _ _) as [[d u'] s'] eqn:E. split; [done |].
      eapply check_done_inv, E; [by apply stale_inv | done | done].
    + destruct (sorted s) as [| it l] eqn:El.
      * cbn [recv_loop pack_new]. rewrite set_sorted_fin.
        pose proof (finish _ conn_ctx u s _ _ _ (front_inv _ _ _ _ _ Hc Hf Hge ltac:(done)) Hr Ed eq_refl) as H.
        destruct (check_done _ _ _) as [[d u'] s']. by split.
      * destruct (Z.le_gt_cases (sf_offset it) (frag_offset f)) as [Hle | Hgt].
        { apply loop_find; try done. destruct (core_ordered _ _ _ _ Hc). lia. }
        assert (Hall : Forall (fun it => frag_offset f < sf_offset it) (it :: l)).
        { apply Forall_forall. intros x Hin. destruct (core_ordered _ _ _ _ Hc) as [_ Ho].
          apply elem_of_cons in Hin as [-> | Hin]; [done |]. pose proof (ordered_lb _ _ _ Ho Hin). lia. }
        rewrite loop_skip by done. cbn [recv_loop pack_new app]. rewrite ltb_true by lia. rewrite set_sorted_fin.
        pose proof (finish _ conn_ctx u s _ _ _ (front_inv _ _ _ _ _ Hc Hf Hge Hall) Hr Ed eq_refl) as H.
        destruct (check_done _ _ _) as [[d u'] s']. by split.
Qed.

(** Reading a whole fragment, and a part of one. *)
Lemma pop_core log pos it l fi : core log pos (it :: l) fi -> sf_offset it = pos -> core log (iend it) l fi.
Proof.
  intros [Hp [_ Ho] Hi Hm Hc Hf] E. apply Forall_cons in Hi as [(Hmt & He & _ & Hcut) Hi].
  pose proof (size_nonneg (sf_data it)) as Hs. unfold iend in *. split.
  - lia.
  - eapply ordered_weaken, Ho. unfold iend. lia.
  - apply Forall_forall. intros x Hx. pose proof (ordered_lb _ _ _ Ho Hx). rewrite Forall_forall in Hi.
    destruct (Hi _ Hx) as (? & ? & [?|?] & ?); [lia |]. split; [done |]. split; [done |]. by split; [right |].
  - by left.
  - intros b. rewrite Hc, stored_cons. unfold iend. split; [intros [? | [? | ?]]; [left; lia | left; lia | by right] |].
    intros [? | ?]; [| tauto]. destruct (Z.lt_ge_cases b pos); [left; lia | right; left; lia].
  - intros H. destruct (Hf H) as [-> | [? | ?]%Exists_cons]; [left; lia | by left | by right].
Qed.

Lemma cut_core log pos it l fi n : core log pos (it :: l) fi -> sf_offset it = pos -> 0 < n < size (sf_data it) ->
  core log (pos + n) (mk_sfrag (pos + n) (drop (Z.to_nat n) (sf_data it)) (sf_fin it) :: l) fi.
Proof.
  intros [Hp [_ Ho] Hi Hm Hc Hf] E Hn. apply Forall_cons in Hi as [(Hmt & He & _ & Hcut) Hi].
  set (it' := mk_sfrag _ _ _).
  assert (Hie : iend it' = iend it) by (unfold iend, size in *; simpl; rewrite length_drop; lia).
  split.
  - unfold iend in He. lia.
  - split; [done |]. rewrite Hie. eapply ordered_weaken, Ho. unfold iend. simpl. lia.
  - apply Forall_cons_2.
    + unfold item_ok. rewrite Hie. split; [| by split; [| split; [left |]]]. simpl. rewrite <-E.
      replace n with (Z.of_nat (Z.to_nat n)) at 1 by lia. apply matches_drop; [unfold size in *; lia | done].
    + apply Forall_forall. intros x Hx. pose proof (ordered_lb _ _ _ Ho Hx). rewrite Forall_forall in Hi.
      destruct (Hi _ Hx) as (? & ? & [?|?] & ?); [lia |]. split; [done |]. split; [done |]. by split; [right |].
  - right. by exists it', l.
  - intros b. rewrite Hc, !stored_cons, Hie. simpl. unfold iend in *.
    destruct (Z.lt_ge_cases b pos), (Z.lt_ge_cases b (pos + n)); intuition lia.
  - intros H. destruct (Hf H) as [-> | [? | ?]%Exists_cons]; [unfold iend in *; lia | |]; right; apply Exists_cons; [left; congruence | by right].
Qed.

Lemma shifted_drop (d : list Z) n : 0 < n < size d ->
  let '(ok, r) := shift d 0 n (size d - n) in ok = true /\ take (Z.to_nat (size d - n)) r = drop (Z.to_nat n) d.
Proof.
  intros Hn. rewrite shift_moves by lia. split; [done |]. unfold moved. change (Z.to_nat 0) with 0%nat. simpl.
  rewrite take_app_length'; [rewrite take_ge; [done |]; rewrite length_drop; unfold size in *; lia |].
  rewrite length_take, length_drop. unfold size in *; lia.
Qed.

Lemma check_offset_ordered lo l : ordered lo l -> check_offset l = true.
Proof. destruct l as [| a [| b l]]; simpl; try done. intros (_ & H & _). apply ltb_true. lia. Qed.

(** What the loop of [read_impl] leaves: the next bytes of the stream, and
    the buffer is full or the byte after them has not arrived. *)
Definition read_result log fi l (pos n : Z) (r : option (list Z * list StreamFragment * Z)) : Prop :=
  exists out l', r = Some (out, l', pos + size out) /\ size out <= n /\ matches st pos out /\
    core log (pos + size out) l' fi /\ contiguous (pos + size out) l' = contiguous pos l /\
    (size out = n \/ ~ stored l' (pos + size out) /\ ~ head_at (pos + size out) l').

Lemma read_nothing log fi l pos n : core log pos l fi -> 0 <= n -> n = 0 \/ ~ stored l pos /\ ~ head_at pos l ->
  read_result log fi l pos n (Some ([], l, pos)).
Proof.
  intros Hc Hn H. exists [], l. rewrite size_nil, Z.add_0_r. split; [done |]. split; [done |]. split; [apply matches_nil |].
  split; [done |]. split; [done |]. destruct H; [left; lia | by right].
Qed.

Lemma gap_nothing log fi it l pos : core log pos (it :: l) fi -> sf_offset it <> pos ->
  ~ stored (it :: l) pos /\ ~ head_at pos (it :: l).
Proof.
  intros Hc Hne. destruct (core_ordered _ _ _ _ Hc) as [Ho1 Ho].
  split; [| by intros (x & k & ? & ?); simplify_eq]. intros [? | Hst]%stored_cons; [lia |].
  apply Exists_exists in Hst as (x & Hx & ?). pose proof (ordered_lb _ _ _ Ho Hx). lia.
Qed.

Lemma read_part log fi it l pos n : core log pos (it :: l) fi -> sf_offset it = pos -> 0 < n < size (sf_data it) ->
  read_result log fi (it :: l) pos n
    (Some (take (Z.to_nat n) (sf_data it), mk_sfrag (pos + n) (drop (Z.to_nat n) (sf_data it)) (sf_fin it) :: l, pos + n)).
Proof.
  intros Hc E Hn. pose proof (core_pos _ _ _ _ Hc) as Hp. pose proof (cut_core _ _ _ _ _ n Hc E Hn) as Hc'.
  pose proof (core_items _ _ _ _ Hc) as [Hi _]%Forall_cons. pose proof (core_items _ _ _ _ Hc') as [Hi' _]%Forall_cons.
  assert (Hs : size (take (Z.to_nat n) (sf_data it)) = n) by (unfold size in *; rewrite length_take; lia).
  eexists _, _. rewrite Hs. split; [done |]. split; [lia |]. split; [rewrite <-E; by apply matches_take, Hi |]. split; [done |].
  split; [| by left]. cbn [contiguous sf_offset]. rewrite E, !Z.eqb_refl. cbn [negb]. f_equal.
  rewrite (fend_iend pos it ltac:(lia) Hi) by lia. rewrite (fend_iend (pos + n) _ ltac:(lia) Hi') by (simpl; lia).
  unfold iend, size in *. simpl. rewrite length_drop. lia.
Qed.

Lemma read_whole log fi it l pos n r : core log pos (it :: l) fi -> sf_offset it = pos ->
  read_result log fi l (iend it) (n - size (sf_data it)) r ->
  read_result log fi (it :: l) pos n (match r with Some (out, l, pos) => Some (sf_data it ++ out, l, pos) | None => None end).
Proof.
  intros Hc E (out & l' & -> & H1 & H2 & H3 & H4 & H5).
  pose proof (core_pos _ _ _ _ Hc). pose proof (core_items _ _ _ _ Hc) as [Hi _]%Forall_cons.
  assert (Hs : pos + size (sf_data it ++ out) = iend it + size out) by (rewrite size_app; unfold iend; lia).
  exists (sf_data it ++ out), l'. rewrite Hs. split; [done |]. split; [rewrite size_app; lia |].
  split; [apply matches_app; split; [rewrite <-E; apply Hi | rewrite <-E; done] |]. split; [done |].
  split; [| destruct H5; [left; rewrite size_app; lia | by right]].
  cbn [contiguous]. rewrite E, Z.eqb_refl, (fend_iend pos it ltac:(lia) Hi) by lia. done.
Qed.

Lemma read_loop_spec log fi l : forall pos n, core log pos l fi -> 0 <= n -> read_result log fi l pos n (read_loop l pos n).
Proof.
  induction l as [| it l IH]; intros pos n Hc Hn; cbn [read_loop].
  { apply read_nothing; [done | done |]. right. split; [by intros ?%Exists_nil | by intros (? & ? & ? & _)]. }
  destruct (Z.leb_spec n 0); [apply read_nothing; auto with lia |].
  pose proof (core_pos _ _ _ _ Hc) as Hp. pose proof (core_items _ _ _ _ Hc) as [(_ & He & _) _]%Forall_cons.
  destruct (Z.eqb_spec (sf_offset it) pos) as [E | Hne]; cbn [negb].
  2: { rewrite (check_offset_ordered pos) by apply Hc. apply read_nothing; [done | done |]. right. by eapply gap_nothing. }
  destruct (Z.ltb_spec n (size (sf_data it))) as [Hlt | Hge].
  - pose proof (shifted_drop (sf_data it) n ltac:(lia)) as Hs. destruct (shift _ _ _ _) as [ok r]. destruct Hs as [_ ->].
    rewrite E, !u64_small by (unfold is_u64, iend in *; lia).
    rewrite (check_offset_ordered (pos + n)) by (eapply (cut_core log); eauto with lia). apply read_part; auto with lia.
  - pose proof (pop_core _ _ _ _ _ Hc E) as Hc'. replace (pos + size (sf_data it)) with (iend it) by (unfold iend; lia).
    pose proof (core_pos _ _ _ _ Hc'). rewrite u64_small by (unfold is_u64; lia). apply read_whole; auto with lia.
Qed.

Lemma sorter_read_inv log n s : sorter_inv log s -> 0 <= n ->
  exists bs eos s', read_impl n s = Some ((bs, eos), s') /\ sorter_inv log s' /\ read_pos s' = read_pos s + size bs /\
    fin s' = fin s /\ size bs <= n /\ matches st (read_pos s) bs /\
    (size bs = n \/ ~ covered log (read_pos s')) /\ (eos = true -> read_pos s' = final) /\
    (fin s = true -> final - read_pos s < n -> (forall b, 0 <= b < final -> covered log b) -> eos = true).
Proof.
  intros (Hc & Hr & Hd) Hn.
  destruct (read_loop_spec _ _ _ _ _ Hc Hn) as (out & l' & E & H1 & H2 & H3 & H4 & H5). unfold read_impl. rewrite E.
  eexists _, _, _. split; [done |]. simpl.
  assert (Hcov : ~ covered log (read_pos s + size out) <-> ~ stored l' (read_pos s + size out)).
  { rewrite (core_cover _ _ _ _ H3). intuition lia. }
  split; [unfold sorter_inv; simpl; split; [done |]; split; [done |]; by rewrite H4 |]. split; [done |]. split; [done |]. split; [done |]. split; [done |].
  split; [tauto |]. unfold at_end. split.
  - intros [Hz Hdone]%andb_true_iff. rewrite Hd in Hdone. apply andb_true_iff in Hdone as [Hfi _].
    destruct l'; [| unfold size in Hz; simpl in Hz; lia].
    destruct (core_fin _ _ _ _ H3 Hfi) as [| ?%Exists_nil]; done.
  - intros Hfi Hroom Hall. pose proof (core_pos _ _ _ _ H3) as Hp. destruct H5 as [? | [Hst Hhd]]; [lia |].
    assert (Hend : read_pos s + size out = final).
    { destruct (Z.lt_ge_cases (read_pos s + size out) final); [| lia]. exfalso. apply Hcov; [done |]. apply Hall. lia. }
    assert (Hnil : l' = []).
    { destruct l' as [| it l']; [done |]. exfalso. apply Hhd. exists it, l'. split; [done |].
      destruct (core_ordered _ _ _ _ H3) as [Ho _]. pose proof (core_items _ _ _ _ H3) as [(_ & He & _) _]%Forall_cons.
      pose proof (size_nonneg (sf_data it)). unfold iend in He. lia. }
    subst l'. rewrite Hd, Hfi. simpl in *. by rewrite <-H4.
Qed.
End facts.
End SorterFacts.

(** Receiving never moves the read position. *)
Lemma check_done_read_pos {U} conn_ctx u (s : RecvSorter.t U) : read_pos (snd (check_done conn_ctx u s)) = read_pos s.
Proof. unfold check_done. destruct (sorted s); [| destruct (_ && _)]; simpl; repeat case_match; done. Qed.

Lemma handle_read_pos {U} conn_ctx pre it post type f u (s : RecvSorter.t U) :
  read_pos (snd (handle_single_range conn_ctx pre it post type f u s)) = read_pos s.
Proof.
  unfold handle_single_range, pack_new. repeat case_match; simplify_eq/=; try done;
  match goal with H : check_done ?a ?b ?c = _ |- _ => pose proof (check_done_read_pos a b c) as Hp; rewrite H in Hp; done end.
Qed.

Lemma recv_read_pos {U} conn_ctx type f u (s : RecvSorter.t U) :
  read_pos (snd (RecvSorter.recv conn_ctx type f u s)) = read_pos s.
Proof.
  unfold RecvSorter.recv. destruct (done s); [done |]. destruct (_ <? _).
  { pose proof (check_done_read_pos conn_ctx u s). by destruct (check_done _ _ _) as [[? ?] ?]. }
  generalize (@nil StreamFragment) as pre. revert f. generalize (sorted s) as l. intros l.
  induction l as [| it l IH]; intros f pre; cbn [recv_loop].
  { unfold pack_new. match goal with |- context [check_done ?a ?b ?c] => pose proof (check_done_read_pos a b c) as Hp; destruct (check_done a b c) as [[? ?] ?] end.
    simpl in *. by rewrite Hp. }
  destruct (_ <=? _); [| apply IH]. destruct l as [| cp l]; [apply handle_read_pos |].
  destruct (_ <=? _); [apply IH |]. destruct (_ <=? _); [apply handle_read_pos |]. destruct (negb _); [done | apply IH].
Qed.

(** FIN is remembered, unless its fragment begins before the read position. *)
Definition takes_fin {U} (f : Fragment) (s : RecvSorter.t U) : bool := frag_fin f && (read_pos s <=? frag_offset f).

Lemma check_done_fin {U} conn_ctx u (s : RecvSorter.t U) : fin (snd (check_done conn_ctx u s)) = fin s.
Proof. unfold check_done. destruct (sorted s); [| destruct (_ && _)]; simpl; repeat case_match; done. Qed.

Lemma handle_fin {U} conn_ctx pre it post type f u (s : RecvSorter.t U) :
  snd (fst (fst (handle_single_range conn_ctx pre it post type f u s))) = None ->
  fin (snd (handle_single_range conn_ctx pre it post type f u s)) = fin s || frag_fin f.
Proof.
  unfold handle_single_range, pack_new. repeat case_match; simplify_eq/=; try done; intros _;
  match goal with H : check_done ?a ?b ?c = _ |- _ => pose proof (check_done_fin a b c) as Hp; rewrite H in Hp; done end.
Qed.

Lemma recv_fin {U} conn_ctx type f u (s : RecvSorter.t U) :
  snd (fst (fst (RecvSorter.recv conn_ctx type f u s))) = None -> (done s = true -> fin s = true) ->
  fin (snd (RecvSorter.recv conn_ctx type f u s)) = fin s || takes_fin f s.
Proof.
  unfold RecvSorter.recv, takes_fin. intros E Hd. destruct (done s); [simpl; by rewrite (Hd eq_refl) |]. rewrite Z.ltb_antisym in *.
  destruct (read_pos s <=? frag_offset f); simpl in *; rewrite ?andb_true_r, ?andb_false_r, ?orb_false_r.
  2: { pose proof (check_done_fin conn_ctx u s). by destruct (check_done _ _ _) as [[? ?] ?]. }
  clear Hd. revert E. generalize (@nil StreamFragment) as pre. revert f. generalize (sorted s) as l. intros l.
  induction l as [| it l IH]; intros f pre; cbn [recv_loop].
  { unfold pack_new. match goal with |- context [check_done ?a ?b ?c] => pose proof (check_done_fin a b c) as Hp; destruct (check_done a b c) as [[? ?] ?] end.
    simpl in *. by rewrite Hp. }
  destruct (_ <=? _); [| apply IH]. destruct l as [| cp l]; [apply handle_fin |].
  destruct (_ <=? _); [apply IH |]. destruct (_ <=? _); [apply handle_fin |]. destruct (negb _); [intros E; discriminate E |].
  intros E. by rewrite IH.
Qed.

(** ** Delivery in order *)

Import SorterFacts.

(** What happens to the buffer: fragments of the stream arrive, the user
    reads. The components before the buffer are all that arrived, whether a
    FIN arrived in a fragment not before the read position, and all that was
    read. *)
Inductive sorter_step {U} (st : Z -> Z) (cut : Z -> Prop) (final : Z)
    : list Fragment * bool * list Z * RecvSorter.t U -> list Fragment * bool * list Z * RecvSorter.t U -> Prop :=
  | step_recv conn_ctx type f u log seen out s :
      piece st cut final f ->
      sorter_step st cut final (log, seen, out, s)
        (log ++ [f], seen || takes_fin f s, out, snd (RecvSorter.recv conn_ctx type f u s))
  | step_read n log seen out s bs eos s' :
      0 <= n -> read_impl n s = Some ((bs, eos), s') -> sorter_step st cut final (log, seen, out, s) (log, seen, out ++ bs, s')
  | step_read_direct log seen out s :
      sorter_step st cut final (log, seen, out, s) (log, seen, out ++ fst (fst (read_direct_impl s)), snd (read_direct_impl s)).

(** The invariant of a run. *)
Definition run_inv {U} st cut final (x : list Fragment * bool * list Z * RecvSorter.t U) : Prop :=
  let '(log, seen, out, s) := x in
  sorter_inv st cut final log s /\ matches st 0 out /\ size out = read_pos s /\ fin s = seen.

Lemma read_direct_inv {U} st cut final log (s : RecvSorter.t U) :
  0 <= final < 2 ^ 62 -> sorter_inv st cut final log s ->
  let '((bs, eos), s') := read_direct_impl s in
  sorter_inv st cut final log s' /\ read_pos s' = read_pos s + size bs /\ matches st (read_pos s) bs.
Proof.
  intros Hfin (Hc & Hr & Hd). unfold read_direct_impl. destruct (sorted s) as [| it l] eqn:E.
  { rewrite size_nil. split; [by split; rewrite ?E |]. split; [lia | apply matches_nil]. }
  destruct (Z.eqb_spec (sf_offset it) (read_pos s)) as [Ep | Hne]; cbn [negb].
  2: { rewrite size_nil. split; [by split; rewrite ?E |]. split; [lia | apply matches_nil]. }
  pose proof (core_items _ _ _ _ _ _ _ Hc) as [Hi _]%Forall_cons. pose proof (core_pos _ _ _ _ _ _ _ Hc) as Hp.
  pose proof (pop_core _ _ _ Hfin _ _ _ _ _ Hc Ep) as Hc'. pose proof (core_pos _ _ _ _ _ _ _ Hc') as Hp'.
  rewrite <-Ep. fold (iend it). rewrite u64_small by (unfold is_u64; lia).
  split; [| split; [done | apply Hi]]. split; [done |]. split; [done |]. simpl. rewrite Hd. simpl. rewrite Ep, Z.eqb_refl.
  by rewrite (fend_iend st cut final Hfin (read_pos s) it) by (done || lia).
Qed.

Lemma sorter_steps_inv {U} st cut final (x y : list Fragment * bool * list Z * RecvSorter.t U) :
  0 <= final < 2 ^ 62 -> rtc (sorter_step st cut final) x y -> run_inv st cut final x -> run_inv st cut final y.
Proof.
  intros Hfin. induction 1 as [| x y z Hs _ IH]; [done |]. intros Hx. apply IH. clear IH.
  destruct Hs as [conn_ctx type f u log seen out s Hf | n log seen out s bs eos s' Hn Hrd | log seen out s]; destruct Hx as (Hi & Hm & He & Hseen); simpl.
  - pose proof (recv_inv st cut final Hfin log conn_ctx type f u s Hi Hf) as H.
    pose proof (recv_read_pos conn_ctx type f u s) as Hpos. pose proof (recv_fin conn_ctx type f u s) as Hfi.
    destruct (RecvSorter.recv _ _ _ _ _) as [[[d e] u'] s']. simpl in *. rewrite Hpos.
    destruct H as [H1 H2]. rewrite Hfi, Hseen; [tauto | tauto |]. destruct Hi as (_ & _ & ->). by intros [-> _]%andb_true_iff.
  - destruct (sorter_read_inv st cut final Hfin log n s Hi Hn) as (bs' & eos' & s2 & E & Hi' & Hp & Hf & _ & Hb & _).
    simplify_eq. split; [done |]. rewrite size_app. split; [apply matches_app; by rewrite He | split; [lia | done]].
  - pose proof (read_direct_inv st cut final log s Hfin Hi) as H.
    assert (Hf : fin (snd (read_direct_impl s)) = fin s) by (unfold read_direct_impl; repeat case_match; done).
    destruct (read_direct_impl s) as [[bs eos] s']. simpl in *.
    destruct H as (Hi' & Hp & Hb). split; [done |]. rewrite size_app. split; [apply matches_app; by rewrite He | split; [lia | congruence]].
Qed.

Lemma new_inv {U} st cut final (cb : option (Z -> U -> U)) : 0 <= final < 2 ^ 62 -> cut 0 ->
  sorter_inv st cut final [] (set_data_added_cb cb new).
Proof.
  intros Hf Hc. split; [| done]. split; simpl; try done; [lia | by left |].
  intros b. unfold covered, stored. rewrite !Exists_nil. intuition lia.
Qed.

(** C15. The bytes of a stream are read in order, whatever the order in which its
    fragments arrive and however often: when the peer repeats data only in
    the fragments it was first sent in, no fragment is refused, what was read
    is the beginning of the stream, and a further read yields the bytes that
    follow until the buffer is full or a byte is missing. The end is reported
    only when the whole stream was read and a FIN has arrived in a fragment
    that did not begin before the read position ([seen]); and once such a FIN
    and everything else has arrived, a read with room to spare reports it. A
    FIN in a fragment that begins before the read position is forgotten. *)
Theorem sorter_in_order {U} st cut final (cb : option (Z -> U -> U)) log seen out s :
  0 <= final < 2 ^ 62 -> cut 0 ->
  rtc (sorter_step st cut final) ([], false, [], set_data_added_cb cb new) (log, seen, out, s) ->
  out = slice st 0 (Z.to_nat (read_pos s)) /\
  (forall conn_ctx type f u, piece st cut final f -> snd (fst (fst (RecvSorter.recv conn_ctx type f u s))) = None) /\
  (forall n, 0 <= n -> exists bs eos s', read_impl n s = Some ((bs, eos), s') /\ bs = slice st (read_pos s) (length bs) /\
     (size bs = n \/ ~ covered log (read_pos s')) /\ (eos = true -> read_pos s' = final /\ seen = true) /\
     (seen = true -> final - read_pos s < n -> (forall b, 0 <= b < final -> covered log b) ->
      eos = true /\ out ++ bs = slice st 0 (Z.to_nat final))).
Proof.
  intros Hf Hc0 Hsteps. apply sorter_steps_inv in Hsteps as (Hi & Hm & Hs & Hseen); [| done |].
  2: { split; [by apply new_inv | by split; [apply matches_nil |]]. }
  split; [| split].
  - apply (matches_eq st 0); [done | apply matches_slice |]. unfold slice. rewrite length_fmap, length_seq. unfold size in Hs. lia.
  - intros c ty f u Hp. pose proof (recv_inv st cut final Hf log c ty f u s Hi Hp) as H.
    destruct (RecvSorter.recv _ _ _ _ _) as [[[? ?] ?] ?]. tauto.
  - intros n Hn. destruct (sorter_read_inv st cut final Hf log n s Hi Hn) as (bs & eos & s' & E & Hi' & Hp & Hfi & Hle & Hb & H1 & H2 & H3).
    exists bs, eos, s'. split; [done |].
    split; [apply (matches_eq st (read_pos s)); [done | apply matches_slice | by unfold slice; rewrite length_fmap, length_seq] |].
    split; [done |]. split.
    { intros He. split; [by apply H2 |]. unfold read_impl in E. destruct (read_loop _ _ _) as [[[o l] pos] |]; [| done].
      injection E as _ Ee _. rewrite He in Ee. apply andb_true_iff in Ee as [_ Ee]. destruct Hi as (_ & _ & Hd).
      rewrite Hd in Ee. apply andb_true_iff in Ee as [Ee _]. congruence. }
    intros Hse Hroom Hall. rewrite <- Hseen in Hse. specialize (H3 Hse Hroom Hall). split; [done |]. specialize (H2 H3).
    apply (matches_eq st 0); [apply matches_app; by rewrite Hs | apply matches_slice |].
    unfold slice. rewrite length_fmap, length_seq, length_app. unfold size in *. lia.
Qed.

(** ** Fragments with other boundaries *)

Lemma check_done_sorted {U} conn_ctx u (s : RecvSorter.t U) : sorted (snd (check_done conn_ctx u s)) = sorted s.
Proof. unfold check_done. destruct (sorted s) eqn:E; [| destruct (_ && _)]; simpl; repeat case_match; simpl; done. Qed.

(** The round of the loop for a fragment that reaches into the second of two
    stored ones. *)
Lemma crossing_step {U} conn_ctx type f u (s : RecvSorter.t U) a c :
  sorted s = [a; c] -> done s = false -> sf_offset a = read_pos s -> 0 <= read_pos s ->
  sf_offset a <= frag_offset f < sf_offset c -> iend a <= sf_offset c -> sf_offset c < frag_end f < 2 ^ 62 ->
  let cmp1 := rsubstr (sf_data a) (frag_offset f - sf_offset a) u64_max in
  cmp1 = rsubstr (fragment f) 0 (size cmp1) ->
  RecvSorter.recv conn_ctx type f u s =
    handle_single_range conn_ctx
      [mk_sfrag (sf_offset a) (sf_data a ++ rsubstr (fragment f) (size cmp1) (sf_offset c - iend a)) (sf_fin a)] c [] type
      (mk_fragment (sf_offset c) (rsubstr (fragment f) (sf_offset c - iend a) u64_max) (frag_fin f)) u s.
Proof.
  intros Es Hd Ea Hp Hx Hac Hy cmp1 Hcmp. pose proof (size_nonneg (sf_data a)) as H1.
  assert (Hfa : fend a = iend a) by (unfold fend, iend in *; apply u64_small; unfold is_u64; lia).
  unfold RecvSorter.recv, frag_end in *. rewrite Hd, ltb_false, Es by lia. cbn [recv_loop]. rewrite Hfa.
  rewrite leb_true, leb_false, (u64_small (_ + _)), leb_false by (unfold is_u64; lia).
  rewrite (u64_small (frag_offset f - _)), (u64_small (sf_offset c - _)) by (unfold is_u64, iend in *; lia). fold cmp1.
  rewrite bool_decide_true by done. cbn [negb]. rewrite leb_true by (simpl; lia). done.
Qed.

(** Data is put in the wrong place without an error: when a fragment begins
    in the gap between two stored ones, reaches into the second and is not
    longer than the gap, its bytes are appended to the first one, and the
    user reads them at the position of the gap. *)
Theorem gap_fragment_corrupts {U} conn_ctx type f u (s : RecvSorter.t U) a c :
  sorted s = [a; c] -> done s = false -> sf_offset a = read_pos s -> 0 <= read_pos s -> iend c < 2 ^ 62 ->
  iend a < frag_offset f < sf_offset c -> sf_offset c < frag_end f < 2 ^ 62 -> size (fragment f) <= sf_offset c - iend a ->
  exists d u' s', RecvSorter.recv conn_ctx type f u s = ((d, None), u', s') /\
    exists eos s'', read_impl (size (sf_data a) + size (fragment f)) s' = Some ((sf_data a ++ fragment f, eos), s'') /\
      read_pos s'' = iend a + size (fragment f).
Proof.
  intros Es Hd Ea Hp Hc Hx Hy Hlen. pose proof (size_nonneg (sf_data a)) as H1. pose proof (size_nonneg (sf_data c)) as H2.
  pose proof (size_nonneg (fragment f)) as H3.
  assert (Hr : rsubstr (sf_data a) (frag_offset f - sf_offset a) u64_max = []).
  { unfold rsubstr, iend in *. rewrite ltb_true by lia. done. }
  rewrite (crossing_step conn_ctx type f u s a c Es Hd Ea Hp ltac:(unfold iend in *; lia) ltac:(lia) Hy) by (rewrite Hr; change (size (@nil Z)) with 0; by rewrite rsubstr_inside by lia).
  rewrite Hr. change (size (@nil Z)) with 0. rewrite (rsubstr_inside (fragment f) 0) by lia. rewrite drop_0. rewrite (take_ge (fragment f)) by (unfold size in *; lia).
  replace (rsubstr (fragment f) (sf_offset c - iend a) u64_max) with (@nil Z).
  2: { unfold rsubstr. destruct (Z.ltb_spec (size (fragment f)) (sf_offset c - iend a)); [done |].
       rewrite drop_ge by (unfold size in *; lia). by rewrite take_nil. }
  unfold handle_single_range, fend, iend, frag_end in *. cbn [frag_offset fragment app]. change (size (@nil Z)) with 0.
  rewrite Z.add_0_r, Z.sub_diag, !u64_small, leb_true by (unfold is_u64; lia).
  rewrite rsubstr_inside, drop_0, take_0, bool_decide_true by (done || lia). cbn [negb].
  set (a' := mk_sfrag _ _ _). set (s1 := set_fin _ _).
  pose proof (check_done_sorted conn_ctx u s1) as Hs1. pose proof (check_done_read_pos conn_ctx u s1) as Hp1.
  destruct (check_done conn_ctx u s1) as [[d u'] s']. exists d, u', s'. split; [done |]. simpl in *.
  unfold read_impl. rewrite Hs1, Hp1. cbn [read_loop]. cbn [sf_data sf_offset a']. rewrite Ea, Z.eqb_refl, size_app. cbn [negb].
  rewrite leb_false, ltb_false by lia. rewrite Z.sub_diag. cbn [read_loop]. rewrite leb_true by lia.
  rewrite u64_small by (unfold is_u64; lia). rewrite app_nil_r. eexists _, _. split; [done |]. simpl. lia.
Qed.

Lemma misaligned_refused {U} conn_ctx pre c type g fi u (s : RecvSorter.t U) (i : nat) x y :
  0 <= sf_offset c -> iend c < 2 ^ 62 -> sf_offset c + size g < 2 ^ 64 ->
  sf_data c !! i = Some x -> g !! i = Some y -> x <> y ->
  exists u' s', handle_single_range conn_ctx pre c [] type (mk_fragment (sf_offset c) g fi) u s =
    ((false, Some (fragment_error type)), u', s').
Proof.
  intros H0 Hc Hg Hx Hy Hne. pose proof (size_nonneg (sf_data c)) as H1. pose proof (size_nonneg g) as H2.
  pose proof (lookup_lt_Some _ _ _ Hx) as Lx. pose proof (lookup_lt_Some _ _ _ Hy) as Ly.
  unfold handle_single_range, fend, iend in *. cbn [frag_offset fragment].
  rewrite Z.sub_diag, !u64_small by (unfold is_u64; lia).
  destruct (Z.leb_spec (sf_offset c + size g) (sf_offset c + size (sf_data c))).
  - rewrite bool_decide_false; [by eexists _, _ |]. rewrite rsubstr_inside, drop_0 by lia. intros E.
    assert (Ht : take (Z.to_nat (size g)) (sf_data c) !! i = Some x) by (rewrite lookup_take_lt; [done | unfold size; lia]).
    congruence.
  - rewrite leb_true by lia. rewrite bool_decide_false; [by eexists _, _ |].
    rewrite (rsubstr_inside (sf_data c)), drop_0, take_ge by (unfold u64_max, size in *; lia). rewrite rsubstr_inside, drop_0 by lia. intros E.
    assert (Ht : take (Z.to_nat (size (sf_data c))) g !! i = Some y) by (rewrite lookup_take_lt; [done | unfold size; lia]).
    congruence.
Qed.

(** A repetition with other boundaries is refused as a violation of the
    peer: when a fragment begins within a stored one and reaches into the
    next, the bytes compared with the next one are taken [iend a -
    frag_offset f] places too early in the fragment. *)
Theorem refragmented_refused {U} st conn_ctx type f u (s : RecvSorter.t U) a c i :
  sorted s = [a; c] -> done s = false -> sf_offset a = read_pos s -> 0 <= read_pos s ->
  matches st (sf_offset a) (sf_data a) -> matches st (sf_offset c) (sf_data c) -> matches st (frag_offset f) (fragment f) ->
  iend c < 2 ^ 62 -> sf_offset a <= frag_offset f <= iend a -> iend a <= sf_offset c -> frag_offset f < sf_offset c ->
  sf_offset c < frag_end f < 2 ^ 62 ->
  0 <= i < size (sf_data c) -> i < size (fragment f) - (sf_offset c - iend a) ->
  st (sf_offset c + i) <> st (sf_offset c + i - (iend a - frag_offset f)) ->
  exists u' s', RecvSorter.recv conn_ctx type f u s = ((false, Some (fragment_error type)), u', s').
Proof.
  intros Es Hd Ea Hp Ma Mc Mf Hc Hx Hac Hlt Hy Hi1 Hi2 Hdiff. pose proof (size_nonneg (sf_data a)) as H1.
  assert (Hcmp : rsubstr (sf_data a) (frag_offset f - sf_offset a) u64_max = rsubstr (fragment f) 0 (iend a - frag_offset f)
                 /\ size (rsubstr (sf_data a) (frag_offset f - sf_offset a) u64_max) = iend a - frag_offset f).
  { unfold iend, frag_end in *. rewrite !rsubstr_inside, drop_0 by (unfold u64_max; lia).
    rewrite take_ge by (rewrite length_drop; unfold u64_max, size in *; lia).
    split; [| unfold size in *; rewrite length_drop; lia]. eapply (matches_eq st (frag_offset f)); [| by apply matches_take |].
    - replace (frag_offset f) with (sf_offset a + Z.of_nat (Z.to_nat (frag_offset f - sf_offset a))) at 1 by lia.
      apply matches_drop; [unfold size in *; lia | done].
    - rewrite length_take, length_drop. unfold size in *. lia. }
  destruct Hcmp as [Hcmp Hsz].
  rewrite (crossing_step conn_ctx type f u s a c Es Hd Ea Hp) by (rewrite ?Hsz; done || lia).
  unfold iend, frag_end in *. rewrite (rsubstr_inside (fragment f) (_ - _)), (take_ge (drop _ _)) by (unfold u64_max, size in *; rewrite ?length_drop; lia).
  destruct (lookup_lt_is_Some_2 (sf_data c) (Z.to_nat i)) as [x Hx']; [unfold size in *; lia |].
  set (g := drop _ (fragment f)).
  destruct (lookup_lt_is_Some_2 g (Z.to_nat i)) as [y Hy']; [subst g; rewrite length_drop; unfold size in *; lia |].
  eapply misaligned_refused; [lia | done | | exact Hx' | exact Hy' |].
  - subst g. unfold size in *. rewrite length_drop. lia.
  - subst g. rewrite lookup_drop in Hy'. rewrite (Mc _ _ Hx'), (Mf _ _ Hy'). intros Heq. apply Hdiff.
    replace (sf_offset c + i) with (sf_offset c + Z.of_nat (Z.to_nat i)) by lia. rewrite Heq. f_equal. lia.
Qed.

(** ** Instances *)

Definition counting : Z -> Z := fun i => i mod 256.
Definition counting_cut (c : Z) : Prop := c = 0 \/ c = 3 \/ c = 5 \/ c = 8.
Definition counting_frag (a : Z) (n : nat) (fi : bool) : Fragment := mk_fragment a (slice counting a n) fi.

Lemma counting_piece a n fi : counting_cut a -> counting_cut (a + Z.of_nat n) ->
  (forall c, counting_cut c -> ~ a < c < a + Z.of_nat n) -> (fi = true -> a + Z.of_nat n = 8) ->
  piece counting counting_cut 8 (counting_frag a n fi).
Proof.
  intros H1 H2 H3 H4. assert (He : frag_end (counting_frag a n fi) = a + Z.of_nat n).
  { unfold frag_end, size. simpl. unfold slice. by rewrite length_fmap, length_seq. }
  unfold piece. rewrite He. simpl. unfold counting_cut in *.
  split; [lia |]. split; [lia |]. split; [apply matches_slice |]. split; [done |]. split; [done |]. by split.
Qed.

(** The last fragment arrives first, then the first one; two bytes are read;
    then the fragment between them arrives, and the rest is read. *)
Lemma sorter_in_order_witness :
  let s0 : RecvSorter.t unit := set_data_added_cb None new in
  let s1 := snd (RecvSorter.recv true 8 (counting_frag 5 3 true) tt s0) in
  let s2 := snd (RecvSorter.recv true 8 (counting_frag 0 3 false) tt s1) in
  exists s3, read_impl 2 s2 = Some (([0; 1], false), s3) /\
  let s4 := snd (RecvSorter.recv true 8 (counting_frag 3 2 false) tt s3) in
  exists bs s5, read_impl 10 s4 = Some ((bs, true), s5) /\ [0; 1] ++ bs = [0; 1; 2; 3; 4; 5; 6; 7].
Proof.
  intros s0 s1 s2. eexists. split; [reflexivity |]. intros s4.
  set (log := [counting_frag 5 3 true; counting_frag 0 3 false; counting_frag 3 2 false]).
  destruct (sorter_in_order counting counting_cut 8 (@None (Z -> unit -> unit)) log true [0; 1] s4) as (_ & _ & H).
  - lia.
  - by left.
  - eapply rtc_l. { apply (step_recv _ _ _ true 8 (counting_frag 5 3 true) tt). apply counting_piece; unfold counting_cut; lia. }
    eapply rtc_l. { apply (step_recv _ _ _ true 8 (counting_frag 0 3 false) tt). apply counting_piece; unfold counting_cut; lia. }
    eapply rtc_l. { eapply (step_read _ _ _ 2); [lia | reflexivity]. }
    eapply rtc_l. { apply (step_recv _ _ _ true 8 (counting_frag 3 2 false) tt). apply counting_piece; unfold counting_cut; lia. }
    apply rtc_refl.
  - destruct (H 10 ltac:(lia)) as (bs & eos & s5 & E & _ & _ & _ & He). exists bs, s5.
    destruct He as [-> He]; [reflexivity | vm_compute; reflexivity | | by split].
    intros b Hb. unfold covered, log. rewrite !Exists_cons. unfold frag_end. simpl. unfold size. simpl. lia.
Defined.

Definition two_ranges : RecvSorter.t unit :=
  set_sorted [mk_sfrag 0 (slice counting 0 10) false; mk_sfrag 20 (slice counting 20 10) false] new.

Lemma gap_fragment_corrupts_witness :
  exists d u' s', RecvSorter.recv true 8 (counting_frag 15 10 false) tt two_ranges = ((d, None), u', s') /\
    exists eos s'', read_impl 20 s' = Some ((slice counting 0 10 ++ slice counting 15 10, eos), s'') /\ read_pos s'' = 20.
Proof.
  apply (gap_fragment_corrupts true 8 (counting_frag 15 10 false) tt two_ranges
    (mk_sfrag 0 (slice counting 0 10) false) (mk_sfrag 20 (slice counting 20 10) false)); vm_compute; split_and?; reflexivity || discriminate.
Defined.

Lemma refragmented_refused_witness :
  exists u' s', RecvSorter.recv true 8 (counting_frag 5 20 false) tt two_ranges = ((false, Some (fragment_error 8)), u', s').
Proof.
  apply (refragmented_refused counting true 8 (counting_frag 5 20 false) tt two_ranges
    (mk_sfrag 0 (slice counting 0 10) false) (mk_sfrag 20 (slice counting 20 10) false) 0);
  try apply matches_slice; vm_compute; split_and?; reflexivity || discriminate.
Defined.
