(* ===== verification/StreamConn.v ===== *)
(** * StreamConn: the streams of a connection

    Models [fnet/quic/stream/impl/conn.h], conn_handler.h and
    conn_handler_interface.h: the four tables of streams, creation by either
    end, dispatch of the frames of a peer, sending, removal. The streams
    share the flow control of the connection; the receiver a user attached to
    a stream is in [savers], its state in [user]. The tables are hash maps:
    the order in which one is walked is the argument [order]. The callbacks
    of the user are the class [ConnHandler]. *)

From stdpp Require Import base list gmap strings.
From Stdlib Require Import ZArith Lia.
From S2P Require Import Prelude Bytes Varint Types FrameBase FrameStream FrameParse StreamId StreamState ConnBase StreamBase AckRecord StreamImpl.

#[local] Open Scope string_scope.
#[local] Open Scope Z_scope.
#[local] Open Scope list_scope.

(** [frame.type.type_detail()] *)
Definition type_detail_of (a : AnyFrame) : Z :=
  FrameFlags.type_detail (on_frame (fun F _ _ f => f_type f) (fun t => t) a).

Module Conn.
Record t (V : Type) := mk {
  control : ConnFlowControl.t;
  local_uni : gmap Z SendUniStream.t;
  local_bidi : gmap Z BidiStream.t;
  remote_uni : gmap Z RecvUniStream.t;
  remote_bidi : gmap Z BidiStream.t;
  remove_auto : bool;
  savers : gmap Z (FragmentSaver V);
  user : V
}.
Arguments mk {V}. Arguments control {V}. Arguments local_uni {V}. Arguments local_bidi {V}. Arguments remote_uni {V}.
Arguments remote_bidi {V}. Arguments remove_auto {V}. Arguments savers {V}. Arguments user {V}.

Section state.
Context {V : Type}.
Implicit Types c : t V.

Definition set_control x c : t V := mk x (local_uni c) (local_bidi c) (remote_uni c) (remote_bidi c) (remove_auto c) (savers c) (user c).
Definition set_local_uni x c : t V := mk (control c) x (local_bidi c) (remote_uni c) (remote_bidi c) (remove_auto c) (savers c) (user c).
Definition set_local_bidi x c : t V := mk (control c) (local_uni c) x (remote_uni c) (remote_bidi c) (remove_auto c) (savers c) (user c).
Definition set_remote_uni x c : t V := mk (control c) (local_uni c) (local_bidi c) x (remote_bidi c) (remove_auto c) (savers c) (user c).
Definition set_remote_bidi x c : t V := mk (control c) (local_uni c) (local_bidi c) (remote_uni c) x (remove_auto c) (savers c) (user c).
Definition set_user x c : t V := mk (control c) (local_uni c) (local_bidi c) (remote_uni c) (remote_bidi c) (remove_auto c) (savers c) x.
Definition set_auto_remove b c : t V := mk (control c) (local_uni c) (local_bidi c) (remote_uni c) (remote_bidi c) b (savers c) (user c).

Definition base c : StreamsState := ConnFlowControl.base (control c).
Definition set_base b c : t V := set_control (ConnFlowControl.set_base b (control c)) c.
Definition saver_of (id : Z) c : FragmentSaver V := default (mk_saver None None) (savers c !! id).

(** [set_receiver] of the stream with this id, while nothing was received. *)
Definition attach (id : Z) (sv : FragmentSaver V) c : t V :=
  mk (control c) (local_uni c) (local_bidi c) (remote_uni c) (remote_bidi c) (remove_auto c) (<[id := sv]> (savers c)) (user c).

Definition new (self : Origin) (v : V) : t V :=
  mk (ConnFlowControl.mk (set_dir self new_streams) ACKHandler.reset ACKHandler.reset ACKHandler.reset) ∅ ∅ ∅ ∅ false ∅ v.

Definition local_origin c : Origin := ConnBase.local_origin (base c).
Definition peer_origin c : Origin := ConnBase.peer_origin (base c).

Definition is_flow_control_limited c : bool :=
  let '(_, res, _) := use_send_credit (fun avail_size _ => (0, avail_size =? 0)) (base c) in res.

Definition apply_local_initial_limits (local : InitialLimits) c : t V :=
  let c := set_base (set_recv_initial_limit local (base c)) c in
  let k := Some (control c) in
  mk (control c) (local_uni c) (BidiStream.apply_local_initial_limits k <$> local_bidi c)
    (RecvUniStream.apply_local_initial_limits k <$> remote_uni c)
    (BidiStream.apply_local_initial_limits k <$> remote_bidi c) (remove_auto c) (savers c) (user c).

Definition apply_peer_initial_limits (peer : InitialLimits) c : t V :=
  let c := set_base (set_send_initial_limit peer (base c)) c in
  let k := Some (control c) in
  mk (control c) (SendUniStream.apply_peer_initial_limits k <$> local_uni c)
    (BidiStream.apply_peer_initial_limits k <$> local_bidi c) (remote_uni c)
    (BidiStream.apply_peer_initial_limits k <$> remote_bidi c) (remove_auto c) (savers c) (user c).

Definition local_bidi_avail c : Z := Z.of_nat (base.size (local_bidi c)).
Definition remote_bidi_avail c : Z := Z.of_nat (base.size (remote_bidi c)).
Definition local_uni_avail c : Z := Z.of_nat (base.size (local_uni c)).
Definition remote_uni_avail c : Z := Z.of_nat (base.size (remote_uni c)).

Definition find_local_bidi (id : Z) c : option BidiStream.t := local_bidi c !! id.
Definition find_remote_bidi (id : Z) c : option BidiStream.t := remote_bidi c !! id.
Definition find_bidi (id : Z) c : option BidiStream.t :=
  if bool_decide (StreamID.origin id = local_origin c) then find_local_bidi id c else find_remote_bidi id c.
Definition find_send_uni (id : Z) c : option SendUniStream.t := local_uni c !! id.
Definition find_recv_uni (id : Z) c : option RecvUniStream.t := remote_uni c !! id.

Definition update_max_uni_streams (update : Limiter.t -> Z -> Z) c : bool * t V :=
  let '(ok, k) := ConnFlowControl.update_max_uni_streams update (control c) in (ok, set_control k c).
Definition update_max_bidi_streams (update : Limiter.t -> Z -> Z) c : bool * t V :=
  let '(ok, k) := ConnFlowControl.update_max_bidi_streams update (control c) in (ok, set_control k c).
Definition update_max_data (update : Limiter.t -> Z -> Z) c : bool * t V :=
  let '(ok, k) := ConnFlowControl.update_max_data update (control c) in (ok, set_control k c).
End state.
End Conn.

(** ** [ConnHandlerInterface]: the callbacks; those about a stream are given
    its id. [send_schedule] is given the default schedule. *)
Definition schedule (V : Type) : Type := fwriter -> observer -> Conn.t V -> IOResult * fwriter * observer * Conn.t V.

Class ConnHandler (V : Type) := {
  uni_open : Z -> Conn.t V -> Conn.t V;
  uni_accept : Z -> Conn.t V -> Conn.t V;
  bidi_open : Z -> Conn.t V -> Conn.t V;
  bidi_accept : Z -> Conn.t V -> Conn.t V;
  send_schedule : schedule V -> schedule V;
  send_callback : Conn.t V -> Conn.t V;
  recv_callback : Conn.t V -> Conn.t V;
  on_remove_stream : Conn.t V -> Conn.t V
}.

(** ** [struct AutoIncreaser] *)

Module AutoIncreaser.
Record t := mk { auto_increase_uni_stream : bool; auto_increase_bidi_stream : bool; auto_increase_max_data : bool }.

(** The limit the three lambdas answer, [a] being what is in use. *)
Definition increased (a : Z) (lim : Limiter.t) (ini_size : Z) : Z :=
  if u64 (Limiter.avail_size lim + a) <? ini_size
  then u64 (Limiter.current_limit lim + ini_size - Limiter.avail_size lim) else Limiter.current_limit lim.

Definition auto_increase {V} (a : t) (c : Conn.t V) : Conn.t V :=
  let c := if auto_increase_bidi_stream a
           then snd (Conn.update_max_bidi_streams (increased (Conn.remote_bidi_avail c)) c) else c in
  let c := if auto_increase_uni_stream a
           then snd (Conn.update_max_bidi_streams (increased (Conn.remote_uni_avail c)) c) else c in
  if auto_increase_max_data a then snd (Conn.update_max_data (increased 0) c) else c.
End AutoIncreaser.

(** ** [struct ConnHandlerSingleArg]; the argument of the callbacks is part of
    the user's state. *)
Module ConnHandlerSingleArg.
Section handler.
Context {V : Type}.
Record t := mk {
  uni_open_cb : option (Z -> Conn.t V -> Conn.t V);
  uni_accept_cb : option (Z -> Conn.t V -> Conn.t V);
  bidi_open_cb : option (Z -> Conn.t V -> Conn.t V);
  bidi_accept_cb : option (Z -> Conn.t V -> Conn.t V);
  send_schedule_cb : option (schedule V);
  auto_incr : AutoIncreaser.t
}.
Definition call (cb : option (Z -> Conn.t V -> Conn.t V)) (id : Z) (c : Conn.t V) : Conn.t V :=
  match cb with Some f => f id c | None => c end.
Definition handler (h : t) : ConnHandler V := {|
  uni_open := call (uni_open_cb h);
  uni_accept := call (uni_accept_cb h);
  bidi_open := call (bidi_open_cb h);
  bidi_accept := call (bidi_accept_cb h);
  send_schedule := fun do_default => match send_schedule_cb h with Some f => f | None => do_default end;
  send_callback := AutoIncreaser.auto_increase (auto_incr h);
  recv_callback := AutoIncreaser.auto_increase (auto_incr h);
  on_remove_stream := AutoIncreaser.auto_increase (auto_incr h)
|}.
Definition set_auto_increase (uni bidi max_data : bool) (h : t) : t :=
  mk (uni_open_cb h) (uni_accept_cb h) (bidi_open_cb h) (bidi_accept_cb h) (send_schedule_cb h)
     (AutoIncreaser.mk uni bidi max_data).
End handler.
Arguments t : clear implicits.
End ConnHandlerSingleArg.

(** ** The operations of [struct Conn] that call the user *)

Module ConnOps.
Import Conn.
Section ops.
Context {V : Type} `{ConnHandler V} (order : forall A, gmap Z A -> list Z).
Implicit Types c : Conn.t V.

Definition open_uni c : option Z * Conn.t V :=
  let '((id, blocked), b) := ConnBase.open_uni (base c) in
  let c := set_base b c in
  if blocked : bool then (None, c)
  else
    let s := SendUniStream.new id (control c) in
    (Some id, uni_open id (set_local_uni (if local_uni c !! id is Some _ then local_uni c else <[id := s]> (local_uni c)) c)).

Definition open_bidi c : option Z * Conn.t V :=
  let '((id, blocked), b) := ConnBase.open_bidi (base c) in
  let c := set_base b c in
  if blocked : bool then (None, c)
  else
    let s := BidiStream.new id (control c) in
    (Some id, bidi_open id (set_local_bidi (if local_bidi c !! id is Some _ then local_bidi c else <[id := s]> (local_bidi c)) c)).

(** [remove_impl] on one table. *)
Definition remove_impl {A} (is_removable : A -> bool) (id : Z) (m : gmap Z A) : IOResult * gmap Z A :=
  match m !! id with
  | None => (no_data, m)
  | Some s => if negb (is_removable s) then (not_in_io_state, m) else (io_ok, delete id m)
  end.

Definition remove_internal (id : Z) (from_user : bool) c : IOResult * Conn.t V :=
  let '(res, c) :=
    if bool_decide (StreamID.origin id = local_origin c) then
      match StreamID.type id with
      | bidi => let '(r, m) := remove_impl (BidiStream.is_removable false) id (local_bidi c) in (r, set_local_bidi m c)
      | uni => let '(r, m) := remove_impl (SendUniStream.is_removable false) id (local_uni c) in (r, set_local_uni m c)
      | unknown_type => (invalid_data, c)
      end
    else if bool_decide (StreamID.origin id = peer_origin c) then
      match StreamID.type id with
      | bidi => let '(r, m) := remove_impl (BidiStream.is_removable false) id (remote_bidi c) in (r, set_remote_bidi m c)
      | uni => let '(r, m) := remove_impl (RecvUniStream.is_removable false) id (remote_uni c) in (r, set_remote_uni m c)
      | unknown_type => (invalid_data, c)
      end
    else (invalid_data, c) in
  (res, if bool_decide (res = io_ok) && from_user then on_remove_stream c else c).

Definition remove (id : Z) c : IOResult * Conn.t V := remove_internal id true c.

(** The callback [check_creation] gives to [accept], for one stream. *)
Definition create_one (x : option Error * Conn.t V) (call : Z * bool * option Error) : option Error * Conn.t V :=
  let '(oerr, c) := x in
  let '(id, _, err) := call in
  match err with
  | Some e => (Some e, c)
  | None =>
      match oerr with
      | Some _ => x
      | None =>
          match StreamID.type id with
          | bidi =>
              match remote_bidi c !! id with
              | Some _ => (Some (LibError "unexpected creation failure on bidi stream!"), c)
              | None => (None, bidi_accept id (set_remote_bidi (<[id := BidiStream.new id (control c)]> (remote_bidi c)) c))
              end
          | _ =>
              match remote_uni c !! id with
              | Some _ => (Some (LibError "unexpected creation failure on uni stream!"), c)
              | None => (None, uni_accept id (set_remote_uni (<[id := RecvUniStream.new id (control c)]> (remote_uni c)) c))
              end
          end
      end
  end.

(** [check_creation]: (created by this end, bidirectional, error). *)
Definition check_creation (type id : Z) c : (bool * bool * option Error) * Conn.t V :=
  let is_bidi := bool_decide (StreamID.type id = bidi) in
  let '(by_local, err) := check_recv_frame type id (base c) in
  match err, by_local with
  | Some _, _ | None, true => ((true, is_bidi, err), c)
  | None, false =>
      let '(calls, b) := ConnBase.accept id (base c) in
      let '(oerr, c) := foldl create_one (None, set_base b c) calls in
      ((false, is_bidi, oerr), c)
  end.

(** [maybe_remove] of [recv_stream_related]: whether something was removed. *)
Definition maybe_remove (id : Z) (is_removable : bool) c : option Error * bool * Conn.t V :=
  if remove_auto c && is_removable then
    let '(fat, c) := remove_internal id false c in
    if bool_decide (fat = io_fatal) then (Some (LibError "unexpected error on removing stream"), false, c)
    else (None, true, c)
  else (None, false, c).

(** What a stream's [recv] leaves, put back into the connection. *)
Definition shared (conn : option ConnFlowControl.t) (v : V) c : Conn.t V :=
  set_user v (match conn with Some k => set_control k c | None => c end).

Definition dispatch (a : AnyFrame) (id : Z) (local is_bidi : bool) c : option Error * bool * Conn.t V :=
  match local, is_bidi with
  | true, true =>
      match find_local_bidi id c with
      | None => (None, false, c)
      | Some bs =>
          let '(err, (k, v, bs)) := BidiStream.recv (saver_of id c) a (Some (control c)) (user c) bs in
          let c := set_local_bidi (<[id := bs]> (local_bidi c)) (shared k v c) in
          match err with Some e => (Some e, false, c) | None => maybe_remove id (BidiStream.is_removable false bs) c end
      end
  | true, false =>
      match find_send_uni id c with
      | None => (None, false, c)
      | Some us =>
          let us := snd (SendUniStream.recv a us) in
          maybe_remove id (SendUniStream.is_removable false us) (set_local_uni (<[id := us]> (local_uni c)) c)
      end
  | false, true =>
      match find_remote_bidi id c with
      | None => (None, false, c)
      | Some bs =>
          let '(err, (k, v, bs)) := BidiStream.recv (saver_of id c) a (Some (control c)) (user c) bs in
          let c := set_remote_bidi (<[id := bs]> (remote_bidi c)) (shared k v c) in
          match err with Some e => (Some e, false, c) | None => maybe_remove id (BidiStream.is_removable false bs) c end
      end
  | false, false =>
      match find_recv_uni id c with
      | None => (None, false, c)
      | Some us =>
          let '(err, (k, v, us)) := RecvUniStream.recv (saver_of id c) a (Some (control c)) (user c) us in
          let c := set_remote_uni (<[id := us]> (remote_uni c)) (shared k v c) in
          match err with Some e => (Some e, false, c) | None => maybe_remove id (RecvUniStream.is_removable false us) c end
      end
  end.

Definition recv_stream_related (a : AnyFrame) (id : Z) c : option Error * Conn.t V :=
  let '((local, is_bidi, err), c) := check_creation (type_detail_of a) id c in
  match err with
  | Some e => (Some e, c)
  | None =>
      let '(err, remove_some, c) := dispatch a id local is_bidi c in
      (err, if remove_some then on_remove_stream c else c)
  end.

(** [recv]: (handled, error). *)
Definition recv (a : AnyFrame) c : (bool * option Error) * Conn.t V :=
  let '(r, c) :=
    match get_streamID a with
    | Some (id, true) => let '(err, c) := recv_stream_related a id c in ((true, err), c)
    | _ =>
        if is_ConnRelated (type_detail_of a)
        then let '(err, k) := ConnFlowControl.recv a (control c) in ((true, err), set_control k c)
        else ((false, None), c)
    end in
  (r, recv_callback c).

(** ** Sending *)

(** One stream of each table: the result, the writer, the observer, and the
    connection with the stream put back. *)
Definition send_local_uni (id : Z) (w : fwriter) (o : observer) c : IOResult * fwriter * observer * bool * Conn.t V :=
  match local_uni c !! id with
  | None => (io_ok, w, o, false, c)
  | Some s =>
      let '((res, _), (w, o, k, s)) := SendUniStream.send w o (Some (control c)) s in
      (res, w, o, SendUniStream.is_removable false s, set_local_uni (<[id := s]> (local_uni c)) (shared k (user c) c))
  end.
Definition send_local_bidi (id : Z) (w : fwriter) (o : observer) c : IOResult * fwriter * observer * bool * Conn.t V :=
  match local_bidi c !! id with
  | None => (io_ok, w, o, false, c)
  | Some s =>
      let '((res, _), (w, o, k, v, s)) := BidiStream.send (saver_of id c) w o (Some (control c)) (user c) s in
      (res, w, o, BidiStream.is_removable false s, set_local_bidi (<[id := s]> (local_bidi c)) (shared k v c))
  end.
Definition send_remote_bidi (id : Z) (w : fwriter) (o : observer) c : IOResult * fwriter * observer * bool * Conn.t V :=
  match remote_bidi c !! id with
  | None => (io_ok, w, o, false, c)
  | Some s =>
      let '((res, _), (w, o, k, v, s)) := BidiStream.send (saver_of id c) w o (Some (control c)) (user c) s in
      (res, w, o, BidiStream.is_removable false s, set_remote_bidi (<[id := s]> (remote_bidi c)) (shared k v c))
  end.
Definition send_remote_uni (id : Z) (w : fwriter) (o : observer) c : IOResult * fwriter * observer * bool * Conn.t V :=
  match remote_uni c !! id with
  | None => (io_ok, w, o, false, c)
  | Some s =>
      let '(res, w, o, v, s) := RecvUniStream.send (saver_of id c) w o (user c) s in
      (res, w, o, RecvUniStream.is_removable false s, set_remote_uni (<[id := s]> (remote_uni c)) (shared None v c))
  end.

(** The loops [do_send] and [do_send_r]: the first component of the result is
    the failure that ended the schedule. *)
Fixpoint do_send (send1 : Z -> fwriter -> observer -> Conn.t V -> IOResult * fwriter * observer * bool * Conn.t V)
    (erase : Z -> Conn.t V -> Conn.t V) (ids : list Z) (w : fwriter) (o : observer) (remove_some : bool) c
    : option IOResult * fwriter * observer * bool * Conn.t V :=
  match ids with
  | [] => (None, w, o, remove_some, c)
  | id :: ids' =>
      let '(res, w, o, removable, c) := send1 id w o c in
      match res with
      | io_fatal | invalid_data => (Some res, w, o, remove_some, c)
      | _ =>
          if remove_auto c && removable then do_send send1 erase ids' w o true (erase id c)
          else do_send send1 erase ids' w o remove_some c
      end
  end.

Definition erase_local_bidi (id : Z) c : Conn.t V := set_local_bidi (delete id (local_bidi c)) c.
Definition erase_local_uni (id : Z) c : Conn.t V := set_local_uni (delete id (local_uni c)) c.
Definition erase_remote_bidi (id : Z) c : Conn.t V := set_remote_bidi (delete id (remote_bidi c)) c.
Definition erase_remote_uni (id : Z) c : Conn.t V := set_remote_uni (delete id (remote_uni c)) c.

Definition default_send_schedule (w : fwriter) (o : observer) c : IOResult * fwriter * observer * Conn.t V :=
  let finish := fun '(r, w, o, remove_some, c) =>
    (default io_ok r, w, o, if remove_some : bool then on_remove_stream c else c) in
  let '(r, w, o, rs, c) := do_send send_local_bidi erase_local_bidi (order _ (local_bidi c)) w o false c in
  match r with
  | Some _ => finish (r, w, o, rs, c)
  | None =>
      let '(r, w, o, rs, c) := do_send send_local_uni erase_local_uni (order _ (local_uni c)) w o rs c in
      match r with
      | Some _ => finish (r, w, o, rs, c)
      | None =>
          let '(r, w, o, rs, c) := do_send send_remote_bidi erase_remote_bidi (order _ (remote_bidi c)) w o rs c in
          match r with
          | Some _ => finish (r, w, o, rs, c)
          | None => finish (do_send send_remote_uni erase_remote_uni (order _ (remote_uni c)) w o rs c)
          end
      end
  end.

Definition send (w : fwriter) (o : observer) c : IOResult * fwriter * observer * Conn.t V :=
  let c := send_callback c in
  let '(res, w, o, k) := ConnFlowControl.send w o (control c) in
  let c := set_control k c in
  if bool_decide (res = io_fatal) then (res, w, o, c)
  else send_schedule default_send_schedule w o c.
End ops.
End ConnOps.
