(* ===== verification/StreamConnProps.v ===== *)
(** * StreamConnProps: the table of streams is used in order

    Theorems about StreamConn: the counters of ids and the credit of the
    connection stay consistent, an id names one stream only, a peer's frame
    creates exactly the streams it implies, opening a stream takes the next
    number. Proved for every handler that obeys [ConnHandlerLaws]. *)

From stdpp Require Import base list gmap strings.
From Stdlib Require Import ZArith Lia.
From S2P Require Import Prelude Bytes Varint Types FrameBase FrameStream FrameParse StreamId StreamState ConnBase StreamBase AckRecord StreamImpl StreamConn.

#[local] Open Scope string_scope.
#[local] Open Scope Z_scope.
#[local] Open Scope list_scope.

(** ** The four kinds of streams *)

Inductive side := local_u | local_b | remote_u | remote_b.

#[export] Instance side_eq_dec : EqDecision side.
Proof. solve_decision. Defined.

Definition stype (k : side) : StreamType := match k with local_u | remote_u => uni | _ => bidi end.
Definition credit (k : side) (b : StreamsState) : Limiter.t :=
  match k with
  | local_u => Issuer.limit (uni_issuer b)
  | local_b => Issuer.limit (bidi_issuer b)
  | remote_u => Acceptor.limit (uni_acceptor b)
  | remote_b => Acceptor.limit (bidi_acceptor b)
  end.
Definition opened (k : side) (b : StreamsState) : Z := Limiter.used (credit k b).
Definition side_origin (k : side) (b : StreamsState) : Origin :=
  match k with
  | local_u => Issuer.origin (uni_issuer b)
  | local_b => Issuer.origin (bidi_issuer b)
  | remote_u => Acceptor.origin (uni_acceptor b)
  | remote_b => Acceptor.origin (bidi_acceptor b)
  end.
Definition side_type (k : side) (b : StreamsState) : StreamType :=
  match k with
  | local_u => Issuer.type (uni_issuer b)
  | local_b => Issuer.type (bidi_issuer b)
  | remote_u => Acceptor.type (uni_acceptor b)
  | remote_b => Acceptor.type (bidi_acceptor b)
  end.
Definition keys {V} (k : side) (c : Conn.t V) : gset Z :=
  match k with
  | local_u => dom (Conn.local_uni c)
  | local_b => dom (Conn.local_bidi c)
  | remote_u => dom (Conn.remote_uni c)
  | remote_b => dom (Conn.remote_bidi c)
  end.
(** The id of a stream of a kind by its number. *)
Definition nth_id (k : side) (b : StreamsState) (n : Z) : Z := id_value n (side_origin k b) (stype k).

(** ** What holds of the counters *)

(** The numbers of a kind fit an id. *)
Definition id_bound (k : side) (b : StreamsState) : Prop :=
  match k with local_u | local_b => Limiter.limit (credit k b) <= 2 ^ 60 | _ => opened k b <= 2 ^ 60 end.

Record base_ok (b : StreamsState) : Prop := {
  ok_credit k : limiter_ok (credit k b);
  ok_types k : side_type k b = stype k;
  ok_local : Issuer.origin (bidi_issuer b) = local_origin b;
  ok_peer k : match k with remote_u | remote_b => side_origin k b = inverse (local_origin b) | _ => True end;
  ok_origin : local_origin b <> unknown_origin;
  ok_issue k : id_bound k b;
  ok_send : limiter_ok (flow_send (conn_flow b));
  ok_recv : limiter_ok (flow_recv (conn_flow b))
}.

(** What every operation may do to the counters. *)
Definition grows (b b' : StreamsState) : Prop :=
  base_ok b -> base_ok b' /\ forall k, opened k b <= opened k b' /\ side_origin k b' = side_origin k b.

#[export] Instance grows_preorder : PreOrder grows.
Proof.
  split.
  - intros b H. split; [done |]. intros k. split; [lia | done].
  - intros a b c Hab Hbc Ha. destruct (Hab Ha) as [Hb H1], (Hbc Hb) as [Hc H2]. split; [done |].
    intros k. destruct (H1 k), (H2 k). split; [lia | congruence].
Qed.

(** The credit of the connection alone changes. *)
Lemma grows_flow b f :
  (limiter_ok (flow_send (conn_flow b)) -> limiter_ok (flow_send f)) ->
  (limiter_ok (flow_recv (conn_flow b)) -> limiter_ok (flow_recv f)) -> grows b (set_conn_flow f b).
Proof. intros Hs Hr []. split; [split; auto |]. intros []; simpl; split; done || lia. Qed.

Lemma use_limiter_ok n l : 0 <= n -> limiter_ok l -> limiter_ok (snd (Limiter.use n l)).
Proof. intros Hn Hl. destruct (Limiter.use n l) as [ok l'] eqn:E. by apply use_ok in E as [? _]. Qed.

Lemma raise_limiter_ok n l : limiter_ok l -> limiter_ok (snd (Limiter.update_limit n l)) /\
  Limiter.used (snd (Limiter.update_limit n l)) = Limiter.used l.
Proof.
  unfold limiter_ok, Limiter.update_limit. change (varint.border 8) with (2 ^ 62). intros [H1 H2].
  destruct (Z.leb_spec (2 ^ 62) n), (Z.ltb_spec (Limiter.limit l) n); simpl; lia.
Qed.

Lemma use_send_grows {A} (cb : Z -> Z -> Z * A) b : (forall x y, 0 <= fst (cb x y)) -> grows b (snd (use_send_credit cb b)).
Proof.
  intros Hcb. unfold use_send_credit. specialize (Hcb (Limiter.avail_size (flow_send (conn_flow b))) (Limiter.current_limit (flow_send (conn_flow b)))).
  destruct (cb _ _) as [n a]. destruct (n =? 0); [reflexivity |].
  pose proof (use_limiter_ok n (flow_send (conn_flow b)) Hcb) as H. destruct (Limiter.use n _) as [ok l]. by apply grows_flow.
Qed.

Lemma use_recv_grows n b : 0 <= n -> grows b (snd (use_recv_credit n b)).
Proof.
  intros Hn. unfold use_recv_credit. pose proof (use_limiter_ok n (flow_recv (conn_flow b)) Hn) as H.
  destruct (Limiter.use n _) as [ok l]. by apply grows_flow.
Qed.

Lemma recv_max_data_grows f b : grows b (snd (recv_max_data f b)).
Proof.
  unfold recv_max_data. pose proof (raise_limiter_ok (varint.value (MaxDataBase.max_data f)) (flow_send (conn_flow b))) as H.
  destruct (Limiter.update_limit _ _) as [ok l]. apply grows_flow; [by intros [? _]%H | done].
Qed.

Lemma update_max_data_grows d b : grows b (snd (update_max_data d b)).
Proof.
  unfold update_max_data, flow_update_recv_limit.
  set (n := d _ _). pose proof (raise_limiter_ok n (flow_recv (conn_flow b))) as H.
  destruct (Limiter.update_limit _ _) as [ok l]. apply grows_flow; [done | by intros [? _]%H].
Qed.

Lemma issuer_limit_ok n i : limiter_ok (Issuer.limit i) -> Limiter.limit (Issuer.limit i) <= 2 ^ 60 ->
  let i' := snd (Issuer.update_limit n i) in
  limiter_ok (Issuer.limit i') /\ Limiter.limit (Issuer.limit i') <= 2 ^ 60 /\
  Limiter.used (Issuer.limit i') = Limiter.used (Issuer.limit i) /\ Issuer.origin i' = Issuer.origin i /\ Issuer.type i' = Issuer.type i.
Proof.
  intros Hl Hm. unfold Issuer.update_limit. destruct (Z.leb_spec (2 ^ 60) n); [done |]. simpl.
  destruct (raise_limiter_ok n _ Hl) as [H1 H2]. split; [done |]. split; [| done].
  unfold Limiter.update_limit. destruct (_ <=? _); [done |]. destruct (_ <? _); simpl; lia.
Qed.

Lemma grows_all b b' : (forall k, side_type k b' = side_type k b /\ side_origin k b' = side_origin k b) ->
  (base_ok b -> limiter_ok (flow_send (conn_flow b')) /\ limiter_ok (flow_recv (conn_flow b'))) ->
  (base_ok b -> forall k, limiter_ok (credit k b') /\ opened k b <= opened k b' /\ id_bound k b') -> grows b b'.
Proof.
  intros Hs Hf Hk Hb. pose proof Hb as [C T L P O I S R].
  assert (Hl : local_origin b' = local_origin b) by apply (proj2 (Hs local_u)). split.
  - split; rewrite ?Hl; try done.
    + intros k. apply Hk; done.
    + intros k. rewrite (proj1 (Hs k)). apply T.
    + rewrite <-L. apply (Hs local_b).
    + intros k. specialize (P k). rewrite (proj2 (Hs k)). done.
    + intros k. apply Hk; done.
    + by apply Hf.
    + by apply Hf.
  - intros k. split; [by apply Hk | apply Hs].
Qed.

(** The counters of the streams alone change. *)
Lemma grows_sides b b' : conn_flow b' = conn_flow b ->
  (forall k, side_type k b' = side_type k b /\ side_origin k b' = side_origin k b) ->
  (base_ok b -> forall k, limiter_ok (credit k b') /\ opened k b <= opened k b' /\ id_bound k b') -> grows b b'.
Proof. intros Hf Hs Hk. apply grows_all; [done | | done]. intros []. by rewrite Hf. Qed.

(** A kind that an operation leaves alone. *)
Lemma side_kept b k : base_ok b -> limiter_ok (credit k b) /\ opened k b <= opened k b /\ id_bound k b.
Proof. intros Hb. split; [by apply ok_credit |]. split; [done | by apply ok_issue]. Qed.

Lemma recv_max_streams_grows f b : grows b (snd (recv_max_streams f b)).
Proof.
  unfold recv_max_streams. set (n := varint.value _).
  assert (H : forall i, limiter_ok (Issuer.limit i) -> Limiter.limit (Issuer.limit i) <= 2 ^ 60 -> _) by exact (issuer_limit_ok n).
  assert (Ht : forall i, Issuer.origin (snd (Issuer.update_limit n i)) = Issuer.origin i /\ Issuer.type (snd (Issuer.update_limit n i)) = Issuer.type i).
  { intros i. unfold Issuer.update_limit. by destruct (_ <=? _). }
  destruct (_ =? _); [| destruct (_ =? _); [| reflexivity]].
  - specialize (H (uni_issuer b)). specialize (Ht (uni_issuer b)). destruct (Issuer.update_limit _ _) as [e i].
    apply grows_sides; [done | by intros []; simpl; intuition |]. intros Hb k. pose proof (side_kept b k Hb) as Hk.
    destruct k; try exact Hk. destruct (H (ok_credit _ Hb local_u) (ok_issue _ Hb local_u)) as (H1 & H2 & H3 & _).
    split; [done |]. split; [| done]. unfold opened. simpl in *. lia.
  - specialize (H (bidi_issuer b)). specialize (Ht (bidi_issuer b)). destruct (Issuer.update_limit _ _) as [e i].
    apply grows_sides; [done | by intros []; simpl; intuition |]. intros Hb k. pose proof (side_kept b k Hb) as Hk.
    destruct k; try exact Hk. destruct (H (ok_credit _ Hb local_b) (ok_issue _ Hb local_b)) as (H1 & H2 & H3 & _).
    split; [done |]. split; [| done]. unfold opened. simpl in *. lia.
Qed.

Lemma conn_recv_grows a b : grows b (snd (conn_recv a b)).
Proof. destruct a; simpl; try reflexivity; [apply recv_max_data_grows | apply recv_max_streams_grows]. Qed.

Lemma acceptor_limit_ok n a : limiter_ok (Acceptor.limit a) -> let a' := snd (Acceptor.update_limit n a) in
  limiter_ok (Acceptor.limit a') /\ Limiter.used (Acceptor.limit a') = Limiter.used (Acceptor.limit a) /\
  Acceptor.origin a' = Acceptor.origin a /\ Acceptor.type a' = Acceptor.type a.
Proof.
  intros Hl. unfold Acceptor.update_limit. destruct (raise_limiter_ok n _ Hl) as [H1 H2].
  destruct (Limiter.update_limit _ _) as [ok l]. done.
Qed.

Lemma acceptor_limit_type n a : Acceptor.origin (snd (Acceptor.update_limit n a)) = Acceptor.origin a /\
  Acceptor.type (snd (Acceptor.update_limit n a)) = Acceptor.type a.
Proof. unfold Acceptor.update_limit. by destruct (Limiter.update_limit _ _). Qed.

Lemma grows_uni_acceptor b a :
  Acceptor.origin a = Acceptor.origin (uni_acceptor b) -> Acceptor.type a = Acceptor.type (uni_acceptor b) ->
  (base_ok b -> limiter_ok (Acceptor.limit a) /\ opened remote_u b <= Limiter.used (Acceptor.limit a) <= 2 ^ 60) ->
  grows b (set_uni_acceptor a b).
Proof.
  intros Ho Ht H. apply grows_sides; [done | by intros []; simpl; rewrite ?Ho, ?Ht |]. intros Hb k.
  pose proof (side_kept b k Hb) as Hk. destruct k; try exact Hk. destruct (H Hb) as (H1 & H2 & H3). done.
Qed.

Lemma grows_bidi_acceptor b a :
  Acceptor.origin a = Acceptor.origin (bidi_acceptor b) -> Acceptor.type a = Acceptor.type (bidi_acceptor b) ->
  (base_ok b -> limiter_ok (Acceptor.limit a) /\ opened remote_b b <= Limiter.used (Acceptor.limit a) <= 2 ^ 60) ->
  grows b (set_bidi_acceptor a b).
Proof.
  intros Ho Ht H. apply grows_sides; [done | by intros []; simpl; rewrite ?Ho, ?Ht |]. intros Hb k.
  pose proof (side_kept b k Hb) as Hk. destruct k; try exact Hk. destruct (H Hb) as (H1 & H2 & H3). done.
Qed.

Lemma update_max_uni_grows d b : grows b (snd (update_max_uni_streams d b)).
Proof.
  unfold update_max_uni_streams. set (n := d _ _). pose proof (acceptor_limit_type n (uni_acceptor b)) as [Ho Ht].
  pose proof (acceptor_limit_ok n (uni_acceptor b)) as H. destruct (Acceptor.update_limit _ _) as [ok a]. simpl in *.
  apply grows_uni_acceptor; [done | done |]. intros Hb. destruct (H (ok_credit _ Hb remote_u)) as (H1 & H2 & _).
  pose proof (ok_issue _ Hb remote_u) as H3. split; [done |]. unfold id_bound, opened in *. simpl in *. lia.
Qed.

Lemma update_max_bidi_grows d b : grows b (snd (update_max_bidi_streams d b)).
Proof.
  unfold update_max_bidi_streams. set (n := d _ _). pose proof (acceptor_limit_type n (bidi_acceptor b)) as [Ho Ht].
  pose proof (acceptor_limit_ok n (bidi_acceptor b)) as H. destruct (Acceptor.update_limit _ _) as [ok a]. simpl in *.
  apply grows_bidi_acceptor; [done | done |]. intros Hb. destruct (H (ok_credit _ Hb remote_b)) as (H1 & H2 & _).
  pose proof (ok_issue _ Hb remote_b) as H3. split; [done |]. unfold id_bound, opened in *. simpl in *. lia.
Qed.

(** ** The operations of the parts *)

Lemma sent_uni_grows b : grows b (set_uni_acceptor (acceptor_sent (uni_acceptor b)) b).
Proof.
  apply grows_uni_acceptor; [done | done |]. intros Hb. split; [apply (ok_credit _ Hb remote_u) |].
  split; [done | apply (ok_issue _ Hb remote_u)].
Qed.
Lemma sent_bidi_grows b : grows b (set_bidi_acceptor (acceptor_sent (bidi_acceptor b)) b).
Proof.
  apply grows_bidi_acceptor; [done | done |]. intros Hb. split; [apply (ok_credit _ Hb remote_b) |].
  split; [done | apply (ok_issue _ Hb remote_b)].
Qed.

Lemma send_max_data_grows w b : grows b (snd (send_max_data w b)).
Proof. unfold send_max_data. destruct (write_checked _ _) as [r w']. destruct (bool_decide _); [by apply grows_flow | reflexivity]. Qed.
Lemma send_max_uni_grows w b : grows b (snd (send_max_uni_streams w b)).
Proof. unfold send_max_uni_streams. destruct (write_checked _ _) as [r w']. destruct (bool_decide _); [apply sent_uni_grows | reflexivity]. Qed.
Lemma send_max_bidi_grows w b : grows b (snd (send_max_bidi_streams w b)).
Proof. unfold send_max_bidi_streams. destruct (write_checked _ _) as [r w']. destruct (bool_decide _); [apply sent_bidi_grows | reflexivity]. Qed.

Lemma send_limit_grows (f g : ConnFlowControl.writes) w b rec o :
  (forall w b, grows b (snd (f w b))) -> (forall w b, grows b (snd (g w b))) ->
  let '(res, w', b', rec', o') := ConnFlowControl.send_limit f g w b rec o in grows b b'.
Proof.
  intros Hf Hg. unfold ConnFlowControl.send_limit. specialize (Hf w b). destruct (f w b) as [[r w1] b1]. simpl in Hf.
  destruct (bool_decide (r = io_ok)); [by destruct (ACKHandler.wait o) |]. destruct (ACKHandler.not_confirmed rec); [| done].
  destruct (ACKHandler.is_lost rec (snd o)); [| done].
  specialize (Hg w1 b1). destruct (g w1 b1) as [[r2 w2] b2]. simpl in Hg. assert (grows b b2) by (by etrans).
  destruct (bool_decide (r2 = io_fatal)); [done |]. destruct (bool_decide (r2 = io_ok)); [| done].
  by destruct (ACKHandler.wait o).
Qed.

Definition if_updated_grows (f : ConnFlowControl.writes) : Prop := forall w b, grows b (snd (f w b)).

Lemma send_max_data_upd : if_updated_grows send_max_data_if_updated.
Proof. intros w b. unfold send_max_data_if_updated. destruct (negb _); [reflexivity | apply send_max_data_grows]. Qed.
Lemma send_max_uni_upd : if_updated_grows send_max_uni_streams_if_updated.
Proof. intros w b. unfold send_max_uni_streams_if_updated. destruct (negb _); [reflexivity | apply send_max_uni_grows]. Qed.
Lemma send_max_bidi_upd : if_updated_grows send_max_bidi_streams_if_updated.
Proof. intros w b. unfold send_max_bidi_streams_if_updated. destruct (negb _); [reflexivity | apply send_max_bidi_grows]. Qed.

Lemma control_send_grows w o c :
  grows (ConnFlowControl.base c) (ConnFlowControl.base (snd (ConnFlowControl.send w o c))).
Proof.
  unfold ConnFlowControl.send, ConnFlowControl.send_max_data.
  pose proof (send_limit_grows _ _ w (ConnFlowControl.base c) (ConnFlowControl.max_data c) o send_max_data_upd send_max_data_grows) as H1.
  destruct (ConnFlowControl.send_limit _ _ _ _ _ _) as [[[[r1 w1] b1] rec1] o1]. simpl. destruct (bool_decide _); [done |].
  unfold ConnFlowControl.send_max_uni_streams. simpl.
  pose proof (send_limit_grows _ _ w1 b1 (ConnFlowControl.max_uni_streams c) o1 send_max_uni_upd send_max_uni_grows) as H2.
  destruct (ConnFlowControl.send_limit _ _ _ _ _ _) as [[[[r2 w2] b2] rec2] o2]. simpl. destruct (bool_decide _); [by etrans |].
  unfold ConnFlowControl.send_max_bidi_streams. simpl.
  pose proof (send_limit_grows _ _ w2 b2 (ConnFlowControl.max_bidi_streams c) o2 send_max_bidi_upd send_max_bidi_grows) as H3.
  destruct (ConnFlowControl.send_limit _ _ _ _ _ _) as [[[[r3 w3] b3] rec3] o3]. simpl. etrans; [done |]. by etrans.
Qed.

(** What a stream leaves of the connection it was given. *)
Definition left_grown (c : ConnFlowControl.t) (k : option ConnFlowControl.t) : Prop :=
  exists c', k = Some c' /\ grows (ConnFlowControl.base c) (ConnFlowControl.base c').

Lemma left_same c : left_grown c (Some c).
Proof. by exists c. Qed.
Lemma left_base c b : grows (ConnFlowControl.base c) b -> left_grown c (Some (ConnFlowControl.set_base b c)).
Proof. intros H. by exists (ConnFlowControl.set_base b c). Qed.

Lemma send_impl_grows {F} (save : Fragment -> F -> bool * F) id fair e :
  grows (e_conn e) (e_conn (snd (send_impl save id fair e))).
Proof.
  unfold send_impl. repeat (destruct (negb _); [reflexivity |]). destruct (_ <? _); [reflexivity |].
  destruct (_ && _); [reflexivity |]. destruct (_ && _); [reflexivity |].
  set (cb := send_credit_cb _ _ _ _).
  assert (Hcb : forall x y, 0 <= fst (cb x y)).
  { intros x y. unfold cb, send_credit_cb. destruct (_ && _); [done |]. destruct (make_fit_size_Stream _ _ _ _ _ _) as [f ok].
    simpl. destruct ok; [apply size_nonneg | done]. }
  pose proof (use_send_grows cb (e_conn e) Hcb) as H. destruct (use_send_credit cb (e_conn e)) as [[ok cr] conn]. simpl in *.
  destruct (cr_block cr); [done |]. destruct (negb _); [done |].
  unfold send_commit. destruct (SendState.send _ _) as [ok1 st]. destruct (negb ok1); [done |].
  destruct (fw_write _ _) as [ok2 w]. destruct (negb ok2); [done |]. by destruct (save _ _).
Qed.

Lemma send_uni_left w o c s : left_grown c (snd (fst (snd (SendUniStream.send w o (Some c) s)))).
Proof.
  unfold SendUniStream.send. destruct (SendState.is_terminal_state _); [apply left_same |].
  destruct (SendUniStream.send_reset_unlocked w o s) as [[[r w1] o1] s1]. destruct (negb _); [apply left_same |].
  unfold SendUniStream.send_stream_unlocked. destruct (SendUniStream.send_retransmit w1 o1 s1) as [[[r2 w2] o2] s2].
  assert (H : left_grown c (snd (fst (SendUniStream.send_new_data w2 o2 c s2)))).
  { unfold SendUniStream.send_new_data. set (e := mk_env _ _ _ _ _).
    pose proof (send_impl_grows SendUniStream.save_sent (SendUniStreamBase.id (SendUniStream.uni s2)) SendBuffer.fairness_limit e) as H.
    destruct (send_impl _ _ _ _) as [[r3 n] e']. simpl in H. destruct (e_saved e') as [fr o3].
    destruct r3; simpl; try (by apply left_base); repeat case_match; simplify_eq/=; by apply left_base. }
  destruct r2; try (by apply left_same);
    destruct (SendUniStream.send_new_data w2 o2 c s2) as [[[[? ?] ?] ?] ?]; exact H.
Qed.

Lemma recv_uni_left {V} (sv : FragmentSaver V) a c v s : left_grown c (fst (fst (snd (RecvUniStream.recv sv a (Some c) v s)))).
Proof.
  unfold RecvUniStream.recv.
  assert (Hu : forall x y b, grows b (snd (if negb (u64 (x - y) =? 0) then use_recv_credit (u64 (x - y)) b else (true, b)))).
  { intros x y b. destruct (negb _); [| reflexivity]. apply use_recv_grows. unfold u64. apply Z.mod_pos_bound. lia. }
  assert (H : forall r : option Error * (option ConnFlowControl.t * V * RecvUniStream.t), left_grown c (fst (fst (snd r))) ->
    left_grown c (fst (fst (snd (let '(err, (conn, v, s)) := r in let '(v, s) := RecvUniStream.do_auto_update sv v s in (err, (conn, v, s))))))).
  { intros [err [[k v'] s']] Hk. by destruct (RecvUniStream.do_auto_update sv v' s'). }
  apply H. destruct a; try apply left_same.
  - unfold RecvUniStream.recv_reset, RecvUniStreamBase.recv_reset. destruct (negb _); [by apply left_base |].
    destruct (RecvState.reset _ _ _) as [ok st]. destruct (negb ok); [by apply left_base |]. cbv zeta.
    match goal with |- context [u64 (?x - ?y)] => pose proof (Hu x y (ConnFlowControl.base c)) as Hg end.
    destruct (if negb (u64 _ =? 0) then _ else _) as [ok2 b]. simpl in Hg.
    destruct (negb ok2); simpl; [by apply left_base |]. destruct (saver_save _ _ _ _ _ _ _) as [[? ?] ?]. by apply left_base.
  - unfold RecvUniStream.recv_stream. match goal with |- context [recv_impl ?d ?f ?i ?b ?st ?x] => set (r := recv_impl d f i b st x) end.
    assert (Hr : grows (ConnFlowControl.base c) (fst (fst (snd r)))).
    { subst r. unfold recv_impl. destruct (negb _); [reflexivity |]. destruct (negb _); [reflexivity |].
      destruct (RecvState.recv _ _) as [ok st]. destruct (negb ok); [reflexivity |].
      match goal with |- context [u64 (?x - ?y)] => pose proof (Hu x y (ConnFlowControl.base c)) as Hg end.
      destruct (if negb (u64 _ =? 0) then _ else _) as [ok2 b]. simpl in Hg. destruct (negb ok2); [done |].
      simpl. destruct (saver_save _ _ _ _ _ _ _) as [[? []] ?]; done. }
    destruct r as [[? ?] [[b st] [? ?]]]. by apply left_base.
Qed.

Lemma send_bidi_left {V} (sv : FragmentSaver V) w o c v s :
  left_grown c (snd (fst (fst (snd (BidiStream.send sv w o (Some c) v s))))).
Proof.
  unfold BidiStream.send. destruct (RecvUniStream.send sv w o v _) as [[[[r w1] o1] v1] s1].
  pose proof (send_uni_left w1 o1 c (BidiStream.sender s)) as H.
  destruct (SendUniStream.send w1 o1 (Some c) (BidiStream.sender s)) as [r2 [[[w2 o2] k] s2]].
  destruct r; try apply left_same; exact H.
Qed.

Lemma recv_bidi_left {V} (sv : FragmentSaver V) a c v s : left_grown c (fst (fst (snd (BidiStream.recv sv a (Some c) v s)))).
Proof.
  unfold BidiStream.recv. destruct (SendUniStream.recv a _) as [ok snd]. destruct ok; [apply left_same |].
  pose proof (recv_uni_left sv a c v (BidiStream.receiver s)) as H.
  by destruct (RecvUniStream.recv sv a (Some c) v (BidiStream.receiver s)) as [err [[k v'] r]].
Qed.

(** ** The connection *)

Import Conn ConnOps.

(** What an operation may do: the counters grow, and a key of a table is one
    it had before or the id of a stream opened meanwhile. *)
Definition evolves {V} (c c' : Conn.t V) : Prop :=
  base_ok (base c) ->
  base_ok (base c') /\
  forall k, opened k (base c) <= opened k (base c') /\ side_origin k (base c') = side_origin k (base c) /\
    forall id, id ∈ keys k c' ->
      id ∈ keys k c \/ exists n, opened k (base c) <= n < opened k (base c') /\ id = nth_id k (base c) n.

#[export] Instance evolves_preorder {V} : PreOrder (@evolves V).
Proof.
  split.
  - intros c H. split; [done |]. intros k. split; [lia |]. split; [done |]. by left.
  - intros a b c Hab Hbc Ha. destruct (Hab Ha) as [Hb H1], (Hbc Hb) as [Hc H2]. split; [done |]. intros k.
    destruct (H1 k) as (O1 & E1 & K1), (H2 k) as (O2 & E2 & K2). split; [lia |]. split; [congruence |]. intros id Hid.
    destruct (K2 id Hid) as [Hin | (n & Hn & ->)].
    + destruct (K1 id Hin) as [| (n & Hn & ->)]; [by left | right]. exists n. split; [lia | done].
    + right. exists n. split; [lia |]. unfold nth_id. by rewrite E1.
Qed.

Lemma evolves_kept {V} (c c' : Conn.t V) :
  grows (base c) (base c') -> (forall k, keys k c' ⊆ keys k c) -> evolves c c'.
Proof.
  intros Hg Hk Hb. destruct (Hg Hb) as [Hb' H]. split; [done |]. intros k. destruct (H k) as [? ?].
  split; [done |]. split; [done |]. intros id Hid. left. by apply Hk.
Qed.

(** The callbacks that run with the tables locked touch neither the keys nor
    the counters of streams; the others do no more than the operations. *)
Definition quiet {V} (c c' : Conn.t V) : Prop :=
  grows (base c) (base c') /\ (forall k, keys k c' = keys k c) /\ (forall k, credit k (base c') = credit k (base c)).

Class ConnHandlerLaws (V : Type) `{ConnHandler V} := {
  uni_open_quiet id c : quiet c (uni_open id c);
  uni_accept_quiet id c : quiet c (uni_accept id c);
  bidi_open_quiet id c : quiet c (bidi_open id c);
  bidi_accept_quiet id c : quiet c (bidi_accept id c);
  send_callback_evolves c : evolves c (send_callback c);
  recv_callback_evolves c : evolves c (recv_callback c);
  on_remove_evolves c : evolves c (on_remove_stream c);
  send_schedule_evolves (d : schedule V) : (forall w o c, evolves c (snd (d w o c))) ->
    forall w o c, evolves c (snd (send_schedule d w o c))
}.

Lemma quiet_evolves {V} (c c' : Conn.t V) : quiet c c' -> evolves c c'.
Proof. intros (Hg & Hk & _). apply evolves_kept; [done |]. intros k. by rewrite Hk. Qed.

Lemma auto_increase_evolves {V} a (c : Conn.t V) : evolves c (AutoIncreaser.auto_increase a c).
Proof.
  assert (H1 : forall d (c : Conn.t V), evolves c (snd (Conn.update_max_bidi_streams d c))).
  { intros d c'. unfold Conn.update_max_bidi_streams, ConnFlowControl.update_max_bidi_streams.
    pose proof (update_max_bidi_grows d (base c')) as H. destruct (ConnBase.update_max_bidi_streams _ _) as [ok b].
    by apply evolves_kept; [| intros []]. }
  assert (H2 : forall d (c : Conn.t V), evolves c (snd (Conn.update_max_data d c))).
  { intros d c'. unfold Conn.update_max_data, ConnFlowControl.update_max_data.
    pose proof (update_max_data_grows d (base c')) as H. destruct (ConnBase.update_max_data _ _) as [ok b].
    by apply evolves_kept; [| intros []]. }
  assert (H3 : forall (b : bool) (f : Conn.t V -> Conn.t V) c0, evolves c0 (f c0) -> evolves c0 (if b then f c0 else c0)).
  { intros [] f c0 Hf; [done | reflexivity]. }
  unfold AutoIncreaser.auto_increase. cbv zeta.
  etrans; [apply (H3 (AutoIncreaser.auto_increase_bidi_stream a) (fun c => snd (Conn.update_max_bidi_streams (AutoIncreaser.increased (remote_bidi_avail c)) c))), H1 |].
  etrans; [apply (H3 (AutoIncreaser.auto_increase_uni_stream a) (fun c => snd (Conn.update_max_bidi_streams (AutoIncreaser.increased (remote_uni_avail c)) c))), H1 |].
  apply (H3 (AutoIncreaser.auto_increase_max_data a) (fun c => snd (Conn.update_max_data (AutoIncreaser.increased 0) c))), H2.
Qed.

(** The handler of the library obeys the laws when the user's callbacks do. *)
Lemma single_arg_laws {V} (h : ConnHandlerSingleArg.t V) :
  (forall cb id c, cb = ConnHandlerSingleArg.uni_open_cb h \/ cb = ConnHandlerSingleArg.uni_accept_cb h \/
     cb = ConnHandlerSingleArg.bidi_open_cb h \/ cb = ConnHandlerSingleArg.bidi_accept_cb h ->
     quiet c (ConnHandlerSingleArg.call cb id c)) ->
  (forall f w o c, ConnHandlerSingleArg.send_schedule_cb h = Some f -> evolves c (snd (f w o c))) ->
  @ConnHandlerLaws V (ConnHandlerSingleArg.handler h).
Proof.
  intros Hq Hs. split; intros; simpl; try apply auto_increase_evolves; try (apply Hq; tauto).
  destruct (ConnHandlerSingleArg.send_schedule_cb h) eqn:E; [by apply Hs | done].
Qed.

(** ** Opening *)

Lemma open_impl_spec i : issuer_ok i ->
  let n := Limiter.used (Issuer.limit i) in
  open_impl i =
    if n <? Limiter.limit (Issuer.limit i)
    then ((id_value n (Issuer.origin i) (Issuer.type i), false),
          Issuer.mk (Limiter.mk (Limiter.limit (Issuer.limit i)) (n + 1)) (Issuer.type i) (Issuer.origin i))
    else ((StreamID.invalid_id, true), i).
Proof.
  intros Hi. pose proof (issue_spec i Hi) as H. destruct Hi as ([Hu _] & Hm & Ho & Ht). cbv zeta in *. unfold open_impl. rewrite H.
  destruct (Z.ltb_spec (Limiter.used (Issuer.limit i)) (Limiter.limit (Issuer.limit i))).
  - destruct (id_value_fields (Limiter.used (Issuer.limit i)) (Issuer.origin i) (Issuer.type i)) as (_ & -> & _); try done.
    unfold StreamID.seq_max. lia.
  - cbn [StreamID.valid]. change (StreamID.valid StreamID.invalid_id) with false. cbn [negb].
    unfold Limiter.on_limit, Limiter.avail_size. rewrite (ltb_false (Limiter.used _)), ltb_true by lia. done.
Qed.

Lemma base_issuer_ok b k : base_ok b ->
  match k with local_u => issuer_ok (uni_issuer b) | local_b => issuer_ok (bidi_issuer b)
             | remote_u => acceptor_ok (uni_acceptor b) | remote_b => acceptor_ok (bidi_acceptor b) end.
Proof.
  intros [C T L P O I S R].
  assert (Hi : inverse (ConnBase.local_origin b) <> unknown_origin) by (by destruct (ConnBase.local_origin b)).
  pose proof (C k) as Ck. pose proof (I k) as Ik. pose proof (T k) as Tk. pose proof (P k) as Pk.
  destruct k; simpl in *; (split; [done |]); rewrite ?Tk, ?Pk, ?L; done.
Qed.

(** One more stream of a kind this end opens. *)
Lemma issued_grows b k i : k = local_u \/ k = local_b ->
  base_ok b -> opened k b < Limiter.limit (credit k b) ->
  i = Issuer.mk (Limiter.mk (Limiter.limit (credit k b)) (opened k b + 1)) (side_type k b) (side_origin k b) ->
  let b' := match k with local_u => set_uni_issuer i b | _ => set_bidi_issuer i b end in
  grows b b' /\ opened k b' = opened k b + 1.
Proof.
  intros Hk Hb Hlt ->. split; [| by destruct Hk as [-> | ->]]. pose proof (ok_credit _ Hb k) as [Hu Hm]. unfold opened in *.
  apply grows_sides; [by destruct k | by intros []; destruct Hk as [-> | ->] |]. intros _ k'. pose proof (side_kept b k' Hb) as Hs.
  pose proof (ok_issue _ Hb k) as Hi. unfold opened, id_bound, limiter_ok in *.
  destruct Hk as [-> | ->], k'; try done; simpl in *; lia.
Qed.

Lemma open_uni_evolves {V} `{ConnHandlerLaws V} (c : Conn.t V) : evolves c (snd (ConnOps.open_uni c)).
Proof.
  intros Hb. pose proof (open_impl_spec _ (base_issuer_ok _ local_u Hb)) as Ho. cbv zeta in Ho.
  unfold ConnOps.open_uni, ConnBase.open_uni. rewrite Ho.
  destruct (Z.ltb_spec (Limiter.used (Issuer.limit (uni_issuer (base c)))) (Limiter.limit (Issuer.limit (uni_issuer (base c))))) as [Hlt | Hge].
  2: { assert (E : set_uni_issuer (uni_issuer (base c)) (base c) = base c) by (by destruct (base c)). rewrite E.
       apply evolves_kept; [reflexivity | by intros [] | done]. }
  match goal with |- context [set_uni_issuer ?i _] => destruct (issued_grows (base c) local_u i) as [Hg He] end; [by left | done | done | done |].
  cbn [snd]. set (id := id_value _ _ _). set (c1 := set_local_uni _ _).
  enough (Hev : evolves c c1) by (apply (transitivity Hev (quiet_evolves _ _ (uni_open_quiet id c1))); done).
  intros _. destruct (Hg Hb) as [Hb' Hk]. split; [done |]. intros k. destruct (Hk k) as [H1 H2]. split; [done |]. split; [done |].
  intros x Hx. destruct k; try (by left). subst c1. simpl in Hx.
  destruct (local_uni c !! id) eqn:E; [by left |]. rewrite dom_insert_L in Hx. apply elem_of_union in Hx as [->%elem_of_singleton | Hx]; [right | by left].
  exists (opened local_u (base c)). split; [unfold opened in *; simpl in *; lia |].
  subst id. unfold nth_id. simpl. by rewrite (ok_types _ Hb local_u : Issuer.type _ = _).
Qed.

Lemma open_bidi_evolves {V} `{ConnHandlerLaws V} (c : Conn.t V) : evolves c (snd (ConnOps.open_bidi c)).
Proof.
  intros Hb. pose proof (open_impl_spec _ (base_issuer_ok _ local_b Hb)) as Ho. cbv zeta in Ho.
  unfold ConnOps.open_bidi, ConnBase.open_bidi. rewrite Ho.
  destruct (Z.ltb_spec (Limiter.used (Issuer.limit (bidi_issuer (base c)))) (Limiter.limit (Issuer.limit (bidi_issuer (base c))))) as [Hlt | Hge].
  2: { assert (E : set_bidi_issuer (bidi_issuer (base c)) (base c) = base c) by (by destruct (base c)). rewrite E.
       apply evolves_kept; [reflexivity | by intros [] | done]. }
  match goal with |- context [set_bidi_issuer ?i _] => destruct (issued_grows (base c) local_b i) as [Hg He] end; [by right | done | done | done |].
  cbn [snd]. set (id := id_value _ _ _). set (c1 := set_local_bidi _ _).
  enough (Hev : evolves c c1) by (apply (transitivity Hev (quiet_evolves _ _ (bidi_open_quiet id c1))); done).
  intros _. destruct (Hg Hb) as [Hb' Hk]. split; [done |]. intros k. destruct (Hk k) as [H1 H2]. split; [done |]. split; [done |].
  intros x Hx. destruct k; try (by left). subst c1. simpl in Hx.
  destruct (local_bidi c !! id) eqn:E; [by left |]. rewrite dom_insert_L in Hx. apply elem_of_union in Hx as [->%elem_of_singleton | Hx]; [right | by left].
  exists (opened local_b (base c)). split; [unfold opened in *; simpl in *; lia |].
  subst id. unfold nth_id. simpl. by rewrite (ok_types _ Hb local_b : Issuer.type _ = _).
Qed.

(** ** Streams of the peer *)

Definition set_acceptor (k : side) (a : Acceptor.t) (b : StreamsState) : StreamsState :=
  match k with remote_b => set_bidi_acceptor a b | _ => set_uni_acceptor a b end.
Definition acceptor_of (k : side) (b : StreamsState) : Acceptor.t :=
  match k with remote_b => bidi_acceptor b | _ => uni_acceptor b end.

(** What the acceptor announces for an id of its kind. *)
Lemma accept_exact b k id : base_ok b -> is_u64 id -> k = remote_u \/ k = remote_b -> StreamID.type id = stype k ->
  let n := opened k b in let seq := StreamID.seq_count id in
  let '(calls, b') := ConnBase.accept id b in
  (StreamID.origin id = side_origin k b /\ seq < Limiter.limit (credit k b) /\
   calls = map (fun j => (nth_id k b j, negb (j =? seq), None)) (seqZ n (Z.max n (seq + 1) - n)) /\
   grows b b' /\ opened k b' = Z.max n (seq + 1) /\ (seq < n -> b' = b)) \/
  (exists e, calls = [(id, false, Some e)] /\ b' = b /\ (StreamID.origin id = side_origin k b -> Limiter.limit (credit k b) <= seq)).
Proof.
  intros Hb Hid Hk Hty. cbv zeta.
  assert (Ha : acceptor_ok (acceptor_of k b)) by (destruct Hk as [-> | ->]; [apply (base_issuer_ok b remote_u Hb) | apply (base_issuer_ok b remote_b Hb)]).
  assert (E : ConnBase.accept id b = let '(calls, a) := accept_impl id (acceptor_of k b) in (calls, set_acceptor k a b)).
  { unfold ConnBase.accept. rewrite Hty. by destruct Hk as [-> | ->]. }
  rewrite E. destruct (accept_spec id _ Ha Hid) as (H1 & H2 & H3). cbv zeta in *.
  destruct (fst (Acceptor.accept id (acceptor_of k b))) as [e |] eqn:Ee.
  - specialize (H3 ltac:(done)).
    assert (Ei : accept_impl id (acceptor_of k b) = ([(id, false, Some e)], acceptor_of k b)).
    { unfold accept_impl. destruct (Acceptor.accept id (acceptor_of k b)) as [e' a']. cbn [fst snd] in *. by subst. }
    rewrite Ei. right. exists e. split; [done |]. split; [destruct Hk as [-> | ->]; by destruct b |].
    intros Ho. destruct (Z.le_gt_cases (Limiter.limit (credit k b)) (StreamID.seq_count id)) as [| Hlt]; [done |]. exfalso.
    assert (Hne : Some e <> None) by done. apply Hne, H1. pose proof (ok_types _ Hb k) as Tk.
    destruct Hk as [-> | ->]; cbn [acceptor_of side_type side_origin credit stype] in *; split_and!; congruence || lia.
  - rewrite (accept_impl_none _ _ Ee), H2 by done. left. destruct H1 as [(Ht & Ho & Hl) _]; [done |].
    assert (Hc : Acceptor.limit (acceptor_of k b) = credit k b) by (by destruct Hk as [-> | ->]).
    assert (Hor : Acceptor.origin (acceptor_of k b) = side_origin k b) by (by destruct Hk as [-> | ->]).
    pose proof (ok_credit _ Hb k) as [Hu Hm]. pose proof (ok_issue _ Hb k) as Hi. destruct Ha as (_ & Hau & Hat).
    destruct (id_of_fields id _ _ Hid (valid_of_type id _ Hat Ht) Ho Ht) as [_ Hs]. unfold StreamID.seq_max in Hs.
    rewrite Hc, Hor, <-Ht, Hty in *. unfold opened in *. split; [congruence |]. split; [done |]. split; [| split].
    + apply list_fmap_ext. intros j x Hx. apply lookup_seqZ in Hx as [-> Hj]. unfold nth_id. cbn [snd Acceptor.limit Acceptor.origin Acceptor.type Limiter.used] in *.
      rewrite make_id_valid; [done | | congruence | destruct Hk as [-> | ->]; done].
      unfold StreamID.seq_max. destruct Hk as [-> | ->]; unfold id_bound, opened in Hi; lia.
    + destruct Hk as [-> | ->]; [apply grows_uni_acceptor | apply grows_bidi_acceptor];
        cbn [acceptor_of side_origin credit Acceptor.limit Acceptor.origin Acceptor.type Limiter.used Limiter.limit stype] in *; try congruence;
        intros _; unfold id_bound, limiter_ok, opened in *; cbn [credit Limiter.used Limiter.limit] in *; lia.
    + split; [by destruct Hk as [-> | ->] |]. intros Hlt. rewrite Z.max_l by lia.
      destruct Hk as [-> | ->]; destruct b as [? ? [[? ?] ? ? ?] [[? ?] ? ? ?] ? ? ?];
        cbn [acceptor_of side_origin credit stype set_acceptor Acceptor.limit Acceptor.origin Acceptor.type Limiter.limit Limiter.used uni_acceptor bidi_acceptor] in *;
        unfold set_uni_acceptor, set_bidi_acceptor; cbn; congruence.
Qed.

Lemma quiet_refl {V} (c : Conn.t V) : quiet c c.
Proof. by split. Qed.
Lemma quiet_trans {V} (a b c : Conn.t V) : quiet a b -> quiet b c -> quiet a c.
Proof.
  intros (G1 & K1 & C1) (G2 & K2 & C2). split; [by etrans |]. split; intros k; [by rewrite K2 | by rewrite C2].
Qed.

(** The tables a peer's id can be put into. *)
Definition remote (k : side) : Prop := k = remote_u \/ k = remote_b.

(** Creating one stream: its key is added, and nothing else. *)
Lemma create_one_spec {V} `{ConnHandlerLaws V} (c : Conn.t V) k id hi : remote k -> StreamID.type id = stype k ->
  id ∉ keys k c -> exists c', create_one (None, c) (id, hi, None) = (None, c') /\ keys k c' = {[id]} ∪ keys k c /\
    (forall k', k' <> k -> keys k' c' = keys k' c) /\ grows (base c) (base c') /\ (forall k', credit k' (base c') = credit k' (base c)).
Proof.
  intros Hk Hty Hid. unfold create_one. rewrite Hty. destruct Hk as [-> | ->]; cbn [stype].
  - apply (not_elem_of_dom (remote_uni c)) in Hid. rewrite Hid. eexists. split; [done |].
    match goal with |- context [uni_accept ?i ?x] => destruct (uni_accept_quiet i x) as (G & K & C) end.
    split; [rewrite (K remote_u); apply dom_insert_L |]. split; [intros k' Hk'; rewrite (K k'); by destruct k' |]. done.
  - apply (not_elem_of_dom (remote_bidi c)) in Hid. rewrite Hid. eexists. split; [done |].
    match goal with |- context [bidi_accept ?i ?x] => destruct (bidi_accept_quiet i x) as (G & K & C) end.
    split; [rewrite (K remote_b); apply dom_insert_L |]. split; [intros k' Hk'; rewrite (K k'); by destruct k' |]. done.
Qed.

(** Creating streams one after the other. *)
Lemma create_all_spec {V} `{ConnHandlerLaws V} k (ids : list (Z * bool)) : forall c : Conn.t V, remote k ->
  Forall (fun x => StreamID.type (fst x) = stype k) ids -> NoDup (map fst ids) -> Forall (fun x => fst x ∉ keys k c) ids ->
  exists c', foldl create_one (None, c) (map (fun x => (fst x, snd x, None)) ids) = (None, c') /\
    keys k c' = list_to_set (map fst ids) ∪ keys k c /\ (forall k', k' <> k -> keys k' c' = keys k' c) /\
    grows (base c) (base c') /\ (forall k', credit k' (base c') = credit k' (base c)).
Proof.
  induction ids as [| [id hi] ids IH]; intros c Hk Ht Hd Hn.
  { exists c. split; [done |]. split; [cbn [map list_to_set]; by rewrite (left_id_L ∅ (∪)) |]. done. }
  apply Forall_cons in Ht as [Ht1 Ht]. apply Forall_cons in Hn as [Hn1 Hn]. cbn [map fst] in Hd. apply NoDup_cons in Hd as [Hd1 Hd].
  destruct (create_one_spec c k id hi Hk Ht1 Hn1) as (c1 & E & K1 & O1 & G1 & C1).
  cbn [map foldl fst snd]. rewrite E.
  destruct (IH c1 Hk Ht Hd) as (c2 & -> & K2 & O2 & G2 & C2).
  { apply Forall_forall. intros x Hx. rewrite K1. rewrite Forall_forall in Hn. specialize (Hn x Hx).
    intros [Ex%elem_of_singleton | ?]%elem_of_union; [| done]. apply Hd1. cbn [fst] in Ex. rewrite <-Ex. by apply list_elem_of_fmap_2. }
  exists c2. split; [done |]. split; [rewrite K2, K1; cbn [map fst list_to_set]; clear; set_solver |].
  split; [intros k' Hk'; by rewrite O2, O1 |]. split; [by etrans |]. intros k'. by rewrite C2.
Qed.

Lemma nth_id_inj k b n m : nth_id k b n = nth_id k b m -> n = m.
Proof. unfold nth_id, id_value. lia. Qed.

(** Every stream in a table was opened. *)
Definition table_inv {V} (c : Conn.t V) : Prop :=
  forall k id, id ∈ keys k c -> exists n, 0 <= n < opened k (base c) /\ id = nth_id k (base c) n.

Lemma evolves_table {V} (c c' : Conn.t V) : base_ok (base c) -> table_inv c -> evolves c c' -> table_inv c'.
Proof.
  intros Hb Ht He k id Hid. destruct (He Hb) as [_ H]. destruct (H k) as (Ho & Eo & Hk).
  pose proof (ok_credit _ Hb k) as [Hu _]. unfold nth_id. rewrite Eo. fold (nth_id k (base c)). unfold opened in *.
  destruct (Hk id Hid) as [Hin | (n & Hn & ->)].
  - destruct (Ht k id Hin) as (n & Hn & ->). exists n. split; [unfold opened in *; lia | done].
  - exists n. split; [lia | done].
Qed.

Lemma peer_id_kind b id : base_ok b -> StreamID.origin id = ConnBase.peer_origin b ->
  exists k, remote k /\ StreamID.type id = stype k /\ StreamID.origin id = side_origin k b.
Proof.
  intros Hb Ho. pose proof (ok_peer _ Hb remote_u) as P1. pose proof (ok_peer _ Hb remote_b) as P2.
  assert (Hn : StreamID.origin id <> unknown_origin).
  { rewrite Ho. unfold ConnBase.peer_origin. cbn [side_origin] in P1. rewrite P1. pose proof (ok_origin _ Hb). by destruct (ConnBase.local_origin b). }
  assert (Ht : StreamID.type id = uni \/ StreamID.type id = bidi).
  { unfold StreamID.origin in Hn. unfold StreamID.type. destruct (negb (StreamID.valid id)); [done |]. destruct (StreamID.type_raw id); auto. }
  destruct Ht as [Ht | Ht]; [exists remote_u | exists remote_b].
  - split; [by left | by split].
  - split; [by right |]. split; [done |]. rewrite Ho. unfold ConnBase.peer_origin. cbn [side_origin] in *. congruence.
Qed.

Lemma side_known b k : base_ok b -> side_origin k b <> unknown_origin.
Proof.
  intros Hb. pose proof (base_issuer_ok b k Hb) as H. destruct k; cbn [side_origin]; unfold issuer_ok, acceptor_ok in H; tauto.
Qed.

Lemma nth_id_type b k n : base_ok b -> 0 <= n < 2 ^ 60 -> StreamID.type (nth_id k b n) = stype k /\ StreamID.origin (nth_id k b n) = side_origin k b /\
  StreamID.seq_count (nth_id k b n) = n /\ is_u64 (nth_id k b n).
Proof.
  intros Hb Hn. destruct (id_value_fields n (side_origin k b) (stype k)) as (H1 & _ & H3 & H4 & H5).
  - unfold StreamID.seq_max. lia.
  - by apply side_known.
  - by destruct k.
  - unfold nth_id, is_u64. split; [done |]. split; [done |]. split; [done |]. lia.
Qed.

Lemma id_number id : is_u64 id -> StreamID.origin id <> unknown_origin -> 0 <= StreamID.seq_count id < 2 ^ 60.
Proof.
  intros Hid Ho. assert (Hv : StreamID.valid id = true).
  { unfold StreamID.origin in Ho. destruct (StreamID.valid id); [done | exfalso; by apply Ho]. }
  destruct (id_of_fields id _ _ Hid Hv eq_refl eq_refl) as [_ Hs]. unfold StreamID.seq_max in Hs. lia.
Qed.

(** What happens to the tables when a frame names a stream of the peer. *)
Lemma check_creation_spec {V} `{ConnHandlerLaws V} ty id (c : Conn.t V) :
  base_ok (base c) -> table_inv c -> is_u64 id -> check_recv_frame ty id (base c) = (false, None) ->
  exists k, remote k /\ StreamID.type id = stype k /\ StreamID.origin id = side_origin k (base c) /\
  let n := opened k (base c) in let seq := StreamID.seq_count id in
  ((seq < Limiter.limit (credit k (base c)) /\ exists c', check_creation ty id c = ((false, bool_decide (stype k = bidi), None), c') /\
     base_ok (base c') /\ opened k (base c') = Z.max n (seq + 1) /\ side_origin k (base c') = side_origin k (base c) /\
     (forall x, x ∈ keys k c' <-> x ∈ keys k c \/ exists m, n <= m <= seq /\ x = nth_id k (base c) m) /\
     (forall k', k' <> k -> keys k' c' = keys k' c) /\ grows (base c) (base c') /\ (seq < n -> c' = c)) \/
   (Limiter.limit (credit k (base c)) <= seq /\ exists e, check_creation ty id c = ((false, bool_decide (stype k = bidi), Some e), c))).
Proof.
  intros Hb Ht Hid Hf.
  assert (Ho : StreamID.origin id = ConnBase.peer_origin (base c)).
  { unfold check_recv_frame in Hf. destruct (bool_decide (StreamID.origin id = ConnBase.local_origin _)).
    - destruct (StreamID.type id); repeat case_match; simplify_eq.
    - case_bool_decide; [done |]. simplify_eq. }
  destruct (peer_id_kind _ id Hb Ho) as (k & Hk & Hty & Hor). exists k. split; [done |]. split; [done |]. split; [done |]. cbv zeta.
  unfold check_creation. rewrite Hf, Hty. pose proof (accept_exact (base c) k id Hb Hid Hk Hty) as Ha. cbv zeta in Ha.
  destruct (ConnBase.accept id (base c)) as [calls b']. destruct Ha as [(_ & Hlim & -> & Hg & Hop & Hsame) | (e & -> & -> & Hlim)].
  2: { right. split; [by apply Hlim |]. exists e. cbn [foldl create_one]. f_equal. destruct c as [[? ? ? ?] ? ? ? ? ? ? ?]. done. }
  left. split; [done |]. set (js := seqZ _ _). pose proof (ok_credit _ Hb k) as [Hu _].
  destruct (create_all_spec k (map (fun j => (nth_id k (base c) j, negb (j =? StreamID.seq_count id))) js) (set_base b' c) Hk) as (c' & E & K & O & G & C).
  - apply Forall_fmap. apply Forall_forall. intros j Hj%elem_of_seqZ. cbn [compose fst].
    apply (nth_id_type _ _ _ Hb). pose proof (id_number id Hid ltac:(rewrite Hor; by apply side_known)).
    pose proof (ok_issue _ Hb k) as Hi. unfold opened, id_bound in *. destruct Hk as [-> | ->]; lia.
  - rewrite map_map. cbn [fst]. apply (NoDup_fmap_2_strong (nth_id k (base c))); [by intros ? ? _ _ ?%nth_id_inj | apply NoDup_seqZ].
  - apply Forall_fmap. apply Forall_forall. intros j Hj%elem_of_seqZ. cbn [compose fst]. intros Hin.
    assert (Hin' : nth_id k (base c) j ∈ keys k c) by (by destruct k). destruct (Ht k _ Hin') as (m & Hm & Em%nth_id_inj). lia.
  - rewrite map_map in E. cbn [fst snd] in E. rewrite E. exists c'. split; [done |].
    assert (Hgc : grows (base c) (base c')) by (by transitivity b'). destruct (Hgc Hb) as [Hb' Hk'].
    split; [done |]. split; [unfold opened in *; by rewrite C |]. split; [apply Hk' |]. split; [| split; [| split; [done |]]].
    + intros x. rewrite K, elem_of_union, elem_of_list_to_set, map_map. cbn [fst].
      assert (Hkc : keys k (set_base b' c) = keys k c) by (by destruct k). rewrite Hkc, list_elem_of_fmap.
      split; [intros [(m & -> & [Hm1 Hm2]%elem_of_seqZ) | ?]; [right; exists m; split; [lia | done] | by left] |].
      intros [? | (m & Hm & ->)]; [by right | left]. exists m. split; [done |]. apply elem_of_seqZ. lia.
    + intros k0 Hk0. rewrite (O _ Hk0). by destruct k0.
    + intros Hlt. assert (Hjs : js = []) by (unfold js; rewrite Z.max_l, Z.sub_diag by lia; done). rewrite Hjs in E. cbn [map foldl] in E.
      injection E as <-. rewrite (Hsame Hlt). by destruct c as [[? ? ? ?] ? ? ? ? ? ? ?].
Qed.

(** ** Every operation evolves the connection *)

Section evolution.
Context {V : Type} `{ConnHandlerLaws V} (order : forall A, gmap Z A -> list Z).
Implicit Types c : Conn.t V.

Lemma check_creation_evolves ty id c : table_inv c -> is_u64 id -> evolves c (snd (check_creation ty id c)).
Proof.
  intros Ht Hid. destruct (check_recv_frame ty id (base c)) as [l e] eqn:E.
  destruct e as [e |]; [| destruct l]; try (unfold check_creation; rewrite E; reflexivity). intros Hb.
  destruct (check_creation_spec ty id c Hb Ht Hid E) as (k & Hk & Hty & Hor & [(Hl & c' & -> & Hb' & Hop & Eo & K & O & G & _) | (_ & e & ->)]).
  2: { revert Hb. cbn [snd]. change (evolves c c). reflexivity. }
  cbn [snd]. split; [done |]. intros k'. destruct (G Hb) as [_ Gk]. destruct (Gk k') as [G1 G2]. split; [done |]. split; [done |].
  intros x Hx. destruct (decide (k' = k)) as [-> | Hne]; [| left; by rewrite <-(O _ Hne)].
  apply K in Hx as [? | (m & Hm & ->)]; [by left | right]. exists m. split; [lia | done].
Qed.

Lemma remove_impl_keys {A} (f : A -> bool) id (m : gmap Z A) : dom (snd (remove_impl f id m)) ⊆ dom m.
Proof. unfold remove_impl. destruct (m !! id) as [s |]; [| done]. destruct (negb _); [done |]. cbn [snd]. rewrite dom_delete_L. set_solver. Qed.

Lemma remove_internal_evolves id from_user c : evolves c (snd (remove_internal id from_user c)).
Proof.
  unfold remove_internal.
  match goal with |- context [let '(res, c) := ?r in _] => set (p := r) end.
  assert (Hp : evolves c (snd p)).
  { subst p. repeat case_match; cbn [snd]; try reflexivity;
      match goal with E : remove_impl ?f ?i ?m = _ |- _ => pose proof (remove_impl_keys f i m) as Hk; rewrite E in Hk end;
      (apply evolves_kept; [reflexivity |]); intros []; done. }
  destruct p as [res c1]. cbn [snd] in *. destruct (_ && _); [| done]. etrans; [done | apply on_remove_evolves].
Qed.

Lemma maybe_remove_evolves id r c : evolves c (snd (maybe_remove id r c)).
Proof.
  unfold maybe_remove. destruct (_ && _); [| reflexivity]. pose proof (remove_internal_evolves id false c) as Hr.
  destruct (remove_internal id false c) as [fat c']. by destruct (bool_decide _).
Qed.

(** A stream put back under its key, with what it left of the connection. *)
Lemma shared_base (k : option ConnFlowControl.t) v c : left_grown (control c) k -> grows (base c) (base (shared k v c)).
Proof. by intros (k' & -> & Hg). Qed.

Lemma insert_kept {A} (m : gmap Z A) id x y : m !! id = Some y -> dom (<[id := x]> m) ⊆ dom m.
Proof. intros E. rewrite dom_insert_L. apply elem_of_dom_2 in E. set_solver. Qed.

Lemma dispatch_evolves a id l b c : evolves c (snd (dispatch a id l b c)).
Proof.
  assert (Hfin : forall c1 (err : option Error) r, evolves c c1 ->
    evolves c (snd (match err with Some e => (Some e, false, c1) | None => maybe_remove id r c1 end))).
  { intros c1 [] r Hc; [done |]. etrans; [done | apply maybe_remove_evolves]. }
  unfold dispatch. destruct l, b.
  - unfold find_local_bidi. destruct (local_bidi c !! id) as [s |] eqn:E; [| reflexivity].
    pose proof (recv_bidi_left (saver_of id c) a (control c) (user c) s) as Hl.
    destruct (BidiStream.recv _ _ _ _ _) as [err [[k v] s']]. cbn [fst snd] in Hl. apply Hfin. apply evolves_kept; [by apply (shared_base k v) |].
    destruct Hl as (k' & -> & _). intros []; try done. by eapply insert_kept.
  - unfold find_send_uni. destruct (local_uni c !! id) as [s |] eqn:E; [| reflexivity].
    etrans; [| apply maybe_remove_evolves]. apply evolves_kept; [reflexivity |]. intros []; try done. by eapply insert_kept.
  - unfold find_remote_bidi. destruct (remote_bidi c !! id) as [s |] eqn:E; [| reflexivity].
    pose proof (recv_bidi_left (saver_of id c) a (control c) (user c) s) as Hl.
    destruct (BidiStream.recv _ _ _ _ _) as [err [[k v] s']]. cbn [fst snd] in Hl. apply Hfin. apply evolves_kept; [by apply (shared_base k v) |].
    destruct Hl as (k' & -> & _). intros []; try done. by eapply insert_kept.
  - unfold find_recv_uni. destruct (remote_uni c !! id) as [s |] eqn:E; [| reflexivity].
    pose proof (recv_uni_left (saver_of id c) a (control c) (user c) s) as Hl.
    destruct (RecvUniStream.recv _ _ _ _ _) as [err [[k v] s']]. cbn [fst snd] in Hl. apply Hfin. apply evolves_kept; [by apply (shared_base k v) |].
    destruct Hl as (k' & -> & _). intros []; try done. by eapply insert_kept.
Qed.

Lemma recv_evolves a c : table_inv c -> (forall id r, get_streamID a = Some (id, r) -> is_u64 id) -> evolves c (snd (ConnOps.recv a c)).
Proof.
  intros Ht Hid. unfold ConnOps.recv.
  match goal with |- context [let '(r, c) := ?x in (r, recv_callback c)] => set (p := x) end.
  assert (Hp : evolves c (snd p)).
  { subst p. assert (Hc : evolves c (snd (if is_ConnRelated (type_detail_of a)
        then let '(err, k) := ConnFlowControl.recv a (control c) in ((true, err), set_control k c) else ((false, None), c)))).
    { destruct (is_ConnRelated _); [| reflexivity]. unfold ConnFlowControl.recv. pose proof (conn_recv_grows a (base c)) as Hg.
      destruct (conn_recv _ _) as [err b]. by apply evolves_kept; [| intros []]. }
    destruct (get_streamID a) as [[id []] |] eqn:E; [| exact Hc | exact Hc].
    unfold recv_stream_related. pose proof (check_creation_evolves (type_detail_of a) id c Ht (Hid _ _ eq_refl)) as H1.
    destruct (check_creation _ _ _) as [[[l b] [e |]] c1]; [done |]. cbn [snd] in H1.
    pose proof (dispatch_evolves a id l b c1) as H2. destruct (dispatch a id l b c1) as [[err rs] c2]. cbn [snd] in *.
    etrans; [done |]. etrans; [done |]. destruct rs; [apply on_remove_evolves | reflexivity]. }
  destruct p as [r c1]. cbn [snd] in *. etrans; [done | apply recv_callback_evolves].
Qed.

Lemma do_send_evolves send1 erase : (forall id w o c, evolves c (snd (send1 id w o c))) -> (forall id c, evolves c (erase id c)) ->
  forall ids w o rs c, evolves c (snd (do_send send1 erase ids w o rs c)).
Proof.
  intros Hs He. induction ids as [| id ids IH]; intros w o rs c; cbn [do_send]; [reflexivity |].
  pose proof (Hs id w o c) as H1. destruct (send1 id w o c) as [[[[res w1] o1] rm] c1]. cbn [snd] in H1.
  destruct res; try done; (destruct (_ && _); [etrans; [done |]; etrans; [apply (He id) |]; apply IH | etrans; [done | apply IH]]).
Qed.

Lemma send_one_evolves id w o c :
  evolves c (snd (send_local_uni id w o c)) /\ evolves c (snd (send_local_bidi id w o c)) /\
  evolves c (snd (send_remote_bidi id w o c)) /\ evolves c (snd (send_remote_uni id w o c)).
Proof.
  split; [| split; [| split]].
  - unfold send_local_uni. destruct (local_uni c !! id) as [s |] eqn:E; [| reflexivity].
    pose proof (send_uni_left w o (control c) s) as Hl. destruct (SendUniStream.send _ _ _ _) as [[res ?] [[[w1 o1] k] s']]. cbn [fst snd] in Hl.
    apply evolves_kept; [by apply (shared_base k (user c)) |]. destruct Hl as (k' & -> & _). intros []; try done. by eapply insert_kept.
  - unfold send_local_bidi. destruct (local_bidi c !! id) as [s |] eqn:E; [| reflexivity].
    pose proof (send_bidi_left (saver_of id c) w o (control c) (user c) s) as Hl.
    destruct (BidiStream.send _ _ _ _ _ _) as [[res ?] [[[[w1 o1] k] v] s']]. cbn [fst snd] in Hl.
    apply evolves_kept; [by apply (shared_base k v) |]. destruct Hl as (k' & -> & _). intros []; try done. by eapply insert_kept.
  - unfold send_remote_bidi. destruct (remote_bidi c !! id) as [s |] eqn:E; [| reflexivity].
    pose proof (send_bidi_left (saver_of id c) w o (control c) (user c) s) as Hl.
    destruct (BidiStream.send _ _ _ _ _ _) as [[res ?] [[[[w1 o1] k] v] s']]. cbn [fst snd] in Hl.
    apply evolves_kept; [by apply (shared_base k v) |]. destruct Hl as (k' & -> & _). intros []; try done. by eapply insert_kept.
  - unfold send_remote_uni. destruct (remote_uni c !! id) as [s |] eqn:E; [| reflexivity].
    destruct (RecvUniStream.send _ _ _ _ _) as [[[[res w1] o1] v] s'].
    apply evolves_kept; [reflexivity |]. intros []; try done. by eapply insert_kept.
Qed.

Lemma default_send_evolves w o c : evolves c (snd (default_send_schedule order w o c)).
Proof.
  assert (He : forall id c, evolves c (erase_local_bidi id c) /\ evolves c (erase_local_uni id c) /\
                            evolves c (erase_remote_bidi id c) /\ evolves c (erase_remote_uni id c)).
  { intros id c'. repeat split_and!; (apply evolves_kept; [reflexivity |]); intros []; try done; simpl; rewrite dom_delete_L; set_solver. }
  unfold default_send_schedule.
  match goal with |- context [do_send ?s ?e ?l ?w ?o ?rs ?c0] =>
    pose proof (do_send_evolves s e (fun id w o c => proj1 (proj2 (send_one_evolves id w o c))) (fun id c => proj1 (He id c)) l w o rs c0) as H1;
    destruct (do_send s e l w o rs c0) as [[[[r1 w1] o1] rs1] c1] end. cbn [snd] in H1.
  assert (Hf : forall r (w : fwriter) (o : observer) (rs : bool) c1, evolves c c1 -> evolves c (snd (default io_ok r, w, o, if rs then on_remove_stream c1 else c1))).
  { intros r w' o' [] c' Hc; cbn [snd]; [etrans; [done | apply on_remove_evolves] | done]. }
  destruct r1; [by apply (Hf (Some i)) |].
  match goal with |- context [do_send ?s ?e ?l ?w ?o ?rs ?c0] =>
    pose proof (do_send_evolves s e (fun id w o c => proj1 (send_one_evolves id w o c)) (fun id c => proj1 (proj2 (He id c))) l w o rs c0) as H2;
    destruct (do_send s e l w o rs c0) as [[[[r2 w2] o2] rs2] c2] end. cbn [snd] in H2. assert (Hc2 : evolves c c2) by (by etrans).
  destruct r2; [by apply (Hf (Some i)) |].
  match goal with |- context [do_send ?s ?e ?l ?w ?o ?rs ?c0] =>
    pose proof (do_send_evolves s e (fun id w o c => proj1 (proj2 (proj2 (send_one_evolves id w o c)))) (fun id c => proj1 (proj2 (proj2 (He id c)))) l w o rs c0) as H3;
    destruct (do_send s e l w o rs c0) as [[[[r3 w3] o3] rs3] c3] end. cbn [snd] in H3. assert (Hc3 : evolves c c3) by (by etrans).
  destruct r3; [by apply (Hf (Some i)) |].
  match goal with |- context [do_send ?s ?e ?l ?w ?o ?rs ?c0] =>
    pose proof (do_send_evolves s e (fun id w o c => proj2 (proj2 (proj2 (send_one_evolves id w o c)))) (fun id c => proj2 (proj2 (proj2 (He id c)))) l w o rs c0) as H4;
    destruct (do_send s e l w o rs c0) as [[[[r4 w4] o4] rs4] c4] end. cbn [snd] in H4. apply (Hf r4). by etrans.
Qed.

Lemma send_evolves w o c : evolves c (snd (ConnOps.send order w o c)).
Proof.
  unfold ConnOps.send. pose proof (send_callback_evolves c) as H1. set (c1 := send_callback c) in *.
  pose proof (control_send_grows w o (control c1)) as Hg. destruct (ConnFlowControl.send w o (control c1)) as [[[res w1] o1] k].
  assert (H2 : evolves c (set_control k c1)) by (etrans; [done |]; by apply evolves_kept; [| intros []]).
  destruct (bool_decide _); [done |]. etrans; [done |]. apply send_schedule_evolves. intros. apply default_send_evolves.
Qed.
End evolution.

(** ** Runs of a connection *)

(** Initial limits that do not take back what is in use. *)
Definition covers_local (lim : InitialLimits) (b : StreamsState) : Prop :=
  opened remote_u b <= uni_stream_limit lim /\ opened remote_b b <= bidi_stream_limit lim /\
  Limiter.used (flow_recv (conn_flow b)) <= conn_data_limit lim.
Definition covers_peer (lim : InitialLimits) (b : StreamsState) : Prop :=
  opened local_u b <= uni_stream_limit lim <= 2 ^ 60 /\ opened local_b b <= bidi_stream_limit lim <= 2 ^ 60 /\
  Limiter.used (flow_send (conn_flow b)) <= conn_data_limit lim.

(** One step: an operation of the connection, or anything the user does to
    the streams themselves. *)
Inductive conn_step {V} `{ConnHandler V} (order : forall A, gmap Z A -> list Z) : Conn.t V -> Conn.t V -> Prop :=
  | step_open_uni c : conn_step order c (snd (ConnOps.open_uni c))
  | step_open_bidi c : conn_step order c (snd (ConnOps.open_bidi c))
  | step_conn_recv a c : (forall id r, get_streamID a = Some (id, r) -> is_u64 id) -> conn_step order c (snd (ConnOps.recv a c))
  | step_conn_send w o c : conn_step order c (snd (ConnOps.send order w o c))
  | step_remove id c : conn_step order c (snd (ConnOps.remove id c))
  | step_update_uni d c : conn_step order c (snd (Conn.update_max_uni_streams d c))
  | step_update_bidi d c : conn_step order c (snd (Conn.update_max_bidi_streams d c))
  | step_update_data d c : conn_step order c (snd (Conn.update_max_data d c))
  | step_local_limits lim c : covers_local lim (base c) -> conn_step order c (Conn.apply_local_initial_limits lim c)
  | step_peer_limits lim c : covers_peer lim (base c) -> conn_step order c (Conn.apply_peer_initial_limits lim c)
  | step_user c c' : base c' = base c -> (forall k, keys k c' = keys k c) -> conn_step order c c'.

Lemma set_limit_ok n l : limiter_ok l -> Limiter.used l <= n -> limiter_ok (snd (Limiter.set_limit n l)) /\
  Limiter.used (snd (Limiter.set_limit n l)) = Limiter.used l /\
  (Limiter.limit (snd (Limiter.set_limit n l)) = n \/ Limiter.limit (snd (Limiter.set_limit n l)) = Limiter.limit l).
Proof.
  unfold limiter_ok, Limiter.set_limit. change (varint.border 8) with (2 ^ 62). intros [H1 H2] Hn.
  destruct (Z.leb_spec (2 ^ 62) n); simpl; lia.
Qed.


Lemma local_limits_grow lim b : covers_local lim b -> grows b (set_recv_initial_limit lim b).
Proof.
  intros (H1 & H2 & H3). apply grows_all; [by intros [] | |].
  - intros []. split; [done |]. by apply set_limit_ok.
  - intros Hb k. pose proof (side_kept b k Hb) as Hk. pose proof (ok_issue _ Hb k) as Hi. unfold opened, id_bound in *.
    destruct k; try exact Hk; cbn [credit set_recv_initial_limit uni_acceptor bidi_acceptor acceptor_set_limit Acceptor.limit] in *.
    + destruct (set_limit_ok _ _ (ok_credit _ Hb remote_u) H1) as (L1 & L2 & _). unfold opened in *. cbn [credit] in *. split; [done |]. cbn. lia.
    + destruct (set_limit_ok _ _ (ok_credit _ Hb remote_b) H2) as (L1 & L2 & _). unfold opened in *. cbn [credit] in *. split; [done |]. cbn. lia.
Qed.

Lemma peer_limits_grow lim b : covers_peer lim b -> grows b (set_send_initial_limit lim b).
Proof.
  intros (H1 & H2 & H3). apply grows_all; [by intros [] | |].
  - intros []. split; [by apply set_limit_ok | done].
  - intros Hb k. pose proof (side_kept b k Hb) as Hk. pose proof (ok_issue _ Hb k) as Hi. unfold opened, id_bound in *.
    destruct k; try exact Hk; cbn [credit set_send_initial_limit uni_issuer bidi_issuer issuer_set_limit Issuer.limit] in *.
    + destruct (set_limit_ok _ _ (ok_credit _ Hb local_u) (proj1 H1)) as (L1 & L2 & L3). unfold opened in *. cbn [credit] in *. split; [done |]. lia.
    + destruct (set_limit_ok _ _ (ok_credit _ Hb local_b) (proj1 H2)) as (L1 & L2 & L3). unfold opened in *. cbn [credit] in *. split; [done |]. lia.
Qed.

Lemma conn_step_evolves {V} `{ConnHandlerLaws V} order (c c' : Conn.t V) : table_inv c -> conn_step order c c' -> evolves c c'.
Proof.
  intros Ht Hs. revert Ht. destruct Hs as [c | c | a c Hid | w o c | id c | d c | d c | d c | lim c Hl | lim c Hl | c c' Hb Hk]; intros Ht.
  - apply open_uni_evolves.
  - apply open_bidi_evolves.
  - by apply recv_evolves.
  - apply send_evolves.
  - apply remove_internal_evolves.
  - unfold Conn.update_max_uni_streams, ConnFlowControl.update_max_uni_streams. pose proof (update_max_uni_grows d (base c)) as Hg.
    destruct (ConnBase.update_max_uni_streams _ _) as [ok b]. by apply evolves_kept; [| intros []].
  - unfold Conn.update_max_bidi_streams, ConnFlowControl.update_max_bidi_streams. pose proof (update_max_bidi_grows d (base c)) as Hg.
    destruct (ConnBase.update_max_bidi_streams _ _) as [ok b]. by apply evolves_kept; [| intros []].
  - unfold Conn.update_max_data, ConnFlowControl.update_max_data. pose proof (update_max_data_grows d (base c)) as Hg.
    destruct (ConnBase.update_max_data _ _) as [ok b]. by apply evolves_kept; [| intros []].
  - apply evolves_kept; [by apply local_limits_grow |]. intros []; simpl; by rewrite ?dom_fmap_L.
  - apply evolves_kept; [by apply peer_limits_grow |]. intros []; simpl; by rewrite ?dom_fmap_L.
  - apply evolves_kept; [by rewrite Hb |]. intros k. by rewrite Hk.
Qed.

Lemma conn_steps_evolve {V} `{ConnHandlerLaws V} order (c c' : Conn.t V) : base_ok (base c) -> table_inv c ->
  rtc (conn_step order) c c' -> evolves c c' /\ base_ok (base c') /\ table_inv c'.
Proof.
  intros Hb Ht Hs. induction Hs as [c | x y z Hxy _ IH]; [by split; [reflexivity |] |].
  pose proof (conn_step_evolves order x y Ht Hxy) as He. destruct (He Hb) as [Hy _].
  destruct (IH Hy (evolves_table _ _ Hb Ht He)) as (E & B & T). split; [by etrans |]. done.
Qed.

Lemma new_conn_ok {V} self (v : V) : self <> unknown_origin -> base_ok (base (Conn.new self v)) /\ table_inv (Conn.new self v).
Proof.
  intros Hs. split.
  - split; try done; intros []; try done; unfold limiter_ok; cbn; lia.
  - intros [] id Hid; cbn in Hid; exfalso; revert Hid; apply not_elem_of_empty.
Qed.

(** * Properties *)


(** C40. What a frame that names a stream of the peer does to the tables: beyond
    the announced limit it is an error and nothing changes; for a stream that
    was opened and is gone it is ignored; otherwise all the streams of the
    kind up to the named one that were not opened yet are created, no other
    table is touched, and the frame is handed to its stream. *)
Theorem peer_frame_creates {V} `{ConnHandlerLaws V} a id (c : Conn.t V) :
  base_ok (base c) -> table_inv c -> is_u64 id -> check_recv_frame (type_detail_of a) id (base c) = (false, None) ->
  exists k, remote k /\ StreamID.type id = stype k /\
  let n := opened k (base c) in let seq := StreamID.seq_count id in
  if Limiter.limit (credit k (base c)) <=? seq then exists e, recv_stream_related a id c = (Some e, c)
  else if (seq <? n) && bool_decide (id ∉ keys k c) then recv_stream_related a id c = (None, c)
  else exists c1 err rm c2, id ∈ keys k c1 /\
    (forall x, x ∈ keys k c1 <-> x ∈ keys k c \/ exists m, n <= m <= seq /\ x = nth_id k (base c) m) /\
    (forall k', k' <> k -> keys k' c1 = keys k' c) /\
    dispatch a id false (bool_decide (stype k = bidi)) c1 = (err, rm, c2) /\
    recv_stream_related a id c = (err, if rm then on_remove_stream c2 else c2).
Proof.
  intros Hb Ht Hid Hf. destruct (check_creation_spec _ id c Hb Ht Hid Hf) as (k & Hk & Hty & Hor & Hcase). exists k.
  split; [done |]. split; [done |]. cbv zeta in *. unfold recv_stream_related.
  destruct Hcase as [(Hlim & c1 & E & Hb1 & Hop & Eo & K & O & G & Hsame) | (Hlim & e & ->)].
  2: { rewrite leb_true by done. by exists e. }
  rewrite leb_false by done. rewrite E.
  assert (Hnth : id = nth_id k (base c) (StreamID.seq_count id) /\ 0 <= StreamID.seq_count id).
  { destruct (id_of_fields id (side_origin k (base c)) (stype k) Hid) as [E1 E2]; [| done | done | split; [exact E1 | lia]].
    apply (valid_of_type id (stype k)); [by destruct k | done]. }
  destruct Hnth as [Hnth Hseq]. destruct (Z.ltb_spec (StreamID.seq_count id) (opened k (base c))) as [Hlt | Hge]; cbn [andb].
  - destruct (bool_decide_reflect (id ∉ keys k c)) as [Hout | Hin].
    + rewrite (Hsame Hlt). unfold dispatch, find_remote_bidi, find_recv_uni.
      destruct Hk as [-> | ->]; cbn [stype keys] in *; [rewrite bool_decide_false by done | rewrite bool_decide_true by done];
        apply not_elem_of_dom in Hout; by rewrite Hout.
    + destruct (dispatch a id false (bool_decide (stype k = bidi)) c1) as [[err rm] c2] eqn:Ed.
      exists c1, err, rm, c2. apply dec_stable in Hin. split; [apply K; by left |]. done.
  - destruct (dispatch a id false (bool_decide (stype k = bidi)) c1) as [[err rm] c2] eqn:Ed.
    exists c1, err, rm, c2. split; [apply K; right; exists (StreamID.seq_count id); split; [lia | done] |]. done.
Qed.

(** Opening a stream takes the next number: with credit left the stream
    returned has the id of the next number, which was in no table, and is put
    into the table of its kind; without credit none is returned and nothing
    changes. *)
Theorem open_takes_next {V} `{ConnHandlerLaws V} (c : Conn.t V) :
  base_ok (base c) -> table_inv c ->
  (let n := opened local_u (base c) in
   let '(r, c') := ConnOps.open_uni c in
   if n <? Limiter.limit (credit local_u (base c))
   then r = Some (nth_id local_u (base c) n) /\ nth_id local_u (base c) n ∉ keys local_u c /\
        keys local_u c' = {[nth_id local_u (base c) n]} ∪ keys local_u c /\ opened local_u (base c') = n + 1
   else r = None /\ c' = c) /\
  (let n := opened local_b (base c) in
   let '(r, c') := ConnOps.open_bidi c in
   if n <? Limiter.limit (credit local_b (base c))
   then r = Some (nth_id local_b (base c) n) /\ nth_id local_b (base c) n ∉ keys local_b c /\
        keys local_b c' = {[nth_id local_b (base c) n]} ∪ keys local_b c /\ opened local_b (base c') = n + 1
   else r = None /\ c' = c).
Proof.
  intros Hb Ht.
  assert (Hout : forall k, nth_id k (base c) (opened k (base c)) ∉ keys k c).
  { intros k Hin. destruct (Ht k _ Hin) as (m & Hm & Em%nth_id_inj). lia. }
  split; cbv zeta.
  - pose proof (open_impl_spec _ (base_issuer_ok _ local_u Hb)) as Ho. cbv zeta in Ho. specialize (Hout local_u).
    unfold ConnOps.open_uni, ConnBase.open_uni. rewrite Ho. change (Issuer.limit (uni_issuer (base c))) with (credit local_u (base c)). fold (opened local_u (base c)).
    pose proof (ok_types _ Hb local_u) as Tk. cbn [side_type stype] in Tk. rewrite Tk.
    change (id_value (opened local_u (base c)) (Issuer.origin (uni_issuer (base c))) uni) with (nth_id local_u (base c) (opened local_u (base c))).
    destruct (opened local_u (base c) <? Limiter.limit (credit local_u (base c))).
    + pose proof (proj1 (not_elem_of_dom (local_uni c) _) Hout) as Hn. change (local_uni (set_base ?b ?x)) with (local_uni x). rewrite Hn.
      set (c1 := set_local_uni _ _). destruct (uni_open_quiet (nth_id local_u (base c) (opened local_u (base c))) c1) as (G & K & C).
      split; [done |]. split; [done |]. split; [rewrite (K local_u); apply dom_insert_L |].
      unfold opened at 1. rewrite (C local_u). done.
    + split; [done |]. by destruct c as [[[? ? ? ? ? ? ?] ? ? ?] ? ? ? ? ? ? ?].
  - pose proof (open_impl_spec _ (base_issuer_ok _ local_b Hb)) as Ho. cbv zeta in Ho. specialize (Hout local_b).
    unfold ConnOps.open_bidi, ConnBase.open_bidi. rewrite Ho. change (Issuer.limit (bidi_issuer (base c))) with (credit local_b (base c)). fold (opened local_b (base c)).
    pose proof (ok_types _ Hb local_b) as Tk. cbn [side_type stype] in Tk. rewrite Tk.
    change (id_value (opened local_b (base c)) (Issuer.origin (bidi_issuer (base c))) bidi) with (nth_id local_b (base c) (opened local_b (base c))).
    destruct (opened local_b (base c) <? Limiter.limit (credit local_b (base c))).
    + pose proof (proj1 (not_elem_of_dom (local_bidi c) _) Hout) as Hn. change (local_bidi (set_base ?b ?x)) with (local_bidi x). rewrite Hn.
      set (c1 := set_local_bidi _ _). destruct (bidi_open_quiet (nth_id local_b (base c) (opened local_b (base c))) c1) as (G & K & C).
      split; [done |]. split; [done |]. split; [rewrite (K local_b); apply dom_insert_L |].
      unfold opened at 1. rewrite (C local_b). done.
    + split; [done |]. by destruct c as [[[? ? ? ? ? ? ?] ? ? ?] ? ? ? ? ? ? ?].
Qed.

(** The limit on unidirectional streams is never raised automatically: with
    the increase of unidirectional streams switched on, and nothing else, it
    is the limit on bidirectional streams that [auto_increase] raises, by
    comparing its credit with the number of unidirectional streams; the limit
    on unidirectional streams stays as it was. *)
Theorem uni_limit_not_raised {V} (c : Conn.t V) :
  let c' := AutoIncreaser.auto_increase (AutoIncreaser.mk true false false) c in
  credit remote_u (base c') = credit remote_u (base c) /\
  (limiter_ok (credit remote_b (base c)) ->
   let ini := bidi_stream_limit (recv_ini_limit (base c)) in
   let l := credit remote_b (base c) in
   Limiter.limit l - Limiter.used l + remote_uni_avail c < ini < 2 ^ 60 -> Limiter.used l < 2 ^ 60 ->
   Limiter.limit (credit remote_b (base c')) = Limiter.used l + ini).
Proof.
  cbv zeta. unfold AutoIncreaser.auto_increase, Conn.update_max_bidi_streams, ConnFlowControl.update_max_bidi_streams,
    ConnBase.update_max_bidi_streams, Acceptor.update_limit.
  cbn [AutoIncreaser.auto_increase_bidi_stream AutoIncreaser.auto_increase_uni_stream AutoIncreaser.auto_increase_max_data].
  fold (base c). fold (credit remote_b (base c)). set (l := credit remote_b (base c)). set (ini := bidi_stream_limit _).
  split; [by destruct (Limiter.update_limit _ _) |]. intros Hl Hini Hu. pose proof Hl as [H1 H2].
  assert (Ha : 0 <= remote_uni_avail c) by (unfold remote_uni_avail; lia).
  unfold AutoIncreaser.increased, Limiter.current_limit. rewrite (avail_eq l Hl), !u64_small, ltb_true by (unfold is_u64; lia).
  unfold Limiter.update_limit. change (varint.border 8) with (2 ^ 62). rewrite leb_false, ltb_true by lia. simpl. lia.
Qed.

(** * Instances *)

(** No callbacks, automatic increase of the bidirectional streams. *)
Definition plain_handler : ConnHandler unit :=
  ConnHandlerSingleArg.handler (ConnHandlerSingleArg.mk None None None None None (AutoIncreaser.mk false true false)).

Lemma plain_laws : @ConnHandlerLaws unit plain_handler.
Proof.
  apply single_arg_laws; [| done]. intros cb id c Hcb.
  assert (cb = None) as -> by (destruct Hcb as [-> | [-> | [-> | ->]]]; done). apply quiet_refl.
Qed.

Definition keys_of (A : Type) (m : gmap Z A) : list Z := map fst (map_to_list m).

(** A server whose peer may open two streams of each kind, and may itself
    open two. *)
Definition small_limits : InitialLimits := mk_limits 1000 2 2 100 100 100.
Definition small_conn : Conn.t unit :=
  Conn.apply_peer_initial_limits small_limits (Conn.apply_local_initial_limits small_limits (Conn.new server tt)).

Lemma small_conn_runs : rtc (@conn_step unit plain_handler keys_of) (Conn.new server tt) small_conn.
Proof.
  eapply rtc_l. { apply (step_local_limits keys_of small_limits). unfold covers_local, opened. vm_compute. split_and!; discriminate. }
  eapply rtc_l. { apply (step_peer_limits keys_of small_limits). unfold covers_peer, opened. vm_compute. split_and!; discriminate. }
  apply rtc_refl.
Qed.

Lemma small_conn_ok : base_ok (base small_conn) /\ table_inv small_conn.
Proof.
  destruct (new_conn_ok server tt ltac:(done)) as [B T].
  destruct (@conn_steps_evolve unit plain_handler plain_laws keys_of _ _ B T small_conn_runs) as (_ & B' & T'). done.
Qed.


Definition second_stream : StreamFrame.t :=
  StreamFrame.mk FrameType.STREAM (varint.of_uint 4) (varint.of_uint 0) (varint.of_uint 3) [1; 2; 3].

(** The first frame is for the peer's second stream: the first one is created
    with it. *)
Lemma peer_frame_creates_witness :
  keys remote_b (snd (@recv_stream_related unit plain_handler (Stream second_stream) 4 small_conn)) = {[0; 4]} /\
  exists k, remote k /\ StreamID.type 4 = stype k /\ ~ Limiter.limit (credit k (base small_conn)) <= StreamID.seq_count 4.
Proof.
  split; [vm_compute; reflexivity |].
  destruct (@peer_frame_creates unit plain_handler plain_laws (Stream second_stream) 4 small_conn
    (proj1 small_conn_ok) (proj2 small_conn_ok)) as (k & Hk & Hty & _).
  - unfold is_u64. lia.
  - vm_compute. reflexivity.
  - exists k. split; [done |]. split; [done |]. destruct Hk as [-> | ->]; vm_compute; intros Hx; by apply Hx.
Defined.

Lemma open_takes_next_witness :
  fst (@ConnOps.open_uni unit plain_handler small_conn) = Some 3 /\ fst (@ConnOps.open_bidi unit plain_handler small_conn) = Some 1.
Proof.
  destruct (@open_takes_next unit plain_handler plain_laws small_conn (proj1 small_conn_ok) (proj2 small_conn_ok)) as [Hu Hb].
  cbv zeta in *. destruct (ConnOps.open_uni small_conn) as [r c']. destruct (ConnOps.open_bidi small_conn) as [r2 c2].
  change (opened local_u (base small_conn) <? _) with true in Hu. change (opened local_b (base small_conn) <? _) with true in Hb.
  destruct Hu as [-> _], Hb as [-> _]. split; vm_compute; reflexivity.
Defined.

Lemma uni_limit_not_raised_witness :
  let c' := AutoIncreaser.auto_increase (AutoIncreaser.mk true false false)
              (snd (@recv_stream_related unit plain_handler (Stream second_stream) 4 small_conn)) in
  credit remote_u (base c') = credit remote_u (base small_conn) /\ Limiter.limit (credit remote_b (base c')) = 4.
Proof.
  cbv zeta. set (c := snd (recv_stream_related (Stream second_stream) 4 small_conn)).
  destruct (uni_limit_not_raised c) as [H1 H2]. split; [rewrite H1; vm_compute; reflexivity |].
  rewrite H2; [vm_compute; reflexivity | split; [split |]; vm_compute; reflexivity || discriminate | split; vm_compute; reflexivity | vm_compute; reflexivity].
Defined.
