(* ===== verification/QuicContext.v ===== *)
(** * QuicContext: the connection

    Models [fnet/quic/context/context.h], the object that drives every part of
    a connection: which frames go into a packet, which packets into a
    datagram, closing, timeouts. [ContextRecv] holds the receiving side and
    the start of a connection.

    The state is the record [t], one field per member; the records of the
    packets in flight are in [recs], the state of the application (random
    numbers, exported ids, token storage) is [world]. An operation is a
    function of the monad [M]: it takes the state and gives a result and the
    new state, or [None] where the language leaves the behaviour undefined or
    a loop does not end. Each call that reads the clock sees readings of its
    own: call number [tick] sees [clock tick 0], [clock tick 1], ...

    The buffer packets are written to is scratch: no byte of it is read before
    it is written, so a fresh writer is made for each datagram. Logging and
    the trace callback do not touch the state. Of the locks nothing is
    modelled: the calls of one connection are made one after another. *)

From stdpp Require Import base list gmap strings.
From Stdlib Require Import ZArith Lia.
From S2P Require Import Prelude Bytes PacketNumber Types ShortPacket PacketParse FrameBase FrameStream FrameAck FrameParse QTime Rtt PnManage Congestion Status AckRecord RecvHistory SentHistory ConnBase StreamImpl StreamConn Datagram Keys PacketProtect CryptoStream KeyUpdate TransportParam ConnId Path Close.

#[local] Open Scope string_scope.
#[local] Open Scope Z_scope.
#[local] Open Scope list_scope.

(** ** What a connection is given

    The calls of the TLS library that a context makes itself. *)
Class TLSConn (T : Type) := {
  get_peer_quic_transport_params : T -> option (list Z);
  get_early_data_accepted : T -> bool;
  set_quic_transport_params : list Z -> T -> option Error * T;
  set_hostname : list Z -> T -> option Error * T
}.

(** The orders in which containers are walked, the sorting of CRYPTO
    fragments, the text of an error that is not a [QUICError], whether an
    allocation of no bytes is a null pointer, the rounds of the loop that
    looks for dead path probes, and the clock. *)
Class Env := {
  sent_order : gmap Z SentPacket -> list (Z * SentPacket);
  stream_order : forall X : Type, gmap Z X -> list Z;
  sort_fragments : list CryptoRecvFragment -> list CryptoRecvFragment;
  error_text : Error -> list Z;
  null_if_empty : bool;
  probe_fuel : nat;
  clock_at : nat -> nat -> Z
}.

(** ** Enumerations and errors *)

(** [enum class WriteFlag] *)
Module WriteFlag.
Definition normal : Z := 0x0.
Definition mtu_probe : Z := 0x1.
Definition conn_close : Z := 0x2.
Definition path_probe : Z := 0x3.
Definition path_migrate : Z := 0x4.
Definition write_mode_mask : Z := 0x0f.
Definition use_all_buffer : Z := 0x10.
Definition both (a b : Z) : bool := negb (Z.land a b =? 0).
End WriteFlag.

Inductive CloseReason :=
  | not_closed | handshake_timeout | idle_timeout | close_by_remote | close_by_local_runtime | close_by_local_app.

#[global] Instance CloseReason_eq_dec : EqDecision CloseReason.
Proof. solve_decision. Defined.

(** [int(TransportError)] *)
Definition transport_error_code (e : TransportError) : Z :=
  match e with
  | NO_ERROR => 0x00 | INTERNAL_ERROR => 0x01 | CONNECTION_REFUSED => 0x02 | FLOW_CONTROL_ERROR => 0x03
  | STREAM_LIMIT_ERROR => 0x04 | STREAM_STATE_ERROR => 0x05 | FINAL_SIZE_ERROR => 0x06 | FRAME_ENCODING_ERROR => 0x07
  | TRANSPORT_PARAMETER_ERROR => 0x08 | CONNECTION_ID_LIMIT_ERROR => 0x09 | PROTOCOL_VIOLATION => 0x0a
  | INVALID_TOKEN => 0x0b | APPLICATION_ERROR => 0x0c | CRYPTO_BUFFER_EXCEEDED => 0x0d | KEY_UPDATE_ERROR => 0x0e
  | AEAD_LIMIT_REACHED => 0x0f | NO_VIABLE_PATH => 0x10 | CRYPTO_ERROR alert => 0x100 + alert
  end.

(** An error as [Closer] keeps it. *)
Definition to_conn_error `{Env} (e : Error) : conn_error :=
  match e with
  | QUICError msg te ft => err_quic (make_key_material msg) (transport_error_code te) ft false false
  | _ => err_other (error_text e)
  end.

(** [to_string(IOResult)]; no text for [ok]. *)
Definition io_message (res : IOResult) : option string :=
  match res with
  | io_ok => None
  | id_mismatch => Some "internal id mismatch error. library bug!!"
  | not_in_io_state => Some "stream state is not in IO"
  | no_data => Some "no data available"
  | block_by_conn => Some "connection blocked by flow control limit"
  | block_by_stream => Some "stream blocked by flow control limit"
  | no_capacity => Some "no capacity to write"
  | io_cancel => Some "operation canceled"
  | invalid_data => Some "invalid input data. library bug!!"
  | io_fatal => Some "fatal error library bug!!"
  end.

Definition err_idle_timeout : Error := LibError "IDLE_TIMEOUT".
Definition err_handshake_timeout : Error := LibError "HANDSHAKE_TIMEOUT".

(** [struct maybe_resizable_buffer]: the bytes of the caller's buffer and
    whether it can be resized; what a resize adds is zero. *)
Record maybe_resizable_buffer := mk_buffer { ext_buffer : list Z; resizable : bool }.
Definition resize (n : Z) (b : maybe_resizable_buffer) : maybe_resizable_buffer :=
  if resizable b
  then mk_buffer (take (Z.to_nat n) (ext_buffer b) ++ replicate (Z.to_nat n - length (ext_buffer b)) 0) true else b.

(** [prepare_writer]; the internal buffer is resized to [bufsize]. *)
Definition prepare_writer (external_buffer : maybe_resizable_buffer) (bufsize : Z) : writer :=
  let b := resize bufsize external_buffer in
  new_writer (if bufsize <=? size (ext_buffer b) then rsubstr (ext_buffer b) 0 bufsize
              else replicate (Z.to_nat bufsize) 0).

(** ** Members of [PacketSummary] *)

Definition new_summary (type : PacketType) : PacketSummary :=
  mk_PacketSummary type 0 [] [] [] 0 packetnum.infinity false false.
Definition set_ps_version v (s : PacketSummary) : PacketSummary :=
  mk_PacketSummary (ps_type s) v (ps_dstID s) (ps_srcID s) (ps_token s) (ps_packet_number s) (ps_largest_ack s) (ps_key_bit s) (ps_spin s).
Definition set_ps_ids dst src (s : PacketSummary) : PacketSummary :=
  mk_PacketSummary (ps_type s) (ps_version s) dst src (ps_token s) (ps_packet_number s) (ps_largest_ack s) (ps_key_bit s) (ps_spin s).
Definition set_ps_token v (s : PacketSummary) : PacketSummary :=
  mk_PacketSummary (ps_type s) (ps_version s) (ps_dstID s) (ps_srcID s) v (ps_packet_number s) (ps_largest_ack s) (ps_key_bit s) (ps_spin s).
Definition set_ps_packet_number v (s : PacketSummary) : PacketSummary :=
  mk_PacketSummary (ps_type s) (ps_version s) (ps_dstID s) (ps_srcID s) (ps_token s) v (ps_largest_ack s) (ps_key_bit s) (ps_spin s).
Definition set_ps_largest_ack v (s : PacketSummary) : PacketSummary :=
  mk_PacketSummary (ps_type s) (ps_version s) (ps_dstID s) (ps_srcID s) (ps_token s) (ps_packet_number s) v (ps_key_bit s) (ps_spin s).
Definition set_ps_key_bit v (s : PacketSummary) : PacketSummary :=
  mk_PacketSummary (ps_type s) (ps_version s) (ps_dstID s) (ps_srcID s) (ps_token s) (ps_packet_number s) (ps_largest_ack s) v (ps_spin s).

Definition new_fwriter (w : writer) : fwriter := mk_fwriter w 0 FrameType.PADDING.

(** ** [struct Context] *)

Module QuicContext.

Record t (A T D V W : Type) := mk {
  version : Z;
  status : Status.t A;
  params : TransportParameters.t;
  crypto : CryptoSuite.t T;
  ackh : SentPacketHistory.t;
  unacked : RecvPacketHistory.t;
  connIDs : IDManager.t W;
  retry_token : RetryToken.t;
  zero_rtt_token : ZeroRTTTokenManager.t W;
  mtu : MTU.t;
  path_verifier : PathVerifier.t;
  closer : Closer.t;
  closed : CloseReason;
  streams : Conn.t V;
  datagrams : DatagramManager.t D;
  recs : gmap positive ACKLostState;
  world : W;
  tick : nat
}.
Arguments mk {A T D V W}. Arguments version {A T D V W}. Arguments status {A T D V W}. Arguments params {A T D V W}.
Arguments crypto {A T D V W}. Arguments ackh {A T D V W}. Arguments unacked {A T D V W}. Arguments connIDs {A T D V W}.
Arguments retry_token {A T D V W}. Arguments zero_rtt_token {A T D V W}. Arguments mtu {A T D V W}. Arguments path_verifier {A T D V W}.
Arguments closer {A T D V W}. Arguments closed {A T D V W}. Arguments streams {A T D V W}. Arguments datagrams {A T D V W}.
Arguments recs {A T D V W}. Arguments world {A T D V W}. Arguments tick {A T D V W}.

Section state.
Context {A T D V W : Type}.
#[local] Abbreviation t := (t A T D V W).

Definition set_version v (c : t) : t :=
  mk v (status c) (params c) (crypto c) (ackh c) (unacked c) (connIDs c) (retry_token c) (zero_rtt_token c)
    (mtu c) (path_verifier c) (closer c) (closed c) (streams c) (datagrams c) (recs c) (world c) (tick c).
Definition set_status v (c : t) : t :=
  mk (version c) v (params c) (crypto c) (ackh c) (unacked c) (connIDs c) (retry_token c) (zero_rtt_token c)
    (mtu c) (path_verifier c) (closer c) (closed c) (streams c) (datagrams c) (recs c) (world c) (tick c).
Definition set_params v (c : t) : t :=
  mk (version c) (status c) v (crypto c) (ackh c) (unacked c) (connIDs c) (retry_token c) (zero_rtt_token c)
    (mtu c) (path_verifier c) (closer c) (closed c) (streams c) (datagrams c) (recs c) (world c) (tick c).
Definition set_crypto v (c : t) : t :=
  mk (version c) (status c) (params c) v (ackh c) (unacked c) (connIDs c) (retry_token c) (zero_rtt_token c)
    (mtu c) (path_verifier c) (closer c) (closed c) (streams c) (datagrams c) (recs c) (world c) (tick c).
Definition set_ackh v (c : t) : t :=
  mk (version c) (status c) (params c) (crypto c) v (unacked c) (connIDs c) (retry_token c) (zero_rtt_token
    c) (mtu c) (path_verifier c) (closer c) (closed c) (streams c) (datagrams c) (recs c) (world c) (tick c).
Definition set_unacked v (c : t) : t :=
  mk (version c) (status c) (params c) (crypto c) (ackh c) v (connIDs c) (retry_token c) (zero_rtt_token c)
    (mtu c) (path_verifier c) (closer c) (closed c) (streams c) (datagrams c) (recs c) (world c) (tick c).
Definition set_connIDs v (c : t) : t :=
  mk (version c) (status c) (params c) (crypto c) (ackh c) (unacked c) v (retry_token c) (zero_rtt_token c)
    (mtu c) (path_verifier c) (closer c) (closed c) (streams c) (datagrams c) (recs c) (world c) (tick c).
Definition set_retry_token v (c : t) : t :=
  mk (version c) (status c) (params c) (crypto c) (ackh c) (unacked c) (connIDs c) v (zero_rtt_token c) (mtu
    c) (path_verifier c) (closer c) (closed c) (streams c) (datagrams c) (recs c) (world c) (tick c).
Definition set_zero_rtt_token v (c : t) : t :=
  mk (version c) (status c) (params c) (crypto c) (ackh c) (unacked c) (connIDs c) (retry_token c) v (mtu c)
    (path_verifier c) (closer c) (closed c) (streams c) (datagrams c) (recs c) (world c) (tick c).
Definition set_mtu v (c : t) : t :=
  mk (version c) (status c) (params c) (crypto c) (ackh c) (unacked c) (connIDs c) (retry_token c)
    (zero_rtt_token c) v (path_verifier c) (closer c) (closed c) (streams c) (datagrams c) (recs c) (world c)
    (tick c).
Definition set_path_verifier v (c : t) : t :=
  mk (version c) (status c) (params c) (crypto c) (ackh c) (unacked c) (connIDs c) (retry_token c)
    (zero_rtt_token c) (mtu c) v (closer c) (closed c) (streams c) (datagrams c) (recs c) (world c) (tick c).
Definition set_closer v (c : t) : t :=
  mk (version c) (status c) (params c) (crypto c) (ackh c) (unacked c) (connIDs c) (retry_token c)
    (zero_rtt_token c) (mtu c) (path_verifier c) v (closed c) (streams c) (datagrams c) (recs c) (world c)
    (tick c).
Definition set_closed v (c : t) : t :=
  mk (version c) (status c) (params c) (crypto c) (ackh c) (unacked c) (connIDs c) (retry_token c)
    (zero_rtt_token c) (mtu c) (path_verifier c) (closer c) v (streams c) (datagrams c) (recs c) (world c)
    (tick c).
Definition set_streams v (c : t) : t :=
  mk (version c) (status c) (params c) (crypto c) (ackh c) (unacked c) (connIDs c) (retry_token c)
    (zero_rtt_token c) (mtu c) (path_verifier c) (closer c) (closed c) v (datagrams c) (recs c) (world c)
    (tick c).
Definition set_datagrams v (c : t) : t :=
  mk (version c) (status c) (params c) (crypto c) (ackh c) (unacked c) (connIDs c) (retry_token c)
    (zero_rtt_token c) (mtu c) (path_verifier c) (closer c) (closed c) (streams c) v (recs c) (world c) (tick
    c).
Definition set_recs v (c : t) : t :=
  mk (version c) (status c) (params c) (crypto c) (ackh c) (unacked c) (connIDs c) (retry_token c)
    (zero_rtt_token c) (mtu c) (path_verifier c) (closer c) (closed c) (streams c) (datagrams c) v (world c)
    (tick c).
Definition set_world v (c : t) : t :=
  mk (version c) (status c) (params c) (crypto c) (ackh c) (unacked c) (connIDs c) (retry_token c)
    (zero_rtt_token c) (mtu c) (path_verifier c) (closer c) (closed c) (streams c) (datagrams c) (recs c) v
    (tick c).

(** *** The monad *)

Definition M (X : Type) : Type := t -> option (X * t).
Definition ret {X} (x : X) : M X := fun c => Some (x, c).
Definition bind {X Y} (m : M X) (k : X -> M Y) : M Y :=
  fun c => match m c with None => None | Some (x, c) => k x c end.
Definition get {X} (f : t -> X) : M X := fun c => Some (f c, c).
Definition modify (f : t -> t) : M unit := fun c => Some (tt, f c).
Definition undefined {X} : M X := fun _ => None.
Definition of_option {X} (o : option X) : M X := fun c => match o with Some x => Some (x, c) | None => None end.

(** The readings of the next call that consults the clock. *)
Definition readings `{Env} : M (nat -> Z) :=
  fun c => Some (clock_at (tick c), mk (version c) (status c) (params c) (crypto c) (ackh c) (unacked c) (connIDs c)
                   (retry_token c) (zero_rtt_token c) (mtu c) (path_verifier c) (closer c) (closed c) (streams c)
                   (datagrams c) (recs c) (world c) (S (tick c))).
Definition now `{Env} : M Z := bind readings (fun rd => ret (rd 0%nat)).
End state.
Arguments M : clear implicits.

Declare Scope ctx_scope.
Delimit Scope ctx_scope with ctx.
Notation "'let!' x := m 'in' k" := (bind m (fun x => k)) (at level 10, x name, m at level 100, k at level 200) : ctx_scope.
Notation "'let!' ' p := m 'in' k" := (bind m (fun x => match x with p => k end))
  (at level 10, p pattern, m at level 100, k at level 200) : ctx_scope.
Notation "m ;; k" := (bind m (fun _ => k)) (at level 100, k at level 200, right associativity) : ctx_scope.
#[local] Open Scope ctx_scope.

Section ops.
Context {A T D V W : Type} `{Env} `{Algorithm A} `{CryptoLib} `{TLS T} `{TLSConn T} `{DropDetector D} `{ConnHandler V}.
#[local] Abbreviation t := (t A T D V W).
#[local] Abbreviation M := (M A T D V W).

Definition upd_status (f : Status.t A -> Status.t A) : M unit := modify (fun c => set_status (f (status c)) c).
Definition upd_closer (f : Closer.t -> Closer.t) : M unit := modify (fun c => set_closer (f (closer c)) c).
Definition upd_paths (f : PathVerifier.t -> PathVerifier.t) : M unit :=
  modify (fun c => set_path_verifier (f (path_verifier c)) c).

Definition is_server (c : t) : bool := HandshakeStatus.is_server (Status.hs (status c)).
Definition handshake_confirmed (c : t) : bool := HandshakeStatus.handshake_confirmed (Status.hs (status c)).
Definition handshake_complete (c : t) : bool := HandshakeStatus.handshake_complete (Status.hs (status c)).
Definition transport_parameter_read (c : t) : bool := HandshakeStatus.transport_parameter_read (Status.hs (status c)).
Definition has_received_retry (c : t) : bool := HandshakeStatus.has_received_retry (Status.hs (status c)).
Definition has_sent_retry (c : t) : bool := HandshakeStatus.has_sent_retry (Status.hs (status c)).
Definition handshake_started (c : t) : bool := HandshakeStatus.handshake_started (Status.hs (status c)).
Definition tls (c : t) : T := CryptoHandshakers.tls (CryptoSuite.handshaker (crypto c)).
Definition set_tls (x : T) (c : t) : t :=
  set_crypto (CryptoSuite.set_handshaker (CryptoHandshakers.set_tls x (CryptoSuite.handshaker (crypto c))) (crypto c)) c.

(** *** Errors and closing *)

Definition set_quic_runtime_error (e : Error) : M unit := upd_closer (Closer.on_error (to_conn_error e) et_runtime).

(** [if (err) { set_quic_runtime_error(err); return false; }] *)
Definition or_error (err : option Error) (k : M bool) : M bool :=
  match err with Some e => set_quic_runtime_error e ;; ret false | None => k end.

Definition recv_close (f : ConnectionCloseFrame.t) : M unit :=
  modify (fun c =>
    match Closer.recv f (closer c) with
    | (true, x) => set_closed close_by_remote (set_closer x c)
    | (false, x) => set_closer x c
    end).

(** [closer.sent_packet().null()] *)
Definition sent_packet_null (x : Closer.t) : bool :=
  negb (sent (Closer.flag x)) || null_if_empty && bool_decide (Closer.close_data x = []).

(** [request_close] of the application, which holds a [QUICError], an
    [AppError] or another error. *)
Definition app_error (e : conn_error) : conn_error :=
  match e with
  | err_quic msg te ft _ _ => err_quic msg te ft true false
  | err_app code msg => err_app code msg
  | _ => err_quic (make_key_material "application layer error") (transport_error_code APPLICATION_ERROR)
           FrameType.PADDING true false
  end.
Definition request_close (e : conn_error) : M unit :=
  modify (fun c => if Closer.has_error (closer c) then c else set_closer (Closer.on_error (app_error e) et_app (closer c)) c).

(** *** Transport parameters *)

Definition compare_error (msg : string) (te : TransportError) : Error := QUICError msg te FrameType.PADDING.

(** The part of [apply_transport_param] that runs on a client: the ids of the
    handshake are compared, the token and the preferred address taken. *)
Definition check_server_ids (peer : DefinedTransportParams.t) (k : M bool) : M bool :=
  let! srv := get is_server in
  if srv then k
  else
    let! orig := get (fun c => IDManager.get_original_dst_id (connIDs c)) in
    if negb (bool_decide (DefinedTransportParams.p_original_dst_connection_id peer = orig)) then
      set_quic_runtime_error (compare_error "original_dst_connection_id is not matched to id contained on initial packet"
        TRANSPORT_PARAMETER_ERROR) ;; ret false
    else
      let! retried := get has_received_retry in
      let! retry := get (fun c => IDManager.get_retry (connIDs c)) in
      if retried && negb (bool_decide (DefinedTransportParams.p_retry_src_connection_id peer = retry)) then
        set_quic_runtime_error (compare_error "retry_src_connection_id is not matched to id previous received"
          TRANSPORT_PARAMETER_ERROR) ;; ret false
      else
        modify (fun c => set_connIDs (IDManager.on_initial_stateless_reset_token_received
          (DefinedTransportParams.p_stateless_reset_token peer) (connIDs c)) c) ;;
        let addr := DefinedTransportParams.p_preferred_address peer in
        if bool_decide (PreferredAddress.connectionID addr = []) then k
        else
          (fun c =>
            match IDManager.on_preferred_address_received (PreferredAddress.connectionID addr)
                    (PreferredAddress.token addr) (world c) (connIDs c) with
            | None => None
            | Some (_, w, m) => k (set_world w (set_connIDs m c))
            end).

(** The settings that follow the parameters of the peer. *)
Definition apply_limits (peer : DefinedTransportParams.t) (c : t) : t :=
  let c := set_mtu (snd (MTU.on_transport_parameter_received (DefinedTransportParams.p_max_udp_payload_size peer) (mtu c))) c in
  let c := set_status (Status.on_transport_parameter_received (DefinedTransportParams.p_max_idle_timeout peer)
             (DefinedTransportParams.p_max_ack_delay peer) (DefinedTransportParams.p_ack_delay_exponent peer) (status c)) c in
  let c := set_streams (Conn.apply_peer_initial_limits (to_initial_limits peer) (streams c)) c in
  set_datagrams (DatagramManager.on_transport_parameter (DefinedTransportParams.p_max_datagram_frame_size peer) (datagrams c)) c.

Definition apply_transport_param : M bool :=
  let! read := get transport_parameter_read in
  if read then ret true
  else
    let! data := get (fun c => get_peer_quic_transport_params (tls c)) in
    match data with
    | None => ret true
    | Some data =>
        let! parsed := get (fun c => TransportParameters.parse_peer (is_server c) (get_early_data_accepted (tls c))
                                       (new_reader data) (params c)) in
        let! '(err, _, p) := of_option parsed in
        modify (set_params p) ;;
        or_error err (
        let peer := TransportParameters.peer p in
        let! connID := get (fun c => IDManager.choose_dstID 0 (connIDs c)) in
        modify (fun c => set_connIDs (IDManager.on_transport_parameter_received
          (DefinedTransportParams.p_active_connection_id_limit peer) (connIDs c)) c) ;;
        if negb (bool_decide (DefinedTransportParams.p_initial_src_connection_id peer = cid_id connID)) then
          set_quic_runtime_error (compare_error
            "initial_src_connection_id is not matched to id contained on initial packet" PROTOCOL_VIOLATION) ;; ret false
        else check_server_ids peer (
          modify (apply_limits peer) ;;
          let! '(err, w, m) := get (fun c => IDManager.issue_to_max (world c) (connIDs c)) in
          modify (fun c => set_world w (set_connIDs m c)) ;;
          or_error err (upd_status Status.on_transport_parameter_read ;; ret true)))
    end.

Definition set_peer (p : DefinedTransportParams.t) (x : TransportParameters.t) : TransportParameters.t :=
  TransportParameters.mk (TransportParameters.local x) p (TransportParameters.peer_checker x).
Definition set_local (p : DefinedTransportParams.t) (x : TransportParameters.t) : TransportParameters.t :=
  TransportParameters.mk p (TransportParameters.peer x) (TransportParameters.peer_checker x).

Definition reset_peer_transport_parameter : M unit :=
  modify (fun c => set_params (set_peer DefinedTransportParams.new (params c)) c).

(** [to_initial_limits] of the remembered values reads the same members. *)
Definition apply_0RTT_transport_parameter : M unit :=
  modify (fun c =>
    let peer := to_0RTT (TransportParameters.peer (params c)) in
    let restored := from_0RTT peer in
    let c := set_streams (Conn.apply_peer_initial_limits (to_initial_limits restored) (streams c)) c in
    let c := set_connIDs (IDManager.on_transport_parameter_received (z_active_connection_id_limit peer) (connIDs c)) c in
    let c := set_mtu (snd (MTU.on_transport_parameter_received (z_max_udp_payload_size peer) (mtu c))) c in
    let c := set_status (Status.on_0RTT_transport_parameter (z_max_idle_timeout peer) (status c)) c in
    let c := set_datagrams (DatagramManager.on_transport_parameter (z_max_datagram_frame_size peer) (datagrams c)) c in
    set_params (set_peer restored (params c)) c).

(** The parameters of this end, handed to TLS; 1200 bytes of room. *)
Definition set_transport_parameter : M bool :=
  let! '(ok, w) := get (fun c => TransportParameters.render_local (is_server c) (has_sent_retry c) (params c)
                                   (new_writer (replicate 1200 0))) in
  if negb ok then set_quic_runtime_error (LibError "failed to render transport params") ;; ret false
  else
    let! '(err, x) := get (fun c => set_quic_transport_params (wr_written w) (tls c)) in
    modify (set_tls x) ;; or_error err (ret true).

(** *** Dropping packet number spaces *)

(** The three members that keep a packet number space. *)
Definition discard_sent (space : PacketNumberSpace) : M unit :=
  let! rd := readings in
  modify (fun c =>
    let '((h, r), s) := SentPacketHistory.on_packet_number_space_discarded sent_order space rd ((ackh c, recs c), status c) in
    set_status s (set_recs r (set_ackh h c))).
Definition discard_recv (space : PacketNumberSpace) : M unit :=
  modify (fun c => set_unacked (RecvPacketHistory.on_packet_number_space_discarded space (unacked c)) c).
Definition discard_crypto (space : PacketNumberSpace) : M unit :=
  modify (fun c => set_crypto (CryptoSuite.on_packet_number_space_discarded space (crypto c)) c).

Definition on_handshake_confirmed : M unit :=
  discard_sent handshake ;;
  upd_status Status.on_handshake_confirmed ;;
  modify (fun c => set_mtu (MTU.on_handshake_confirmed (mtu c)) c) ;;
  discard_recv handshake ;;
  discard_crypto handshake.

Definition on_handshake_packet : M unit := discard_sent initial ;; discard_recv initial ;; discard_crypto initial.

(** *** Writing frames

    What the senders of frames share: the summary of the packet, its record
    and the writer. *)
Record Out := mk_out { o_sum : PacketSummary; o_rec : ACKRecorder.t; o_fw : fwriter }.
Definition set_o_fw fw x := mk_out (o_sum x) (o_rec x) fw.
Definition o_type (x : Out) : PacketType := ps_type (o_sum x).
Definition o_space (x : Out) : PacketNumberSpace := from_packet_type (o_type x).
Definition write_ping (x : Out) : Out := set_o_fw (snd (fw_write (TypeOnly.mk (ty := FrameType.PING) 0) (o_fw x))) x.

(** A member's [send]: the result, the writer, the record and the store, the
    new member. *)
Definition member_send {X} (f : fwriter -> observer -> t -> IOResult * fwriter * observer * X) (put : X -> t -> t)
    (x : Out) : M (IOResult * Out) :=
  fun c =>
    let '(res, fw, (rec, rs), m) := f (o_fw x) (o_rec x, recs c) c in
    Some ((res, mk_out (o_sum x) rec fw), put m (set_recs rs c)).

Definition send_ack (x : Out) : M (IOResult * Out) :=
  let! now1 := now in
  let! now2 := now in
  let! r := get (fun c => RecvPacketHistory.send (o_fw x) (o_space x) (Status.config (status c)) now1 now2 (unacked c)) in
  let! '(res, fw, u, la) := of_option r in
  modify (set_unacked u) ;;
  ret (res, mk_out (match la with Some la => set_ps_largest_ack la (o_sum x) | None => o_sum x end) (o_rec x) fw).
Definition send_crypto (x : Out) : M (IOResult * Out) :=
  member_send (fun fw o c => CryptoSuite.send (o_type x) fw o (crypto c)) set_crypto x.
Definition send_path_response (x : Out) : M (IOResult * Out) :=
  member_send (fun fw o c => let '(res, fw, v) := PathVerifier.send_path_response fw (path_verifier c) in (res, fw, o, v))
    set_path_verifier x.
Definition send_connids (allow_retire : bool) (x : Out) : M (IOResult * Out) :=
  member_send (fun fw o c => IDManager.send fw o allow_retire (connIDs c)) set_connIDs x.
Definition send_datagrams (x : Out) : M (IOResult * Out) :=
  member_send (fun fw o c => DatagramManager.send (ps_packet_number (o_sum x)) fw o (datagrams c)) set_datagrams x.
Definition send_streams (x : Out) : M (IOResult * Out) :=
  member_send (fun fw o c => ConnOps.send stream_order fw o (streams c)) set_streams x.

(** The lambda [wrap_io]. *)
Definition wrap_io (res : IOResult) (x : Out) : M (bool * Out) :=
  set_quic_runtime_error (QUICError (default "" (io_message res)) INTERNAL_ERROR (fw_prev_type (o_fw x))) ;; ret (false, x).

(** [if (cond) if (auto err = send(...); err == fatal) return wrap_io(err);] *)
Definition send_if (cond : bool) (send : Out -> M (IOResult * Out)) (k : Out -> M (bool * Out)) (x : Out) : M (bool * Out) :=
  if cond then
    let! '(res, x) := send x in
    match res with io_fatal => wrap_io res x | _ => k x end
  else k x.

Definition write_frames (x : Out) : M (bool * Out) :=
  let type := o_type x in
  let app := bool_decide (type = ZeroRTT) || bool_decide (type = OneRTT) in
  let! probe := get (fun c => Status.is_pto_probe_required (o_space x) (status c) || Status.should_send_any_packet (status c)) in
  let x := if probe : bool then write_ping x else x in
  let! n := now in
  let! ping := get (fun c => Status.should_send_ping n (status c)) in
  let x := if ping : bool then write_ping x else x in
  send_if (negb (bool_decide (type = ZeroRTT))) send_ack (fun x =>
  let! limited := get (fun c => Status.is_on_congestion_limited (status c)) in
  if limited : bool then ret (true, x)
  else
    send_if true send_crypto (
    send_if (bool_decide (type = OneRTT)) send_path_response (
    send_if app (send_connids (bool_decide (type = OneRTT))) (
    send_if app send_datagrams (
    send_if app send_streams (fun x => ret (true, x)))))) x) x.

(** [path_verifier.send_path_challenge(...)], with the path it is for. *)
Definition send_path_challenge (x : Out) : M (IOResult * option Z * Out) :=
  let! n1 := now in
  let! n2 := now in
  fun c =>
    match PathVerifier.send_path_challenge (o_fw x) (o_rec x, recs c) (random (IDManager.cparam (connIDs c)))
            (Status.path_validation_deadline n1 (status c)) n2 (world c) (path_verifier c) with
    | None => None
    | Some ((res, id), fw, (rec, rs), w, v) =>
        Some ((res, id, mk_out (o_sum x) rec fw), set_path_verifier v (set_world w (set_recs rs c)))
    end.

Definition write_path_probe_frames (should_be_non_probe : bool) (x : Out) : M (bool * Out) :=
  if negb (bool_decide (o_type x = OneRTT)) then ret (true, x)
  else
    let! '(res, id, x) := send_path_challenge x in
    match res with
    | io_fatal => wrap_io res x
    | io_ok =>
        upd_paths (PathVerifier.set_writing_path id) ;;
        if should_be_non_probe then write_frames (write_ping x)
        else send_if true send_path_response (send_if true (send_connids false) (fun x => ret (true, x))) x
    | _ => ret (true, x)
    end.

(** *** Writing a packet *)

(** What the payload callbacks capture by reference. *)
Record Job := mk_job { j_sum : PacketSummary; j_rec : ACKRecorder.t; j_no_payload : bool; j_status : Z }.
Definition job_out (j : Job) (w : writer) : Out := mk_out (j_sum j) (j_rec j) (new_fwriter w).
Definition after_write (x : Out) (j : Job) : Job := mk_job (o_sum x) (o_rec x) (j_no_payload j) (j_status j).
Definition set_j_status v (j : Job) : Job := mk_job (j_sum j) (j_rec j) (j_no_payload j) v.
Definition set_no_payload (j : Job) : Job := mk_job (j_sum j) (j_rec j) true (j_status j).

Definition payload_fn : Type := packetnum.WireVal -> writer -> Job -> M (bool * writer * Job).

(** A payload callback as [create_packet] takes it: its state is the job and
    the connection, or nothing after undefined behaviour. *)
Definition render_payload (f : payload_fn) (wire : packetnum.WireVal) (x : writer * option (Job * t))
    : bool * (writer * option (Job * t)) :=
  let '(w, s) := x in
  match s with
  | None => (false, (w, None))
  | Some (j, c) =>
      match f wire w j c with
      | None => (false, (w, None))
      | Some ((ok, w, j), c) => (ok, (w, Some (j, c)))
      end
  end.

Definition create (largest_acked : Z) (use_full : bool) (f : payload_fn) (w : writer) (j : Job)
    : M (option CryptoPacket.t * writer * Job) :=
  fun c =>
    match create_packet (j_sum j) largest_acked authentication_tag_length use_full (render_payload f) (w, Some (j, c)) with
    | (p, (w, Some (j, c))) => Some ((p, w, j), c)
    | (_, (_, None)) => None
    end.

(** The callbacks of the write modes. *)
Definition close_payload : payload_fn := fun wire w j =>
  let! '(ok, fw) := get (fun c => Closer.send (new_fwriter w) (ps_type (j_sum j)) (closer c)) in
  if negb ok then ret (false, fw_w fw, j)
  else
    let fw := add_padding_for_encryption (packetnum.wlen wire) sample_skip_size fw in
    ret (true, fw_w fw, set_j_status (fw_status fw) j).

Definition mtu_probe_payload : payload_fn := fun _ w j =>
  let x := write_ping (job_out j w) in
  ret (true, fw_w (o_fw x), set_j_status (PacketStatus.set_mtu_probe (fw_status (o_fw x))) j).

Definition path_probe_payload (wmode : Z) : payload_fn := fun _ w j =>
  let! '(ok, x) := write_path_probe_frames (wmode =? WriteFlag.path_probe) (job_out j w) in
  let j := after_write x j in
  let w := fw_w (o_fw x) in
  if negb ok then ret (false, w, j)
  else if size (wr_written w) =? 0 then ret (false, w, set_no_payload j)
  else ret (true, w, set_j_status (fw_status (o_fw x)) j).

(** [render_payload_callback] *)
Definition normal_payload (fill_all : bool) : payload_fn := fun wire w j =>
  let prev_offset := wr_index w in
  let! '(ok, x) := write_frames (job_out j w) in
  let j := after_write x j in
  let w := fw_w (o_fw x) in
  if negb ok then ret (false, w, j)
  else if (wr_index w <=? prev_offset)%nat then ret (false, w, set_no_payload j)
  else
    let fw :=
      if fill_all then
        if negb (wr_full w) then snd (fw_write (TypeOnly.mk (ty := FrameType.PADDING) 0) (o_fw x)) else o_fw x
      else add_padding_for_encryption (packetnum.wlen wire) sample_skip_size (o_fw x) in
    ret (true, fw_w fw, set_j_status (fw_status fw) j).

Definition save_sent_packet (sum : PacketSummary) (pstatus sent_bytes : Z) (rec : ACKRecorder.t) : M bool :=
  let! l := (fun c => let '(l, (_, rs)) := ACKRecorder.record (rec, recs c) in Some (l, set_recs rs c)) in
  let! rd := readings in
  let sp := mk_sent (ps_type sum) pstatus (ps_packet_number sum) (Some l) sent_bytes time.invalid (ps_largest_ack sum) in
  let! r := get (fun c => SentPacketHistory.on_packet_sent (from_packet_type (ps_type sum)) sp rd (ackh c, status c)) in
  let! '(err, (h, s)) := of_option r in
  modify (fun c => set_status s (set_ackh h c)) ;;
  match err with
  | Some e => set_quic_runtime_error e ;; modify (fun c => set_recs (mark_as_lost (Some l) (recs c)) c) ;; ret false
  | None => modify (fun c => set_crypto (CryptoSuite.on_packet_sent (ps_type sum) (ps_packet_number sum) (crypto c)) c) ;; ret true
  end.

(** The packet of each write mode; [None] for a mode there is none of. The
    branch for paths has no [break]: the packet of [normal] is written behind
    the one it wrote. *)
Definition render_mode (flags largest_acked : Z) (w : writer) (j : Job) : option (M (option CryptoPacket.t * writer * Job)) :=
  let wmode := Z.land flags WriteFlag.write_mode_mask in
  let full := WriteFlag.both flags WriteFlag.use_all_buffer in
  let normal := create largest_acked full (normal_payload full) in
  if wmode =? WriteFlag.conn_close then Some (create largest_acked full close_payload w j)
  else if wmode =? WriteFlag.mtu_probe then Some (create largest_acked true mtu_probe_payload w j)
  else if (wmode =? WriteFlag.path_probe) || (wmode =? WriteFlag.path_migrate) then
    Some (let! '(_, w, j) := create largest_acked full (path_probe_payload wmode) w j in normal w j)
  else if wmode =? WriteFlag.normal then Some (normal w j)
  else None.

(** The bytes of the packet just written, encrypted in place. *)
Definition put_packet (p : CryptoPacket.t) (w : writer) : writer :=
  mk_writer (LongPacket.store_at (wr_buf w) (wr_index w - length (CryptoPacket.src p)) (CryptoPacket.src p)) (wr_index w).

(** Leaving [write_packet] while [mark_lost] is armed: the record of the
    packet is marked, [w] keeps its offset; the buffer is shared. *)
Definition leave (ok : bool) (w copy : writer) (rec : ACKRecorder.t) : M (bool * writer * ACKRecorder.t) :=
  modify (fun c => set_recs (mark_as_lost (ACKRecorder.get rec) (recs c)) c) ;;
  ret (ok, mk_writer (wr_buf copy) (wr_index w), rec).

(** The tail of [write_packet], after the packet was rendered. *)
Definition finish_packet (closing : bool) (suite : EncDecSuite.t) (w copy : writer) (plain : option CryptoPacket.t) (j : Job)
    : M (bool * writer * ACKRecorder.t) :=
  let! failed := get (fun c => negb closing && Closer.has_error (closer c)) in
  if failed : bool then leave false w copy (j_rec j)
  else if j_no_payload j then leave true w copy (j_rec j)
  else
    match plain with
    | None => leave true w copy (j_rec j)
    | Some p =>
        let '(err, p) := encrypt_packet (EncDecSuite.keyiv suite) (EncDecSuite.hp suite) (EncDecSuite.cipher suite) p in
        match err with
        | Some e => (if closing then ret tt else set_quic_runtime_error e) ;; leave false w copy (j_rec j)
        | None =>
            let! saved := if closing then ret true
                          else save_sent_packet (j_sum j) (j_status j) (size (CryptoPacket.src p)) (j_rec j) in
            if negb saved then ret (false, mk_writer (wr_buf copy) (wr_index w), j_rec j)
            else
              upd_status (Status.consume_packet_number (from_packet_type (ps_type (j_sum j)))) ;;
              modify (fun c => set_connIDs (IDManager.on_packet_sent (connIDs c)) c) ;;
              ret (true, put_packet p copy, j_rec j)
        end
    end.

Definition write_packet (w : writer) (sum : PacketSummary) (flags : Z) (rec : ACKRecorder.t) : M (bool * writer * ACKRecorder.t) :=
  let closing := Z.land flags WriteFlag.write_mode_mask =? WriteFlag.conn_close in
  let fail e := (if closing then ret tt else set_quic_runtime_error e) ;; ret (false, w, rec) in
  let space := from_packet_type (ps_type sum) in
  if bool_decide (space = no_space) then fail (LibError "invalid packet type")
  else
    let! pns := get (fun c => Status.next_and_largest_acked_packet_number space (status c)) in
    let! '(pn, largest_acked) := of_option pns in
    let! v := get version in
    let sum := set_ps_packet_number pn (set_ps_version v sum) in
    let! '(r, cr) := get (fun c => CryptoSuite.enc_suite v (ps_type sum) key_current (crypto c)) in
    modify (set_crypto cr) ;;
    match r with
    | inr e => fail e
    | inl suite =>
        let sum := if bool_decide (ps_type sum = OneRTT)
                   then set_ps_key_bit (bool_decide (EncDecSuite.phase suite = phase_one)) sum else sum in
        match render_mode flags largest_acked w (mk_job sum rec false 0) with
        | None =>
            (if closing then ret tt else set_quic_runtime_error (LibError "unexpected write mode. library bug!!")) ;;
            leave false w w rec
        | Some render =>
            let! '(plain, copy, j) := render in
            finish_packet closing suite w copy plain j
        end
    end.

(** *** Packets of each type *)

Definition pickup_dstID : M (option (list Z)) :=
  let! r := get (fun c => IDManager.pick_up_dstID (is_server c) (handshake_complete c)
                            (DefinedTransportParams.p_active_connection_id_limit (TransportParameters.local (params c)))
                            (world c) (connIDs c)) in
  let! '(id, err, w, m) := of_option r in
  modify (fun c => set_world w (set_connIDs m c)) ;;
  match err with
  | Some e => set_quic_runtime_error e ;; ret None
  | None => ret (Some id)
  end.

(** The token of an Initial packet: of the Retry packet, or a stored one. *)
Definition initial_token : M (list Z) :=
  let! retried := get has_received_retry in
  if retried : bool then get retry_token
  else
    let! '(tok, z, w) := get (fun c => ZeroRTTTokenManager.find (zero_rtt_token c) (world c)) in
    modify (fun c => set_world w (set_zero_rtt_token z c)) ;; ret (default [] tok).

Definition with_dstID (w : writer) (rec : ACKRecorder.t) (k : list Z -> M (bool * writer * ACKRecorder.t))
    : M (bool * writer * ACKRecorder.t) :=
  let! id := pickup_dstID in
  match id with None => ret (false, w, rec) | Some id => k id end.

Definition write_initial (w : writer) (mode : Z) : M (bool * writer) :=
  let! src := get (fun c => IDManager.pick_up_srcID (connIDs c)) in
  let! '(ok, w, _) := with_dstID w ACKRecorder.new (fun dst =>
    let! token := initial_token in
    write_packet w (set_ps_token token (set_ps_ids dst src (new_summary Initial))) mode ACKRecorder.new) in
  ret (ok, w).

Definition write_handshake (w : writer) (mode : Z) : M (bool * writer) :=
  let! src := get (fun c => IDManager.pick_up_srcID (connIDs c)) in
  let! '(ok, w, _) := with_dstID w ACKRecorder.new (fun dst =>
    write_packet w (set_ps_ids dst src (new_summary Handshake)) mode ACKRecorder.new) in
  if negb ok then ret (false, w)
  else
    let! srv := get is_server in
    if srv : bool then ret (true, w)
    else
      let! '(dropped, cr) := get (fun c => CryptoSuite.maybe_drop_initial (crypto c)) in
      modify (set_crypto cr) ;;
      (if dropped : bool then on_handshake_packet else ret tt) ;; ret (true, w).

Definition write_onertt (w : writer) (mode : Z) (rec : ACKRecorder.t) : M (bool * writer) :=
  let! '(ok, w, _) := with_dstID w rec (fun dst =>
    write_packet w (set_ps_ids dst [] (new_summary OneRTT)) mode rec) in
  ret (ok, w).

Definition write_zerortt (w : writer) (mode : Z) : M (bool * writer) :=
  let! srv := get is_server in
  if srv : bool then ret (true, w)
  else
    let! src := get (fun c => IDManager.pick_up_srcID (connIDs c)) in
    let! '(ok, w, _) := with_dstID w ACKRecorder.new (fun dst =>
      write_packet w (set_ps_ids dst src (new_summary ZeroRTT)) mode ACKRecorder.new) in
    ret (ok, w).

(** *** Datagrams *)

(** [crypto.write_installed(type) && status.can_send(space)] *)
Definition can_write (type : PacketType) (space : PacketNumberSpace) : M bool :=
  let! installed := get (fun c => CryptoSuite.write_installed type (crypto c)) in
  if negb installed then ret false
  else let! n := now in get (fun c => Status.can_send space n (status c)).

(** The lambda [to_mode]. *)
Definition to_mode (on_close b : bool) : Z :=
  Z.lor (if b then WriteFlag.use_all_buffer else 0) (if on_close then WriteFlag.conn_close else 0).

(** [if (cond) if (!write(w)) return {{}, false};] *)
Definition write_if (cond : bool) (write : writer -> M (bool * writer)) (k : writer -> M (list Z * bool)) (w : writer)
    : M (list Z * bool) :=
  if cond then let! '(ok, w) := write w in if ok : bool then k w else ret ([], false) else k w.

(** The keys of the Handshake space go when the handshake is confirmed. *)
Definition confirm_before_write (on_close has_handshake : bool) : M bool :=
  if negb on_close && has_handshake then
    let! '(dropped, cr) := get (fun c => CryptoSuite.maybe_drop_handshake (crypto c)) in
    modify (set_crypto cr) ;;
    if dropped : bool then on_handshake_confirmed ;; ret false else ret true
  else ret has_handshake.

Definition create_encrypted_packet (on_close : bool) (external_buffer : maybe_resizable_buffer) : M (list Z * bool) :=
  let! srv := get is_server in
  (if srv : bool then ret tt else modify (fun c => set_crypto (snd (CryptoSuite.maybe_drop_0rtt (crypto c))) c)) ;;
  let! bufsize := get (fun c => MTU.current_datagram_size (mtu c)) in
  let! has_initial := can_write Initial initial in
  let! has_handshake := can_write Handshake handshake in
  let! has_onertt := can_write OneRTT application in
  let! may_zerortt := if srv : bool then ret false else can_write ZeroRTT application in
  let has_zerortt := may_zerortt && negb has_onertt && negb on_close in
  write_if has_initial (fun w => write_initial w (to_mode on_close (negb has_handshake && negb has_zerortt && negb has_onertt))) (
  write_if has_zerortt (fun w => write_zerortt w (to_mode on_close (negb has_handshake))) (fun w =>
  let! has_handshake := confirm_before_write on_close has_handshake in
  write_if has_handshake (fun w => write_handshake w (to_mode on_close (has_initial && negb has_onertt))) (
  write_if has_onertt (fun w => write_onertt w (to_mode on_close has_initial) ACKRecorder.new) (fun w =>
  ret (wr_written w, true))) w)) (prepare_writer external_buffer bufsize).

Definition create_path_probe_packet (external_buffer : maybe_resizable_buffer) : M (list Z * bool) :=
  let! confirmed := get handshake_confirmed in
  if negb confirmed then ret ([], true)
  else
    let! ok := can_write OneRTT application in
    if negb ok then ret ([], true)
    else
      let! probe := get (fun c => PathVerifier.has_probe_to_send (path_verifier c)) in
      if negb probe then
        let! n := now in
        let! v := get (fun c => PathVerifier.detect_path_probe_timeout probe_fuel n (recs c) (path_verifier c)) in
        let! v := of_option v in
        modify (set_path_verifier v) ;; ret ([], true)
      else
        let! '(ok, w) := write_onertt (prepare_writer external_buffer initial_udp_datagram_size) WriteFlag.path_probe ACKRecorder.new in
        ret (if ok : bool then (wr_written w, true) else ([], false)).

Definition create_mtu_probe_packet (external_buffer : maybe_resizable_buffer) : M (list Z * bool) :=
  let! ok := can_write OneRTT application in
  if negb ok then ret ([], true)
  else
    let! '((sz, required), (rec, rs), m) := get (fun c => MTU.probe_required (ACKRecorder.new, recs c) (mtu c)) in
    modify (fun c => set_mtu m (set_recs rs c)) ;;
    if negb required then ret ([], true)
    else
      let! '(ok, w) := write_onertt (prepare_writer external_buffer sz) WriteFlag.mtu_probe rec in
      if negb ok then ret ([], false)
      else
        let probe := wr_written w in
        if negb (size probe =? sz) then
          set_quic_runtime_error (quic_error "MTU Probe packet creation failure. library bug!!") ;; ret ([], false)
        else ret (probe, true).

(** [closed] after this end has closed. *)
Definition local_close_reason (e : ErrorType) : CloseReason :=
  match e with et_app => close_by_local_app | _ => close_by_local_runtime end.

Definition create_connection_close_packet (external_buffer : maybe_resizable_buffer) : M (list Z * bool) :=
  let! x := get closer in
  if negb (Closer.has_error x) then ret ([], true)
  else
    let! n := now in
    let! expired := get (fun c => Status.close_timeout n (status c)) in
    if expired : bool then ret ([], false)
    else if negb (sent_packet_null x) then
      if negb (Closer.should_retransmit x) then ret ([], true)
      else upd_closer Closer.on_close_retransmitted ;; ret (Closer.sent_packet x, true)
    else if Closer.close_by_peer x then ret ([], false)
    else
      let! '(packet, ok) := create_encrypted_packet true external_buffer in
      if negb ok then ret ([], false)
      else
        upd_closer (Closer.on_close_packet_sent packet) ;;
        upd_status Status.set_close_timer ;;
        modify (fun c => set_closed (local_close_reason (Closer.error_type (closer c))) c) ;;
        ret (packet, true).

(** *** Timeouts *)

Definition conn_timeout : M bool :=
  let! n := now in
  let! idle := get (fun c => Status.is_idle_timeout n (status c)) in
  if negb idle then ret false
  else
    let! confirmed := get handshake_confirmed in
    (if confirmed : bool
     then set_quic_runtime_error err_idle_timeout ;; modify (set_closed idle_timeout)
     else set_quic_runtime_error err_handshake_timeout ;; modify (set_closed handshake_timeout)) ;;
    ret true.

Definition maybe_loss_timeout : M bool :=
  let! rd := readings in
  let! '(err, (x, s)) := get (fun c => SentPacketHistory.maybe_loss_detection_timeout sent_order None rd (ackh c, recs c, status c)) in
  modify (fun c => set_status s (set_recs (SentPacketHistory.recs x) (set_ackh (SentPacketHistory.tables x) c))) ;;
  or_error err (ret true).

(** *** What the application calls *)

(** The payload, the path, and whether the connection goes on; no path is
    read where the list of paths is read past its end. *)
Definition result : Type := (list Z * option Z * bool)%type.
Definition on_path (r : list Z * bool) : M result := let! p := get (fun c => PathVerifier.get_writing_path (path_verifier c)) in ret (fst r, p, snd r).

Definition create_udp_payload (external_buffer : maybe_resizable_buffer) : M result :=
  let create_close := let! r := create_connection_close_packet external_buffer in on_path r in
  let! failed := get (fun c => Closer.has_error (closer c)) in
  if failed : bool then create_close
  else
    let! expired := conn_timeout in
    if expired : bool then ret ([], Some unknown_path, false)
    else
      let! ok := maybe_loss_timeout in
      if negb ok then create_close
      else
        upd_paths PathVerifier.set_writing_path_to_active_path ;;
        let! '(packet, ok) := create_path_probe_packet external_buffer in
        if negb ok then create_close
        else if negb (size packet =? 0) then on_path (packet, true)
        else
          upd_paths PathVerifier.set_writing_path_to_active_path ;;
          let! '(packet, ok) := create_encrypted_packet false external_buffer in
          if negb ok then create_close
          else if negb (size packet =? 0) then on_path (packet, ok)
          else
            let! '(packet, ok) := create_mtu_probe_packet external_buffer in
            if negb ok then create_close else on_path (packet, true).

Definition is_closed (c : t) : bool := negb (bool_decide (closed c = not_closed)).
Definition close_reason (c : t) : CloseReason := closed c.
Definition get_conn_error (c : t) : conn_error := Closer.get_error (closer c).
Definition get_earliest_deadline (c : t) : Z := Status.get_earliest_deadline (RecvPacketHistory.get_deadline (unacked c)) (status c).
Definition migration_enabled (c : t) : bool :=
  transport_parameter_read c && handshake_confirmed c &&
  negb (DefinedTransportParams.p_disable_active_migration (TransportParameters.peer (params c))).
Definition get_active_path (c : t) : option Z := PathVerifier.get_writing_path (path_verifier c).

(** The context that outlives the connection, its path, and the ids; [ctx]
    and [path] are the caller's. *)
Definition expose_closed_context (ctx : ClosedContext.t) (path : option Z) : M (bool * ClosedContext.t * option Z * list CloseID) :=
  let! ids := get (fun c => IDManager.expose_close_data (connIDs c)) in
  let! reason := get closed in
  match reason with
  | not_closed => ret (false, ctx, path, ids)
  | idle_timeout | handshake_timeout =>
      let! n := now in
      let! p := get get_active_path in
      ret (false, ClosedContext.mk (ClosedContext.payload ctx) (time.set_deadline n) (ClosedContext.flag ctx), p, ids)
  | _ =>
      let! x := get (fun c => Closer.expose_closed_context (Status.get_close_deadline (status c)) (closer c)) in
      let! p := get get_active_path in
      ret (true, x, p, ids)
  end.
End ops.
End QuicContext.
