(* ===== verification/ContextRecv.v ===== *)
(** * ContextRecv: receiving datagrams and starting a connection

    The second part of [fnet/quic/context/context.h], with
    [crypto/decrypt.h]: what a connection does with the frames of a packet,
    with a packet, with a datagram, with a Retry packet; the start of the
    handshake on both sides and the initialisation. The callbacks that
    [parse_packets] is given read the ids of the connection, which change
    while a datagram is processed: [packets_loop] below asks for them before
    each packet. *)

From stdpp Require Import base list gmap strings.
From Stdlib Require Import ZArith Lia.
From S2P Require Import Prelude Bytes PacketNumber Types PacketBase LongPacket ShortPacket PacketParse FrameBase FrameStream FrameAck FrameParse QTime Rtt PnManage Congestion Status AckRecord RecvHistory SentHistory StreamId ConnBase StreamImpl StreamConn Datagram Keys PacketProtect CryptoStream KeyUpdate TransportParam ConnId Path Close QuicContext.

#[local] Open Scope string_scope.
#[local] Open Scope Z_scope.
#[local] Open Scope list_scope.

(** [frame.type] *)
Definition raw_type (a : AnyFrame) : Z := on_frame (fun F _ _ f => f_type f) (fun t => t) a.

(** ** [convert_cipher_to_plain] and [summarize] of what it gives *)

Inductive AnyPlain :=
  | InitialPlain (p : LongPacketPlainBase.t InitialPacketPartial.t)
  | ZeroRTTPlain (p : LongPacketPlainBase.t (HandshakeZeroRTTParital.t ZeroRTT))
  | HandshakePlain (p : LongPacketPlainBase.t (HandshakeZeroRTTParital.t Handshake))
  | OneRTTPlain (p : OneRTTPacketPlain.t).

Definition empty_plain {P} (p : P) : LongPacketPlainBase.t P := LongPacketPlainBase.mk p 0 [] [].

(** Defined for the packets that have a protected form. *)
Definition convert_cipher_to_plain (parsed : CryptoPacket.t) (packet : AnyPacket) (tag_len : Z) : option (AnyPlain * bool) :=
  match packet with
  | AInitialPacketCipher _ =>
      let '(p, ok) := convert_long_to_plain parsed (empty_plain empty_initial) tag_len in Some (InitialPlain p, ok)
  | AZeroRTTPacketCipher _ =>
      let '(p, ok) := convert_long_to_plain parsed (empty_plain empty_partial) tag_len in Some (ZeroRTTPlain p, ok)
  | AHandshakePacketCipher _ =>
      let '(p, ok) := convert_long_to_plain parsed (empty_plain empty_partial) tag_len in Some (HandshakePlain p, ok)
  | AOneRTTPacketCipher c =>
      let '(p, ok) := convert_onertt_to_plain parsed c
                        (OneRTTPacketPlain.mk (OneRTTPacketPartial.mk 0 []) 0 [] []) tag_len in Some (OneRTTPlain p, ok)
  | _ => None
  end.

Definition summarize_plain (packet : AnyPlain) (pn : Z) : PacketSummary :=
  match packet with
  | InitialPlain p =>
      let p := LongPacketPlainBase.part p in
      summarize_long Initial (InitialPacketPartial.base p) (InitialPacketPartial.token p) pn
  | ZeroRTTPlain p => summarize_long ZeroRTT (HandshakeZeroRTTParital.base (LongPacketPlainBase.part p)) [] pn
  | HandshakePlain p => summarize_long Handshake (HandshakeZeroRTTParital.base (LongPacketPlainBase.part p)) [] pn
  | OneRTTPlain p =>
      let p := OneRTTPacketPlain.part p in
      let flags := OneRTTPacketPartial.flags p in
      mk_PacketSummary OneRTT 0 (OneRTTPacketPartial.dstID p) [] [] pn packetnum.infinity
        (PacketFlags.key_phase flags) (PacketFlags.spin flags)
  end.

Definition plain_payload (packet : AnyPlain) : list Z :=
  match packet with
  | InitialPlain p => LongPacketPlainBase.payload p
  | ZeroRTTPlain p => LongPacketPlainBase.payload p
  | HandshakePlain p => LongPacketPlainBase.payload p
  | OneRTTPlain p => OneRTTPacketPlain.payload p
  end.

(** ** [parse_packets] with callbacks that read the state *)

Section Packets.
Context {S : Type} (tag_len : Z) (cb : callback S) (is_stateless_reset : S -> StatelessReset.t -> bool)
  (get_dstID_len : S -> reader -> Z -> bool * Z).

Fixpoint packets_loop (fuel : nat) (x : reader * S) : option (bool * (reader * S)) :=
  let '(r, s) := x in
  match fuel with
  | O => None
  | Datatypes.S fuel' =>
      if rd_empty r then Some (true, (r, s))
      else
        match parse_packet tag_len cb (is_stateless_reset s) (get_dstID_len s) (r, s) with
        | None => None
        | Some (false, x) => Some (false, x)
        | Some (true, x) => packets_loop fuel' x
        end
  end.
Definition parse_packets (data : list Z) (s : S) : option (bool * (reader * S)) :=
  let r := new_reader data in packets_loop (Datatypes.S (length (rd_remain r))) (r, s).
End Packets.

Module ContextRecv.
Import QuicContext.
#[local] Open Scope ctx_scope.

Section ops.
Context {A T D V W : Type} `{Env} `{Algorithm A} `{CryptoLib} `{TLS T} `{TLSConn T} `{DropDetector D} `{ConnHandler V}.
#[local] Abbreviation t := (t A T D V W).
#[local] Abbreviation M := (M A T D V W).

(** *** Frames *)

Definition recv_ack (type : PacketType) (ack : ACKFrame.t) : M bool :=
  let! rd := readings in
  let! '(err, (x, s)) := get (fun c => SentPacketHistory.on_ack_received sent_order (from_packet_type type) [] None ack
                                  (Conn.is_flow_control_limited (streams c)) rd (ackh c, recs c, status c)) in
  modify (fun c => set_status s (set_recs (SentPacketHistory.recs x) (set_ackh (SentPacketHistory.tables x) c))) ;;
  or_error err (
    (if bool_decide (type = OneRTT)
     then modify (fun c => set_unacked (RecvPacketHistory.delete_onertt_under
                             (Status.get_onertt_largest_acked_sent_ack (status c)) (unacked c)) c)
     else ret tt) ;;
    ret true).

Definition recv_crypto (type : PacketType) (a : AnyFrame) : M bool :=
  let! '(err, cr) := get (fun c => CryptoSuite.recv sort_fragments type a (crypto c)) in
  modify (set_crypto cr) ;;
  or_error err (
    let! complete := get (fun c => CryptoSuite.handshake_complete (crypto c)) in
    if complete : bool then upd_status Status.on_handshake_complete ;; apply_transport_param else ret true).

Definition recv_streams (a : AnyFrame) : M bool :=
  let! '((_, err), s) := get (fun c => ConnOps.recv a (streams c)) in
  modify (set_streams s) ;; or_error err (ret true).

Definition recv_datagram (pn : Z) (f : DatagramFrame.t) : M bool :=
  let! '(err, d) := get (fun c => DatagramManager.recv pn f (datagrams c)) in
  modify (set_datagrams d) ;; or_error err (ret true).

Definition recv_connid (sum : PacketSummary) (a : AnyFrame) : M bool :=
  let! r := get (fun c => IDManager.recv sum a (world c) (connIDs c)) in
  let! '(err, w, m) := of_option r in
  modify (fun c => set_world w (set_connIDs m c)) ;; or_error err (ret true).

Definition recv_path (a : AnyFrame) : M bool :=
  let! '(err, v) := get (fun c => PathVerifier.recv a (path_verifier c)) in
  modify (set_path_verifier v) ;; or_error err (ret true).

Definition recv_new_token (f : NewTokenFrame.t) : M bool :=
  let! srv := get is_server in
  if srv : bool then
    set_quic_runtime_error (QUICError "NewTokenFrame from client" PROTOCOL_VIOLATION FrameType.NEW_TOKEN) ;; ret false
  else
    modify (fun c => set_world (ZeroRTTTokenManager.store (NewTokenFrame.token f) (zero_rtt_token c) (world c)) c) ;; ret true.

(** A cast to the type of another frame is undefined. *)
Definition handle_frame (sum : PacketSummary) (a : AnyFrame) : M bool :=
  let type := FrameFlags.type (raw_type a) in
  let detail := FrameFlags.type_detail (raw_type a) in
  if (type =? FrameType.PADDING) || (type =? FrameType.PING) then ret true
  else
    match a with
    | Ack ack => recv_ack (ps_type sum) ack
    | _ =>
        if (detail =? FrameType.CRYPTO) || (detail =? FrameType.HANDSHAKE_DONE) then recv_crypto (ps_type sum) a
        else if is_ConnRelated detail || is_BidiStreamOK detail then recv_streams a
        else if type =? FrameType.DATAGRAM then
          match a with Datagram f => recv_datagram (ps_packet_number sum) f | _ => undefined end
        else if (detail =? FrameType.NEW_CONNECTION_ID) || (detail =? FrameType.RETIRE_CONNECTION_ID) then recv_connid sum a
        else if (detail =? FrameType.PATH_CHALLENGE) || (detail =? FrameType.PATH_RESPONSE) then recv_path a
        else if type =? FrameType.CONNECTION_CLOSE then
          match a with ConnectionClose f => recv_close f ;; ret true | _ => undefined end
        else if type =? FrameType.NEW_TOKEN then
          match a with NewToken f => recv_new_token f | _ => undefined end
        else set_quic_runtime_error (LibError "unexpected frame type!") ;; ret false
    end.

(** *** Packets *)

(** The id issued with sequence number 0, or a failure. *)
Definition issue_seq0_connid : M (option (list Z)) :=
  let! '(issued, err, w, m) := get (fun c => IDManager.issue false (world c) (connIDs c)) in
  modify (fun c => set_world w (set_connIDs m c)) ;;
  match err with
  | Some e => set_quic_runtime_error e ;; ret None
  | None =>
      if negb (cid_seq issued =? 0)
      then set_quic_runtime_error (LibError "failed to issue connection ID with sequence number 0. library bug!!") ;; ret None
      else ret (Some (cid_id issued))
  end.

Definition set_local_id (d : DefinedID) (id : list Z) (c : t) : t :=
  set_params (set_local (DefinedTransportParams.set_data d id (TransportParameters.local (params c))) (params c)) c.

(** What a server does with the first Initial packet: after a Retry, the id
    it issues becomes the parameter that names the source of the Retry. *)
Definition answer_initial : M bool :=
  let! zero := get (fun c => IDManager.local_using_zero_length (connIDs c)) in
  let! srcID := if zero : bool then ret (Some []) else issue_seq0_connid in
  match srcID with
  | None => ret false
  | Some srcID =>
      modify (fun c => set_local_id (if has_sent_retry c then retry_src_connection_id else initial_src_connection_id) srcID c) ;;
      set_transport_parameter
  end.

Definition handle_on_initial (sum : PacketSummary) : M bool :=
  let! accepted := get (fun c => IDManager.initial_conn_id_accepted (connIDs c)) in
  if negb (bool_decide (ps_type sum = Initial)) || accepted then ret true
  else
    let! r := get (fun c => IDManager.on_initial_packet_received (ps_srcID sum) (world c) (connIDs c)) in
    let! '(err, w, m) := of_option r in
    modify (fun c => set_world w (set_connIDs m c)) ;;
    or_error err (let! srv := get is_server in if srv : bool then answer_initial else ret true).

(** Whether a packet is kept; [prev] is the packet before it in the datagram. *)
Definition check_connID (prev sum : PacketSummary) (c : t) : bool :=
  let has_dst := IDManager.has_dstID (ps_srcID sum) (connIDs c) in
  let has_src := IDManager.has_srcID (ps_dstID sum) (connIDs c) in
  let onertt := bool_decide (ps_type sum = OneRTT) in
  let known := negb (bool_decide (ps_type sum = Initial)) || IDManager.initial_conn_id_accepted (connIDs c) in
  if negb (bool_decide (ps_type prev = Types.Unknown)) then
    bool_decide (ps_dstID sum = ps_dstID prev) && (onertt || bool_decide (ps_srcID sum = ps_srcID prev))
  else if negb (is_server c) then (negb (negb onertt && known) || has_dst) && has_src
  else if known then (onertt || has_dst) && has_src
  else true.

(** The callback of [parse_frames]: the packet status and the connection, or
    nothing after undefined behaviour. *)
Definition frame_callback (sum : PacketSummary) (f : AnyFrame) (err : bool) (s : option (Z * t)) : bool * option (Z * t) :=
  match s with
  | None => (false, None)
  | Some (pstatus, c) =>
      let detail := FrameFlags.type_detail (raw_type f) in
      let run (pstatus : Z) (m : M bool) :=
        match m c with None => (false, None) | Some (ok, c) => (ok, Some (pstatus, c)) end in
      if err then run pstatus (set_quic_runtime_error (QUICError "frame encoding error" FRAME_ENCODING_ERROR detail) ;; ret false)
      else if negb (is_OKFrameForPacket (ps_type sum) detail) then
        run pstatus (set_quic_runtime_error (QUICError (not_allowed_frame_message (ps_type sum)) PROTOCOL_VIOLATION detail) ;; ret false)
      else run (PacketStatus.add_frame detail pstatus) (handle_frame sum f)
  end.

(** The frames of a packet, and the status they give it. *)
Definition handle_frames (sum : PacketSummary) (payload : list Z) : M (bool * Z) :=
  fun c =>
    match parse_frames (frame_callback sum) u64_max true (Some (0, c), new_reader payload) with
    | (ok, (Some (pstatus, c), _)) => Some ((ok, pstatus), c)
    | (_, (None, _)) => None
    end.

(** [if (cond && crypto.maybe_drop...()) on_...();] *)
Definition drop_if (cond : bool) (drop : CryptoSuite.t T -> bool * CryptoSuite.t T) (k : M unit) : M unit :=
  if cond then
    let! '(dropped, cr) := get (fun c => drop (crypto c)) in
    modify (set_crypto cr) ;; if dropped : bool then k else ret tt
  else ret tt.

Definition handle_single_packet (sum : PacketSummary) (payload : list Z) (path_id : Z) : M bool :=
  let space := from_packet_type (ps_type sum) in
  let! v := get version in
  let sum := if bool_decide (ps_type sum = OneRTT) then set_ps_version v sum else sum in
  let! n := now in
  upd_status (Status.on_packet_decrypted space n) ;;
  let! ok := handle_on_initial sum in
  if negb ok then ret false
  else
    let! srv := get is_server in
    (if srv : bool then
       modify (fun c => let '(w, m) := IDManager.maybe_retire_original_dst_id (ps_dstID sum) (world c) (connIDs c) in
                        set_world w (set_connIDs m c))
     else ret tt) ;;
    let! '(ok, pstatus) := handle_frames sum payload in
    if negb ok then ret false
    else
      drop_if (bool_decide (ps_type sum = Handshake)) CryptoSuite.maybe_drop_initial on_handshake_packet ;;
      drop_if (bool_decide (ps_type sum = OneRTT)) CryptoSuite.maybe_drop_handshake on_handshake_confirmed ;;
      let! n := now in
      modify (fun c => set_unacked (snd (RecvPacketHistory.on_packet_processed space (ps_packet_number sum)
                 (PacketStatus.is_ack_eliciting pstatus) (Status.config (status c)) n (unacked c))) c) ;;
      upd_status (Status.on_packet_processed space (ps_packet_number sum)) ;;
      upd_paths (PathVerifier.maybe_peer_migrated_path path_id (PacketStatus.is_non_path_probe pstatus)) ;;
      ret true.

(** A Retry packet is dropped, is a library error, or is accepted. *)
Definition accept_retry (retry : RetryPacket.t) : M bool :=
  let srcID := LongPacketBase.srcID (RetryPacket.base retry) in
  let! rd := readings in
  modify (fun c =>
    let '((h, r), s) := SentPacketHistory.on_retry_received sent_order rd ((ackh c, recs c), status c) in
    set_status s (set_recs r (set_ackh h c))) ;;
  modify (fun c => set_connIDs (snd (IDManager.on_retry_received srcID (connIDs c))) c) ;;
  modify (fun c => set_retry_token (RetryToken.on_retry_received (RetryPacket.retry_token retry) (retry_token c)) c) ;;
  modify (fun c => set_crypto (snd (CryptoSuite.install_initial_secret (version c) srcID (crypto c))) c) ;;
  ret true.

Definition handle_retry_packet (retry : RetryPacket.t) : M bool :=
  let! drop := get (fun c => is_server c || HandshakeStatus.has_received_packet (Status.hs (status c)) || has_received_retry c) in
  if drop : bool then ret true
  else
    let! orig := get (fun c => IDManager.get_original_dst_id (connIDs c)) in
    let pseudo := RetryPseudoPacket.from_retry_packet orig retry
                    (RetryPseudoPacket.mk 0 [] (LongPacketBase.mk 0 0 0 [] 0 []) []) in
    let '(ok, w) := RetryPseudoPacket.render pseudo (new_writer (replicate (Z.to_nat (RetryPseudoPacket.len pseudo)) 0)) in
    if negb ok then set_quic_runtime_error (LibError "failed to render Retry packet. library bug!!") ;; ret false
    else
      let! v := get version in
      let '(err, output) := generate_retry_integrity_tag (replicate 16 0) (wr_written w) v in
      or_error err (
      if negb (bool_decide (RetryPacket.retry_integrity_tag retry = output)) then ret true else accept_retry retry).

(** *** Datagrams

    The state of the callbacks: the packet before, and the connection. *)
Definition RS : Type := option (PacketSummary * t).

Definition run_with (m : M bool) (s : RS) : bool * RS :=
  match s with
  | None => (false, None)
  | Some (prev, c) => match m c with None => (false, None) | Some (ok, c) => (ok, Some (prev, c)) end
  end.

(** [crypto_cb] *)
Definition crypto_cb (path pn : Z) (packet : AnyPlain) : M bool :=
  let sum := summarize_plain packet pn in
  let! dup := get (fun c => RecvPacketHistory.is_duplicated (from_packet_type (ps_type sum)) pn (unacked c)) in
  if dup : bool then ret true else handle_single_packet sum (plain_payload packet) path.

(** [decrypt_callback] of crypto/decrypt.h with the callbacks of the
    connection: what cannot be decrypted is dropped. *)
Definition decrypt_cb (path : Z) (type : PacketType) (packet : AnyPacket) (parsed : CryptoPacket.t) : M bool :=
  let! r := get (fun c => CryptoSuite.decrypt_callback (version c)
    (fun ty => default 0 (Status.largest_received_packet_number (from_packet_type ty) (status c)))
    type (from_option ps_dstID [] (summarize packet packetnum.infinity)) parsed (crypto c)) in
  let! '(err, parsed, cr) := of_option r in
  modify (set_crypto cr) ;;
  match err with
  | Some _ => ret true
  | None =>
      let! '(plain, ok) := of_option (convert_cipher_to_plain parsed packet authentication_tag_length) in
      if negb ok then ret true else crypto_cb path (CryptoPacket.packet_number parsed) plain
  end.

(** [check_connID_cb]; [size_] is the size of the datagram. *)
Definition check_connID_cb (size_ : Z) (packet : AnyPacket) (_ : list Z) (s : RS) : bool * RS :=
  match s, summarize packet packetnum.infinity with
  | Some (prev, c), Some sum =>
      let first_time := bool_decide (ps_type prev = Types.Unknown) in
      if negb (check_connID prev sum c) then (false, s)
      else if first_time then
        match (let! rd := readings in upd_status (Status.on_datagram_received size_ rd)) c with
        | None => (false, None)
        | Some (_, c) => (true, Some (sum, c))
        end
      else (true, Some (sum, c))
  | _, _ => (false, None)
  end.

(** [plain_cb]: of the packets in the clear only Retry is handled. *)
Definition plain_cb (_ : PacketType) (packet : AnyPacket) (_ : list Z) : RS -> bool * RS :=
  run_with (match packet with ARetryPacket retry => handle_retry_packet retry | _ => ret true end).

(** [parse_with_decrypt] *)
Definition packet_callback (size_ path : Z) : callback RS :=
  with_crypto_parse (fun type packet parsed => run_with (decrypt_cb path type packet parsed)) plain_cb
    (fun _ _ _ _ _ s => (true, s)) (check_connID_cb size_).

Definition is_stateless_reset (s : RS) (r : StatelessReset.t) : bool :=
  match s with
  | Some (_, c) => IDAcceptor.stateless_reset_callback (StatelessReset.stateless_reset_token r) (IDManager.acceptor (connIDs c))
  | None => false
  end.
Definition get_dstID_len (s : RS) (r : reader) (len : Z) : bool * Z :=
  match s with
  | Some (_, c) =>
      match IDIssuer.onertt_dstID_len r (IDManager.issuer (connIDs c)) with Some n => (true, n) | None => (false, len) end
  | None => (false, len)
  end.

Definition parse_udp_payload (data : list Z) (path : Z) : M bool :=
  let! x := get closer in
  if negb (sent_packet_null x) then upd_closer Closer.on_recv_after_close_sent ;; ret true
  else fun c =>
    match parse_packets authentication_tag_length (packet_callback (size data) path) is_stateless_reset get_dstID_len
            data (Some (new_summary Types.Unknown, c)) with
    | Some (_, (_, Some (_, c))) => Some (true, c)
    | _ => None
    end.

(** *** Starting *)

(** [crypto.tls().connect()] with the callbacks it makes. *)
Definition start_tls : M (option Error) :=
  let! '(err, evs, x) := get (fun c => tls_connect (tls c)) in
  modify (set_tls x) ;;
  modify (fun c => set_crypto (CryptoSuite.mk (foldl CryptoHandshakers.apply_event (CryptoSuite.handshaker (crypto c)) evs)
                                 (foldl CryptoSuite.apply_event (CryptoSuite.secrets (crypto c)) evs)) c) ;;
  ret err.

Definition start_client_tls (hostname : option (list Z)) : M bool :=
  let! err := match hostname with
              | None => ret None
              | Some h => let! '(err, x) := get (fun c => set_hostname h (tls c)) in modify (set_tls x) ;; ret err
              end in
  or_error err (
    let! err := start_tls in
    or_error (match err with Some e => if isTLSBlock e then None else Some e | None => None end) (
      let! zerortt := get (fun c => CryptoSuite.write_installed ZeroRTT (crypto c)) in
      (if zerortt : bool then apply_0RTT_transport_parameter else reset_peer_transport_parameter) ;; ret true)).

(** The id of this end that goes into its parameters: the one it issued
    first, or nothing. *)
Definition choose_initial_id : M bool :=
  let set id := modify (fun c => set_params (snd (TransportParameters.set_local (make_bytes initial_src_connection_id id) (params c))) c) ;; ret true in
  let! zero := get (fun c => IDManager.local_using_zero_length (connIDs c)) in
  if zero : bool then set []
  else
    let! issued := issue_seq0_connid in
    match issued with
    | None => ret false
    | Some _ => let! id := get (fun c => IDManager.choose_srcID 0 (connIDs c)) in set (cid_id id)
    end.

Definition connect_start (hostname : option (list Z)) : M bool :=
  let! refused := get (fun c => handshake_started c || is_server c) in
  if refused : bool then ret false
  else
    upd_status Status.on_handshake_start ;;
    let! ok := choose_initial_id in
    if negb ok then ret false
    else
      let! '(ok, w, m) := get (fun c => IDManager.gen_original_dst_id (world c) (connIDs c)) in
      modify (fun c => set_world w (set_connIDs m c)) ;;
      if negb ok then
        set_quic_runtime_error (LibError "failed to generate client destination connection ID. library bug!!") ;; ret false
      else
        let! '(ok, cr) := get (fun c => CryptoSuite.install_initial_secret (version c) (IDManager.get_original_dst_id (connIDs c)) (crypto c)) in
        modify (set_crypto cr) ;;
        if negb ok then ret false
        else
          let! ok := set_transport_parameter in
          if negb ok then ret false else start_client_tls hostname.

(** [retry_src_conn_id] is [None] for a null view. *)
Definition accept_start (original_dst_id : list Z) (retry_src_conn_id : option (list Z)) : M bool :=
  let! refused := get (fun c => handshake_started c || negb (is_server c)) in
  if refused : bool then ret false
  else
    upd_status Status.on_handshake_start ;;
    modify (set_local_id original_dst_connection_id original_dst_id) ;;
    match retry_src_conn_id with
    | Some id => modify (set_local_id retry_src_connection_id id) ;; upd_status Status.set_retry_sent
    | None => ret tt
    end ;;
    modify (fun c => let '(w, m) := IDManager.set_original_dst_id original_dst_id retry_src_conn_id (world c) (connIDs c) in
                     set_world w (set_connIDs m c)) ;;
    ret true.

(** [struct Config], with what [udconfig] and the application give; the TLS
    object, or the error of its creation, is an argument of [init]. *)
Record Config := mk_context_config {
  cfg_version : Z; cfg_server : bool; cfg_session : option (T -> T); cfg_internal : QTime.Config;
  cfg_mtu : MTUConfig; cfg_max_path_challenge : Z; cfg_original_path : Z;
  cfg_params : DefinedTransportParams.t; cfg_connid : ConnIDConfig W; cfg_datagram : DgramConfig;
  cfg_zero_rtt : ZeroRTTTokenManager.ZeroRTTStorage W;
  cfg_algorithm : A; cfg_dgram_drop : D; cfg_app : V
}.

(** [internal]: the configuration of [Status]. *)
Definition internal_config (g : Config) : QTime.Config :=
  let c := cfg_internal g in
  let p := cfg_params g in
  mk_config (window_initial_factor c) (window_minimum_factor c) (QTime.handshake_timeout c) (handshake_idle_timeout c)
    (initial_rtt c) (packet_order_threshold c) (time_threshold c) (delay_ack_packet_count c) (use_ack_delay c)
    (pacer_N c) (clock c) (persistent_congestion_threshold c) (ping_duration c) (path_validation_timeout_factor c)
    (DefinedTransportParams.p_max_idle_timeout p) (DefinedTransportParams.p_ack_delay_exponent p)
    (DefinedTransportParams.p_max_ack_delay p).

(** The members set once the clock is known to work. *)
Definition init_members (g : Config) (c : t) : t :=
  let p := TransportParameters.mk (cfg_params g)
             (if cfg_server g then DefinedTransportParams.new else TransportParameters.peer (params c)) new_checker in
  let c := set_params p c in
  let c := set_connIDs (IDManager.reset (cfg_version g) (cfg_connid g) (connIDs c)) c in
  let origin := if cfg_server g then server else client in
  let c := set_streams (Conn.apply_local_initial_limits (to_initial_limits (cfg_params g)) (Conn.new origin (cfg_app g))) c in
  let c := set_zero_rtt_token (ZeroRTTTokenManager.reset (cfg_zero_rtt g) (zero_rtt_token c)) (set_retry_token RetryToken.reset c) in
  let c := set_datagrams (DatagramManager.reset (DefinedTransportParams.p_max_datagram_frame_size (cfg_params g))
                            (cfg_datagram g) (cfg_dgram_drop g)) c in
  let c := set_path_verifier (PathVerifier.reset (cfg_original_path g) (cfg_max_path_challenge g)) c in
  set_closed not_closed c.

(** The text of [error::none] is the argument [none_text]. *)
Definition init (none_text : list Z) (g : Config) (new_tls : T + Error) : M bool :=
  upd_closer (fun _ => Closer.reset none_text) ;;
  modify (fun c => set_version (cfg_version g) (set_unacked RecvPacketHistory.reset (set_ackh SentPacketHistory.reset c))) ;;
  match new_tls with
  | inr e => set_quic_runtime_error e ;; ret false
  | inl x =>
      let x := match cfg_session g with Some f => f x | None => x end in
      modify (set_crypto (CryptoSuite.reset x (cfg_server g))) ;;
      modify (set_mtu (MTU.reset (cfg_mtu g))) ;;
      let! n := now in
      modify (fun c => set_status (Status.reset (internal_config g) (cfg_algorithm g) (cfg_server g)
                                     (MTU.current_datagram_size (mtu c)) n) c) ;;
      let! n := now in
      if negb (time.valid n) then
        set_quic_runtime_error (quic_error "clock.now() returns invalid time. clock must be set") ;; ret false
      else modify (init_members g) ;; ret true
  end.
End ops.
Arguments Config : clear implicits.
End ContextRecv.
