(* ===== verification/ContextKeeps.v ===== *)
(** * ContextKeeps: relations between the states of a connection

    A small logic for the monad of [QuicContext]: [keeps R m] says that every
    run of [m] relates the state before and after by [R], a preorder. Three
    preorders, on the close state, on the history of received packets and on
    the flags of the handshake, with the operations of the components that
    respect them; [ContextTracks] carries them through the connection. *)

From stdpp Require Import base list gmap strings.
From Stdlib Require Import ZArith Lia.
From S2P Require Import Prelude Bytes PacketNumber Types PacketBase LongPacket ShortPacket PacketParse FrameBase FrameStream FrameAck FrameParse QTime Rtt PnManage LossTimer Congestion Pacer Status AckRecord RecvHistory SentHistory StreamId ConnBase StreamImpl StreamConn Datagram Keys PacketProtect CryptoStream KeyUpdate TransportParam ConnId Path Close QuicContext ContextRecv.

#[local] Open Scope Z_scope.
#[local] Open Scope list_scope.

Import QuicContext ContextRecv.

Section Keeps.
Context {A T D V W : Type} (R : t A T D V W -> t A T D V W -> Prop) `{!PreOrder R}.

Definition keeps {X} (m : M A T D V W X) : Prop := forall c x c', m c = Some (x, c') -> R c c'.

Lemma keeps_ret {X} (x : X) : keeps (ret x).
Proof. intros c y c' E. injection E as <- <-. reflexivity. Qed.
Lemma keeps_get {X} (f : t A T D V W -> X) : keeps (get f).
Proof. intros c y c' E. injection E as <- <-. reflexivity. Qed.
Lemma keeps_undefined {X} : keeps (undefined (X := X)).
Proof. intros c y c' E. discriminate E. Qed.
Lemma keeps_of_option {X} (o : option X) : keeps (of_option o).
Proof. intros c y c' E. unfold of_option in E. destruct o; [injection E as <- <-; reflexivity | discriminate E]. Qed.
Lemma keeps_modify f : (forall c, R c (f c)) -> keeps (modify f).
Proof. intros Hf c y c' E. injection E as <- <-. apply Hf. Qed.
Lemma keeps_bind {X Y} (m : M A T D V W X) (k : X -> M A T D V W Y) : keeps m -> (forall x, keeps (k x)) -> keeps (bind m k).
Proof.
  intros Hm Hk c y c' E. unfold bind in E. destruct (m c) as [[x c1] |] eqn:Em; [| discriminate E].
  transitivity c1; [by eapply Hm | by eapply Hk].
Qed.
Lemma keeps_if {X} (b : bool) (m n : M A T D V W X) : keeps m -> keeps n -> keeps (if b then m else n).
Proof. by destruct b. Qed.
End Keeps.

Lemma keeps_weaken {A T D V W X} (R R' : t A T D V W -> t A T D V W -> Prop) (m : M A T D V W X) :
  (forall c d, R c d -> R' c d) -> keeps R m -> keeps R' m.
Proof. intros HR Hm c x c' E. eapply HR, Hm, E. Qed.

Lemma bind_inv {A T D V W X Y} (m : M A T D V W X) (k : X -> M A T D V W Y) c y d :
  bind m k c = Some (y, d) -> exists x c1, m c = Some (x, c1) /\ k x c1 = Some (y, d).
Proof. unfold bind. destruct (m c) as [[x c1] |]; [eauto | done]. Qed.

(** Runs the first step of an operation that is known to return. *)
Tactic Notation "run" hyp(E) "as" simple_intropattern(x) simple_intropattern(c1) simple_intropattern(E1) :=
  apply bind_inv in E as (x & c1 & E1 & E).
Lemma bind_get {A T D V W X Y} (f : t A T D V W -> X) (k : X -> M A T D V W Y) c r : bind (get f) k c = r -> k (f c) c = r.
Proof. done. Qed.
Lemma bind_modify {A T D V W Y} (f : t A T D V W -> t A T D V W) (k : unit -> M A T D V W Y) c r :
  bind (modify f) k c = r -> k tt (f c) = r.
Proof. done. Qed.
Tactic Notation "run_get" hyp(E) := apply bind_get in E; cbv beta in E.
Tactic Notation "run_modify" hyp(E) := apply bind_modify in E; cbv beta in E.

Create HintDb keeps.
#[export] Hint Resolve keeps_ret keeps_get keeps_undefined keeps_of_option : keeps.

(** Walks through the structure of an operation. *)
Ltac keeps_step :=
  match goal with
  | |- forall _, _ => intro
  | |- keeps _ (bind _ _) => apply keeps_bind; [typeclasses eauto | |]
  | |- keeps _ (if _ then _ else _) => apply keeps_if
  | |- keeps _ (let '(_, _) := ?p in _) => destruct p
  | |- keeps _ (match ?x with _ => _ end) => destruct x eqn:?
  | |- keeps _ _ => solve [eauto with keeps typeclass_instances]
  | |- keeps _ (modify _) => apply keeps_modify; intro
  end.
Ltac keeps_tac := repeat keeps_step.

(** ** The close state *)

(** An error stays; a close packet that was sent stays, with its bytes unless
    it is empty; so does the mark of a close by the peer, which excludes one
    by this end. *)
Record closer_le (x y : Closer.t) : Prop := {
  le_error : Closer.has_error x = true -> Closer.has_error y = true;
  le_sent : sent (Closer.flag x) = true -> sent (Closer.flag y) = true;
  le_data : sent (Closer.flag x) = true -> Closer.close_data x <> [] -> Closer.close_data y = Closer.close_data x;
  le_received : received (Closer.flag x) = true -> received (Closer.flag y) = true;
  le_silent : received (Closer.flag x) = true -> sent (Closer.flag x) = false -> sent (Closer.flag y) = false
}.

#[global] Instance closer_le_preorder : PreOrder closer_le.
Proof.
  split; [by split |]. intros x y z [a b c d e] [a' b' c' d' e']. split; auto.
  intros H1 H2. rewrite <- (c H1 H2). apply c'; [by apply b |]. by rewrite (c H1 H2).
Qed.

Lemma on_error_le err ty x : ty <> et_none -> closer_le x (Closer.on_error err ty x).
Proof. intros Ht. split; try done. intros _. unfold Closer.has_error. cbn. by rewrite bool_decide_eq_false_2. Qed.

Lemma recv_le f x : closer_le x (snd (Closer.recv f x)).
Proof.
  unfold Closer.recv. destruct (received (Closer.flag x)) eqn:Er; [by cbn |].
  destruct (sent (Closer.flag x)) eqn:Es; [by cbn |]. cbn -[ConnectionCloseFrame.parse ConnectionCloseFrame.render].
  split; cbn; intros; first [done | congruence].
Qed.

(** ** The history of received packets *)

Definition space_ok (x : RecvSpaceHistory.t) : Prop :=
  ranges_ok (RecvSpaceHistory.ranges x) /\ 0 <= RecvSpaceHistory.ignore_under x.
Definition space_of (sp : PacketNumberSpace) (h : RecvPacketHistory.t) : option RecvSpaceHistory.t :=
  match sp with
  | initial => Some (RecvPacketHistory.h_initial h)
  | handshake => Some (RecvPacketHistory.h_handshake h)
  | application => Some (RecvPacketHistory.h_app h)
  | no_space => None
  end.
Definition spaces_ok (h : RecvPacketHistory.t) : Prop := forall sp x, space_of sp h = Some x -> space_ok x.
(** Numbers are forgotten, never invented. *)
Definition hist_le (h k : RecvPacketHistory.t) : Prop :=
  spaces_ok h -> spaces_ok k /\ forall sp x y q, space_of sp h = Some x -> space_of sp k = Some y ->
    seen q (RecvSpaceHistory.ranges y) -> seen q (RecvSpaceHistory.ranges x).

#[global] Instance hist_le_preorder : PreOrder hist_le.
Proof.
  split.
  - intros h Hh. split; [done |]. intros sp x y q E1 E2. rewrite E1 in E2. by injection E2 as <-.
  - intros h k l H1 H2 Hh. destruct (H1 Hh) as [Hk S1]. destruct (H2 Hk) as [Hl S2]. split; [done |].
    intros sp x z q Ex Ez Hq. destruct (space_of sp k) as [y |] eqn:Ey; [eauto |]. by destruct sp.
Qed.

(** It is enough to look at the spaces one by one. *)
Lemma hist_le_spaces h k :
  (forall sp x, space_of sp h = Some x -> space_ok x -> exists y, space_of sp k = Some y /\ space_ok y /\
    forall q, seen q (RecvSpaceHistory.ranges y) -> seen q (RecvSpaceHistory.ranges x)) -> hist_le h k.
Proof.
  intros Hs Hh. split.
  - intros sp y Ey. destruct (space_of sp h) as [x |] eqn:Ex; [| by destruct sp].
    destruct (Hs sp x Ex (Hh sp x Ex)) as (y' & Ey' & Hy & _). rewrite Ey in Ey'. by injection Ey' as <-.
  - intros sp x y q Ex Ey Hq. destruct (Hs sp x Ex (Hh sp x Ex)) as (y' & Ey' & _ & Hy). rewrite Ey in Ey'.
    injection Ey' as <-. auto.
Qed.

Ltac hist_same := apply hist_le_spaces; intros sp x Ex Hx; exists x; split; [by destruct sp | by split].

Lemma discarded_le sp h : hist_le h (RecvPacketHistory.on_packet_number_space_discarded sp h).
Proof.
  apply hist_le_spaces. intros sp' x Ex Hx. unfold RecvPacketHistory.on_packet_number_space_discarded.
  assert (Hr : space_ok RecvSpaceHistory.reset) by (split; [split; constructor | done]).
  destruct sp, sp'; cbn in *; try discriminate Ex; injection Ex as <-; eexists; (split; [reflexivity |]); split; try done;
    intros q Hq; autorewrite with ranges in Hq; done.
Qed.

Lemma delete_under_le pn h : hist_le h (RecvPacketHistory.delete_onertt_under pn h).
Proof.
  apply hist_le_spaces. intros sp x Ex [Hr Hi]. destruct sp; cbn in *; try discriminate Ex; injection Ex as <-;
    eexists; (split; [reflexivity |]); try done.
  unfold RecvSpaceHistory.delete_under. destruct (Z.ltb_spec pn (RecvSpaceHistory.ignore_under (RecvPacketHistory.h_app h))); [done |].
  cbn [snd]. destruct (HistoryFacts.delete_loop_spec pn (RecvSpaceHistory.ranges (RecvPacketHistory.h_app h))) as [H1 H2]; [lia | done |].
  split; [split; cbn; [done | lia] |]. cbn. intros q Hq. by apply H2.
Qed.

(** Sending an ACK frame leaves the ranges. *)
Lemma space_send_ranges w b delay config x res w' b' y la :
  RecvSpaceHistory.send w b delay config x = Some (res, w', b', y, la) ->
  RecvSpaceHistory.ranges y = RecvSpaceHistory.ranges x /\ RecvSpaceHistory.ignore_under y = RecvSpaceHistory.ignore_under x.
Proof.
  unfold RecvSpaceHistory.send. intros E. destruct (_ =? 0); [by simplify_eq |].
  destruct (size (RecvSpaceHistory.get_ranges x) =? 0); [by simplify_eq |].
  destruct (convert_to_ACKFrame _) as [f ok]. destruct (negb ok); [by simplify_eq |].
  apply bind_Some in E as (f' & _ & E). destruct (write_checked f' w) as [r w1]. destruct (bool_decide _); by simplify_eq/=.
Qed.

Lemma history_send_le w sp config n1 n2 h res w' k la :
  RecvPacketHistory.send w sp config n1 n2 h = Some (res, w', k, la) -> hist_le h k.
Proof.
  intros E. apply hist_le_spaces. intros sp' x Ex Hx. cut (exists y, space_of sp' k = Some y /\
    RecvSpaceHistory.ranges y = RecvSpaceHistory.ranges x /\ RecvSpaceHistory.ignore_under y = RecvSpaceHistory.ignore_under x).
  { intros (y & Ey & Er & Ei). exists y. unfold space_ok. rewrite Er, Ei. by split. }
  unfold RecvPacketHistory.send in E. destruct sp.
  1, 2: apply bind_Some in E as ([[[[r1 w1] b1] y] l1] & Es & E); apply space_send_ranges in Es; simplify_eq/=;
    destruct sp'; cbn in *; simplify_eq/=; eauto.
  - destruct (negb _); [simplify_eq; by eauto |].
    apply bind_Some in E as ([[[[r1 w1] b1] y] l1] & Es & E). apply space_send_ranges in Es as [Er Ei]. simplify_eq/=.
    destruct (bool_decide _), sp'; cbn in *; simplify_eq/=; eauto.
  - simplify_eq. by eauto.
Qed.

(** A packet that was not a duplicate becomes one, unless its number has been
    forgotten meanwhile: then it is one already. *)
Lemma processed_duplicate sp pn el config now h x :
  spaces_ok h -> space_of sp h = Some x -> ~ seen pn (RecvSpaceHistory.ranges x) -> is_pn pn ->
  RecvPacketHistory.is_duplicated sp pn (snd (RecvPacketHistory.on_packet_processed sp pn el config now h)) = true.
Proof.
  intros Hh Ex Hn Hpn. destruct (Hh sp x Ex) as [Hr Hi].
  assert (G : RecvSpaceHistory.is_duplicated pn (snd (RecvSpaceHistory.on_packet_processed pn el x)) = true).
  { destruct (RecvSpaceHistory.is_duplicated pn x) eqn:Ed.
    - apply HistoryFacts.is_duplicated_spec in Ed as [Hlt | Hs]; [| done | done].
      unfold RecvSpaceHistory.on_packet_processed. destruct (if _ : bool then _ else _) as [lo hi]. unfold RecvSpaceHistory.add_to_range.
      cbn [RecvSpaceHistory.ignore_under]. rewrite ltb_true by done. unfold RecvSpaceHistory.is_duplicated. cbn. by rewrite ltb_true.
    - destruct (HistoryFacts.processed_spec pn el x Hr Hpn Ed) as (y & -> & Hy & _ & Hq).
      apply HistoryFacts.is_duplicated_spec; [done |]. right. cbn. apply Hq. by left. }
  unfold RecvPacketHistory.is_duplicated, RecvPacketHistory.on_packet_processed.
  destruct sp; cbn in Ex; try discriminate Ex; injection Ex as <-;
    destruct (RecvSpaceHistory.on_packet_processed _ _ _) as [b y]; cbn in *; try done.
  by destruct (_ && _).
Qed.

(** ** The handshake flags of [Status] *)

(** Flags are only ever added, and the role is not among those added. *)
Record hs_le (h k : HandshakeStatus.t) : Prop := {
  hs_grows f : HandshakeStatus.has f h = true -> HandshakeStatus.has f k = true;
  hs_role : HandshakeStatus.is_server k = HandshakeStatus.is_server h
}.
#[global] Instance hs_le_preorder : PreOrder hs_le.
Proof. split; [by split |]. intros x y z [a b] [a' b']. split; [auto | congruence]. Qed.

Lemma add_flag_le f h : Z.land f HandshakeStatus.flag_is_sever = 0 -> hs_le h (HandshakeStatus.add_flag f h).
Proof.
  intros Hf. unfold HandshakeStatus.add_flag. split.
  - intros g. unfold HandshakeStatus.has. cbn. rewrite !negb_true_iff, !Z.eqb_neq, Z.land_lor_distr_l, Z.lor_eq_0_iff. tauto.
  - unfold HandshakeStatus.is_server, HandshakeStatus.has. cbn. by rewrite Z.land_lor_distr_l, Hf, Z.lor_0_r.
Qed.

(** Most of [Status] leaves the flags and the next packet numbers alone. *)
Module StatusView.
Section hs.
Context {A : Type} `{Algorithm A} (order : gmap Z SentPacket -> list (Z * SentPacket)).
Import Status SentPacketHistory.

(** The next number of each space. *)
Definition next_numbers (s : Status.t A) : Spaces Z :=
  let f := PacketNumberIssuer.issue_packet_number in
  mk_spaces (f (s_initial (pn_issuers s))) (f (s_handshake (pn_issuers s))) (f (s_app (pn_issuers s))).
Definition view (s : Status.t A) : HandshakeStatus.t * Spaces Z := (hs s, next_numbers s).

Lemma set_issuer_view sp i j (s : Status.t A) : sget (pn_issuers s) sp = Some i ->
  PacketNumberIssuer.issue_packet_number j = PacketNumberIssuer.issue_packet_number i ->
  view (set_issuers (sset sp j (pn_issuers s)) s) = view s.
Proof. destruct sp; cbn; intros [= <-] E; unfold view, next_numbers; cbn; by rewrite ?E. Qed.
Lemma update_issuer_view sp f (s : Status.t A) :
  (forall i, PacketNumberIssuer.issue_packet_number (f i) = PacketNumberIssuer.issue_packet_number i) -> view (update_issuer sp f s) = view s.
Proof. intros Hf. unfold update_issuer. destruct (sget _ _) as [i |] eqn:Ei; [| done]. by eapply set_issuer_view. Qed.
Lemma decrement_number st i :
  PacketNumberIssuer.issue_packet_number (PacketNumberIssuer.decrement_ack_eliciting_in_flight st i) = PacketNumberIssuer.issue_packet_number i.
Proof. unfold PacketNumberIssuer.decrement_ack_eliciting_in_flight. by destruct (PacketNumberIssuer.counts_in_flight st). Qed.
Lemma acked_number n i :
  PacketNumberIssuer.issue_packet_number (PacketNumberIssuer.on_ack_received n i) = PacketNumberIssuer.issue_packet_number i.
Proof. unfold PacketNumberIssuer.on_ack_received. by destruct (_ || _). Qed.
#[local] Hint Resolve decrement_number acked_number : core.
Lemma loss_timer_view n1 n2 (s : Status.t A) : view (set_loss_detection_timer n1 n2 s) = view s.
Proof. unfold set_loss_detection_timer. by destruct (LossTimer.set_loss_detection_timer _ _ _ _ _ _ _ _) as [l p]. Qed.
Lemma pacer_view q (s : Status.t A) : view (set_pacer q s) = view s.
Proof. done. Qed.
Lemma process_ecn_view sp e ts (s : Status.t A) : view (process_ecn sp e ts s) = view s.
Proof.
  unfold process_ecn. destruct (sget _ _) as [i |] eqn:Ei; [| done].
  assert (G : forall j, PacketNumberIssuer.issue_packet_number j = PacketNumberIssuer.issue_packet_number i ->
    view (set_issuers (sset sp j (pn_issuers s)) s) = view s) by (intros j; by apply set_issuer_view).
  unfold PacketNumberIssuer.is_ecn_ce_updated. destruct (_ <? _); by apply G.
Qed.

Lemma is_lost_view sp d tb la pn sb ts st (sc : LostScan A) :
  view (sc_status (snd (is_lost sp d tb la pn sb ts st sc))) = view (sc_status sc).
Proof.
  unfold is_lost. destruct (call_cong_cb_once sc); [done |]. destruct (la <? pn); [done |]. cbv zeta.
  destruct (_ || _); [| done]. destruct (Congestion.on_packet_lost _ _ _ _) as [l c]. cbn [snd sc_status].
  refine (update_issuer_view _ _ _ _). auto.
Qed.
Lemma congestion_callback_view n cb (sc : LostScan A) : view (sc_status (congestion_callback n cb sc)) = view (sc_status sc).
Proof. unfold congestion_callback. destruct (call_cong_cb_once sc); [done |]. by destruct (negb _). Qed.

Lemma lost_loop_view sp d tb la l : forall p h rem (sc : LostScan A),
  view (sc_status (snd (lost_loop (is_lost sp d tb la) l p h rem sc))) = view (sc_status sc).
Proof.
  induction l as [| [k x] l IH]; intros p h rem sc; [done |]. cbn [lost_loop].
  pose proof (is_lost_view sp d tb la (packet_number x) (sent_bytes x) (time_sent x) (sp_status x) sc) as E.
  destruct (is_lost _ _ _ _ _ _ _ _ _) as [[] sc1]; cbn [snd] in E; rewrite ?IH; done.
Qed.
Lemma detect_lost_view sp must n1 n2 w (s : Status.t A) :
  view (snd (snd (detect_and_remove_lost_packet (remove_lost_callback order) sp must n1 n2 (w, s)))) = view s.
Proof.
  unfold detect_and_remove_lost_packet. destruct (sget _ _) as [i |]; [| done]. destruct (negb _); [done |]. cbv zeta.
  unfold remove_lost_callback. destruct (sget (tables w) sp) as [p |]; [| done]. cbv zeta.
  match goal with |- context [lost_loop ?f ?l ?p ?h ?r ?sc] => pose proof (lost_loop_view sp (loss_delay s) (s64 (n1 - loss_delay s))
    (PacketNumberIssuer.largest_acked_packet i) l p h r sc) as E; destruct (lost_loop f l p h r sc) as [[[[ok q] r1] rm] sc1] end.
  cbn [snd sc_status] in E. destruct ok; cbn [negb snd]; [| exact E]. etransitivity; [apply congestion_callback_view | exact E].
Qed.

Lemma is_ack_view sp rs la sa pn sb ts st lsa (a : AckScan A) :
  view (ac_status (snd (is_ack sp rs la sa pn sb ts st lsa a))) = view (ac_status a).
Proof. unfold is_ack. destruct (negb _); [done |]. cbn [snd ac_status]. refine (update_issuer_view _ _ _ _). auto. Qed.
Lemma acked_loop_view sp rs la sa l : forall p ac (a : AckScan A),
  view (ac_status (snd (acked_loop (is_ack sp rs la sa) l p ac a))) = view (ac_status a).
Proof.
  induction l as [| [k x] l IH]; intros p ac a; [done |]. cbn [acked_loop].
  pose proof (is_ack_view sp rs la sa (packet_number x) (sent_bytes x) (time_sent x) (sp_status x) (largest_ack x) a) as E.
  destruct (is_ack _ _ _ _ _ _ _ _ _ _) as [[] a1]; cbn [snd] in E; [destruct (PacketStatus.is_skipped _); cbn [snd] |]; rewrite ?IH; done.
Qed.
Lemma ack_sample_view d la rd (a : AckScan A) : view (ac_status (snd (ack_sample d la rd a))) = view (ac_status a).
Proof. unfold ack_sample. destruct (_ && _); [| done]. cbv zeta. by destruct (RTT.sample_rtt _ _ _ _ _) as [ok r]. Qed.
Lemma confirm_acked_view lim w (a : AckScan A) : view (ac_status (snd (confirm_acked (apply_ack lim) (w, a)))) = view (ac_status a).
Proof.
  unfold confirm_acked. generalize (acked w). intros l. revert w a.
  induction l as [| x l IH]; intros w a; [done |]. cbn [foldl]. by rewrite IH.
Qed.
Lemma after_remove_view sp d ecn la lim rd w (a : AckScan A) :
  view (ac_status (snd (snd (after_remove_acked_packets sp d ecn la (remove_lost_callback order) lim rd confirm_acked (w, a))))) = view (ac_status a).
Proof.
  unfold after_remove_acked_packets. destruct (1 <=? _); [done |]. cbv zeta.
  match goal with |- context [ack_sample d la rd ?x] => pose proof (ack_sample_view d la rd x) as E1; destruct (ack_sample d la rd x) as [ok a1] end.
  cbn in E1. destruct ok; cbn [negb snd]; [| done].
  match goal with |- context [detect_and_remove_lost_packet ?f ?sp ?b ?n ?m (?w, ?s)] => pose proof (detect_lost_view sp b n m w s) as E2;
    destruct (detect_and_remove_lost_packet f sp b n m (w, s)) as [ok [w2 s2]] end.
  cbn [snd] in E2. assert (E3 : view s2 = view (ac_status a)).
  { rewrite E2, <- E1. destruct ecn; [cbn [ac_status]; apply process_ecn_view | done]. }
  destruct ok; cbn [negb snd]; [| exact E3].
  match goal with |- context [confirm_acked ?f (?w, ?x)] => pose proof (confirm_acked_view lim w x) as E4;
    destruct (confirm_acked f (w, x)) as [w3 a3] end.
  cbn [snd ac_status] in *. rewrite loss_timer_view. exact (eq_trans E4 E3).
Qed.

(** What the histories do to both. *)
Definition status_le (s s' : Status.t A) : Prop := hs_le (hs s) (hs s') /\ next_numbers s' = next_numbers s.
Lemma status_le_view (s s' : Status.t A) h : view s' = (h, next_numbers s) -> hs_le (hs s) h -> status_le s s'.
Proof. unfold view. intros E Hh. split; [by rewrite (f_equal fst E : hs s' = h) | exact (f_equal snd E)]. Qed.
#[global] Instance status_le_refl : Reflexive status_le.
Proof. by split. Qed.

Lemma ack_received_view sp ac lo ack lim rd x e w s' :
  on_ack_received order sp ac lo ack lim rd x = (e, (w, s')) -> status_le (snd x) s'.
Proof.
  destruct x as [[h r] s]. unfold on_ack_received. destruct (convert_from_ACKFrame ack) as [rs ok]. cbv zeta.
  destruct (negb ok); [intros E; by simplify_eq |].
  destruct (Status.on_ack_received _ _ _ _ _ _ _ _ _) as [res [w1 s1]] eqn:Es. intros E. simplify_eq. cbn [snd].
  assert (G : hs_le (hs s) (HandshakeStatus.on_ack_received sp (hs s)))
    by (unfold HandshakeStatus.on_ack_received; destruct (bool_decide _); [by apply add_flag_le | done]).
  cut (view s' = (HandshakeStatus.on_ack_received sp (hs s), next_numbers s)); [intros E; exact (status_le_view _ _ _ E G) |]. clear G. revert Es.
  unfold Status.on_ack_received. cbv zeta. destruct rs as [| r0 rs]; [intros; by simplify_eq |].
  destruct (last (r0 :: rs)) as [rn |]; [| intros; by simplify_eq]. unfold remove_acked. cbn [tables SentPacketHistory.acked recs err lost].
  destruct (sget h sp) as [p |]; [| cbn; intros; simplify_eq; refine (update_issuer_view _ _ _ _); auto].
  match goal with |- context [acked_loop (is_ack ?sp ?rs ?la ?sa) ?l ?p ?ac ?a] =>
    pose proof (acked_loop_view sp rs la sa l p ac a) as E1; destruct (acked_loop (is_ack sp rs la sa) l p ac a) as [[[ok1 q] ac1] a1] end.
  cbn [snd ac_status] in E1. rewrite update_issuer_view in E1 by auto. destruct ok1; cbn [negb]; [| cbn; intros [= _ _ <-]; exact E1].
  match goal with |- context [after_remove_acked_packets ?sp ?d ?e ?la _ ?li ?rd ?th (?w, ?a)] =>
    pose proof (after_remove_view sp d e la li rd w a) as E2; destruct (after_remove_acked_packets _ _ _ _ _ _ _ _ _) as [ok2 [w2 a2]] end.
  cbn [snd] in E2. destruct (negb ok2); [| destruct (_ || _)]; intros [= _ _ <-]; exact (eq_trans E2 E1).
Qed.

Lemma loss_timeout_view lo rd x e w s' :
  maybe_loss_detection_timeout order lo rd x = (e, (w, s')) -> view s' = view (snd x).
Proof.
  destruct x as [[h r] s]. unfold maybe_loss_detection_timeout. cbv zeta. destruct (negb _); [intros; by simplify_eq |].
  unfold on_loss_detection_timeout. destruct (LossTimer.state (loss s)).
  all: try (intros; simplify_eq/=; by rewrite ?loss_timer_view; unfold on_pto_timeout; repeat case_match).
  match goal with |- context [detect_and_remove_lost_packet ?f ?sp ?b ?n ?m (?w, ?s)] => pose proof (detect_lost_view sp b n m w s) as E2;
    destruct (detect_and_remove_lost_packet f sp b n m (w, s)) as [ok [w2 s2]] end.
  cbn [snd] in *. destruct (negb ok); intros [= _ _ <-]; [exact E2 |]. by rewrite loss_timer_view.
Qed.

Lemma discarded_view sp rd (x : SentPacketHistory.t * gmap positive ACKLostState * Status.t A) :
  view (snd (on_packet_number_space_discarded order sp rd x)) = view (snd x).
Proof.
  destruct x as [[h r] s]. unfold on_packet_number_space_discarded, on_packet_number_space_discard.
  assert (G : forall (l : list (Z * SentPacket)) f (r : gmap positive ACKLostState) (s : Status.t A), (forall a b s, view (f a b s) = view s) ->
    view (snd (foldl (fun '(r, s) '(_, sent) => (mark_as_lost (waiter sent) r, f (sent_bytes sent) (sp_status sent) s)) (r, s) l)) = view s).
  { induction l as [| [k x] l IH]; intros f r1 s1 Hf; [done |]. cbn [foldl]. rewrite IH by done. apply Hf. }
  destruct sp; try done; cbn [sget]; cbv zeta.
  all: match goal with |- context [foldl ?f ?z ?l] => pose proof (G l (fun n st s => set_cong (Congestion.on_packet_number_space_discard n st (cong s)) s)
         r s ltac:(done)) as E; destruct (foldl f z l) as [r1 s1] end.
  all: cbn [snd] in *; rewrite loss_timer_view; refine (eq_trans (update_issuer_view _ _ _ _) E); done.
Qed.

Lemma retry_view rd (x : SentPacketHistory.t * gmap positive ACKLostState * Status.t A) :
  view (snd (on_retry_received order rd x)) = (HandshakeStatus.on_retry_received (hs (snd x)), next_numbers (snd x)).
Proof.
  destruct x as [[h r] s]. unfold on_retry_received, Status.on_retry_received. cbv zeta.
  destruct (foldl _ _ _) as [r1 f1]. destruct (PTOStatus.on_retry_received _ _ _ _) as [p q]. cbn [snd].
  by rewrite !update_issuer_view by done.
Qed.

Lemma sent_view sp sent rd h s e h' s' : on_packet_sent sp sent rd (h, s) = Some (e, (h', s')) -> status_le s s'.
Proof.
  unfold on_packet_sent. cbv zeta. destruct (Status.on_packet_sent _ _ _ _ _ _ _) as [[res s1] |] eqn:Es; [| done].
  intros E. assert (s' = s1) as ->.
  { destruct res as [[a b] |]; [| by simplify_eq]. destruct (sget h sp); [| by simplify_eq].
    destruct (emplace_skipped _ _ _) as [[] q]; [| by simplify_eq/=]. destruct (try_emplace _ _ _) as [[] q']; by simplify_eq/=. }
  clear E. revert Es. unfold Status.on_packet_sent. destruct (sget _ _) as [i |] eqn:Ei; [| intros; by simplify_eq].
  destruct (PacketNumberIssuer.on_packet_sent _ _ _ _) as [res' i'] eqn:Ep.
  assert (N : next_numbers (set_issuers (sset sp i' (pn_issuers s)) s) = next_numbers s).
  { refine (f_equal snd (set_issuer_view sp i i' s Ei _)). unfold PacketNumberIssuer.on_packet_sent in Ep.
    destruct (_ || _); by simplify_eq/=. }
  destruct res' as [rg |]; [| intros [= _ <-]; by split]. cbv zeta.
  destruct (Pacer.maybe_update_timer _ _ _ _ _ _) as [q |]; [| done]. intros [= _ <-].
  assert (G : hs_le (hs s) (HandshakeStatus.on_packet_sent sp (sent_bytes (set_time_sent (rd 0%nat) sent)) (hs s)))
    by (unfold HandshakeStatus.on_packet_sent; cbv zeta; destruct (bool_decide _); [etransitivity; [| by apply add_flag_le]; by split | by split]).
  refine (status_le_view s _ _ _ G). rewrite <- N. destruct (PacketStatus.is_byte_counted _); [| reflexivity].
  cbv zeta. rewrite pacer_view, loss_timer_view. reflexivity.
Qed.
End hs.
End StatusView.
