(* ===== verification/ContextTracks.v ===== *)
(** * ContextTracks: what every operation of a connection preserves

    [steady] joins the preorders of [ContextKeeps]: an error, a close packet
    and the receipt of a CONNECTION_CLOSE frame stay; the ranges of received
    packets stay in order and forget, but never invent, a number; the flags
    of the handshake only grow and the role is fixed; and the packet numbers
    to be used next stay. Every operation that neither sends nor completes a
    packet satisfies it. A packet that is sent uses up a number ([tracks]); a
    packet that is received adds one to the history ([packet_evolves]); a run
    of both keeps [conn_evolves]. *)

From stdpp Require Import base list gmap strings.
From Stdlib Require Import ZArith Lia.
From S2P Require Import Prelude Bytes PacketNumber Types PacketBase LongPacket ShortPacket PacketParse FrameBase FrameStream FrameAck FrameParse QTime Rtt PnManage LossTimer Congestion Pacer Status AckRecord RecvHistory SentHistory StreamId ConnBase StreamImpl StreamConn Datagram Keys PacketProtect CryptoStream KeyUpdate TransportParam ConnId Path Close QuicContext ContextRecv ContextKeeps.

#[local] Open Scope Z_scope.
#[local] Open Scope list_scope.

Import QuicContext ContextRecv.

(** ** Callbacks with a state

    A packet is written by one call of the payload callback, and read by
    calls of the callbacks of the reader: the state of the callbacks changes
    only through them. *)
Section Callbacks.
Context {S : Type} (Q : S -> S -> Prop) `{!PreOrder Q}.

Definition steps (p : writer * S -> bool * (writer * S)) : Prop := forall w s ok w' s', p (w, s) = (ok, (w', s')) -> Q s s'.

Lemma steps_liftW p : steps (liftW p).
Proof. intros w s ok w' s' E. unfold liftW in E. destruct (p w) as [b w1]. by simplify_eq. Qed.
Lemma steps_andM p q : steps p -> steps q -> steps (p ;& q).
Proof.
  intros Hp Hq w s ok w' s' E. unfold andM in E. destruct (p (w, s)) as [b [w1 s1]] eqn:Ep.
  destruct b; [transitivity s1; [by eapply Hp | by eapply Hq] | simplify_eq; by eapply Hp].
Qed.
End Callbacks.

Section Creating.
Context {S : Type} (Q : S -> S -> Prop) `{!PreOrder Q} (sum : PacketSummary) (la tag : Z) (full : bool)
  (rp : packetnum.WireVal -> writer * S -> bool * (writer * S)) (Hrp : forall wire, steps Q (rp wire)).
#[local] Abbreviation Q' := (fun x y : S * Z => Q (fst x) (fst y)).

Lemma steps_with_padding wire : steps Q' (with_padding full rp wire).
Proof.
  intros w [s n] ok w' [s' n'] E. unfold with_padding in E. destruct (rp wire (w, s)) as [b [w1 s1]] eqn:Er.
  apply Hrp in Er. destruct b; cbn in E; by simplify_eq.
Qed.
#[local] Instance Q'_preorder : PreOrder Q'.
Proof. split; [intros x; reflexivity | intros x y z H1 H2; by transitivity (fst y)]. Qed.

Lemma steps_long {P} `{PartialPacket P} (f : LongPacketPlainBase.t P) wire n :
  steps Q' (LongPacketPlainBase.render_in_place f wire (with_padding full rp wire) tag n).
Proof.
  apply steps_andM; [typeclasses eauto | by apply steps_liftW; typeclasses eauto |]. intros w x ok w' x' E.
  unfold LongPacketPlainBase.write_length_pn_payload_tag in E. cbv zeta in E.
  destruct (_ <? _); [by simplify_eq |]. destruct (_ <? _); [by simplify_eq |].
  destruct (with_padding full rp wire _) as [b [w1 x1]] eqn:Ep. apply steps_with_padding in Ep.
  destruct b; cbn [negb] in E; [| by simplify_eq]. unfold liftW in E. by case_match; simplify_eq.
Qed.
Lemma steps_short f v wire key n spin :
  steps Q' (OneRTTPacketPlain.render_in_place f v wire key (with_padding full rp wire) tag n spin).
Proof.
  unfold OneRTTPacketPlain.render_in_place.
  repeat (apply steps_andM; [typeclasses eauto | try (apply steps_liftW; typeclasses eauto) |]); [| apply steps_liftW; typeclasses eauto].
  intros w x ok w' x' E. unfold OneRTTPacketPlain.check_write in E. cbv zeta in E. destruct (_ <? _); [by simplify_eq |].
  destruct (with_padding full rp wire _) as [b [w1 x1]] eqn:Ep. apply steps_with_padding in Ep.
  destruct b; cbn [negb] in E; by simplify_eq.
Qed.

Lemma create_packet_steps w s p w' s' : create_packet sum la tag full rp (w, s) = (p, (w', s')) -> Q s s'.
Proof.
  unfold create_packet. destruct (packetnum.encode _ _) as [wire |]; [| intros; by simplify_eq]. cbv zeta.
  assert (G : forall n (r : bool * (writer * (S * Z))), Q' (s, 0) (snd (snd r)) ->
    created sum tag n wire r = (p, (w', s')) -> Q s s').
  { intros n [b [w1 [s1 k]]] Hq E. unfold created in E. by simplify_eq. }
  destruct (ps_type sum); intros E; try (by simplify_eq); unfold render_long in E; eapply G; try exact E;
    match goal with |- context [snd (snd ?r)] => destruct r as [b [w1 x1]] eqn:Er end;
    first [apply steps_long in Er | apply steps_short in Er]; exact Er.
Qed.
End Creating.

Section Reading.
Context {S : Type} (Q : S -> S -> Prop) `{!PreOrder Q}.

Lemma parse_frames_steps (cb : AnyFrame -> bool -> S -> bool * S) limit ign s r ok s' r' :
  (forall f e s, Q s (snd (cb f e s))) -> parse_frames cb limit ign (s, r) = (ok, (s', r')) -> Q s s'.
Proof.
  intros Hcb. unfold parse_frames. generalize (Datatypes.S (length (rd_remain (snd (s, r))))) 0. intros fuel.
  revert s r. induction fuel as [| fuel IH]; intros s r i; cbn [parse_frames_loop]; (destruct (_ && _); [| intros; by simplify_eq]).
  - intros; by simplify_eq.
  - destruct (_ && _); [apply IH |]. destruct (parse_frame cb (s, r)) as [b [s1 r1]] eqn:Ef. intros E.
    assert (H1 : Q s s1); [| destruct b; cbn in E; [transitivity s1; [done | by eapply IH] | by simplify_eq]].
    clear E. unfold parse_frame in Ef. destruct (base_parse (0, r)) as [b0 [f r0]]. destruct (negb b0); [by simplify_eq |].
    revert Ef. apply select_cases.
    + intros F HF inj _ _. destruct (parse _) as [res [fr r2]].
      pose proof (Hcb (inj fr) (negb res) s) as Hq. destruct res; cbn [negb] in *; destruct (cb _ _ s) as [b1 s2]; intros; by simplify_eq.
    + pose proof (Hcb (Unknown f) true s) as Hq. destruct (cb _ _ s) as [b1 s2]. intros; by simplify_eq.
Qed.

Lemma parse_packet_steps tag (cb : callback S) isr gd r s ok r' s' :
  (forall ty p src e v s, Q s (snd (cb ty p src e v s))) -> parse_packet tag cb isr gd (r, s) = Some (ok, (r', s')) -> Q s s'.
Proof.
  intros Hcb. unfold parse_packet.
  assert (Hi : forall o ty p e v r s ok r' s', invoke_cb cb o ty p e v (r, s) = (ok, (r', s')) -> Q s s').
  { intros o ty p e v r1 s1 b r2 s2. unfold invoke_cb. pose proof (Hcb ty p (rsubstr (rd_read r1) (Z.of_nat o) u64_max) e v s1) as Hq.
    destruct (cb _ _ _ _ _ s1) as [b1 s3]. intros; by simplify_eq. }
  assert (Hf : forall o ty p v r s ok r' s', fail_cb cb o ty p v (r, s) = (ok, (r', s')) -> Q s s').
  { intros o ty p v r1 s1 b r2 s2. unfold fail_cb. destruct (invoke_cb cb o ty p true v (r1, s1)) as [b1 [r3 s3]] eqn:Ei.
    cbn [snd]. intros E. injection E as <- <- <-. exact (Hi _ _ _ _ _ _ _ _ _ _ Ei). }
  assert (Hp : forall P o ty (wrap : P -> AnyPacket) res s ok r' s', parsed cb o ty wrap res s = (ok, (r', s')) -> Q s s').
  { intros P o ty wrap [[] [p r1]] s1 b r2 s2; unfold parsed; [apply Hi | apply Hf]. }
  destruct (rd_empty r); [intros; by simplify_eq |]. cbv zeta. destruct (PacketFlags.is_long _).
  - destruct (read_num 4 _ 0) as [[b v] r1]. destruct (negb b); [intros E; apply (inj Some) in E; exact (Hf _ _ _ _ _ _ _ _ _ E) |].
    destruct (v =? version_negotiation).
    + destruct (VersionNegotiationPacket.parse _); [| done]. intros E; apply (inj Some) in E; exact (Hp _ _ _ _ _ _ _ _ _ E).
    + destruct (PacketFlags.type _ v); intros E; apply (inj Some) in E; first [exact (Hp _ _ _ _ _ _ _ _ _ E) | exact (Hf _ _ _ _ _ _ _ _ _ E)].
  - destruct (StatelessReset.parse _) as [b [x r1]]. destruct (b && isr x); intros E; apply (inj Some) in E; [exact (Hi _ _ _ _ _ _ _ _ _ _ E) | exact (Hp _ _ _ _ _ _ _ _ _ E)].
Qed.

Lemma parse_packets_steps tag (cb : callback S) isr gd data s ok r' s' :
  (forall ty p src e v s, Q s (snd (cb ty p src e v s))) -> parse_packets tag cb isr gd data s = Some (ok, (r', s')) -> Q s s'.
Proof.
  intros Hcb. cut (forall fuel s r, packets_loop tag cb isr gd fuel (r, s) = Some (ok, (r', s')) -> Q s s'); [intros G; apply G |].
  clear s. induction fuel as [| fuel IH]; intros s r; [done |]. cbn [packets_loop].
  destruct (rd_empty r); [intros; by simplify_eq |].
  destruct (parse_packet tag cb (isr s) (gd s) (r, s)) as [[b [r1 s1]] |] eqn:Ep; [| done].
  apply parse_packet_steps in Ep; [| done]. destruct b; intros E; [transitivity s1; [done | by eapply IH] | by simplify_eq].
Qed.
End Reading.

(** ** The operations *)

Section Tracks.
Context {A T D V W : Type} `{Env} `{Algorithm A} `{CryptoLib} `{TLS T} `{TLSConn T} `{DropDetector D} `{ConnHandler V}.
#[local] Abbreviation t := (t A T D V W).
#[local] Abbreviation M := (M A T D V W).

(** [next_numbers] of [ContextKeeps] are the packet numbers to be used next. *)
Definition next_numbers (c : t) : Spaces Z := StatusView.next_numbers (status c).

Record steady (c d : t) : Prop := {
  sd_closer : closer_le (closer c) (closer d);
  sd_hist : hist_le (unacked c) (unacked d);
  sd_hs : hs_le (Status.hs (status c)) (Status.hs (status d));
  sd_numbers : next_numbers d = next_numbers c
}.
#[global] Instance steady_preorder : PreOrder steady.
Proof. split; [intros x; split; reflexivity | intros x y z [a b c e] [a' b' c' e']; split; by etransitivity]. Qed.

Ltac tr := constructor; cbn; try reflexivity; auto.

Lemma readings_steady : keeps steady readings.
Proof. intros c x c' E. injection E as <- <-. tr. Qed.
Hint Resolve readings_steady : keeps.
Lemma now_steady : keeps steady now.
Proof. unfold now. keeps_tac. Qed.
Hint Resolve now_steady : keeps.

Lemma upd_status_steady f : (forall s, hs_le (Status.hs s) (Status.hs (f s))) ->
  (forall s, StatusView.next_numbers (f s) = StatusView.next_numbers s) -> keeps steady (upd_status f).
Proof. intros Hf Hn. apply keeps_modify. intros c. tr. apply Hn. Qed.
Lemma upd_closer_steady f : (forall x, closer_le x (f x)) -> keeps steady (upd_closer f).
Proof. intros Hf. apply keeps_modify. intros c. tr. Qed.
Lemma upd_paths_steady f : keeps steady (upd_paths f).
Proof. apply keeps_modify. intros c. tr. Qed.
Hint Resolve upd_paths_steady : keeps.

(** Changing a member other than the three. *)
Lemma set_other_steady f : (forall c, closer (f c) = closer c /\ unacked (f c) = unacked c /\ StatusView.view (status (f c)) = StatusView.view (status c)) ->
  keeps steady (modify f).
Proof.
  intros Hf. apply keeps_modify. intros c. destruct (Hf c) as (E1 & E2 & E3).
  constructor; [rewrite E1 | rewrite E2 | rewrite (f_equal fst E3 : Status.hs (status (f c)) = _) | exact (f_equal snd E3)]; reflexivity.
Qed.
Ltac other := apply set_other_steady; intros ?; repeat (match goal with |- context [let '(_, _) := ?p in _] => destruct p end); by cbn.
Hint Extern 3 (keeps steady (modify _)) => (other) : keeps.

(** A new [Status] that keeps flags and numbers. *)
Lemma set_status_steady (c x : t) s : StatusView.status_le (status c) s -> closer x = closer c -> unacked x = unacked c ->
  steady c (set_status s x).
Proof. intros [Hh Hn] E1 E2. constructor; cbn; [rewrite E1; reflexivity | rewrite E2; reflexivity | exact Hh | exact Hn]. Qed.

Lemma set_error_steady e : keeps steady (set_quic_runtime_error e).
Proof. apply upd_closer_steady. intros x. by apply on_error_le. Qed.
Hint Resolve set_error_steady : keeps.
Lemma or_error_steady err k : keeps steady k -> keeps steady (or_error err k).
Proof. intros Hk. unfold or_error. keeps_tac. Qed.
Hint Resolve or_error_steady : keeps.
Lemma recv_close_steady f : keeps steady (recv_close f).
Proof.
  apply keeps_modify. intros c. pose proof (recv_le f (closer c)) as Hr. destruct (Closer.recv f (closer c)) as [[] x]; tr.
Qed.
Lemma request_close_steady e : keeps steady (request_close e).
Proof. apply keeps_modify. intros c. destruct (Closer.has_error _); [reflexivity |]. tr. by apply on_error_le. Qed.
Hint Resolve recv_close_steady request_close_steady : keeps.

Lemma check_server_ids_steady p k : keeps steady k -> keeps steady (check_server_ids p k).
Proof.
  intros Hk. unfold check_server_ids. keeps_tac. intros c y c' E. destruct (IDManager.on_preferred_address_received _ _ _ _) as [[[e w] m] |]; [| done].
  transitivity (set_world w (set_connIDs m c)); [tr | by eapply Hk].
Qed.
Lemma on_read_steady : keeps steady (upd_status (Status.on_transport_parameter_read (A := A))).
Proof. apply upd_status_steady; [intros s; by apply add_flag_le | done]. Qed.
Hint Resolve check_server_ids_steady on_read_steady : keeps.
Lemma apply_limits_steady p : keeps steady (modify (apply_limits p)).
Proof. other. Qed.
Hint Resolve apply_limits_steady : keeps.
Lemma apply_transport_param_steady : keeps steady apply_transport_param.
Proof. unfold apply_transport_param. keeps_tac. apply or_error_steady. keeps_tac. apply check_server_ids_steady. keeps_tac. apply or_error_steady. keeps_tac. Qed.
Hint Resolve apply_transport_param_steady : keeps.

Lemma set_tls_steady x : keeps steady (modify (set_tls x)).
Proof. other. Qed.
Hint Resolve set_tls_steady : keeps.
Lemma set_transport_parameter_steady : keeps steady set_transport_parameter.
Proof. unfold set_transport_parameter. keeps_tac. Qed.
Hint Resolve set_transport_parameter_steady : keeps.

Lemma discard_sent_steady sp : keeps steady (discard_sent sp).
Proof.
  unfold discard_sent. apply keeps_bind; [typeclasses eauto | keeps_tac | intros rd]. apply keeps_modify. intros c.
  pose proof (StatusView.discarded_view sent_order sp rd (ackh c, recs c, status c)) as E.
  destruct (SentPacketHistory.on_packet_number_space_discarded _ _ _ _) as [[h r] s]. cbn [snd] in E.
  by apply set_status_steady; [apply (StatusView.status_le_view _ _ _ E) | |].
Qed.
Lemma discard_recv_steady sp : keeps steady (discard_recv sp).
Proof. apply keeps_modify. intros c. tr. apply discarded_le. Qed.
Lemma discard_crypto_steady sp : keeps steady (discard_crypto sp).
Proof. unfold discard_crypto. keeps_tac. Qed.
Hint Resolve discard_sent_steady discard_recv_steady discard_crypto_steady : keeps.
Lemma confirmed_steady : keeps steady (upd_status (Status.on_handshake_confirmed (A := A))).
Proof. apply upd_status_steady; [intros s; by apply add_flag_le | done]. Qed.
Hint Resolve confirmed_steady : keeps.
Lemma on_handshake_confirmed_steady : keeps steady on_handshake_confirmed.
Proof. unfold on_handshake_confirmed. keeps_tac. Qed.
Lemma on_handshake_packet_steady : keeps steady on_handshake_packet.
Proof. unfold on_handshake_packet. keeps_tac. Qed.
Hint Resolve on_handshake_confirmed_steady on_handshake_packet_steady : keeps.

(** *** Writing *)

Lemma member_send_steady {X} (f : fwriter -> observer -> t -> IOResult * fwriter * observer * X) put x :
  (forall m c, closer (put m c) = closer c /\ unacked (put m c) = unacked c /\ status (put m c) = status c) ->
  keeps steady (member_send f put x).
Proof.
  intros Hp c y c' E. unfold member_send in E. destruct (f _ _ c) as [[[res fw] [rec rs]] m]. injection E as <- <-.
  destruct (Hp m (set_recs rs c)) as (E1 & E2 & E3). constructor; unfold next_numbers; rewrite ?E1, ?E2, ?E3; reflexivity.
Qed.
Ltac member := apply member_send_steady; by intros.
Lemma send_ack_steady x : keeps steady (send_ack x).
Proof.
  unfold send_ack. do 2 (apply keeps_bind; [typeclasses eauto | keeps_tac | intros ?]).
  intros c y c' E. unfold bind, get, of_option, modify, ret in E.
  destruct (RecvPacketHistory.send _ _ _ _ _ _) as [[[[res fw] u] la] |] eqn:Es; [| done]. injection E as <- <-.
  apply history_send_le in Es. tr.
Qed.
Lemma send_crypto_steady x : keeps steady (send_crypto x).
Proof. member. Qed.
Lemma send_path_response_steady x : keeps steady (send_path_response x).
Proof. member. Qed.
Lemma send_connids_steady b x : keeps steady (send_connids b x).
Proof. member. Qed.
Lemma send_datagrams_steady x : keeps steady (send_datagrams x).
Proof. member. Qed.
Lemma send_streams_steady x : keeps steady (send_streams x).
Proof. member. Qed.
Hint Resolve send_ack_steady send_crypto_steady send_path_response_steady send_connids_steady send_datagrams_steady send_streams_steady : keeps.
Lemma send_if_steady b send k x : (forall x, keeps steady (send x)) -> (forall x, keeps steady (k x)) -> keeps steady (send_if b send k x).
Proof. intros Hs Hk. unfold send_if, wrap_io. keeps_tac; apply Hk. Qed.
Hint Resolve send_if_steady : keeps.
Lemma write_frames_steady x : keeps steady (write_frames x).
Proof. unfold write_frames. cbv zeta. keeps_tac. apply send_if_steady; keeps_tac. eauto 12 with keeps typeclass_instances. Qed.
Hint Resolve write_frames_steady : keeps.

Lemma send_path_challenge_steady x : keeps steady (send_path_challenge x).
Proof.
  unfold send_path_challenge. keeps_tac. intros c y c' E.
  destruct (PathVerifier.send_path_challenge _ _ _ _ _ _ _) as [[[[[[r id] fw] [rec rs]] w] v] |]; [| done]. injection E as <- <-. tr.
Qed.
Hint Resolve send_path_challenge_steady : keeps.
Lemma write_path_probe_frames_steady b x : keeps steady (write_path_probe_frames b x).
Proof. unfold write_path_probe_frames, wrap_io. keeps_tac. Qed.
Hint Resolve write_path_probe_frames_steady : keeps.

(** The state of a callback: a run goes from one connection to one it is
    related to, or to nothing. *)
Definition run_le (R : t -> t -> Prop) {X} (x y : option (X * t)) : Prop :=
  match y with None => True | Some (_, d) => match x with Some (_, c) => R c d | None => False end end.
#[global] Instance run_le_preorder R {X} : PreOrder R -> PreOrder (run_le R (X := X)).
Proof.
  intros HR. split.
  - intros [[j c] |]; cbn; [reflexivity | done].
  - intros [[j c] |] [[k d] |] [[l e] |]; cbn; try done. intros; by etransitivity.
Qed.
Lemma create_steady la full f w j : (forall wire w j, keeps steady (f wire w j)) -> keeps steady (create la full f w j).
Proof.
  intros Hf c y c' E. unfold create in E.
  destruct (create_packet _ _ _ _ _ _) as [p [w1 [[j1 c1] |]]] eqn:Ep; [| done]. injection E as <- <-.
  apply (create_packet_steps (run_le steady)) in Ep; [done |]. intros wire w0 s ok w2 s2 Es. unfold render_payload in Es.
  destruct s as [[j0 c0] |]; [| by injection Es as <- <- <-].
  destruct (f wire w0 j0 c0) as [[[[ok1 w3] j3] c3] |] eqn:Ef; injection Es as <- <- <-; [| done]. by eapply Hf.
Qed.
Hint Resolve create_steady : keeps.

Lemma close_payload_steady wire w j : keeps steady (close_payload wire w j).
Proof. unfold close_payload. keeps_tac. Qed.
Lemma mtu_probe_payload_steady wire w j : keeps steady (mtu_probe_payload wire w j).
Proof. unfold mtu_probe_payload. keeps_tac. Qed.
Lemma path_probe_payload_steady m wire w j : keeps steady (path_probe_payload m wire w j).
Proof. unfold path_probe_payload. keeps_tac. Qed.
Lemma normal_payload_steady b wire w j : keeps steady (normal_payload b wire w j).
Proof. unfold normal_payload. cbv zeta. keeps_tac. Qed.
Hint Resolve close_payload_steady mtu_probe_payload_steady path_probe_payload_steady normal_payload_steady : keeps.

Lemma save_sent_packet_steady sum st n rec : keeps steady (save_sent_packet sum st n rec).
Proof.
  unfold save_sent_packet. apply keeps_bind; [typeclasses eauto | |].
  { intros c l c' E. destruct (ACKRecorder.record _) as [l1 [r1 rs]]. injection E as <- <-. tr. }
  intros l. apply keeps_bind; [typeclasses eauto | keeps_tac | intros rd]. intros c y c' E. unfold bind, get, of_option, modify, ret in E.
  destruct (SentPacketHistory.on_packet_sent _ _ _ _) as [[e [h s]] |] eqn:Es; [| done]. apply StatusView.sent_view in Es.
  transitivity (set_status s (set_ackh h c)); [by apply set_status_steady |].
  destruct e as [e |]; injection E as <- <-; tr. by apply on_error_le.
Qed.
Lemma render_mode_steady flags la w j m : render_mode flags la w j = Some m -> keeps steady m.
Proof.
  unfold render_mode. cbv zeta. repeat (destruct (_ =? _)); cbn [orb]; intros E; try discriminate E; injection E as <-; keeps_tac.
Qed.
Lemma leave_steady ok w copy rec : keeps steady (leave ok w copy rec).
Proof. unfold leave. keeps_tac. Qed.
Hint Resolve save_sent_packet_steady leave_steady : keeps.
(** *** Whole packets: a number is used up *)

Record tracks (c d : t) : Prop := {
  tk_closer : closer_le (closer c) (closer d);
  tk_hist : hist_le (unacked c) (unacked d);
  tk_hs : hs_le (Status.hs (status c)) (Status.hs (status d))
}.
#[global] Instance tracks_preorder : PreOrder tracks.
Proof. split; [intros x; split; reflexivity | intros x y z [a b c] [a' b' c']; split; by etransitivity]. Qed.
Lemma steady_tracks {X} (m : M X) : keeps steady m -> keeps tracks m.
Proof. apply keeps_weaken. by intros c d []. Qed.
Hint Resolve steady_tracks : keeps.

Lemma consume_tracks sp : keeps tracks (upd_status (Status.consume_packet_number (A := A) sp)).
Proof.
  apply keeps_modify. intros c. constructor; try reflexivity. cbn. unfold Status.consume_packet_number, Status.update_issuer. by destruct (sget _ _).
Qed.
Hint Resolve consume_tracks : keeps.
Lemma finish_packet_tracks b suite w copy p j : keeps tracks (finish_packet b suite w copy p j).
Proof. unfold finish_packet. keeps_tac. Qed.
Hint Resolve finish_packet_tracks : keeps.
Lemma write_packet_tracks w sum flags rec : keeps tracks (write_packet w sum flags rec).
Proof.
  unfold write_packet. cbv zeta. keeps_tac.
  eapply steady_tracks, render_mode_steady; eassumption.
Qed.
Hint Resolve write_packet_tracks : keeps.

Lemma pickup_dstID_tracks : keeps tracks pickup_dstID.
Proof. unfold pickup_dstID. keeps_tac. Qed.
Lemma initial_token_tracks : keeps tracks initial_token.
Proof. unfold initial_token. keeps_tac. Qed.
Hint Resolve pickup_dstID_tracks initial_token_tracks : keeps.
Lemma with_dstID_tracks w rec k : (forall id, keeps tracks (k id)) -> keeps tracks (with_dstID w rec k).
Proof. intros Hk. unfold with_dstID. keeps_tac. Qed.
Hint Resolve with_dstID_tracks : keeps.
Lemma write_initial_tracks w m : keeps tracks (write_initial w m).
Proof. unfold write_initial. keeps_tac. apply with_dstID_tracks. keeps_tac. Qed.
Lemma write_handshake_tracks w m : keeps tracks (write_handshake w m).
Proof. unfold write_handshake. keeps_tac. Qed.
Lemma write_onertt_tracks w m rec : keeps tracks (write_onertt w m rec).
Proof. unfold write_onertt. keeps_tac. Qed.
Lemma write_zerortt_tracks w m : keeps tracks (write_zerortt w m).
Proof. unfold write_zerortt. keeps_tac. Qed.
Lemma can_write_tracks ty sp : keeps tracks (can_write ty sp).
Proof. unfold can_write. keeps_tac. Qed.
Lemma confirm_before_write_tracks a b : keeps tracks (confirm_before_write a b).
Proof. unfold confirm_before_write. keeps_tac. Qed.
Hint Resolve write_initial_tracks write_handshake_tracks write_onertt_tracks write_zerortt_tracks can_write_tracks confirm_before_write_tracks : keeps.
Lemma write_if_tracks b write k w : (forall w, keeps tracks (write w)) -> (forall w, keeps tracks (k w)) -> keeps tracks (write_if b write k w).
Proof. intros Hw Hk. unfold write_if. keeps_tac; apply Hk. Qed.
Lemma create_encrypted_packet_tracks b buf : keeps tracks (create_encrypted_packet b buf).
Proof. unfold create_encrypted_packet. cbv zeta. keeps_tac. all: repeat (apply write_if_tracks; intros; keeps_tac). Qed.
Lemma create_path_probe_packet_tracks buf : keeps tracks (create_path_probe_packet buf).
Proof. unfold create_path_probe_packet. keeps_tac. Qed.
Lemma create_mtu_probe_packet_tracks buf : keeps tracks (create_mtu_probe_packet buf).
Proof. unfold create_mtu_probe_packet. keeps_tac. Qed.
Lemma conn_timeout_tracks : keeps tracks conn_timeout.
Proof. unfold conn_timeout. keeps_tac. Qed.
Lemma maybe_loss_timeout_steady : keeps steady maybe_loss_timeout.
Proof.
  unfold maybe_loss_timeout. apply keeps_bind; [typeclasses eauto | keeps_tac | intros rd]. intros c y c' E. unfold bind at 1, get in E.
  destruct (SentPacketHistory.maybe_loss_detection_timeout _ _ _ _) as [e [w s]] eqn:Es. apply StatusView.loss_timeout_view in Es.
  unfold bind, modify in E. eapply (or_error_steady e (ret true)) in E; [| keeps_tac]. etransitivity; [| exact E].
  by apply set_status_steady; [apply (StatusView.status_le_view _ _ _ Es) | |].
Qed.
Hint Resolve create_encrypted_packet_tracks create_path_probe_packet_tracks create_mtu_probe_packet_tracks conn_timeout_tracks maybe_loss_timeout_steady : keeps.

Lemma create_close_tracks buf : keeps tracks (create_connection_close_packet buf).
Proof.
  intros c y d E. unfold create_connection_close_packet in E. run_get E.
  destruct (negb (Closer.has_error _)); [injection E as <- <-; reflexivity |]. run E as n c1 E1. apply (steady_tracks _ now_steady) in E1. run_get E.
  destruct (Status.close_timeout n (status c1)); [by injection E as <- <- |].
  destruct (sent_packet_null (closer c)) eqn:En; cbn [negb] in E.
  2: { destruct (negb _); [by injection E as <- <- |]. apply (keeps_bind tracks) in E; [by etransitivity | | keeps_tac].
       apply steady_tracks, upd_closer_steady. intros x. unfold Closer.on_close_retransmitted. by destruct (negb _). }
  destruct (Closer.close_by_peer (closer c)) eqn:Ep; [by injection E as <- <- |].
  run E as [packet ok] c2 E2. apply create_encrypted_packet_tracks in E2.
  assert (T2 : tracks c c2) by by etransitivity. destruct ok; cbn [negb] in E; [| by injection E as <- <-].
  unfold bind, upd_closer, upd_status, modify, ret in E. injection E as <- <-. destruct T2 as [[a b e f g] h i]. unfold sent_packet_null in En.
  tr. split; cbn; auto.
  - intros Hs Hd. rewrite Hs in En. cbn in En. apply andb_true_iff in En as [_ En]. by apply bool_decide_eq_true in En.
  - intros Hr. unfold Closer.close_by_peer in Ep. congruence.
Qed.
Hint Resolve create_close_tracks : keeps.
Lemma create_udp_payload_tracks buf : keeps tracks (create_udp_payload buf).
Proof. unfold create_udp_payload, on_path. cbv zeta. keeps_tac. Qed.

(** *** Receiving *)

Lemma recv_ack_steady ty f : keeps steady (recv_ack ty f).
Proof.
  unfold recv_ack. apply keeps_bind; [typeclasses eauto | keeps_tac | intros rd]. intros c y d E. run_get E.
  destruct (SentPacketHistory.on_ack_received _ _ _ _ _ _ _ _) as [e [w s]] eqn:Es. apply StatusView.ack_received_view in Es.
  run_modify E.
  etransitivity; [| eapply (or_error_steady e); [| exact E]]; [by apply set_status_steady |].
  keeps_tac. tr. apply delete_under_le.
Qed.
Lemma complete_steady : keeps steady (upd_status (Status.on_handshake_complete (A := A))).
Proof.
  apply upd_status_steady; intros s; unfold Status.on_handshake_complete; cbv zeta; [| by destruct (HandshakeStatus.is_server _)].
  destruct (HandshakeStatus.is_server _); [etransitivity; [| by apply add_flag_le] |]; by apply add_flag_le.
Qed.
Hint Resolve recv_ack_steady complete_steady : keeps.
Lemma recv_crypto_steady ty a : keeps steady (recv_crypto ty a).
Proof. unfold recv_crypto. keeps_tac. apply or_error_steady. keeps_tac. Qed.
Lemma recv_streams_steady a : keeps steady (recv_streams a).
Proof. unfold recv_streams. keeps_tac. Qed.
Lemma recv_datagram_steady n f : keeps steady (recv_datagram n f).
Proof. unfold recv_datagram. keeps_tac. Qed.
Lemma recv_connid_steady sum a : keeps steady (recv_connid sum a).
Proof. unfold recv_connid. keeps_tac. Qed.
Lemma recv_path_steady a : keeps steady (recv_path a).
Proof. unfold recv_path. keeps_tac. Qed.
Lemma recv_new_token_steady f : keeps steady (recv_new_token f).
Proof. unfold recv_new_token. keeps_tac. Qed.
Hint Resolve recv_crypto_steady recv_streams_steady recv_datagram_steady recv_connid_steady recv_path_steady recv_new_token_steady : keeps.
Lemma handle_frame_steady sum a : keeps steady (handle_frame sum a).
Proof. unfold handle_frame. cbv zeta. destruct a; keeps_tac. Qed.
Hint Resolve handle_frame_steady : keeps.
Lemma issue_seq0_steady : keeps steady issue_seq0_connid.
Proof. unfold issue_seq0_connid. keeps_tac. Qed.
Hint Resolve issue_seq0_steady : keeps.
Lemma answer_initial_steady : keeps steady answer_initial.
Proof. unfold answer_initial. keeps_tac. Qed.
Hint Resolve answer_initial_steady : keeps.
Lemma handle_on_initial_steady sum : keeps steady (handle_on_initial sum).
Proof. unfold handle_on_initial. keeps_tac. apply or_error_steady. keeps_tac. Qed.
Hint Resolve handle_on_initial_steady : keeps.

Lemma frame_callback_steady sum f e s : run_le steady s (snd (frame_callback sum f e s)).
Proof.
  destruct s as [[ps c] |]; [| done]. unfold frame_callback. cbv zeta.
  assert (G : forall ps' (m : M bool), keeps steady m -> run_le steady (Some (ps, c))
    (snd (match m c with None => (false, None) | Some (ok, c) => (ok, Some (ps', c)) end))).
  { intros ps' m Hm. destruct (m c) as [[ok d] |] eqn:E; [| done]. cbn. by eapply Hm. }
  destruct e; [| destruct (negb _)]; apply G; keeps_tac.
Qed.
Lemma handle_frames_steady sum payload : keeps steady (handle_frames sum payload).
Proof.
  intros c y d E. unfold handle_frames in E. destruct (parse_frames _ _ _ _) as [ok [[[ps d'] |] r]] eqn:Ep; [| done].
  injection E as <- <-. apply (parse_frames_steps (run_le steady)) in Ep; [done | apply frame_callback_steady].
Qed.

(** ** Whole packets: the close state and the flags of the handshake *)

Record packet_evolves (c d : t) : Prop := {
  pe_closer : closer_le (closer c) (closer d);
  pe_hs : hs_le (Status.hs (status c)) (Status.hs (status d));
  pe_numbers : next_numbers d = next_numbers c
}.
#[global] Instance packet_evolves_preorder : PreOrder packet_evolves.
Proof. split; [intros x; split; reflexivity | intros x y z [a b c] [a' b' c']; split; by etransitivity]. Qed.
Lemma steady_packet_evolves {X} (m : M X) : keeps steady m -> keeps packet_evolves m.
Proof. apply keeps_weaken. by intros c d []. Qed.
Hint Resolve steady_packet_evolves handle_frames_steady : keeps.

Lemma drop_if_steady b f k : keeps steady k -> keeps steady (drop_if b f k).
Proof. intros Hk. unfold drop_if. keeps_tac. Qed.
Hint Resolve drop_if_steady : keeps.
Lemma decrypted_steady sp n : keeps steady (upd_status (Status.on_packet_decrypted (A := A) sp n)).
Proof.
  apply upd_status_steady; [intros s | done]. cbn. unfold HandshakeStatus.on_packet_decrypted. cbv zeta.
  destruct (bool_decide _); [etransitivity; [| by apply add_flag_le] |]; by apply add_flag_le.
Qed.
Lemma processed_steady sp pn : keeps steady (upd_status (Status.on_packet_processed (A := A) sp pn)).
Proof. apply upd_status_steady; intros s; unfold Status.on_packet_processed; by destruct (sget _ _). Qed.
Hint Resolve decrypted_steady processed_steady : keeps.

Lemma handle_single_packet_evolves sum payload path : keeps packet_evolves (handle_single_packet sum payload path).
Proof.
  unfold handle_single_packet. cbv zeta. repeat first [progress keeps_step | apply steady_packet_evolves; progress keeps_tac].
  constructor; cbn; reflexivity.
Qed.
Lemma on_retry_steady srcID : keeps steady (accept_retry srcID).
Proof.
  unfold accept_retry. cbv zeta. apply keeps_bind; [typeclasses eauto | keeps_tac | intros rd].
  apply keeps_bind; [typeclasses eauto | | intros _; keeps_tac]. apply keeps_modify. intros c.
  pose proof (StatusView.retry_view sent_order rd (ackh c, recs c, status c)) as E.
  destruct (SentPacketHistory.on_retry_received _ _ _) as [[h r] s]. cbn [snd] in E.
  by apply set_status_steady; [apply (StatusView.status_le_view _ _ _ E), add_flag_le | |].
Qed.
Hint Resolve handle_single_packet_evolves on_retry_steady : keeps.
Lemma handle_retry_packet_steady retry : keeps steady (handle_retry_packet retry).
Proof. unfold handle_retry_packet. keeps_tac. apply or_error_steady. keeps_tac. Qed.
Hint Resolve handle_retry_packet_steady : keeps.
Ltac ev := repeat first [progress keeps_step | apply steady_packet_evolves; progress keeps_tac].
Lemma crypto_cb_evolves path pn p : keeps packet_evolves (crypto_cb path pn p).
Proof. unfold crypto_cb. cbv zeta. ev. Qed.
Hint Resolve crypto_cb_evolves : keeps.
Lemma decrypt_cb_evolves path ty p parsed : keeps packet_evolves (decrypt_cb path ty p parsed).
Proof. unfold decrypt_cb. ev. Qed.
Lemma run_with_evolves m s : keeps packet_evolves m -> run_le packet_evolves s (snd (run_with m s)).
Proof.
  intros Hm. destruct s as [[prev c] |]; [| done]. unfold run_with. destruct (m c) as [[ok d] |] eqn:E; [| done]. cbn. by eapply Hm.
Qed.
Lemma datagram_received_steady n rd : keeps steady (upd_status (Status.on_datagram_received (A := A) n rd)).
Proof.
  assert (G : forall s : Status.t A, StatusView.view (Status.on_datagram_received n rd s) =
    (HandshakeStatus.on_datagram_received n (Status.hs s), StatusView.next_numbers s)).
  { intros s. unfold Status.on_datagram_received. cbv zeta. destruct (_ && _); [by rewrite StatusView.loss_timer_view | done]. }
  apply upd_status_steady; intros s; [rewrite (f_equal fst (G s) : Status.hs _ = _); by split | exact (f_equal snd (G s))].
Qed.
Lemma packet_callback_evolves n path ty p src e v s : run_le packet_evolves s (snd (packet_callback n path ty p src e v s)).
Proof.
  unfold packet_callback, with_crypto_parse. destruct (_ || _); [reflexivity |]. destruct (cipher_head_len p) as [hl |].
  - destruct (check_connID_cb n p src s) as [ok s1] eqn:Ec.
    assert (G : run_le packet_evolves s s1).
    { unfold check_connID_cb in Ec. destruct s as [[prev c] |]; [| by simplify_eq].
      destruct (summarize _ _) as [sum |]; [| by simplify_eq]. cbv zeta in Ec. destruct (negb _); [by simplify_eq |].
      destruct (bool_decide _); [| by simplify_eq].
      destruct (bind _ _ c) as [[u d] |] eqn:Eb; [| by simplify_eq]. simplify_eq. cbn. eapply (steady_packet_evolves _); [| exact Eb].
      keeps_tac. apply datagram_received_steady. }
    destruct ok; cbn [negb snd]; [| exact G]. etransitivity; [exact G |]. apply run_with_evolves, decrypt_cb_evolves.
  - unfold plain_cb. apply run_with_evolves. ev.
Qed.
Lemma parse_udp_payload_evolves data path : keeps packet_evolves (parse_udp_payload data path).
Proof.
  unfold parse_udp_payload. apply keeps_bind; [typeclasses eauto | keeps_tac | intros x]. apply keeps_if.
  - apply steady_packet_evolves. apply keeps_bind; [typeclasses eauto | | keeps_tac]. apply upd_closer_steady. intros y. by split.
  - intros c y d E. destruct (parse_packets _ _ _ _ _ _) as [[ok [r [[prev d'] |]]] |] eqn:Ep; [| done | done]. injection E as <- <-.
    apply (parse_packets_steps (run_le packet_evolves)) in Ep; [done | intros; apply packet_callback_evolves].
Qed.

(** ** The start of a connection *)

Lemma start_steady : keeps steady (upd_status (Status.on_handshake_start (A := A))).
Proof. apply upd_status_steady; [intros s; by apply add_flag_le | done]. Qed.
Lemma retry_sent_steady : keeps steady (upd_status (Status.set_retry_sent (A := A))).
Proof. apply upd_status_steady; [intros s; by apply add_flag_le | done]. Qed.
Hint Resolve start_steady retry_sent_steady : keeps.
Lemma start_tls_steady : keeps steady start_tls.
Proof. unfold start_tls. keeps_tac. Qed.
Hint Resolve start_tls_steady : keeps.
Lemma start_client_tls_steady h : keeps steady (start_client_tls h).
Proof.
  unfold start_client_tls. keeps_tac; apply or_error_steady; keeps_tac; apply or_error_steady; unfold apply_0RTT_transport_parameter, reset_peer_transport_parameter; keeps_tac.
Qed.
Lemma choose_initial_id_steady : keeps steady choose_initial_id.
Proof. unfold choose_initial_id. cbv zeta. keeps_tac. Qed.
Hint Resolve start_client_tls_steady choose_initial_id_steady : keeps.
Lemma connect_start_steady h : keeps steady (connect_start h).
Proof. unfold connect_start. keeps_tac. Qed.
Lemma accept_start_steady orig retry : keeps steady (accept_start orig retry).
Proof. unfold accept_start. keeps_tac. Qed.

(** ** Runs: both directions *)

Record conn_evolves (c d : t) : Prop := {
  ev_closer : closer_le (closer c) (closer d);
  ev_hs : hs_le (Status.hs (status c)) (Status.hs (status d))
}.
#[global] Instance conn_evolves_preorder : PreOrder conn_evolves.
Proof. split; [intros x; split; reflexivity | intros x y z [a b] [a' b']; split; by etransitivity]. Qed.
Lemma tracks_conn_evolves {X} (m : M X) : keeps tracks m -> keeps conn_evolves m.
Proof. apply keeps_weaken. by intros c d []. Qed.
Lemma packet_conn_evolves {X} (m : M X) : keeps packet_evolves m -> keeps conn_evolves m.
Proof. apply keeps_weaken. by intros c d []. Qed.

End Tracks.
