(* ===== verification/ContextDemo.v ===== *)
(** * ContextDemo: two connections that talk to each other

    A TLS stack of four messages, a clock that advances, a source of ids:
    with them the model runs. [talk] exchanges the datagrams of a client and
    a server; the theorems of [ContextProps] are applied to states of such
    runs. *)

From stdpp Require Import base list gmap strings.
From Stdlib Require Import ZArith Lia.
From S2P Require Import Prelude Bytes PacketNumber Types QTime Rtt Congestion Status AckRecord SentHistory StreamBase StreamImpl StreamConn Datagram Keys ProtectProps CryptoStream KeyUpdate TransportParam ConnId Path Close QuicContext ContextRecv.

#[local] Open Scope string_scope.
#[local] Open Scope Z_scope.
#[local] Open Scope list_scope.

Module Demo.

(** The parameters of either end, and how far the handshake is. *)
Record TLSState := mk_tls { tls_local : list Z; tls_peer : option (list Z); tls_step : Z }.

Definition block : Error := UserError 1.
Definition client_secret : list Z := replicate 32 7.
Definition server_secret : list Z := replicate 32 9.

(** Messages: the hello of the client with its parameters, the hello of the
    server, its parameters, the end of the client. *)
#[global] Instance tls : TLS TLSState := {|
  provide_quic_data := fun level d t =>
    (None, [], match d with
               | 1 :: p => mk_tls (tls_local t) (Some p) 1
               | 3 :: p => mk_tls (tls_local t) (Some p) 3
               | m :: _ => mk_tls (tls_local t) (tls_peer t) m
               | [] => t
               end);
  progress_quic := fun t => (None, [], t);
  tls_accept := fun t =>
    let at_ n := mk_tls (tls_local t) (tls_peer t) n in
    if tls_step t =? 1 then
      (Some block,
       [ev_handshake_data lvl_initial [2];
        ev_secret lvl_handshake client_secret server_secret 1;
        ev_handshake_data lvl_handshake (3 :: tls_local t);
        ev_secret lvl_application client_secret server_secret 1], at_ 10)
    else if tls_step t =? 4 then (None, [], at_ 11)
    else (Some block, [], t);
  tls_connect := fun t =>
    let at_ n := mk_tls (tls_local t) (tls_peer t) n in
    if tls_step t =? 0 then (Some block, [ev_handshake_data lvl_initial (1 :: tls_local t)], at_ 10)
    else if tls_step t =? 2 then (Some block, [ev_secret lvl_handshake server_secret client_secret 1], at_ 10)
    else if tls_step t =? 3 then
      (None, [ev_secret lvl_application server_secret client_secret 1; ev_handshake_data lvl_handshake [4]], at_ 11)
    else (Some block, [], t);
  isTLSBlock := fun e => match e with UserError 1 => true | _ => false end
|}.

#[global] Instance tls_conn : TLSConn TLSState := {|
  get_peer_quic_transport_params := tls_peer;
  get_early_data_accepted := fun _ => false;
  set_quic_transport_params := fun p t => (None, mk_tls p (tls_peer t) (tls_step t));
  set_hostname := fun _ t => (None, t)
|}.

#[global] Instance env : Env := {|
  sent_order := map_to_list;
  stream_order := fun X m => map fst (map_to_list m);
  sort_fragments := by_offset;
  error_text := fun _ => [];
  null_if_empty := false;
  probe_fuel := 10%nat;
  clock_at := fun k i => 10000 + 5 * Z.of_nat k
|}.

#[global] Instance lib : CryptoLib := demo_lib false "TLS_AES_128_GCM_SHA256".

(** What arrives on a stream the peer opened is appended to a log. *)
Definition log_saver : FragmentSaver (list Z) :=
  mk_saver (Some (fun _ _ frag _ _ log => ((false, None), log ++ StreamId.fragment frag))) None.
#[global] Instance handler : ConnHandler (list Z) :=
  ConnHandlerSingleArg.handler (ConnHandlerSingleArg.mk None None None (Some (fun id c => Conn.attach id log_saver c)) None
    (AutoIncreaser.mk false false false)).

(** The random numbers count up; the state of the application is the count. *)
Definition random : Random.t Z := Some (fun buf _ n => (true, map (fun _ => n mod 256) buf, n + 1)).

Definition ctx : Type := QuicContext.t NewReno.t TLSState DatagramDropNull (list Z) Z.
Definition op : Type -> Type := QuicContext.M NewReno.t TLSState DatagramDropNull (list Z) Z.

Definition params : DefinedTransportParams.t :=
  DefinedTransportParams.mk [] 30000 (replicate 16 0) 1400 100000 10000 10000 10000 10 10 3 25 false
    PreferredAddress.new 2 [] [] 1000 false.

Definition config (srv : bool) : ContextRecv.Config NewReno.t TLSState DatagramDropNull (list Z) Z :=
  ContextRecv.mk_context_config version_1 srv None
    (mk_config 10 2 10000 10000 333 3 (mk_ratio 9 8) 2 false (mk_ratio 5 4) (time.mk_clock 1) 3 0 3 0 3 0)
    (mk_mtu_config 3 1200 1400 1200) 256 original_path params
    (mk_connid_config change_none 1000 10000 (Some ConnIDExporter.default_exporter) random 4 4)
    (mk_dgram_config 10 10) (ZeroRTTTokenManager.mk_storage None None) NewReno.new drop_null [].

(** A connection before [init]; [seed] starts its random numbers. *)
Definition blank (seed : Z) : ctx :=
  QuicContext.mk 0 (Status.reset default_config NewReno.new false 1200 0) TransportParameters.new
    (CryptoSuite.reset (mk_tls [] None 0) false) SentPacketHistory.reset RecvHistory.RecvPacketHistory.reset
    IDManager.new [] (ZeroRTTTokenManager.mk (ZeroRTTTokenManager.mk_storage None None) [] None) (MTU.reset default_mtu_config)
    (PathVerifier.reset original_path 256) (Closer.reset []) not_closed (Conn.new StreamId.client [])
    (DatagramManager.reset 0 (mk_dgram_config 10 10) drop_null) ∅ seed 0.

Definition start (srv : bool) : ctx :=
  match ContextRecv.init [] (config srv) (inl (mk_tls [] None 0)) (blank (if srv then 100 else 1)) with
  | Some (_, c) => c
  | None => blank 0
  end.
Definition exec {X} (d : X) (m : op X) (c : ctx) : X * ctx := default (d, c) (m c).
Definition buffer : maybe_resizable_buffer := mk_buffer [] false.

Definition client0 : ctx := snd (exec false (ContextRecv.connect_start None) (start false)).
Definition first_id : list Z := IDManager.get_original_dst_id (QuicContext.connIDs client0).
Definition server0 : ctx := snd (exec false (ContextRecv.accept_start first_id None) (start true)).

(** One datagram from [a] to [b]. *)
Definition send_one (a b : ctx) : list Z * ctx * ctx :=
  let '((p, _, _), a) := exec ([], None, false) (QuicContext.create_udp_payload buffer) a in
  if bool_decide (p = []) then (p, a, b) else (p, a, snd (exec false (ContextRecv.parse_udp_payload p original_path) b)).
Fixpoint talk (n : nat) (c s : ctx) : ctx * ctx :=
  match n with
  | O => (c, s)
  | S n => let '(_, c, s) := send_one c s in let '(_, s, c) := send_one s c in talk n c s
  end.

(** The application writes on a new stream. *)
Definition write_stream (d : list Z) (c : ctx) : ctx :=
  match ConnOps.open_bidi (QuicContext.streams c) with
  | (Some id, cs) =>
      match Conn.local_bidi cs !! id with
      | Some b =>
          let '(_, _, snd_) := SendUniStream.write d true false (BidiStream.sender b) in
          QuicContext.set_streams (Conn.set_local_bidi (<[id := BidiStream.mk snd_ (BidiStream.receiver b)]> (Conn.local_bidi cs)) cs) c
      | None => c
      end
  | (None, _) => c
  end.
Definition received_log (c : ctx) : list Z := Conn.user (QuicContext.streams c).

(** A run that is defined is what [exec] gives. *)
Definition defined {X} (m : op X) (c : ctx) : bool := if m c then true else false.
Lemma exec_some {X} (x : X) (m : op X) c : defined m c = true -> m c = Some (fst (exec x m c), snd (exec x m c)).
Proof. unfold defined, exec. by destruct (m c) as [[y d] |]. Qed.
End Demo.
