(* ===== verification/ContextNumbers.v ===== *)
(** * ContextNumbers: the packet numbers of a connection

    The nonce of a packet is made of its number, so a number must not be used
    for two packets under the same keys. Here: what the renderers of a packet
    do to its summary ([ident]: its type and number) and to the writer
    ([kept]: the bytes it holds stay), what [write_packet] appends and does to
    the numbers to be used next, and that nothing else touches them. *)

From stdpp Require Import base list gmap strings.
From Stdlib Require Import ZArith Lia.
From S2P Require Import Prelude Bytes Varint PacketNumber Types PacketBase LongPacket ShortPacket PacketParse FrameBase FrameStream FrameAck FrameParse QTime Rtt PnManage LossTimer Congestion Pacer Status AckRecord RecvHistory SentHistory StreamId ConnBase StreamImpl StreamConn Datagram Keys PacketProtect ProtectProps CryptoStream KeyUpdate TransportParam ConnId Path Close QuicContext ContextRecv ContextKeeps ContextTracks ContextDemo.

#[local] Open Scope Z_scope.
#[local] Open Scope list_scope.

Import QuicContext ContextRecv.

(** ** Rendering keeps the type and the number of a packet *)

Definition ident (s : PacketSummary) : PacketType * Z := (ps_type s, ps_packet_number s).

Lemma created_number {S} sum la tag full (rp : packetnum.WireVal -> writer * S -> bool * (writer * S)) x p y :
  create_packet sum la tag full rp x = (Some p, y) -> CryptoPacket.packet_number p = ps_packet_number sum.
Proof.
  destruct x as [w s]. unfold create_packet. destruct (packetnum.encode _ _) as [wire |]; [| done]. cbv zeta.
  assert (G : forall n r, created sum tag n wire r = (Some p, y) -> CryptoPacket.packet_number p = ps_packet_number sum).
  { intros n [[] [w1 [s1 k]]] E; [| discriminate E]. unfold created in E. by injection E as <- _. }
  destruct (ps_type sum); intros E; try discriminate E; unfold render_long in E; exact (G _ _ E).
Qed.

(** ** Rendering keeps what the writer holds

    [kept i]: the bytes in front of [i] stay, whatever is written behind
    them. The payload callback is given a buffer of its own, behind the
    header, so nothing is asked of it. *)
Definition kept (i : nat) (w w' : writer) : Prop :=
  (i <= wr_index w <= length (wr_buf w))%nat ->
  (i <= wr_index w' <= length (wr_buf w'))%nat /\ take i (wr_buf w') = take i (wr_buf w).
#[local] Instance kept_preorder i : PreOrder (kept i).
Proof.
  split; [by intros w Hw |]. intros x y z H1 H2 Hx. destruct (H1 Hx) as [Hy E1]. destruct (H2 Hy) as [Hz E2]. by rewrite E2.
Qed.
Definition keeper {S} (i : nat) (p : writer * S -> bool * (writer * S)) : Prop :=
  forall w s ok w' s', p (w, s) = (ok, (w', s')) -> kept i w w'.
Definition keeps_at (i : nat) (p : writer -> bool * writer) : Prop := forall w ok w', p w = (ok, w') -> kept i w w'.
Definition w_keeper (p : writer -> bool * writer) : Prop := forall i, keeps_at i p.

Lemma length_poke w bs : length (wr_buf (wr_poke w bs)) = length (wr_buf w).
Proof. unfold wr_poke, copy_bytes. cbn. rewrite !length_app, !length_take, !length_drop. lia. Qed.
Lemma kept_poke i w bs : kept i w (wr_poke w bs).
Proof.
  intros Hi. rewrite length_poke. split; [done |]. cbn. rewrite take_app_le by (rewrite length_take; lia).
  rewrite take_take. f_equal. lia.
Qed.
(** The index moves on inside the buffer. *)
Lemma kept_move i w bs n : ((wr_index w <= length (wr_buf w))%nat -> (wr_index w <= n <= length (wr_buf w))%nat) ->
  kept i w (mk_writer (wr_buf (wr_poke w bs)) n).
Proof.
  intros H2 Hi. destruct (kept_poke i w bs Hi) as [_ Ht]. split; [| exact Ht]. cbn [wr_index wr_buf]. rewrite length_poke.
  specialize (H2 ltac:(lia)). lia.
Qed.
Lemma kept_offset i w n : kept i w (wr_offset w n).
Proof.
  unfold wr_offset, wr_offset_internal, size. destruct (Z.ltb_spec (Z.of_nat (length (wr_buf w)) - Z.of_nat (wr_index w)) n);
    intros Hi; cbn; (split; [lia | done]).
Qed.
Lemma length_rsubstr l pos n : (length (rsubstr l (Z.of_nat pos) n) <= length l - pos)%nat.
Proof. unfold rsubstr. destruct (_ <? _); cbn; [lia |]. rewrite length_take, length_drop. lia. Qed.
Lemma fill_keeps x n : w_keeper (wr_fill x n).
Proof.
  intros i w ok w' E. unfold wr_fill in E. cbv zeta in E. injection E as _ <-.
  pose proof (length_rsubstr (wr_buf w) (wr_index w) n) as Hr. refine (kept_move i w _ _ _); lia.
Qed.
Lemma write_keeps l : w_keeper (wr_write l).
Proof.
  intros i w ok w' E. unfold wr_write in E. cbv zeta in E. pose proof (length_rsubstr (wr_buf w) (wr_index w) u64_max) as Hr.
  destruct (Z.ltb_spec (copy_result (wr_remain w) l) 0) as [Hc | Hc]; apply (f_equal snd) in E; cbn [snd] in E; subst w';
    refine (kept_move i w l _ _); intros Hw; rewrite ?length_poke; cbn [wr_poke wr_index]; [lia |].
  unfold copy_result, wr_remain, size in Hc. repeat case_match; lia.
Qed.
Lemma num_keeps n v : w_keeper (write_num n v).
Proof.
  intros i w ok w' E. unfold write_num in E. destruct (negb _); injection E as _ <-; [done |].
  etransitivity; [apply kept_poke | apply kept_offset].
Qed.
Lemma varint_keeps v : w_keeper (varint.write v).
Proof.
  intros i w ok w' E. unfold varint.write in E. repeat case_match; injection E as _ <-; try done;
    (etransitivity; [apply kept_poke | apply kept_offset]).
Qed.
Lemma ret_keeps b : w_keeper (retM b).
Proof. intros i w ok w' E. by injection E as _ <-. Qed.
Lemma and_keeps_at i p q : keeps_at i p -> keeps_at i q -> keeps_at i (p ;& q).
Proof.
  intros Hp Hq w ok w' E. unfold andM in E. destruct (p w) as [[] w1] eqn:Ep; [| by injection E as _ <-; eapply Hp].
  etransitivity; [by eapply Hp | by eapply Hq].
Qed.
Lemma and_keeps p q : w_keeper p -> w_keeper q -> w_keeper (p ;& q).
Proof. intros Hp Hq i. by apply and_keeps_at. Qed.
Lemma wire_pn_keeps pn : w_keeper (packetnum.write pn).
Proof. intros i w ok w' E. unfold packetnum.write in E. destruct (negb _); [by injection E as _ <- |]. by eapply write_keeps. Qed.
#[local] Hint Resolve fill_keeps write_keeps num_keeps varint_keeps ret_keeps and_keeps wire_pn_keeps : kept.
Lemma pnlen_keeps f ty n : w_keeper (LongPacketBase.render_with_pnlen f ty n).
Proof.
  unfold LongPacketBase.render_with_pnlen, LongPacketBase.render_with_version. destruct (negb _); [auto with kept |].
  cbv zeta. destruct (_ =? 0); [auto with kept |]. destruct (_ || _); auto 10 with kept.
Qed.
#[local] Hint Resolve pnlen_keeps : kept.

Lemma lift_keeper {S} i p : w_keeper p -> keeper (S := S) i (liftW p).
Proof. intros Hp w s ok w' s' E. unfold liftW in E. destruct (p w) as [b w1] eqn:Ep. injection E as _ <- _. by eapply Hp. Qed.
Lemma and_keeper {S} i (p q : writer * S -> bool * (writer * S)) : keeper i p -> keeper i q -> keeper i (p ;& q).
Proof.
  intros Hp Hq w s ok w' s' E. unfold andM in E. destruct (p (w, s)) as [[] [w1 s1]] eqn:Ep; [| by injection E as _ <- _; eapply Hp].
  etransitivity; [by eapply Hp | by eapply Hq].
Qed.
Lemma kept_store i w k bs : kept i w (mk_writer (store_at (wr_buf w) (wr_index w + k) bs) (wr_index w)).
Proof.
  intros Hi. unfold store_at. cbn. rewrite !length_app, length_take, length_drop. split; [lia |].
  rewrite take_app_le by (rewrite length_take; lia). rewrite take_take. f_equal. lia.
Qed.
Lemma length_shift_up to from n i l : length (shift_up l to from i n) = length l.
Proof. revert i l. induction n as [| n IH]; intros i l; [done |]. simpl. by rewrite IH, length_insert. Qed.
Lemma length_shift_down to from n l : length (shift_down l to from n) = length l.
Proof. revert l. induction n as [| n IH]; intros l; [done |]. simpl. by rewrite IH, length_insert. Qed.
Lemma kept_shift i to from n w ok w' : shift_at i to from n w = (ok, w') -> kept i w w'.
Proof.
  unfold shift_at. destruct (shift _ to from n) as [b rem] eqn:Es. intros E Hi. injection E as _ <-. cbn.
  assert (length rem = (length (wr_buf w) - i)%nat) as Hl.
  { rewrite <- length_drop. unfold shift in Es. repeat case_match; injection Es as _ <-; by rewrite ?length_shift_up, ?length_shift_down. }
  rewrite length_app, length_take, Hl. split; [lia |]. rewrite take_app_le by (rewrite length_take; lia).
  rewrite take_take. f_equal. lia.
Qed.

Lemma long_keeper {S P} `{PartialPacket P} tag (f : LongPacketPlainBase.t P) wire (cb : writer * S -> bool * (writer * S)) i :
  (forall p n, w_keeper (pp_render p n)) -> keeper i (LongPacketPlainBase.render_in_place f wire cb tag 0).
Proof.
  intros Hp. apply and_keeper; [by apply lift_keeper |]. intros w s ok w' s' E.
  unfold LongPacketPlainBase.write_length_pn_payload_tag in E. cbv zeta in E.
  destruct (_ <? _); [by injection E as _ <- _ |]. destruct (_ <? _); [by injection E as _ <- _ |].
  destruct (cb _) as [b [w1 s1]]. intros Hi.
  match type of E with (if _ then (_, (?x, _)) else _) = _ => assert (K1 : kept (wr_index w) w x) by apply kept_store end.
  assert (K : kept (wr_index w) w w').
  { destruct b; cbn [negb] in E; [| by injection E as _ <- _]. etransitivity; [exact K1 |]. clear K1.
    unfold liftW in E. case_match; injection E as _ <- _. match goal with H : ?q _ = (_, ?x) |- kept ?j _ ?x =>
      assert (G : keeps_at j q); [| exact (G _ _ _ H)] end.
    repeat (apply and_keeps_at; [first [apply varint_keeps | apply wire_pn_keeps | apply fill_keeps | intros ? ? ?; apply kept_shift] |]).
    intros x y x' Ex. etransitivity; [apply kept_offset | by eapply fill_keeps]. }
  destruct (K ltac:(lia)) as [K2 K3]. split; [lia |]. apply (f_equal (take i)) in K3. by rewrite !take_take, !Nat.min_l in K3 by lia.
Qed.
Lemma short_keeper {S} tag f v wire key (cb : writer * S -> bool * (writer * S)) spin i :
  keeper i (OneRTTPacketPlain.render_in_place f v wire key cb tag 0 spin).
Proof.
  unfold OneRTTPacketPlain.render_in_place. apply and_keeper.
  { apply lift_keeper. unfold OneRTTPacketPartial.render. cbv zeta. destruct (_ =? 0); auto with kept. }
  do 2 (apply and_keeper; [apply lift_keeper; auto with kept |]). apply and_keeper; [| apply lift_keeper; auto with kept].
  intros w s ok w' s' E. unfold OneRTTPacketPlain.check_write in E. cbv zeta in E. destruct (_ <? _); [by injection E as _ <- _ |].
  destruct (cb _) as [b [w1 s1]]. pose proof (kept_store i w 0 (wr_buf w1)) as K. rewrite Nat.add_0_r in K.
  destruct b; cbn [negb] in E; apply (f_equal (fst ∘ snd)) in E; cbn in E; subst w'; [| exact K].
  etransitivity; [exact K | apply kept_offset].
Qed.

Section Creating.
Context {S : Type} (sum : PacketSummary) (la tag : Z) (full : bool) (rp : packetnum.WireVal -> writer * S -> bool * (writer * S)).

(** A packet is made of the bytes behind the index; those in front of it stay. *)
Lemma create_packet_kept i w s p w' s' :
  create_packet sum la tag full rp (w, s) = (p, (w', s')) ->
  kept i w w' /\ forall q, p = Some q -> CryptoPacket.src q = rsubstr (wr_written w') (Z.of_nat (wr_index w)) u64_max.
Proof.
  unfold create_packet. destruct (packetnum.encode _ _) as [wire |]; [| by intros [= <- <- <-]]. cbv zeta.
  assert (G : forall r, keeper i r -> created sum tag (wr_index w) wire (r (w, (s, 0))) = (p, (w', s')) ->
    kept i w w' /\ forall q, p = Some q -> CryptoPacket.src q = rsubstr (wr_written w') (Z.of_nat (wr_index w)) u64_max).
  { intros r Hr E. destruct (r _) as [b [w1 [s1 n]]] eqn:Er. apply Hr in Er. unfold created in E. injection E as <- <- <-.
    split; [done |]. intros q Hq. destruct b; [| done]. by injection Hq as <-. }
  unfold render_long. destruct (ps_type sum); try (by intros [= <- <- <-]); intros E; (eapply G in E; [exact E |]).
  1-3: apply long_keeper; intros x n; cbn [pp_render PartialPacket_Initial PartialPacket_HandshakeZeroRTT];
    unfold InitialPacketPartial.render, HandshakeZeroRTTParital.render; auto with kept.
  apply short_keeper.
Qed.
End Creating.

Section Numbers.
Context {A T D V W : Type} `{Env} `{Algorithm A} `{L : CryptoLib} `{TLS T} `{TLSConn T} `{DropDetector D} `{ConnHandler V}.
#[local] Abbreviation t := (t A T D V W).
#[local] Abbreviation M := (M A T D V W).

(** The senders of frames. *)
Definition out_keeps {Y} (f : Out -> M (Y * Out)) : Prop :=
  forall x c y x' d, f x c = Some ((y, x'), d) -> ident (o_sum x') = ident (o_sum x).

Lemma member_send_keeps {X} (f : fwriter -> observer -> t -> IOResult * fwriter * observer * X) put : out_keeps (member_send f put).
Proof. intros x c y x' d E. unfold member_send in E. destruct (f _ _ _) as [[[res fw] [rec rs]] m]. by injection E as _ <- _. Qed.
Lemma send_crypto_keeps : out_keeps send_crypto.
Proof. intros x c y x' d. apply member_send_keeps. Qed.
Lemma send_path_response_keeps : out_keeps send_path_response.
Proof. intros x c y x' d. apply member_send_keeps. Qed.
Lemma send_connids_keeps b : out_keeps (send_connids b).
Proof. intros x c y x' d. apply member_send_keeps. Qed.
Lemma send_datagrams_keeps : out_keeps send_datagrams.
Proof. intros x c y x' d. apply member_send_keeps. Qed.
Lemma send_streams_keeps : out_keeps send_streams.
Proof. intros x c y x' d. apply member_send_keeps. Qed.
Lemma send_ack_keeps : out_keeps send_ack.
Proof.
  intros x c y x' d E. unfold send_ack in E. run E as n1 c1 E1. run E as n2 c2 E2. run_get E. run E as [[[res fw] u] la] c3 E3.
  run_modify E. injection E as _ <- _. by destruct la.
Qed.
Lemma wrap_io_keeps res : out_keeps (wrap_io res).
Proof. intros x c y x' d E. unfold wrap_io in E. run E as u c1 E1. by injection E as _ <- _. Qed.
Lemma send_if_keeps b send k : out_keeps send -> out_keeps k -> out_keeps (send_if b send k).
Proof.
  intros Hs Hk x c y x' d E. unfold send_if in E. destruct b; [| by eapply Hk].
  run E as [res x1] c1 E1. apply Hs in E1. rewrite <- E1. destruct res; first [by eapply Hk | by eapply wrap_io_keeps].
Qed.
Lemma write_frames_keeps : out_keeps write_frames.
Proof.
  intros x c y x' d E. unfold write_frames in E. cbv zeta in E. run_get E. run E as n c1 E1. run_get E.
  match type of E with send_if _ _ _ ?z _ = _ => transitivity (ident (o_sum z)); [| by repeat case_match] end.
  revert E. apply send_if_keeps; [apply send_ack_keeps |]. intros z ? ? z' ? E. run_get E.
  destruct (Status.is_on_congestion_limited _); [by injection E as _ <- _ |]. revert E.
  repeat (apply send_if_keeps; [auto using send_crypto_keeps, send_path_response_keeps, send_connids_keeps, send_datagrams_keeps, send_streams_keeps |]). intros ? ? ? ? ? E'. by injection E' as _ <- _.
Qed.
Lemma send_path_challenge_keeps x c res id x' (d : t) : send_path_challenge x c = Some ((res, id, x'), d) -> ident (o_sum x') = ident (o_sum x).
Proof.
  intros E. unfold send_path_challenge in E. run E as n1 c1 E1. run E as n2 c2 E2.
  destruct (PathVerifier.send_path_challenge _ _ _ _ _ _ _) as [[[[[[r i] fw] [rec rs]] w] v] |]; [| done]. by injection E as _ _ <- _.
Qed.
Lemma write_path_probe_frames_keeps b : out_keeps (write_path_probe_frames b).
Proof.
  intros x c y x' d E. unfold write_path_probe_frames in E. destruct (negb _); [by injection E as _ <- _ |].
  run E as [[res id] x1] c1 E1. apply send_path_challenge_keeps in E1. rewrite <- E1. clear E1.
  destruct res; try (by injection E as _ <- _).
  run E as u c2 E2. destruct b; [by apply write_frames_keeps in E |]. revert E.
  repeat (apply send_if_keeps; [auto using send_crypto_keeps, send_path_response_keeps, send_connids_keeps, send_datagrams_keeps, send_streams_keeps |]). intros ? ? ? ? ? E'. by injection E' as _ <- _.
Qed.

(** The payload callbacks, and a packet made with one. *)
Definition job_keeps (f : payload_fn (A := A) (T := T) (D := D) (V := V) (W := W)) : Prop :=
  forall wire w j c ok w' j' d, f wire w j c = Some ((ok, w', j'), d) -> ident (j_sum j') = ident (j_sum j).

Lemma close_payload_keeps : job_keeps close_payload.
Proof.
  intros wire w j c ok w' j' d E. unfold close_payload in E. run_get E. destruct (Closer.send _ _ _) as [b fw].
  destruct (negb b); by injection E as _ _ <- _.
Qed.
Lemma mtu_probe_payload_keeps : job_keeps mtu_probe_payload.
Proof. intros wire w j c ok w' j' d E. by injection E as _ _ <- _. Qed.
Lemma path_probe_payload_keeps m : job_keeps (path_probe_payload m).
Proof.
  intros wire w j c ok w' j' d E. unfold path_probe_payload in E. run E as [b x] c1 E1. apply write_path_probe_frames_keeps in E1.
  cbv zeta in E. destruct (negb b); [| destruct (_ =? 0)]; injection E as _ _ <- _; exact E1.
Qed.
Lemma normal_payload_keeps b : job_keeps (normal_payload b).
Proof.
  intros wire w j c ok w' j' d E. unfold normal_payload in E. cbv zeta in E. run E as [r x] c1 E1. apply write_frames_keeps in E1.
  destruct (negb r); [| destruct (_ <=? _)%nat]; injection E as _ _ <- _; exact E1.
Qed.

Definition job_le (x y : option (Job * t)) : Prop :=
  match y with None => True | Some (j', _) => match x with Some (j, _) => ident (j_sum j') = ident (j_sum j) | None => False end end.
#[local] Instance job_preorder : PreOrder job_le.
Proof.
  split; [by intros [[j c] |] |]. intros [[j c] |] [[k d] |] [[l e] |]; try done. unfold job_le. congruence.
Qed.
Lemma create_ident la full f w j c p w' j' d :
  job_keeps f -> create la full f w j c = Some ((p, w', j'), d) ->
  ident (j_sum j') = ident (j_sum j) /\ forall q, p = Some q -> CryptoPacket.packet_number q = ps_packet_number (j_sum j).
Proof.
  intros Hf E. unfold create in E. destruct (create_packet _ _ _ _ _ _) as [p1 [w1 [[j1 c1] |]]] eqn:Ep; [| done].
  injection E as -> -> -> ->. split; [| intros q ->; by eapply created_number].
  apply (create_packet_steps job_le) in Ep; [exact Ep |]. intros wire w0 s ok w2 s2 Es. unfold render_payload in Es.
  destruct s as [[j0 c0] |]; [| by injection Es as <- <- <-].
  destruct (f wire w0 j0 c0) as [[[[ok1 w3] j3] c3] |] eqn:Ef; injection Es as <- <- <-; [| done]. by eapply Hf.
Qed.
Lemma render_mode_ident flags la w j (m : M (option CryptoPacket.t * writer * Job)) c p w' j' d :
  render_mode flags la w j = Some m -> m c = Some ((p, w', j'), d) ->
  ident (j_sum j') = ident (j_sum j) /\ forall q, p = Some q -> CryptoPacket.packet_number q = ps_packet_number (j_sum j).
Proof.
  unfold render_mode. cbv zeta. intros Em E. destruct (_ =? WriteFlag.conn_close).
  { injection Em as <-. eapply create_ident, E. apply close_payload_keeps. }
  destruct (_ =? WriteFlag.mtu_probe). { injection Em as <-. eapply create_ident, E. apply mtu_probe_payload_keeps. }
  destruct (_ || _).
  - injection Em as <-. run E as [[p1 w1] j1] c1 E1. apply create_ident in E1 as [E1 _]; [| apply path_probe_payload_keeps].
    apply create_ident in E as [E2 E3]; [| apply normal_payload_keeps]. unfold ident in E1, E2. split; [unfold ident; congruence |].
    intros q Hq. rewrite (E3 q Hq). congruence.
  - destruct (_ =? WriteFlag.normal); [| done]. injection Em as <-. eapply create_ident, E. apply normal_payload_keeps.
Qed.

(** Where the packet of a write mode is: behind what the writer held, and
    in the modes for paths behind the packet of the probe too. *)
Definition path_mode (flags : Z) : bool :=
  let m := Z.land flags WriteFlag.write_mode_mask in (m =? WriteFlag.path_probe) || (m =? WriteFlag.path_migrate).
Definition rendered_at (o : nat) (w' : writer) (p : option CryptoPacket.t) : Prop :=
  forall q, p = Some q -> CryptoPacket.src q = rsubstr (wr_written w') (Z.of_nat o) u64_max.

Lemma create_kept i la full f w j c p w' j' (d : t) :
  create la full f w j c = Some ((p, w', j'), d) -> kept i w w' /\ rendered_at (wr_index w) w' p.
Proof.
  intros E. unfold create in E. destruct (create_packet _ _ _ _ _ _) as [p1 [w1 [[j1 c1] |]]] eqn:Ep; [| done].
  injection E as -> -> -> ->. by apply create_packet_kept with (1 := Ep).
Qed.
Lemma render_mode_kept flags la w j (m : M (option CryptoPacket.t * writer * Job)) c p w' j' d :
  (wr_index w <= length (wr_buf w))%nat -> render_mode flags la w j = Some m -> m c = Some ((p, w', j'), d) ->
  kept (wr_index w) w w' /\ exists o, (wr_index w <= o <= wr_index w')%nat /\ rendered_at o w' p /\
    (path_mode flags = false -> o = wr_index w).
Proof.
  intros Hw Em E. unfold render_mode in Em. cbv zeta in Em.
  assert (G : forall full f, create la full f w j c = Some ((p, w', j'), d) ->
    kept (wr_index w) w w' /\ exists o, (wr_index w <= o <= wr_index w')%nat /\ rendered_at o w' p /\ (path_mode flags = false -> o = wr_index w)).
  { intros full f E1. apply (create_kept (wr_index w)) in E1 as [K1 R1]. destruct (K1 ltac:(lia)) as [K2 _].
    split; [exact K1 |]. exists (wr_index w). split_and!; [lia | lia | exact R1 | done]. }
  destruct (_ =? WriteFlag.conn_close); [injection Em as <-; by eapply G |].
  destruct (_ =? WriteFlag.mtu_probe); [injection Em as <-; by eapply G |].
  destruct (_ || _) eqn:Ep in Em; [| destruct (_ =? WriteFlag.normal); [injection Em as <-; by eapply G | done]].
  injection Em as <-. run E as [[p1 w1] j1] c1 E1. apply (create_kept (wr_index w)) in E1 as [K1 _].
  destruct (K1 ltac:(lia)) as [Hi1 _]. pose proof E as E2. apply (create_kept (wr_index w)) in E as [K _].
  apply (create_kept (wr_index w1)) in E2 as [K2 R2]. destruct (K2 ltac:(lia)) as [Hi2 _].
  split; [by etransitivity |]. exists (wr_index w1). split_and!; [lia | lia | exact R2 |]. unfold path_mode. cbv zeta. by rewrite Ep.
Qed.

(** ** Using up a number *)

Definition bump (sp : PacketNumberSpace) (n : Spaces Z) : Spaces Z :=
  match sget n sp with Some k => sset sp (s64 (k + 1)) n | None => n end.

Lemma consume_bumps sp (c : t) : next_numbers (set_status (Status.consume_packet_number sp (status c)) c) = bump sp (next_numbers c).
Proof. by destruct sp. Qed.

(** What [w] holds is kept, and nothing is appended to it. *)
Definition as_before (w w' : writer) (copy : writer) : Prop := w' = mk_writer (wr_buf copy) (wr_index w).

Lemma leave_numbers ok w copy rec (c d : t) ok' w' rec' :
  leave ok w copy rec c = Some ((ok', w', rec'), d) -> next_numbers d = next_numbers c /\ as_before w w' copy.
Proof. intros E. unfold leave in E. run_modify E. by injection E as _ <- _ <-. Qed.

Lemma finish_packet_numbers b suite w copy plain j (c d : t) ok w' rec' :
  finish_packet b suite w copy plain j c = Some ((ok, w', rec'), d) ->
  (next_numbers d = next_numbers c /\ as_before w w' copy) \/
  (exists p p', plain = Some p /\ encrypt_packet (EncDecSuite.keyiv suite) (EncDecSuite.hp suite) (EncDecSuite.cipher suite) p = (None, p') /\
     ok = true /\ w' = put_packet p' copy /\ next_numbers d = bump (from_packet_type (ps_type (j_sum j))) (next_numbers c)).
Proof.
  intros E. unfold finish_packet in E. run_get E. destruct (negb b && _); [left; by apply leave_numbers in E |].
  destruct (j_no_payload j); [left; by apply leave_numbers in E |]. destruct plain as [p |]; [| left; by apply leave_numbers in E].
  destruct (encrypt_packet _ _ _ p) as [[e |] p'] eqn:Ee.
  { left. run E as u c1 E1. apply leave_numbers in E as [-> ->]. split; [| done].
    destruct b; [by injection E1 as _ <- |]. by apply set_error_steady, sd_numbers in E1. }
  run E as saved c1 E1. assert (N1 : next_numbers c1 = next_numbers c).
  { destruct b; [by injection E1 as _ <- |]. by apply save_sent_packet_steady, sd_numbers in E1. }
  destruct (negb saved); [left; by injection E as _ <- _ <- |].
  right. exists p, p'. unfold bind, upd_status, modify, ret in E. injection E as <- <- <- <-. rewrite <- N1.
  split_and!; try done. apply consume_bumps.
Qed.

(** The writer afterwards. *)
Lemma before_written w w' copy :
  (wr_index w <= length (wr_buf w))%nat -> kept (wr_index w) w copy -> as_before w w' copy -> wr_written w' = wr_written w.
Proof.
  intros Hw K ->. destruct (K ltac:(lia)) as [K1 K2]. unfold wr_written. cbn [wr_buf wr_index].
  by rewrite !rsubstr_take, K2 by lia.
Qed.
Lemma put_written `{!CryptoLibLaws L} w copy o p p' keyiv hp cipher :
  (wr_index w <= length (wr_buf w))%nat -> kept (wr_index w) w copy -> (wr_index w <= o <= wr_index copy)%nat ->
  rendered_at o copy (Some p) -> encrypt_packet keyiv hp cipher p = (None, p') -> size (wr_buf (put_packet p' copy)) <= u64_max ->
  exists probe, wr_written (put_packet p' copy) = wr_written w ++ probe ++ CryptoPacket.src p' /\ length probe = (o - wr_index w)%nat.
Proof.
  intros Hw K Ho R Ee Hs. destruct (K ltac:(lia)) as [K1 K2]. apply encrypt_length in Ee. specialize (R p eq_refl).
  assert (Hb : length (wr_buf (put_packet p' copy)) = length (wr_buf copy)).
  { unfold put_packet, store_at. cbn [wr_buf]. rewrite !length_app, length_take, length_drop, Ee, R.
    pose proof (length_rsubstr (wr_written copy) o u64_max) as Hr. unfold wr_written in *. rewrite rsubstr_take in * by lia.
    rewrite length_take in Hr. lia. }
  assert (Hl : length (CryptoPacket.src p') = (wr_index copy - o)%nat).
  { rewrite Ee, R. unfold wr_written. rewrite rsubstr_take by lia. unfold size in Hs.
    rewrite rsubstr_drop; [| rewrite length_take; lia | unfold size; rewrite length_take; lia]. rewrite length_drop, length_take. lia. }
  exists (drop (wr_index w) (take o (wr_buf copy))). rewrite length_drop, length_take. split; [| lia].
  unfold wr_written at 1. rewrite rsubstr_take by (rewrite Hb; cbn; lia). unfold wr_written. rewrite rsubstr_take by lia.
  unfold put_packet, store_at. cbn [wr_buf wr_index]. rewrite Hl, app_assoc, take_app_le by (rewrite length_app, length_take; lia).
  rewrite take_ge by (rewrite length_app, length_take; lia). rewrite app_assoc. f_equal.
  replace (wr_index copy - (wr_index copy - o))%nat with o by lia. rewrite <- K2.
  rewrite <- (take_drop (wr_index w) (take o (wr_buf copy))) at 1. f_equal. rewrite take_take. f_equal. lia.
Qed.

(** C2. A packet number is used for one packet only. [write_packet] either
    leaves the numbers of all spaces and what the writer holds; or it appends
    one packet, encrypted with the current keys under the next number of its
    space, to what the writer holds, and that number is gone: the next one is
    its successor (in 64 bits), the other spaces keep theirs. In the two
    modes for paths the bytes of the probe, which carry the same number and
    are not encrypted, stay in front of the packet (the branch falls
    through). The writer is one within its buffer, of less than 2^64 bytes. *)
Theorem packet_number_used_once `{!CryptoLibLaws L} w sum flags rec (c d : t) ok w' rec' :
  (wr_index w <= length (wr_buf w))%nat -> size (wr_buf w') <= u64_max ->
  write_packet w sum flags rec c = Some ((ok, w', rec'), d) ->
  let sp := from_packet_type (ps_type sum) in
  (next_numbers d = next_numbers c /\ wr_written w' = wr_written w) \/
  (ok = true /\ next_numbers d = bump sp (next_numbers c) /\
   exists n suite p p' probe,
     sget (next_numbers c) sp = Some n /\ CryptoPacket.packet_number p = u64 n /\
     fst (CryptoSuite.enc_suite (version c) (ps_type sum) key_current (crypto c)) = inl suite /\
     encrypt_packet (EncDecSuite.keyiv suite) (EncDecSuite.hp suite) (EncDecSuite.cipher suite) p = (None, p') /\
     wr_written w' = wr_written w ++ probe ++ CryptoPacket.src p' /\ (path_mode flags = false -> probe = [])).
Proof.
  intros Hw Hs E sp. unfold write_packet in E. cbv zeta in E.
  assert (F : forall (b : bool) e ok' r1 (x y : t), bind (if b then ret tt else set_quic_runtime_error e) (fun _ => ret (ok', w, r1)) x =
    Some ((ok, w', rec'), y) -> next_numbers y = next_numbers x /\ wr_written w' = wr_written w).
  { clear. intros b e ok' r1 x y E. run E as u x1 E1. injection E as _ <- _ <-. split; [| done].
    destruct b; [by injection E1 as _ <- |]. by apply set_error_steady, sd_numbers in E1. }
  destruct (bool_decide (from_packet_type (ps_type sum) = no_space)); [left; by eapply F |].
  run_get E. run E as [pn la] c1 E1. unfold of_option in E1.
  destruct (Status.next_and_largest_acked_packet_number _ _) as [pq |] eqn:En; [| done]. injection E1 as -> <-.
  run_get E. set (sum1 := set_ps_packet_number pn (set_ps_version (version c) sum)) in E. run_get E.
  destruct (CryptoSuite.enc_suite (version c) (ps_type sum1) key_current (crypto c)) as [res cr] eqn:Er. run_modify E.
  destruct res as [suite | e]; [| left; by eapply (F _ e) in E].
  set (sum2 := if bool_decide (ps_type sum1 = OneRTT) then _ else sum1) in E.
  assert (I2 : ident sum2 = (ps_type sum, pn)) by (unfold sum2; by destruct (bool_decide _)). clearbody sum2.
  destruct (render_mode flags la w (mk_job sum2 rec false 0)) as [m |] eqn:Em.
  2: { left. run E as u c2 E2. apply leave_numbers in E as [-> E]. split; [| by apply (before_written w w' w)].
       destruct (_ =? WriteFlag.conn_close); [by injection E2 as _ <- |]. by apply set_error_steady, sd_numbers in E2. }
  run E as [[plain copy] j] c2 E2. pose proof (sd_numbers _ _ (render_mode_steady _ _ _ _ _ Em _ _ _ E2)) as N2.
  destruct (render_mode_ident _ _ _ _ _ _ _ _ _ _ Em E2) as [Ij Ip]. cbn [j_sum] in Ij, Ip.
  destruct (render_mode_kept _ _ _ _ _ _ _ _ _ _ Hw Em E2) as (K & o & Ho & R & Hm).
  change (next_numbers (set_crypto cr c)) with (next_numbers c) in N2. rewrite <- N2.
  apply finish_packet_numbers in E as [[E3 E4] | (p & p' & -> & Ee & -> & -> & Nd)]; [left; split; [done | by eapply before_written] | right].
  rewrite I2 in Ij. injection Ij as It _. rewrite It in Nd. split; [done |]. split; [exact Nd |].
  assert (exists n, sget (next_numbers c) sp = Some n /\ pn = u64 n) as (n & Hn & ->).
  { subst sp. unfold Status.next_and_largest_acked_packet_number in En. rewrite N2 in *. clear -En.
    destruct (from_packet_type (ps_type sum)); try discriminate En; injection En as <- _; by eexists. }
  destruct (put_written w copy o p p' _ _ _ Hw K Ho R Ee Hs) as (probe & Hp & Hl).
  exists n, suite, p, p', probe. rewrite N2. split_and!; [exact Hn | | exact (f_equal fst Er) | exact Ee | exact Hp |].
  - rewrite (Ip p eq_refl). exact (f_equal snd I2).
  - intros Hf. apply nil_length_inv. rewrite Hl, (Hm Hf). lia.
Qed.

(** The other calls leave the numbers. *)
Theorem numbers_kept_by_receiving (c d : t) :
  (forall data path ok, parse_udp_payload data path c = Some (ok, d) -> next_numbers d = next_numbers c) /\
  (forall e x, request_close e c = Some (x, d) -> next_numbers d = next_numbers c) /\
  (forall host ok, connect_start host c = Some (ok, d) -> next_numbers d = next_numbers c) /\
  (forall orig retry ok, accept_start orig retry c = Some (ok, d) -> next_numbers d = next_numbers c).
Proof.
  split_and!; intros *; intros E.
  - by apply parse_udp_payload_evolves, pe_numbers in E.
  - by apply request_close_steady, sd_numbers in E.
  - by apply connect_start_steady, sd_numbers in E.
  - by apply accept_start_steady, sd_numbers in E.
Qed.
End Numbers.

(** The first packet of a client: number 0. *)
Section Witness.
Import Demo.
Definition first_summary : PacketSummary :=
  set_ps_ids first_id (IDManager.pick_up_srcID (connIDs client0)) (new_summary Initial).
#[local] Abbreviation first_write := (write_packet (new_writer (replicate 1200 0)) first_summary WriteFlag.use_all_buffer None : op _).
#[local] Abbreviation first_written := (exec (false, new_writer [], None) first_write client0).

Lemma packet_number_used_once_witness :
  next_numbers client0 = mk_spaces 0 0 0 /\ next_numbers (snd first_written) = bump initial (next_numbers client0) /\
  exists p', wr_written (snd (fst (fst first_written))) = CryptoPacket.src p'.
Proof.
  split; [vm_compute; reflexivity |].
  assert (E : defined first_write client0 = true) by (vm_compute; reflexivity).
  pose proof (exec_some (false, new_writer [], None) first_write client0 E) as G.
  assert (N : (size (wr_written (snd (fst (fst first_written)))) =? 0) = false) by (vm_compute; reflexivity).
  assert (B : (size (wr_buf (snd (fst (fst first_written)))) <=? u64_max) = true) by (vm_compute; reflexivity).
  destruct first_written as [[[ok w'] rec'] d]. cbn [fst snd] in *. apply Z.leb_le in B.
  destruct (packet_number_used_once (new_writer (replicate 1200 0)) _ _ _ client0 d ok w' rec' (Nat.le_0_l _) B G)
    as [[_ Hi] | (_ & Hn & n & suite & p & p' & probe & _ & _ & _ & _ & Hw & Hm)].
  - by rewrite Hi in N.
  - split; [exact Hn |]. exists p'. rewrite Hw, (Hm eq_refl). reflexivity.
Defined.
End Witness.
