(* ===== verification/ContextProps.v ===== *)
(** * ContextProps: properties of a connection

    Runs of a connection ([run]) are sequences of the calls its user makes:
    datagrams are taken in and asked for, the connection is started and
    closed, the user works with streams and datagrams. The theorems
    say what closes a connection and what it sends then, what stays true
    along a run, which parameters of the peer are believed, how a packet is
    dispatched and that it is handled once; the last part runs whole
    connections. *)

From stdpp Require Import base list gmap strings.
From Stdlib Require Import ZArith Lia.
From S2P Require Import Prelude Bytes PacketNumber Types PacketBase LongPacket ShortPacket PacketParse FrameBase FrameStream FrameAck FrameParse QTime Rtt PnManage LossTimer Congestion Pacer Status AckRecord RecvHistory SentHistory StreamId ConnBase StreamImpl StreamConn Datagram Keys PacketProtect CryptoStream KeyUpdate TransportParam ConnId Path Close QuicContext ContextRecv PathProps ContextKeeps ContextTracks ContextDemo.

#[local] Open Scope string_scope.
#[local] Open Scope Z_scope.
#[local] Open Scope list_scope.

Import QuicContext ContextRecv.

(** ** Runs *)

Section Runs.
Context {A T D V W : Type} `{Env} `{Algorithm A} `{CryptoLib} `{TLS T} `{TLSConn T} `{DropDetector D} `{ConnHandler V}.
#[local] Abbreviation t := (t A T D V W).

(** A call, with the bytes that leave the connection. The user reaches the
    streams, the datagrams and his own state behind its back. *)
Inductive ctx_step : t -> list Z -> t -> Prop :=
  | step_create buf p path ok c d : create_udp_payload buf c = Some ((p, path, ok), d) -> ctx_step c p d
  | step_parse data path ok c d : parse_udp_payload data path c = Some (ok, d) -> ctx_step c [] d
  | step_close e x c d : request_close e c = Some (x, d) -> ctx_step c [] d
  | step_connect host ok c d : connect_start host c = Some (ok, d) -> ctx_step c [] d
  | step_accept orig retry ok c d : accept_start orig retry c = Some (ok, d) -> ctx_step c [] d
  | step_user s dg w c : ctx_step c [] (set_streams s (set_datagrams dg (set_world w c))).

Inductive run : t -> list (list Z) -> t -> Prop :=
  | run_nil c : run c [] c
  | run_cons c p d out e : ctx_step c p d -> run d out e -> run c (p :: out) e.

Lemma step_evolves c p d : ctx_step c p d -> conn_evolves c d.
Proof.
  destruct 1 as [? ? ? ? c d E | ? ? ? c d E | ? ? c d E | ? ? c d E | ? ? ? c d E | s dg w c]; [.. | split; cbn; reflexivity].
  1: refine (tracks_conn_evolves _ _ c _ d E); apply create_udp_payload_tracks.
  1: refine (packet_conn_evolves _ _ c _ d E); apply parse_udp_payload_evolves.
  all: refine (tracks_conn_evolves _ (steady_tracks _ _) c _ d E);
    auto using request_close_steady, connect_start_steady, accept_start_steady.
Qed.
Lemma run_evolves c out d : run c out d -> conn_evolves c d.
Proof. induction 1 as [| c p d out e Hs _ IH]; [reflexivity |]. etransitivity; [by eapply step_evolves | done]. Qed.

(** What a connection that has failed sends: nothing, or its close packet,
    and nothing at all when the peer closed it. *)
Lemma close_packet_out buf p path ok (c d : t) :
  create_udp_payload buf c = Some ((p, path, ok), d) -> Closer.has_error (closer c) = true ->
  (p = [] \/ sent (Closer.flag (closer d)) = true /\ Closer.close_data (closer d) = p) /\
  (received (Closer.flag (closer c)) = true -> sent (Closer.flag (closer c)) = false -> p = []).
Proof.
  unfold create_udp_payload. cbv zeta. intros E He. run_get E. rewrite He in E.
  run E as [p' ok'] c1 E1. unfold on_path, bind, get, ret in E. injection E as <- <- <- <-. cbn [fst snd].
  unfold create_connection_close_packet in E1. run_get E1. rewrite He in E1. cbn [negb] in E1.
  run E1 as n c2 E2. injection E2 as <- <-. run_get E1.
  destruct (Status.close_timeout _ _); [injection E1 as <- <- <-; auto |].
  destruct (sent_packet_null (closer c)) eqn:En; cbn [negb] in E1.
  2: { destruct (Closer.should_retransmit _) eqn:Er; cbn [negb] in E1; [| injection E1 as <- <- <-; auto].
       unfold Closer.should_retransmit in Er. apply andb_true_iff in Er as [Er _].
       unfold bind, upd_closer, modify, ret in E1. injection E1 as <- <- <-. cbn. unfold Closer.on_close_retransmitted, Closer.sent_packet.
       rewrite Er. cbn. split; [auto | congruence]. }
  destruct (Closer.close_by_peer (closer c)) eqn:Ep; [injection E1 as <- <- <-; auto |]. unfold Closer.close_by_peer in Ep.
  split; [| congruence]. run E1 as [q okq] c3 E3. destruct okq; cbn [negb] in E1; [| injection E1 as <- <- <-; auto].
  unfold bind, upd_closer, upd_status, modify, ret in E1. injection E1 as <- <- <-. cbn. auto.
Qed.
Lemma step_out c p d : ctx_step c p d -> Closer.has_error (closer c) = true ->
  (p = [] \/ sent (Closer.flag (closer d)) = true /\ Closer.close_data (closer d) = p) /\
  (received (Closer.flag (closer c)) = true -> sent (Closer.flag (closer c)) = false -> p = []).
Proof. destruct 1; auto. by eapply close_packet_out. Qed.

(** Once the close packet is made, it is all that is sent. *)
Lemma after_close c out d k : run c out d -> Closer.has_error (closer c) = true ->
  sent (Closer.flag (closer c)) = true -> Closer.close_data (closer c) = k -> k <> [] ->
  Forall (fun p => p = [] \/ p = k) out.
Proof.
  intros Hr. revert k. induction Hr as [| c p d out e Hs _ IH]; intros k He Hst Hk Hne; [done |].
  destruct (step_evolves _ _ _ Hs) as [[Le Ls Ld _ _] _]. pose proof (step_out _ _ _ Hs He) as [Ho _].
  assert (Ed : Closer.close_data (closer d) = k) by (rewrite <- Hk in *; auto). constructor; [| by apply IH; auto].
  destruct Ho as [-> | [_ <-]]; auto.
Qed.

(** C1. Closing is final. From the moment a connection has an error (its
    own, one the application asked for, or a CONNECTION_CLOSE frame of the
    peer), whatever is called afterwards and whatever arrives: it keeps an
    error, every datagram it sends is one and the same close packet, and it
    sends nothing at all if the peer closed first. *)
Theorem closing_is_final c out d :
  run c out d -> Closer.has_error (closer c) = true ->
  Closer.has_error (closer d) = true /\
  (exists packet, Forall (fun p => p = [] \/ p = packet) out) /\
  (received (Closer.flag (closer c)) = true -> sent (Closer.flag (closer c)) = false -> Forall (fun p => p = []) out).
Proof.
  intros Hr He. split; [by apply (le_error _ _ (ev_closer _ _ (run_evolves _ _ _ Hr))) |]. split.
  - induction Hr as [| c p d out e Hs Hr IH]; [by exists [] |]. destruct (step_evolves _ _ _ Hs) as [[Le _ _ _ _] _].
    specialize (Le He). destruct (step_out _ _ _ Hs He) as [Ho _]. destruct (decide (p = [])) as [-> | Hp].
    + destruct (IH Le) as [k Hk]. exists k. constructor; auto.
    + destruct Ho as [-> | [Ho1 Ho2]]; [done |]. exists p. constructor; [auto | by eapply after_close].
  - induction Hr as [| c p d out e Hs Hr IH]; intros Hrc Hst; [done |]. destruct (step_evolves _ _ _ Hs) as [[Le _ _ Lr Lq] _].
    destruct (step_out _ _ _ Hs He) as [_ Ho]. constructor; auto.
Qed.

(** C26. What a connection knows, it does not forget: along every run the role
    is fixed, and the flags of the handshake (complete, confirmed, parameters
    read, Retry received) stay once they are set. *)
Theorem connection_facts_stay c out d :
  run c out d ->
  is_server d = is_server c /\
  (handshake_complete c = true -> handshake_complete d = true) /\
  (handshake_confirmed c = true -> handshake_confirmed d = true) /\
  (transport_parameter_read c = true -> transport_parameter_read d = true) /\
  (has_received_retry c = true -> has_received_retry d = true).
Proof.
  intros Hr. destruct (ev_hs _ _ (run_evolves _ _ _ Hr)) as [Hg Hro].
  split; [exact Hro |]. repeat split; apply Hg.
Qed.
End Runs.

(** ** The parameters of the peer *)

Section Params.
Context {A T D V W : Type} `{Env} `{TLS T} `{TLSConn T}.
#[local] Abbreviation t := (t A T D V W).
#[local] Abbreviation M := (M A T D V W).

Lemma or_error_some e (k : M bool) (c d : t) ok :
  or_error (Some e) k c = Some (ok, d) -> ok = false /\ Closer.has_error (closer d) = true /\ status d = status c.
Proof. intros E. injection E as <- <-. done. Qed.
Lemma set_error_false e (c d : t) ok :
  bind (set_quic_runtime_error e) (fun _ => ret false) c = Some (ok, d) ->
  ok = false /\ Closer.has_error (closer d) = true /\ status d = status c.
Proof. apply (or_error_some e (ret true)). Qed.

(** The ids the server names are those of this handshake; the rest runs on a
    state that keeps them. *)
Lemma check_server_ids_spec peer k (c d : t) ok :
  check_server_ids peer k c = Some (ok, d) ->
  (ok = false /\ Closer.has_error (closer d) = true /\ status d = status c) \/
  exists c1, k c1 = Some (ok, d) /\ status c1 = status c /\ params c1 = params c /\
    (is_server c = false ->
     DefinedTransportParams.p_original_dst_connection_id peer = IDManager.get_original_dst_id (connIDs c) /\
     (has_received_retry c = true -> DefinedTransportParams.p_retry_src_connection_id peer = IDManager.get_retry (connIDs c))).
Proof.
  intros E. unfold check_server_ids in E. run_get E. destruct (is_server c); [right; by exists c |].
  run_get E. destruct (bool_decide_reflect (DefinedTransportParams.p_original_dst_connection_id peer = IDManager.get_original_dst_id (connIDs c))) as [Ho |];
    cbn [negb] in E; [| left; by eapply set_error_false].
  run_get E. run_get E. destruct (has_received_retry c && _) eqn:Er; [left; by eapply set_error_false |].
  run_modify E. right. cbv zeta in E.
  assert (G : has_received_retry c = true -> DefinedTransportParams.p_retry_src_connection_id peer = IDManager.get_retry (connIDs c)).
  { intros Hr. rewrite Hr in Er. cbn in Er. apply negb_false_iff in Er. by apply bool_decide_eq_true in Er. }
  destruct (bool_decide (PreferredAddress.connectionID _ = [])); [eexists; split; [exact E | done] |].
  destruct (IDManager.on_preferred_address_received _ _ _ _) as [[[e w] m] |]; [| done]. eexists; split; [exact E | done].
Qed.

(** The ids the peer names are those of this handshake. The id of a Retry is
    compared only if there was one. *)
Definition ids_match (c : t) (peer : DefinedTransportParams.t) : Prop :=
  DefinedTransportParams.p_initial_src_connection_id peer = cid_id (IDManager.choose_dstID 0 (connIDs c)) /\
  (is_server c = false ->
   DefinedTransportParams.p_original_dst_connection_id peer = IDManager.get_original_dst_id (connIDs c) /\
   (has_received_retry c = true -> DefinedTransportParams.p_retry_src_connection_id peer = IDManager.get_retry (connIDs c))).

(** What an attempt to read the parameters ends with. *)
Definition refused (ok : bool) (d : t) : Prop :=
  ok = false /\ Closer.has_error (closer d) = true /\ transport_parameter_read d = false.

Lemma read_flag h : HandshakeStatus.transport_parameter_read (HandshakeStatus.on_transport_parameter_read h) = true.
Proof.
  unfold HandshakeStatus.transport_parameter_read, HandshakeStatus.has, HandshakeStatus.on_transport_parameter_read, HandshakeStatus.add_flag. cbn.
  rewrite Z.land_lor_distr_l, Z.land_diag. apply negb_true_iff, Z.eqb_neq. intros [_ K]%Z.lor_eq_0_iff. discriminate K.
Qed.

Lemma refuse (c d : t) ok : transport_parameter_read c = false ->
  ok = false /\ Closer.has_error (closer d) = true /\ status d = status c -> refused ok d.
Proof. unfold refused, transport_parameter_read. by intros Hr (-> & He & ->). Qed.

End Params.

(** ** Retry *)

Section Retry.
Context {A T D V W : Type} `{Env} `{Algorithm A} `{CryptoLib} `{TLS T} `{TLSConn T} `{DropDetector D} `{ConnHandler V}.
#[local] Abbreviation t := (t A T D V W).

(** The tag a genuine Retry packet carries: over the packet and the id this
    client sent its first packet to. *)
Definition expected_tag (retry : RetryPacket.t) (c : t) : list Z :=
  let pseudo := RetryPseudoPacket.from_retry_packet (IDManager.get_original_dst_id (connIDs c)) retry
                  (RetryPseudoPacket.mk 0 [] (LongPacketBase.mk 0 0 0 [] 0 []) []) in
  let w := snd (RetryPseudoPacket.render pseudo (new_writer (replicate (Z.to_nat (RetryPseudoPacket.len pseudo)) 0))) in
  snd (generate_retry_integrity_tag (replicate 16 0) (wr_written w) (version c)).

Lemma retry_dropped retry (c : t) : has_received_retry c = true -> handle_retry_packet retry c = Some (true, c).
Proof. intros Hr. unfold handle_retry_packet, bind at 1, get at 1. by rewrite Hr, orb_true_r. Qed.

(** C24. A Retry packet is believed at most once, and only by a client that
    has received nothing and for which the packet carries the right tag; the
    token and the id of the packet are then the ones in use, and every Retry
    packet that arrives later in the connection changes nothing. *)
Theorem retry_accepted_once retry (c d : t) ok :
  handle_retry_packet retry c = Some (ok, d) -> has_received_retry c = false -> has_received_retry d = true ->
  (is_server c = false /\ HandshakeStatus.has_received_packet (Status.hs (status c)) = false /\
   RetryPacket.retry_integrity_tag retry = expected_tag retry c) /\
  (retry_token d = RetryPacket.retry_token retry /\
   IDManager.get_retry (connIDs d) = LongPacketBase.srcID (RetryPacket.base retry) /\
   IDManager.get_original_dst_id (connIDs d) = IDManager.get_original_dst_id (connIDs c)) /\
  forall out e retry', run d out e -> handle_retry_packet retry' e = Some (true, e).
Proof.
  intros E Hc Hd. split; [| split].
  3: { intros out e retry' Hr. apply retry_dropped. destruct (ev_hs _ _ (run_evolves _ _ _ Hr)) as [Hg _]. by apply Hg. }
  all: assert (Same : status d = status c -> False) by (unfold has_received_retry in *; intros Es; rewrite Es in Hd; congruence).
  all: unfold handle_retry_packet in E; run_get E; destruct (is_server c) eqn:Esv; cbn [orb] in E; [by injection E as <- <- |].
  all: destruct (HandshakeStatus.has_received_packet _) eqn:Ehp; cbn [orb] in E; [by injection E as <- <- |]; rewrite Hc in E.
  all: run_get E; cbv zeta in E; unfold expected_tag; destruct (RetryPseudoPacket.render _ _) as [okw w]; cbn [snd].
  all: destruct (negb okw); [apply set_error_false in E as (_ & _ & Es); by destruct (Same Es) |]; run_get E.
  all: destruct (generate_retry_integrity_tag _ _ _) as [[err |] tag]; cbn [snd];
    [apply or_error_some in E as (_ & _ & Es); by destruct (Same Es) |]; cbn [or_error] in E.
  all: case_bool_decide as Ht; cbn [negb] in E; [| by injection E as <- <-].
  1: done.
  unfold accept_retry in E. cbv zeta in E. run E as rd c1 E1. injection E1 as <- <-. run_modify E.
  destruct (SentPacketHistory.on_retry_received _ _ _) as [[h r] s]. unfold bind, modify, ret in E. by injection E as <- <-.
Qed.
End Retry.

(** ** Packets *)

Section Packets.
Context {A T D V W : Type} `{Env} `{Algorithm A} `{CryptoLib} `{TLS T} `{TLSConn T} `{DropDetector D} `{ConnHandler V}.
#[local] Abbreviation t := (t A T D V W).
#[local] Abbreviation M := (M A T D V W).
#[local] Open Scope ctx_scope.

(** What the frames of a packet should do: each in order, PADDING left out,
    up to the first that the packet may not carry or that fails; with the
    status the frames give the packet. *)
Fixpoint handle_all (sum : PacketSummary) (fs : list AnyFrame) (pstatus : Z) : M (bool * Z) :=
  match fs with
  | [] => ret (true, pstatus)
  | a :: l =>
      let detail := FrameFlags.type_detail (raw_type (any_canon a)) in
      if is_padding a then handle_all sum l pstatus
      else if negb (is_OKFrameForPacket (ps_type sum) detail) then
        set_quic_runtime_error (QUICError (not_allowed_frame_message (ps_type sum)) PROTOCOL_VIOLATION detail) ;; ret (false, pstatus)
      else
        let! ok := handle_frame sum (any_canon a) in
        let pstatus := PacketStatus.add_frame detail pstatus in
        if ok : bool then handle_all sum l pstatus else ret (false, pstatus)
  end.

Lemma deliver_handle_all sum fs : forall pstatus c,
  match deliver (frame_callback sum) true fs (Some (pstatus, c)) with
  | (ok, Some (ps, d)) => handle_all sum fs pstatus c = Some ((ok, ps), d)
  | (_, None) => handle_all sum fs pstatus c = None
  end.
Proof.
  induction fs as [| a fs IH]; intros pstatus c; [done |]. cbn [deliver handle_all]. cbv zeta.
  destruct (is_padding a); cbn [andb]; [apply IH |]. unfold frame_callback. cbv zeta.
  destruct (negb _); [done |]. unfold bind. destruct (handle_frame sum (any_canon a) c) as [[ok d] |]; [| done].
  destruct ok; [apply IH | done].
Qed.

Lemma payload_size fs : payload_wf fs -> size fs <= size (payload fs).
Proof.
  induction fs as [| a fs IH]; [done |]. intros (Ha & _ & Hl). destruct (any_wire_head a Ha) as [l El].
  change (payload (a :: fs)) with (any_wire a ++ payload fs). rewrite size_cons, El. specialize (IH Hl).
  unfold size in *. rewrite length_app. cbn [length]. lia.
Qed.

(** C25. A packet's payload acts as its frames do: rendering any well-formed
    list of frames and handing the bytes to the connection is the same as
    handling the frames one after another, refusing those its packet type may
    not carry. *)
Theorem frames_dispatched sum fs c :
  payload_wf fs -> size (payload fs) <= u64_max -> handle_frames sum (payload fs) c = handle_all sum fs 0 c.
Proof.
  intros Hwf Hs. assert (Hr : rd_ok (new_reader (payload fs))) by (split; cbn; [lia | done]).
  pose proof (payload_size fs Hwf). unfold handle_frames, parse_frames. pose proof (deliver_handle_all sum fs 0 c) as Hd.
  destruct (parse_frames_deliver (frame_callback sum) u64_max true fs
    (Datatypes.S (length (rd_remain (new_reader (payload fs))))) 0 (Some (0, c)) (new_reader (payload fs))) as (r & Er & _);
    auto; try lia; [by rewrite rd_remain_eq |].
  cbn [snd]. rewrite Er. destruct (deliver _ _ _ _) as [ok [[ps d] |]]; cbn [fst snd]; by rewrite Hd.
Qed.

Lemma handle_single_packet_recorded sum payload path (c d : t) x :
  handle_single_packet sum payload path c = Some (true, d) -> spaces_ok (unacked c) -> is_pn (ps_packet_number sum) ->
  let sp := from_packet_type (ps_type sum) in
  space_of sp (unacked c) = Some x -> ~ seen (ps_packet_number sum) (RecvSpaceHistory.ranges x) ->
  RecvPacketHistory.is_duplicated sp (ps_packet_number sum) (unacked d) = true.
Proof.
  intros E Hok Hpn sp Ex Hn. unfold handle_single_packet in E. cbv zeta in E. run_get E.
  set (sum' := if bool_decide (ps_type sum = OneRTT) then _ else sum) in E.
  assert (Es : ps_packet_number sum' = ps_packet_number sum) by (unfold sum'; by destruct (bool_decide _)). clearbody sum'.
  run E as n c1 E1. apply now_steady in E1. run E as u c2 E2. apply decrypted_steady in E2.
  run E as ok c3 E3. apply handle_on_initial_steady in E3. destruct ok; cbn [negb] in E; [| discriminate E].
  run_get E. run E as u2 c4 E4.
  assert (T4 : steady c3 c4).
  { revert E4. destruct (is_server c3); [| by intros [= <- <-]]. unfold modify. destruct (IDManager.maybe_retire_original_dst_id _ _ _) as [w m].
    intros [= <- <-]. constructor; cbn; reflexivity. }
  run E as [ok ps] c5 E5. apply handle_frames_steady in E5. destruct ok; cbn [negb] in E; [| discriminate E].
  run E as u3 c6 E6. apply drop_if_steady in E6; [| apply on_handshake_packet_steady].
  run E as u4 c7 E7. apply drop_if_steady in E7; [| apply on_handshake_confirmed_steady].
  run E as n2 c8 E8. apply now_steady in E8. unfold bind, modify, upd_status, upd_paths, ret in E. injection E as <-. cbn [unacked set_path_verifier set_status set_unacked].
  assert (Tk : steady c c8) by (repeat (etransitivity; [eassumption |]); reflexivity).
  destruct (sd_hist _ _ Tk Hok) as [Hok8 Hsub]. rewrite Es.
  destruct (space_of sp (unacked c8)) as [y |] eqn:Ey; [| subst sp; by destruct (from_packet_type (ps_type sum))].
  eapply processed_duplicate; eauto.
Qed.

(** C5. A packet is handled once: after the connection has taken a packet in,
    any packet of the same number space with the same number, whatever it
    carries and wherever it comes from, is dropped without changing
    anything. *)
Theorem packet_handled_once path path' pn packet packet' (c d : t) :
  crypto_cb path pn packet c = Some (true, d) -> spaces_ok (unacked c) -> is_pn pn ->
  from_packet_type (ps_type (summarize_plain packet' pn)) = from_packet_type (ps_type (summarize_plain packet pn)) ->
  crypto_cb path' pn packet' d = Some (true, d).
Proof.
  intros E Hok Hpn Hs.
  cut (RecvPacketHistory.is_duplicated (from_packet_type (ps_type (summarize_plain packet pn))) pn (unacked d) = true).
  { intros Hd. unfold crypto_cb, bind, get. by rewrite Hs, Hd. }
  unfold crypto_cb in E. run_get E. destruct (RecvPacketHistory.is_duplicated _ _ (unacked c)) eqn:Ed; [by injection E as <- |].
  assert (Ep : ps_packet_number (summarize_plain packet pn) = pn) by by destruct packet.
  assert (exists x, space_of (from_packet_type (ps_type (summarize_plain packet pn))) (unacked c) = Some x) as [x Ex] by (destruct packet; cbn; eauto).
  rewrite <- Ep at 2. eapply handle_single_packet_recorded; eauto; rewrite ?Ep; [done |].
  intros Hseen. enough (RecvPacketHistory.is_duplicated (from_packet_type (ps_type (summarize_plain packet pn))) pn (unacked c) = true) by congruence.
  destruct (Hok _ _ Ex) as [Hr _]. unfold RecvPacketHistory.is_duplicated.
  destruct packet; cbn in Ex |- *; injection Ex as <-; by apply HistoryFacts.is_duplicated_spec; auto.
Qed.
End Packets.

(** ** Whole connections

    The states of [ContextDemo]: two connections are run against each other,
    and the theorems above are applied to states of such runs. *)

Section Whole.
Import Demo.

(** What an end knows after the handshake. *)
Definition established (c : ctx) : bool :=
  handshake_complete c && handshake_confirmed c && transport_parameter_read c && negb (is_closed c) && negb (Closer.has_error (closer c)).

Lemma talk_S n c s : talk (Datatypes.S n) c s = let '(_, c, s) := send_one c s in let '(_, s, c) := send_one s c in talk n c s.
Proof. done. Qed.

(** The client changes its address: its next datagram, with a message, reaches
    the server on path 5. Then the server is asked for a datagram. *)
Definition hello : list Z := [104; 101; 108; 108; 111].
Definition rebound (c s : ctx) : ctx :=
  let '((p, _, _), _) := exec ([], None, false) (create_udp_payload buffer) (write_stream hello c) in
  snd (exec false (parse_udp_payload p 5) s).
Definition probe_from (s : ctx) : result * ctx := exec ([], None, false) (create_udp_payload buffer) s.

(** The path the datagram goes to, the probes, whether the record of the
    challenge is lost, whether the path counts as valid. *)
Definition observed (x : result * ctx) : option Z * list PathProbeInfo * bool * bool :=
  let '(_, path, _, d) := x in
  (path, PathVerifier.probes (path_verifier d), ACKHandler.is_lost (Some 4%positive) (recs d),
   bool_decide (5 ∈ PathVerifier.valid_path (path_verifier d))).

(** The size of a datagram and the form of its first packet. *)
Definition datagram_form (p : list Z) : Z * Z := (size p, Z.land (default 0 (head p)) 0xf0).

(** One run, computed once: the handshake, the first datagram of each end, a
    message, and a message from another address. *)
Lemma whole_run :
  let '(p1, c1, s1) := send_one client0 server0 in
  let '(p2, s1, c1) := send_one s1 c1 in
  let '(c2, s2) := talk 1 c1 s1 in
  let '(c3, s3) := talk 1 (write_stream hello c2) s2 in
  (datagram_form p1 = (1200, 0xc0) /\ datagram_form p2 = (154, 0xc0)) /\
  (established client0 = false /\ established c2 = true /\ established s2 = true /\
   established c3 = true /\ received_log s2 = [] /\ received_log s3 = hello) /\
  received_log (rebound c2 s2) = hello /\
  observed (probe_from (rebound c2 s2)) = (Some original_path, [mk_probe 5 11222 7523377975159973992 (Some 4%positive) false], true, false).
Proof. vm_compute. repeat split. Qed.

(** A client and a server that exchange datagrams establish a connection:
    after two datagrams each way the handshake is complete and confirmed on
    both sides and the parameters are read; what the client then writes on a
    stream is what the application of the server receives. *)
Theorem handshake_and_data :
  let '(c, s) := talk 2 client0 server0 in
  let '(c', s') := talk 1 (write_stream hello c) s in
  established client0 = false /\ established c = true /\ established s = true /\
  established c' = true /\ received_log s = [] /\ received_log s' = hello.
Proof.
  pose proof whole_run as E. rewrite talk_S. destruct (send_one client0 server0) as [[p1 c1] s1].
  destruct (send_one s1 c1) as [[p2 s1'] c1']. destruct (talk 1 c1' s1') as [c2 s2].
  destruct (talk 1 (write_stream _ c2) s2) as [c3 s3]. exact (proj1 (proj2 E)).
Qed.

(** A change of address stops the connection. When a datagram of the client
    reaches an established server on another path, the server takes the
    message in and starts to validate the path; but its next datagram still
    goes to the old one: the packet with the challenge was thrown away when
    it was written, and its record counts as lost. Until the validation times
    out (at 11222), the loop that looks for dead probes, which every later
    [create_udp_payload] enters, does not return, however long it runs. *)
Theorem address_change_stops :
  let '(c, s) := talk 2 client0 server0 in
  let '(_, path, _, d) := probe_from (rebound c s) in
  received_log (rebound c s) = hello /\ path = Some original_path /\
  forall fuel now, time.timeout 11222 now = false -> PathVerifier.detect_path_probe_timeout fuel now (recs d) (path_verifier d) = None.
Proof.
  pose proof whole_run as E. rewrite talk_S. destruct (send_one client0 server0) as [[p1 c1] s1].
  destruct (send_one s1 c1) as [[p2 s1'] c1']. destruct (talk 1 c1' s1') as [c2 s2].
  destruct (talk 1 (write_stream _ c2) s2) as [c3 s3]. destruct E as (_ & _ & El & E).
  destruct (probe_from (rebound c2 s2)) as [[[p path] ok] d]. unfold observed in E. injection E as Ep Eprobes Ew Ev.
  split; [exact El |]. split; [done |]. intros fuel now Ht. unfold PathVerifier.detect_path_probe_timeout.
  rewrite PathProps.VerifierFacts.timeout_loop_hangs; [done |]. rewrite Eprobes. constructor. right.
  split; [exact Ew |]. split; [exact Ht |]. by apply bool_decide_eq_false in Ev.
Qed.

(** A server that answered with a Retry, and the packet it sent: the id it
    chose, no token, the tag the client expects. *)
Definition retry_id : list Z := [55; 55; 55; 55].
Definition retry_packet : RetryPacket.t :=
  let p tag := RetryPacket.mk (LongPacketBase.mk 0xf0 1 0 [] (size retry_id) retry_id) [] tag in
  p (expected_tag (p []) client0).
Definition client_retried : ctx := snd (exec false (handle_retry_packet retry_packet) client0).
Definition server_retried : ctx := snd (exec false (accept_start first_id (Some retry_id)) (start true)).

(** A handshake with a Retry cannot succeed: the client accepts the Retry
    packet and the server the new Initial packet, but the server then names
    no initial source id in its parameters, having put the id into the one
    for the source of the Retry, and the client closes the connection. *)
Theorem retry_handshake_fails :
  let '(c, s) := talk 1 client_retried server_retried in
  has_received_retry client_retried = true /\ Closer.has_error (closer client_retried) = false /\
  DefinedTransportParams.p_initial_src_connection_id (TransportParameters.local (QuicContext.params s)) = [] /\
  DefinedTransportParams.p_retry_src_connection_id (TransportParameters.local (QuicContext.params s)) <> retry_id /\
  transport_parameter_read c = false /\ get_conn_error c = to_conn_error (compare_error
    "initial_src_connection_id is not matched to id contained on initial packet" PROTOCOL_VIOLATION).
Proof. vm_compute. repeat split. intros E. discriminate E. Qed.

(** A datagram with an Initial packet is not padded when another packet
    follows: the first datagram of the server starts with an Initial packet,
    whose first byte has the form 0b1100xxxx, and has 154 of the 1200 bytes
    RFC 9000 14.1 requires. *)
Theorem initial_datagram_short :
  let '(p1, c, s) := send_one client0 server0 in
  let '(p2, _, _) := send_one s c in
  datagram_form p1 = (1200, 0xc0) /\ datagram_form p2 = (154, 0xc0).
Proof.
  pose proof whole_run as E. destruct (send_one client0 server0) as [[p1 c1] s1]. destruct (send_one s1 c1) as [[p2 s1'] c1'].
  destruct (talk 1 c1' s1') as [c2 s2]. destruct (talk 1 (write_stream _ c2) s2) as [c3 s3].
  exact (proj1 E).
Qed.
End Whole.

(** ** The theorems at states of such runs *)

Section Witnesses.
Import Demo.

(** One call of [create_udp_payload]. *)
Definition sent_from (c : ctx) : result * ctx := exec ([], None, false) (create_udp_payload buffer) c.
Definition bytes_of (x : result * ctx) : list Z := fst (fst (fst x)).
Lemma create_step c : defined (create_udp_payload buffer) c = true -> ctx_step c (bytes_of (sent_from c)) (snd (sent_from c)).
Proof.
  intros E. apply (exec_some ([], None, false)) in E. fold (sent_from c) in E. unfold bytes_of.
  destruct (sent_from c) as [[[p path] ok] d]. exact (step_create _ _ _ _ _ _ E).
Qed.

(** The application of the client closes before anything was sent; the
    connection is asked twice for a datagram. *)
Definition closing : ctx := snd (exec tt (request_close (err_app 7 [98; 121; 101])) client0).
#[local] Abbreviation closing1 := (sent_from closing).
#[local] Abbreviation closing2 := (sent_from (snd closing1)).

Lemma closing_run : run closing [bytes_of closing1; bytes_of closing2] (snd closing2).
Proof.
  refine (run_cons _ _ _ _ _ (create_step closing _) (run_cons _ _ _ _ _ (create_step (snd closing1) _) (run_nil _)));
    vm_compute; reflexivity.
Qed.

Lemma closing_is_final_witness :
  (size (bytes_of closing1) =? 1200) = true /\ Closer.has_error (closer (snd closing2)) = true /\
  exists packet, Forall (fun p => p = [] \/ p = packet) [bytes_of closing1; bytes_of closing2].
Proof.
  assert (E : Closer.has_error (closer closing) = true) by (vm_compute; reflexivity).
  destruct (closing_is_final closing _ _ closing_run E) as (H1 & H2 & _).
  split; [vm_compute; reflexivity |]. split; [exact H1 | exact H2].
Defined.

Lemma connection_facts_stay_witness :
  is_server (snd (sent_from client_retried)) = is_server client_retried /\ has_received_retry (snd (sent_from client_retried)) = true.
Proof.
  assert (E : defined (create_udp_payload buffer) client_retried = true) by (vm_compute; reflexivity).
  destruct (connection_facts_stay client_retried _ _ (run_cons _ _ _ _ _ (create_step client_retried E) (run_nil _))) as (H1 & _ & _ & _ & H5).
  split; [exact H1 | apply H5; vm_compute; reflexivity].
Defined.

(** A server that has received the first message of the client. *)
Definition client_id : list Z := IDManager.pick_up_srcID (connIDs client0).
Definition server1 : ctx :=
  set_tls (mk_tls [] (Some (tls_local (QuicContext.tls client0))) 1)
    (snd (exec false (handle_on_initial (set_ps_ids first_id client_id (new_summary Initial))) server0)).
Definition server1_params : ctx := snd (exec false apply_transport_param server1).

Lemma retry_accepted_once_witness :
  retry_token client_retried = [] /\ IDManager.get_retry (connIDs client_retried) = retry_id /\
  handle_retry_packet retry_packet client_retried = Some (true, client_retried).
Proof.
  assert (E : defined (handle_retry_packet retry_packet) client0 = true) by (vm_compute; reflexivity).
  destruct (retry_accepted_once retry_packet client0 client_retried _ (exec_some false (handle_retry_packet retry_packet) client0 E)) as (_ & (H1 & H2 & _) & H3);
    [vm_compute; reflexivity .. |].
  split; [exact H1 |]. split; [exact H2 |]. exact (H3 [] _ _ (run_nil _)).
Defined.

Definition some_frames : list AnyFrame :=
  [Ping (TypeOnly.mk 1); Padding (TypeOnly.mk 0); HandshakeDone (TypeOnly.mk 30)].
Lemma frames_dispatched_witness :
  handle_frames (new_summary OneRTT) (payload some_frames) client0 = handle_all (new_summary OneRTT) some_frames 0 client0.
Proof. apply frames_dispatched; [| vm_compute; discriminate]. repeat split; try done. Defined.

Lemma reset_spaces_ok : spaces_ok RecvPacketHistory.reset.
Proof. intros [] x [= <-]; (split; [split; constructor | done]). Qed.

(** A 1-RTT packet with a PING frame. *)
Definition ping_packet : AnyPlain := OneRTTPlain (OneRTTPacketPlain.mk (OneRTTPacketPartial.mk 64 [1]) 0 [1] []).
Lemma packet_handled_once_witness :
  let d := snd (exec false (crypto_cb 0 5 ping_packet) client0) in crypto_cb 1 5 ping_packet d = Some (true, d).
Proof.
  assert (E : defined (crypto_cb 0 5 ping_packet) client0 = true) by (vm_compute; reflexivity).
  apply (packet_handled_once 0 1 5 ping_packet ping_packet client0); [| | | reflexivity].
  - pose proof (exec_some false (crypto_cb 0 5 ping_packet) client0 E) as G. assert (fst (exec false (crypto_cb 0 5 ping_packet) client0) = true) as Eb by (vm_compute; reflexivity).
    by rewrite Eb in G.
  - assert (unacked client0 = RecvPacketHistory.reset) as -> by (vm_compute; reflexivity). apply reset_spaces_ok.
  - split; [vm_compute; discriminate | reflexivity].
Defined.
End Witnesses.
