(* ===== verification/Server.v ===== *)
(** * Server: many connections on one socket

    Models [fnet/quic/server/server.h]: the table from connection ids to
    handlers, the queue of handlers that may have something to send, the list
    of handlers with deadlines, and [HandlerMap], which owns them and the
    table of paths. A handler is a connection, or what is left of one after
    it closed.

    A [HandlerPtr] is the number of an object of [heap], where objects stay;
    a set of pointers is ordered by address, so the order in which
    [schedule] walks one is a parameter. What the connections share (the
    table of ids, behind their exporter, and the state of the application)
    is the [world] of each of them: it is put into a connection for a call
    and taken out after it. [None] is undefined behaviour.

    The callbacks of the application that prepare, start and end a
    connection are parameters; those that its streams make are in the class
    [ConnHandler], and the one on transport parameters is null. The
    notifications of [schedule_recv] only call the application and are left
    out. Each member function is one step under its lock; [SenderProps] takes
    the queue apart further. *)

From stdpp Require Import base list gmap strings.
From Stdlib Require Import ZArith Lia.
From S2P Require Import Prelude Bytes PacketNumber Types PacketBase LongPacket ShortPacket PacketParse QTime Congestion Status StreamConn Datagram Keys PacketProtect CryptoStream KeyUpdate TransportParam ConnId Path Close QuicContext ContextRecv.

#[local] Open Scope Z_scope.
#[local] Open Scope list_scope.

#[local] Abbreviation handler_ptr := positive.

(** ** [struct ConnIDMap] *)

Module ConnIDMap.
Definition t : Type := gmap (list Z) positive.

(** [emplace] keeps an entry that is there. *)
Definition emplace (id : list Z) (h : handler_ptr) (m : t) : t :=
  match m !! id with Some _ => m | None => <[id := h]> m end.
Definition add_connID (id : list Z) (h : handler_ptr) (m : t) : t := emplace id h m.
Definition remove_ids (ids : list CloseID) (m : t) : t := foldl (fun m i => delete (close_id i) m) m ids.
Definition replace_ids (ids : list CloseID) (h : handler_ptr) (m : t) : t :=
  foldl (fun m i => emplace (close_id i) h m) (remove_ids ids m) ids.
Definition remove_connID (id : list Z) (m : t) : t := delete id m.
Definition lookup (id : list Z) (m : t) : option handler_ptr := m !! id.
End ConnIDMap.

(** What connections share: the table, and the state of the application. *)
Record Mux (U : Type) := mk_mux { conn_ids : ConnIDMap.t; user : U }.
Arguments mk_mux {U}. Arguments conn_ids {U}. Arguments user {U}.
Definition upd_conn_ids {U} (f : ConnIDMap.t -> ConnIDMap.t) (m : Mux U) : Mux U := mk_mux (f (conn_ids m)) (user m).

(** [exporter_fn], with the handler its [obj] points to. *)
Definition exporter_fn {U} (h : handler_ptr) : ConnIDExporter.ExporterFn (Mux U) :=
  ConnIDExporter.mk_fn (Some ConnIDExporter.default_generator)
    (Some (fun id _ => upd_conn_ids (ConnIDMap.add_connID id h)))
    (Some (fun id _ => upd_conn_ids (ConnIDMap.remove_connID id))).

(** ** [struct SenderQue] *)

Module SenderQue.
Record t := mk { queue : list handler_ptr; sender_set : gset positive; duplicated : gset positive }.
Definition new : t := mk [] ∅ ∅.

Definition push (h : handler_ptr) (q : t) : t := mk (queue q ++ [h]) (sender_set q) (duplicated q).
Definition enque (h : handler_ptr) (timeout : bool) (q : t) : t :=
  if bool_decide (h ∈ sender_set q) then
    if timeout then q else mk (queue q) (sender_set q) ({[h]} ∪ duplicated q)
  else mk (queue q ++ [h]) ({[h]} ∪ sender_set q) (duplicated q).

(** The two parts of [deque]: the queue is popped without the lock. *)
Definition pop (q : t) : option (handler_ptr * t) :=
  match queue q with h :: l => Some (h, mk l (sender_set q) (duplicated q)) | [] => None end.
Definition clear_duplicated (h : handler_ptr) (q : t) : t := mk (queue q) (sender_set q) (duplicated q ∖ {[h]}).
Definition deque (q : t) : option (handler_ptr * t) :=
  match pop q with Some (h, q) => Some (h, clear_duplicated h q) | None => None end.

Definition erase (h : handler_ptr) (q : t) : t := mk (queue q) (sender_set q ∖ {[h]}) (duplicated q ∖ {[h]}).
Definition erase_and_enque_if_duplicated (h : handler_ptr) (q : t) : t :=
  if bool_decide (h ∈ duplicated q) then mk (queue q ++ [h]) (sender_set q) (duplicated q ∖ {[h]})
  else mk (queue q) (sender_set q ∖ {[h]}) (duplicated q).
End SenderQue.

(** ** Handlers *)

Record Opened (C : Type) := mk_opened { ctx : C; closed : bool; discard : bool; o_deadline : Z }.
Arguments mk_opened {C}. Arguments ctx {C}. Arguments closed {C}. Arguments discard {C}. Arguments o_deadline {C}.

(** [struct Closed]; [c_path] is [active_path] of its context. *)
Record Closed := mk_closed { c_ctx : ClosedContext.t; c_path : Z; ids : list CloseID; c_deadline : Z }.

Inductive Handler (C : Type) := HOpened (o : Opened C) | HClosed (x : Closed).
Arguments HOpened {C}. Arguments HClosed {C}.

Definition next_deadline {C} (h : Handler C) : Z :=
  match h with HOpened o => o_deadline o | HClosed x => c_deadline x end.

(** A [ClosedContext] is made with an unset path. *)
Definition new_closed_path : option Z := Some unknown_path.

Module HandlerMap.
Section map.
Context {A T D V U : Type} `{Env} `{Algorithm A} `{CryptoLib} `{TLS T} `{TLSConn T} `{DropDetector D} `{ConnHandler V}.
#[local] Abbreviation Ctx := (QuicContext.t A T D V (Mux U)).
#[local] Abbreviation Config := (ContextRecv.Config A T D V (Mux U)).

(** [struct MultiplexerConfig]: the callbacks for connections. *)
Record MultiplexerConfig := mk_mux_config {
  prepare_connection : Ctx -> Ctx; start_connection : Ctx -> Ctx; close_connection : Ctx -> Ctx
}.

Record t := mk {
  heap : gmap positive (Handler Ctx);
  mux : Mux U;
  send_que : SenderQue.t;
  handlers : gset positive;
  paths : PathMapper.t;
  readings : nat
}.
Definition set_heap v (s : t) : t := mk v (mux s) (send_que s) (handlers s) (paths s) (readings s).
Definition set_mux v (s : t) : t := mk (heap s) v (send_que s) (handlers s) (paths s) (readings s).
Definition upd_que f (s : t) : t := mk (heap s) (mux s) (f (send_que s)) (handlers s) (paths s) (readings s).
Definition set_handlers v (s : t) : t := mk (heap s) (mux s) (send_que s) v (paths s) (readings s).
Definition set_paths v (s : t) : t := mk (heap s) (mux s) (send_que s) (handlers s) v (readings s).
Definition put (h : handler_ptr) (x : Handler Ctx) (s : t) : t := set_heap (<[h := x]> (heap s)) s.

(** What does not change: the configurations, how a context and its TLS
    object come into being, the text of [error::none], the order of a set,
    the clock. *)
Context (quic_server_config : Config) (server_config client_config : MultiplexerConfig)
  (fresh_ctx : Ctx) (new_tls : T + Error) (none_text : list Z)
  (set_order : gset positive -> list positive) (clock : nat -> Z).

Definition tick (s : t) : Z * t := (clock (readings s), mk (heap s) (mux s) (send_que s) (handlers s) (paths s) (S (readings s))).

(** A call of a context: it sees the shared state and changes it. *)
Definition on_ctx {X} (m : QuicContext.M A T D V (Mux U) X) (o : Opened Ctx) (w : Mux U) : option (X * Opened Ctx * Mux U) :=
  match m (QuicContext.set_world w (ctx o)) with
  | Some (x, c) => Some (x, mk_opened c (closed o) (discard o) (o_deadline o), QuicContext.world c)
  | None => None
  end.
Definition set_deadline (o : Opened Ctx) : Opened Ctx :=
  mk_opened (ctx o) (closed o) (discard o) (QuicContext.get_earliest_deadline (ctx o)).

(** *** [struct Opened] *)

Definition opened_create_packet (buf : maybe_resizable_buffer) (o : Opened Ctx) (w : Mux U)
    : option ((list Z * option Z * bool) * Opened Ctx * Mux U) :=
  match on_ctx (QuicContext.create_udp_payload buf) o w with
  | None => None
  | Some (v, o, w) =>
      let o := set_deadline o in
      if QuicContext.is_closed (ctx o)
      then Some (([], Some original_path, false), mk_opened (ctx o) true (discard o) (o_deadline o), w)
      else Some (v, o, w)
  end.

Definition opened_handle_packet (payload : list Z) (id : Z) (o : Opened Ctx) (w : Mux U) : option (Opened Ctx * Mux U) :=
  if discard o then Some (o, w)
  else
    match on_ctx (ContextRecv.parse_udp_payload payload id) o w with
    | None => None
    | Some (_, o, w) => Some (set_deadline o, w)
    end.

(** The handler that takes over from a closed connection, if there is one.
    [release_resource] drops what a closed connection does not use again. *)
Definition opened_next_handler (h : handler_ptr) (o : Opened Ctx) (s : t) : option (option handler_ptr * t) :=
  if negb (closed o) || discard o then Some (None, s)
  else
    match on_ctx (QuicContext.expose_closed_context ClosedContext.new new_closed_path) o (mux s) with
    | Some ((_, c, Some path, ids), o, w) =>
        let next := fresh (dom (heap s)) in
        let w := upd_conn_ids (ConnIDMap.replace_ids ids next) w in
        let config := if QuicContext.is_server (ctx o) then server_config else client_config in
        let x := close_connection config (QuicContext.set_world w (ctx o)) in
        let s := put h (HOpened (mk_opened x (closed o) true (o_deadline o))) s in
        Some (Some next, set_mux (QuicContext.world x)
                           (put next (HClosed (mk_closed c path ids (time.get_deadline (ClosedContext.close_timeout c)))) s))
    | _ => None
    end.

(** *** [struct Closed] *)

Definition closed_create_packet (now : Z) (x : Closed) : (list Z * option Z * bool) * Closed :=
  let '((payload, idle), c) := ClosedContext.create_udp_payload now (c_ctx x) in
  ((payload, Some (c_path x), idle), mk_closed c (c_path x) (ids x) (time.get_deadline (ClosedContext.close_timeout (c_ctx x)))).
Definition closed_handle_packet (x : Closed) : Closed :=
  mk_closed (snd (ClosedContext.parse_udp_payload (c_ctx x))) (c_path x) (ids x) (c_deadline x).
Definition closed_next_handler (x : Closed) (s : t) : t := set_mux (upd_conn_ids (ConnIDMap.remove_ids (ids x)) (mux s)) s.

(** *** The virtual calls; a dangling pointer is undefined *)

Definition handler_create_packet (buf : maybe_resizable_buffer) (h : handler_ptr) (s : t) : option ((list Z * option Z * bool) * t) :=
  match heap s !! h with
  | None => None
  | Some (HOpened o) =>
      match opened_create_packet buf o (mux s) with
      | None => None
      | Some (v, o, w) => Some (v, set_mux w (put h (HOpened o) s))
      end
  | Some (HClosed x) =>
      let '(now, s) := tick s in
      let '(v, x) := closed_create_packet now x in Some (v, put h (HClosed x) s)
  end.

Definition handler_handle_packet (payload : list Z) (pid : Z) (h : handler_ptr) (s : t) : option t :=
  match heap s !! h with
  | None => None
  | Some (HOpened o) =>
      match opened_handle_packet payload pid o (mux s) with
      | None => None
      | Some (o, w) => Some (set_mux w (put h (HOpened o) s))
      end
  | Some (HClosed x) => Some (put h (HClosed (closed_handle_packet x)) s)
  end.

Definition handler_next_handler (h : handler_ptr) (s : t) : option (option handler_ptr * t) :=
  match heap s !! h with
  | None => None
  | Some (HOpened o) => opened_next_handler h o s
  | Some (HClosed x) => Some (None, closed_next_handler x s)
  end.

(** *** [struct HandlerList] *)

Definition add (h : handler_ptr) (s : t) : t := set_handlers ({[h]} ∪ handlers s) s.
Definition remove (h : handler_ptr) (s : t) : t := set_handlers (handlers s ∖ {[h]}) s.
Definition schedule_send (s : t) : t :=
  let '(now, s) := tick s in
  foldl (fun s h =>
           match heap s !! h with
           | Some x => if next_deadline x <=? now then upd_que (SenderQue.enque h true) s else s
           | None => s
           end) s (set_order (handlers s)).

(** *** Connections *)

Definition get_path_id (addr : NetAddrPort) (s : t) : option (Z * t) :=
  match PathMapper.get_path_id addr (paths s) with Some (pid, p) => Some (pid, set_paths p s) | None => None end.
Definition get_peer_addr (pid : Z) (s : t) : NetAddrPort := PathMapper.get_peer_address pid (paths s).

(** A configuration with a handler and a path; [get_config] and the lines of
    [open_internal]. *)
Definition with_handler (g : Config) (server : bool) (h : handler_ptr) (pid : Z) : Config :=
  let c := ContextRecv.cfg_connid g in
  ContextRecv.mk_context_config (ContextRecv.cfg_version g) server (ContextRecv.cfg_session g) (ContextRecv.cfg_internal g)
    (ContextRecv.cfg_mtu g) (ContextRecv.cfg_max_path_challenge g) pid (ContextRecv.cfg_params g)
    (mk_connid_config (cf_change_mode c) (cf_packet_per_id c) (cf_max_packet_per_id c) (Some (exporter_fn h)) (cf_random c)
       (cf_connid_len c) (cf_concurrent_limit c))
    (ContextRecv.cfg_datagram g) (ContextRecv.cfg_zero_rtt g) (ContextRecv.cfg_algorithm g) (ContextRecv.cfg_dgram_drop g)
    (ContextRecv.cfg_app g).
Definition get_config (h : handler_ptr) (pid : Z) : Config := with_handler quic_server_config true h pid.

(** [Opened::create] and [ctx.init]: the new handler, or a failure. *)
Definition create_opened (g : Config) (h : handler_ptr) (s : t) : option (bool * Opened Ctx * Mux U) :=
  on_ctx (ContextRecv.init none_text g new_tls) (mk_opened fresh_ctx false false (-1)) (mux s).

(** A callback of the application on a connection. *)
Definition call (f : Ctx -> Ctx) (o : Opened Ctx) (w : Mux U) : Opened Ctx * Mux U :=
  let c := f (QuicContext.set_world w (ctx o)) in
  (mk_opened c (closed o) (discard o) (o_deadline o), QuicContext.world c).

(** The connection is stored even where the code drops it: nothing points to
    it then. *)
Definition store (h : handler_ptr) (o : Opened Ctx) (w : Mux U) (s : t) : t := set_mux w (put h (HOpened o) s).
Definition enlist (h : handler_ptr) (s : t) : t := add h (upd_que (SenderQue.enque h false) s).

Definition add_new_conn (origDst d : list Z) (pid : Z) (s : t) : option t :=
  let h := fresh (dom (heap s)) in
  match create_opened (get_config h pid) h s with
  | None => None
  | Some (false, o, w) => Some (store h o w s)
  | Some (true, o, w) =>
      let '(o, w) := call (prepare_connection server_config) o w in
      match on_ctx (ContextRecv.accept_start origDst None) o w with
      | None => None
      | Some (false, o, w) => Some (store h o w s)
      | Some (true, o, w) =>
          let '(o, w) := call (start_connection server_config) o w in
          match on_ctx (ContextRecv.parse_udp_payload d pid) o w with
          | None => None
          | Some (_, o, w) => Some (enlist h (store h o w s))
          end
      end
  end.

(** [open]: a client. *)
Definition open_internal (conf : Config) (dest : NetAddrPort) (host : option (list Z)) (s : t) : option (option handler_ptr * t) :=
  let h := fresh (dom (heap s)) in
  match get_path_id dest s with
  | None => None
  | Some (pid, s) =>
      match create_opened (with_handler conf false h pid) h s with
      | None => None
      | Some (false, o, w) => Some (None, store h o w s)
      | Some (true, o, w) =>
          let '(o, w) := call (prepare_connection client_config) o w in
          match on_ctx (ContextRecv.connect_start host) o w with
          | None => None
          | Some (false, o, w) => Some (None, store h o w s)
          | Some (true, o, w) =>
              let '(o, w) := call (start_connection client_config) o w in
              Some (Some h, enlist h (store h o w s))
          end
      end
  end.

(** *** Datagrams in *)

Definition is_server_supported (ver : Z) : bool := ContextRecv.cfg_version quic_server_config =? ver.

Definition opening_packet (summary : PacketSummary) (d : list Z) (pid : Z) (s : t) : option t :=
  if negb (bool_decide (ps_type summary = Initial)) then Some s
  else if size d <? initial_udp_datagram_size then Some s
  else if negb (is_server_supported (ps_version summary)) then Some s
  else add_new_conn (ps_dstID summary) d pid s.

Definition handle_packet (summary : PacketSummary) (d : list Z) (pid : Z) (s : t) : option t :=
  match ConnIDMap.lookup (ps_dstID summary) (conn_ids (mux s)) with
  | None => opening_packet summary d pid s
  | Some h =>
      match handler_handle_packet d pid h s with
      | None => None
      | Some s => Some (upd_que (SenderQue.enque h false) s)
      end
  end.

(** The callback gets the first packet of the datagram; its result is [void]
    for the packets that are handled, also for one that could not be parsed
    to its end. *)
Definition packet_cb (d : list Z) (pid : Z) : callback (option t) := fun _ p _ _ _ s =>
  match p with
  | APacket _ | ALongPacketBase _ | AVersionNegotiationPacket _ | AStatelessReset _ => (false, s)
  | _ =>
      match s, summarize p packetnum.infinity with
      | Some s, Some summary => (true, handle_packet summary d pid s)
      | _, _ => (true, None)
      end
  end.

Definition parse_udp_payload (d : list Z) (addr : NetAddrPort) (s : t) : option t :=
  match get_path_id addr s with
  | None => None
  | Some (pid, s) =>
      match parse_packet authentication_tag_length (packet_cb d pid) (fun _ => false)
              (fun _ _ => (true, cf_connid_len (ContextRecv.cfg_connid quic_server_config))) (new_reader d, Some s) with
      | Some (_, (_, s)) => s
      | None => None
      end
  end.

(** [notify] and the callbacks of streams and datagrams with data to send. *)
Definition notify (h : handler_ptr) (s : t) : t := upd_que (SenderQue.enque h false) s.

(** *** Datagrams out *)

Inductive Sent := sent_bytes (payload : list Z) (to : NetAddrPort) | nothing_to_send.

(** One round of the loop: an answer, or another round. *)
Definition create_round (buf : maybe_resizable_buffer) (s : t) : option (option Sent * t) :=
  match SenderQue.deque (send_que s) with
  | None => Some (Some nothing_to_send, s)
  | Some (h, q) =>
      match handler_create_packet buf h (upd_que (fun _ => q) s) with
      | Some ((payload, path, idle), s) =>
          if negb idle then
            match handler_next_handler h s with
            | None => None
            | Some (next, s) =>
                let s := match next with Some n => upd_que (SenderQue.enque n true) s | None => s end in
                Some (None, upd_que (SenderQue.erase h) (remove h s))
            end
          else if size payload =? 0 then Some (None, upd_que (SenderQue.erase_and_enque_if_duplicated h) s)
          else
            match path with
            | None => None
            | Some path =>
                Some (Some (sent_bytes payload (get_peer_addr path s)),
                      upd_que (SenderQue.enque h false) (upd_que (SenderQue.erase h) s))
            end
      | None => None
      end
  end.

(** The outer [None]: the fuel is used up. *)
Fixpoint create_packet (fuel : nat) (buf : maybe_resizable_buffer) (s : t) : option (option (Sent * t)) :=
  match fuel with
  | O => None
  | S fuel =>
      match create_round buf s with
      | None => Some None
      | Some (Some r, s) => Some (Some (r, s))
      | Some (None, s) => create_packet fuel buf s
      end
  end.
End map.
Arguments t : clear implicits.
Arguments MultiplexerConfig : clear implicits.
End HandlerMap.
