(* ===== verification/SenderProps.v ===== *)
(** * The queue of senders under concurrent use

    [SenderQue] of [fnet/quic/server/server.h] is filled by any number of
    threads while one thread runs [HandlerMap::create_packet]. A step is one
    critical section, or the one [pop] outside of them; [phase] is where the
    thread that takes handlers is between its steps. A trace is the list of
    steps, in the order of the lock. *)

From stdpp Require Import base list gmap.
From Stdlib Require Import ZArith Lia.
From S2P Require Import Prelude Server.

Import SenderQue.

(** Between [deque] and the end of the round for a handler. *)
Inductive Phase :=
  | ph_idle
  | ph_popped (h : positive)   (* in [deque], before the lock *)
  | ph_running (h : positive)  (* in [create_packet] and [next_handler] *)
  | ph_resend (h : positive).  (* erased, to be put back *)

Inductive Event :=
  | ev_enque (h : positive) (timeout : bool)
  | ev_pop (h : positive)
  | ev_start (h : positive)
  | ev_empty (h : positive)
  | ev_drop (h : positive)
  | ev_sent (h : positive)
  | ev_again (h : positive).

Inductive step : SenderQue.t * Phase -> Event -> SenderQue.t * Phase -> Prop :=
  | step_enque q ph h timeout : step (q, ph) (ev_enque h timeout) (enque h timeout q, ph)
  | step_pop q h q' : pop q = Some (h, q') -> step (q, ph_idle) (ev_pop h) (q', ph_popped h)
  | step_start q h : step (q, ph_popped h) (ev_start h) (clear_duplicated h q, ph_running h)
  | step_empty q h : step (q, ph_running h) (ev_empty h) (erase_and_enque_if_duplicated h q, ph_idle)
  | step_drop q h : step (q, ph_running h) (ev_drop h) (erase h q, ph_idle)
  | step_sent q h : step (q, ph_running h) (ev_sent h) (erase h q, ph_resend h)
  | step_again q h : step (q, ph_resend h) (ev_again h) (enque h false q, ph_idle).

Inductive steps : SenderQue.t * Phase -> list Event -> SenderQue.t * Phase -> Prop :=
  | steps_nil m : steps m [] m
  | steps_cons m e m' es m'' : step m e m' -> steps m' es m'' -> steps m (e :: es) m''.

Lemma steps_app m es m' es' m'' : steps m es m' -> steps m' es' m'' -> steps m (es ++ es') m''.
Proof. induction 1; simpl; eauto using steps. Qed.

(** The handlers for which a call was made that is still to be answered: a
    notification since the last time [create_packet] of the handler started. *)
Definition owe (e : Event) (p : gset positive) : gset positive :=
  match e with
  | ev_enque h false | ev_again h => {[h]} ∪ p
  | ev_start h | ev_drop h => p ∖ {[h]}
  | _ => p
  end.
Definition owed (es : list Event) : gset positive := foldl (fun p e => owe e p) ∅ es.
Definition pops (es : list Event) : list positive := omap (fun e => match e with ev_pop h => Some h | _ => None end) es.

(** ** The invariant *)

Definition held (ph : Phase) : list positive :=
  match ph with ph_popped h | ph_running h => [h] | _ => [] end.

Definition awaits (m : SenderQue.t * Phase) (h : positive) : Prop :=
  h ∈ queue (fst m) \/ snd m = ph_popped h \/ snd m = ph_resend h \/ (snd m = ph_running h /\ h ∈ duplicated (fst m)).

Record que_ok (m : SenderQue.t * Phase) : Prop := {
  que_once : NoDup (queue (fst m) ++ held (snd m));
  que_set : forall h, h ∈ sender_set (fst m) <-> h ∈ queue (fst m) ++ held (snd m);
  que_dup : duplicated (fst m) ⊆ sender_set (fst m)
}.

Lemma nodup_push (l k : list positive) h : NoDup (l ++ k) -> h ∉ l ++ k -> NoDup ((l ++ [h]) ++ k).
Proof. intros N I. rewrite <- app_assoc, (Permutation_app_comm [h] k), app_assoc. apply NoDup_app. set_solver by eauto using NoDup_singleton. Qed.

Lemma enque_ok h timeout q ph : que_ok (q, ph) -> que_ok (enque h timeout q, ph).
Proof.
  intros [N S D]; simpl in *. unfold enque. case_bool_decide as I.
  - destruct timeout; split; simpl; auto. set_solver.
  - rewrite S in I. split; simpl; [by apply nodup_push | set_solver | set_solver].
Qed.

Lemma erase_ok h q ph : held ph = [] -> que_ok (q, ph_running h) -> que_ok (erase h q, ph).
Proof.
  intros E [N S D]; simpl in *. apply NoDup_app in N as (N1 & N2 & _).
  split; simpl; rewrite ?E, ?app_nil_r; [done | set_solver | set_solver].
Qed.

Lemma resend_ok h q : que_ok (q, ph_resend h) -> que_ok (q, ph_idle).
Proof. intros [N S D]. by split. Qed.

Lemma step_que_ok m e m' : step m e m' -> que_ok m -> que_ok m'.
Proof.
  destruct 1 as [q ph h timeout | q h q' P | q h | q h | q h | q h | q h]; intros K; try by apply enque_ok.
  - destruct q as [l s d]. unfold pop in P. simpl in P. destruct l as [| x l]; simplify_eq. destruct K as [N S D]; simpl in *.
    rewrite app_nil_r in *. split; simpl; [by rewrite (Permutation_app_comm l [h]) | set_solver | done].
  - destruct K as [N S D]; split; simpl in *; [done | done | set_solver].
  - destruct K as [N S D]; simpl in *. unfold erase_and_enque_if_duplicated. pose proof N as (N1 & N2 & _)%NoDup_app.
    case_bool_decide; split; simpl; rewrite ?app_nil_r; (done || set_solver).
  - by apply erase_ok with (ph := ph_idle).
  - by apply erase_ok with (ph := ph_resend h).
  - by apply enque_ok, resend_ok with h.
Qed.

(** A call leaves the handlers that wait waiting, and a notification makes
    its handler wait. *)
Lemma enque_awaits x timeout q ph h : awaits (q, ph) h -> awaits (enque x timeout q, ph) h.
Proof. unfold awaits, enque. simpl. repeat case_match; simpl; set_solver. Qed.

Lemma enque_notified h q ph : que_ok (q, ph) -> awaits (enque h false q, ph) h.
Proof.
  intros [N S D]. unfold awaits, enque. simpl in *. case_bool_decide as I; simpl; [| set_solver].
  apply S, elem_of_app in I as [I | I]; [auto |]. destruct ph; simpl in I; set_solver.
Qed.

(** A step that does not answer a handler leaves it waiting. *)
Lemma step_awaits m e m' p :
  step m e m' -> que_ok m -> (forall h, h ∈ p -> awaits m h) -> forall h, h ∈ owe e p -> awaits m' h.
Proof.
  destruct 1 as [q ph x timeout | q x q' P | q x | q x | q x | q x | q x]; simpl; intros K W h I.
  - destruct timeout; [auto using enque_awaits |].
    apply elem_of_union in I as [->%elem_of_singleton | I]; auto using enque_awaits, enque_notified.
  - destruct q as [[| y l] s d]; unfold pop in P; simpl in P; simplify_eq.
    specialize (W h I). unfold awaits in *. simpl in *. set_solver.
  - apply elem_of_difference in I as [I X%not_elem_of_singleton]. specialize (W h I). unfold awaits in *. simpl in *. naive_solver set_solver.
  - specialize (W h I). unfold awaits, erase_and_enque_if_duplicated in *. simpl in *. case_bool_decide; simpl; naive_solver set_solver.
  - apply elem_of_difference in I as [I X%not_elem_of_singleton]. specialize (W h I). unfold awaits in *. simpl in *. naive_solver set_solver.
  - specialize (W h I). unfold awaits in *. simpl in *. naive_solver set_solver.
  - apply elem_of_union in I as [->%elem_of_singleton | I]; [by apply enque_notified, resend_ok with x |].
    destruct (decide (h = x)) as [-> | X]; [by apply enque_notified, resend_ok with x |].
    apply enque_awaits. specialize (W h I). unfold awaits in *. simpl in *. naive_solver.
Qed.

Lemma steps_awaits m es m' p :
  steps m es m' -> que_ok m -> (forall h, h ∈ p -> awaits m h) ->
  que_ok m' /\ forall h, h ∈ foldl (fun p e => owe e p) p es -> awaits m' h.
Proof. intros R. revert p. induction R; intros p K W; simpl; eauto 6 using step_que_ok, step_awaits. Qed.

Lemma new_que_ok : que_ok (SenderQue.new, ph_idle).
Proof. split; simpl; [constructor | set_solver | set_solver]. Qed.

(** First in, first out, whatever the interleaving. *)
Lemma step_fifo m e m' : step m e m' -> exists rest, pops [e] ++ queue (fst m') = queue (fst m) ++ rest.
Proof.
  destruct 1 as [q ph x timeout | q x q' P | q x | q x | q x | q x | q x]; simpl;
    unfold enque, erase_and_enque_if_duplicated; repeat case_match; simpl;
    try (by exists []; rewrite app_nil_r); try (by eexists).
  destruct q as [[| y l] s d]; unfold pop in P; simpl in P; simplify_eq. exists []. by rewrite app_nil_r.
Qed.

Lemma pops_app es es' : pops (es ++ es') = pops es ++ pops es'.
Proof. unfold pops. by rewrite omap_app. Qed.

Lemma steps_fifo m es m' : steps m es m' -> exists rest, pops es ++ queue (fst m') = queue (fst m) ++ rest.
Proof.
  induction 1 as [m | m e m' es m'' S _ [r IH]]; [exists []; by rewrite app_nil_r |].
  destruct (step_fifo _ _ _ S) as [r' F]. exists (r' ++ r).
  change (e :: es) with ([e] ++ es). by rewrite pops_app, <- app_assoc, IH, app_assoc, F, app_assoc.
Qed.

(** ** The theorems *)

(** C6. A notification is never lost, whatever the interleaving of the threads
    that notify handlers with the one that serves them: when the serving
    thread is between two rounds, a handler with a notification it has not
    been run or dropped for is in the queue, once, at a place [i], and it is the handler
    taken in round [i + 1] from there, whatever is enqueued meanwhile. *)
Theorem notification_served es q h :
  steps (SenderQue.new, ph_idle) es (q, ph_idle) -> h ∈ owed es ->
  NoDup (queue q) /\
  exists i, queue q !! i = Some h /\
    forall es' m, steps (q, ph_idle) es' m -> (i < length (pops es'))%nat -> pops es' !! i = Some h.
Proof.
  intros R O. destruct (steps_awaits _ _ _ ∅ R new_que_ok) as [K W]; [set_solver |].
  destruct K as [N _ _]. simpl in N. rewrite app_nil_r in N. split; [done |].
  destruct (W h O) as [I | [I | [I | [I _]]]]; try done.
  apply list_elem_of_lookup in I as [i I]. simpl in I. exists i. split; [done |]. intros es' m R' L.
  destruct (steps_fifo _ _ _ R') as [r F]. simpl in F.
  rewrite <- (lookup_app_l _ (queue (fst m))) by done. rewrite F. by apply lookup_app_l_Some.
Qed.

(** Two threads notify a handler, the second while it runs. *)
Definition some_events : list Event :=
  [ev_enque 1 false; ev_enque 2 false; ev_pop 1; ev_enque 1 false; ev_start 1; ev_enque 1 false; ev_empty 1].
Definition some_queue : SenderQue.t := SenderQue.mk [2; 1]%positive {[1; 2]}%positive ∅.

Lemma notification_served_witness :
  NoDup (queue some_queue) /\
  exists i, queue some_queue !! i = Some 1%positive /\
    forall es' m, steps (some_queue, ph_idle) es' m -> (i < length (pops es'))%nat -> pops es' !! i = Some 1%positive.
Proof.
  apply (notification_served some_events).
  - repeat (eapply steps_cons; [constructor; try reflexivity |]).
    match goal with |- steps (?q, _) _ _ => replace q with some_queue by (vm_compute; reflexivity) end. constructor.
  - vm_compute. reflexivity.
Defined.
