(* ===== verification/ServerDemo.v ===== *)
(** * ServerDemo: two multiplexers that talk to each other

    The TLS stack, the clock and the saver of [ContextDemo], in connections
    that share the tables of a [HandlerMap]: one that opens a connection and
    one that accepts it. The theorems of [ServerProps] are applied to states
    of such runs. *)

From stdpp Require Import base list gmap strings.
From Stdlib Require Import ZArith Lia.
From S2P Require Import Prelude Bytes PacketNumber Types QTime Congestion Status AckRecord SentHistory RecvHistory StreamId StreamConn Datagram Keys CryptoStream KeyUpdate TransportParam ConnId Path Close QuicContext ContextRecv ContextDemo Server.

#[local] Open Scope Z_scope.
#[local] Open Scope list_scope.

Module ServerDemo.
Import Demo.

Definition conn : Type := QuicContext.t NewReno.t TLSState DatagramDropNull (list Z) (Mux Z).
Definition node : Type := HandlerMap.t NewReno.t TLSState DatagramDropNull (list Z) Z.

Definition counter : Random.t (Mux Z) :=
  Some (fun buf _ m => (true, map (fun _ => user m mod 256) buf, mk_mux (conn_ids m) (user m + 1))).

Definition quic_config : ContextRecv.Config NewReno.t TLSState DatagramDropNull (list Z) (Mux Z) :=
  ContextRecv.mk_context_config version_1 true None (ContextRecv.cfg_internal (config true)) (ContextRecv.cfg_mtu (config true)) 256 original_path params
    (mk_connid_config change_none 1000 10000 None counter 4 4)
    (mk_dgram_config 10 10) (ZeroRTTTokenManager.mk_storage None None) NewReno.new drop_null [].

Definition blank_conn : conn :=
  QuicContext.mk 0 (Status.reset default_config NewReno.new false 1200 0) TransportParameters.new
    (CryptoSuite.reset (mk_tls [] None 0) false) SentPacketHistory.reset RecvPacketHistory.reset
    IDManager.new [] (ZeroRTTTokenManager.mk (ZeroRTTTokenManager.mk_storage None None) [] None) (MTU.reset default_mtu_config)
    (PathVerifier.reset original_path 256) (Closer.reset []) not_closed (Conn.new StreamId.client [])
    (DatagramManager.reset 0 (mk_dgram_config 10 10) drop_null) ∅ (mk_mux ∅ 0) 0.

Definition no_callbacks : HandlerMap.MultiplexerConfig NewReno.t TLSState DatagramDropNull (list Z) Z :=
  HandlerMap.mk_mux_config (fun c => c) (fun c => c) (fun c => c).
Definition no_tls : TLSState + Error := inl (mk_tls [] None 0).
Definition clock (n : nat) : Z := 10000 + Z.of_nat n.

Definition address (port : Z) : NetAddrPort := mk_addr ipv4 (replicate 16 0) port.
Definition node0 (port seed : Z) : node :=
  HandlerMap.mk ∅ (mk_mux ∅ seed) SenderQue.new ∅ (PathMapper.new (address port)) 0.

Definition parse (d : list Z) (port : Z) (s : node) : option node :=
  HandlerMap.parse_udp_payload quic_config no_callbacks blank_conn no_tls [] d (address port) s.
Definition dial (port : Z) (s : node) : option (option positive * node) :=
  HandlerMap.open_internal no_callbacks blank_conn no_tls [] quic_config (address port) None s.
Definition create (s : node) : option (option (HandlerMap.Sent * node)) :=
  HandlerMap.create_packet no_callbacks no_callbacks clock (S (2 * length (SenderQue.queue (HandlerMap.send_que s)))) buffer s.

Definition or_stay {X} (x : option X) (s : X) : X := default s x.
Definition client1 : node := snd (or_stay (dial 443 (node0 1234 1)) (None, node0 1234 1)).
Definition server1 : node := node0 443 100.

(** One datagram from [a] to [b], if [a] has one. *)
Definition relay (port : Z) (a b : node) : node * node :=
  match create a with
  | Some (Some (HandlerMap.sent_bytes d _, a)) => (a, or_stay (parse d port b) b)
  | Some (Some (HandlerMap.nothing_to_send, a)) => (a, b)
  | _ => (a, b)
  end.
Fixpoint exchange (n : nat) (c s : node) : node * node :=
  match n with
  | O => (c, s)
  | S n => let '(c, s) := relay 1234 c s in let '(s, c) := relay 443 s c in exchange n c s
  end.

(** The connections of a node that are established. *)
Definition established_conns (s : node) : list (positive * bool) :=
  map (fun '(k, x) => (k, match x with
                          | HOpened o => QuicContext.handshake_confirmed (Server.ctx o) && negb (QuicContext.is_closed (Server.ctx o))
                          | HClosed _ => false
                          end)) (map_to_list (HandlerMap.heap s)).

(** The application closes a connection. *)
Definition close_conn (h : positive) (s : node) : node :=
  match HandlerMap.heap s !! h with
  | Some (HOpened o) =>
      match HandlerMap.on_ctx (QuicContext.request_close (err_app 7 [98; 121; 101])) o (HandlerMap.mux s) with
      | Some (_, o, w) => HandlerMap.notify h (HandlerMap.store h o w s)
      | None => s
      end
  | _ => s
  end.
Definition sends_nothing (s : node) : bool :=
  match create s with Some (Some (HandlerMap.nothing_to_send, _)) => true | _ => false end.

(** What is there is what [default] gives. *)
Definition there {X} (x : option X) : bool := if x then true else false.
Lemma default_there {X} (d : X) (x : option X) : there x = true -> x = Some (default d x).
Proof. by destruct x. Qed.
Definition opened_at (h : positive) (s : node) : option (Opened conn) :=
  match HandlerMap.heap s !! h with Some (HOpened o) => Some o | _ => None end.
Lemma opened_there d h s : there (opened_at h s) = true -> HandlerMap.heap s !! h = Some (HOpened (default d (opened_at h s))).
Proof. unfold opened_at. by destruct (HandlerMap.heap s !! h) as [[o | x] |]. Qed.
End ServerDemo.
