(* ===== verification/ServerProps.v ===== *)
(** * Theorems on the server

    [HandlerMap] of [Server]: the loop that looks for a datagram to send
    returns, it uses the queue as [SenderProps] allows, the list of handlers
    with deadlines holds open connections only, a datagram reaches one
    connection, and what becomes of the packet that closes a connection. *)

From stdpp Require Import base list gmap strings.
From Stdlib Require Import ZArith Lia.
From S2P Require Import Prelude Bytes PacketNumber Types PacketBase LongPacket ShortPacket PacketParse QTime Congestion Status StreamConn Datagram Keys PacketProtect CryptoStream KeyUpdate TransportParam ConnId Path Close QuicContext ContextRecv ContextKeeps ContextTracks ContextDemo Server SenderProps ServerDemo.

#[local] Open Scope Z_scope.
#[local] Open Scope list_scope.

Import HandlerMap.

Section Server.
Context {A T D V U : Type} `{Env} `{Algorithm A} `{CryptoLib} `{TLS T} `{TLSConn T} `{DropDetector D} `{ConnHandler V}.
#[local] Abbreviation Ctx := (QuicContext.t A T D V (Mux U)).
#[local] Abbreviation t := (HandlerMap.t A T D V U).
Context (quic_server_config : ContextRecv.Config A T D V (Mux U)) (server_config client_config : MultiplexerConfig A T D V U)
  (fresh_ctx : Ctx) (new_tls : T + Error) (none_text : list Z)
  (set_order : gset positive -> list positive) (clock : nat -> Z).

(** ** What the operations leave alone *)

(** A connection stays one, and stays discarded. *)
Definition kind_le (x y : Handler Ctx) : Prop :=
  match x, y with
  | HOpened o, HOpened o' => discard o = true -> discard o' = true
  | HClosed _, HClosed _ => True
  | _, _ => False
  end.
Definition grows (s s' : t) : Prop := forall k x, heap s !! k = Some x -> exists y, heap s' !! k = Some y /\ kind_le x y.

Lemma kind_le_refl x : kind_le x x.
Proof. destruct x; simpl; auto. Qed.
#[local] Instance grows_preorder : PreOrder grows.
Proof.
  split; [intros s k x E; eauto using kind_le_refl |]. intros s1 s2 s3 G1 G2 k x E.
  destruct (G1 k x E) as (y & Ey & K1). destruct (G2 k y Ey) as (z & Ez & K2). exists z. split; [done |].
  destruct x, y, z; simpl in *; auto.
Qed.

Lemma grows_put h x y s : heap s !! h = Some x -> kind_le x y -> grows s (put h y s).
Proof.
  intros E K k z Ez. unfold put. simpl. destruct (decide (k = h)) as [-> | N].
  - rewrite lookup_insert_eq. simplify_eq. eauto.
  - rewrite lookup_insert_ne by done. eauto using kind_le_refl.
Qed.
Lemma grows_new h y s : heap s !! h = None -> grows s (put h y s).
Proof. intros E k z Ez. unfold put. simpl. rewrite lookup_insert_ne by naive_solver. eauto using kind_le_refl. Qed.
Lemma grows_eq s s' s'' : heap s' = heap s'' -> grows s s' -> grows s s''.
Proof. unfold grows. by intros ->. Qed.

Lemma on_ctx_discard {X} (m : QuicContext.M A T D V (Mux U) X) o w x o' w' :
  on_ctx m o w = Some (x, o', w') -> discard o' = discard o /\ closed o' = closed o.
Proof. unfold on_ctx. repeat case_match; intros; by simplify_eq. Qed.

Lemma create_packet_frame buf h s v s' : handler_create_packet clock buf h s = Some (v, s') ->
  send_que s' = send_que s /\ handlers s' = handlers s /\ grows s s'.
Proof.
  unfold handler_create_packet. destruct (heap s !! h) as [[o | x] |] eqn:Eh; [| | done].
  - unfold opened_create_packet. destruct (on_ctx _ o _) as [[[r o1] w] |] eqn:Eo; [| done].
    apply on_ctx_discard in Eo as [Ed _].
    destruct (QuicContext.is_closed _); intros; simplify_eq/=; (split_and!; [done | done |]);
      (eapply grows_eq; [| eapply (grows_put h _ (HOpened _)); [done |]]; [done | simpl; congruence]).
  - unfold tick. destruct (closed_create_packet _ x) as [r y]. intros; simplify_eq/=. split_and!; [done | done |].
    eapply grows_eq; [| by eapply (grows_put h _ (HClosed y))]. done.
Qed.

(** What [next_handler] does to the other parts: a handler that takes over
    is a new object, and the one before was not discarded. *)
Definition hands_over (h : positive) (s s' : t) (next : option positive) : Prop :=
  send_que s' = send_que s /\ handlers s' = handlers s /\ grows s s' /\
  forall n, next = Some n -> heap s !! n = None /\ (exists x, heap s' !! n = Some (HClosed x)) /\
    exists o, heap s !! h = Some (HOpened o) /\ discard o = false.

Lemma no_next h s s' : send_que s' = send_que s -> handlers s' = handlers s -> heap s' = heap s -> hands_over h s s' None.
Proof. intros Q L E. repeat split; [done | done | by apply (grows_eq _ s) | done..]. Qed.

Lemma next_handler_frame h s next s' :
  handler_next_handler server_config client_config h s = Some (next, s') -> hands_over h s s' next.
Proof.
  unfold handler_next_handler. destruct (heap s !! h) as [[o | x] |] eqn:Eh; [| intros E; injection E as <- <-; by apply no_next | done].
  unfold opened_next_handler. destruct (negb (closed o) || discard o) eqn:Ec; [intros E; injection E as <- <-; by apply no_next |].
  apply orb_false_iff in Ec as [_ Ed].
  destruct (on_ctx _ o _) as [[[[[[b c] [path |]] ids] o1] w] |] eqn:Eo; [| done | done].
  assert (F : heap s !! fresh (dom (heap s)) = None) by apply not_elem_of_dom, is_fresh.
  intros E. injection E as <- <-. unfold hands_over. cbn [send_que handlers set_mux put set_heap].
  split; [done |]. split; [done |]. split.
  - transitivity (put h (HOpened (mk_opened (close_connection
        (if QuicContext.is_server (ctx o1) then server_config else client_config)
        (QuicContext.set_world (upd_conn_ids (ConnIDMap.replace_ids ids (fresh (dom (heap s)))) w) (ctx o1))) (closed o1) true (o_deadline o1))) s);
      [by eapply grows_put |].
    eapply grows_eq; [| eapply (grows_new (fresh (dom (heap s)))); simpl; rewrite lookup_insert_ne by naive_solver; done]. done.
  - intros n En. injection En as <-. split; [done |]. split; [| eauto]. simpl. rewrite lookup_insert_eq. eauto.
Qed.

(** ** The loop *)

(** How many rounds a handler of the queue can take. *)
Definition rounds (s : t) (h : positive) : nat :=
  match heap s !! h with Some (HClosed _) => 1 | Some (HOpened o) => if discard o then 1 else 2 | None => 2 end.
Definition measure (l : list positive) (s : t) : nat := sum_list (map (rounds s) l).

Lemma rounds_grows s s' h : grows s s' -> (rounds s' h <= rounds s h)%nat.
Proof.
  intros G. unfold rounds. destruct (heap s !! h) as [x |] eqn:E; [| repeat case_match; lia].
  destruct (G h x E) as (y & -> & K). destruct x as [o | x], y as [o' | x']; simpl in K; try done.
  destruct (discard o); [rewrite K by done; lia | case_match; lia].
Qed.
Lemma rounds_pos s h : (1 <= rounds s h <= 2)%nat.
Proof. unfold rounds. repeat case_match; lia. Qed.
Lemma measure_grows l s s' : grows s s' -> (measure l s' <= measure l s)%nat.
Proof. intros G. unfold measure. induction l as [| h l IH]; simpl; [lia |]. pose proof (rounds_grows s s' h G). lia. Qed.
Lemma measure_bound l s : (measure l s <= 2 * length l)%nat.
Proof. unfold measure. induction l as [| h l IH]; simpl; [lia |]. pose proof (rounds_pos s h). lia. Qed.
Lemma measure_cons h l s : measure (h :: l) s = (rounds s h + measure l s)%nat.
Proof. done. Qed.
Lemma measure_heap l s s' : heap s = heap s' -> measure l s' = measure l s.
Proof. unfold measure, rounds. by intros ->. Qed.
Lemma measure_app l k s : (measure (l ++ k) s = measure l s + measure k s)%nat.
Proof. unfold measure. by rewrite map_app, sum_list_with_app. Qed.

#[local] Abbreviation todo s := (measure (SenderQue.queue (send_que s)) s).

(** A round that answers nothing: its handler leaves the queue, and only a
    connection that has closed puts another one there. *)
Inductive quiet_round : t -> t -> Prop :=
  | quiet_drop h q s s1 s2 next :
      SenderQue.deque (send_que s) = Some (h, q) -> send_que s1 = q -> handlers s1 = handlers s -> grows s s1 ->
      hands_over h s1 s2 next ->
      quiet_round s (upd_que (SenderQue.erase h)
        (remove h (match next with Some n => upd_que (SenderQue.enque n true) s2 | None => s2 end)))
  | quiet_empty h q s s1 :
      SenderQue.deque (send_que s) = Some (h, q) -> send_que s1 = q -> handlers s1 = handlers s -> grows s s1 ->
      quiet_round s (upd_que (SenderQue.erase_and_enque_if_duplicated h) s1).

Inductive answered_round : t -> Sent -> t -> Prop :=
  | answered_nothing s : SenderQue.deque (send_que s) = None -> answered_round s nothing_to_send s
  | answered_bytes h q s s1 payload to :
      SenderQue.deque (send_que s) = Some (h, q) -> send_que s1 = q -> handlers s1 = handlers s -> grows s s1 ->
      payload <> [] ->
      answered_round s (sent_bytes payload to) (upd_que (SenderQue.enque h false) (upd_que (SenderQue.erase h) s1)).

Lemma create_round_cases buf s r s' : create_round server_config client_config clock buf s = Some (r, s') ->
  match r with None => quiet_round s s' | Some x => answered_round s x s' end.
Proof.
  unfold create_round. destruct (SenderQue.deque (send_que s)) as [[h q] |] eqn:Eq; [| intros E; injection E as <- <-; by constructor].
  destruct (handler_create_packet _ _ _ _) as [[[[payload path] idle] s1] |] eqn:Ec; [| done].
  apply create_packet_frame in Ec as (E1 & E2 & E3).
  assert (G : grows s s1) by (intros k x; exact (E3 k x)). simpl in E1, E2. destruct idle; simpl.
  - destruct (size payload =? 0) eqn:Ez; [intros E; injection E as <- <-; by eapply quiet_empty |].
    destruct path as [path |]; [| done]. intros E; injection E as <- <-. eapply answered_bytes; try done. by intros ->.
  - destruct (handler_next_handler _ _ _ _) as [[next s2] |] eqn:En; [| done].
    apply next_handler_frame in En. intros E; injection E as <- <-. by eapply quiet_drop.
Qed.

Lemma deque_inv q h q' : SenderQue.deque q = Some (h, q') ->
  SenderQue.queue q = h :: SenderQue.queue q' /\ q' = SenderQue.clear_duplicated h (SenderQue.mk (SenderQue.queue q') (SenderQue.sender_set q) (SenderQue.duplicated q)).
Proof. destruct q as [[| x l] st d]; unfold SenderQue.deque, SenderQue.pop; simpl; intros; by simplify_eq. Qed.

Lemma not_duplicated q h q' : SenderQue.deque q = Some (h, q') -> h ∉ SenderQue.duplicated q'.
Proof. intros [_ ->]%deque_inv. simpl. set_solver. Qed.

Lemma quiet_round_less s s' : quiet_round s s' -> (todo s' < todo s)%nat.
Proof.
  destruct 1 as [h q s s1 s2 next Eq E1 _ G (E2 & _ & G2 & N) | h q s s1 Eq E1 _ G];
    pose proof (deque_inv _ _ _ Eq) as [-> _]; rewrite measure_cons;
    pose proof (rounds_pos s h); pose proof (rounds_grows s s1 h G).
  - pose proof (measure_grows (SenderQue.queue q) s s2 ltac:(by etransitivity)) as M.
    destruct next as [n |]; simpl; rewrite (measure_heap _ s2) by done; rewrite E2, E1; [| lia].
    destruct (N n eq_refl) as (_ & [x Ex] & o & Eo & Ed). unfold SenderQue.enque.
    assert (R2 : rounds s1 h = 2%nat) by (unfold rounds; by rewrite Eo, Ed).
    assert (R1 : rounds s2 n = 1%nat) by (unfold rounds; by rewrite Ex).
    case_bool_decide; simpl; [lia |]. rewrite measure_app, measure_cons, R1. unfold measure at 2. simpl. lia.
  - simpl. rewrite (measure_heap _ s1) by done. unfold SenderQue.erase_and_enque_if_duplicated. rewrite E1.
    rewrite bool_decide_eq_false_2 by (by eapply not_duplicated). simpl.
    pose proof (measure_grows (SenderQue.queue q) s s1 G). lia.
Qed.

#[local] Abbreviation quiet buf := (fun s s' => create_round server_config client_config clock buf s = Some (None, s')).

(** The loop runs quiet rounds and ends with the first that is not. *)
Lemma create_packet_rounds buf n : forall s, (todo s < n)%nat ->
  exists k s1, (k < n)%nat /\ nsteps (quiet buf) k s s1 /\
    match create_round server_config client_config clock buf s1 with
    | None => forall fuel, (n <= fuel)%nat -> create_packet server_config client_config clock fuel buf s = Some None
    | Some (Some x, s') => forall fuel, (n <= fuel)%nat -> create_packet server_config client_config clock fuel buf s = Some (Some (x, s'))
    | Some (None, _) => False
    end.
Proof.
  induction n as [| n IH]; intros s M; [lia |].
  destruct (create_round server_config client_config clock buf s) as [[[x |] s'] |] eqn:E.
  - exists 0%nat, s. split; [lia |]. split; [constructor |]. rewrite E. intros [| fuel] L; [lia | simpl; by rewrite E].
  - pose proof (quiet_round_less _ _ (create_round_cases _ _ _ _ E)).
    destruct (IH s' ltac:(lia)) as (k & s1 & Hk & R & F). exists (S k), s1. split; [lia |]. split; [by econstructor |].
    assert (G : forall fuel, (S n <= fuel)%nat -> create_packet server_config client_config clock fuel buf s =
      create_packet server_config client_config clock (pred fuel) buf s') by (intros [| fuel] L; [lia | simpl; by rewrite E]).
    destruct (create_round _ _ _ buf s1) as [[[x |] s2] |]; [| done |]; intros fuel L; rewrite G by done; apply F; lia.
  - exists 0%nat, s. split; [lia |]. split; [constructor |]. rewrite E. intros [| fuel] L; [lia | simpl; by rewrite E].
Qed.

(** C22. The loop of [create_packet] ends. It runs at most two rounds without
    an answer for each handler in the queue, one for a connection and one for
    what takes over from it, and then a round that answers: with a datagram,
    which is not empty, or because the queue is empty; [create_packet]
    returns that answer, and more fuel does not change it. The only other
    way the rounds end is a call of a handler, or the reading of a path, that
    is itself undefined or does not return. *)
Theorem create_packet_returns buf s :
  let most := (2 * length (SenderQue.queue (send_que s)))%nat in
  exists k s1, (k <= most)%nat /\ nsteps (quiet buf) k s s1 /\
    match create_round server_config client_config clock buf s1 with
    | Some (Some x, s') =>
        (forall fuel, (most < fuel)%nat -> create_packet server_config client_config clock fuel buf s = Some (Some (x, s'))) /\
        match x with sent_bytes payload _ => payload <> [] | nothing_to_send => SenderQue.queue (send_que s') = [] end
    | Some (None, _) => False
    | None => exists h q, SenderQue.deque (send_que s1) = Some (h, q) /\
        let s2 := upd_que (fun _ => q) s1 in
        match handler_create_packet clock buf h s2 with
        | None => True
        | Some ((_, path, true), _) => path = None
        | Some ((_, _, false), s3) => handler_next_handler server_config client_config h s3 = None
        end
    end.
Proof.
  intros most. destruct (create_packet_rounds buf (S most) s) as (k & s1 & Hk & R & F).
  { pose proof (measure_bound (SenderQue.queue (send_que s)) s). unfold most. lia. }
  exists k, s1. split; [lia |]. split; [exact R |].
  destruct (create_round _ _ _ buf s1) as [[[x |] s'] |] eqn:E; [| done |].
  - split; [intros fuel L; apply F; lia |]. pose proof (create_round_cases _ _ _ _ E) as A0.
    destruct A0 as [s1 E0 | h q s1 s2 payload to Eq E1 L1 G P]; [| exact P].
    unfold SenderQue.deque, SenderQue.pop in E0. by destruct (SenderQue.queue (send_que s1)).
  - clear F. unfold create_round in E. destruct (SenderQue.deque (send_que s1)) as [[h q] |]; [| done]. exists h, q. split; [done |]. cbv zeta.
    destruct (handler_create_packet _ _ _ _) as [[[[payload path] []] s3] |]; [| | done]; simpl in E.
    + destruct (size payload =? 0); [done |]. by destruct path.
    + by destruct (handler_next_handler _ _ _ _) as [[next s4] |].
Qed.

(** ** A datagram in *)

(** The summary of the first packet of a datagram, with the connection ids of
    the server; [None] if it is not of a kind the server handles. *)
Definition note_cb : callback (option PacketSummary) := fun _ p _ _ _ s =>
  (true, match p with
         | APacket _ | ALongPacketBase _ | AVersionNegotiationPacket _ | AStatelessReset _ => s
         | _ => summarize p packetnum.infinity
         end).
Definition datagram_summary (d : list Z) : option PacketSummary :=
  match parse_packet authentication_tag_length note_cb (fun _ => false)
          (fun _ _ => (true, cf_connid_len (ContextRecv.cfg_connid quic_server_config))) (new_reader d, None) with
  | Some (_, (_, x)) => x
  | None => None
  end.

(** The callback is called at most once, with that packet. *)
Lemma parse_udp_payload_cases d addr s s' : size d <= u64_max ->
  parse_udp_payload quic_server_config server_config fresh_ctx new_tls none_text d addr s = Some s' ->
  exists pid s1, get_path_id addr s = Some (pid, s1) /\
    match datagram_summary d with
    | None => s' = s1
    | Some summary => handle_packet quic_server_config server_config fresh_ctx new_tls none_text summary d pid s1 = Some s'
    end.
Proof.
  intros L. unfold parse_udp_payload, datagram_summary. destruct (get_path_id addr s) as [[pid s1] |]; [| done]. intros E. exists pid, s1. split; [done |].
  destruct (rd_empty (new_reader d)) eqn:Ee.
  { unfold parse_packet in *. rewrite Ee in *. by simplify_eq. }
  destruct (parse_packet_event authentication_tag_length (fun _ => false)
    (fun _ _ => (true, cf_connid_len (ContextRecv.cfg_connid quic_server_config))) (new_reader d)) as [[ty p err valid r'] [R _]];
    [split; [cbn; lia | done] | done |].
  rewrite R in E. rewrite R. unfold run_event, packet_cb in E. unfold run_event, note_cb. simpl in E |- *.
  destruct p; simpl in E |- *; simplify_eq; done.
Qed.

(** What an operation on the handler [h] leaves alone. *)
Record only (h : positive) (s s' : t) : Prop := {
  only_heap : forall k, k <> h -> heap s' !! k = heap s !! k;
  only_paths : paths s' = paths s;
  only_queue : forall k, k <> h -> (k ∈ SenderQue.queue (send_que s') <-> k ∈ SenderQue.queue (send_que s));
  only_handlers : forall k, k <> h -> (k ∈ handlers s' <-> k ∈ handlers s)
}.

Lemma only_store h o w s : only h s (store h o w s).
Proof. split; simpl; auto. intros k N. by rewrite lookup_insert_ne. Qed.
Lemma only_notify h s : only h s (notify h s).
Proof. split; simpl; auto. unfold SenderQue.enque. intros k N. repeat case_match; simpl; set_solver. Qed.
Lemma only_trans h s s1 s2 : only h s s1 -> only h s1 s2 -> only h s s2.
Proof.
  intros [A1 B1 C1 D1] [A2 B2 C2 D2].
  split; [intros k N; by rewrite A2, A1 | by rewrite B2 | intros k N; by rewrite C2, C1 | intros k N; by rewrite D2, D1].
Qed.
Lemma only_enlist h o w s : only h s (enlist h (store h o w s)).
Proof.
  eapply only_trans; [apply only_store |]. eapply only_trans; [apply only_notify |].
  split; try done. intros k N. simpl. set_solver.
Qed.
Lemma only_handle payload pid h s s' : handler_handle_packet payload pid h s = Some s' -> only h s s'.
Proof.
  unfold handler_handle_packet. destruct (heap s !! h) as [[o | x] |]; [| | done].
  - destruct (opened_handle_packet _ _ _ _) as [[o' w] |]; [| done]. intros E. injection E as <-. apply only_store.
  - intros E. injection E as <-. split; simpl; auto. intros k N. by rewrite lookup_insert_ne.
Qed.

Lemma only_new_conn orig d pid s s' :
  add_new_conn quic_server_config server_config fresh_ctx new_tls none_text orig d pid s = Some s' ->
  only (fresh (dom (heap s))) s s'.
Proof.
  unfold add_new_conn. destruct (create_opened _ _ _ _ _ s) as [[[[] o] w] |]; [| intros E; injection E as <-; apply only_store | done].
  destruct (call _ o w) as [o1 w1]. destruct (on_ctx _ o1 w1) as [[[[] o2] w2] |]; [| intros E; injection E as <-; apply only_store | done].
  destruct (call _ o2 w2) as [o3 w3]. destruct (on_ctx _ o3 w3) as [[[b o4] w4] |]; [| done]. intros E. injection E as <-. apply only_enlist.
Qed.

Lemma new_conn_there orig d pid s s' :
  add_new_conn quic_server_config server_config fresh_ctx new_tls none_text orig d pid s = Some s' ->
  is_Some (heap s' !! fresh (dom (heap s))).
Proof.
  assert (K : forall h (o : Opened Ctx) w (s0 : t), is_Some (heap (store h o w s0) !! h)) by (intros; simpl; rewrite lookup_insert_eq; eauto).
  unfold add_new_conn. destruct (create_opened _ _ _ _ _ s) as [[[[] o] w] |]; [| intros E; injection E as <-; apply K | done].
  destruct (call _ o w) as [o1 w1]. destruct (on_ctx _ o1 w1) as [[[[] o2] w2] |]; [| intros E; injection E as <-; apply K | done].
  destruct (call _ o2 w2) as [o3 w3]. destruct (on_ctx _ o3 w3) as [[[b o4] w4] |]; [| done]. intros E. injection E as <-. apply K.
Qed.

(** C21. A datagram is for one connection. After [parse_udp_payload], apart
    from the table of paths: if the datagram has no packet the server handles,
    nothing has changed. Otherwise let [summary] be that of its first packet.
    If the table of ids has a handler for its destination id, that handler
    alone was given the datagram, and it is in the queue of senders or on its
    way through it. If not, and the packet is an Initial packet of the
    version of the server in at least 1200 bytes, a new handler alone was
    added; in all other cases nothing has changed. The other handlers, their
    places in the queue and on the list of handlers are as before. *)
Theorem datagram_for_one d addr s s' :
  size d <= u64_max ->
  parse_udp_payload quic_server_config server_config fresh_ctx new_tls none_text d addr s = Some s' ->
  exists pid s1, get_path_id addr s = Some (pid, s1) /\ set_paths (paths s) s1 = s /\
    match datagram_summary d with
    | None => s' = s1
    | Some summary =>
        match conn_ids (mux s) !! ps_dstID summary with
        | Some h => exists s2, handler_handle_packet d pid h s1 = Some s2 /\ s' = notify h s2 /\
                      only h s1 s' /\ h ∈ SenderQue.sender_set (send_que s')
        | None =>
            if bool_decide (ps_type summary = Initial) && (1200 <=? size d) &&
               (ps_version summary =? ContextRecv.cfg_version quic_server_config)
            then exists h, heap s !! h = None /\ only h s1 s' /\ is_Some (heap s' !! h)
            else s' = s1
        end
    end.
Proof.
  intros L E. apply parse_udp_payload_cases in E as (pid & s1 & Ep & E); [| done]. exists pid, s1. split; [done |].
  assert (S1 : set_paths (paths s) s1 = s /\ mux s1 = mux s /\ heap s1 = heap s).
  { unfold get_path_id in Ep. destruct (PathMapper.get_path_id addr (paths s)) as [[? ?] |]; simplify_eq. by destruct s. }
  destruct S1 as (Es & Em & Eh). split; [done |]. destruct (datagram_summary d) as [summary |]; [| done].
  revert E. unfold handle_packet, ConnIDMap.lookup. rewrite Em. destruct (conn_ids (mux s) !! ps_dstID summary) as [h |] eqn:El.
  - destruct (handler_handle_packet d pid h s1) as [s2 |] eqn:E2; [| done]. intros E. injection E as <-. exists s2. split_and!; try done.
    + eapply only_trans; [by eapply only_handle | apply only_notify].
    + simpl. unfold SenderQue.enque. case_bool_decide; simpl; set_solver.
  - unfold opening_packet, is_server_supported. rewrite (Z.eqb_sym (ContextRecv.cfg_version _)). change initial_udp_datagram_size with 1200.
    rewrite Z.ltb_antisym. destruct (bool_decide (ps_type summary = Initial)); simpl; [| by intros [= <-]].
    destruct (1200 <=? size d); simpl; [| by intros [= <-]]. destruct (ps_version summary =? _); simpl; [| by intros [= <-]].
    intros E. exists (fresh (dom (heap s1))). split; [rewrite <- Eh; apply not_elem_of_dom, is_fresh |].
    split; [by eapply only_new_conn | by eapply new_conn_there].
Qed.

(** ** All operations *)

(** The operations of the server, one at a time, and what the application
    does to a connection in between. *)
Inductive server_step : t -> t -> Prop :=
  | sv_parse d addr s s' : size d <= u64_max ->
      parse_udp_payload quic_server_config server_config fresh_ctx new_tls none_text d addr s = Some s' -> server_step s s'
  | sv_open conf dest host r s s' :
      open_internal client_config fresh_ctx new_tls none_text conf dest host s = Some (r, s') -> server_step s s'
  | sv_round buf r s s' : create_round server_config client_config clock buf s = Some (r, s') -> server_step s s'
  | sv_schedule s : server_step s (schedule_send set_order clock s)
  | sv_notify h s : server_step s (notify h s)
  | sv_app h o c w s : heap s !! h = Some (HOpened o) ->
      server_step s (store h (mk_opened c (closed o) (discard o) (o_deadline o)) w s).

#[local] Abbreviation uses q q' := (exists es, steps (q, ph_idle) es (q', ph_idle)).

(** An operation keeps the handlers, uses the queue as [SenderProps] has it,
    and puts only connections on the list of handlers. *)
Record tame (s s' : t) : Prop := {
  tame_heap : grows s s';
  tame_queue : uses (send_que s) (send_que s');
  tame_handlers : forall h, h ∈ handlers s' -> h ∈ handlers s \/ exists o, heap s' !! h = Some (HOpened o)
}.
#[local] Instance tame_preorder : PreOrder tame.
Proof.
  split.
  - intros s. split; [reflexivity | exists []; constructor | auto].
  - intros s1 s2 s3 [G1 [es1 U1] L1] [G2 [es2 U2] L2].
    split; [by transitivity s2 | exists (es1 ++ es2); by eapply steps_app |].
    intros h I. destruct (L2 h I) as [I2 | ?]; [| by right]. destruct (L1 h I2) as [? | [o E]]; [by left | right].
    destruct (G2 h _ E) as ([o' | x] & E' & K); [eauto | done].
Qed.

Lemma tame_refl s : tame s s.
Proof. reflexivity. Qed.

Lemma tame_same s s' : grows s s' -> send_que s' = send_que s -> handlers s' = handlers s -> tame s s'.
Proof. intros G Q L. split; [done | rewrite Q; exists []; constructor | rewrite L; auto]. Qed.
Lemma tame_enque h b s : tame s (upd_que (SenderQue.enque h b) s).
Proof. split; [by apply (grows_eq _ s) | eexists [_]; eapply steps_cons; constructor | auto]. Qed.
Lemma tame_enlist h o w s : heap s !! h = None -> tame s (enlist h (store h o w s)).
Proof.
  intros E. transitivity (notify h (store h o w s)).
  - transitivity (store h o w s); [| apply tame_enque]. apply tame_same; try done.
    eapply grows_eq; [| by apply grows_new]. done.
  - split; [by apply (grows_eq _ (notify h (store h o w s))) | exists []; constructor |].
    intros k. simpl. rewrite elem_of_union, elem_of_singleton. intros [-> | I]; [right; rewrite lookup_insert_eq; eauto | auto].
Qed.
Lemma tame_store h o w s : heap s !! h = None -> tame s (store h o w s).
Proof. intros E. apply tame_same; try done. eapply grows_eq; [| by apply grows_new]. done. Qed.
Lemma fresh_free (s : t) : heap s !! fresh (dom (heap s)) = None.
Proof. apply not_elem_of_dom, is_fresh. Qed.

Lemma tame_path addr s pid s1 : get_path_id addr s = Some (pid, s1) -> tame s s1.
Proof.
  unfold get_path_id. destruct (PathMapper.get_path_id addr (paths s)) as [[i p] |]; [| done].
  intros E. injection E as <- <-. apply tame_same; try done. by apply (grows_eq _ s).
Qed.
Lemma tame_handle payload pid h s s' : handler_handle_packet payload pid h s = Some s' -> tame s s'.
Proof.
  unfold handler_handle_packet. destruct (heap s !! h) as [[o | x] |] eqn:Eh; [| | done].
  - unfold opened_handle_packet. destruct (discard o) eqn:Ed; [intros E; injection E as <- |].
    + apply tame_same; try done. eapply grows_eq; [| apply (grows_put h (HOpened o) (HOpened o)); [done | apply kind_le_refl]]. done.
    + destruct (on_ctx _ o _) as [[[r o'] w] |] eqn:Eo; [| done]. intros E. injection E as <-.
      apply tame_same; try done. eapply grows_eq; [| apply (grows_put h (HOpened o) (HOpened (set_deadline o'))); [done | simpl; by rewrite Ed]]. done.
  - intros E. injection E as <-. apply tame_same; try done. by eapply grows_put.
Qed.
Lemma tame_new_conn orig d pid s s' :
  add_new_conn quic_server_config server_config fresh_ctx new_tls none_text orig d pid s = Some s' -> tame s s'.
Proof.
  pose proof (fresh_free s). unfold add_new_conn.
  destruct (create_opened _ _ _ _ _ s) as [[[[] o] w] |]; [| intros E; injection E as <-; by apply tame_store | done].
  destruct (call _ o w) as [o1 w1]. destruct (on_ctx _ o1 w1) as [[[[] o2] w2] |]; [| intros E; injection E as <-; by apply tame_store | done].
  destruct (call _ o2 w2) as [o3 w3]. destruct (on_ctx _ o3 w3) as [[[b o4] w4] |]; [| done]. intros E. injection E as <-. by apply tame_enlist.
Qed.
Lemma tame_open conf dest host r s s' :
  open_internal client_config fresh_ctx new_tls none_text conf dest host s = Some (r, s') -> tame s s'.
Proof.
  unfold open_internal. destruct (get_path_id dest s) as [[pid s1] |] eqn:Ep; [| done]. intros E. transitivity s1; [by eapply tame_path |].
  assert (F : heap s1 !! fresh (dom (heap s)) = None).
  { unfold get_path_id in Ep. destruct (PathMapper.get_path_id dest (paths s)) as [[i p] |]; [| done].
    injection Ep as <- <-. exact (fresh_free s). }
  revert E. destruct (create_opened _ _ _ _ _ s1) as [[[[] o] w] |]; [| intros E; injection E as <- <-; by apply tame_store | done].
  destruct (call _ o w) as [o1 w1]. destruct (on_ctx _ o1 w1) as [[[[] o2] w2] |]; [| intros E; injection E as <- <-; by apply tame_store | done].
  destruct (call _ o2 w2) as [o3 w3]. intros E. injection E as <- <-. by apply tame_enlist.
Qed.
Lemma tame_parse d addr s s' : size d <= u64_max ->
  parse_udp_payload quic_server_config server_config fresh_ctx new_tls none_text d addr s = Some s' -> tame s s'.
Proof.
  intros L E. apply parse_udp_payload_cases in E as (pid & s1 & Ep & E); [| done].
  transitivity s1; [by eapply tame_path |]. destruct (datagram_summary d) as [summary |]; [| subst; apply tame_refl]. revert E.
  unfold handle_packet. destruct (ConnIDMap.lookup _ _) as [h |].
  - destruct (handler_handle_packet d pid h s1) as [s2 |] eqn:E2; [| done]. intros E. injection E as <-.
    transitivity s2; [by eapply tame_handle | apply tame_enque].
  - unfold opening_packet. repeat case_match; intros E; try (injection E as <-; apply tame_refl). by eapply tame_new_conn.
Qed.
Lemma tame_schedule s : tame s (schedule_send set_order clock s).
Proof.
  unfold schedule_send, tick. match goal with |- tame s (foldl ?f ?a ?l) => generalize l; intros ks; set (s1 := a) end.
  transitivity s1; [apply tame_same; try done; by apply (grows_eq _ s) |]. generalize s1. clear s1. simpl.
  induction ks as [| h l IH]; intros s1; simpl; [apply tame_refl |]. etransitivity; [| apply IH].
  repeat case_match; (apply tame_enque || apply tame_refl).
Qed.

Lemma uses_deque q h q' q'' es : SenderQue.deque q = Some (h, q') -> steps (q', ph_running h) es (q'', ph_idle) -> uses q q''.
Proof.
  intros E R. exists (ev_pop h :: ev_start h :: es). revert E. unfold SenderQue.deque.
  destruct (SenderQue.pop q) as [[x p] |] eqn:Ep; [| done]. intros E. injection E as <- <-.
  eapply steps_cons; [by constructor |]. eapply steps_cons; [constructor | done].
Qed.

Lemma tame_quiet s s' : quiet_round s s' -> tame s s'.
Proof.
  destruct 1 as [h q s s1 s2 next Eq E1 L1 G (E2 & L2 & G2 & _) | h q s s1 Eq E1 L1 G].
  - assert (G3 : grows s s2) by by transitivity s1.
    split; [destruct next; by apply (grows_eq _ s2) | | intros k; destruct next; simpl; rewrite L2, L1; set_solver].
    destruct next as [n |]; simpl; rewrite E2, E1.
    + eapply (uses_deque _ _ _ _ [ev_enque n true; ev_drop h]); [done |]. repeat (eapply steps_cons; [constructor |]). constructor.
    + eapply (uses_deque _ _ _ _ [ev_drop h]); [done |]. repeat (eapply steps_cons; [constructor |]). constructor.
  - split; [by apply (grows_eq _ s1) | | intros k; simpl; rewrite L1; auto]. simpl. rewrite E1.
    eapply (uses_deque _ _ _ _ [ev_empty h]); [done |]. repeat (eapply steps_cons; [constructor |]). constructor.
Qed.
Lemma tame_answered s x s' : answered_round s x s' -> tame s s'.
Proof.
  destruct 1 as [s | h q s s1 payload to Eq E1 L1 G _]; [apply tame_refl |].
  split; [by apply (grows_eq _ s1) | | intros k; simpl; rewrite L1; auto]. simpl. rewrite E1.
  eapply (uses_deque _ _ _ _ [ev_sent h; ev_again h]); [done |]. repeat (eapply steps_cons; [constructor |]). constructor.
Qed.

Lemma step_tame s s' : server_step s s' -> tame s s'.
Proof.
  destruct 1 as [d addr s s' L E | conf dest host r s s' E | buf r s s' E | s | h s | h o c w s E].
  - by eapply tame_parse.
  - by eapply tame_open.
  - apply create_round_cases in E. destruct r; [by eapply tame_answered | by apply tame_quiet].
  - apply tame_schedule.
  - apply tame_enque.
  - apply tame_same; try done. eapply grows_eq; [| apply (grows_put h (HOpened o)); [done |]]; [done | simpl; auto].
Qed.
Lemma run_tame s s' : rtc server_step s s' -> tame s s'.
Proof. induction 1; [apply tame_refl |]. etransitivity; [by apply step_tame | done]. Qed.

(** A server before its first operation. *)
Definition idle_server (s : t) : Prop := heap s = ∅ /\ send_que s = SenderQue.new /\ handlers s = ∅.

Lemma schedule_only h (s : t) : (forall X k, k ∈ set_order X -> k ∈ X) -> h ∉ handlers s ->
  h ∉ SenderQue.queue (send_que s) -> h ∉ SenderQue.queue (send_que (schedule_send set_order clock s)).
Proof.
  intros O N Q. unfold schedule_send, tick. simpl.
  assert (L : h ∉ set_order (handlers s)) by (intros I; by apply N, O). revert L.
  generalize (set_order (handlers s)). intros l. match goal with |- _ -> _ ∉ SenderQue.queue (send_que (foldl _ ?a _)) => set (s1 := a) end.
  assert (Q1 : h ∉ SenderQue.queue (send_que s1)) by done. revert Q1. generalize s1. clear s1.
  induction l as [| k l IH]; intros s1 Q1 L; simpl; [done |]. apply IH; [| set_solver].
  repeat case_match; try done. simpl. unfold SenderQue.enque. repeat case_match; simpl; set_solver.
Qed.

(** C23. What holds between the operations of a server: no handler is twice in
    the queue, the set of senders is the set of the queue, a duplicate is
    noted only for a handler of it, and the list of handlers with deadlines
    holds open connections only. So what takes over from a closed connection
    is not on that list: its timeout never puts it into the queue, and its
    connection ids stay in the table until a datagram comes for one of
    them. *)
Theorem closed_never_scheduled s0 s :
  (forall X k, k ∈ set_order X -> k ∈ X) -> idle_server s0 -> rtc server_step s0 s ->
  que_ok (send_que s, ph_idle) /\
  (forall h, h ∈ handlers s -> exists o, heap s !! h = Some (HOpened o)) /\
  (forall h x, heap s !! h = Some (HClosed x) -> h ∉ SenderQue.queue (send_que s) ->
     h ∉ SenderQue.queue (send_que (schedule_send set_order clock s))).
Proof.
  intros O (E1 & E2 & E3) R. apply run_tame in R as [_ [es Q] L]. rewrite E2 in Q. rewrite E3 in L.
  assert (L' : forall h, h ∈ handlers s -> exists o, heap s !! h = Some (HOpened o)) by (intros h I; destruct (L h I) as [? | ?]; [set_solver | done]).
  split; [eapply (steps_awaits _ _ _ ∅ Q new_que_ok); set_solver |]. split; [done |].
  intros h x Ex N. apply schedule_only; auto. intros I. destruct (L' h I) as [o Eo]. congruence.
Qed.

(** ** Closing *)

Lemma expose_local (c : Ctx) w x p :
  QuicContext.closed c = close_by_local_app \/ QuicContext.closed c = close_by_local_runtime ->
  QuicContext.expose_closed_context x p (QuicContext.set_world w c) =
    Some ((true, Closer.expose_closed_context (Status.get_close_deadline (QuicContext.status c)) (QuicContext.closer c),
           QuicContext.get_active_path c, IDManager.expose_close_data (QuicContext.connIDs c)), QuicContext.set_world w c).
Proof. unfold QuicContext.expose_closed_context, QuicContext.bind, QuicContext.get. simpl. by intros [-> | ->]. Qed.

#[local] Abbreviation closed_here c := (QuicContext.closed c = close_by_local_app \/ QuicContext.closed c = close_by_local_runtime).

(** The bytes made by a connection that closes are dropped. *)
Lemma closing_create buf h o (s : t) v (c : Ctx) : heap s !! h = Some (HOpened o) ->
  QuicContext.create_udp_payload buf (QuicContext.set_world (mux s) (ctx o)) = Some (v, c) -> closed_here c ->
  handler_create_packet clock buf h s =
    Some (([], Some original_path, false),
      store h (mk_opened c true (discard o) (QuicContext.get_earliest_deadline c)) (QuicContext.world c) s).
Proof.
  intros Eh Ec Er. unfold handler_create_packet. rewrite Eh. unfold opened_create_packet, on_ctx. rewrite Ec. simpl.
  assert (Hc : QuicContext.is_closed c = true) by (unfold QuicContext.is_closed; by destruct Er as [-> | ->]). by rewrite Hc.
Qed.

(** What takes over has what the connection exposes. *)
Lemma closing_next h (o : Opened Ctx) (s : t) next s' : heap s !! h = Some (HOpened o) -> closed o = true -> discard o = false -> closed_here (ctx o) ->
  handler_next_handler server_config client_config h s = Some (next, s') ->
  exists n x, next = Some n /\ heap s' !! n = Some (HClosed x) /\ c_deadline x = time.get_deadline (ClosedContext.close_timeout (c_ctx x)) /\
    c_ctx x = Closer.expose_closed_context (Status.get_close_deadline (QuicContext.status (ctx o))) (QuicContext.closer (ctx o)).
Proof.
  intros Eh Ec Ed Er. unfold handler_next_handler. rewrite Eh. unfold opened_next_handler. rewrite Ec, Ed. simpl. unfold on_ctx.
  rewrite expose_local by done. destruct (QuicContext.get_active_path (ctx o)); [| done]. intros E. injection E as <- <-.
  eexists _, _. split; [done |]. simpl. rewrite lookup_insert_eq. done.
Qed.

Lemma exposed_sends d k x : c_ctx x = Closer.expose_closed_context d k ->
  c_deadline x = time.get_deadline (ClosedContext.close_timeout (c_ctx x)) -> Closer.flag k = mk_close_flag true false false ->
  (forall now, fst (fst (fst (closed_create_packet now x))) = []) /\
  (forall now, 0 <= now <= c_deadline x -> fst (fst (fst (closed_create_packet now (closed_handle_packet x)))) = Closer.close_data k).
Proof.
  intros Ex Ed Ef. rewrite Ed. unfold closed_create_packet, closed_handle_packet. simpl. rewrite Ex.
  unfold Closer.expose_closed_context. rewrite Ef. unfold ClosedContext.parse_udp_payload, ClosedContext.create_udp_payload. simpl.
  split; intros now; [by destruct (_ || _) |]. unfold time.get_deadline. intros N.
  assert (F : time.not_working (time.set_deadline d) || time.timeout (time.set_deadline d) now = false); [| by rewrite F].
  unfold time.not_working, time.timeout, time.set_deadline, time.valid, time.invalid in *. destruct (0 <=? d) eqn:E0; simpl in *; [| lia].
  rewrite E0. simpl. apply andb_false_iff. right. lia.
Qed.

(** C39. The packet that closes a connection is not sent. When a connection
    makes it, [Opened::create_packet] finds the connection closed and drops
    the bytes; the handler that takes over, a new object put at the end of the queue,
    has them, and has nothing to send until a datagram comes for it, which
    makes it send them until its timeout. *)
Theorem close_packet_not_sent buf s h o l payload path ok c r s' :
  heap s !! h = Some (HOpened o) -> discard o = false -> SenderQue.queue (send_que s) = h :: l ->
  QuicContext.create_udp_payload buf (QuicContext.set_world (mux s) (ctx o)) = Some ((payload, path, ok), c) ->
  QuicContext.closed c = close_by_local_app \/ QuicContext.closed c = close_by_local_runtime ->
  Closer.flag (QuicContext.closer c) = mk_close_flag true false false ->
  create_round server_config client_config clock buf s = Some (r, s') ->
  r = None /\ h ∉ handlers s' /\
  exists n x, heap s !! n = None /\ heap s' !! n = Some (HClosed x) /\
    (n ∉ SenderQue.sender_set (send_que s) -> SenderQue.queue (send_que s') = l ++ [n]) /\
    (forall now, fst (fst (fst (closed_create_packet now x))) = []) /\
    (forall now, 0 <= now <= c_deadline x -> fst (fst (fst (closed_create_packet now (closed_handle_packet x)))) =
       Closer.close_data (QuicContext.closer c)).
Proof.
  intros Eh Ed Eq Ec Er Ef. unfold create_round.
  destruct (SenderQue.deque (send_que s)) as [[k q] |] eqn:Edq;
    [| unfold SenderQue.deque, SenderQue.pop in Edq; by rewrite Eq in Edq].
  pose proof (deque_inv _ _ _ Edq) as [Eq' Esq]. rewrite Eq in Eq'. injection Eq' as <- El.
  rewrite (closing_create buf h o (upd_que (fun _ => q) s) _ c Eh Ec Er). cbn [negb].
  destruct (handler_next_handler _ _ _ _) as [[next s2] |] eqn:En; [| done]. intros E. injection E as <- <-. split; [done |].
  pose proof (next_handler_frame _ _ _ _ En) as (Q2 & L2 & _ & N2).
  eapply closing_next in En as (n & x & -> & Hx & Dx & Cx); [| simpl; by rewrite lookup_insert_eq | done | done | done].
  destruct (N2 n eq_refl) as (Nn & _ & _). simpl in Nn, Q2, L2, Cx.
  split; [simpl; set_solver |]. exists n, x. split_and!; [| done | | by apply (exposed_sends _ _ x Cx Dx) ..].
  - by apply lookup_insert_None in Nn as [? _].
  - simpl. rewrite Q2. intros I. unfold SenderQue.enque. rewrite bool_decide_eq_false_2; [simpl; by rewrite El |].
    rewrite Esq. simpl. done.
Qed.
End Server.

(** ** Runs *)

Import ServerDemo.

(** Two servers that exchange datagrams, one of which has opened a
    connection to the other: after two datagrams each way both have one
    connection and it is established. When the application of the first
    closes it, no datagram is sent for it, now or later, what took over is
    gone with its connection ids, and the connection of the second stays as
    it is. *)
Theorem multiplexers_connect :
  let '(c, s) := exchange 2 client1 server1 in
  let '(c', s') := exchange 2 (close_conn 1 c) s in
  established_conns c = [(1%positive, true)] /\ established_conns s = [(1%positive, true)] /\
  sends_nothing (close_conn 1 c) = true /\ established_conns c' = [(2%positive, false); (1%positive, false)] /\
  conn_ids (mux c') = ∅ /\ SenderQue.queue (send_que c') = [] /\ established_conns s' = [(1%positive, true)].
Proof. vm_compute. repeat split. Qed.

Definition first_datagram : list Z :=
  match create client1 with Some (Some (sent_bytes d _, _)) => d | _ => [] end.
Lemma datagram_for_one_witness :
  size first_datagram = 1200 /\ option_map ps_type (datagram_summary quic_config first_datagram) = Some Initial /\
  exists pid s1, get_path_id (address 1234) server1 = Some (pid, s1) /\
    exists h, heap server1 !! h = None /\ only h s1 (default server1 (parse first_datagram 1234 server1)).
Proof.
  assert (L : size first_datagram = 1200) by (vm_compute; reflexivity). split; [exact L |].
  assert (E : there (parse first_datagram 1234 server1) = true) by (vm_compute; reflexivity).
  assert (F : match datagram_summary quic_config first_datagram with
    | Some s => bool_decide (ps_type s = Initial) && (ps_version s =? ContextRecv.cfg_version quic_config)
    | None => false end = true) by (vm_compute; reflexivity).
  destruct (datagram_for_one quic_config no_callbacks blank_conn no_tls [] first_datagram (address 1234) server1
    (default server1 (parse first_datagram 1234 server1))) as (pid & s1 & Ep & _ & M).
  - rewrite L. unfold u64_max. lia.
  - exact (default_there server1 _ E).
  - destruct (datagram_summary quic_config first_datagram) as [sm |]; [| discriminate F].
    apply andb_true_iff in F as [F1 F2]. split; [apply bool_decide_eq_true in F1; exact (f_equal Some F1) |].
    exists pid, s1. split; [exact Ep |].
    assert (N : conn_ids (mux server1) !! ps_dstID sm = None) by apply lookup_empty.
    rewrite N, F1, F2, L in M. destruct M as (h & H1 & H2 & _). exists h. split; [exact H1 | exact H2].
Defined.

Lemma client1_run : rtc (server_step quic_config no_callbacks no_callbacks blank_conn no_tls [] elements clock) (node0 1234 1) client1.
Proof.
  apply rtc_once. assert (E : there (dial 443 (node0 1234 1)) = true) by (vm_compute; reflexivity).
  pose proof (default_there (None, node0 1234 1) _ E) as E1.
  eapply sv_open with (r := fst (default (None, node0 1234 1) (dial 443 (node0 1234 1)))). unfold dial in E1 at 1. rewrite E1.
  unfold client1, or_stay. by destruct (default _ _).
Qed.
Lemma closed_never_scheduled_witness :
  que_ok (send_que client1, ph_idle) /\ (forall h, h ∈ handlers client1 -> exists o, heap client1 !! h = Some (HOpened o)).
Proof.
  edestruct (closed_never_scheduled quic_config no_callbacks no_callbacks blank_conn no_tls [] elements clock (node0 1234 1) client1) as (H1 & H2 & _);
    [intros X k; apply elem_of_elements | done | exact client1_run | split; [exact H1 | exact H2]].
Defined.

(** A connection is closed before its first datagram. *)
Definition closing : node := close_conn 1 client1.
Definition closing_conn : Opened conn := default (mk_opened blank_conn false false 0) (opened_at 1 closing).
Definition closing_result : QuicContext.result * conn :=
  default (([], None, false), blank_conn) (QuicContext.create_udp_payload Demo.buffer (QuicContext.set_world (mux closing) (ctx closing_conn))).
Definition closing_round : option Sent * node :=
  default (None, closing) (create_round no_callbacks no_callbacks clock Demo.buffer closing).
Definition closing_facts : bool :=
  there (opened_at 1 closing) && negb (discard closing_conn) &&
  there (QuicContext.create_udp_payload Demo.buffer (QuicContext.set_world (mux closing) (ctx closing_conn))) &&
  there (create_round no_callbacks no_callbacks clock Demo.buffer closing).

Lemma result_eta {X} (r : QuicContext.result * X) : r = (fst (fst (fst r)), snd (fst (fst r)), snd (fst r), snd r).
Proof. by destruct r as [[[p q] b] c]. Qed.

Lemma close_packet_not_sent_witness :
  size (Closer.close_data (QuicContext.closer (snd closing_result))) = 1200 /\
  fst closing_round = None /\ 1%positive ∉ handlers (snd closing_round).
Proof.
  assert (F : closing_facts = true) by (vm_compute; reflexivity). unfold closing_facts in F.
  apply andb_true_iff in F as [F F4]. apply andb_true_iff in F as [F F3]. apply andb_true_iff in F as [F1 F2].
  split; [vm_compute; reflexivity |].
  assert (Fq : SenderQue.queue (send_que closing) = [1%positive]) by (vm_compute; reflexivity).
  assert (Fc : QuicContext.closed (snd closing_result) = close_by_local_app) by (vm_compute; reflexivity).
  assert (Ff : Closer.flag (QuicContext.closer (snd closing_result)) = mk_close_flag true false false) by (vm_compute; reflexivity).
  destruct (close_packet_not_sent no_callbacks no_callbacks clock Demo.buffer closing 1 closing_conn []
    (fst (fst (fst closing_result))) (snd (fst (fst closing_result))) (snd (fst closing_result)) (snd closing_result)
    (fst closing_round) (snd closing_round)) as (H1 & H2 & _).
  - exact (opened_there (mk_opened blank_conn false false 0) _ _ F1).
  - by apply negb_true_iff in F2.
  - exact Fq.
  - etransitivity; [exact (default_there (([], None, false), blank_conn) _ F3) | exact (f_equal Some (result_eta closing_result))].
  - left. exact Fc.
  - exact Ff.
  - etransitivity; [exact (default_there (None, closing) _ F4) | exact (f_equal Some (surjective_pairing closing_round))].
  - split; [exact H1 | exact H2].
Defined.
